(* ===== verification/_CoqProject ===== *)
-Q . S2P
Prelude.v
Endian.v
ByteArray.v
ByteArrayFacts.v
ByteArrayProps.v
ByteArrayCodec.v
OrderedSet.v
Timer.v
FdManager.v
Stream.v
Text.v
Callbacks.v
Segments.v
Ragel.v
Http.v
HttpFacts.v
HttpGrammar.v
HttpFields.v
Servlet.v
Address.v
AddressFacts.v
AddressText.v
Fiber.v
Scheduler.v
SchedulerFacts.v
SchedulerRR.v
SchedulerWork.v
SchedulerEnds.v
IOManager.v
IOManagerFacts.v
Hook.v
HookFacts.v
HookCalls.v
Config.v
LogPattern.v
Log.v
LogFacts.v
Http11Table.v
Http11.v
Http11Facts.v
HttpParser.v
HttpParserFacts.v
HttpSession.v
HttpSessionFacts.v
HttpRoundTrip.v
HttpServer.v
UriTable.v
Uri.v
UriFacts.v
HttpClientTable.v
HttpClient.v
HttpClientFacts.v
HttpResponseParser.v
HttpResponseFacts.v
HttpConnection.v
HttpConnectionFacts.v
HttpResponseRoundTrip.v
HttpRequests.v
HttpRequestsFacts.v
HttpExchange.v
HttpConnectionPool.v
HttpConnectionPoolFacts.v
Socket.v
Network.v
SocketFacts.v
SocketStream.v
SocketStreamFacts.v
TcpServerConf.v
TcpServer.v
TcpServerFacts.v
HttpService.v
Thread.v
ThreadFacts.v
LexicalCast.v
LexicalCastFacts.v
ConfLexical.v
ConfLexicalFacts.v
ConfigTyped.v
ConfigStatics.v
Support.v
