(* ===== verification/Prelude.v ===== *)
(** * Coroutine-Webserve: a verification library

    The program under [src/webserve] is a coroutine web server in C++: fibers and
    an N:M scheduler, an epoll event manager with timers, hooked system calls, and
    on top of them byte buffers, streams, HTTP messages, servlets and addresses.
    This library models the code of each, the generated parsers included, and proves
    what makes it correct.

    ** How the program's parts interact

    [Scheduler::run] (scheduler.cc) is the loop of every worker thread: it takes a
    task from the shared queue and switches to its fiber (fiber.cc); when there is
    none it switches to an idle fiber.  IOManager (iomanager.cc) is a Scheduler and a
    TimerManager (timer.cc): its idle fiber waits in [epoll_wait] for at most the
    delay of the next timer, queues the callbacks of expired timers and the tasks
    waiting for the reported events.  The hooked calls (hook.cc) look a descriptor up
    in the FdManager (fd_manager.cc); where it is a socket, a call that would block
    records the fiber with [addEvent], optionally with a condition timer, and yields.
    Streams (stream.cc) loop over such calls.  HttpServer (http/http_server.cc) reads
    requests from an HttpSession (http/http_session.cc), which hands the bytes of a
    stream to the HttpRequestParser (http/http_parser.cc) around the state machine
    that Ragel generated (http/http11_parser.cc); it gives them to the
    ServletDispatch (http/servlet.cc) and writes the responses (http/http.cc).  In the
    other direction HttpConnection (http/http_connection.cc) resolves a Uri (uri.rl),
    writes a request and reads the response with HttpResponseParser and the second
    generated machine (http/httpclient_parser.cc); HttpConnectionPool keeps connections
    between requests.  ByteArray (bytearray.cc) is the program's serialisation buffer,
    Address (address.cc) its socket addresses.  Socket (socket.cc) wraps a descriptor and
    the hooked calls on it, SocketStream (streams/socket_stream.cc) is the stream over a
    Socket, and TcpServer (tcp_server.cc), the base of HttpServer, keeps the listening
    sockets, with an accept loop for each as a task of one scheduler and its clients as
    tasks of another.  The configuration (config.h) converts values to and from YAML text;
    loggers and servers are configured and printed through it.  Threads and locks
    (thread.cc, thread.h) are below all of them.

    ** How the model corresponds to the code

    An operation of a class is a function of the same name in the monad [M S] below:
    explicit state, with the outcomes of a C++ call - it returns, it throws, it runs
    into undefined behaviour or a failed assertion ([Undef]), or the fuel that bounds
    a loop is used up ([NoFuel]).  Structs are records with the code's field names,
    enums inductive types, objects shared by pointer live in stores indexed by
    address, integers are [Z] with the wrap-around of their width written out.

    - Endian: [byteswapOnLittleEndian] of endian.h for either byte order of the host.
    - ByteArray: the block list, the cursor and every reading and writing operation
      of bytearray.cc.  ByteArrayFacts and ByteArrayProps relate it to its abstract
      specification, a byte string with a position: [write], [read], [setPosition],
      [getReadBuffers], [writeToFile]; ByteArrayCodec has the round trips of the
      fixed-width, base-128, zigzag and string encodings.
    - OrderedSet: [std::set] as a sorted list, used by Timer: [addTimer], [cancel],
      [refresh], [reset], [getNextTimer], [listExpiredCb] of timer.cc, with the
      invariant that exactly the armed timers are in the set, in order.
    - FdManager: fd_manager.cc, the table of descriptor contexts against a finite map.
    - Fiber: fiber.cc; a saved machine context is what remains to be executed, user
      code is a script of its calls into the library.  Scheduler: the queue and [run]
      as a transition system in which any thread may move at any point where another
      can interfere.  SchedulerFacts: the choice of the next task, the counters and
      [stopping()] in every interleaving, and examples of two races the code allows;
      SchedulerRR: with one worker thread it is a FIFO round-robin scheduler, which
      empties its queue and ends.  SchedulerWork: with any number of threads, callbacks are
      done exactly once in every interleaving; SchedulerEnds: and a stopped scheduler ends
      whenever every thread keeps moving.
    - IOManager: iomanager.cc over Scheduler and Timer; the kernel's epoll set is the
      parameter [Epoll] with the documented laws [EpollLaws].  IOManagerFacts: the
      registrations as a map from (descriptor, event) to the waiting task.
    - Hook: [do_io], [connect_with_timeout], [fcntl], [ioctl], [setsockopt], the
      sleeps of hook.cc over IOManager and FdManager.  While a fiber is suspended in
      a call everything else runs: an arbitrary transformation of the state.
      HookFacts: what a hooked call returns, how a waiting fiber is woken, the user's
      view of O_NONBLOCK.  HookCalls: the table of the original functions, and which of
      its branches [fcntl] takes for every command.
    - Stream: the fixed-size transfers of stream.cc against an interface [Stream] with
      laws, and an instance that returns data in arbitrary chunks.  Segments: texts on a
      stream.
    - Text: the C string functions the HTTP code uses.  Http, HttpFacts: http/http.h
      and http.cc - method and status tables, the case-insensitive header maps as
      finite maps over folded keys, the text of requests and responses.
    - Servlet: registration, routing and dispatch of http/servlet.cc.
    - Callbacks: what the two message parsers share, http11_common.h: marks into a buffer
      and function pointers to the object that uses the parser.  HttpFields: the lines of
      header fields, as both print and read them.
    - Ragel: what the code around the labels of a generated parser does, given its
      tables, and how runs compose; a machine is shown by computation to follow a small
      automaton of HttpGrammar.  Http11Table: the tables of http11_parser.cc, one row
      per label.  Http11, Http11Facts: the parser's record, its actions and
      [http_parser_execute], safe on every buffer.  HttpParser: HttpRequestParser and
      the callbacks of http_parser.cc; HttpParserFacts: it reads every request head of
      the grammar.
    - HttpSession, HttpSessionFacts: [recvRequest] and [sendResponse] over a Stream that
      delivers in pieces; a read behind the end of the buffer would be an [Undef].
      HttpRoundTrip: what a client prints, the session receives; and which other request
      it receives when the head arrives in two reads.
    - HttpServer: the loop of [HttpServer::handleClient] against an interface [Session],
      which HttpSession implements.
    - UriTable, Uri, UriFacts: the tables of uri.rl.cc, [Uri::Create] and the text of a
      URI, with their round trip.
    - HttpClientTable, HttpClient, HttpClientFacts: the tables of httpclient_parser.cc, its
      record and actions and [httpclient_parser_execute]; where it is safe, and where it
      is not.  HttpResponseParser: the response parser of http_parser.cc;
      HttpResponseFacts: it reads every response head of the grammar.
    - HttpConnection: [recvResponse] - a head, then a body of known length or in chunks -
      and [sendRequest]; HttpConnectionFacts: it ends on every stream, and what each end
      means, by rules for every phase of the exchange.
      HttpResponseRoundTrip: what a server prints, the client receives, but for the body.
    - HttpRequests: [DoGet], [DoPost] and [DoRequest], from a URL to an HttpResult;
      HttpRequestsFacts: the request they build, as a server receives it; HttpExchange:
      what each result says about how far the exchange came.
    - HttpConnectionPool: [getConnection], [ReleasePtr] and the requests of the pool;
      HttpConnectionPoolFacts: threads that share a pool, as a transition system over
      their critical sections, and a request over a pooled connection.
    - Address, AddressFacts: address.cc - masks, printing, the order on addresses, the
      front end of the resolver, Unix paths.  AddressText: addresses from numeric texts and
      from interfaces, and readers of the standard's texts for the parameter [inet_pton];
      what an address prints is read back as that address.
    - Config: config.h and config.cc - configuration variables with listeners, the
      flattening of a YAML tree and what a load changes.
    - LogPattern: the levels, the format items and the pattern compiler of log.cc.
      Log, LogFacts: loggers and appenders in stores by address, the manager, where
      a log line goes, and the listener of the "logs" configuration.
    - ConfigTyped: the operations of Config in any order keep the types of the variables.
      ConfigStatics: the variables of http_parser.cc and hook.cc, and the static copies their
      listeners maintain, which follow the variables.
    - LexicalCast: the conversions of config.h between containers and YAML text, over the
      interface [Yaml] of the YAML library with its laws [YamlLaws]; at the end, an instance
      of it.  LexicalCastFacts: their round trips.  ConfLexical: the conversions of
      TcpServerConf (tcp_server.h) and LogDefine (log.cc), and what loggers print of
      themselves; ConfLexicalFacts: that text is read back as the definitions of the
      loggers.
    - Socket: socket.cc over the interface [Net] of the system calls.  Network: the laws
      [NetLaws] - a descriptor that is opened is new, only closing gives it up, and a cancel
      is for an open one: at -1 it indexes a table out of bounds - and
      [NetData], what is received and sent, with a concrete network.  SocketFacts: the
      descriptors of any program of socket objects.
    - SocketStream: socket_stream.cc, an instance of the interface Stream, with a ByteArray
      on the caller's side; SocketStreamFacts: what one array sends, the other receives.
    - TcpServerConf, TcpServer: tcp_server.h and tcp_server.cc; the socket objects are in a
      store, shared pointers keep them alive, the queued tasks of the two schedulers are
      lists from which any task may be taken.  TcpServerFacts: the life of a server in any
      order of calls and tasks.
    - HttpService: HttpServer as a TcpServer - the session on a client's socket and the
      fiber that serves it, which ends for every client and gives the descriptor back.
    - Thread, ThreadFacts: thread.cc and thread.h - the semaphore, the locks as their flag
      or counters, the guards as step relations of any number of them, the start, renaming
      and destruction of a thread as interleaved steps of two threads, the renaming of a
      destroyed object among them.
    - Support: the clocks and backtraces of util.cc, and what the components print of
      themselves: [Scheduler::dump], the names of epoll events, [Config::Visit], log events
      with printf.

    ** What the theorems show

    Refinements of an abstract specification: ByteArray against a byte string, header
    maps and registrations against finite maps, the single-threaded scheduler against
    a round-robin queue.  Round trips of every encoding.  Invariants preserved by
    every operation: timers, the descriptor table, the scheduler's counters in every
    interleaving, the event manager, the ownership of pooled connections and of the
    descriptors of sockets and servers, mutual exclusion, the types of configuration
    variables, the statics that copy them.  A stopped server gives up every socket.  A stopped scheduler has
    done each of its callbacks once, and ends.  The functional behaviour of the operations
    on all branches, the failing ones included: where the code runs into undefined
    behaviour, or does something else than it means to, the theorem says so, with the
    condition under which it happens.

    ** Bounds and fuel

    Loops that consume a list are structural.  [write_loop], [read_loop] and their
    kin get the number of bytes as fuel, since every turn moves at least one; the
    fixed-size transfers get the remaining length, since a stream that returns no
    byte ends them; [init_loop] gets the length of the pattern, [log] the two loggers
    a line can pass through; [CountBytes] gets the width, [digits] the number of digits;
    [client_loop] gets more than the number of requests, [recv_loop] more than the
    number of bytes that arrive, since every read that is not the last brings one, and so
    do the loops of [recvResponse], where every chunk takes its line from the stream; the
    theorems show the result is reached with the fuel used.  [startAccept] ends with the
    server; TcpServer takes one turn of it as one task.  [CASLock_spin] gets a number of
    attempts; one that finds the flag clear is enough, and while it is held all fail.  [origin_retry] gets one
    more than the number of results there are.  A generated parser consumes its text
    structurally.  The scheduler is an event-driven transition system without fuel; it
    ends in every fair interleaving, which is proved with a bound on the moves left.

    ** What is not modelled

    Allocation does not fail, and a [std::string] is refused only beyond its [max_size].
    SSLSocket and the virtual functions for it are commented out in the code.
    http11_parser.rl.cc and httpclient_parser.rl.cc have the text of http11_parser.cc and
    httpclient_parser.cc, which are modelled, but for the #line directives.  The text that
    printf makes, getaddrinfo, getifaddrs, fstat, opening files, strftime, the clock of the
    system, backtraces, the kernel's epoll and sockets, pthreads and the YAML library are outside the program: parameters. *)
From stdpp Require Export base numbers list option strings gmap sets.
From Stdlib Require Export ZArith Lia.
#[export] Set Default Proof Using "Type".
Open Scope Z_scope.

(** ** Outcomes of a C++ operation

    An operation of an object with state [S] either returns, raises a C++
    exception (the state reached so far is kept: the callers can observe it),
    runs into undefined behaviour or a failed assertion, or exhausts the fuel
    that bounds a loop of the model. *)
Inductive crash : Set :=
| NullDeref        (* a null pointer is dereferenced *)
| OutOfBounds      (* an access outside an allocated block or container *)
| AssertFail       (* SYLAR_ASSERT / assert *)
| DivByZero
| NegativeCount    (* a negative length handed to a stream or memcpy *)
| BadErase         (* erase of the end iterator *)
| BadFree          (* an object destroyed while it is in use, or twice *)
| Overflow         (* a signed integer overflows, or is shifted by its width *).

Inductive exn : Set :=
| ExnOutOfRange | ExnInvalidArgument | ExnLogicError | ExnLengthError | ExnBadCast | ExnBadFunctionCall.

Inductive result (S A : Type) : Type :=
| Done (s : S) (a : A)
| Raise (s : S) (e : exn)
| Undef (c : crash)
| NoFuel.
Arguments Done {S A} s a.
Arguments Raise {S A} s e.
Arguments Undef {S A} c.
Arguments NoFuel {S A}.

#[export] Instance crash_eq_dec : EqDecision crash.
Proof. solve_decision. Defined.
#[export] Instance exn_eq_dec : EqDecision exn.
Proof. solve_decision. Defined.

(** The state-and-error monad of the development, with stdpp's notations. *)
Definition M (S A : Type) : Type := S → result S A.

#[export] Instance M_ret {S} : MRet (M S) := λ A a s, Done s a.
#[export] Instance M_bind {S} : MBind (M S) := λ A B k m s,
  match m s with
  | Done s' a => k a s'
  | Raise s' e => Raise s' e
  | Undef c => Undef c
  | NoFuel => NoFuel
  end.

#[export] Instance M_fmap {S} : FMap (M S) := λ A B f m s,
  match m s with
  | Done s' a => Done s' (f a)
  | Raise s' e => Raise s' e
  | Undef c => Undef c
  | NoFuel => NoFuel
  end.

Definition get {S} : M S S := λ s, Done s s.
Definition gets {S A} (f : S → A) : M S A := λ s, Done s (f s).
Definition modify {S} (f : S → S) : M S () := λ s, Done (f s) ().
Definition raise {S A} (e : exn) : M S A := λ s, Raise s e.
Definition undef {S A} (c : crash) : M S A := λ _, Undef c.
Definition nofuel {S A} : M S A := λ _, NoFuel.
Definition assert_ {S} (b : bool) : M S () := if b then mret () else undef AssertFail.
Definition deref {S A} (o : option A) : M S A :=
  match o with Some a => mret a | None => undef NullDeref end.

Lemma bind_done {S A B} (m : M S A) (k : A → M S B) s s' a :
  m s = Done s' a → (m ≫= k) s = k a s'.
Proof. intros H. unfold mbind, M_bind. by rewrite H. Qed.
Lemma fmap_done {S A B} (f : A → B) (m : M S A) s s' a : m s = Done s' a → (f <$> m) s = Done s' (f a).
Proof. intros H. unfold fmap, M_fmap. by rewrite H. Qed.
Lemma bind_inv {S A B} (m : M S A) (k : A → M S B) s s' b :
  (m ≫= k) s = Done s' b → ∃ s1 a, m s = Done s1 a ∧ k a s1 = Done s' b.
Proof. unfold mbind, M_bind. destruct (m s) as [s1 a| | |]; intros H; try done. by exists s1, a. Qed.
Lemma bind_raise {S A B} (m : M S A) (k : A → M S B) s s' e :
  m s = Raise s' e → (m ≫= k) s = Raise s' e.
Proof. intros H. unfold mbind, M_bind. by rewrite H. Qed.
Lemma bind_undef {S A B} (m : M S A) (k : A → M S B) s c :
  m s = Undef c → (m ≫= k) s = Undef c.
Proof. intros H. unfold mbind, M_bind. by rewrite H. Qed.

(** ** Machine integers

    A w-bit unsigned integer is a [Z] in [0, 2^w); a signed one is a [Z] in
    [-2^(w-1), 2^(w-1)).  Conversions and unsigned arithmetic wrap. *)
Definition u8 (z : Z) : Z := z mod 2 ^ 8.
Definition u16 (z : Z) : Z := z mod 2 ^ 16.
Definition u32 (z : Z) : Z := z mod 2 ^ 32.
Definition u64 (z : Z) : Z := z mod 2 ^ 64.
Definition s8 (z : Z) : Z := (z + 2 ^ 7) mod 2 ^ 8 - 2 ^ 7.
Definition s16 (z : Z) : Z := (z + 2 ^ 15) mod 2 ^ 16 - 2 ^ 15.
Definition s32 (z : Z) : Z := (z + 2 ^ 31) mod 2 ^ 32 - 2 ^ 31.
Definition s64 (z : Z) : Z := (z + 2 ^ 63) mod 2 ^ 64 - 2 ^ 63.

Definition is_byte (z : Z) : Prop := 0 ≤ z < 2 ^ 8.
Definition is_u64 (z : Z) : Prop := 0 ≤ z < 2 ^ 64.

Lemma u8_small z : 0 ≤ z < 2 ^ 8 → u8 z = z.
Proof. apply Z.mod_small. Qed.
Lemma u16_small z : 0 ≤ z < 2 ^ 16 → u16 z = z.
Proof. apply Z.mod_small. Qed.
Lemma u32_small z : 0 ≤ z < 2 ^ 32 → u32 z = z.
Proof. apply Z.mod_small. Qed.
Lemma u64_small z : 0 ≤ z < 2 ^ 64 → u64 z = z.
Proof. apply Z.mod_small. Qed.
Lemma s32_small z : - 2 ^ 31 ≤ z < 2 ^ 31 → s32 z = z.
Proof. intros. unfold s32. rewrite Z.mod_small; lia. Qed.
Lemma s64_small z : - 2 ^ 63 ≤ z < 2 ^ 63 → s64 z = z.
Proof. intros. unfold s64. rewrite Z.mod_small; lia. Qed.
Lemma s32_add_l a b : s32 (s32 a + b) = s32 (a + b).
Proof.
  unfold s32. f_equal. replace ((a + 2 ^ 31) mod 2 ^ 32 - 2 ^ 31 + b + 2 ^ 31) with ((a + 2 ^ 31) mod 2 ^ 32 + b) by lia.
  rewrite Z.add_mod_idemp_l by lia. f_equal. lia.
Qed.
Lemma u64_range z : 0 ≤ u64 z < 2 ^ 64.
Proof. apply Z.mod_pos_bound. lia. Qed.
Lemma u32_range z : 0 ≤ u32 z < 2 ^ 32.
Proof. apply Z.mod_pos_bound. lia. Qed.
Lemma u8_range z : 0 ≤ u8 z < 2 ^ 8.
Proof. apply Z.mod_pos_bound. lia. Qed.

(** Removes the wrap-arounds whose argument is provably in range. *)
Ltac wrap_simpl :=
  repeat match goal with
  | |- context [u64 ?z] => rewrite (u64_small z) by lia
  | |- context [u32 ?z] => rewrite (u32_small z) by lia
  | |- context [u16 ?z] => rewrite (u16_small z) by lia
  | |- context [u8 ?z] => rewrite (u8_small z) by lia
  | |- context [s64 ?z] => rewrite (s64_small z) by lia
  | |- context [s32 ?z] => rewrite (s32_small z) by lia
  end.

(** Decides the boolean comparison of a conditional and closes absurd branches. *)
Ltac case_bool :=
  match goal with
  | |- context [if ?b then _ else _] =>
      lazymatch type of b with bool => destruct b eqn:? end
  end.
Ltac if_true := match goal with |- context [if ?b then _ else _] =>
  lazymatch type of b with bool => replace b with true by (symmetry; (lia || done)) end end.
Ltac if_false := match goal with |- context [if ?b then _ else _] =>
  lazymatch type of b with bool => replace b with false by (symmetry; (lia || done)) end end.

(** Closed lists of bytes. *)
Ltac solve_bytes := repeat constructor; unfold is_byte; lia.

(** ** Lists indexed by [Z] *)
Definition zlen {A} (l : list A) : Z := Z.of_nat (length l).
Definition ztake {A} (n : Z) (l : list A) : list A := take (Z.to_nat n) l.
Definition zdrop {A} (n : Z) (l : list A) : list A := drop (Z.to_nat n) l.
(** [n] elements starting at offset [p]. *)
Definition slice {A} (p n : Z) (l : list A) : list A := ztake n (zdrop p l).
(** overwrite with [d] at offset [p] (a [memcpy] into the block [l]). *)
Definition splice {A} (p : Z) (d l : list A) : list A :=
  ztake p l ++ d ++ zdrop (p + zlen d) l.

Lemma zlen_nonneg {A} (l : list A) : 0 ≤ zlen l.
Proof. unfold zlen; lia. Qed.
Lemma zlen_nil {A} : zlen (@nil A) = 0.
Proof. done. Qed.
Lemma zlen_cons {A} (x : A) l : zlen (x :: l) = 1 + zlen l.
Proof. unfold zlen; simpl; lia. Qed.
Lemma zlen_app {A} (l k : list A) : zlen (l ++ k) = zlen l + zlen k.
Proof. unfold zlen. rewrite length_app. lia. Qed.
Lemma zlen_ztake {A} n (l : list A) : 0 ≤ n ≤ zlen l → zlen (ztake n l) = n.
Proof. unfold zlen, ztake. intros. rewrite length_take. lia. Qed.
Lemma zlen_zdrop {A} n (l : list A) : 0 ≤ n ≤ zlen l → zlen (zdrop n l) = zlen l - n.
Proof. unfold zlen, zdrop. intros. rewrite length_drop. lia. Qed.
Lemma zlen_slice {A} p n (l : list A) :
  0 ≤ p → 0 ≤ n → p + n ≤ zlen l → zlen (slice p n l) = n.
Proof. intros. unfold slice. rewrite zlen_ztake; [done|]. rewrite zlen_zdrop; lia. Qed.
Lemma zlen_splice {A} p (d l : list A) :
  0 ≤ p → p + zlen d ≤ zlen l → zlen (splice p d l) = zlen l.
Proof.
  intros. unfold splice. pose proof (zlen_nonneg d).
  rewrite !zlen_app, zlen_ztake, zlen_zdrop; lia.
Qed.
Lemma zlen_fmap {A B} (f : A → B) (l : list A) : zlen (f <$> l) = zlen l.
Proof. unfold zlen. by rewrite length_fmap. Qed.
Lemma zlen_replicate {A} n (x : A) : zlen (replicate n x) = Z.of_nat n.
Proof. unfold zlen. by rewrite length_replicate. Qed.
Create Rewrite HintDb zlen.
#[export] Hint Rewrite @zlen_nil @zlen_cons @zlen_app @zlen_fmap @zlen_replicate : zlen.

Lemma ztake_app_split {A} p n (l : list A) :
  0 ≤ p → 0 ≤ n → ztake (p + n) l = ztake p l ++ slice p n l.
Proof.
  intros. unfold slice, ztake, zdrop.
  rewrite Z2Nat.inj_add by lia.
  rewrite <-(take_drop (Z.to_nat p) l) at 1.
  rewrite take_app.
  rewrite take_take, Nat.min_r by lia. f_equal.
  destruct (decide (Z.to_nat p ≤ length l)%nat).
  - rewrite length_take, Nat.min_l by lia. f_equal. lia.
  - rewrite drop_ge by lia. by rewrite !take_nil.
Qed.
Lemma zdrop_zdrop {A} p n (l : list A) :
  0 ≤ p → 0 ≤ n → zdrop n (zdrop p l) = zdrop (p + n) l.
Proof. intros. unfold zdrop. rewrite drop_drop. f_equal. lia. Qed.
Lemma ztake_app_exact {A} n (l k : list A) : zlen l = n → ztake n (l ++ k) = l.
Proof. unfold zlen. intros <-. unfold ztake. rewrite Nat2Z.id. by apply take_app_length'. Qed.
Lemma zdrop_app_plus {A} n m (l k : list A) : zlen l = n → 0 ≤ m → zdrop (n + m) (l ++ k) = zdrop m k.
Proof.
  unfold zlen. intros <- Hm. unfold zdrop. rewrite drop_app_ge by lia. f_equal. lia.
Qed.
Lemma zdrop_app_exact {A} n (l k : list A) : zlen l = n → zdrop n (l ++ k) = k.
Proof. intros H. rewrite <-(Z.add_0_r n). by rewrite zdrop_app_plus. Qed.
Lemma ztake_zdrop {A} n (l : list A) : ztake n l ++ zdrop n l = l.
Proof. apply take_drop. Qed.
Lemma slice_0 {A} p (l : list A) : slice p 0 l = [].
Proof. unfold slice, ztake. done. Qed.
Lemma slice_neg {A} p n (l : list A) : n ≤ 0 → slice p n l = [].
Proof. intros. unfold slice, ztake. by replace (Z.to_nat n) with 0%nat by lia. Qed.
Lemma slice_split {A} p n k (l : list A) :
  0 ≤ p → 0 ≤ n → 0 ≤ k → slice p (n + k) l = slice p n l ++ slice (p + n) k l.
Proof.
  intros. unfold slice at 1. rewrite ztake_app_split by lia.
  unfold slice. by rewrite zdrop_zdrop by lia.
Qed.
Lemma slice_all {A} n (l : list A) : zlen l = n → slice 0 n l = l.
Proof. intros <-. unfold slice, ztake, zdrop, zlen. simpl. rewrite drop_0, Nat2Z.id. apply firstn_all. Qed.
Lemma slice_app_l {A} p n (l k : list A) :
  0 ≤ p → 0 ≤ n → p + n ≤ zlen l → slice p n (l ++ k) = slice p n l.
Proof.
  unfold zlen. intros. unfold slice, ztake, zdrop.
  rewrite drop_app_le by lia. rewrite take_app_le; [done|]. rewrite length_drop. lia.
Qed.
Lemma slice_app_r {A} p n (l k : list A) :
  zlen l ≤ p → slice p n (l ++ k) = slice (p - zlen l) n k.
Proof.
  unfold zlen. intros. unfold slice, ztake, zdrop.
  rewrite drop_app_ge by lia. do 2 f_equal. lia.
Qed.
Lemma slice_splice {A} p (d l : list A) :
  0 ≤ p → p + zlen d ≤ zlen l → slice p (zlen d) (splice p d l) = d.
Proof.
  intros. pose proof (zlen_nonneg d). unfold splice.
  rewrite slice_app_r by (rewrite zlen_ztake; lia).
  rewrite zlen_ztake by lia. rewrite Z.sub_diag.
  rewrite slice_app_l by lia. by apply slice_all.
Qed.
Lemma slice_app_exact {A} (l k : list A) n : zlen l = n → slice 0 n (l ++ k) = l.
Proof. intros <-. pose proof (zlen_nonneg l). rewrite slice_app_l by lia. by apply slice_all. Qed.

Lemma splice_nil {A} p (l : list A) : 0 ≤ p ≤ zlen l → splice p [] l = l.
Proof.
  intros. unfold splice, ztake, zdrop, zlen. simpl. rewrite Z.add_0_r. apply take_drop.
Qed.
Lemma splice_app {A} p (d l1 l2 : list A) :
  zlen l1 ≤ p → splice p d (l1 ++ l2) = l1 ++ splice (p - zlen l1) d l2.
Proof.
  unfold splice, ztake, zdrop, zlen. intros.
  rewrite take_app_ge by lia. rewrite drop_app_ge by lia.
  rewrite <-app_assoc. repeat f_equal; lia.
Qed.
Lemma splice_app_l {A} p (d l1 l2 : list A) :
  0 ≤ p → p + zlen d ≤ zlen l1 → splice p d (l1 ++ l2) = splice p d l1 ++ l2.
Proof.
  unfold splice, ztake, zdrop, zlen. intros.
  rewrite take_app_le by lia. rewrite drop_app_le by lia. by rewrite <-!app_assoc.
Qed.
Lemma splice_splice {A} p (d1 d2 l : list A) :
  0 ≤ p → p + zlen d1 + zlen d2 ≤ zlen l →
  splice (p + zlen d1) d2 (splice p d1 l) = splice p (d1 ++ d2) l.
Proof.
  intros. pose proof (zlen_nonneg d1). pose proof (zlen_nonneg d2).
  unfold splice at 2. rewrite app_assoc.
  rewrite splice_app by (rewrite zlen_app, zlen_ztake; lia).
  rewrite zlen_app, zlen_ztake by lia.
  replace (p + zlen d1 - (p + zlen d1)) with 0 by lia.
  unfold splice. rewrite zlen_app.
  rewrite <-!app_assoc. do 2 f_equal.
  unfold ztake at 1. simpl. f_equal.
  rewrite zdrop_zdrop by lia. f_equal. lia.
Qed.
