(* ===== verification/Endian.v ===== *)
(** * Byte order ([webserve/endian.h])

    The memory image of an integer, [byteswap] and the conditional swaps, and
    the integers they denote.  The byte order of the target is a parameter
    ([Host]): the header selects it with the preprocessor. *)
From S2P Require Import Prelude.
Open Scope Z_scope.

Definition SYLAR_LITTLE_ENDIAN : Z := 1.
Definition SYLAR_BIG_ENDIAN : Z := 2.

(** The target: [SYLAR_BYTE_ORDER] is one of the two constants. *)
Class Host := {
  SYLAR_BYTE_ORDER : Z;
  host_order : SYLAR_BYTE_ORDER = SYLAR_LITTLE_ENDIAN ∨ SYLAR_BYTE_ORDER = SYLAR_BIG_ENDIAN
}.

Definition little_host : Host := {| host_order := or_introl eq_refl |}.
Definition big_host : Host := {| host_order := or_intror eq_refl |}.

(** Little-endian digits of an integer in base 256, and back. *)
Fixpoint le_bytes (n : nat) (z : Z) : list Z :=
  match n with
  | O => []
  | S n => z mod 2 ^ 8 :: le_bytes n (z / 2 ^ 8)
  end.
Fixpoint le_value (l : list Z) : Z :=
  match l with
  | [] => 0
  | b :: l => b + 2 ^ 8 * le_value l
  end.

(** bswap_16, bswap_32 and bswap_64 of <byteswap.h>: the bytes in reverse. *)
Definition bswap (n : nat) (z : Z) : Z := le_value (reverse (le_bytes n z)).

(** [byteswap<T>]: the overload is selected by [sizeof(T)] (8, 4 or 2). *)
Definition byteswap (sizeof : nat) (value : Z) : Z := bswap sizeof value.

Section host.
Context `{!Host}.

(** The bytes an n-byte integer occupies in memory. *)
Definition int_bytes (n : nat) (z : Z) : list Z :=
  if SYLAR_BYTE_ORDER =? SYLAR_LITTLE_ENDIAN then le_bytes n z else reverse (le_bytes n z).
(** The n-byte integer a block of memory holds. *)
Definition bytes_int (l : list Z) : Z :=
  if SYLAR_BYTE_ORDER =? SYLAR_LITTLE_ENDIAN then le_value l else le_value (reverse l).

Definition byteswapOnLittleEndian (sizeof : nat) (t : Z) : Z :=
  if SYLAR_BYTE_ORDER =? SYLAR_BIG_ENDIAN then t else byteswap sizeof t.
Definition byteswapOnBigEndian (sizeof : nat) (t : Z) : Z :=
  if SYLAR_BYTE_ORDER =? SYLAR_BIG_ENDIAN then byteswap sizeof t else t.
End host.

(** ** Digits and values *)
Lemma length_le_bytes n z : length (le_bytes n z) = n.
Proof. revert z; induction n; simpl; auto. Qed.

Lemma le_bytes_byte n z : Forall is_byte (le_bytes n z).
Proof. revert z; induction n; simpl; constructor; auto. apply Z.mod_pos_bound. lia. Qed.

Lemma le_value_bytes n z : le_value (le_bytes n z) = z mod 2 ^ (8 * Z.of_nat n).
Proof.
  revert z; induction n as [|n IH]; intros z; cbn [le_bytes le_value].
  - by rewrite Z.mul_0_r, Z.pow_0_r, Z.mod_1_r.
  - rewrite IH. replace (8 * Z.of_nat (S n)) with (8 + 8 * Z.of_nat n) by lia.
    rewrite Z.pow_add_r by lia.
    by rewrite Z.rem_mul_r by (try apply Z.pow_pos_nonneg; lia).
Qed.

Lemma le_value_range l : Forall is_byte l → 0 ≤ le_value l < 2 ^ (8 * zlen l).
Proof.
  induction 1 as [|b l Hb _ IH]; cbn [le_value]; [done|].
  rewrite zlen_cons. rewrite Z.mul_add_distr_l, Z.pow_add_r by (pose proof (zlen_nonneg l); lia).
  unfold is_byte in Hb. lia.
Qed.

Lemma le_bytes_value n l : Forall is_byte l → length l = n → le_bytes n (le_value l) = l.
Proof.
  intros Hl <-. induction Hl as [|b l Hb _ IH]; cbn [length le_value le_bytes]; [done|].
  unfold is_byte in Hb. f_equal.
  - rewrite Z.mul_comm, Z.mod_add by lia. by apply Z.mod_small.
  - rewrite (Z.mul_comm (2 ^ 8)), Z.div_add, Z.div_small by lia. by rewrite Z.add_0_l.
Qed.

Lemma le_bytes_mod n z : le_bytes n (z mod 2 ^ (8 * Z.of_nat n)) = le_bytes n z.
Proof.
  rewrite <-le_value_bytes. apply le_bytes_value; [apply le_bytes_byte|apply length_le_bytes].
Qed.

Lemma reverse_le_bytes_byte n z : Forall is_byte (reverse (le_bytes n z)).
Proof. apply Forall_reverse, le_bytes_byte. Qed.

Lemma bswap_range n z : 0 ≤ bswap n z < 2 ^ (8 * Z.of_nat n).
Proof.
  unfold bswap. pose proof (le_value_range _ (reverse_le_bytes_byte n z)) as H.
  unfold zlen in H. by rewrite length_reverse, length_le_bytes in H.
Qed.

Lemma le_bytes_bswap n z : le_bytes n (bswap n z) = reverse (le_bytes n z).
Proof.
  apply le_bytes_value; [apply reverse_le_bytes_byte|].
  by rewrite length_reverse, length_le_bytes.
Qed.

Lemma bswap_involutive n z : bswap n (bswap n z) = z mod 2 ^ (8 * Z.of_nat n).
Proof. unfold bswap at 1. by rewrite le_bytes_bswap, reverse_involutive, le_value_bytes. Qed.

Lemma bswap_mod n z : bswap n (z mod 2 ^ (8 * Z.of_nat n)) = bswap n z.
Proof. unfold bswap. by rewrite le_bytes_mod. Qed.

Section host_facts.
Context `{!Host}.

Lemma host_cases :
  ((SYLAR_BYTE_ORDER =? SYLAR_LITTLE_ENDIAN) = true ∧ (SYLAR_BYTE_ORDER =? SYLAR_BIG_ENDIAN) = false) ∨
  ((SYLAR_BYTE_ORDER =? SYLAR_LITTLE_ENDIAN) = false ∧ (SYLAR_BYTE_ORDER =? SYLAR_BIG_ENDIAN) = true).
Proof. destruct host_order as [-> | ->]; [left|right]; done. Qed.

Lemma length_int_bytes n z : length (int_bytes n z) = n.
Proof. unfold int_bytes. case_bool; rewrite ?length_reverse; apply length_le_bytes. Qed.

Lemma zlen_int_bytes n z : zlen (int_bytes n z) = Z.of_nat n.
Proof. unfold zlen. by rewrite length_int_bytes. Qed.

Lemma int_bytes_byte n z : Forall is_byte (int_bytes n z).
Proof. unfold int_bytes. case_bool; [apply le_bytes_byte|apply reverse_le_bytes_byte]. Qed.

Lemma bytes_int_bytes n z : bytes_int (int_bytes n z) = z mod 2 ^ (8 * Z.of_nat n).
Proof.
  unfold bytes_int, int_bytes. case_bool; rewrite ?reverse_involutive; apply le_value_bytes.
Qed.

(** The bytes of a value that was put in network order are its big-endian
    digits whatever the host: what the address code relies on. *)
Lemma int_bytes_hton n z :
  int_bytes n (byteswapOnLittleEndian n z) = reverse (le_bytes n z).
Proof.
  unfold int_bytes, byteswapOnLittleEndian, byteswap.
  destruct host_cases as [[-> ->]|[-> ->]]; [apply le_bytes_bswap|done].
Qed.

Lemma byteswapOnLittleEndian_involutive n z :
  byteswapOnLittleEndian n (byteswapOnLittleEndian n z) mod 2 ^ (8 * Z.of_nat n)
  = z mod 2 ^ (8 * Z.of_nat n).
Proof.
  unfold byteswapOnLittleEndian, byteswap. case_bool; [done|].
  rewrite bswap_involutive. apply Z.mod_mod. apply Z.pow_nonzero; lia.
Qed.
End host_facts.
