(* ===== verification/ByteArray.v ===== *)
(** * ByteArray ([webserve/bytearray.h], [webserve/bytearray.cc]): the block list

    The growable byte buffer: a linked list of equal blocks with a cursor.
    The list [m_root -> next -> ...] is the list [m_nodes]; [m_cur] is the index
    of the block under the cursor, [None] for the null pointer.  The raw
    operations are here; the typed ones are in [ByteArrayCodec]. *)
From S2P Require Import Prelude Endian.
Open Scope Z_scope.

Record Node := mkNode { nd_ptr : list Z; nd_size : Z }.

Record ByteArray := mkByteArray {
  m_baseSize : Z;
  m_position : Z;
  m_capacity : Z;
  m_size : Z;
  m_endian : Z;
  m_nodes : list Node;
  m_cur : option nat
}.

Definition set_position_field (v : Z) (b : ByteArray) : ByteArray :=
  mkByteArray (m_baseSize b) v (m_capacity b) (m_size b) (m_endian b) (m_nodes b) (m_cur b).
Definition set_size_field (v : Z) (b : ByteArray) : ByteArray :=
  mkByteArray (m_baseSize b) (m_position b) (m_capacity b) v (m_endian b) (m_nodes b) (m_cur b).
Definition set_nodes (l : list Node) (b : ByteArray) : ByteArray :=
  mkByteArray (m_baseSize b) (m_position b) (m_capacity b) (m_size b) (m_endian b) l (m_cur b).
Definition set_cur (c : option nat) (b : ByteArray) : ByteArray :=
  mkByteArray (m_baseSize b) (m_position b) (m_capacity b) (m_size b) (m_endian b) (m_nodes b) c.

(** What a fresh [new char[s]] holds: the bytes are unspecified. *)
Class Alloc := { garbage : nat → Z; garbage_byte : ∀ i, is_byte (garbage i) }.
#[refine] Definition zero_alloc : Alloc := {| garbage _ := 0 |}.
Proof. intros _. unfold is_byte; lia. Defined.

(** The block a pointer designates, and the [next] link of block [i]. *)
Definition node_of (c : option nat) (b : ByteArray) : result ByteArray Node :=
  match c with
  | None => Undef NullDeref
  | Some i => match m_nodes b !! i with Some n => Done b n | None => Undef OutOfBounds end
  end.
Definition cur_node : M ByteArray Node := λ b, node_of (m_cur b) b.
Definition next_of (i : nat) (b : ByteArray) : option nat :=
  if decide (S i < length (m_nodes b))%nat then Some (S i) else None.
(** [m_cur = m_cur->next] *)
Definition advance : M ByteArray () := λ b,
  match m_cur b with
  | None => Undef NullDeref
  | Some i => Done (set_cur (next_of i b) b) ()
  end.

(** [memcpy] out of, and into, the block under the cursor. *)
Definition block_ok (n : Node) (p sz : Z) : bool :=
  (0 <=? p) && (0 <=? sz) && (p + sz <=? zlen (nd_ptr n)).
Definition copy_out (n : Node) (p sz : Z) : M ByteArray (list Z) :=
  if block_ok n p sz then mret (slice p sz (nd_ptr n)) else undef OutOfBounds.
Definition copy_in (p : Z) (d : list Z) : M ByteArray () := λ b,
  match m_cur b with
  | None => Undef NullDeref
  | Some i =>
      match m_nodes b !! i with
      | Some n =>
          if block_ok n p (zlen d)
          then Done (set_nodes (<[i := mkNode (splice p d (nd_ptr n)) (nd_size n)]> (m_nodes b)) b) ()
          else Undef OutOfBounds
      | None => Undef OutOfBounds
      end
  end.
Definition mod_base (v : Z) : M ByteArray Z := λ b,
  if m_baseSize b =? 0 then Undef DivByZero else Done b (v mod m_baseSize b).
Definition move_position (n : Z) : M ByteArray () :=
  modify (λ b, set_position_field (u64 (m_position b + n)) b).

Section byte_array.
Context `{!Alloc}.

(** [ByteArray::Node::Node(size_t s)] *)
Definition Node_new (s : Z) : Node :=
  mkNode (garbage <$> seq 0 (Z.to_nat s)) s.

(** [ByteArray::ByteArray(size_t base_size)] *)
Definition ByteArray_new (base_size : Z) : ByteArray :=
  mkByteArray base_size 0 base_size 0 SYLAR_BIG_ENDIAN [Node_new base_size] (Some 0%nat).

Definition isLittleEndian (b : ByteArray) : bool := m_endian b =? SYLAR_LITTLE_ENDIAN.
Definition setIsLittleEndian (val : bool) (b : ByteArray) : ByteArray :=
  mkByteArray (m_baseSize b) (m_position b) (m_capacity b) (m_size b)
    (if val then SYLAR_LITTLE_ENDIAN else SYLAR_BIG_ENDIAN) (m_nodes b) (m_cur b).

Definition getPosition (b : ByteArray) : Z := m_position b.
Definition getBaseSize (b : ByteArray) : Z := m_baseSize b.
Definition getSize (b : ByteArray) : Z := m_size b.
Definition getReadSize (b : ByteArray) : Z := u64 (m_size b - m_position b).
Definition getCapacity (b : ByteArray) : Z := u64 (m_capacity b - m_position b).

(** [ByteArray::clear]: every block but the root is freed. *)
Definition clear (b : ByteArray) : ByteArray :=
  mkByteArray (m_baseSize b) 0 (m_baseSize b) 0 (m_endian b) (take 1 (m_nodes b)) (Some 0%nat).

(** The allocation loop of [addCapacity]: one block per turn. *)
Fixpoint addNodes (count : nat) (b : ByteArray) : ByteArray :=
  match count with
  | O => b
  | S count =>
      addNodes count
        (mkByteArray (m_baseSize b) (m_position b) (u64 (m_capacity b + m_baseSize b))
           (m_size b) (m_endian b) (m_nodes b ++ [Node_new (m_baseSize b)]) (m_cur b))
  end.

(** The number of blocks [addCapacity] allocates for [size] more bytes. *)
Definition addCount (base old_cap size : Z) : Z :=
  u64 ((size / base) + (if size mod base >? old_cap then 1 else 0)).

(** [ByteArray::addCapacity] *)
Definition addCapacity (size : Z) : M ByteArray () := λ b,
  if size =? 0 then Done b () else
  let old_cap := getCapacity b in
  if old_cap >=? size then Done b () else
  let size := u64 (size - old_cap) in
  if m_baseSize b =? 0 then Undef DivByZero else
  let count := addCount (m_baseSize b) old_cap size in
  let first := if count =? 0 then None else Some (length (m_nodes b)) in
  let b' := addNodes (Z.to_nat count) b in
  Done (if old_cap =? 0 then set_cur first b' else b') ().

(** The copy loop of [ByteArray::write]; one turn per block touched. *)
Fixpoint write_loop (fuel : nat) (buf : list Z) (size bpos npos ncap : Z) : M ByteArray () :=
  if size >? 0 then
    match fuel with
    | O => nofuel
    | S fuel =>
        if ncap >=? size then
          copy_in npos (slice bpos size buf) ;;
          n ← cur_node;
          (if nd_size n =? u64 (npos + size) then advance else mret ()) ;;
          move_position size ;;
          write_loop fuel buf 0 (u64 (bpos + size)) npos ncap
        else
          copy_in npos (slice bpos ncap buf) ;;
          move_position ncap ;;
          advance ;;
          n ← cur_node;
          write_loop fuel buf (u64 (size - ncap)) (u64 (bpos + ncap)) 0 (nd_size n)
    end
  else mret ().

(** [ByteArray::write(const void* buf, size_t size)], [size] the length of [buf]. *)
Definition write (buf : list Z) : M ByteArray () :=
  let size := zlen buf in
  if size =? 0 then mret () else
  addCapacity size ;;
  pos ← gets m_position;
  npos ← mod_base pos;
  n ← cur_node;
  blocks ← gets (λ b, length (m_nodes b));
  write_loop (S blocks) buf size 0 npos (u64 (nd_size n - npos)) ;;
  modify (λ b, if m_position b >? m_size b then set_size_field (m_position b) b else b).

Fixpoint read_loop (fuel : nat) (size npos ncap : Z) : M ByteArray (list Z) :=
  if size >? 0 then
    match fuel with
    | O => nofuel
    | S fuel =>
        n ← cur_node;
        if ncap >=? size then
          d ← copy_out n npos size;
          (if nd_size n =? u64 (npos + size) then advance else mret ()) ;;
          move_position size ;;
          rest ← read_loop fuel 0 npos ncap;
          mret (d ++ rest)
        else
          d ← copy_out n npos ncap;
          move_position ncap ;;
          advance ;;
          n' ← cur_node;
          rest ← read_loop fuel (u64 (size - ncap)) 0 (nd_size n');
          mret (d ++ rest)
    end
  else mret [].

(** [ByteArray::read(void* buf, size_t size)]: the bytes stored into [buf]. *)
Definition read (size : Z) : M ByteArray (list Z) :=
  avail ← gets getReadSize;
  if size >? avail then raise ExnOutOfRange else
  pos ← gets m_position;
  npos ← mod_base pos;
  n ← cur_node;
  blocks ← gets (λ b, length (m_nodes b));
  read_loop (S blocks) size npos (u64 (nd_size n - npos)).

(** The walk of the [const] operations: a local cursor [cur] that starts at a
    block and visits [len] bytes.  Returns the segments (block, offset, length). *)
Fixpoint walk (fuel : nat) (cur : option nat) (len npos ncap : Z)
  : M ByteArray (list (nat * Z * Z)) :=
  if len >? 0 then
    match fuel, cur with
    | O, _ => nofuel
    | _, None => undef NullDeref
    | S fuel, Some i =>
        if ncap >=? len then mret [(i, npos, len)]
        else
          b ← get;
          n' ← (λ b', node_of (next_of i b) b');
          rest ← walk fuel (next_of i b) (u64 (len - ncap)) 0 (nd_size n');
          mret ((i, npos, ncap) :: rest)
    end
  else mret [].

Definition seg_bytes (b : ByteArray) (s : nat * Z * Z) : list Z :=
  match m_nodes b !! s.1.1 with
  | Some n => slice s.1.2 s.2 (nd_ptr n)
  | None => []
  end.

(** Copies the visited segments (the [memcpy] calls of the [const] read). *)
Fixpoint copy_segs (l : list (nat * Z * Z)) : M ByteArray (list Z) :=
  match l with
  | [] => mret []
  | (i, p, sz) :: l =>
      n ← (λ b, node_of (Some i) b);
      d ← copy_out n p sz;
      rest ← copy_segs l;
      mret (d ++ rest)
  end.

(** [ByteArray::read(void* buf, size_t size, size_t position) const]: the
    offset in the block is that of [position], the block is [m_cur]. *)
Definition read_at (size position : Z) : M ByteArray (list Z) :=
  b ← get;
  if size >? u64 (m_size b - position) then raise ExnOutOfRange else
  npos ← mod_base position;
  n ← cur_node;
  segs ← walk (S (length (m_nodes b))) (m_cur b) size npos (u64 (nd_size n - npos));
  copy_segs segs.

(** The search loop of [setPosition]: the block [v] falls in. *)
Fixpoint seek (fuel : nat) (cur : option nat) (v : Z) : M ByteArray (option nat) :=
  match fuel with
  | O => nofuel
  | S fuel =>
      b ← get;
      n ← (λ b', node_of cur b');
      match cur with
      | None => undef NullDeref
      | Some i =>
          if v >? nd_size n then seek fuel (next_of i b) (u64 (v - nd_size n))
          else mret (if v =? nd_size n then next_of i b else cur)
      end
  end.

(** [ByteArray::setPosition] *)
Definition setPosition (v : Z) : M ByteArray () :=
  cap ← gets m_capacity;
  if v >? cap then raise ExnOutOfRange else
  modify (set_position_field v) ;;
  modify (λ b, if m_position b >? m_size b then set_size_field (m_position b) b else b) ;;
  blocks ← gets (λ b, length (m_nodes b));
  c ← seek (S blocks) (Some 0%nat) v;
  modify (set_cur c).

(** [ByteArray::toString]: the bytes [m_position, m_size). *)
Definition toString : M ByteArray (list Z) :=
  b ← get;
  if getReadSize b =? 0 then mret [] else read_at (getReadSize b) (m_position b).

(** [ByteArray::getReadBuffers(buffers, len)]: the returned size and the
    iovecs, as (block, offset, length). *)
Definition getReadBuffers (len : Z) : M ByteArray (Z * list (nat * Z * Z)) :=
  b ← get;
  let len := if len >? getReadSize b then getReadSize b else len in
  if len =? 0 then mret (0, []) else
  npos ← mod_base (m_position b);
  n ← cur_node;
  iov ← walk (S (length (m_nodes b))) (m_cur b) len npos (u64 (nd_size n - npos));
  mret (len, iov).

(** The [count] loop of the positioned [getReadBuffers]. *)
Fixpoint skip_blocks (count : nat) (cur : option nat) : M ByteArray (option nat) :=
  match count, cur with
  | O, _ => mret cur
  | S count, None => undef NullDeref
  | S count, Some i => b ← get; skip_blocks count (next_of i b)
  end.

(** [ByteArray::getReadBuffers(buffers, len, position)] *)
Definition getReadBuffers_at (len position : Z) : M ByteArray (Z * list (nat * Z * Z)) :=
  b ← get;
  let len := if len >? getReadSize b then getReadSize b else len in
  if len =? 0 then mret (0, []) else
  npos ← mod_base position;
  cur ← skip_blocks (Z.to_nat (position / m_baseSize b)) (Some 0%nat);
  n ← (λ b', node_of cur b');
  iov ← walk (S (length (m_nodes b))) cur len npos (u64 (nd_size n - npos));
  mret (len, iov).

(** [ByteArray::getWriteBuffers] *)
Definition getWriteBuffers (len : Z) : M ByteArray (Z * list (nat * Z * Z)) :=
  if len =? 0 then mret (0, []) else
  addCapacity len ;;
  b ← get;
  npos ← mod_base (m_position b);
  n ← cur_node;
  iov ← walk (S (length (m_nodes b))) (m_cur b) len npos (u64 (nd_size n - npos));
  mret (len, iov).

(** The output loop of [writeToFile]: [ofs.write(cur->ptr + diff, len)] per turn. *)
Fixpoint file_loop (fuel : nat) (cur : option nat) (read_size pos : Z) : M ByteArray (list Z) :=
  if read_size >? 0 then
    match fuel with
    | O => nofuel
    | S fuel =>
        b ← get;
        d0 ← mod_base (u64 pos);
        let diff := s32 d0 in
        let len := s64 ((if read_size >? s64 (m_baseSize b) then m_baseSize b else read_size) - diff) in
        n ← (λ b', node_of cur b');
        if len <? 0 then undef NegativeCount else
        out ← copy_out n diff len;
        let next := match cur with Some i => next_of i b | None => None end in
        rest ← file_loop fuel next (s64 (read_size - len)) (s64 (pos + len));
        mret (out ++ rest)
    end
  else mret [].

(** [ByteArray::writeToFile] after a successful open: the file's bytes. *)
Definition writeToFile : M ByteArray (list Z) :=
  b ← get;
  file_loop (S (length (m_nodes b))) (m_cur b) (s64 (getReadSize b)) (s64 (m_position b)).

(** [ByteArray::readFromFile] after a successful open: the file comes in
    chunks of [m_baseSize] bytes, the last one short (possibly empty). *)
Fixpoint file_read_loop (fuel : nat) (file : list Z) : M ByteArray () :=
  match fuel with
  | O => nofuel
  | S fuel =>
      base ← gets m_baseSize;
      write (ztake base file) ;;
      if zlen file <? base then mret () else file_read_loop fuel (zdrop base file)
  end.
Definition readFromFile (file : list Z) : M ByteArray () :=
  file_read_loop (S (length file)) file.
End byte_array.
