(* ===== verification/ByteArrayFacts.v ===== *)
(** * ByteArray: the block list implements a growable vector with a cursor

    The representation invariant [wf], the abstraction [data] (the bytes
    [0, m_size)), and the refinement of [write], [read], [setPosition],
    [toString], the iovec and the file operations to operations on [data]. *)
From S2P Require Import Prelude Endian ByteArray.
Open Scope Z_scope.

(** ** The bytes of a block list *)
Definition flat (l : list Node) : list Z := concat (nd_ptr <$> l).
Definition contents (b : ByteArray) : list Z := flat (m_nodes b).
(** The abstract value: what has been written. *)
Definition data (b : ByteArray) : list Z := ztake (m_size b) (contents b).

Definition node_ok (base : Z) (n : Node) : Prop :=
  nd_size n = base ∧ zlen (nd_ptr n) = base ∧ Forall is_byte (nd_ptr n).
Definition cursor (base cap pos : Z) : option nat :=
  if pos <? cap then Some (Z.to_nat (pos / base)) else None.

Record shape (b : ByteArray) : Prop := {
  sh_base : 0 < m_baseSize b;
  sh_cap : m_capacity b = m_baseSize b * zlen (m_nodes b);
  sh_bound : m_capacity b < 2 ^ 63;
  sh_nodes : Forall (node_ok (m_baseSize b)) (m_nodes b);
  sh_root : m_nodes b ≠ []
}.
Record wf (b : ByteArray) : Prop := {
  wf_shape : shape b;
  wf_pos : 0 ≤ m_position b ≤ m_size b;
  wf_size : m_size b ≤ m_capacity b;
  wf_cur : m_cur b = cursor (m_baseSize b) (m_capacity b) (m_position b)
}.

Lemma flat_cons n l : flat (n :: l) = nd_ptr n ++ flat l.
Proof. done. Qed.
Lemma flat_app l k : flat (l ++ k) = flat l ++ flat k.
Proof. unfold flat. by rewrite fmap_app, concat_app. Qed.

Lemma zlen_flat base l : Forall (node_ok base) l → zlen (flat l) = base * zlen l.
Proof.
  induction 1 as [|n l (_ & Hn & _) _ IH]; [unfold zlen; simpl; lia|].
  rewrite flat_cons, zlen_app, zlen_cons, IH. lia.
Qed.

Lemma flat_byte base l : Forall (node_ok base) l → Forall is_byte (flat l).
Proof.
  induction 1 as [|n l (_ & _ & Hb) _ IH]; [constructor|].
  rewrite flat_cons. by apply Forall_app.
Qed.

Lemma flat_slice base l i n p k :
  Forall (node_ok base) l → l !! i = Some n → 0 ≤ p → 0 ≤ k → p + k ≤ base →
  slice (Z.of_nat i * base + p) k (flat l) = slice p k (nd_ptr n).
Proof.
  intros Hl. revert i. induction Hl as [|m l (_ & Hm & _) Hl IH]; intros i Hi Hp Hk Hpk.
  { by rewrite lookup_nil in Hi. }
  rewrite flat_cons. destruct i as [|i]; simpl in Hi.
  - injection Hi as ->. rewrite slice_app_l by lia. f_equal; lia.
  - rewrite slice_app_r by nia. rewrite <-(IH i) by done. f_equal. lia.
Qed.

Lemma flat_splice base l i n p d :
  Forall (node_ok base) l → l !! i = Some n → 0 ≤ p → p + zlen d ≤ base →
  flat (<[i := mkNode (splice p d (nd_ptr n)) (nd_size n)]> l)
  = splice (Z.of_nat i * base + p) d (flat l).
Proof.
  intros Hl. revert i. induction Hl as [|m l (_ & Hm & _) Hl IH]; intros i Hi Hp Hpk.
  { by rewrite lookup_nil in Hi. }
  pose proof (zlen_nonneg d).
  destruct i as [|i]; simpl in Hi |- *; rewrite !flat_cons; cbn [nd_ptr].
  - injection Hi as ->. rewrite splice_app_l by lia. repeat f_equal; lia.
  - rewrite splice_app by nia. f_equal.
    rewrite (IH i Hi Hp Hpk). f_equal. lia.
Qed.

Lemma splice_byte p d l : Forall is_byte d → Forall is_byte l → Forall is_byte (splice p d l).
Proof.
  intros Hd Hl. unfold splice, ztake, zdrop.
  repeat apply Forall_app_2; [by apply Forall_take|done|by apply Forall_drop].
Qed.

Lemma slice_byte p n l : Forall is_byte l → Forall is_byte (slice p n l).
Proof. intros. unfold slice, ztake, zdrop. by apply Forall_take, Forall_drop. Qed.

Lemma node_ok_splice base n p d :
  node_ok base n → Forall is_byte d → 0 ≤ p → p + zlen d ≤ base →
  node_ok base (mkNode (splice p d (nd_ptr n)) (nd_size n)).
Proof.
  intros (H1 & H2 & H3) Hd Hp Hpd. split; [done|]. split; cbn [nd_ptr].
  - rewrite zlen_splice; lia.
  - by apply splice_byte.
Qed.

(** ** The block under an offset *)
Lemma div_index base pos nb : 0 < base → 0 ≤ pos < base * nb → 0 ≤ pos / base < nb.
Proof.
  intros Hb [H1 H2]. split; [by apply Z.div_pos|]. apply Z.div_lt_upper_bound; lia.
Qed.

Lemma block_lookup b i : (i < length (m_nodes b))%nat → shape b →
  ∃ n, m_nodes b !! i = Some n ∧ node_ok (m_baseSize b) n.
Proof.
  intros Hi Hs. destruct (lookup_lt_is_Some_2 _ _ Hi) as [n Hn]. exists n; split; [done|].
  exact (proj1 (Forall_lookup _ _) (sh_nodes b Hs) i n Hn).
Qed.

(** A cursor inside the capacity designates a block, and its in-block offset. *)
Lemma cursor_split base pos : 0 < base → 0 ≤ pos →
  0 ≤ pos mod base < base ∧ pos = Z.of_nat (Z.to_nat (pos / base)) * base + pos mod base.
Proof.
  intros Hb Hp. pose proof (Z.mod_pos_bound pos base Hb). split; [done|].
  rewrite Z2Nat.id by (apply Z.div_pos; lia). pose proof (Z.div_mod pos base). lia.
Qed.

Lemma cursor_lookup b : shape b → 0 ≤ m_position b < m_capacity b →
  m_cur b = cursor (m_baseSize b) (m_capacity b) (m_position b) →
  ∃ i n, m_cur b = Some i ∧ m_nodes b !! i = Some n ∧ node_ok (m_baseSize b) n ∧
    0 ≤ m_position b mod m_baseSize b < m_baseSize b ∧
    m_position b = Z.of_nat i * m_baseSize b + m_position b mod m_baseSize b ∧
    (i < length (m_nodes b))%nat.
Proof.
  intros Hs Hpos Hcur. pose proof (sh_base b Hs). rewrite (sh_cap b Hs) in Hpos.
  destruct (cursor_split (m_baseSize b) (m_position b)) as [Hm Hsplit]; [lia..|].
  pose proof (div_index _ _ _ H Hpos) as Hi.
  destruct (block_lookup b (Z.to_nat (m_position b / m_baseSize b))) as (n & Hn & Hok); [unfold zlen in Hi; lia|done|].
  exists (Z.to_nat (m_position b / m_baseSize b)), n.
  repeat split; try done; try apply Hm; try apply Hok.
  - rewrite Hcur. unfold cursor. rewrite (sh_cap b Hs).
    replace (m_position b <? _) with true by (symmetry; lia). done.
  - by apply lookup_lt_Some in Hn.
Qed.

Lemma idx_bound base i n : 0 < base → (i < n)%nat → Z.of_nat i * base + base ≤ base * Z.of_nat n.
Proof.
  intros Hb Hi. replace (Z.of_nat i * base + base) with (base * (Z.of_nat i + 1)) by lia.
  apply Z.mul_le_mono_nonneg_l; lia.
Qed.
Lemma idx_lt base i n : 0 < base → Z.of_nat i * base < base * Z.of_nat n → (i < n)%nat.
Proof. intros Hb H. rewrite (Z.mul_comm base) in H. apply Z.mul_lt_mono_pos_r in H; lia. Qed.

(** The cursor at the position [k] blocks and [p] bytes from the start. *)
Lemma cursor_inner base cap i p : 0 < base → 0 ≤ p < base →
  Z.of_nat i * base + p < cap → cursor base cap (Z.of_nat i * base + p) = Some i.
Proof.
  intros Hb Hp Hc. unfold cursor. replace (_ <? _) with true by (symmetry; lia).
  rewrite Z.div_add_l, (Z.div_small p) by lia. f_equal. lia.
Qed.

Lemma cursor_next b i : shape b → (i < length (m_nodes b))%nat →
  next_of i b = cursor (m_baseSize b) (m_capacity b) (Z.of_nat (S i) * m_baseSize b).
Proof.
  intros Hs Hi. pose proof (sh_base b Hs). unfold next_of. rewrite (sh_cap b Hs). case_decide.
  - rewrite <-(Z.add_0_r (Z.of_nat (S i) * _)). pose proof (idx_bound (m_baseSize b) (S i) (length (m_nodes b))).
    rewrite cursor_inner; [done|lia|lia|unfold zlen; lia].
  - unfold cursor. replace (_ <? _) with false; [done|]. symmetry. unfold zlen.
    replace (length (m_nodes b)) with (S i) by lia. lia.
Qed.

(** ** The copy loops *)
Record frame (b b' : ByteArray) : Prop := {
  fr_base : m_baseSize b' = m_baseSize b;
  fr_cap : m_capacity b' = m_capacity b;
  fr_endian : m_endian b' = m_endian b;
  fr_len : length (m_nodes b') = length (m_nodes b)
}.

Lemma frame_trans b1 b2 b3 : frame b1 b2 → frame b2 b3 → frame b1 b3.
Proof. intros [] []. split; congruence. Qed.

Lemma advance_done b i : m_cur b = Some i → advance b = Done (set_cur (next_of i b) b) ().
Proof. intros H. unfold advance. by rewrite H. Qed.
Lemma cur_node_done b i n : m_cur b = Some i → m_nodes b !! i = Some n → cur_node b = Done b n.
Proof. intros H1 H2. unfold cur_node, node_of. by rewrite H1, H2. Qed.
Lemma cur_node_null b : m_cur b = None → cur_node b = Undef NullDeref.
Proof. intros H. unfold cur_node, node_of. by rewrite H. Qed.
Lemma mod_base_done b v : m_baseSize b ≠ 0 → mod_base v b = Done b (v mod m_baseSize b).
Proof. intros H. unfold mod_base. apply Z.eqb_neq in H. by rewrite H. Qed.
Lemma block_ok_true n p sz base :
  zlen (nd_ptr n) = base → 0 ≤ p → 0 ≤ sz → p + sz ≤ base → block_ok n p sz = true.
Proof. intros. unfold block_ok. rewrite !andb_true_iff. lia. Qed.

(** The state after [d] was copied into the current block at offset [p]. *)
Definition wrote (i : nat) (n : Node) (p : Z) (d : list Z) (b : ByteArray) : ByteArray :=
  set_nodes (<[i := mkNode (splice p d (nd_ptr n)) (nd_size n)]> (m_nodes b)) b.

Lemma copy_in_done b i n p d :
  m_cur b = Some i → m_nodes b !! i = Some n → node_ok (m_baseSize b) n →
  0 ≤ p → p + zlen d ≤ m_baseSize b → copy_in p d b = Done (wrote i n p d b) ().
Proof.
  intros Hc Hn (_ & Hl & _) Hp Hd. unfold copy_in. rewrite Hc, Hn.
  by rewrite (block_ok_true n p (zlen d) (m_baseSize b)) by (try apply zlen_nonneg; lia).
Qed.

Lemma wrote_shape b i n p d :
  shape b → m_nodes b !! i = Some n → Forall is_byte d → 0 ≤ p → p + zlen d ≤ m_baseSize b →
  shape (wrote i n p d b) ∧ frame b (wrote i n p d b) ∧
  contents (wrote i n p d b) = splice (Z.of_nat i * m_baseSize b + p) d (contents b).
Proof.
  intros [Hb Hc Hbd Hn Hr] Hi Hd Hp Hpd.
  assert (node_ok (m_baseSize b) n) as Hok by exact (proj1 (Forall_lookup _ _) Hn i n Hi).
  split; [|split].
  - split; cbn; try done.
    + rewrite Hc. unfold zlen. by rewrite length_insert.
    + apply Forall_insert; [done|]. by apply node_ok_splice.
    + intros Hnil. apply Hr. destruct (m_nodes b); [done|]. by destruct i.
  - split; cbn; try done. by rewrite length_insert.
  - unfold contents; cbn. by apply flat_splice.
Qed.

Lemma node_after_wrote b i n p d : m_nodes b !! i = Some n →
  m_nodes (wrote i n p d b) !! i = Some (mkNode (splice p d (nd_ptr n)) (nd_size n)).
Proof. intros H. cbn. apply list_lookup_insert_eq. by apply lookup_lt_Some in H. Qed.

(** The situation of a copy loop: the cursor is [p] bytes into block [i]. *)
Record at_block (b : ByteArray) (i : nat) (n : Node) (p : Z) : Prop := {
  ab_shape : shape b;
  ab_cur : m_cur b = Some i;
  ab_node : m_nodes b !! i = Some n;
  ab_pos : m_position b = Z.of_nat i * m_baseSize b + p;
  ab_off : 0 ≤ p < m_baseSize b
}.

Lemma at_block_facts b i n p : at_block b i n p →
  0 < m_baseSize b ∧ node_ok (m_baseSize b) n ∧ (i < length (m_nodes b))%nat ∧
  0 ≤ Z.of_nat i * m_baseSize b ∧ Z.of_nat i * m_baseSize b + m_baseSize b ≤ m_capacity b ∧
  m_capacity b < 2 ^ 63.
Proof.
  intros [Hs Hc Hi Hp Ho]. pose proof (sh_base b Hs). pose proof (lookup_lt_Some _ _ _ Hi) as Hil.
  repeat split; try done; try apply (proj1 (Forall_lookup _ _) (sh_nodes b Hs) i n Hi).
  - lia.
  - rewrite (sh_cap b Hs). by apply idx_bound.
  - apply Hs.
Qed.

(** A block is left exactly at its end: where the cursor goes. *)
Lemma next_cursor b i p k : shape b → (i < length (m_nodes b))%nat →
  0 ≤ p → p + k ≤ m_baseSize b → 0 < k →
  (if m_baseSize b =? p + k then next_of i b else Some i)
  = cursor (m_baseSize b) (m_capacity b) (Z.of_nat i * m_baseSize b + p + k).
Proof.
  intros Hs Hi Hp Hk Hk0. pose proof (sh_base b Hs). pose proof (idx_bound _ i _ H Hi).
  pose proof (sh_cap b Hs) as Hc. unfold zlen in Hc. case_bool.
  - rewrite (cursor_next b i Hs Hi). f_equal. rewrite Nat2Z.inj_succ, Z.mul_succ_l. lia.
  - rewrite <-Z.add_assoc. symmetry. apply cursor_inner; lia.
Qed.

(** Going on in the following block. *)
Lemma at_next_block b i n p b1 pos : at_block b i n p → shape b1 → frame b b1 →
  pos = m_position b + (m_baseSize b - p) → pos < m_capacity b →
  ∃ n', next_of i (set_position_field pos b1) = Some (S i) ∧
    at_block (set_cur (Some (S i)) (set_position_field pos b1)) (S i) n' 0 ∧
    nd_size n' = m_baseSize b.
Proof.
  intros Hat Hs1 Hf1 Hpos Hcap. destruct (at_block_facts _ _ _ _ Hat) as (Hb & _ & Hil & Hi0 & Hib & Hbd).
  destruct Hat as [Hs _ _ Hp Ho].
  assert (Hi' : (S i < length (m_nodes b1))%nat).
  { rewrite (fr_len _ _ Hf1). apply (idx_lt (m_baseSize b)); [done|].
    rewrite (sh_cap b Hs) in Hcap. unfold zlen in Hcap. lia. }
  destruct (block_lookup b1 (S i) Hi' Hs1) as (n' & Hn' & Hok' & _).
  rewrite (fr_base _ _ Hf1) in Hok'.
  exists n'. split; [unfold next_of; cbn; by rewrite decide_True|]. split; [|done].
  split; cbn; try done; [by destruct Hs1; split| |]; rewrite (fr_base _ _ Hf1); lia.
Qed.

Lemma write_turn_last buf fuel b size bpos i n p : at_block b i n p → Forall is_byte buf →
  0 < size → size ≤ m_baseSize b - p → 0 ≤ bpos → bpos + size ≤ zlen buf →
  ∃ b', write_loop (S fuel) buf size bpos p (m_baseSize b - p) b = Done b' () ∧
    shape b' ∧ frame b b' ∧ m_size b' = m_size b ∧ m_position b' = m_position b + size ∧
    contents b' = splice (m_position b) (slice bpos size buf) (contents b) ∧
    m_cur b' = cursor (m_baseSize b) (m_capacity b) (m_position b + size).
Proof.
  intros Hat Hbuf Hsz Hge Hbp Hbuf'.
  destruct (at_block_facts _ _ _ _ Hat) as (Hb & Hok & Hil & Hi0 & Hib & Hbd).
  destruct Hat as [Hs Hc Hi Hpos Ho].
  assert (Hsl : zlen (slice bpos size buf) = size) by (apply zlen_slice; lia).
  destruct (wrote_shape b i n p (slice bpos size buf)) as (Hs1 & Hf1 & Hc1);
    [done..|by apply slice_byte|lia|lia|].
  cbn [write_loop]. if_true. if_true.
  erewrite bind_done; [|apply (copy_in_done b i n); [done..|lia|lia]].
  set (b1 := wrote i n p (slice bpos size buf) b) in *.
  erewrite bind_done; [|eapply (cur_node_done b1 i); [done|by apply node_after_wrote]].
  cbn [nd_size]. destruct Hok as (Hnb & _). rewrite Hnb, (u64_small (p + size)) by lia.
  erewrite (bind_done _ _ b1 (set_cur (if m_baseSize b =? p + size then next_of i b1 else Some i) b1) ()).
  2:{ case_bool; [by apply advance_done|]. unfold mret, M_ret. f_equal. unfold b1, wrote, set_nodes, set_cur. cbn. by rewrite Hc. }
  rewrite <-(fr_base _ _ Hf1), next_cursor by (rewrite ?(fr_base _ _ Hf1), ?(fr_len _ _ Hf1); lia || done).
  unfold move_position. erewrite bind_done; [|done].
  cbn [set_cur set_position_field m_position b1 wrote set_nodes]. rewrite (u64_small (m_position b + size)) by lia.
  eexists. split; [by destruct fuel|].
  rewrite (fr_base _ _ Hf1), (fr_cap _ _ Hf1), <-Hpos.
  split; [by destruct Hs1; split|]. split; [by destruct Hf1; split|].
  repeat split; try done. rewrite Hpos. exact Hc1.
Qed.

Lemma write_turn_next buf fuel b size bpos i n p : at_block b i n p → Forall is_byte buf →
  m_baseSize b - p < size → 0 ≤ bpos → bpos + size ≤ zlen buf → zlen buf < 2 ^ 63 →
  let k := m_baseSize b - p in m_position b + k < m_capacity b →
  ∃ b1 n', write_loop (S fuel) buf size bpos p k b
      = write_loop fuel buf (size - k) (bpos + k) 0 (m_baseSize b) b1 ∧
    at_block b1 (S i) n' 0 ∧ frame b b1 ∧ m_size b1 = m_size b ∧
    m_position b1 = m_position b + k ∧
    contents b1 = splice (m_position b) (slice bpos k buf) (contents b).
Proof.
  intros Hat Hbuf Hge Hbp Hbuf' Hlen k Hcap.
  destruct (at_block_facts _ _ _ _ Hat) as (Hb & Hok & Hil & Hi0 & Hib & Hbd).
  pose proof Hat as [Hs Hc Hi Hpos Ho].
  assert (Hsl : zlen (slice bpos k buf) = k) by (apply zlen_slice; lia).
  destruct (wrote_shape b i n p (slice bpos k buf)) as (Hs1 & Hf1 & Hc1);
    [done..|by apply slice_byte|lia|lia|].
  destruct (at_next_block b i n p (wrote i n p (slice bpos k buf) b) (m_position b + k))
    as (n' & Hnx & Hat' & Hn'); [done..|].
  cbn [write_loop]. if_true. if_false.
  erewrite bind_done; [|apply (copy_in_done b i n); [done..|lia|lia]].
  unfold move_position. erewrite bind_done; [|done]. cbv beta.
  change (m_position (wrote _ _ _ _ b)) with (m_position b).
  rewrite (u64_small (m_position b + k)) by lia.
  erewrite bind_done; [|apply (advance_done _ i); done]. rewrite Hnx.
  erewrite bind_done; [|eapply (cur_node_done _ (S i) n'); apply Hat'].
  eexists _, n'. rewrite Hn', !u64_small by lia. split; [done|]. split; [done|].
  split; [by destruct Hf1; split|]. repeat split; try done. rewrite Hpos. exact Hc1.
Qed.

Lemma write_loop_ok buf fuel : Forall is_byte buf → zlen buf < 2 ^ 63 →
  ∀ b size bpos i n p, at_block b i n p →
    0 < size → m_position b + size ≤ m_capacity b →
    0 ≤ bpos → bpos + size ≤ zlen buf → (length (m_nodes b) - i ≤ fuel)%nat →
    ∃ b', write_loop fuel buf size bpos p (m_baseSize b - p) b = Done b' () ∧
      shape b' ∧ frame b b' ∧ m_size b' = m_size b ∧ m_position b' = m_position b + size ∧
      contents b' = splice (m_position b) (slice bpos size buf) (contents b) ∧
      m_cur b' = cursor (m_baseSize b) (m_capacity b) (m_position b + size).
Proof.
  intros Hbuf Hlen. induction fuel as [|fuel IH]; intros b size bpos i n p Hat Hsz Hcap Hbp Hbuf' Hf;
    pose proof (at_block_facts _ _ _ _ Hat) as (Hb & _ & Hil & Hi0 & Hib & Hbd); [lia|].
  destruct (decide (size ≤ m_baseSize b - p)).
  { by apply (write_turn_last _ _ _ _ _ i n). }
  destruct (write_turn_next buf fuel b size bpos i n p) as (b1 & n' & -> & Hat1 & Hf1 & Hz1 & Hp1 & Hc1);
    [done..|lia|done|done|done|lia|].
  pose proof (ab_off _ _ _ _ Hat) as Ho. pose proof (ab_pos _ _ _ _ Hat) as Hpos. set (k := m_baseSize b - p) in *.
  destruct (IH b1 (size - k) (bpos + k) (S i) n' 0) as (b' & Hrun & Hs' & Hf' & Hz' & Hp' & Hc' & Hcu');
    [done|lia|rewrite Hp1, (fr_cap _ _ Hf1); lia|lia|lia|rewrite (fr_len _ _ Hf1); lia|].
  rewrite Z.sub_0_r, (fr_base _ _ Hf1) in Hrun. exists b'.
  split; [done|]. split; [done|]. split; [by eapply frame_trans|]. split; [congruence|].
  split; [lia|]. split.
  - rewrite Hc', Hc1, Hp1. replace size with (k + (size - k)) at 2 by lia.
    rewrite (slice_split bpos) by lia.
    rewrite <-splice_splice; [by rewrite (zlen_slice bpos k) by lia|lia|].
    { unfold contents. rewrite (zlen_flat (m_baseSize b)) by apply Hat.
      rewrite !zlen_slice by lia. rewrite <-(sh_cap b) by apply Hat. lia. }
  - rewrite Hcu', Hp1, (fr_base _ _ Hf1), (fr_cap _ _ Hf1). f_equal. lia.
Qed.

(** Past the last block the loop follows the null [next] link. *)
Lemma write_turn_null buf fuel b size bpos i n p : at_block b i n p → Forall is_byte buf →
  m_baseSize b - p < size → 0 ≤ bpos → bpos + size ≤ zlen buf →
  m_position b + (m_baseSize b - p) = m_capacity b →
  write_loop (S fuel) buf size bpos p (m_baseSize b - p) b = Undef NullDeref.
Proof.
  intros Hat Hbuf Hge Hbp Hbuf' Hcap.
  destruct (at_block_facts _ _ _ _ Hat) as (Hb & Hok & Hil & Hi0 & Hib & Hbd).
  pose proof Hat as [Hs Hc Hi Hpos Ho]. set (k := m_baseSize b - p) in *.
  assert (Hsl : zlen (slice bpos k buf) = k) by (apply zlen_slice; lia).
  destruct (wrote_shape b i n p (slice bpos k buf)) as (Hs1 & Hf1 & _);
    [done..|by apply slice_byte|lia|lia|].
  cbn [write_loop]. if_true. if_false.
  erewrite bind_done; [|apply (copy_in_done b i n); [done..|lia|lia]].
  unfold move_position. erewrite bind_done; [|done].
  erewrite bind_done; [|apply (advance_done _ i); done].
  apply bind_undef, cur_node_null. cbn [set_cur m_cur].
  unfold next_of; cbn. rewrite decide_False; [done|].
  rewrite length_insert. rewrite (sh_cap b Hs) in Hcap. unfold zlen in Hcap.
  intros Hlt. pose proof (idx_bound _ _ _ Hb Hlt). lia.
Qed.

Lemma write_loop_null buf fuel : Forall is_byte buf → zlen buf < 2 ^ 63 →
  ∀ b size bpos i n p, at_block b i n p →
    m_capacity b < m_position b + size →
    0 ≤ bpos → bpos + size ≤ zlen buf → (length (m_nodes b) - i ≤ fuel)%nat →
    write_loop fuel buf size bpos p (m_baseSize b - p) b = Undef NullDeref.
Proof.
  intros Hbuf Hlen. induction fuel as [|fuel IH]; intros b size bpos i n p Hat Hcap Hbp Hbuf' Hf;
    pose proof (at_block_facts _ _ _ _ Hat) as (Hb & _ & Hil & Hi0 & Hib & Hbd); [lia|].
  pose proof (ab_off _ _ _ _ Hat) as Ho. pose proof (ab_pos _ _ _ _ Hat) as Hpos.
  destruct (decide (m_position b + (m_baseSize b - p) = m_capacity b)).
  { by apply (write_turn_null _ _ _ _ _ i n); try lia. }
  destruct (write_turn_next buf fuel b size bpos i n p) as (b1 & n' & -> & Hat1 & Hf1 & Hz1 & Hp1 & Hc1);
    [done..|lia|done|done|done|lia|].
  pose proof (IH b1 (size - (m_baseSize b - p)) (bpos + (m_baseSize b - p)) (S i) n' 0 Hat1) as Hrun.
  rewrite Z.sub_0_r, (fr_base _ _ Hf1) in Hrun. apply Hrun; rewrite ?(fr_cap _ _ Hf1), ?(fr_len _ _ Hf1); lia.
Qed.

Lemma read_loop_ok fuel : ∀ b size i n p, at_block b i n p →
  0 < size → m_position b + size ≤ m_capacity b → (length (m_nodes b) - i ≤ fuel)%nat →
  read_loop fuel size p (m_baseSize b - p) b
  = Done (set_cur (cursor (m_baseSize b) (m_capacity b) (m_position b + size))
            (set_position_field (m_position b + size) b))
         (slice (m_position b) size (contents b)).
Proof.
  induction fuel as [|fuel IH]; intros b size i n p Hat Hsz Hcap Hf;
    pose proof (at_block_facts _ _ _ _ Hat) as (Hb & Hok & Hil & Hi0 & Hib & Hbd); [lia|].
  pose proof Hat as [Hs Hc Hi Hpos Ho]. destruct Hok as (Hnb & Hnl & _).
  cbn [read_loop]. if_true.
  erewrite bind_done; [|by apply (cur_node_done b i n)].
  destruct (m_baseSize b - p >=? size) eqn:Hge.
  - unfold copy_out. rewrite (block_ok_true n p size (m_baseSize b)) by lia.
    erewrite bind_done; [|done]. rewrite Hnb, (u64_small (p + size)) by lia.
    erewrite (bind_done _ _ b (set_cur (if m_baseSize b =? p + size then next_of i b else Some i) b) ()).
    2:{ case_bool; [by apply advance_done|]. unfold mret, M_ret. f_equal. destruct b; cbn in *. by rewrite Hc. }
    rewrite next_cursor by (lia || done). unfold move_position. erewrite bind_done; [|done].
    cbn [set_cur m_position]. rewrite (u64_small (m_position b + size)) by lia.
    erewrite bind_done; [|by destruct fuel]. unfold mret, M_ret. rewrite app_nil_r. f_equal.
    + unfold set_position_field, set_cur; cbn. by rewrite Hpos.
    + rewrite Hpos. symmetry. apply (flat_slice (m_baseSize b)); [apply Hs|done|lia..].
  - set (k := m_baseSize b - p) in *.
    unfold copy_out. rewrite (block_ok_true n p k (m_baseSize b)) by lia.
    erewrite bind_done; [|done]. unfold move_position. erewrite bind_done; [|done].
    rewrite (u64_small (m_position b + k)) by lia.
    destruct (at_next_block b i n p b (m_position b + k)) as (n' & Hnx & Hat' & Hn'); [done|done|by split|done|lia|].
    erewrite bind_done; [|apply (advance_done _ i); done]. rewrite Hnx.
    erewrite bind_done; [|eapply (cur_node_done _ (S i) n'); apply Hat'].
    rewrite Hn', (u64_small (size - k)) by lia.
    pose proof (IH _ (size - k) (S i) n' 0 Hat') as Hrun. cbn [set_cur set_position_field m_baseSize m_position m_capacity m_nodes] in Hrun.
    rewrite Z.sub_0_r in Hrun. erewrite bind_done; [|apply Hrun; lia].
    unfold mret, M_ret. f_equal.
    + unfold set_cur, set_position_field; cbn. replace (m_position b + k + (size - k)) with (m_position b + size) by lia. done.
    + replace size with (k + (size - k)) at 2 by lia. rewrite slice_split by lia. f_equal.
      rewrite Hpos. symmetry. apply (flat_slice (m_baseSize b)); [apply Hs|done|lia..].
Qed.

(** The [const] walks visit the bytes from block [i], offset [p], on. *)
Definition segs_bytes (b : ByteArray) (l : list (nat * Z * Z)) : list Z := concat (seg_bytes b <$> l).
Definition seg_in (b : ByteArray) (s : nat * Z * Z) : Prop :=
  ∃ n, m_nodes b !! s.1.1 = Some n ∧ block_ok n s.1.2 s.2 = true ∧ 0 < s.2.

Lemma walk_ok fuel b : shape b → ∀ len i p, 0 ≤ p < m_baseSize b → 0 < len →
  Z.of_nat i * m_baseSize b + p + len ≤ m_capacity b → (length (m_nodes b) - i ≤ fuel)%nat →
  (i < length (m_nodes b))%nat →
  ∃ segs, walk fuel (Some i) len p (m_baseSize b - p) b = Done b segs ∧ Forall (seg_in b) segs ∧
    segs_bytes b segs = slice (Z.of_nat i * m_baseSize b + p) len (contents b).
Proof.
  intros Hs. pose proof (sh_base b Hs) as Hb. pose proof (sh_bound b Hs) as Hbd.
  induction fuel as [|fuel IH]; intros len i p Hp Hlen Hcap Hf Hil; [lia|].
  destruct (block_lookup b i Hil Hs) as (n & Hi & Hnb & Hnl & _).
  assert (0 ≤ Z.of_nat i * m_baseSize b) by (apply Z.mul_nonneg_nonneg; lia).
  assert (Hseg : ∀ k, 0 < k → k ≤ m_baseSize b - p →
    seg_in b (i, p, k) ∧ seg_bytes b (i, p, k) = slice (Z.of_nat i * m_baseSize b + p) k (contents b)).
  { intros k Hk1 Hk2. split.
    - exists n. split; [done|]. split; [apply (block_ok_true n p k (m_baseSize b)); lia|done].
    - unfold seg_bytes; cbn. rewrite Hi. symmetry. apply (flat_slice (m_baseSize b)); [apply Hs|done|lia..]. }
  cbn [walk]. if_true. destruct (m_baseSize b - p >=? len) eqn:Hge.
  - destruct (Hseg len) as [H1 H2]; [lia..|]. exists [(i, p, len)]. split; [done|].
    split; [by constructor|]. unfold segs_bytes; cbn. by rewrite app_nil_r.
  - remember (m_baseSize b - p) as k eqn:Hk. destruct (Hseg k) as [H1 H2]; [lia..|].
    assert (Hi' : (S i < length (m_nodes b))%nat).
    { apply (idx_lt (m_baseSize b)); [done|]. rewrite (sh_cap b Hs) in Hcap. unfold zlen in Hcap. lia. }
    destruct (block_lookup b (S i) Hi' Hs) as (n' & Hi'' & Hnb' & _).
    destruct (IH (len - k) (S i) 0) as (segs & Hrun & Hin & Hbytes); [lia..|].
    exists ((i, p, k) :: segs). split; [|split; [by constructor|]].
    + erewrite bind_done; [|done]. unfold next_of. rewrite decide_True by done.
      erewrite bind_done; [|by unfold node_of; rewrite Hi'']. rewrite (u64_small (len - k)), Hnb' by lia.
      rewrite Z.sub_0_r in Hrun. by erewrite bind_done; [|exact Hrun].
    + unfold segs_bytes in *; cbn. rewrite Hbytes, H2.
      replace len with (k + (len - k)) at 2 by lia. rewrite slice_split by lia. do 2 f_equal. lia.
Qed.

Lemma copy_segs_ok b segs : Forall (seg_in b) segs → copy_segs segs b = Done b (segs_bytes b segs).
Proof.
  induction 1 as [|[[i p] k] segs (n & Hi & Hok & _) _ IH]; [done|]. cbn in Hi, Hok.
  cbn [copy_segs]. erewrite bind_done; [|by unfold node_of; rewrite Hi].
  unfold copy_out. rewrite Hok. erewrite bind_done; [|done]. erewrite bind_done; [|exact IH].
  unfold mret, M_ret, segs_bytes; cbn. unfold seg_bytes at 2; cbn. by rewrite Hi.
Qed.

(** ** Capacity *)
(** [addCapacity(size)] really makes room exactly in these cases: the room is
    already there, or what is missing is a multiple of the block size, or its
    remainder exceeds the room that was left. *)
Definition room_ok (b : ByteArray) (size : Z) : bool :=
  let room := m_capacity b - m_position b in
  let r := (size - room) mod m_baseSize b in
  (size <=? room) || (r =? 0) || (room <? r).

Section facts.
Context `{!Alloc}.

Lemma Node_new_ok s : 0 ≤ s → node_ok s (Node_new s).
Proof.
  intros. split; [done|]. split; cbn.
  - rewrite zlen_fmap. unfold zlen. rewrite length_seq. lia.
  - apply Forall_fmap, Forall_forall. intros i _. apply garbage_byte.
Qed.

Lemma ByteArray_new_wf s : 0 < s < 2 ^ 63 → wf (ByteArray_new s).
Proof.
  intros. split; cbn; try lia.
  - split; cbn; try done; try lia.
    + unfold zlen; simpl; lia.
    + constructor; [|done]. apply Node_new_ok. lia.
  - unfold cursor. if_true. done.
Qed.

Lemma addNodes_eq count : ∀ b, 0 ≤ m_capacity b → 0 ≤ m_baseSize b →
  m_capacity b + m_baseSize b * Z.of_nat count < 2 ^ 64 →
  addNodes count b = mkByteArray (m_baseSize b) (m_position b)
    (m_capacity b + m_baseSize b * Z.of_nat count) (m_size b) (m_endian b)
    (m_nodes b ++ replicate count (Node_new (m_baseSize b))) (m_cur b).
Proof.
  induction count as [|count IH]; intros b Hc Hb Hbd; cbn [addNodes].
  - destruct b; cbn. rewrite app_nil_r. f_equal. lia.
  - rewrite Nat2Z.inj_succ, Z.mul_succ_r in *.
    assert (0 ≤ m_baseSize b * Z.of_nat count) by (apply Z.mul_nonneg_nonneg; lia).
    rewrite u64_small by lia. rewrite IH by (cbn; lia). cbn. rewrite <-app_assoc. f_equal. lia.
Qed.

(** What [addCapacity] establishes, whether or not it makes enough room. *)
Record grown (b b' : ByteArray) (k : Z) : Prop := {
  gr_wf : wf b';
  gr_base : m_baseSize b' = m_baseSize b;
  gr_pos : m_position b' = m_position b;
  gr_size : m_size b' = m_size b;
  gr_endian : m_endian b' = m_endian b;
  gr_count : 0 ≤ k;
  gr_cap : m_capacity b' = m_capacity b + m_baseSize b * k;
  gr_contents : contents b' = contents b ++ flat (replicate (Z.to_nat k) (Node_new (m_baseSize b)))
}.

Lemma grown_refl b : wf b → grown b b 0.
Proof. intros. split; try done; [lia|]. cbn. by rewrite app_nil_r. Qed.

Lemma grown_data b b' k : wf b → grown b b' k → data b' = data b.
Proof.
  intros Hwf Hg. unfold data. rewrite (gr_size _ _ _ Hg), (gr_contents _ _ _ Hg).
  pose proof (wf_size _ Hwf). pose proof (wf_pos _ Hwf). unfold ztake. apply take_app_le.
  pose proof (zlen_flat (m_baseSize b) (m_nodes b) (sh_nodes _ (wf_shape _ Hwf))) as Hl.
  rewrite <-(sh_cap _ (wf_shape _ Hwf)) in Hl. unfold contents, zlen in *. lia.
Qed.

Lemma grow_ok b k : wf b → 0 ≤ k → m_capacity b + m_baseSize b * k < 2 ^ 63 →
  (m_position b = m_capacity b → 0 < k) →
  let b' := addNodes (Z.to_nat k) b in
  grown b (if m_capacity b - m_position b =? 0
           then set_cur (if k =? 0 then None else Some (length (m_nodes b))) b' else b') k.
Proof.
  intros Hwf Hk Hbd Hend. pose proof (wf_shape _ Hwf) as Hs. pose proof (wf_pos _ Hwf).
  pose proof (wf_size _ Hwf). pose proof (sh_base _ Hs) as Hb.
  assert (Hprod : 0 ≤ m_baseSize b * k) by (apply Z.mul_nonneg_nonneg; lia).
  cbv zeta. rewrite addNodes_eq by (rewrite ?Z2Nat.id; lia). rewrite Z2Nat.id by lia.
  set (l := m_nodes b ++ _).
  assert (Hl : m_capacity b + m_baseSize b * k = m_baseSize b * zlen l).
  { unfold l. rewrite zlen_app, zlen_replicate, Z2Nat.id, Z.mul_add_distr_l, (sh_cap _ Hs) by lia. done. }
  assert (Forall (node_ok (m_baseSize b)) l).
  { apply Forall_app_2; [apply Hs|]. apply Forall_replicate, Node_new_ok. lia. }
  assert (l ≠ []) by (intros Hnil; apply app_eq_nil in Hnil as [Hn _]; by apply (sh_root _ Hs)).
  assert (flat l = contents b ++ flat (replicate (Z.to_nat k) (Node_new (m_baseSize b)))) by apply flat_app.
  destruct (m_capacity b - m_position b =? 0) eqn:He.
  - assert (0 < k) by (apply Hend; lia). assert (m_baseSize b * 1 ≤ m_baseSize b * k) by (apply Z.mul_le_mono_nonneg_l; lia).
    if_false. split; try done. split; cbn; [by split|lia|lia|].
    pose proof (sh_cap _ Hs) as Hc. unfold zlen in Hc.
    replace (m_position b) with (Z.of_nat (length (m_nodes b)) * m_baseSize b + 0) by lia.
    symmetry. apply cursor_inner; lia.
  - split; try done. split; cbn; [by split|lia|lia|]. rewrite (wf_cur _ Hwf). unfold cursor.
    rewrite (proj2 (Z.ltb_lt (m_position b) (m_capacity b))) by lia.
    by rewrite (proj2 (Z.ltb_lt (m_position b) (m_capacity b + _))) by lia.
Qed.
End facts.
