(* ===== verification/ByteArrayProps.v ===== *)
(** * ByteArray: the theorems on the raw operations

    The abstract specification of the buffer is the pair of [data] and the
    position; each operation is shown to act on it as the class promises, on
    every branch: success, [std::out_of_range], and the inputs on which the code
    runs off the block list. *)
From S2P Require Import Prelude Endian ByteArray ByteArrayFacts.
Open Scope Z_scope.

Section props.
Context `{!Alloc}.

Lemma addCapacity_ok b size : wf b → 0 < size →
  m_position b + size + m_baseSize b < 2 ^ 63 →
  ∃ b' k, addCapacity size b = Done b' () ∧ grown b b' k ∧
    m_position b < m_capacity b' ∧
    (m_position b + size ≤ m_capacity b' ↔ room_ok b size = true).
Proof.
  intros Hwf Hsz Hbd. pose proof (wf_pos _ Hwf) as Hp. pose proof (wf_size _ Hwf) as Hz.
  pose proof (sh_base _ (wf_shape _ Hwf)) as Hb. pose proof (sh_bound _ (wf_shape _ Hwf)) as Hcb.
  unfold addCapacity, getCapacity. if_false. rewrite (u64_small (m_capacity b - _)) by lia.
  unfold room_ok. destruct (m_capacity b - m_position b >=? size) eqn:Hroom.
  { exists b, 0. rewrite (proj2 (Z.leb_le size _)) by lia.
    split; [done|]. split; [by apply grown_refl|]. split; [lia|]. split; [done|lia]. }
  rewrite (proj2 (Z.leb_gt size _)) by lia. cbn [orb].
  remember (m_capacity b - m_position b) as room eqn:Hr.
  rewrite (u64_small (size - room)) by lia. if_false.
  pose proof (Z.div_mod (size - room) (m_baseSize b) ltac:(lia)) as Hdm.
  pose proof (Z.mod_pos_bound (size - room) (m_baseSize b) Hb) as Hm.
  pose proof (Z.div_pos (size - room) (m_baseSize b) ltac:(lia) Hb) as Hq.
  pose proof (Z.div_le_upper_bound (size - room) (m_baseSize b) (size - room) Hb ltac:(nia)) as Hq'.
  unfold addCount.
  remember ((size - room) / m_baseSize b) as q. remember ((size - room) mod m_baseSize b) as r.
  remember (q + (if r >? room then 1 else 0)) as k eqn:Hk.
  assert (Hk0 : 0 ≤ k < 2 ^ 63) by (destruct (r >? room); lia). rewrite (u64_small k) by lia.
  assert (Hbk : m_baseSize b * k = size - room - r + (if r >? room then m_baseSize b else 0)).
  { rewrite Hk, Z.mul_add_distr_l. destruct (r >? room); lia. }
  eexists _, k. split; [done|]. rewrite Hr.
  split; [apply grow_ok; [done|lia|destruct (r >? room); lia|]|].
  { intros He. destruct (decide (r = 0)) as [->|]; [|destruct (r >? room) eqn:E; lia].
    destruct (0 >? room); [lia|]. assert (m_baseSize b * 0 < m_baseSize b * k) by lia. nia. }
  rewrite <-Hr.
  match goal with |- context [m_capacity ?x] => replace (m_capacity x) with (m_capacity b + m_baseSize b * k) end.
  2:{ rewrite addNodes_eq by (rewrite ?Z2Nat.id; destruct (r >? room); lia). rewrite Z2Nat.id by lia. by destruct (room =? 0). }
  rewrite orb_true_iff, Z.eqb_eq, Z.ltb_lt. rewrite Hbk. destruct (r >? room) eqn:E; split; lia.
Qed.

(** The block list after [addCapacity], seen from the cursor. *)
Lemma at_cursor b : wf b → m_position b < m_capacity b →
  ∃ i n, at_block b i n (m_position b mod m_baseSize b).
Proof.
  intros Hwf Hlt. pose proof (wf_pos _ Hwf).
  destruct (cursor_lookup b (wf_shape _ Hwf)) as (i & n & H1 & H2 & H3 & H4 & H5 & H6);
    [lia|apply (wf_cur _ Hwf)|]. exists i, n. by split; [apply Hwf|..].
Qed.

Lemma data_splice size pos (d c : list Z) : 0 ≤ pos ≤ size → size ≤ zlen c → pos + zlen d ≤ zlen c →
  ztake (Z.max size (pos + zlen d)) (splice pos d c)
  = ztake pos (ztake size c) ++ d ++ zdrop (pos + zlen d) (ztake size c).
Proof.
  intros. pose proof (zlen_nonneg d). unfold splice, ztake, zdrop, zlen in *.
  rewrite take_take, Nat.min_l by lia.
  rewrite !take_app, length_take, Nat.min_l by lia.
  rewrite (take_take _ _ (Z.to_nat pos)), Nat.min_r by lia. f_equal.
  rewrite (take_ge d) by lia. f_equal. rewrite skipn_firstn_comm. f_equal. lia.
Qed.

Lemma zlen_contents b : shape b → zlen (contents b) = m_capacity b.
Proof. intros Hs. unfold contents. rewrite (zlen_flat (m_baseSize b)) by apply Hs. by rewrite <-(sh_cap b Hs). Qed.

Lemma zlen_data b : wf b → zlen (data b) = m_size b.
Proof.
  intros Hwf. unfold data. pose proof (wf_pos _ Hwf). pose proof (wf_size _ Hwf).
  apply zlen_ztake. rewrite zlen_contents by apply Hwf. lia.
Qed.

Lemma data_slice b p n : wf b → 0 ≤ p → 0 ≤ n → p + n ≤ m_size b →
  slice p n (contents b) = slice p n (data b).
Proof.
  intros Hwf Hp Hn Hpn. pose proof (wf_size _ Hwf).
  assert (Hc : contents b = data b ++ zdrop (m_size b) (contents b))
    by (unfold data, ztake, zdrop; by rewrite take_drop).
  rewrite Hc at 1. apply slice_app_l; [done..|]. by rewrite zlen_data.
Qed.

Lemma write_enter b buf : wf b → 0 < zlen buf → m_position b + zlen buf + m_baseSize b < 2 ^ 63 →
  ∃ b1 k i n, grown b b1 k ∧ at_block b1 i n (m_position b1 mod m_baseSize b1) ∧
    (m_position b + zlen buf ≤ m_capacity b1 ↔ room_ok b (zlen buf) = true) ∧
    write buf b = (write_loop (S (length (m_nodes b1))) buf (zlen buf) 0 (m_position b1 mod m_baseSize b1)
                     (m_baseSize b1 - m_position b1 mod m_baseSize b1) ;;
                   modify (λ b, if m_position b >? m_size b then set_size_field (m_position b) b else b)) b1.
Proof.
  intros Hwf Hlen Hbd. destruct (addCapacity_ok b (zlen buf)) as (b1 & k & Hadd & Hg & Hlt & Hroom); [done..|].
  rewrite <-(gr_pos _ _ _ Hg) in Hlt. destruct (at_cursor b1 (gr_wf _ _ _ Hg) Hlt) as (i & n & Hat).
  exists b1, k, i, n. split; [done|]. split; [done|]. split; [done|].
  destruct (at_block_facts _ _ _ _ Hat) as (Hb & (Hnb & _) & _ & _ & Hib & Hbd').
  pose proof (ab_off _ _ _ _ Hat).
  unfold write. if_false. erewrite bind_done; [|exact Hadd].
  erewrite bind_done; [|done]. erewrite bind_done; [|apply mod_base_done; lia].
  erewrite bind_done; [|eapply cur_node_done; apply Hat]. erewrite bind_done; [|done].
  by rewrite Hnb, u64_small by (pose proof (sh_bound b1 (ab_shape _ _ _ _ Hat)); lia).
Qed.

(** What an operation does to the abstract state: the data and the position
    become [d] and [p], the representation stays sound. *)
Record becomes (b b' : ByteArray) (d : list Z) (p : Z) : Prop := {
  bc_wf : wf b';
  bc_data : data b' = d;
  bc_pos : m_position b' = p;
  bc_base : m_baseSize b' = m_baseSize b;
  bc_endian : m_endian b' = m_endian b
}.
(** The abstract [write]: overwrite from [p] on, extending if necessary. *)
Definition put (d : list Z) (p : Z) (buf : list Z) : list Z :=
  ztake p d ++ buf ++ zdrop (p + zlen buf) d.

Lemma write_ok b buf : wf b → Forall is_byte buf → room_ok b (zlen buf) = true →
  m_position b + zlen buf + m_baseSize b < 2 ^ 63 →
  ∃ b', write buf b = Done b' () ∧
    becomes b b' (put (data b) (m_position b) buf) (m_position b + zlen buf) ∧
    (zlen buf ≠ 0 → m_position b + zlen buf ≤ m_capacity b').
Proof.
  intros Hwf Hbuf Hroom Hbd. pose proof (wf_pos _ Hwf) as Hp.
  destruct (decide (zlen buf = 0)) as [H0|H0].
  { exists b. assert (buf = []) as -> by (destruct buf; [done|rewrite zlen_cons in H0; pose proof (zlen_nonneg buf); lia]).
    split; [done|]. unfold put. rewrite zlen_nil, Z.add_0_r. cbn [app]. split; [|done].
    split; try done. unfold ztake, zdrop; by rewrite take_drop. }
  pose proof (zlen_nonneg buf). pose proof (sh_base b (wf_shape b Hwf)) as Hb0.
  destruct (write_enter b buf) as (b1 & k & i & n & Hg & Hat & Hiff & ->); [done|lia|done|].
  destruct (at_block_facts _ _ _ _ Hat) as (Hb & _).
  destruct (write_loop_ok buf (S (length (m_nodes b1))) Hbuf ltac:(lia) b1 (zlen buf) 0 i n _ Hat)
    as (b' & Hrun & Hs' & Hf' & Hz' & Hp' & Hc' & Hcu');
    [lia|rewrite (gr_pos _ _ _ Hg); by apply Hiff|lia|lia|lia|].
  erewrite bind_done; [|exact Hrun].
  pose proof (wf_size _ (gr_wf _ _ _ Hg)) as Hz1. apply Hiff in Hroom.
  pose proof (gr_pos _ _ _ Hg) as Hgp. pose proof (gr_size _ _ _ Hg) as Hgs.
  pose proof (zlen_contents b1 (ab_shape _ _ _ _ Hat)) as Hzc.
  eexists. split; [unfold modify; reflexivity|].
  assert (Hm : m_size (if m_position b' >? m_size b' then set_size_field (m_position b') b' else b')
           = Z.max (m_size b) (m_position b + zlen buf)) by (case_bool; cbn; lia).
  assert (Hc2 : contents (if m_position b' >? m_size b' then set_size_field (m_position b') b' else b') = contents b')
    by (case_bool; done).
  split; [split|].
  - split.
    + case_bool; [by destruct Hs'; split|done].
    + rewrite Hm. case_bool; cbn; lia.
    + rewrite Hm. case_bool; cbn; rewrite (fr_cap _ _ Hf'); lia.
    + case_bool; cbn; by rewrite Hcu', Hp', (fr_base _ _ Hf'), (fr_cap _ _ Hf').
  - unfold data at 1. rewrite Hm, Hc2, Hc', slice_all by done. unfold put.
    rewrite <-(grown_data b b1 k Hwf Hg), <-Hgp, <-Hgs. apply data_splice; lia.
  - case_bool; cbn; lia.
  - case_bool; cbn; by rewrite (fr_base _ _ Hf'), (gr_base _ _ _ Hg).
  - case_bool; cbn; by rewrite (fr_endian _ _ Hf'), (gr_endian _ _ _ Hg).
  - intros _. case_bool; cbn; rewrite (fr_cap _ _ Hf'); lia.
Qed.

(** When [addCapacity] rounds the number of new blocks down although the
    remainder does not fit the room left, [write] copies what fits, follows the
    null link of the last block and dereferences it. *)
Lemma write_null_deref b buf : wf b → Forall is_byte buf → room_ok b (zlen buf) = false →
  m_position b + zlen buf + m_baseSize b < 2 ^ 63 →
  write buf b = Undef NullDeref.
Proof.
  intros Hwf Hbuf Hroom Hbd. pose proof (zlen_nonneg buf). pose proof (wf_pos _ Hwf). pose proof (wf_size _ Hwf).
  assert (0 < zlen buf).
  { unfold room_ok in Hroom. destruct (zlen buf <=? m_capacity b - m_position b) eqn:E; [done|lia]. }
  destruct (write_enter b buf) as (b1 & k & i & n & Hg & Hat & Hiff & ->); [done|lia|done|].
  apply bind_undef. apply (write_loop_null buf _ Hbuf ltac:(pose proof (sh_base b (wf_shape b Hwf)); lia) b1 _ _ i n); [done| |lia..].
  rewrite (gr_pos _ _ _ Hg). destruct (decide (m_position b + zlen buf ≤ m_capacity b1)) as [Hle|]; [|lia].
  apply Hiff in Hle. congruence.
Qed.

(** Reading is total on well-formed buffers: the three outcomes of [read]. *)
Lemma read_ok b n : wf b → 0 < n → m_position b + n ≤ m_size b →
  read n b = Done (set_cur (cursor (m_baseSize b) (m_capacity b) (m_position b + n))
                     (set_position_field (m_position b + n) b))
                  (slice (m_position b) n (data b)).
Proof.
  intros Hwf Hn Hle. pose proof (wf_pos _ Hwf). pose proof (wf_size _ Hwf).
  destruct (at_cursor b Hwf) as (i & nd & Hat); [lia|].
  destruct (at_block_facts _ _ _ _ Hat) as (Hb & (Hnb & _) & _ & _ & Hib & Hbd').
  pose proof (ab_off _ _ _ _ Hat).
  unfold read, getReadSize. erewrite bind_done; [|done]. rewrite (u64_small (m_size b - _)) by lia. if_false.
  erewrite bind_done; [|done]. erewrite bind_done; [|apply mod_base_done; lia].
  erewrite bind_done; [|eapply cur_node_done; apply Hat]. erewrite bind_done; [|done].
  rewrite Hnb, u64_small by (pose proof (sh_bound b (wf_shape b Hwf)); lia). rewrite (read_loop_ok _ b n i nd _ Hat) by lia.
  by rewrite (data_slice b _ _ Hwf) by lia.
Qed.

Lemma moved_wf b v : wf b → 0 ≤ v ≤ m_size b →
  wf (set_cur (cursor (m_baseSize b) (m_capacity b) v) (set_position_field v b)).
Proof. intros [[] Hp Hz Hc] Hv. by repeat (split; cbn; try done). Qed.

Lemma moved_becomes b v : wf b → 0 ≤ v ≤ m_size b →
  becomes b (set_cur (cursor (m_baseSize b) (m_capacity b) v) (set_position_field v b)) (data b) v.
Proof. intros. split; try done. by apply moved_wf. Qed.

Lemma read_zero b : wf b → m_position b < m_capacity b → read 0 b = Done b [].
Proof.
  intros Hwf Hlt. pose proof (wf_pos _ Hwf) as Hp. pose proof (wf_size _ Hwf) as Hz.
  pose proof (sh_bound _ (wf_shape _ Hwf)). pose proof (sh_base _ (wf_shape _ Hwf)) as Hb.
  destruct (at_cursor b Hwf) as (i & nd & Hat); [lia|].
  unfold read, getReadSize. erewrite bind_done; [|done]. rewrite u64_small by lia. if_false.
  erewrite bind_done; [|done]. erewrite bind_done; [|apply mod_base_done; lia].
  erewrite bind_done; [|eapply cur_node_done; apply Hat]. done.
Qed.

Lemma read_raise b n : wf b → m_size b < m_position b + n → read n b = Raise b ExnOutOfRange.
Proof.
  intros Hwf Hgt. pose proof (wf_pos _ Hwf). pose proof (wf_size _ Hwf). pose proof (sh_bound _ (wf_shape _ Hwf)).
  unfold read, getReadSize. erewrite bind_done; [|done]. rewrite u64_small by lia. by if_true.
Qed.

Lemma read_zero_null b : wf b → m_position b = m_capacity b → read 0 b = Undef NullDeref.
Proof.
  intros Hwf He. pose proof (wf_pos _ Hwf). pose proof (wf_size _ Hwf).
  pose proof (sh_bound _ (wf_shape _ Hwf)). pose proof (sh_base _ (wf_shape _ Hwf)) as Hb.
  unfold read, getReadSize. erewrite bind_done; [|done]. rewrite u64_small by lia. if_false.
  erewrite bind_done; [|done]. erewrite bind_done; [|apply mod_base_done; lia].
  apply bind_undef, cur_node_null. rewrite (wf_cur _ Hwf). unfold cursor. by if_false.
Qed.

Lemma read_becomes b n : wf b → 0 ≤ n → (0 < n ∨ m_position b < m_capacity b) →
  m_position b + n ≤ m_size b →
  ∃ b', read n b = Done b' (slice (m_position b) n (data b)) ∧
    becomes b b' (data b) (m_position b + n) ∧ m_capacity b' = m_capacity b.
Proof.
  intros Hwf Hn Hne Hle. pose proof (wf_pos _ Hwf). destruct (decide (n = 0)) as [->|].
  - exists b. rewrite read_zero, slice_0, Z.add_0_r by (done || lia). done.
  - eexists. split; [by apply read_ok; try lia|]. split; [|done]. apply moved_becomes; [done|lia].
Qed.

(** ** setPosition *)
Lemma seek_ok fuel b : shape b → ∀ i v, (i < length (m_nodes b))%nat →
  0 ≤ v → Z.of_nat i * m_baseSize b + v ≤ m_capacity b → (length (m_nodes b) - i ≤ fuel)%nat →
  seek fuel (Some i) v b = Done b (cursor (m_baseSize b) (m_capacity b) (Z.of_nat i * m_baseSize b + v)).
Proof.
  intros Hs. pose proof (sh_base b Hs) as Hb. pose proof (sh_bound b Hs).
  induction fuel as [|fuel IH]; intros i v Hi Hv Hc Hf; [lia|].
  destruct (block_lookup b i Hi Hs) as (n & Hn & Hnb & _). pose proof (sh_cap b Hs) as Hcap. unfold zlen in Hcap.
  assert (0 ≤ Z.of_nat i * m_baseSize b) by (apply Z.mul_nonneg_nonneg; lia).
  cbn [seek]. erewrite bind_done; [|done]. erewrite bind_done; [|by unfold node_of; rewrite Hn]. rewrite Hnb.
  destruct (v >? m_baseSize b) eqn:Hgt.
  - assert (S i < length (m_nodes b))%nat by (apply (idx_lt (m_baseSize b)); lia).
    unfold next_of. rewrite decide_True, u64_small by lia.
    rewrite (IH (S i) (v - m_baseSize b)) by lia. do 2 f_equal. lia.
  - unfold mret, M_ret. f_equal. destruct (v =? m_baseSize b) eqn:He.
    + replace v with (m_baseSize b) by lia. unfold next_of, cursor. case_decide as Hlt.
      * pose proof (idx_bound _ _ _ Hb Hlt). if_true. f_equal.
        replace (Z.of_nat i * m_baseSize b + m_baseSize b) with (Z.of_nat (S i) * m_baseSize b) by lia.
        rewrite Z.div_mul by lia. lia.
      * assert (length (m_nodes b) = S i) as Hl by lia. rewrite Hl in Hcap. by if_false.
    + unfold cursor. pose proof (idx_bound _ _ _ Hb Hi). if_true. f_equal.
      rewrite Z.div_add_l, Z.div_small by lia. lia.
Qed.

Lemma setPosition_cases b v : wf b → 0 ≤ v →
  (m_capacity b < v → setPosition v b = Raise b ExnOutOfRange) ∧
  (v ≤ m_capacity b → ∃ b', setPosition v b = Done b' () ∧
    becomes b b' (data b ++ slice (m_size b) (v - m_size b) (contents b)) v ∧ m_capacity b' = m_capacity b).
Proof.
  intros Hwf Hv. unfold setPosition. erewrite bind_done; [|done]. split; [intros; by if_true|intros Hle].
  pose proof (wf_pos _ Hwf). pose proof (wf_size _ Hwf). pose proof (wf_shape _ Hwf) as Hs.
  if_false. erewrite bind_done; [|done]. erewrite bind_done; [|done]. erewrite bind_done; [|done].
  cbn [set_position_field m_position m_size].
  remember (if v >? m_size b then _ else _) as b1 eqn:Hb1.
  assert (Hz : m_size b1 = Z.max (m_size b) v) by (rewrite Hb1; case_bool; cbn; lia).
  assert (Hr : m_baseSize b1 = m_baseSize b ∧ m_nodes b1 = m_nodes b ∧ m_capacity b1 = m_capacity b ∧
    m_position b1 = v ∧ m_endian b1 = m_endian b) by (rewrite Hb1; by case_bool).
  destruct Hr as (Hr1 & Hr2 & Hr3 & Hr4 & Hr5).
  assert (Hs1 : shape b1) by (destruct Hs; split; rewrite ?Hr1, ?Hr2, ?Hr3; done).
  erewrite bind_done; [|apply (seek_ok (S (length (m_nodes b1))) b1 Hs1 0 v); [|lia..]].
  2:{ pose proof (sh_root b1 Hs1). destruct (m_nodes b1); [done|cbn; lia]. }
  rewrite Z.mul_0_l, Z.add_0_l. eexists. split; [done|]. split; [|done].
  split; cbn; try done.
  - split; cbn; [by destruct Hs1; split|lia|lia|]. by rewrite Hr4.
  - unfold data, contents. cbn. rewrite Hz, Hr2. destruct (decide (v ≤ m_size b)).
    + rewrite Z.max_l by lia. rewrite slice_neg by lia. by rewrite app_nil_r.
    + rewrite Z.max_r by lia. replace v with (m_size b + (v - m_size b)) at 1 by lia. apply ztake_app_split; lia.
Qed.

Lemma setPosition_back b v : wf b → 0 ≤ v ≤ m_size b → ∃ b', setPosition v b = Done b' () ∧
  becomes b b' (data b) v ∧ m_capacity b' = m_capacity b.
Proof.
  intros Hwf Hv. pose proof (wf_size _ Hwf).
  destruct (setPosition_cases b v Hwf) as [_ (b' & Hrun & Hb & Hc)]; [lia..|]. exists b'. split; [done|].
  split; [|done]. revert Hb. by rewrite slice_neg, app_nil_r by lia.
Qed.

(** ** The [const] walks *)
Lemma walk_readable b len : wf b → 0 < len → len ≤ m_size b - m_position b →
  ∃ n, cur_node b = Done b n ∧ ∃ segs,
    walk (S (length (m_nodes b))) (m_cur b) len (m_position b mod m_baseSize b)
      (u64 (nd_size n - m_position b mod m_baseSize b)) b = Done b segs ∧
    Forall (seg_in b) segs ∧ segs_bytes b segs = slice (m_position b) len (data b).
Proof.
  intros Hwf Hl Hle. pose proof (wf_pos _ Hwf). pose proof (wf_size _ Hwf).
  destruct (at_cursor b Hwf) as (i & n & Hat); [lia|].
  destruct (at_block_facts _ _ _ _ Hat) as (Hb & (Hnb & _) & Hil & _ & Hib & Hbd).
  pose proof (ab_off _ _ _ _ Hat) as Ho. pose proof (ab_pos _ _ _ _ Hat) as Hp.
  exists n. split; [eapply cur_node_done; apply Hat|].
  rewrite Hnb, u64_small by lia. rewrite (ab_cur _ _ _ _ Hat).
  destruct (walk_ok (S (length (m_nodes b))) b (wf_shape _ Hwf) len i (m_position b mod m_baseSize b))
    as (segs & Hrun & Hin & Hbytes); [lia..|].
  exists segs. split; [done|]. split; [done|]. rewrite Hbytes, <-Hp, (data_slice b _ _ Hwf) by lia. done.
Qed.

Lemma getReadBuffers_ok b len : wf b → 0 ≤ len →
  ∃ iov, getReadBuffers len b = Done b (Z.min len (m_size b - m_position b), iov) ∧
    Forall (seg_in b) iov ∧
    segs_bytes b iov = slice (m_position b) (Z.min len (m_size b - m_position b)) (data b).
Proof.
  intros Hwf Hl. pose proof (wf_pos _ Hwf). pose proof (wf_size _ Hwf). pose proof (sh_bound _ (wf_shape _ Hwf)).
  pose proof (sh_base _ (wf_shape _ Hwf)) as Hb.
  unfold getReadBuffers, getReadSize. erewrite bind_done; [|done]. rewrite (u64_small (m_size b - _)) by lia.
  replace (if len >? m_size b - m_position b then _ else len) with (Z.min len (m_size b - m_position b))
    by (case_bool; lia).
  destruct (decide (Z.min len (m_size b - m_position b) = 0)) as [E|E].
  { exists []. rewrite E, slice_0. by split. }
  if_false. destruct (walk_readable b (Z.min len (m_size b - m_position b)) Hwf) as (n & Hn & iov & Hrun & Hin & Hby); [lia..|].
  exists iov. erewrite bind_done; [|apply mod_base_done; lia]. erewrite bind_done; [|exact Hn].
  erewrite bind_done; [|exact Hrun]. done.
Qed.

Lemma toString_ok b : wf b → toString b = Done b (zdrop (m_position b) (data b)).
Proof.
  intros Hwf. pose proof (wf_pos _ Hwf). pose proof (wf_size _ Hwf). pose proof (sh_bound _ (wf_shape _ Hwf)).
  pose proof (sh_base _ (wf_shape _ Hwf)) as Hb. pose proof (zlen_data b Hwf) as Hz.
  assert (Hs : slice (m_position b) (m_size b - m_position b) (data b) = zdrop (m_position b) (data b)).
  { unfold slice, ztake. apply take_ge. pose proof (zlen_zdrop (m_position b) (data b)). unfold zlen in *. lia. }
  unfold toString, getReadSize. erewrite bind_done; [|done]. rewrite (u64_small (m_size b - _)) by lia.
  destruct (decide (m_size b - m_position b = 0)) as [E|E].
  { if_true. by rewrite <-Hs, E, slice_0. }
  if_false. destruct (walk_readable b (m_size b - m_position b) Hwf) as (n & Hn & iov & Hrun & Hin & Hby); [lia..|].
  unfold read_at. erewrite bind_done; [|done]. rewrite (u64_small (m_size b - _)) by lia. if_false.
  erewrite bind_done; [|apply mod_base_done; lia]. erewrite bind_done; [|exact Hn].
  erewrite bind_done; [|exact Hrun]. rewrite copy_segs_ok by done. by rewrite Hby, Hs.
Qed.

(** ** Files *)
Lemma file_loop_ok b : shape b → m_baseSize b < 2 ^ 31 → ∀ fuel i p rd, 0 ≤ p < m_baseSize b → 0 ≤ rd →
  (rd = 0 ∨ (i < length (m_nodes b))%nat) → (rd = 0 ∨ p = 0 ∨ m_baseSize b ≤ rd) →
  Z.of_nat i * m_baseSize b + p + rd ≤ m_capacity b → (rd = 0 ∨ (length (m_nodes b) - i ≤ fuel)%nat) →
  file_loop fuel (Some i) rd (Z.of_nat i * m_baseSize b + p) b
  = Done b (slice (Z.of_nat i * m_baseSize b + p) rd (contents b)).
Proof.
  intros Hs Hb31. pose proof (sh_base b Hs) as Hb. pose proof (sh_bound b Hs) as Hbd.
  induction fuel as [|fuel IH]; intros i p rd Hp Hrd Hi Hal Hc Hf.
  { assert (rd = 0) as -> by lia. by rewrite slice_0. }
  destruct (decide (rd = 0)) as [->|Hne]; [by rewrite slice_0|].
  destruct Hi as [?|Hi]; [lia|]. destruct (block_lookup b i Hi Hs) as (n & Hn & Hnb & Hnl & _).
  assert (0 ≤ Z.of_nat i * m_baseSize b) by (apply Z.mul_nonneg_nonneg; lia).
  cbn [file_loop]. if_true. erewrite bind_done; [|done]. erewrite bind_done; [|apply mod_base_done; lia].
  rewrite u64_small by lia. rewrite Z.add_comm, Z.mod_add, Z.mod_small, (Z.add_comm p) by lia.
  rewrite s32_small by lia. rewrite (s64_small (m_baseSize b)) by lia.
  remember (s64 _) as len eqn:Hlen.
  assert (Hl : len = Z.min rd (m_baseSize b) - p).
  { rewrite Hlen. rewrite s64_small by (case_bool; lia). case_bool; lia. }
  clear Hlen. erewrite bind_done; [|by unfold node_of; rewrite Hn]. if_false.
  unfold copy_out. rewrite (block_ok_true n p len (m_baseSize b)) by lia.
  erewrite bind_done; [|done]. rewrite !s64_small by lia.
  assert (Hnext : file_loop fuel (next_of i b) (rd - len) (Z.of_nat i * m_baseSize b + p + len) b
    = Done b (slice (Z.of_nat i * m_baseSize b + p + len) (rd - len) (contents b))).
  { destruct (decide (rd - len = 0)) as [->|]; [rewrite slice_0; by destruct fuel|].
    pose proof (sh_cap b Hs) as Hcap. unfold zlen in Hcap.
    assert (S i < length (m_nodes b))%nat by (apply (idx_lt (m_baseSize b)); lia).
    unfold next_of. rewrite decide_True by done.
    replace (Z.of_nat i * m_baseSize b + p + len) with (Z.of_nat (S i) * m_baseSize b + 0) by lia.
    apply IH; lia. }
  erewrite bind_done; [|exact Hnext]. unfold mret, M_ret. f_equal.
  replace rd with (len + (rd - len)) at 2 by lia. rewrite slice_split by lia. f_equal.
  symmetry. apply (flat_slice (m_baseSize b)); [apply Hs|done|lia..].
Qed.

Lemma writeToFile_ok b : wf b → m_baseSize b < 2 ^ 31 →
  (m_position b mod m_baseSize b = 0 ∨ m_baseSize b ≤ m_size b - m_position b) →
  writeToFile b = Done b (zdrop (m_position b) (data b)).
Proof.
  intros Hwf Hb31 Hal. pose proof (wf_pos _ Hwf). pose proof (wf_size _ Hwf). pose proof (wf_shape _ Hwf) as Hs.
  pose proof (sh_bound _ Hs). pose proof (sh_base _ Hs) as Hb. pose proof (zlen_data b Hwf) as Hz.
  assert (Hd : slice (m_position b) (m_size b - m_position b) (data b) = zdrop (m_position b) (data b)).
  { unfold slice, ztake. apply take_ge. pose proof (zlen_zdrop (m_position b) (data b)). unfold zlen in *. lia. }
  rewrite <-Hd. unfold writeToFile, getReadSize. erewrite bind_done; [|done].
  rewrite u64_small, !s64_small by lia.
  destruct (decide (m_size b - m_position b = 0)) as [->|Hne]; [by rewrite slice_0|].
  destruct (at_cursor b Hwf) as (i & n & Hat); [lia|].
  destruct (at_block_facts _ _ _ _ Hat) as (_ & _ & Hil & _ & Hib & _).
  rewrite (ab_cur _ _ _ _ Hat). rewrite (ab_pos _ _ _ _ Hat) at 2. pose proof (ab_pos _ _ _ _ Hat).
  rewrite file_loop_ok by (try apply (ab_off _ _ _ _ Hat); (done || lia)).
  rewrite <-(ab_pos _ _ _ _ Hat), (data_slice b _ _ Hwf) by lia. done.
Qed.

Lemma room_ok_aligned b n : wf b → m_position b = m_capacity b → 0 ≤ n → room_ok b n = true.
Proof.
  intros Hwf He Hn. unfold room_ok. rewrite He, Z.sub_diag, Z.sub_0_r.
  pose proof (sh_base _ (wf_shape _ Hwf)) as Hb. pose proof (Z.mod_pos_bound n (m_baseSize b) Hb).
  rewrite !orb_true_iff, Z.leb_le, Z.eqb_eq, Z.ltb_lt. lia.
Qed.
Lemma put_put d p c1 c2 : 0 ≤ p ≤ zlen d →
  put (put d p c1) (p + zlen c1) c2 = put d p (c1 ++ c2).
Proof.
  intros Hp. pose proof (zlen_nonneg c1). pose proof (zlen_nonneg c2). unfold put.
  assert (Hl : zlen (ztake p d ++ c1) = p + zlen c1) by (rewrite zlen_app, zlen_ztake; lia).
  rewrite (app_assoc (ztake p d)), (ztake_app_exact _ _ _ Hl), (zdrop_app_plus _ _ _ _ Hl) by lia.
  rewrite <-!app_assoc, zdrop_zdrop, zlen_app, Z.add_assoc by lia. done.
Qed.

Lemma put_nil l : put [] 0 l = l.
Proof. unfold put, ztake, zdrop. rewrite take_nil, drop_nil. apply app_nil_r. Qed.

Lemma room_ok_block b n : wf b → m_position b mod m_baseSize b = 0 → 0 ≤ n ≤ m_baseSize b → room_ok b n = true.
Proof.
  intros Hwf Hm Hn. destruct (decide (m_position b = m_capacity b)); [apply room_ok_aligned; (done || lia)|].
  pose proof (wf_pos _ Hwf). pose proof (wf_size _ Hwf). pose proof (sh_base _ (wf_shape _ Hwf)) as Hb.
  unfold room_ok. rewrite !orb_true_iff. do 2 left. apply Z.leb_le.
  rewrite (sh_cap _ (wf_shape _ Hwf)) in *. pose proof (Z.div_mod (m_position b) (m_baseSize b)) as Hd.
  destruct (div_index (m_baseSize b) (m_position b) (zlen (m_nodes b))) as [_ Hq]; [lia..|].
  assert (m_baseSize b * (m_position b / m_baseSize b + 1) ≤ m_baseSize b * zlen (m_nodes b))
    by (apply Z.mul_le_mono_nonneg_l; lia). lia.
Qed.

Lemma file_read_loop_ok fuel : ∀ b file, wf b → Forall is_byte file →
  m_position b mod m_baseSize b = 0 → m_position b + zlen file + 2 * m_baseSize b < 2 ^ 63 →
  (length file < fuel)%nat →
  ∃ b', file_read_loop fuel file b = Done b' () ∧
    becomes b b' (put (data b) (m_position b) file) (m_position b + zlen file).
Proof.
  induction fuel as [|fuel IH]; intros b file Hwf Hfile Hm Hbd Hf; [lia|].
  pose proof (wf_pos _ Hwf). pose proof (sh_base _ (wf_shape _ Hwf)) as Hb. pose proof (zlen_data b Hwf).
  pose proof (zlen_nonneg file). cbn [file_read_loop]. erewrite bind_done; [|done].
  destruct (zlen file <? m_baseSize b) eqn:Hlt.
  - assert (ztake (m_baseSize b) file = file) as -> by (apply take_ge; unfold zlen in *; lia).
    destruct (write_ok b file) as (b' & Hrun & Hbc & _); [done..|apply room_ok_block; [done..|lia]|lia|].
    exists b'. erewrite bind_done; [|exact Hrun]. done.
  - assert (Hc : zlen (ztake (m_baseSize b) file) = m_baseSize b) by (apply zlen_ztake; lia).
    assert (Hr : zlen (zdrop (m_baseSize b) file) = zlen file - m_baseSize b) by (apply zlen_zdrop; lia).
    destruct (write_ok b (ztake (m_baseSize b) file)) as (b1 & Hrun & Hbc & _);
      [done|by apply Forall_take|apply room_ok_block; [done..|lia]|lia|].
    rewrite Hc in Hbc.
    destruct (IH b1 (zdrop (m_baseSize b) file)) as (b' & Hrun' & Hbc').
    { apply Hbc. } { by apply Forall_drop. }
    { rewrite (bc_pos _ _ _ _ Hbc), (bc_base _ _ _ _ Hbc). rewrite <-(Z.mul_1_l (m_baseSize b)) at 1.
      by rewrite Z.mod_add by lia. }
    { rewrite (bc_pos _ _ _ _ Hbc), (bc_base _ _ _ _ Hbc). lia. }
    { unfold zlen in *. lia. }
    exists b'. erewrite bind_done; [|exact Hrun]. split; [done|].
    destruct Hbc' as [F1 F2 F3 F4 F5], Hbc as [G1 G2 G3 G4 G5]. rewrite G3, G2 in *. split; try congruence; [|lia].
    rewrite F2. rewrite <-Hc at 2. rewrite put_put by lia. unfold ztake, zdrop. by rewrite take_drop.
Qed.
End props.

(** ** The properties of the raw buffer *)
Section properties.
Context `{!Alloc}.

(** C3: [write] refines overwriting the abstract data at the position (and
    extending it), whenever [addCapacity] makes room; in the remaining case -
    the rounding of the block count in [addCapacity] leaves the buffer short -
    it dereferences the null link behind the last block.  No other outcome
    exists, and the representation invariant is preserved. *)
Theorem write_refines b buf : wf b → Forall is_byte buf →
  m_position b + zlen buf + m_baseSize b < 2 ^ 63 →
  if room_ok b (zlen buf)
  then ∃ b', write buf b = Done b' () ∧
    becomes b b' (put (data b) (m_position b) buf) (m_position b + zlen buf)
  else write buf b = Undef NullDeref.
Proof.
  intros Hwf Hbuf Hbd. destruct (room_ok b (zlen buf)) eqn:Hroom.
  - destruct (write_ok b buf) as (b' & ? & ? & _); eauto.
  - by apply write_null_deref.
Qed.

(** C4: [read(buf, n)] on a well-formed buffer returns the [n] bytes at the
    position and moves behind them, leaving the data alone; it throws
    [out_of_range] without any effect when fewer than [n] bytes are left; and
    an empty read with the position at the capacity dereferences null. *)
Theorem read_refines b n : wf b → 0 ≤ n →
  if m_size b <? m_position b + n then read n b = Raise b ExnOutOfRange
  else if (n =? 0) && (m_position b =? m_capacity b) then read n b = Undef NullDeref
  else ∃ b', read n b = Done b' (slice (m_position b) n (data b)) ∧
    becomes b b' (data b) (m_position b + n).
Proof.
  intros Hwf Hn. pose proof (wf_size _ Hwf). pose proof (wf_pos _ Hwf).
  destruct (m_size b <? _) eqn:Hlt; [apply read_raise; [done|lia]|].
  destruct ((n =? 0) && _) eqn:He.
  - assert (n = 0) as -> by lia. apply read_zero_null; [done|lia].
  - destruct (read_becomes b n Hwf Hn) as (b' & ? & ? & _); [lia..|eauto].
Qed.

(** [setPosition(v)] throws beyond the capacity; otherwise it terminates
    with the position at [v] and the cursor on the block of [v], and when [v]
    lies beyond the size the data grows by the bytes in between. *)
Theorem setPosition_refines b v : wf b → 0 ≤ v →
  if m_capacity b <? v then setPosition v b = Raise b ExnOutOfRange
  else ∃ b', setPosition v b = Done b' () ∧
    becomes b b' (data b ++ slice (m_size b) (v - m_size b) (contents b)) v.
Proof.
  intros Hwf Hv. destruct (setPosition_cases b v Hwf Hv) as [H1 H2].
  destruct (m_capacity b <? v) eqn:E; [apply H1; lia|].
  destruct H2 as (b' & ? & ? & _); [lia|eauto].
Qed.

(** the iovecs of [getReadBuffers(buffers, len)] are in-bounds, non-empty
    segments of live blocks that spell the next [min(len, readable)] bytes,
    and [toString] copies all readable bytes; neither changes the buffer. *)
Theorem getReadBuffers_refines b len : wf b → 0 ≤ len →
  (∃ iov, getReadBuffers len b = Done b (Z.min len (m_size b - m_position b), iov) ∧
    Forall (seg_in b) iov ∧
    segs_bytes b iov = slice (m_position b) (Z.min len (m_size b - m_position b)) (data b)) ∧
  toString b = Done b (zdrop (m_position b) (data b)).
Proof. intros. split; [by apply getReadBuffers_ok|by apply toString_ok]. Qed.

(** a file written by [writeToFile] and loaded by [readFromFile] into a
    fresh buffer of any block size holds exactly the readable bytes, provided
    the position is block-aligned or a whole block is readable. *)
Theorem file_roundtrip b base : wf b → 0 < base → m_baseSize b < 2 ^ 31 →
  (m_position b mod m_baseSize b = 0 ∨ m_baseSize b ≤ m_size b - m_position b) →
  m_size b + 2 * base < 2 ^ 63 →
  ∃ file b', writeToFile b = Done b file ∧ readFromFile file (ByteArray_new base) = Done b' () ∧
    becomes (ByteArray_new base) b' (zdrop (m_position b) (data b)) (m_size b - m_position b).
Proof.
  intros Hwf Hbase Hb31 Hal Hbd. pose proof (wf_pos _ Hwf). pose proof (wf_size _ Hwf).
  pose proof (zlen_data b Hwf) as Hz. pose proof (zlen_zdrop (m_position b) (data b) ltac:(lia)) as Hzd.
  exists (zdrop (m_position b) (data b)).
  destruct (file_read_loop_ok (S (length (zdrop (m_position b) (data b)))) (ByteArray_new base)
    (zdrop (m_position b) (data b))) as (b' & Hrun & Hbc).
  - apply ByteArray_new_wf. lia.
  - apply Forall_drop. unfold data. apply Forall_take. apply (flat_byte (m_baseSize b)), Hwf.
  - cbn. by apply Z.mod_0_l; lia.
  - cbn. lia.
  - lia.
  - exists b'. split; [by apply writeToFile_ok|]. split; [exact Hrun|].
    rewrite Hzd, Hz in Hbc. change (data (ByteArray_new base)) with (@nil Z) in Hbc.
    change (m_position (ByteArray_new base)) with 0 in Hbc. by rewrite put_nil in Hbc.
Qed.
End properties.

(** ** Witnesses *)
(** Eight bytes fit two blocks of four; five bytes crash, although two blocks
    would hold them: [addCapacity] allocates none. *)
Lemma write_refines_witness :
  (∃ b', @write zero_alloc [1; 2; 3; 4; 5; 6; 7; 8] (@ByteArray_new zero_alloc 4) = Done b' () ∧
    data b' = [1; 2; 3; 4; 5; 6; 7; 8] ∧ m_position b' = 8) ∧
  @write zero_alloc [1; 2; 3; 4; 5] (@ByteArray_new zero_alloc 4) = Undef NullDeref.
Proof.
  split.
  - destruct (@write_refines zero_alloc (@ByteArray_new zero_alloc 4) [1; 2; 3; 4; 5; 6; 7; 8]) as (b' & H1 & H2).
    + apply ByteArray_new_wf. lia.
    + solve_bytes.
    + vm_compute. reflexivity.
    + exists b'. split; [exact H1|]. split; [apply (bc_data _ _ _ _ H2)|apply (bc_pos _ _ _ _ H2)].
  - refine (@write_refines zero_alloc (@ByteArray_new zero_alloc 4) [1; 2; 3; 4; 5] _ _ _).
    + apply ByteArray_new_wf. lia.
    + solve_bytes.
    + vm_compute. reflexivity.
Defined.

Lemma read_refines_witness :
  read 1 (@ByteArray_new zero_alloc 4) = Raise (@ByteArray_new zero_alloc 4) ExnOutOfRange.
Proof.
  refine (@read_refines (@ByteArray_new zero_alloc 4) 1 _ _); [apply ByteArray_new_wf; lia|lia].
Defined.

Lemma setPosition_refines_witness :
  (∃ b', setPosition 3 (@ByteArray_new zero_alloc 4) = Done b' () ∧ data b' = [0; 0; 0]) ∧
  setPosition 5 (@ByteArray_new zero_alloc 4) = Raise (@ByteArray_new zero_alloc 4) ExnOutOfRange.
Proof.
  split.
  - destruct (setPosition_refines (@ByteArray_new zero_alloc 4) 3) as (b' & H1 & H2); [apply ByteArray_new_wf; lia|lia|].
    exists b'. split; [exact H1|apply (bc_data _ _ _ _ H2)].
  - refine (setPosition_refines (@ByteArray_new zero_alloc 4) 5 _ _); [apply ByteArray_new_wf; lia|lia].
Defined.

Lemma getReadBuffers_refines_witness :
  toString (@ByteArray_new zero_alloc 4) = Done (@ByteArray_new zero_alloc 4) [].
Proof.
  refine (proj2 (getReadBuffers_refines (@ByteArray_new zero_alloc 4) 2 _ _)); [apply ByteArray_new_wf; lia|lia].
Defined.

(** A buffer with two bytes left to read in the second of its blocks. *)
Definition sample : ByteArray :=
  mkByteArray 2 2 4 4 SYLAR_BIG_ENDIAN [mkNode [10; 11] 2; mkNode [12; 13] 2] (Some 1%nat).
Lemma sample_wf : wf sample.
Proof.
  split; cbn; [|lia..|reflexivity]. split; cbn; try lia; [reflexivity| |done].
  repeat constructor; unfold is_byte; lia.
Qed.

Lemma file_roundtrip_witness : ∃ file b', writeToFile sample = Done sample file ∧
  @readFromFile zero_alloc file (@ByteArray_new zero_alloc 8) = Done b' () ∧ data b' = [12; 13].
Proof.
  destruct (@file_roundtrip zero_alloc sample 8) as (file & b' & H1 & H2 & H3);
    [apply sample_wf|lia|cbn; lia|left; reflexivity|cbn; lia|].
  exists file, b'. split; [exact H1|]. split; [exact H2|apply (bc_data _ _ _ _ H3)].
Defined.
