(* ===== verification/ByteArrayCodec.v ===== *)
(** * ByteArrayCodec ([webserve/bytearray.cc], lines 63-337): the typed operations

    Fixed-width integers in the byte order of the buffer, zigzag and base-128
    variable-length integers, floats by their bit patterns and length-prefixed
    strings, over the raw [write] and [read].  A string is its list of bytes. *)
From S2P Require Import Prelude Endian ByteArray ByteArrayFacts ByteArrayProps.
Open Scope Z_scope.

Section codec.
Context `{!Alloc, !Host}.

(** The shared body of the fixed-width writers: the argument is swapped when
    the buffer's order is not the machine's, then its memory image is written. *)
Definition write_fixed (sizeof : nat) (value : Z) : M ByteArray () :=
  e ← gets m_endian;
  let value := if e =? SYLAR_BYTE_ORDER then value else byteswap sizeof value in
  write (int_bytes sizeof value).

Definition writeFint8 (value : Z) : M ByteArray () := write (int_bytes 1 value).
Definition writeFuint8 (value : Z) : M ByteArray () := write (int_bytes 1 value).
Definition writeFint16 (value : Z) : M ByteArray () := write_fixed 2 value.
Definition writeFuint16 (value : Z) : M ByteArray () := write_fixed 2 value.
Definition writeFint32 (value : Z) : M ByteArray () := write_fixed 4 value.
Definition writeFuint32 (value : Z) : M ByteArray () := write_fixed 4 value.
Definition writeFint64 (value : Z) : M ByteArray () := write_fixed 8 value.
Definition writeFuint64 (value : Z) : M ByteArray () := write_fixed 8 value.

(** [EncodeZigzag32/64]; [None] where the signed arithmetic overflows: the negation of
    the least value, and the doubling of a value of a quarter of the range or more. *)
Definition EncodeZigzag32 (v : Z) : option Z :=
  if v <? 0 then if v =? - 2 ^ 31 then None else Some (u32 (u32 (- v) * 2 - 1))
  else if v * 2 >=? 2 ^ 31 then None else Some (u32 (v * 2)).
Definition EncodeZigzag64 (v : Z) : option Z :=
  if v <? 0 then if v =? - 2 ^ 63 then None else Some (u64 (u64 (- v) * 2 - 1))
  else if v * 2 >=? 2 ^ 63 then None else Some (u64 (v * 2)).
Definition DecodeZigzag32 (v : Z) : Z :=
  s32 (Z.lxor (Z.shiftr v 1) (u32 (- Z.land v 1))).
Definition DecodeZigzag64 (v : Z) : Z :=
  s64 (Z.lxor (Z.shiftr v 1) (u64 (- Z.land v 1))).

(** The loop that fills [uint8_t tmp[room]]: seven bits per byte, low ones
    first; [None] when it would store outside the array. *)
Fixpoint varint (room : nat) (value : Z) : option (list Z) :=
  match room with
  | O => None
  | S room =>
      if value >=? 0x80 then
        rest ← varint room (Z.shiftr value 7);
        Some (u8 (Z.lor (Z.land value 0x7F) 0x80) :: rest)
      else Some [u8 value]
  end.
Definition write_varint (room : nat) (value : Z) : M ByteArray () :=
  match varint room value with Some tmp => write tmp | None => undef OutOfBounds end.

Definition writeUint32 (value : Z) : M ByteArray () := write_varint 5 value.
Definition writeInt32 (value : Z) : M ByteArray () :=
  match EncodeZigzag32 value with Some v => writeUint32 v | None => undef Overflow end.
Definition writeUint64 (value : Z) : M ByteArray () := write_varint 10 value.
Definition writeInt64 (value : Z) : M ByteArray () :=
  match EncodeZigzag64 value with Some v => writeUint64 v | None => undef Overflow end.

(** A [float] or [double] is its bit pattern. *)
Definition writeFloat (bits : Z) : M ByteArray () := writeFuint32 bits.
Definition writeDouble (bits : Z) : M ByteArray () := writeFuint64 bits.

(** The length is converted to the parameter type of the integer writer. *)
Definition writeStringF16 (value : list Z) : M ByteArray () :=
  writeFuint16 (u16 (zlen value)) ;; write value.
Definition writeStringF32 (value : list Z) : M ByteArray () :=
  writeFuint32 (u32 (zlen value)) ;; write value.
Definition writeStringF64 (value : list Z) : M ByteArray () :=
  writeFuint64 (zlen value) ;; write value.
Definition writeStringVint (value : list Z) : M ByteArray () :=
  writeUint64 (zlen value) ;; write value.
Definition writeStringWithoutLength (value : list Z) : M ByteArray () := write value.

(** The [XX(type)] macro: [conv] is the conversion to [type]. *)
Definition read_fixed (sizeof : nat) (conv : Z → Z) : M ByteArray Z :=
  d ← read (Z.of_nat sizeof);
  let v := conv (bytes_int d) in
  e ← gets m_endian;
  mret (if e =? SYLAR_BYTE_ORDER then v else conv (byteswap sizeof v)).

Definition readFint8 : M ByteArray Z := d ← read 1; mret (s8 (bytes_int d)).
Definition readFuint8 : M ByteArray Z := d ← read 1; mret (u8 (bytes_int d)).
Definition readFint16 : M ByteArray Z := read_fixed 2 s16.
Definition readFuint16 : M ByteArray Z := read_fixed 2 u16.
Definition readFint32 : M ByteArray Z := read_fixed 4 s32.
Definition readFuint32 : M ByteArray Z := read_fixed 4 u32.
Definition readFint64 : M ByteArray Z := read_fixed 8 s64.
Definition readFuint64 : M ByteArray Z := read_fixed 8 u64.

(** The loop [for(int i = 0; i < bits; i += 7)], [wrap] the type of [result];
    [turns] is what remains of its iterations. *)
Fixpoint read_varint (wrap : Z → Z) (turns : nat) (i result : Z) : M ByteArray Z :=
  match turns with
  | O => mret result
  | S turns =>
      b ← readFuint8;
      if b <? 0x80 then mret (Z.lor result (wrap (Z.shiftl b i)))
      else read_varint wrap turns (i + 7) (Z.lor result (wrap (Z.shiftl (Z.land b 0x7f) i)))
  end.
Definition readUint32 : M ByteArray Z := read_varint u32 5 0 0.
Definition readInt32 : M ByteArray Z := v ← readUint32; mret (DecodeZigzag32 v).
Definition readUint64 : M ByteArray Z := read_varint u64 10 0 0.
Definition readInt64 : M ByteArray Z := v ← readUint64; mret (DecodeZigzag64 v).

Definition readFloat : M ByteArray Z := readFuint32.
Definition readDouble : M ByteArray Z := readFuint64.

Definition readStringF16 : M ByteArray (list Z) := len ← readFuint16; read len.
Definition readStringF32 : M ByteArray (list Z) := len ← readFuint32; read len.
Definition readStringF64 : M ByteArray (list Z) := len ← readFuint64; read len.
Definition readStringVint : M ByteArray (list Z) := len ← readUint64; read len.

(** ** Tables of the typed operations, for the theorems *)
Inductive ftype := Fint8 | Fuint8 | Fint16 | Fuint16 | Fint32 | Fuint32 | Fint64 | Fuint64.
Definition ft_size (t : ftype) : nat :=
  match t with Fint8 | Fuint8 => 1 | Fint16 | Fuint16 => 2 | Fint32 | Fuint32 => 4 | Fint64 | Fuint64 => 8 end.
Definition ft_signed (t : ftype) : bool :=
  match t with Fint8 | Fint16 | Fint32 | Fint64 => true | _ => false end.
(** The values of the C++ type. *)
Definition ft_range (t : ftype) (v : Z) : Prop :=
  let w := 8 * Z.of_nat (ft_size t) in
  if ft_signed t then - 2 ^ (w - 1) ≤ v < 2 ^ (w - 1) else 0 ≤ v < 2 ^ w.
Definition writeF (t : ftype) : Z → M ByteArray () :=
  match t with
  | Fint8 => writeFint8 | Fuint8 => writeFuint8 | Fint16 => writeFint16 | Fuint16 => writeFuint16
  | Fint32 => writeFint32 | Fuint32 => writeFuint32 | Fint64 => writeFint64 | Fuint64 => writeFuint64
  end.
Definition readF (t : ftype) : M ByteArray Z :=
  match t with
  | Fint8 => readFint8 | Fuint8 => readFuint8 | Fint16 => readFint16 | Fuint16 => readFuint16
  | Fint32 => readFint32 | Fuint32 => readFuint32 | Fint64 => readFint64 | Fuint64 => readFuint64
  end.

(** The wire format: the digits in the byte order chosen for the buffer. *)
Definition wire (endian : Z) (n : nat) (z : Z) : list Z :=
  if endian =? SYLAR_LITTLE_ENDIAN then le_bytes n z else reverse (le_bytes n z).
End codec.

(** ** Writers and readers

    [writes W b w b1]: running [W] on [b] succeeds, puts the bytes [w] at the
    position and ends in [b1].  [reads R w v b]: where the bytes [w] lie at the
    position of [b], [R] returns [v] and moves behind them. *)
Definition writes (W : M ByteArray ()) (b : ByteArray) (w : list Z) (b1 : ByteArray) : Prop :=
  W b = Done b1 () ∧ becomes b b1 (put (data b) (m_position b) w) (m_position b + zlen w).
Definition holds_at (b : ByteArray) (w : list Z) : Prop :=
  wf b ∧ slice (m_position b) (zlen w) (data b) = w ∧ m_position b + zlen w ≤ m_size b.
Definition reads {A} (R : M ByteArray A) (b : ByteArray) (w : list Z) (v : A) : Prop :=
  ∃ b', R b = Done b' v ∧ becomes b b' (data b) (m_position b + zlen w) ∧ m_capacity b' = m_capacity b.
(** The buffer's byte order is one of the two constants. *)
Definition endian_ok (b : ByteArray) : Prop :=
  m_endian b = SYLAR_LITTLE_ENDIAN ∨ m_endian b = SYLAR_BIG_ENDIAN.

Lemma slice_put d p w : 0 ≤ p ≤ zlen d → slice p (zlen w) (put d p w) = w.
Proof.
  intros Hp. unfold put, slice. rewrite (zdrop_app_exact p) by (rewrite zlen_ztake; lia).
  by apply ztake_app_exact.
Qed.

Lemma zlen_put d p w : 0 ≤ p ≤ zlen d → p + zlen w ≤ zlen (put d p w).
Proof.
  intros Hp. unfold put. rewrite !zlen_app, zlen_ztake by lia.
  pose proof (zlen_nonneg (zdrop (p + zlen w) d)). lia.
Qed.

Lemma slice_prefix {A} p (w1 w2 : list A) l : 0 ≤ p → slice p (zlen (w1 ++ w2)) l = w1 ++ w2 →
  slice p (zlen w1) l = w1 ∧ slice (p + zlen w1) (zlen w2) l = w2.
Proof.
  intros Hp H. pose proof (zlen_nonneg w1). pose proof (zlen_nonneg w2).
  rewrite zlen_app, slice_split in H by lia. apply app_inj_1 in H; [done|].
  assert (Hl : zlen (slice p (zlen w1) l ++ slice (p + zlen w1) (zlen w2) l) = zlen w1 + zlen w2)
    by (rewrite H; apply zlen_app).
  rewrite zlen_app in Hl. unfold slice, ztake, zlen in *. rewrite !length_take in *. lia.
Qed.

(** Writing, then going back and reading. *)
Lemma write_back {A} (W : M ByteArray ()) (R : M ByteArray A) b w w' b1 v :
  wf b → writes W b w b1 →
  (∀ b2, m_endian b2 = m_endian b → m_capacity b2 = m_capacity b1 → m_position b2 = m_position b →
    holds_at b2 w → reads R b2 w' v) →
  ∃ b2 b3, setPosition (m_position b) b1 = Done b2 () ∧ R b2 = Done b3 v ∧
    becomes b1 b3 (data b1) (m_position b + zlen w').
Proof.
  intros Hwf [Hrun [W1 W2 W3 W4 W5]] HR. pose proof (wf_pos _ Hwf) as Hp. pose proof (zlen_data b Hwf) as Hz.
  pose proof (zlen_put (data b) (m_position b) w ltac:(lia)) as Hl. pose proof (zlen_nonneg w).
  rewrite <-W2, (zlen_data b1 W1) in Hl.
  destruct (setPosition_back b1 (m_position b) W1) as (b2 & Hseek & [S1 S2 S3 S4 S5] & Hcap); [lia|].
  pose proof (zlen_data b2 S1) as Hz2. rewrite S2, (zlen_data b1 W1) in Hz2.
  destruct (HR b2) as (b3 & Hread & [R1 R2 R3 R4 R5] & _); [congruence|done|done| |].
  { split; [done|]. rewrite S2, S3, W2. split; [apply slice_put|]; lia. }
  exists b2, b3. split; [done|]. split; [done|]. split; congruence.
Qed.

Lemma writes_seq (W1 W2 : M ByteArray ()) b w1 w2 b1 b2 : wf b →
  writes W1 b w1 b1 → writes W2 b1 w2 b2 → writes (W1 ;; W2) b (w1 ++ w2) b2.
Proof.
  intros Hwf [Hr1 [P1 P2 P3 P4 P5]] [Hr2 [Q1 Q2 Q3 Q4 Q5]]. pose proof (wf_pos _ Hwf). pose proof (zlen_data b Hwf).
  split; [by erewrite bind_done; [|exact Hr1]|]. split; try congruence.
  - rewrite Q2, P2, P3. apply put_put. lia.
  - rewrite Q3, P3, zlen_app. lia.
Qed.

Lemma reads_seq {A B} (R1 : M ByteArray A) (R2 : A → M ByteArray B) b w1 w2 v1 v2 :
  holds_at b (w1 ++ w2) → reads R1 b w1 v1 →
  (∀ b', m_endian b' = m_endian b → m_capacity b' = m_capacity b → m_position b' = m_position b + zlen w1 →
     holds_at b' w2 → reads (R2 v1) b' w2 v2) →
  reads (R1 ≫= R2) b (w1 ++ w2) v2.
Proof.
  intros (Hwf & Hsl & Hle) (b1 & Hr1 & [P1 P2 P3 P4 P5] & Hc1) H2.
  pose proof (wf_pos _ Hwf). pose proof (zlen_data b Hwf) as Hz. pose proof (zlen_data b1 P1) as Hz1. rewrite P2 in Hz1.
  destruct (slice_prefix (m_position b) w1 w2 (data b)) as [Hs1 Hs2]; [lia|done|].
  unfold reads. rewrite zlen_app in Hle |- *.
  destruct (H2 b1 P5 Hc1 P3) as (b2 & Hr2 & [Q1 Q2 Q3 Q4 Q5] & Hc2).
  { split; [done|]. rewrite P3, P2. split; [done|lia]. }
  exists b2. split; [by erewrite bind_done; [|exact Hr1]|]. split; [split; try congruence; lia|congruence].
Qed.

Section codec_facts.
Context `{!Alloc, !Host}.

Lemma writes_write b buf : wf b → Forall is_byte buf → room_ok b (zlen buf) = true →
  m_position b + zlen buf + m_baseSize b < 2 ^ 63 → ∃ b1, writes (write buf) b buf b1.
Proof. intros. destruct (write_ok b buf) as (b1 & ? & ? & _); [done..|by exists b1]. Qed.

Lemma reads_read b w : holds_at b w → (w ≠ [] ∨ m_position b < m_capacity b) → reads (read (zlen w)) b w w.
Proof.
  intros (Hwf & Hsl & Hle) Hne. pose proof (zlen_nonneg w).
  destruct (read_becomes b (zlen w) Hwf) as (b' & Hr & Hbc & Hc); [lia| |lia|].
  - destruct Hne as [Hne|]; [|by right]. left. destruct w; [done|]. rewrite zlen_cons. pose proof (zlen_nonneg w). lia.
  - rewrite Hsl in Hr. by exists b'.
Qed.

Lemma read_step {A} (k : list Z → M ByteArray A) b w v : holds_at b w → w ≠ [] →
  (∀ b', m_endian b' = m_endian b → k w b' = Done b' v) → reads (read (zlen w) ≫= k) b w v.
Proof.
  intros Hh Hne Hk. destruct (reads_read b w Hh) as (b' & Hr & Hbc & Hc); [by left|].
  exists b'. split; [|done]. erewrite bind_done; [|exact Hr]. apply Hk. by destruct Hbc.
Qed.

(** *** Fixed-width integers *)
Lemma zlen_wire e n z : zlen (wire e n z) = Z.of_nat n.
Proof. unfold wire, zlen. case_bool; by rewrite ?length_reverse, length_le_bytes. Qed.
Lemma wire_byte e n z : Forall is_byte (wire e n z).
Proof. unfold wire. case_bool; [apply le_bytes_byte|apply reverse_le_bytes_byte]. Qed.

Lemma write_fixed_wire n v b : endian_ok b → write_fixed n v b = write (wire (m_endian b) n v) b.
Proof.
  intros He. unfold write_fixed, gets. erewrite bind_done; [|done]. f_equal.
  unfold wire, int_bytes, byteswap.
  destruct He as [-> | ->], host_order as [-> | ->]; cbn [Z.eqb Pos.eqb SYLAR_LITTLE_ENDIAN SYLAR_BIG_ENDIAN]; rewrite ?le_bytes_bswap, ?reverse_involutive; done.
Qed.

Lemma bytes_int_wire e n z : e = SYLAR_LITTLE_ENDIAN ∨ e = SYLAR_BIG_ENDIAN →
  bytes_int (wire e n z) = if e =? SYLAR_BYTE_ORDER then z mod 2 ^ (8 * Z.of_nat n) else bswap n z.
Proof.
  intros He. unfold bytes_int, wire, bswap.
  destruct He as [-> | ->], host_order as [-> | ->]; cbn [Z.eqb Pos.eqb SYLAR_LITTLE_ENDIAN SYLAR_BIG_ENDIAN]; by rewrite ?reverse_involutive, ?le_value_bytes.
Qed.

(** A conversion to an n-byte type only looks at the value modulo its width. *)
Definition conv_ok (n : nat) (conv : Z → Z) : Prop :=
  (∀ z, conv (z mod 2 ^ (8 * Z.of_nat n)) = conv z) ∧
  (∀ z, conv z mod 2 ^ (8 * Z.of_nat n) = z mod 2 ^ (8 * Z.of_nat n)).

Lemma conv_ok_unsigned n : conv_ok n (λ z, z mod 2 ^ (8 * Z.of_nat n)).
Proof. split; intros z; apply Z.mod_mod; apply Z.pow_nonzero; lia. Qed.
Lemma conv_ok_signed n h : 0 < 2 ^ (8 * Z.of_nat n) →
  conv_ok n (λ z, (z + h) mod 2 ^ (8 * Z.of_nat n) - h).
Proof.
  intros Hm. split; intros z.
  - f_equal. by rewrite Zplus_mod_idemp_l.
  - rewrite Zminus_mod_idemp_l. f_equal. lia.
Qed.

Lemma reads_fixed n conv b v : (0 < n)%nat → conv_ok n conv → conv v = v → endian_ok b →
  holds_at b (wire (m_endian b) n v) → reads (read_fixed n conv) b (wire (m_endian b) n v) v.
Proof.
  intros Hn [Hc1 Hc2] Hv He Hh. unfold read_fixed. rewrite <-(zlen_wire (m_endian b) n v).
  apply read_step; [done| |].
  - intros Hnil. pose proof (zlen_wire (m_endian b) n v) as Hl. rewrite Hnil, zlen_nil in Hl. lia.
  - intros b' Heq. erewrite bind_done; [|done]. rewrite Heq, (bytes_int_wire _ _ _ He). unfold mret, M_ret. f_equal.
    destruct (m_endian b =? SYLAR_BYTE_ORDER); [by rewrite Hc1|].
    unfold byteswap. rewrite <-(bswap_mod n (conv _)), Hc2, bswap_mod, bswap_involutive. by rewrite Hc1.
Qed.

Definition ft_conv (t : ftype) : Z → Z :=
  match t with
  | Fint8 => s8 | Fuint8 => u8 | Fint16 => s16 | Fuint16 => u16
  | Fint32 => s32 | Fuint32 => u32 | Fint64 => s64 | Fuint64 => u64
  end.
Lemma ft_conv_ok t : conv_ok (ft_size t) (ft_conv t).
Proof.
  destruct t; first [exact (conv_ok_signed 1 (2 ^ 7) eq_refl) | exact (conv_ok_unsigned 1)
    | exact (conv_ok_signed 2 (2 ^ 15) eq_refl) | exact (conv_ok_unsigned 2)
    | exact (conv_ok_signed 4 (2 ^ 31) eq_refl) | exact (conv_ok_unsigned 4)
    | exact (conv_ok_signed 8 (2 ^ 63) eq_refl) | exact (conv_ok_unsigned 8)].
Qed.
Lemma ft_conv_id t v : ft_range t v → ft_conv t v = v.
Proof.
  destruct t; unfold ft_range; cbn -[Z.pow]; intros Hr;
    [unfold s8|apply u8_small|unfold s16|apply u16_small|apply s32_small|apply u32_small|apply s64_small|apply u64_small];
    try (rewrite Z.mod_small); lia.
Qed.

(** One byte: no swap, whatever the order. *)
Lemma le_bytes_1 v : le_bytes 1 v = [v mod 2 ^ 8].
Proof. done. Qed.
Lemma wire_1 e v : wire e 1 v = [v mod 2 ^ 8].
Proof. unfold wire. by case_bool. Qed.
Lemma int_bytes_1 v : int_bytes 1 v = [v mod 2 ^ 8].
Proof. unfold int_bytes. by case_bool. Qed.
Lemma bytes_int_1 x : bytes_int [x] = x.
Proof. unfold bytes_int. case_bool; cbn; lia. Qed.

Lemma writeF_wire t v b : endian_ok b → writeF t v b = write (wire (m_endian b) (ft_size t) v) b.
Proof.
  intros He. destruct t; cbn [writeF ft_size];
    try (apply write_fixed_wire; done); unfold writeFint8, writeFuint8; by rewrite int_bytes_1, wire_1.
Qed.

Lemma readF_wire t b v : ft_range t v → endian_ok b → holds_at b (wire (m_endian b) (ft_size t) v) →
  reads (readF t) b (wire (m_endian b) (ft_size t) v) v.
Proof.
  intros Hr He Hh. destruct (decide (ft_size t = 1%nat)) as [H1|H1].
  - rewrite H1, wire_1 in *. assert (Hrun : ∀ conv, conv_ok 1 conv → conv v = v →
      reads (d ← read 1; mret (conv (bytes_int d))) b [v mod 2 ^ 8] v).
    { intros conv [Hc _] Hv. apply (read_step _ b [v mod 2 ^ 8]); [done..|]. intros b' _.
      rewrite bytes_int_1. unfold mret, M_ret. f_equal. rewrite <-Hv at 2. exact (Hc v). }
    pose proof (ft_conv_ok t) as Hc. rewrite H1 in Hc. specialize (Hrun _ Hc (ft_conv_id _ _ Hr)). by destruct t.
  - pose proof (reads_fixed (ft_size t) (ft_conv t) b v) as Hf.
    destruct t; try done; apply Hf; (done || apply ft_conv_ok || (by apply ft_conv_id) || (cbn; lia)).
Qed.

(** *** Variable-length integers *)
Lemma lor_shiftl_add r x i : 0 ≤ i → 0 ≤ r < 2 ^ i → Z.lor r (Z.shiftl x i) = r + x * 2 ^ i.
Proof.
  intros Hi Hr. rewrite <-Z.shiftl_mul_pow2 by done.
  assert (Hd : Z.land r (Z.shiftl x i) = 0).
  { apply Z.bits_inj'. intros n Hn. rewrite Z.land_spec, Z.bits_0, Z.shiftl_spec by done.
    destruct (decide (n < i)); [by rewrite (Z.testbit_neg_r x (n - i)), andb_false_r by lia|].
    rewrite <-(Z.mod_small r (2 ^ i)), Z.mod_pow2_bits_high by lia. done. }
  rewrite <-Z.lxor_lor by done. symmetry. by apply Z.add_nocarry_lxor.
Qed.

Lemma land_7f v : Z.land v 0x7F = v mod 2 ^ 7.
Proof. exact (Z.land_ones v 7 ltac:(lia)). Qed.

Lemma varint_S room value : varint (S room) value =
  if value >=? 0x80 then rest ← varint room (value / 2 ^ 7); Some (value mod 2 ^ 7 + 2 ^ 7 :: rest)
  else Some [u8 value].
Proof.
  cbn [varint]. rewrite Z.shiftr_div_pow2 by lia. rewrite land_7f.
  pose proof (Z.mod_pos_bound value (2 ^ 7) ltac:(lia)).
  change 0x80 with (Z.shiftl 1 7) at 2. rewrite lor_shiftl_add by lia.
  rewrite (u8_small (value mod 2 ^ 7 + 1 * 2 ^ 7)) by lia. done.
Qed.

(** The encoder never leaves its array, and uses one byte per seven bits. *)
Lemma varint_ok room : ∀ value, (0 < room)%nat → 0 ≤ value < 2 ^ (7 * Z.of_nat room) →
  ∃ w, varint room value = Some w ∧ Forall is_byte w ∧ zlen w = Z.log2 value / 7 + 1.
Proof.
  induction room as [|room IH]; intros value Hr Hv; [lia|]. rewrite varint_S.
  destruct (value >=? 0x80) eqn:Hge.
  - assert (Hlt : 0 ≤ value / 2 ^ 7 < 2 ^ (7 * Z.of_nat room)).
    { split; [apply Z.div_pos; lia|]. apply Z.div_lt_upper_bound; [lia|].
      rewrite <-Z.pow_add_r by lia. replace (7 + 7 * Z.of_nat room) with (7 * Z.of_nat (S room)) by lia. apply Hv. }
    assert (0 < value / 2 ^ 7) by (apply Z.div_str_pos; lia).
    assert (0 < room)%nat by (destruct room; [cbn in Hlt; lia|lia]).
    destruct (IH (value / 2 ^ 7)) as (w & -> & Hw & Hl); [done..|].
    exists (value mod 2 ^ 7 + 2 ^ 7 :: w). split; [done|]. split.
    + constructor; [|done]. pose proof (Z.mod_pos_bound value (2 ^ 7) ltac:(lia)). unfold is_byte. lia.
    + rewrite zlen_cons, Hl. rewrite <-Z.shiftr_div_pow2, Z.log2_shiftr by lia.
      assert (7 ≤ Z.log2 value) by (apply Z.log2_le_pow2; lia). rewrite Z.max_r by lia.
      replace (Z.log2 value - 7) with (Z.log2 value + (-1) * 7) by lia. rewrite Z.div_add by lia. lia.
  - exists [u8 value]. split; [done|]. split; [constructor; [|done]; apply u8_range|].
    rewrite zlen_cons, zlen_nil, Z.div_small; [lia|]. split; [apply Z.log2_nonneg|].
    destruct (decide (value = 0)) as [->|]; [cbn; lia|]. apply Z.log2_lt_pow2; lia.
Qed.

Lemma reads_uint8 {A} (k : Z → M ByteArray A) b x w v : is_byte x → holds_at b (x :: w) →
  (∀ b', m_endian b' = m_endian b → m_capacity b' = m_capacity b → holds_at b' w → reads (k x) b' w v) →
  reads (readFuint8 ≫= k) b (x :: w) v.
Proof.
  intros Hx Hh Hk. change (x :: w) with ([x] ++ w). apply (reads_seq _ _ _ _ _ x); [done| |].
  - apply (read_step _ b [x]); [|done|].
    + destruct Hh as (H1 & H2 & H3). pose proof (wf_pos _ H1). rewrite zlen_cons in H3.
      pose proof (zlen_nonneg w). split; [done|].
      destruct (slice_prefix (m_position b) [x] w (data b)) as [? _]; [lia|done|]. split; [done|].
      rewrite zlen_cons, zlen_nil. lia.
    + intros b' _. rewrite bytes_int_1, u8_small by done. done.
  - intros b' H1 H2 _ H3. by apply Hk.
Qed.

(** What the read loop computes on the bytes of an encoding. *)
Lemma read_varint_ok wd room : ∀ turns value w i result b,
  varint room value = Some w → (room ≤ turns)%nat → 0 ≤ value → 0 ≤ i → 0 ≤ result < 2 ^ i →
  value * 2 ^ i < 2 ^ wd → 0 ≤ wd → holds_at b w →
  reads (read_varint (λ z, z mod 2 ^ wd) turns i result) b w (result + value * 2 ^ i).
Proof.
  induction room as [|room IH]; intros turns value w i result b Hw Ht Hv Hi Hres Hwd Hwd0 Hh; [done|].
  destruct turns as [|turns]; [lia|]. rewrite varint_S in Hw. cbn [read_varint].
  assert (0 < 2 ^ i) by (apply Z.pow_pos_nonneg; lia).
  destruct (value >=? 0x80) eqn:Hge.
  - destruct (varint room (value / 2 ^ 7)) as [w'|] eqn:Hw'; [|done]. injection Hw as <-.
    pose proof (Z.mod_pos_bound value (2 ^ 7) ltac:(lia)) as Hm. pose proof (Z.div_mod value (2 ^ 7) ltac:(lia)) as Hdm.
    assert (0 ≤ value / 2 ^ 7) by (apply Z.div_pos; lia).
    assert (Hp7 : 2 ^ (i + 7) = 2 ^ 7 * 2 ^ i) by (rewrite Z.pow_add_r; lia).
    assert (Hx : value mod 2 ^ 7 * 2 ^ i ≤ value * 2 ^ i) by (apply Z.mul_le_mono_nonneg_r; lia).
    assert (Hx0 : 0 ≤ value mod 2 ^ 7 * 2 ^ i) by (apply Z.mul_nonneg_nonneg; lia).
    assert (Hland : Z.land (value mod 2 ^ 7 + 2 ^ 7) 0x7f = value mod 2 ^ 7)
      by (rewrite land_7f, <-Zplus_mod_idemp_r, Z_mod_same_full, Z.add_0_r; apply Z.mod_small; lia).
    apply reads_uint8; [unfold is_byte; lia|done|]. intros b' _ _ Hh'. if_false. rewrite Hland.
    rewrite Z.shiftl_mul_pow2, Z.mod_small by lia. rewrite <-Z.shiftl_mul_pow2, lor_shiftl_add by lia.
    replace (result + value * 2 ^ i) with (result + value mod 2 ^ 7 * 2 ^ i + value / 2 ^ 7 * 2 ^ (i + 7))
      by (rewrite Hp7; rewrite Hdm at 3; ring).
    assert (value mod 2 ^ 7 * 2 ^ i ≤ (2 ^ 7 - 1) * 2 ^ i) by (apply Z.mul_le_mono_nonneg_r; lia).
    apply IH; [done|lia..| |done|done].
    rewrite Hp7, Z.mul_assoc. assert (value / 2 ^ 7 * 2 ^ 7 * 2 ^ i ≤ value * 2 ^ i); [|lia].
    apply Z.mul_le_mono_nonneg_r; lia.
  - injection Hw as <-. rewrite u8_small in Hh |- * by lia. apply reads_uint8; [unfold is_byte; lia|exact Hh|].
    intros b' _ _ (Hwf & _). if_true.
    assert (Hsh : Z.shiftl value i mod 2 ^ wd = Z.shiftl value i)
      by (rewrite Z.shiftl_mul_pow2 by lia; apply Z.mod_small; lia).
    rewrite Hsh, lor_shiftl_add by lia. exists b'. split; [done|]. split; [|done].
    split; try done. rewrite zlen_nil. lia.
Qed.

(** *** Zigzag *)
Lemma lxor_ones k w : 0 ≤ w → 0 ≤ k < 2 ^ w → Z.lxor k (2 ^ w - 1) = 2 ^ w - 1 - k.
Proof.
  intros Hw Hk. replace (2 ^ w - 1) with (Z.ones w) by (rewrite Z.ones_equiv; lia).
  assert (Hh : ∀ n, w ≤ n → Z.testbit k n = false).
  { intros n Hn. rewrite <-(Z.mod_small k (2 ^ w)), Z.mod_pow2_bits_high by lia. done. }
  assert (Hd : Z.ldiff k (Z.ones w) = 0).
  { apply Z.bits_inj'. intros n Hn. rewrite Z.ldiff_spec, Z.bits_0.
    destruct (decide (n < w)); [rewrite Z.ones_spec_low by lia; by rewrite andb_false_r|].
    by rewrite Hh by lia. }
  rewrite Z.sub_nocarry_ldiff by done. apply Z.bits_inj'. intros n Hn. rewrite Z.lxor_spec, Z.ldiff_spec.
  destruct (decide (n < w)); [rewrite Z.ones_spec_low by lia; by destruct (Z.testbit k n)|].
  rewrite Z.ones_spec_high, Hh by lia. done.
Qed.

Lemma zigzag_parts k w (odd : bool) : 0 < w → 0 ≤ k < 2 ^ w →
  let v := 2 * k + (if odd then 1 else 0) in
  Z.lxor (Z.shiftr v 1) ((- Z.land v 1) mod 2 ^ w) = if odd then 2 ^ w - 1 - k else k.
Proof.
  intros Hw Hk v. assert (Hp : 1 < 2 ^ w) by (apply Z.pow_gt_1; lia).
  assert (Hs : Z.shiftr v 1 = k).
  { rewrite Z.shiftr_div_pow2 by lia. change (2 ^ 1) with 2. unfold v. rewrite Z.mul_comm, Z.div_add_l by lia.
    destruct odd; [change (1 / 2) with 0|change (0 / 2) with 0]; lia. }
  assert (Hl : Z.land v 1 = if odd then 1 else 0).
  { rewrite (Z.land_ones v 1 ltac:(lia) : Z.land v 1 = v mod 2 ^ 1). change (2 ^ 1) with 2. unfold v.
    rewrite Z.add_comm, Z.mul_comm, Z.mod_add by lia. by destruct odd. }
  rewrite Hs, Hl. destruct odd.
  - replace ((- (1)) mod 2 ^ w) with (2 ^ w - 1); [by apply lxor_ones; lia|].
    rewrite <-(Z.mod_add (- (1)) 1) by lia. rewrite Z.mod_small; lia.
  - by rewrite Z.lxor_0_r.
Qed.

Lemma EncodeZigzag32_eq v : - 2 ^ 31 < v < 2 ^ 30 → EncodeZigzag32 v = Some (if v <? 0 then 2 * (- v - 1) + 1 else 2 * v).
Proof.
  intros Hv. unfold EncodeZigzag32. destruct (v <? 0) eqn:Hn.
  - replace (v =? - 2 ^ 31) with false by lia. rewrite (u32_small (- v)), u32_small by lia. f_equal. lia.
  - replace (v * 2 >=? 2 ^ 31) with false by lia. rewrite u32_small by lia. f_equal. lia.
Qed.
Lemma EncodeZigzag64_eq v : - 2 ^ 63 < v < 2 ^ 62 → EncodeZigzag64 v = Some (if v <? 0 then 2 * (- v - 1) + 1 else 2 * v).
Proof.
  intros Hv. unfold EncodeZigzag64. destruct (v <? 0) eqn:Hn.
  - replace (v =? - 2 ^ 63) with false by lia. rewrite (u64_small (- v)), u64_small by lia. f_equal. lia.
  - replace (v * 2 >=? 2 ^ 63) with false by lia. rewrite u64_small by lia. f_equal. lia.
Qed.

(** The decodings know every code, those the encoders never produce included. *)
Lemma zigzag32_inv v : - 2 ^ 31 ≤ v < 2 ^ 31 → DecodeZigzag32 (if v <? 0 then 2 * (- v - 1) + 1 else 2 * v) = v.
Proof.
  intros Hv. unfold DecodeZigzag32, u32. destruct (v <? 0) eqn:Hn.
  - rewrite (zigzag_parts (- v - 1) 32 true) by lia. unfold s32.
    replace (2 ^ 32 - 1 - (- v - 1) + 2 ^ 31) with (v + 2 ^ 31 + 1 * 2 ^ 32) by lia.
    rewrite Z.mod_add, Z.mod_small; lia.
  - rewrite <-(Z.add_0_r (2 * v)), (zigzag_parts v 32 false) by lia. apply s32_small. lia.
Qed.
Lemma zigzag64_inv v : - 2 ^ 63 ≤ v < 2 ^ 63 → DecodeZigzag64 (if v <? 0 then 2 * (- v - 1) + 1 else 2 * v) = v.
Proof.
  intros Hv. unfold DecodeZigzag64, u64. destruct (v <? 0) eqn:Hn.
  - rewrite (zigzag_parts (- v - 1) 64 true) by lia. unfold s64.
    replace (2 ^ 64 - 1 - (- v - 1) + 2 ^ 63) with (v + 2 ^ 63 + 1 * 2 ^ 64) by lia.
    rewrite Z.mod_add, Z.mod_small; lia.
  - rewrite <-(Z.add_0_r (2 * v)), (zigzag_parts v 64 false) by lia. apply s64_small. lia.
Qed.
End codec_facts.

(** ** Strings *)
Inductive vtype := Int32 | Uint32 | Int64 | Uint64.
Inductive stype := F16 | F32 | F64 | Vint.

Section tables.
Context `{!Alloc, !Host}.

Definition vt_range (t : vtype) (v : Z) : Prop :=
  match t with
  | Int32 => - 2 ^ 31 ≤ v < 2 ^ 31 | Uint32 => 0 ≤ v < 2 ^ 32
  | Int64 => - 2 ^ 63 ≤ v < 2 ^ 63 | Uint64 => 0 ≤ v < 2 ^ 64
  end.
(** The values whose zigzag code is computed without overflow. *)
Definition vt_coded (t : vtype) (v : Z) : bool :=
  match t with Int32 => (- 2 ^ 31 <? v) && (v <? 2 ^ 30) | Int64 => (- 2 ^ 63 <? v) && (v <? 2 ^ 62) | _ => true end.
Definition writeV (t : vtype) : Z → M ByteArray () :=
  match t with Int32 => writeInt32 | Uint32 => writeUint32 | Int64 => writeInt64 | Uint64 => writeUint64 end.
Definition readV (t : vtype) : M ByteArray Z :=
  match t with Int32 => readInt32 | Uint32 => readUint32 | Int64 => readInt64 | Uint64 => readUint64 end.
(** The unsigned value that is encoded. *)
Definition vt_code (t : vtype) (v : Z) : Z :=
  match t with Int32 | Int64 => if v <? 0 then 2 * (- v - 1) + 1 else 2 * v | _ => v end.
Definition varint_size (v : Z) : Z := Z.log2 v / 7 + 1.

Definition writeString (t : stype) : list Z → M ByteArray () :=
  match t with F16 => writeStringF16 | F32 => writeStringF32 | F64 => writeStringF64 | Vint => writeStringVint end.
Definition readString (t : stype) : M ByteArray (list Z) :=
  match t with F16 => readStringF16 | F32 => readStringF32 | F64 => readStringF64 | Vint => readStringVint end.
Definition st_prefix (t : stype) : Z → M ByteArray () :=
  match t with F16 => λ n, writeFuint16 (u16 n) | F32 => λ n, writeFuint32 (u32 n) | F64 => writeFuint64 | Vint => writeUint64 end.
Definition st_length (t : stype) (n : Z) : Z :=
  match t with F16 => u16 n | F32 => u32 n | F64 | Vint => n end.
Definition st_prefix_size (t : stype) (n : Z) : Z :=
  match t with F16 => 2 | F32 => 4 | F64 => 8 | Vint => varint_size n end.
End tables.

Section string_facts.
Context `{!Alloc, !Host}.

Lemma writes_fixed t v b : wf b → endian_ok b → room_ok b (Z.of_nat (ft_size t)) = true →
  m_position b + Z.of_nat (ft_size t) + m_baseSize b < 2 ^ 63 →
  ∃ b1, writes (writeF t v) b (wire (m_endian b) (ft_size t) v) b1.
Proof.
  intros Hwf He Hroom Hbd. destruct (writes_write b (wire (m_endian b) (ft_size t) v)) as (b1 & Hr & Hbc);
    [done|apply wire_byte|by rewrite zlen_wire|rewrite zlen_wire; lia|].
  exists b1. split; [|done]. by rewrite writeF_wire.
Qed.

(** The varint writer of array size [room] and the reader of width [wd]. *)
Lemma writes_varint room v b : wf b → (0 < room)%nat → 0 ≤ v < 2 ^ (7 * Z.of_nat room) →
  room_ok b (varint_size v) = true → m_position b + varint_size v + m_baseSize b < 2 ^ 63 →
  ∃ w b1, varint room v = Some w ∧ zlen w = varint_size v ∧ writes (write_varint room v) b w b1.
Proof.
  intros Hwf Hr Hv Hroom Hbd. destruct (varint_ok room v Hr Hv) as (w & Hw & Hby & Hl).
  destruct (writes_write b w) as (b1 & Hwr); [done|done|by rewrite Hl|rewrite Hl; exact Hbd|].
  exists w, b1. split; [done|]. split; [done|]. unfold writes, write_varint. by rewrite Hw.
Qed.

Lemma reads_varint room wd v w b : varint room v = Some w → 0 ≤ wd → 0 ≤ v < 2 ^ wd → holds_at b w →
  reads (read_varint (λ z, z mod 2 ^ wd) room 0 0) b w v.
Proof.
  intros Hw Hwd Hv Hh. pose proof (read_varint_ok wd room room v w 0 0 b Hw) as H'.
  rewrite Z.pow_0_r, Z.mul_1_r, Z.add_0_l in H'. apply H'; (done || lia).
Qed.

Lemma writeV_ok t v b : wf b → vt_range t v → vt_coded t v = true → room_ok b (varint_size (vt_code t v)) = true →
  m_position b + varint_size (vt_code t v) + m_baseSize b < 2 ^ 63 →
  ∃ w b1, zlen w = varint_size (vt_code t v) ∧ writes (writeV t v) b w b1 ∧
    (∀ b2, holds_at b2 w → reads (readV t) b2 w v).
Proof.
  intros Hwf Hv Hcod Hroom Hbd.
  assert (Hmap : ∀ (f : Z → Z) R (w : list Z) c b2, reads R b2 w c → reads (x ← R; mret (f x)) b2 w (f c)).
  { intros f R w c b2 (b3 & Hrun & Hbc). exists b3. split; [|done]. by erewrite bind_done; [|exact Hrun]. }
  destruct t; cbn [vt_range vt_code vt_coded writeV readV] in *;
    [ destruct (writes_varint 5 (if v <? 0 then 2 * (- v - 1) + 1 else 2 * v) b) as (w & b1 & Hw & Hl & Hwr)
    | destruct (writes_varint 5 v b) as (w & b1 & Hw & Hl & Hwr)
    | destruct (writes_varint 10 (if v <? 0 then 2 * (- v - 1) + 1 else 2 * v) b) as (w & b1 & Hw & Hl & Hwr)
    | destruct (writes_varint 10 v b) as (w & b1 & Hw & Hl & Hwr) ];
    try (done || lia || (change (7 * Z.of_nat 5) with 35; change (7 * Z.of_nat 10) with 70; case_bool; lia)
         || (change (7 * Z.of_nat 5) with 35; change (7 * Z.of_nat 10) with 70; lia));
    exists w, b1; (split; [done|]).
  - unfold writeInt32. rewrite EncodeZigzag32_eq by lia. split; [done|]. intros b2 Hh.
    rewrite <-(zigzag32_inv v) by done. apply Hmap.
    apply (reads_varint 5 32); [done|lia|case_bool; lia|done].
  - split; [done|]. intros b2 Hh. by apply (reads_varint 5 32).
  - unfold writeInt64. rewrite EncodeZigzag64_eq by lia. split; [done|]. intros b2 Hh.
    rewrite <-(zigzag64_inv v) by done. apply Hmap.
    apply (reads_varint 10 64); [done|lia|case_bool; lia|done].
  - split; [done|]. intros b2 Hh. by apply (reads_varint 10 64).
Qed.

(** The length prefix: what is written, and what a reader finds. *)
Lemma st_prefix_ok t n b : wf b → endian_ok b → 0 ≤ n < 2 ^ 63 → room_ok b (st_prefix_size t n) = true →
  m_position b + st_prefix_size t n + m_baseSize b < 2 ^ 63 →
  ∃ w b1 (HR : M ByteArray Z), zlen w = st_prefix_size t n ∧ writes (st_prefix t n) b w b1 ∧
    readString t = (HR ≫= read) ∧
    (∀ b2, m_endian b2 = m_endian b → holds_at b2 w → reads HR b2 w (st_length t n)).
Proof.
  intros Hwf He Hn Hroom Hbd. pose proof (u16_small (u16 n)). pose proof (u32_small (u32 n)).
  assert (Hfix : ∀ ft v, ft_range ft v → room_ok b (Z.of_nat (ft_size ft)) = true →
    m_position b + Z.of_nat (ft_size ft) + m_baseSize b < 2 ^ 63 →
    ∃ w b1, zlen w = Z.of_nat (ft_size ft) ∧ writes (writeF ft v) b w b1 ∧
      (∀ b2, m_endian b2 = m_endian b → holds_at b2 w → reads (readF ft) b2 w v)).
  { intros ft v Hv Hr Hb. destruct (writes_fixed ft v b) as (b1 & Hw); [done..|].
    exists (wire (m_endian b) (ft_size ft) v), b1. split; [apply zlen_wire|]. split; [done|].
    intros b2 He2 Hh. rewrite <-He2 in *. apply readF_wire; [done| |done]. unfold endian_ok in *. by rewrite He2. }
  destruct t; cbn [st_prefix st_prefix_size st_length readString] in *.
  - destruct (Hfix Fuint16 (u16 n)) as (w & b1 & ? & ? & ?); [apply Z.mod_pos_bound; lia|done|done|].
    by exists w, b1, readFuint16.
  - destruct (Hfix Fuint32 (u32 n)) as (w & b1 & ? & ? & ?); [apply Z.mod_pos_bound; lia|done|done|].
    by exists w, b1, readFuint32.
  - destruct (Hfix Fuint64 n) as (w & b1 & ? & ? & ?); [unfold ft_range; cbn -[Z.pow]; lia|done|done|].
    by exists w, b1, readFuint64.
  - destruct (writeV_ok Uint64 n b) as (w & b1 & ? & ? & Hrd); [done|cbn; lia|done..|].
    exists w, b1, readUint64. split; [done|]. split; [done|]. split; [done|]. intros b2 _ Hh. by apply Hrd.
Qed.

Lemma writeString_eq t s : writeString t s = (st_prefix t (zlen s) ;; write s).
Proof. by destruct t. Qed.

Lemma holds_prefix b (w1 w2 : list Z) : holds_at b (w1 ++ w2) → holds_at b w1.
Proof.
  intros (Hwf & Hs & Hl). pose proof (wf_pos _ Hwf). destruct (slice_prefix (m_position b) w1 w2 (data b)); [lia|done|].
  rewrite zlen_app in Hl. pose proof (zlen_nonneg w2). split; [done|]. split; [done|lia].
Qed.
End string_facts.

(** ** The properties of the typed operations *)
Section properties.
Context `{!Alloc, !Host}.

(** On every host and for either byte order of the buffer, each of the
    eight fixed-width writers lays the value down in that byte order (so the
    bytes do not depend on the host) and the matching reader, started where
    the writer was, returns the value and ends where the writer ended. *)
Theorem fixed_roundtrip t v b : wf b → endian_ok b → ft_range t v →
  room_ok b (Z.of_nat (ft_size t)) = true → m_position b + Z.of_nat (ft_size t) + m_baseSize b < 2 ^ 63 →
  ∃ b1 b2 b3, writeF t v b = Done b1 () ∧
    becomes b b1 (put (data b) (m_position b) (wire (m_endian b) (ft_size t) v)) (m_position b + Z.of_nat (ft_size t)) ∧
    setPosition (m_position b) b1 = Done b2 () ∧
    readF t b2 = Done b3 v ∧ becomes b1 b3 (data b1) (m_position b1).
Proof.
  intros Hwf He Hv Hroom Hbd. destruct (writes_fixed t v b) as (b1 & Hw); [done..|].
  destruct (write_back (writeF t v) (readF t) b (wire (m_endian b) (ft_size t) v) (wire (m_endian b) (ft_size t) v) b1 v)
    as (b2 & b3 & Hs & Hr & Hbc); [done|done| |].
  { intros b2 He2 _ _ Hh. rewrite <-He2 in *. apply readF_wire; [done| |done]. unfold endian_ok in *. by rewrite He2. }
  destruct Hw as [Hw1 Hw2]. rewrite zlen_wire in Hw2, Hbc. exists b1, b2, b3. rewrite (bc_pos _ _ _ _ Hw2). done.
Qed.

Lemma writeV_overflow t v b : vt_range t v → vt_coded t v = false → writeV t v b = Undef Overflow.
Proof.
  intros Hv Hc. destruct t; try done; cbn [vt_range vt_coded writeV] in *; unfold writeInt32, writeInt64, EncodeZigzag32, EncodeZigzag64.
  - destruct (v <? 0) eqn:Hn; [by replace (v =? - 2 ^ 31) with true by lia|by replace (v * 2 >=? 2 ^ 31) with true by lia].
  - destruct (v <? 0) eqn:Hn; [by replace (v =? - 2 ^ 63) with true by lia|by replace (v * 2 >=? 2 ^ 63) with true by lia].
Qed.
(** C35: the variable-length writers never overrun their 5- or 10-byte array,
    use one byte per started group of seven bits of the (zigzag) code, and
    the matching readers return exactly the value written, for every value of
    the unsigned types and every signed value whose zigzag code can be computed.
    The others - the least value, and those from 2^30 (2^62) on - overflow the
    signed arithmetic of [EncodeZigzag32] and [EncodeZigzag64]. *)
Theorem varint_roundtrip t v b : wf b → vt_range t v →
  room_ok b (varint_size (vt_code t v)) = true → m_position b + varint_size (vt_code t v) + m_baseSize b < 2 ^ 63 →
  if vt_coded t v then
    ∃ b1 b2 b3, writeV t v b = Done b1 () ∧ wf b1 ∧ m_position b1 = m_position b + varint_size (vt_code t v) ∧
      setPosition (m_position b) b1 = Done b2 () ∧
      readV t b2 = Done b3 v ∧ becomes b1 b3 (data b1) (m_position b1)
  else writeV t v b = Undef Overflow.
Proof.
  intros Hwf Hv Hroom Hbd. destruct (vt_coded t v) eqn:Hc; [|by apply writeV_overflow].
  destruct (writeV_ok t v b) as (w & b1 & Hl & Hw & Hr); [done..|].
  destruct (write_back (writeV t v) (readV t) b w w b1 v) as (b2 & b3 & Hs & Hrd & Hbc); [done|done|by intros; apply Hr|].
  destruct Hw as [Hw1 Hw2]. rewrite Hl in *. exists b1, b2, b3. rewrite (bc_pos _ _ _ _ Hw2).
  split; [done|]. split; [apply Hw2|]. done.
Qed.

(** The zigzag codes of the 32-bit and 64-bit integers, where they are computed without
    overflow, interleave the signs: [2v] for [v >= 0], [-2v - 1] for [v < 0], which
    stays within the unsigned type; the decodings return the value for every code. *)
Theorem zigzag_roundtrip v :
  (vt_range Int32 v → EncodeZigzag32 v = (if vt_coded Int32 v then Some (vt_code Int32 v) else None) ∧
    0 ≤ vt_code Int32 v < 2 ^ 32 ∧ DecodeZigzag32 (vt_code Int32 v) = v) ∧
  (vt_range Int64 v → EncodeZigzag64 v = (if vt_coded Int64 v then Some (vt_code Int64 v) else None) ∧
    0 ≤ vt_code Int64 v < 2 ^ 64 ∧ DecodeZigzag64 (vt_code Int64 v) = v).
Proof.
  cbn [vt_range vt_coded vt_code]. split; intros Hv.
  - split; [|split; [case_bool; lia|by apply zigzag32_inv]]. destruct (_ && _) eqn:Hc; [apply EncodeZigzag32_eq; lia|].
    unfold EncodeZigzag32. destruct (v <? 0) eqn:Hn; [by replace (v =? - 2 ^ 31) with true by lia|by replace (v * 2 >=? 2 ^ 31) with true by lia].
  - split; [|split; [case_bool; lia|by apply zigzag64_inv]]. destruct (_ && _) eqn:Hc; [apply EncodeZigzag64_eq; lia|].
    unfold EncodeZigzag64. destruct (v <? 0) eqn:Hn; [by replace (v =? - 2 ^ 63) with true by lia|by replace (v * 2 >=? 2 ^ 63) with true by lia].
Qed.

(** a string written with any of the four length prefixes is read back as
    its first [st_length] bytes: all of it, except that the 16-bit (and
    32-bit) prefix keeps only the length modulo [2^16] ([2^32]).  The read
    never throws; it needs a non-empty result or room behind the prefix, since
    an empty read at the capacity dereferences null. *)
Theorem string_roundtrip t s b : wf b → endian_ok b → Forall is_byte s → zlen s < 2 ^ 62 →
  room_ok b (st_prefix_size t (zlen s)) = true →
  (∀ b1, st_prefix t (zlen s) b = Done b1 () → room_ok b1 (zlen s) = true) →
  (st_length t (zlen s) ≠ 0) →
  m_position b + st_prefix_size t (zlen s) + zlen s + m_baseSize b < 2 ^ 62 →
  ∃ b1 b2 b3, writeString t s b = Done b1 () ∧ wf b1 ∧
    m_position b1 = m_position b + st_prefix_size t (zlen s) + zlen s ∧
    setPosition (m_position b) b1 = Done b2 () ∧
    readString t b2 = Done b3 (ztake (st_length t (zlen s)) s) ∧
    becomes b1 b3 (data b1) (m_position b + st_prefix_size t (zlen s) + st_length t (zlen s)).
Proof.
  intros Hwf He Hs Hlen Hroom1 Hroom2 Hne Hbd. pose proof (zlen_nonneg s). pose proof (sh_base _ (wf_shape _ Hwf)).
  destruct (st_prefix_ok t (zlen s) b) as (hw & bh & HR & Hhl & Hhw & Hrs & Hrd); [done|done|lia|done|lia|].
  destruct (writes_write bh s) as (b1 & Hbw).
  { apply Hhw. } { done. } { apply Hroom2, Hhw. }
  { destruct Hhw as [_ Hbc]. rewrite (bc_pos _ _ _ _ Hbc), (bc_base _ _ _ _ Hbc). lia. }
  pose proof (writes_seq _ _ _ _ _ _ _ Hwf Hhw Hbw) as Hw. rewrite <-writeString_eq in Hw.
  assert (Hk : 0 ≤ st_length t (zlen s) ≤ zlen s).
  { destruct t; cbn; try lia; unfold u16, u32; pose proof (Z.mod_pos_bound (zlen s) (2 ^ 16) ltac:(lia));
    pose proof (Z.mod_pos_bound (zlen s) (2 ^ 32) ltac:(lia)); pose proof (Z.mod_le (zlen s) (2 ^ 16) ltac:(lia) ltac:(lia));
    pose proof (Z.mod_le (zlen s) (2 ^ 32) ltac:(lia) ltac:(lia)); lia. }
  remember (st_length t (zlen s)) as k eqn:Hkeq. pose proof (zlen_ztake k s Hk) as Hkl.
  destruct (write_back (writeString t s) (readString t) b (hw ++ s) (hw ++ ztake k s) b1 (ztake k s))
    as (b2 & b3 & Hsp & Hr & Hbc); [done|done| |].
  { intros b2 He2 _ _ Hh. rewrite Hrs. rewrite <-(ztake_zdrop k s), app_assoc in Hh. apply holds_prefix in Hh.
    apply (reads_seq HR read b2 hw (ztake k s) k (ztake k s)); [done| |].
    - apply Hrd; [done|]. by eapply holds_prefix.
    - intros b' _ _ _ Hh'. pose proof (reads_read b' (ztake k s) Hh') as Hx. rewrite Hkl in Hx. apply Hx. left. intros Hnil.
      rewrite Hnil, zlen_nil in Hkl. lia. }
  destruct Hw as [Hw1 Hw2]. rewrite !zlen_app, Hhl, Hkl in *. rewrite ?zlen_app, ?Hhl in Hw2. exists b1, b2, b3.
  rewrite (bc_pos _ _ _ _ Hw2). split; [done|]. split; [apply Hw2|]. split; [lia|]. split; [done|]. split; [done|].
  by rewrite Z.add_assoc in Hbc.
Qed.
End properties.

(** ** Witnesses *)
Definition fresh16 : ByteArray := @ByteArray_new zero_alloc 16.
Lemma fresh16_wf : wf fresh16.
Proof. apply ByteArray_new_wf. lia. Qed.

Lemma fixed_roundtrip_witness : ∃ b1 b2 b3,
  @writeF zero_alloc little_host Fint32 (-2) fresh16 = Done b1 () ∧ data b1 = [255; 255; 255; 254] ∧
  setPosition 0 b1 = Done b2 () ∧ @readF little_host Fint32 b2 = Done b3 (-2).
Proof.
  destruct (@fixed_roundtrip zero_alloc little_host Fint32 (-2) fresh16) as (b1 & b2 & b3 & H1 & H2 & H3 & H4 & _);
    [apply fresh16_wf|by right|split; vm_compute; congruence|reflexivity|reflexivity|].
  exists b1, b2, b3. split; [exact H1|]. split; [|by split].
  rewrite (bc_data _ _ _ _ H2). vm_compute. reflexivity.
Defined.

Lemma varint_roundtrip_witness : ∃ b1 b2 b3,
  @writeV zero_alloc Int32 (-2147483647) fresh16 = Done b1 () ∧ m_position b1 = 5 ∧
  setPosition 0 b1 = Done b2 () ∧ @readV little_host Int32 b2 = Done b3 (-2147483647).
Proof.
  destruct (@varint_roundtrip zero_alloc little_host Int32 (-2147483647) fresh16) as (b1 & b2 & b3 & H1 & _ & H2 & H3 & H4 & _);
    [apply fresh16_wf|split; vm_compute; congruence|reflexivity|reflexivity|].
  exists b1, b2, b3. repeat (split; [assumption|]). assumption.
Defined.

Lemma zigzag_roundtrip_witness : EncodeZigzag32 (-3) = Some 5 ∧ EncodeZigzag32 (2 ^ 30) = None ∧ DecodeZigzag64 (vt_code Int64 (- 2 ^ 63)) = - 2 ^ 63.
Proof.
  split; [exact (proj1 (proj1 (zigzag_roundtrip (-3)) ltac:(cbn; lia)))|].
  split; [exact (proj1 (proj1 (zigzag_roundtrip (2 ^ 30)) ltac:(cbn; lia)))|].
  exact (proj2 (proj2 (proj2 (zigzag_roundtrip (- 2 ^ 63)) ltac:(cbn; lia)))).
Defined.

Lemma string_roundtrip_witness : ∃ b1 b2 b3,
  @writeString zero_alloc little_host Vint [104; 105] fresh16 = Done b1 () ∧
  setPosition 0 b1 = Done b2 () ∧ @readString little_host Vint b2 = Done b3 [104; 105].
Proof.
  destruct (@string_roundtrip zero_alloc little_host Vint [104; 105] fresh16) as (b1 & b2 & b3 & H1 & _ & _ & H2 & H3 & _);
    [apply fresh16_wf|by right|solve_bytes|reflexivity|reflexivity| |discriminate|reflexivity|].
  - intros b1 H1. vm_compute in H1. injection H1 as <-. reflexivity.
  - exists b1, b2, b3. repeat (split; [assumption|]). assumption.
Defined.
