(* ===== verification/OrderedSet.v ===== *)
(** * OrderedSet: [std::set] as the sorted list of its elements

    The operations of [std::set] the timers use, by their documented behaviour:
    [lower_bound] is the first element not less than the key, [find] the element
    equivalent to it, [insert] keeps the order, [erase] of the end is undefined.
    The comparator is a parameter, evaluated when the operation runs: a key that
    changes inside the set breaks the order, and the invariant below with it. *)
From Stdlib Require Export Sorting.Sorted.
From S2P Require Import Prelude.
Open Scope Z_scope.

Section ordered_set.
Context {A : Type} (lt : A → A → bool).

(** The elements before [lower_bound(x)], and those from it on. *)
Fixpoint lower_bound (x : A) (l : list A) : list A * list A :=
  match l with
  | [] => ([], [])
  | e :: l' => if lt e x then let '(p, r) := lower_bound x l' in (e :: p, r) else ([], l)
  end.

(** [insert(x)]: the new set and whether the iterator returned is [begin()]. *)
Definition set_insert (x : A) (l : list A) : list A * bool :=
  let '(p, r) := lower_bound x l in
  let at_begin := match p with [] => true | _ => false end in
  match r with
  | e :: _ => if lt x e then (p ++ x :: r, at_begin) else (l, at_begin)
  | [] => (p ++ [x], at_begin)
  end.

(** [find(x)]: the prefix before the iterator and the rest, [None] for [end()]. *)
Definition set_find (x : A) (l : list A) : option (list A * list A) :=
  let '(p, r) := lower_bound x l in
  match r with
  | e :: r' => if lt x e then None else Some (p, r')
  | [] => None
  end.

(** [erase(it)], [it] from [find]. *)
Definition set_erase {S} (it : option (list A * list A)) : M S (list A) :=
  match it with Some (p, r) => mret (p ++ r) | None => undef BadErase end.
End ordered_set.

(** ** The set operations on a sorted list *)
Section facts.
Context {A : Type} (lt : A → A → bool).
Local Abbreviation R := (λ a b, lt a b = true).
Local Abbreviation sorted := (StronglySorted R).

Class StrictOrder_b : Prop := {
  lt_irrefl a : lt a a = false;
  lt_trans a b c : lt a b = true → lt b c = true → lt a c = true;
  lt_total a b : lt a b = false → lt b a = false → a = b
}.
Context `{!StrictOrder_b}.
#[local] Set Default Proof Using "All".

Lemma lt_asym a b : lt a b = true → lt b a = false.
Proof.
  intros Hab. destruct (lt b a) eqn:Hba; [|done].
  pose proof (lt_irrefl a). pose proof (lt_trans a b a Hab Hba). congruence.
Qed.

Lemma lower_bound_spec x l p r : sorted l → lower_bound lt x l = (p, r) →
  l = p ++ r ∧ Forall (λ e, lt e x = true) p ∧ Forall (λ e, lt e x = false) r.
Proof.
  intros Hs. revert p r. induction Hs as [|e l Hs IH He]; intros p r; cbn [lower_bound].
  { intros [= <- <-]. done. }
  destruct (lt e x) eqn:Hlt.
  - destruct (lower_bound lt x l) as [p' r']. intros [= <- <-].
    destruct (IH p' r') as (-> & Hp & Hr); [done|]. repeat split; [|done]. by constructor.
  - intros [= <- <-]. repeat split; [done|]. constructor; [done|].
    eapply Forall_impl; [exact He|]. intros y Hy. cbn in Hy. destruct (lt y x) eqn:Hyx; [|done].
    pose proof (lt_trans e y x Hy Hyx). congruence.
Qed.

Lemma sorted_NoDup l : sorted l → NoDup l.
Proof.
  induction 1 as [|e l Hs IH He]; constructor; [|done]. intros Hin.
  rewrite Forall_forall in He. apply He in Hin. pose proof (lt_irrefl e). congruence.
Qed.

Lemma sorted_app p r : sorted (p ++ r) ↔ sorted p ∧ sorted r ∧ (∀ a b, a ∈ p → b ∈ r → lt a b = true).
Proof.
  induction p as [|a p IH]; cbn [app].
  { split; [intros; repeat split; [constructor|done|intros a b Ha; by apply not_elem_of_nil in Ha]|by intros (_ & ? & _)]. }
  split.
  - intros Hs. apply StronglySorted_inv in Hs as [Hs Ha]. apply IH in Hs as (H1 & H2 & H3).
    apply Forall_app in Ha as [Ha1 Ha2]. repeat split; [by constructor|done|].
    intros x y Hx Hy. apply elem_of_cons in Hx as [->|Hx]; [|by apply H3]. rewrite Forall_forall in Ha2. by apply Ha2.
  - intros (H1 & H2 & H3). apply StronglySorted_inv in H1 as [H1 Ha]. constructor.
    + apply IH. repeat split; try done. intros x y Hx Hy. apply H3; [by right|done].
    + apply Forall_app. split; [done|]. apply Forall_forall. intros y Hy. apply H3; [by left|done].
Qed.

Lemma set_insert_new x l : sorted l → x ∉ l →
  sorted (set_insert lt x l).1 ∧ (∀ y, y ∈ (set_insert lt x l).1 ↔ y = x ∨ y ∈ l) ∧
  ((set_insert lt x l).2 = true ↔ ∀ y, y ∈ l → lt x y = true).
Proof.
  intros Hs Hx. unfold set_insert. destruct (lower_bound lt x l) as [p r] eqn:Hlb.
  destruct (lower_bound_spec _ _ _ _ Hs Hlb) as (-> & Hp & Hr).
  assert (Hr' : Forall (λ e, lt x e = true) r).
  { apply Forall_forall. intros e He. rewrite Forall_forall in Hr. specialize (Hr e He).
    destruct (lt x e) eqn:E; [done|]. pose proof (lt_total x e E Hr) as ->. set_solver. }
  apply sorted_app in Hs as (Hs1 & Hs2 & Hs3). rewrite !Forall_forall in *.
  assert (Hso : sorted (p ++ x :: r)).
  { apply sorted_app. repeat split; [done| |].
    - constructor; [done|by apply Forall_forall].
    - intros a b Ha Hb. apply elem_of_cons in Hb as [->|Hb]; [by apply Hp|by apply Hs3]. }
  assert (Hb : (match p with [] => true | _ => false end) = true ↔ ∀ y, y ∈ p ++ r → lt x y = true).
  { destruct p as [|e p]; split; try done.
    intros Hall. assert (He : lt e x = true) by (apply Hp; by left).
    pose proof (Hall e ltac:(set_solver)) as Hex. pose proof (lt_asym _ _ He). congruence. }
  destruct r as [|e r]; cbn.
  - rewrite app_nil_r in *. repeat split; [done|set_solver|set_solver|apply Hb|apply Hb].
  - rewrite (Hr' e) by (by left). cbn. repeat split; [done|set_solver|set_solver|apply Hb|apply Hb].
Qed.

Lemma set_find_some x l : sorted l → x ∈ l →
  ∃ p r, set_find lt x l = Some (p, r) ∧ l = p ++ x :: r.
Proof.
  intros Hs Hx. unfold set_find. destruct (lower_bound lt x l) as [p r] eqn:Hlb.
  destruct (lower_bound_spec _ _ _ _ Hs Hlb) as (-> & Hp & Hr). rewrite !Forall_forall in *.
  assert (Hxr : x ∈ r).
  { apply elem_of_app in Hx as [Hx|]; [|done]. pose proof (Hp x Hx). pose proof (lt_irrefl x). congruence. }
  destruct r as [|e r]; [by apply not_elem_of_nil in Hxr|].
  apply sorted_app in Hs as (_ & Hs2 & _). apply StronglySorted_inv in Hs2 as [_ He]. rewrite Forall_forall in He.
  destruct (lt x e) eqn:E.
  - apply elem_of_cons in Hxr as [->|Hxr]; [pose proof (lt_irrefl e); congruence|].
    apply He in Hxr. pose proof (lt_asym _ _ E). congruence.
  - pose proof (lt_total x e E (Hr e ltac:(by left))) as ->. by exists p, r.
Qed.

Lemma set_find_none x l : sorted l → x ∉ l → set_find lt x l = None.
Proof.
  intros Hs Hx. unfold set_find. destruct (lower_bound lt x l) as [p r] eqn:Hlb.
  destruct (lower_bound_spec _ _ _ _ Hs Hlb) as (-> & Hp & Hr). destruct r as [|e r]; [done|].
  destruct (lt x e) eqn:E; [done|]. apply Forall_inv in Hr. pose proof (lt_total x e E Hr) as ->. set_solver.
Qed.

Lemma sorted_remove x p r : sorted (p ++ x :: r) → sorted (p ++ r) ∧
  (∀ y, y ∈ p ++ r ↔ y ≠ x ∧ y ∈ p ++ x :: r).
Proof.
  intros Hs. pose proof (sorted_NoDup _ Hs) as Hnd. apply sorted_app in Hs as (H1 & H2 & H3).
  apply StronglySorted_inv in H2 as [H2 H4]. split.
  - apply sorted_app. repeat split; [done..|]. intros a b Ha Hb. apply H3; set_solver.
  - intros y. apply NoDup_app in Hnd as (Hn1 & Hn2 & Hn3). apply NoDup_cons in Hn3 as [Hn3 _].
    split; [|set_solver]. intros Hy. split; [|set_solver]. intros ->.
    apply elem_of_app in Hy as [Hy|Hy]; [|done]. apply (Hn2 x Hy). set_solver.
Qed.
End facts.
Arguments StrictOrder_b {A} lt.

(** Two comparators that agree on the elements give the same sortedness. *)
Lemma sorted_ext {A} (lt1 lt2 : A → A → bool) l :
  (∀ a b, a ∈ l → b ∈ l → lt1 a b = lt2 a b) →
  StronglySorted (λ a b, lt1 a b = true) l → StronglySorted (λ a b, lt2 a b = true) l.
Proof.
  intros Hext Hs. induction Hs as [|a l Hs IH Ha]; constructor.
  - apply IH. intros x y Hx Hy. apply Hext; by right.
  - rewrite Forall_forall in Ha |- *. intros y Hy. rewrite <-Hext; [by apply Ha|by left|by right].
Qed.
