(* ===== verification/Timer.v ===== *)
(** * Timer ([webserve/timer.h], [webserve/timer.cc])

    Timers live in a store of shared objects; the manager's [std::set] holds
    their addresses, ordered by the [Comparator], which reads the store.  The
    clock is an argument of the operations that call [GetCurrentMS].  Every
    operation runs under the manager's mutex and is one transition; the virtual
    [onTimerInsertedAtFront] is counted in [inserted_front]. *)
From S2P Require Import Prelude OrderedSet.
Open Scope Z_scope.

(** A [std::function<void()>]: empty, a user's function or the [std::bind] of
    [OnTimer]; its conversion to [bool]. *)
Inductive callback :=
| EmptyCb
| UserCb (id : Z)
| OnTimerCb (weak_cond : Z) (cb : callback).
Definition cb_bool (cb : callback) : bool := match cb with EmptyCb => false | _ => true end.

Record Timer := mkTimer { m_recurring : bool; m_ms : Z; m_next : Z; m_cb : callback }.

Record TimerManager := mkTimerManager {
  heap : gmap Z Timer;
  m_timers : list Z;
  m_tickled : bool;
  m_previouseTime : Z;
  inserted_front : nat
}.

Definition set_heap (h : gmap Z Timer) (s : TimerManager) : TimerManager :=
  mkTimerManager h (m_timers s) (m_tickled s) (m_previouseTime s) (inserted_front s).
Definition set_timers (l : list Z) (s : TimerManager) : TimerManager :=
  mkTimerManager (heap s) l (m_tickled s) (m_previouseTime s) (inserted_front s).
Definition set_tickled (b : bool) (s : TimerManager) : TimerManager :=
  mkTimerManager (heap s) (m_timers s) b (m_previouseTime s) (inserted_front s).
Definition set_previouse (now : Z) (s : TimerManager) : TimerManager :=
  mkTimerManager (heap s) (m_timers s) (m_tickled s) now (inserted_front s).

(** [lhs->m_next] *)
Definition next_at (h : gmap Z Timer) (a : Z) : Z := from_option m_next 0 (h !! a).

(** [Timer::Comparator::operator()] *)
Definition Comparator (h : gmap Z Timer) (lhs rhs : option Z) : bool :=
  match lhs, rhs with
  | None, None => false
  | None, Some _ => true
  | Some _, None => false
  | Some l, Some r =>
      if next_at h l <? next_at h r then true
      else if next_at h r <? next_at h l then false
      else l <? r
  end.
Definition timer_lt (h : gmap Z Timer) (l r : Z) : bool := Comparator h (Some l) (Some r).

(** The timer behind a [shared_from_this()]. *)
Definition timer_of (a : Z) : M TimerManager Timer := λ s,
  match heap s !! a with Some t => Done s t | None => Undef NullDeref end.
Definition store (a : Z) (t : Timer) : M TimerManager () :=
  modify (λ s, set_heap (<[a := t]> (heap s)) s).
Definition find_in_set (a : Z) : M TimerManager (option (list Z * list Z)) :=
  gets (λ s, set_find (timer_lt (heap s)) a (m_timers s)).
Definition erase_from_set (it : option (list Z * list Z)) : M TimerManager () :=
  l ← set_erase it; modify (set_timers l).

(** [Timer::Timer(ms, cb, recurring, manager)] and [Timer::Timer(next)] *)
Definition Timer_new (now ms : Z) (cb : callback) (recurring : bool) : Timer :=
  mkTimer recurring ms (u64 (now + ms)) cb.
Definition Timer_at (next : Z) : Timer := mkTimer false 0 next EmptyCb.

(** [Timer::cancel] *)
Definition cancel (a : Z) : M TimerManager bool :=
  t ← timer_of a;
  match cb_bool (m_cb t) with
  | true =>
      store a (mkTimer (m_recurring t) (m_ms t) (m_next t) EmptyCb) ;;
      it ← find_in_set a;
      erase_from_set it ;;
      mret true
  | false => mret false
  end.

(** [Timer::refresh] *)
Definition refresh (now a : Z) : M TimerManager bool :=
  t ← timer_of a;
  match cb_bool (m_cb t) with
  | false => mret false
  | true =>
      it ← find_in_set a;
      match it with
      | None => mret false
      | Some _ =>
          erase_from_set it ;;
          store a (mkTimer (m_recurring t) (m_ms t) (u64 (now + m_ms t)) (m_cb t)) ;;
          modify (λ s, set_timers (set_insert (timer_lt (heap s)) a (m_timers s)).1 s) ;;
          mret true
      end
  end.

(** [TimerManager::addTimer(Timer::ptr, WriteLock&)] *)
Definition addTimer_locked (a : Z) : M TimerManager () :=
  s ← get;
  let '(l, is_begin) := set_insert (timer_lt (heap s)) a (m_timers s) in
  modify (set_timers l) ;;
  let at_front := is_begin && negb (m_tickled s) in
  if at_front then
    modify (set_tickled true) ;;
    modify (λ s, mkTimerManager (heap s) (m_timers s) (m_tickled s) (m_previouseTime s) (S (inserted_front s)))
  else mret ().

(** [Timer::reset] *)
Definition reset (now a ms : Z) (from_now : bool) : M TimerManager bool :=
  t ← timer_of a;
  if (ms =? m_ms t) && negb from_now then mret true else
  match cb_bool (m_cb t) with
  | false => mret false
  | true =>
      it ← find_in_set a;
      match it with
      | None => mret false
      | Some _ =>
          erase_from_set it ;;
          let start := if from_now then now else u64 (m_next t - m_ms t) in
          store a (mkTimer (m_recurring t) ms (u64 (start + ms)) (m_cb t)) ;;
          addTimer_locked a ;;
          mret true
      end
  end.

(** [TimerManager::TimerManager] *)
Definition TimerManager_new (now : Z) : TimerManager := mkTimerManager ∅ [] false now 0.

(** [TimerManager::addTimer(ms, cb, recurring)]; [a] is the address [new] returns. *)
Definition addTimer (now a ms : Z) (cb : callback) (recurring : bool) : M TimerManager Z :=
  store a (Timer_new now ms cb recurring) ;;
  addTimer_locked a ;;
  mret a.

(** [OnTimer]: the callbacks that run; [None] for [std::bad_function_call]. *)
Fixpoint run_cb (alive : Z → bool) (cb : callback) : option (list Z) :=
  match cb with
  | EmptyCb => None
  | UserCb id => Some [id]
  | OnTimerCb weak_cond cb => if alive weak_cond then run_cb alive cb else Some []
  end.

(** [TimerManager::addConditionTimer] *)
Definition addConditionTimer (now a ms : Z) (cb : callback) (weak_cond : Z) (recurring : bool)
  : M TimerManager Z :=
  addTimer now a ms (OnTimerCb weak_cond cb) recurring.

(** [TimerManager::getNextTimer] *)
Definition getNextTimer (now_ms : Z) : M TimerManager Z :=
  modify (set_tickled false) ;;
  s ← get;
  match m_timers s with
  | [] => mret (u64 (-1))
  | next :: _ =>
      if now_ms >=? next_at (heap s) next then mret 0
      else mret (u64 (next_at (heap s) next - now_ms))
  end.

(** [TimerManager::detectClockRollover] *)
Definition detectClockRollover (now_ms : Z) : M TimerManager bool :=
  s ← get;
  let rollover := (now_ms <? m_previouseTime s) && (now_ms <? u64 (m_previouseTime s - 60 * 60 * 1000)) in
  modify (set_previouse now_ms) ;;
  mret rollover.

(** The loop [while(it != end && it->m_next == now_ms) ++it]. *)
Fixpoint skip_equal (h : gmap Z Timer) (now_ms : Z) (p r : list Z) : list Z * list Z :=
  match r with
  | e :: r' => if next_at h e =? now_ms then skip_equal h now_ms (p ++ [e]) r' else (p, r)
  | [] => (p, r)
  end.

(** The loop over [expired]. *)
Fixpoint fire (now_ms : Z) (expired : list Z) : M TimerManager (list callback) :=
  match expired with
  | [] => mret []
  | a :: expired =>
      t ← timer_of a;
      (if m_recurring t then
         store a (mkTimer (m_recurring t) (m_ms t) (u64 (now_ms + m_ms t)) (m_cb t)) ;;
         modify (λ s, set_timers (set_insert (timer_lt (heap s)) a (m_timers s)).1 s)
       else store a (mkTimer (m_recurring t) (m_ms t) (m_next t) EmptyCb)) ;;
      cbs ← fire now_ms expired;
      mret (m_cb t :: cbs)
  end.

(** [TimerManager::listExpiredCb]; [tmp] is the address of [now_timer]. *)
Definition listExpiredCb (now_ms tmp : Z) : M TimerManager (list callback) :=
  s0 ← get;
  match m_timers s0 with
  | [] => mret []
  | front :: _ =>
      rollover ← detectClockRollover now_ms;
      s ← get;
      if negb rollover && (next_at (heap s) front >? now_ms) then mret [] else
      let h := <[tmp := Timer_at now_ms]> (heap s) in
      let '(p, r) := if rollover then (m_timers s, []) else lower_bound (timer_lt h) tmp (m_timers s) in
      let '(expired, rest) := skip_equal (heap s) now_ms p r in
      modify (set_timers rest) ;;
      fire now_ms expired
  end.

(** [TimerManager::hasTimer] *)
Definition hasTimer (s : TimerManager) : bool :=
  match m_timers s with [] => false | _ => true end.

(** ** The order and the invariant *)
#[export] Instance timer_lt_order h : StrictOrder_b (timer_lt h).
Proof.
  split; unfold timer_lt, Comparator.
  - intros a. repeat case_bool; lia.
  - intros a b c. repeat case_bool; lia.
  - intros a b. repeat case_bool; try done; lia.
Qed.

Definition ordered (h : gmap Z Timer) (l : list Z) : Prop := StronglySorted (λ a b, timer_lt h a b = true) l.
Definition armed (h : gmap Z Timer) (a : Z) : Prop := ∃ t, h !! a = Some t ∧ cb_bool (m_cb t) = true.

(** Exactly the timers that still have a callback are in the set, in order. *)
Record wf (s : TimerManager) : Prop := {
  wf_ordered : ordered (heap s) (m_timers s);
  wf_armed : ∀ a, a ∈ m_timers s ↔ armed (heap s) a;
  wf_range : ∀ a t, heap s !! a = Some t → is_u64 (m_next t)
}.

Lemma timer_lt_insert h a t x y : x ≠ a → y ≠ a → timer_lt (<[a := t]> h) x y = timer_lt h x y.
Proof. intros. unfold timer_lt, Comparator, next_at. by rewrite !lookup_insert_ne. Qed.

(** Changing a timer that is outside the set keeps the set in order. *)
Lemma ordered_store h a t l : a ∉ l → ordered h l → ordered (<[a := t]> h) l.
Proof.
  intros Ha. apply sorted_ext. intros x y Hx Hy. symmetry. apply timer_lt_insert; intros ->; done.
Qed.

Lemma ordered_insert h a l : ordered h l → a ∉ l →
  ordered h (set_insert (timer_lt h) a l).1 ∧ ∀ y, y ∈ (set_insert (timer_lt h) a l).1 ↔ y = a ∨ y ∈ l.
Proof. intros Ho Ha. destruct (set_insert_new (timer_lt h) a l Ho Ha) as (H1 & H2 & _). done. Qed.

Lemma armed_insert h a t x : armed (<[a := t]> h) x ↔ (x = a ∧ cb_bool (m_cb t) = true) ∨ (x ≠ a ∧ armed h x).
Proof.
  unfold armed. destruct (decide (x = a)) as [->|Hne].
  - rewrite lookup_insert_eq. split; [intros (t' & [= <-] & ?); by left|intros [[_ ?]|[? _]]; [by exists t|done]].
  - rewrite lookup_insert_ne by done. split; [by right|intros [[? _]|[_ ?]]; done].
Qed.

Lemma range_insert (h : gmap Z Timer) a t : (∀ x t, h !! x = Some t → is_u64 (m_next t)) → is_u64 (m_next t) →
  ∀ x t', <[a := t]> h !! x = Some t' → is_u64 (m_next t').
Proof. intros Hh Ht x t'. destruct (decide (x = a)) as [->|]; [rewrite lookup_insert_eq; by intros [= <-]|rewrite lookup_insert_ne by done; apply Hh]. Qed.

Lemma find_erase s a : wf s → a ∈ m_timers s → ∃ p r,
  set_find (timer_lt (heap s)) a (m_timers s) = Some (p, r) ∧
  ordered (heap s) (p ++ r) ∧ (∀ y, y ∈ p ++ r ↔ y ≠ a ∧ y ∈ m_timers s).
Proof.
  intros Hwf Ha. destruct (set_find_some (timer_lt (heap s)) a (m_timers s)) as (p & r & Hf & Hl);
    [apply Hwf|done|]. pose proof (wf_ordered _ Hwf) as Ho. rewrite Hl in Ho.
  destruct (sorted_remove (timer_lt (heap s)) a p r Ho) as [H1 H2]. exists p, r. split; [done|]. rewrite Hl. done.
Qed.

Lemma armed_in s a t : wf s → heap s !! a = Some t → cb_bool (m_cb t) = true → a ∈ m_timers s.
Proof. intros Hwf Ha Ht. apply (wf_armed _ Hwf). by exists t. Qed.

(** [wf] of a state whose timer [a] was replaced and whose set became [l]. *)
Lemma wf_update s a t l b k n : wf s → is_u64 (m_next t) → ordered (<[a := t]> (heap s)) l →
  (∀ y, y ∈ l ↔ (y = a ∧ cb_bool (m_cb t) = true) ∨ (y ≠ a ∧ y ∈ m_timers s)) →
  wf (mkTimerManager (<[a := t]> (heap s)) l b k n).
Proof.
  intros Hwf Ht Ho Hl. split; cbn.
  - done.
  - intros y. rewrite Hl, armed_insert, <-(wf_armed _ Hwf). done.
  - intros x t'. apply range_insert; [apply Hwf|done].
Qed.

(** A timer with the same deadline compares as before. *)
Lemma ordered_same_next h a t t' l : h !! a = Some t → m_next t' = m_next t →
  ordered h l → ordered (<[a := t']> h) l.
Proof.
  intros Ha Hn. apply sorted_ext. intros x y _ _. unfold timer_lt, Comparator.
  assert (Hk : ∀ z, next_at (<[a := t']> h) z = next_at h z).
  { intros z. unfold next_at. destruct (decide (z = a)) as [->|]; [|by rewrite lookup_insert_ne].
    rewrite lookup_insert_eq, Ha. done. }
  by rewrite !Hk.
Qed.

Definition disarm (t : Timer) : Timer := mkTimer (m_recurring t) (m_ms t) (m_next t) EmptyCb.

Lemma cancel_ok s a t : wf s → heap s !! a = Some t → cb_bool (m_cb t) = true →
  ∃ l, cancel a s = Done (set_timers l (set_heap (<[a := disarm t]> (heap s)) s)) true ∧
    wf (set_timers l (set_heap (<[a := disarm t]> (heap s)) s)) ∧ (∀ y, y ∈ l ↔ y ≠ a ∧ y ∈ m_timers s).
Proof.
  intros Hwf Ha Hcb. pose proof (armed_in _ _ _ Hwf Ha Hcb) as Hin.
  assert (Ho : ordered (<[a := disarm t]> (heap s)) (m_timers s)) by (by eapply ordered_same_next; [..|apply Hwf]).
  destruct (set_find_some (timer_lt (<[a := disarm t]> (heap s))) a (m_timers s) Ho Hin) as (p & r & Hf & Hl).
  pose proof Ho as Ho'. rewrite Hl in Ho'. destruct (sorted_remove (timer_lt (<[a := disarm t]> (heap s))) a p r Ho') as [H1 H2].
  exists (p ++ r). split; [|split].
  - unfold cancel. erewrite bind_done; [|unfold timer_of; by rewrite Ha]. rewrite Hcb.
    fold (disarm t). erewrite bind_done; [|done]. erewrite bind_done; [|done]. cbn [set_heap heap m_timers].
    rewrite Hf. done.
  - apply wf_update; [done|by apply (wf_range _ Hwf a t)|done|]. intros y. rewrite H2, Hl. cbn. intuition congruence.
  - intros y. rewrite H2, Hl. done.
Qed.

(** Taking an armed timer out, giving it a new deadline and inserting it again:
    the common part of [refresh] and [reset]. *)
Lemma rearm_ok s a t t' : wf s → heap s !! a = Some t → cb_bool (m_cb t) = true → m_cb t' = m_cb t →
  is_u64 (m_next t') → ∃ p r, set_find (timer_lt (heap s)) a (m_timers s) = Some (p, r) ∧
    let h := <[a := t']> (heap s) in let ins := set_insert (timer_lt h) a (p ++ r) in
    (∀ b k n, wf (mkTimerManager h ins.1 b k n)) ∧ (∀ y, y ∈ ins.1 ↔ y ∈ m_timers s) ∧
    (ins.2 = true ↔ ∀ y, y ∈ m_timers s → y ≠ a → timer_lt h a y = true).
Proof.
  intros Hwf Ha Hcb Hcb' Hr. pose proof (armed_in _ _ _ Hwf Ha Hcb) as Hin.
  destruct (find_erase s a Hwf Hin) as (p & r & Hf & Ho & Hy). exists p, r. split; [done|]. cbv zeta.
  assert (Hna : a ∉ p ++ r) by (rewrite Hy; tauto).
  destruct (set_insert_new (timer_lt (<[a := t']> (heap s))) a (p ++ r)) as (H1 & H2 & H3);
    [by apply ordered_store|done|].
  assert (Hm : ∀ y, y ∈ (set_insert (timer_lt (<[a := t']> (heap s))) a (p ++ r)).1 ↔ y ∈ m_timers s).
  { intros y. rewrite H2, Hy. destruct (decide (y = a)) as [->|]; tauto. }
  split; [|split; [exact Hm|]].
  - intros b k n. apply wf_update; [done|done|done|]. intros y. rewrite Hm, Hcb'.
    destruct (decide (y = a)) as [->|]; tauto.
  - rewrite H3. split; intros Hall y; [intros ??; apply Hall, Hy; done|rewrite Hy; intros [??]; by apply Hall].
Qed.

Definition after_insert (a : Z) (s : TimerManager) : TimerManager :=
  let ins := set_insert (timer_lt (heap s)) a (m_timers s) in
  let at_front := ins.2 && negb (m_tickled s) in
  mkTimerManager (heap s) ins.1 (m_tickled s || at_front) (m_previouseTime s)
    (if at_front then S (inserted_front s) else inserted_front s).

Lemma addTimer_locked_eq a s : addTimer_locked a s = Done (after_insert a s) ().
Proof.
  unfold addTimer_locked, after_insert. erewrite bind_done; [|done].
  destruct (set_insert _ a (m_timers s)) as [l is_begin]. cbn.
  destruct s as [h l' tk pv n]. cbn. by destruct is_begin, tk.
Qed.

Definition delayed (t : Timer) (ms next : Z) : Timer := mkTimer (m_recurring t) ms next (m_cb t).

Lemma refresh_ok s a t now : wf s → heap s !! a = Some t → cb_bool (m_cb t) = true →
  ∃ l, let s' := set_timers l (set_heap (<[a := delayed t (m_ms t) (u64 (now + m_ms t))]> (heap s)) s) in
  refresh now a s = Done s' true ∧ wf s' ∧ (∀ y, y ∈ l ↔ y ∈ m_timers s).
Proof.
  intros Hwf Ha Hcb.
  destruct (rearm_ok s a t (delayed t (m_ms t) (u64 (now + m_ms t))) Hwf Ha Hcb) as (p & r & Hf & Hw & Hm & _);
    [done|apply u64_range|]. eexists. cbv zeta. split; [|split; [apply Hw|exact Hm]].
  unfold refresh. erewrite bind_done; [|unfold timer_of; by rewrite Ha]. rewrite Hcb.
  erewrite bind_done; [|done]. by rewrite Hf.
Qed.

Lemma reset_ok s a t now ms from_now : wf s → heap s !! a = Some t → cb_bool (m_cb t) = true →
  (ms =? m_ms t) && negb from_now = false →
  let t' := delayed t ms (u64 ((if from_now then now else u64 (m_next t - m_ms t)) + ms)) in
  ∃ l b n, let s' := mkTimerManager (<[a := t']> (heap s)) l b (m_previouseTime s) n in
  reset now a ms from_now s = Done s' true ∧ wf s' ∧ (∀ y, y ∈ l ↔ y ∈ m_timers s).
Proof.
  intros Hwf Ha Hcb Hms t'.
  destruct (rearm_ok s a t t' Hwf Ha Hcb) as (p & r & Hf & Hw & Hm & _); [done|apply u64_range|].
  eexists _, _, _. cbv zeta. split; [|split; [apply Hw|exact Hm]].
  unfold reset. erewrite bind_done; [|unfold timer_of; by rewrite Ha]. rewrite Hms, Hcb.
  erewrite bind_done; [|done]. rewrite Hf. erewrite bind_done; [|done]. erewrite bind_done; [|done].
  erewrite bind_done; [|apply addTimer_locked_eq]. done.
Qed.

Lemma idle_ok s a t now ms from_now : heap s !! a = Some t → cb_bool (m_cb t) = false →
  cancel a s = Done s false ∧ refresh now a s = Done s false ∧
  ∃ b, reset now a ms from_now s = Done s b.
Proof.
  intros Ha Hcb. assert (Ht : timer_of a s = Done s t) by (unfold timer_of; by rewrite Ha).
  unfold cancel, refresh, reset. rewrite !(bind_done _ _ _ _ _ Ht), Hcb. repeat split.
  destruct ((ms =? m_ms t) && negb from_now); eauto.
Qed.

Lemma addTimer_ok s now a ms cb recurring : wf s → heap s !! a = None → cb_bool cb = true →
  let h := <[a := Timer_new now ms cb recurring]> (heap s) in
  let s1 := set_heap h s in
  addTimer now a ms cb recurring s = Done (after_insert a s1) a ∧ wf (after_insert a s1) ∧
  (∀ y, y ∈ m_timers (after_insert a s1) ↔ y = a ∨ y ∈ m_timers s) ∧
  ((set_insert (timer_lt h) a (m_timers s)).2 = true ↔ ∀ y, y ∈ m_timers s → timer_lt h a y = true).
Proof.
  intros Hwf Ha Hcb h s1.
  assert (Hna : a ∉ m_timers s) by (rewrite (wf_armed _ Hwf); intros (t & Ht & _); congruence).
  destruct (set_insert_new (timer_lt h) a (m_timers s)) as (H1 & H2 & H3); [by apply ordered_store, Hwf|done|].
  split; [|split; [|split; [exact H2|exact H3]]].
  - unfold addTimer. erewrite bind_done; [|done]. erewrite bind_done; [|apply addTimer_locked_eq]. done.
  - unfold after_insert. cbn. apply wf_update; [done|apply u64_range|done|]. intros y. rewrite H2. cbn.
    rewrite Hcb. destruct (decide (y = a)) as [->|]; tauto.
Qed.

(** ** Expiry *)
Definition rearmed (now : Z) (t : Timer) : Timer :=
  if m_recurring t then delayed t (m_ms t) (u64 (now + m_ms t)) else disarm t.
Definition cb_at (h : gmap Z Timer) (a : Z) : callback := from_option m_cb EmptyCb (h !! a).
Definition recurs (h : gmap Z Timer) (a : Z) : bool := from_option m_recurring false (h !! a).

Lemma fire_ok now ex : ∀ s, NoDup ex → (∀ a, a ∈ ex → a ∉ m_timers s ∧ is_Some (heap s !! a)) →
  ordered (heap s) (m_timers s) →
  ∃ h l, fire now ex s = Done (set_timers l (set_heap h s)) (cb_at (heap s) <$> ex) ∧
    (∀ a, h !! a = if decide (a ∈ ex) then rearmed now <$> heap s !! a else heap s !! a) ∧
    ordered h l ∧ (∀ y, y ∈ l ↔ y ∈ m_timers s ∨ (y ∈ ex ∧ recurs (heap s) y = true)).
Proof.
  induction ex as [|a ex IH]; intros s Hnd Hex Ho.
  { exists (heap s), (m_timers s). split; [by destruct s|]. split; [done|]. split; [done|]. set_solver. }
  apply NoDup_cons in Hnd as [Ha Hnd]. destruct (Hex a ltac:(set_solver)) as [Hna [t Ht]].
  assert (∃ l1, fire now (a :: ex) s
     = ((cbs ← fire now ex; mret (m_cb t :: cbs)) : M TimerManager _) (set_timers l1 (set_heap (<[a := rearmed now t]> (heap s)) s)) ∧
     ordered (<[a := rearmed now t]> (heap s)) l1 ∧
     (∀ y, y ∈ l1 ↔ y ∈ m_timers s ∨ (y = a ∧ m_recurring t = true))) as (l1 & -> & Ho1 & Hl1).
  { cbn [fire]. erewrite bind_done; [|unfold timer_of; by rewrite Ht]. unfold rearmed.
    destruct t as [[] ms nx cb]; cbn [m_recurring m_ms m_cb m_next].
    - pose proof (ordered_store (heap s) a (mkTimer true ms (u64 (now + ms)) cb) _ Hna Ho) as Ho'.
      destruct (ordered_insert _ a _ Ho' Hna) as [H1 H2].
      eexists. split; [done|]. split; [exact H1|]. intros y. cbn. rewrite H2. tauto.
    - exists (m_timers s). split; [by destruct s|]. split; [by apply ordered_store|]. intros y. intuition congruence. }
  destruct (IH (set_timers l1 (set_heap (<[a := rearmed now t]> (heap s)) s))) as (h & l & Hrun & Hh & Hol & Hl);
    [done| |done|]; cbn [heap m_timers set_timers set_heap] in *.
  { intros x Hx. assert (x ≠ a) by (intros ->; done). destruct (Hex x) as [H1 H2]; [set_solver|].
    rewrite Hl1, lookup_insert_ne by done. split; [intuition|done]. }
  exists h, l. erewrite bind_done; [|exact Hrun]. split; [|split; [|split; [done|]]].
  - unfold mret, M_ret. f_equal. cbn [fmap list_fmap]. f_equal; [unfold cb_at; by rewrite Ht|].
    apply list_fmap_ext. intros i x Hx. apply list_elem_of_lookup_2 in Hx. unfold cb_at.
    by rewrite lookup_insert_ne by (intros ->; done).
  - intros x. rewrite Hh. destruct (decide (x = a)) as [->|Hne].
    + rewrite decide_False by done. rewrite lookup_insert_eq, decide_True, Ht by set_solver. done.
    + rewrite lookup_insert_ne by done. destruct (decide (x ∈ ex)); [rewrite decide_True by set_solver|rewrite decide_False by set_solver]; done.
  - intros y. rewrite Hl, Hl1. unfold recurs. destruct (decide (y = a)) as [->|Hne].
    + rewrite Ht. cbn. set_solver.
    + rewrite lookup_insert_ne by done. set_solver.
Qed.

Lemma skip_equal_ok h now r : ∀ p, ordered h r → Forall (λ a, next_at h a ≤ now) p →
  Forall (λ a, now ≤ next_at h a) r → ∃ p' r', skip_equal h now p r = (p', r') ∧ p' ++ r' = p ++ r ∧
    Forall (λ a, next_at h a ≤ now) p' ∧ Forall (λ a, now < next_at h a) r'.
Proof.
  induction r as [|e r IH]; intros p Ho Hp Hr; cbn [skip_equal]; [by exists p, (@nil Z)|].
  apply StronglySorted_inv in Ho as [Ho He]. apply Forall_cons in Hr as [Hre Hr].
  destruct (next_at h e =? now) eqn:Heq.
  - destruct (IH (p ++ [e])) as (p' & r' & -> & Happ & H1 & H2); [done| |done|].
    { apply Forall_app. split; [done|]. constructor; [lia|done]. }
    exists p', r'. rewrite <-app_assoc in Happ. done.
  - exists p, (e :: r). repeat split; [done|]. constructor; [lia|].
    eapply Forall_impl; [exact He|]. intros x Hx. unfold timer_lt, Comparator in Hx.
    revert Hx. repeat case_bool; intros; lia || done.
Qed.

(** The set splits at the current time; ties are expired whatever their address. *)
Lemma expired_split s now tmp (rollover : bool) : wf s → tmp ∉ m_timers s →
  ∃ p r : list Z, (if rollover then (m_timers s, [])
          else lower_bound (timer_lt (<[tmp := Timer_at now]> (heap s))) tmp (m_timers s)) = (p, r) ∧
  ∃ ex rest, skip_equal (heap s) now p r = (ex, rest) ∧ m_timers s = ex ++ rest ∧
    Forall (λ a, rollover = true ∨ next_at (heap s) a ≤ now) ex ∧
    Forall (λ a, rollover = false ∧ now < next_at (heap s) a) rest.
Proof.
  intros Hwf Htmp. pose proof (wf_ordered _ Hwf) as Ho. destruct rollover.
  { exists (m_timers s), (@nil Z). split; [done|]. exists (m_timers s), (@nil Z). rewrite app_nil_r.
    repeat split; [|constructor]. apply Forall_forall. by left. }
  destruct (lower_bound _ tmp (m_timers s)) as [p r] eqn:Hlb. exists p, r. split; [done|].
  pose proof (ordered_store _ tmp (Timer_at now) _ Htmp Ho) as Ho'.
  destruct (lower_bound_spec _ _ _ _ _ Ho' Hlb) as (Hl & Hp & Hr).
  assert (Hkey : ∀ e, e ∈ m_timers s → timer_lt (<[tmp := Timer_at now]> (heap s)) e tmp
     = if next_at (heap s) e <? now then true else if now <? next_at (heap s) e then false else e <? tmp).
  { intros e He. unfold timer_lt, Comparator, next_at. rewrite lookup_insert_eq, lookup_insert_ne by (intros ->; done). done. }
  destruct (skip_equal_ok (heap s) now r p) as (ex & rest & -> & Happ & H1 & H2).
  - rewrite Hl in Ho. apply (sorted_app (timer_lt (heap s))) in Ho as (_ & Ho & _). exact Ho.
  - rewrite !Forall_forall in *. intros e He. specialize (Hp e He). rewrite Hkey in Hp by (rewrite Hl; apply elem_of_app; by left).
    revert Hp. cbv beta; repeat case_bool; intros; first [done|lia].
  - rewrite !Forall_forall in *. intros e He. specialize (Hr e He). rewrite Hkey in Hr by (rewrite Hl; apply elem_of_app; by right).
    revert Hr. cbv beta; repeat case_bool; intros; first [done|lia].
  - exists ex, rest. rewrite Happ. repeat split; [done| |].
    + eapply Forall_impl; [exact H1|]. intros; by right.
    + eapply Forall_impl; [exact H2|]. done.
Qed.

(** ** The properties *)
(** The clock went back by more than an hour (or at all, within the first hour). *)
Definition rolled_over (s : TimerManager) (now : Z) : bool :=
  (now <? m_previouseTime s) && ((m_previouseTime s <? 3600000) || (now <? m_previouseTime s - 3600000)).

Lemma detectClockRollover_eq now s : is_u64 now → is_u64 (m_previouseTime s) →
  detectClockRollover now s = Done (set_previouse now s) (rolled_over s now).
Proof.
  intros Hn Hp. unfold is_u64 in *. unfold rolled_over.
  change (detectClockRollover now s) with (Done (set_previouse now s)
    ((now <? m_previouseTime s) && (now <? u64 (m_previouseTime s - 3600000)))).
  f_equal. destruct (now <? m_previouseTime s) eqn:Hlt; [|done]. cbn [andb].
  destruct (m_previouseTime s <? 3600000) eqn:H1; cbn [orb].
  - assert (u64 (m_previouseTime s - 3600000) = m_previouseTime s - 3600000 + 2 ^ 64) as ->; [|lia].
    unfold u64. rewrite <-(Z.mod_add _ 1) by lia. rewrite Z.mod_small; lia.
  - rewrite u64_small by lia. done.
Qed.

Definition expiry (s : TimerManager) (now : Z) (ex rest : list Z) : Prop :=
  m_timers s = ex ++ rest ∧
  Forall (λ a, rolled_over s now = true ∨ next_at (heap s) a ≤ now) ex ∧
  Forall (λ a, rolled_over s now = false ∧ now < next_at (heap s) a) rest.

Lemma fired_wf s ex rest now h l b k n : wf s → m_timers s = ex ++ rest →
  (∀ a, h !! a = if decide (a ∈ ex) then rearmed now <$> heap s !! a else heap s !! a) →
  ordered h l → (∀ y, y ∈ l ↔ y ∈ rest ∨ (y ∈ ex ∧ recurs (heap s) y = true)) →
  wf (mkTimerManager h l b k n).
Proof.
  intros Hwf Hex Hh Ho Hl. pose proof (sorted_NoDup _ _ (wf_ordered _ Hwf)) as Hnd. rewrite Hex in Hnd.
  apply NoDup_app in Hnd as (_ & Hdis & _). split; cbn; [done| |].
  - intros y. rewrite Hl. destruct (decide (y ∈ ex)) as [Hy|Hy].
    + assert (armed (heap s) y) as (t & Ht & Hcb) by (apply (wf_armed _ Hwf); rewrite Hex; apply elem_of_app; by left).
      pose proof (Hdis y Hy) as Hnr. unfold armed, recurs. rewrite Hh, decide_True, Ht by done. cbn. unfold rearmed.
      split.
      * intros [?|[_ Hr]]; [done|]. rewrite Hr. eexists; split; [done|]. done.
      * intros (t' & [= <-] & Hc). right. split; [done|]. by destruct (m_recurring t).
    + unfold armed. rewrite Hh, decide_False by done. rewrite <-(wf_armed _ Hwf y : _ ↔ _), Hex, elem_of_app. tauto.
  - intros x t. rewrite Hh. case_decide; [|apply (wf_range _ Hwf)].
    destruct (heap s !! x) as [t0|] eqn:E; [|done]. cbn. intros [= <-]. unfold rearmed.
    destruct (m_recurring t0); cbn; [apply u64_range|by eapply (wf_range _ Hwf)].
Qed.

Lemma listExpiredCb_ok s now tmp : wf s → is_u64 now → is_u64 (m_previouseTime s) → tmp ∉ m_timers s →
  ∃ ex rest s', listExpiredCb now tmp s = Done s' (cb_at (heap s) <$> ex) ∧ expiry s now ex rest ∧ wf s' ∧
    (∀ a, heap s' !! a = if decide (a ∈ ex) then rearmed now <$> heap s !! a else heap s !! a) ∧
    (∀ y, y ∈ m_timers s' ↔ y ∈ rest ∨ (y ∈ ex ∧ recurs (heap s) y = true)) ∧ is_u64 (m_previouseTime s').
Proof.
  intros Hwf Hnow Hprev Htmp.
  destruct (m_timers s) as [|front l0] eqn:Hts.
  { exists [], [], s. split; [unfold listExpiredCb; erewrite bind_done; [|done]; by rewrite Hts|].
    split; [by repeat split|]. split; [done|]. split; [done|]. split; [rewrite Hts; set_solver|done]. }
  set (s1 := set_previouse now s). assert (Hwf1 : wf s1) by (destruct Hwf; by split).
  destruct (expired_split s1 now tmp (rolled_over s now) Hwf1) as (p & r & Hpr & ex & rest & Hsk & Hl & Hex & Hre);
    [cbn; by rewrite Hts|].
  cbn [heap m_timers s1 set_previouse] in Hpr, Hsk, Hl, Hex, Hre.
  pose proof (sorted_NoDup _ _ (wf_ordered _ Hwf)) as Hnd. rewrite Hl in Hnd.
  pose proof (wf_ordered _ Hwf) as Ho. rewrite Hl in Ho. apply (sorted_app (timer_lt (heap s))) in Ho as (_ & Ho & _).
  destruct (fire_ok now ex (set_timers rest s1)) as (h & l & Hf & Hh & Hol & Hll).
  { by apply NoDup_app in Hnd as (? & _). }
  { intros a Ha. cbn. apply NoDup_app in Hnd as (_ & Hd & _). split; [by apply Hd|].
    assert (armed (heap s) a) as (t & Ht & _); [|by exists t]. apply (wf_armed _ Hwf). rewrite Hl. apply elem_of_app. by left. }
  { exact Ho. }
  assert (Hrun : listExpiredCb now tmp s = Done (set_timers l (set_heap h (set_timers rest s1))) (cb_at (heap s) <$> ex)).
  { unfold listExpiredCb. erewrite bind_done; [|done]. rewrite Hts.
    erewrite bind_done; [|by apply detectClockRollover_eq]. erewrite bind_done; [|done].
    cbn [heap set_previouse m_timers]. destruct (negb (rolled_over s now) && _) eqn:Hearly.
    - (* nothing is due: the split has no expired part *)
      assert (ex = []) as ->.
      { destruct ex as [|e ex]; [done|]. apply Forall_inv in Hex. rewrite Hts in Hl. injection Hl as <- _.
        destruct (rolled_over s now); [done|]. destruct Hex; [done|]. cbn in Hearly. lia. }
      cbn in Hf. injection Hf as <- <-. rewrite app_nil_l in Hl. unfold mret, M_ret. f_equal. unfold s1. destruct s; cbn in *. by subst.
    - rewrite Hpr, Hsk. erewrite bind_done; [|done]. exact Hf. }
  exists ex, rest. eexists. split; [exact Hrun|]. split; [by repeat split|]. split; [|done].
  apply (fired_wf s ex rest now); done.
Qed.

(** The operations as a client sees them. *)
Inductive op :=
| OpCancel (a : Z) | OpRefresh (now a : Z) | OpReset (now a ms : Z) (from_now : bool)
| OpAdd (now a ms : Z) (cb : callback) (recurring : bool)
| OpAddCondition (now a ms : Z) (cb : callback) (weak_cond : Z) (recurring : bool)
| OpNext (now : Z) | OpExpired (now tmp : Z).
Definition run_op (o : op) : M TimerManager () :=
  match o with
  | OpCancel a => cancel a ;; mret ()
  | OpRefresh now a => refresh now a ;; mret ()
  | OpReset now a ms b => reset now a ms b ;; mret ()
  | OpAdd now a ms cb r => addTimer now a ms cb r ;; mret ()
  | OpAddCondition now a ms cb w r => addConditionTimer now a ms cb w r ;; mret ()
  | OpNext now => getNextTimer now ;; mret ()
  | OpExpired now tmp => listExpiredCb now tmp ;; mret ()
  end.
(** The handles are those of timers that were added, [new] returns fresh
    addresses, callbacks are not empty, times are of type [uint64_t]. *)
Definition op_ok (o : op) (s : TimerManager) : Prop :=
  match o with
  | OpCancel a | OpRefresh _ a | OpReset _ a _ _ => is_Some (heap s !! a)
  | OpAdd _ a _ cb _ => heap s !! a = None ∧ cb_bool cb = true
  | OpAddCondition _ a _ _ _ _ => heap s !! a = None
  | OpNext _ => True
  | OpExpired now tmp => heap s !! tmp = None ∧ is_u64 now ∧ is_u64 (m_previouseTime s)
  end.

(** The delay [getNextTimer] reports. *)
Definition next_delay (s : TimerManager) (now : Z) : Z :=
  match m_timers s with
  | [] => u64 (-1)
  | next :: _ => if now >=? next_at (heap s) next then 0 else u64 (next_at (heap s) next - now)
  end.
Lemma getNextTimer_eq now s : getNextTimer now s = Done (set_tickled false s) (next_delay s now).
Proof.
  unfold getNextTimer, next_delay. erewrite bind_done; [|done]. erewrite bind_done; [|done].
  cbn [m_timers set_tickled heap]. destruct (m_timers s); [done|]. by case_bool.
Qed.

Lemma op_step {A} (m : M TimerManager A) s s' v : m s = Done s' v → wf s' →
  ∃ s', (m ;; mret ()) s = Done s' () ∧ wf s'.
Proof. intros Hm Hwf. exists s'. split; [by erewrite bind_done; [|exact Hm]|done]. Qed.

Lemma run_op_cases o s : wf s → op_ok o s → ∃ s', run_op o s = Done s' () ∧ wf s'.
Proof.
  intros Hwf Hok. destruct o; cbn [run_op op_ok] in *.
  - destruct Hok as [t Ht]. destruct (cb_bool (m_cb t)) eqn:Hcb.
    + destruct (cancel_ok s a t Hwf Ht Hcb) as (l & Hr & Hw & _). by eapply op_step.
    + eapply op_step; [apply (idle_ok s a t 0 0 false Ht Hcb)|done].
  - destruct Hok as [t Ht]. destruct (cb_bool (m_cb t)) eqn:Hcb.
    + destruct (refresh_ok s a t now Hwf Ht Hcb) as (l & Hr & Hw & _). by eapply op_step.
    + eapply op_step; [apply (idle_ok s a t now 0 false Ht Hcb)|done].
  - destruct Hok as [t Ht]. destruct (cb_bool (m_cb t)) eqn:Hcb.
    + destruct ((ms =? m_ms t) && negb from_now) eqn:Hms.
      * eapply op_step; [unfold reset; erewrite bind_done; [|unfold timer_of; by rewrite Ht]; by rewrite Hms|done].
      * destruct (reset_ok s a t now ms from_now Hwf Ht Hcb Hms) as (l & b & n & Hr & Hw & _). by eapply op_step.
    + destruct (idle_ok s a t now ms from_now Ht Hcb) as (_ & _ & b & Hr). by eapply op_step.
  - destruct Hok as [Ha Hcb]. destruct (addTimer_ok s now a ms cb recurring Hwf Ha Hcb) as (Hr & Hw & _). by eapply op_step.
  - destruct (addTimer_ok s now a ms (OnTimerCb weak_cond cb) recurring Hwf Hok) as (Hr & Hw & _); [done|].
    by eapply op_step.
  - eapply op_step; [apply getNextTimer_eq|by destruct Hwf].
  - destruct Hok as (Htmp & Hn & Hp). destruct (listExpiredCb_ok s now tmp Hwf Hn Hp) as (ex & rest & s' & Hr & _ & Hw & _).
    + rewrite (wf_armed _ Hwf). intros (t & Ht & _). congruence.
    + by eapply op_step.
Qed.

Fixpoint run_ops (os : list op) : M TimerManager () :=
  match os with [] => mret () | o :: os => run_op o ;; run_ops os end.
Fixpoint ops_ok (os : list op) (s : TimerManager) : Prop :=
  match os with
  | [] => True
  | o :: os => op_ok o s ∧ ∀ s', run_op o s = Done s' () → ops_ok os s'
  end.

(** C12: the manager's set always holds exactly the timers that have a callback,
    ordered by deadline and address, and no operation reaches the undefined
    [erase(end())] of [cancel]: every sequence of operations on live handles
    runs to completion and keeps the invariant. *)
Theorem timer_ops_safe os s : wf s → ops_ok os s → ∃ s', run_ops os s = Done s' () ∧ wf s'.
Proof.
  revert s. induction os as [|o os IH]; intros s Hwf Hok; [by exists s|].
  destruct Hok as [Ho Hrest]. destruct (run_op_cases o s Hwf Ho) as (s1 & Hr & Hw).
  destruct (IH s1 Hw (Hrest s1 Hr)) as (s' & Hr' & Hw'). exists s'. cbn [run_ops].
  by erewrite bind_done; [|exact Hr].
Qed.

(** C13: [listExpiredCb] returns, in deadline order, the callbacks of exactly
    the timers whose deadline has passed (of all timers when the clock was set
    back by more than an hour); the recurring ones among them are armed again
    one period after now, the others lose their callback and leave the set, and
    no other timer is touched. *)
Theorem listExpiredCb_spec s now tmp : wf s → is_u64 now → is_u64 (m_previouseTime s) → tmp ∉ m_timers s →
  ∃ ex rest s', listExpiredCb now tmp s = Done s' (cb_at (heap s) <$> ex) ∧
    m_timers s = ex ++ rest ∧
    Forall (λ a, rolled_over s now = true ∨ next_at (heap s) a ≤ now) ex ∧
    Forall (λ a, rolled_over s now = false ∧ now < next_at (heap s) a) rest ∧ wf s' ∧
    (∀ a, heap s' !! a = if decide (a ∈ ex) then rearmed now <$> heap s !! a else heap s !! a) ∧
    (∀ y, y ∈ m_timers s' ↔ y ∈ rest ∨ (y ∈ ex ∧ recurs (heap s) y = true)).
Proof.
  intros Hwf Hn Hp Htmp. destruct (listExpiredCb_ok s now tmp Hwf Hn Hp Htmp) as (ex & rest & s' & Hr & (H1 & H2 & H3) & H4 & H5 & H6 & _).
  by exists ex, rest, s'.
Qed.

(** The idle loop neither oversleeps nor wakes for nothing: no deadline
    lies before the end of the delay [getNextTimer] returns, and listing the
    expired callbacks after that delay yields at least one. *)
Theorem getNextTimer_exact s now tmp : wf s → is_u64 now → is_u64 (m_previouseTime s) → tmp ∉ m_timers s →
  m_timers s ≠ [] →
  ∃ n s1, getNextTimer now s = Done s1 n ∧ 0 ≤ n ∧
    (0 < n → ∀ a, a ∈ m_timers s → now + n ≤ next_at (heap s) a) ∧
    (is_u64 (now + n) → ∃ s2 cbs, listExpiredCb (now + n) tmp s1 = Done s2 cbs ∧ cbs ≠ []).
Proof.
  intros Hwf Hn Hp Htmp Hne. exists (next_delay s now), (set_tickled false s). split; [apply getNextTimer_eq|].
  unfold next_delay. destruct (m_timers s) as [|a l] eqn:Hts; [done|].
  assert (Hu : is_u64 (next_at (heap s) a)).
  { unfold next_at. destruct (heap s !! a) eqn:Ha; [by eapply (wf_range _ Hwf)|cbn; unfold is_u64; lia]. }
  unfold is_u64 in Hn, Hu. destruct (now >=? next_at (heap s) a) eqn:Hdue; [|rewrite u64_small by lia].
  all: split; [lia|]; split.
  - lia.
  - rewrite Z.add_0_r. intros _. destruct (listExpiredCb_ok (set_tickled false s) now tmp) as (ex & rest & s' & Hr & (H1 & H2 & H3) & _);
      [by destruct Hwf|done|done|cbn; by rewrite Hts|].
    exists s'. eexists. split; [exact Hr|]. destruct ex as [|e ex]; [|done]. cbn in H1. rewrite Hts in H1.
    rewrite <-H1 in H3. apply Forall_inv in H3. cbn in H3. lia.
  - intros _ x Hx. pose proof (wf_ordered _ Hwf) as Ho. rewrite Hts in Ho. apply StronglySorted_inv in Ho as [_ Ho].
    apply elem_of_cons in Hx as [->|Hx]; [lia|]. rewrite Forall_forall in Ho. specialize (Ho x Hx).
    revert Ho. unfold timer_lt, Comparator. repeat case_bool; intros; first [done|lia].
  - intros Hu'. destruct (listExpiredCb_ok (set_tickled false s) (now + (next_at (heap s) a - now)) tmp)
      as (ex & rest & s' & Hr & (H1 & H2 & H3) & _); [by destruct Hwf|done|done|cbn; by rewrite Hts|].
    exists s'. eexists. split; [exact Hr|]. destruct ex as [|e ex]; [|done]. cbn in H1. rewrite Hts in H1.
    rewrite <-H1 in H3. apply Forall_inv in H3. cbn in H3. lia.
Qed.

(** Adding a timer arms it one period from now, leaves the others alone, and
    wakes the idle thread exactly when the new deadline precedes all the others
    and no wake-up is pending since the last [getNextTimer]; a condition timer
    runs its callback only while the condition's owner is alive. *)
Theorem addTimer_spec s now a ms cb recurring : wf s → heap s !! a = None → cb_bool cb = true →
  ∃ s', addTimer now a ms cb recurring s = Done s' a ∧ wf s' ∧
    heap s' = <[a := Timer_new now ms cb recurring]> (heap s) ∧
    (∀ y, y ∈ m_timers s' ↔ y = a ∨ y ∈ m_timers s) ∧
    (inserted_front s' = S (inserted_front s) ∧ m_tickled s' = true ∨
     inserted_front s' = inserted_front s ∧ m_tickled s' = m_tickled s) ∧
    (inserted_front s' ≠ inserted_front s ↔
     m_tickled s = false ∧ ∀ y, y ∈ m_timers s → timer_lt (heap s') a y = true).
Proof.
  intros Hwf Ha Hcb. destruct (addTimer_ok s now a ms cb recurring Hwf Ha Hcb) as (Hr & Hw & Hm & Hf).
  eexists. split; [exact Hr|]. split; [exact Hw|]. split; [done|]. split; [exact Hm|].
  unfold after_insert. cbn. set (ins := (set_insert _ a (m_timers s)).2) in *.
  destruct (m_tickled s), ins eqn:Hi; cbn; (split; [auto|]); split; intros Hx; try done.
  - by destruct Hx.
  - by destruct Hx.
  - split; [done|]. by apply Hf.
  - destruct Hx as [_ Hx]. apply Hf in Hx. congruence.
Qed.

(** ** Witnesses *)
Definition manager0 : TimerManager := TimerManager_new 10000000.
Lemma manager0_wf : wf manager0.
Proof.
  split; cbn; [constructor| |].
  - intros a. split; [set_solver|]. intros (t & Ht & _). by rewrite lookup_empty in Ht.
  - intros a t Ht. by rewrite lookup_empty in Ht.
Qed.
(** A one-shot and a recurring timer with the same deadline. *)
Definition manager2 : TimerManager :=
  mkTimerManager (<[2 := mkTimer true 50 10000050 (UserCb 8)]> (<[1 := mkTimer false 50 10000050 (UserCb 7)]> ∅))
    [1; 2] true 10000000 1.
Lemma manager2_wf : wf manager2.
Proof.
  split; cbn.
  - repeat constructor.
  - intros a. rewrite !armed_insert. split.
    + intros Ha. apply elem_of_cons in Ha as [->|Ha]; [right; split; [done|by left]|].
      apply list_elem_of_singleton in Ha as ->. by left.
    + intros [[-> _]|[_ [[-> _]|[_ (t & Ht & _)]]]]; [set_solver..|]. by rewrite lookup_empty in Ht.
  - intros a t. repeat (apply range_insert; [|unfold is_u64; cbn; lia]). intros x t'. by rewrite lookup_empty.
Qed.

Lemma timer_ops_safe_witness : ∃ s', run_ops [OpAdd 10000000 1 50 (UserCb 7) false; OpCancel 1] manager0 = Done s' () ∧ wf s'.
Proof.
  apply timer_ops_safe; [apply manager0_wf|]. split; [done|]. intros s' H. vm_compute in H. injection H as <-.
  split; [|done]. eexists. vm_compute. reflexivity.
Defined.

Lemma listExpiredCb_spec_witness : ∃ s', listExpiredCb 10000050 9 manager2 = Done s' [UserCb 7; UserCb 8] ∧
  m_timers s' = [2] ∧ wf s'.
Proof.
  assert (∃ s', listExpiredCb 10000050 9 manager2 = Done s' [UserCb 7; UserCb 8] ∧ m_timers s' = [2]) as (s1 & H1 & H2)
    by (eexists; split; [vm_compute; reflexivity|reflexivity]).
  destruct (listExpiredCb_spec manager2 10000050 9) as (ex & rest & s' & Hr & _ & _ & _ & Hw & _);
    [apply manager2_wf|unfold is_u64; lia|unfold is_u64; cbn; lia|cbn; set_solver|].
  rewrite H1 in Hr. injection Hr as <- _. by exists s1.
Defined.

Lemma getNextTimer_exact_witness : ∃ s1, getNextTimer 10000020 manager2 = Done s1 30 ∧
  ∃ s2 cbs, listExpiredCb 10000050 9 s1 = Done s2 cbs ∧ cbs ≠ [].
Proof.
  destruct (getNextTimer_exact manager2 10000020 9) as (n & s1 & Hr & _ & _ & Hl);
    [apply manager2_wf|unfold is_u64; lia|unfold is_u64; cbn; lia|cbn; set_solver|done|].
  exists s1. vm_compute in Hr. injection Hr as <- <-. split; [reflexivity|]. apply Hl. unfold is_u64. lia.
Defined.

Lemma addTimer_spec_witness : ∃ s', addTimer 10000000 1 50 (UserCb 7) false manager0 = Done s' 1 ∧ inserted_front s' = 1%nat.
Proof.
  destruct (addTimer_spec manager0 10000000 1 50 (UserCb 7) false) as (s' & Hr & _); [apply manager0_wf|done|done|].
  exists s'. split; [exact Hr|]. vm_compute in Hr. injection Hr as <-. reflexivity.
Defined.
