(* ===== verification/FdManager.v ===== *)
(** * FdManager ([webserve/fd_manager.h], [webserve/fd_manager.cc])

    The table of file-descriptor contexts.  Contexts are shared objects: the
    table holds their addresses and the store their fields.  The kernel is seen
    through [fstat], a parameter, and the descriptor flags, part of the state.
    [get] takes the lock twice, so it is two transitions. *)
From S2P Require Import Prelude.
Open Scope Z_scope.

Definition SO_RCVTIMEO : Z := 20.
Definition SO_SNDTIMEO : Z := 21.
Definition O_NONBLOCK : Z := 2048.

Record FdCtx := mkFdCtx {
  m_isInit : bool; m_isSocket : bool; m_sysNonblock : bool; m_userNonblock : bool; m_isClosed : bool;
  m_fd : Z; m_recvTimeout : Z; m_sendTimeout : Z
}.

Definition setUserNonblock (v : bool) (c : FdCtx) : FdCtx :=
  mkFdCtx (m_isInit c) (m_isSocket c) (m_sysNonblock c) v (m_isClosed c) (m_fd c) (m_recvTimeout c) (m_sendTimeout c).
Definition setSysNonblock (v : bool) (c : FdCtx) : FdCtx :=
  mkFdCtx (m_isInit c) (m_isSocket c) v (m_userNonblock c) (m_isClosed c) (m_fd c) (m_recvTimeout c) (m_sendTimeout c).
Definition set_recvTimeout (v : Z) (c : FdCtx) : FdCtx :=
  mkFdCtx (m_isInit c) (m_isSocket c) (m_sysNonblock c) (m_userNonblock c) (m_isClosed c) (m_fd c) v (m_sendTimeout c).
Definition set_sendTimeout (v : Z) (c : FdCtx) : FdCtx :=
  mkFdCtx (m_isInit c) (m_isSocket c) (m_sysNonblock c) (m_userNonblock c) (m_isClosed c) (m_fd c) (m_recvTimeout c) v.

(** [FdCtx::setTimeout] and [FdCtx::getTimeout] *)
Definition setTimeout (type v : Z) (c : FdCtx) : FdCtx :=
  if type =? SO_RCVTIMEO then set_recvTimeout v c else set_sendTimeout v c.
Definition getTimeout (type : Z) (c : FdCtx) : Z :=
  if type =? SO_RCVTIMEO then m_recvTimeout c else m_sendTimeout c.

Record FdManager := mkFdManager {
  ctxs : gmap Z FdCtx;           (* the contexts, by address *)
  m_datas : list (option Z);     (* the table: null or an address *)
  fd_flags : gmap Z Z            (* the kernel's F_GETFL value of each descriptor *)
}.

Section fd_manager.
(** [fstat(fd)]: an error, or whether the file is a socket. *)
Context (fstat : Z → option bool).

(** [FdCtx::init] on a context whose [m_isInit] is [false]: the new fields and
    the descriptor flags. *)
Definition FdCtx_init (c : FdCtx) (flags : gmap Z Z) : FdCtx * gmap Z Z :=
  if m_isInit c then (c, flags) else
  let isInit := match fstat (m_fd c) with None => false | Some _ => true end in
  let isSocket := match fstat (m_fd c) with None => false | Some b => b end in
  let fl := default 0 (flags !! m_fd c) in
  let flags' := if isSocket then if negb (Z.land fl O_NONBLOCK =? 0) then flags
                                 else <[m_fd c := Z.lor fl O_NONBLOCK]> flags
                else flags in
  (mkFdCtx isInit isSocket isSocket false false (m_fd c) (u64 (-1)) (u64 (-1)), flags').

(** [FdCtx::FdCtx] *)
Definition FdCtx_new (fd : Z) (flags : gmap Z Z) : FdCtx * gmap Z Z :=
  FdCtx_init (mkFdCtx false false false false false fd (u64 (-1)) (u64 (-1))) flags.

(** [FdManager::FdManager] *)
Definition FdManager_new (flags : gmap Z Z) : FdManager := mkFdManager ∅ (replicate 64 None) flags.

(** [std::vector::resize] *)
Definition vec_resize (n : Z) (l : list (option Z)) : list (option Z) :=
  take (Z.to_nat n) l ++ replicate (Z.to_nat n - length l) None.
(** [m_datas[fd]] *)
Definition vec_at (fd : Z) : M FdManager (option Z) := λ s,
  if 0 <=? fd then match m_datas s !! Z.to_nat fd with Some p => Done s p | None => Undef OutOfBounds end
  else Undef OutOfBounds.
Definition vec_store (fd : Z) (p : option Z) : M FdManager () := λ s,
  if (0 <=? fd) && (fd <? zlen (m_datas s))
  then Done (mkFdManager (ctxs s) (<[Z.to_nat fd := p]> (m_datas s)) (fd_flags s)) ()
  else Undef OutOfBounds.

(** The part of [FdManager::get] under the read lock: [Some] of the result when
    it returns there, [None] when it goes on to create the context. *)
Definition get_lookup (fd : Z) (auto_create : bool) : M FdManager (option (option Z)) :=
  s ← Prelude.get;
  if s32 (zlen (m_datas s)) <=? fd then
    mret (if auto_create then None else Some None)
  else
    p ← vec_at fd;
    mret (match p, auto_create with None, true => None | _, _ => Some p end).
(** The part under the write lock; [a] is the address of the new context. *)
Definition get_create (fd a : Z) : M FdManager (option Z) :=
  s ← Prelude.get;
  let '(c, flags) := FdCtx_new fd (fd_flags s) in
  modify (λ s, mkFdManager (<[a := c]> (ctxs s)) (m_datas s) flags) ;;
  (if fd >=? s32 (zlen (m_datas s)) then
     modify (λ s, mkFdManager (ctxs s) (vec_resize (fd * 3 / 2) (m_datas s)) (fd_flags s))
   else mret ()) ;;
  vec_store fd (Some a) ;;
  mret (Some a).
(** [FdManager::get] *)
Definition get (fd a : Z) (auto_create : bool) : M FdManager (option Z) :=
  if fd =? -1 then mret None else
  r ← get_lookup fd auto_create;
  match r with
  | Some p => mret p
  | None => get_create fd a
  end.

(** [FdManager::del] *)
Definition del (fd : Z) : M FdManager () :=
  s ← Prelude.get;
  if s32 (zlen (m_datas s)) <=? fd then mret ()
  else vec_at fd ;; vec_store fd None.

(** ** The invariant and the abstract map *)
Record wf (s : FdManager) : Prop := {
  wf_size : 64 ≤ zlen (m_datas s) < 2 ^ 31;
  wf_entry : ∀ i a, m_datas s !! i = Some (Some a) → ∃ c, ctxs s !! a = Some c ∧ m_fd c = Z.of_nat i
}.
(** The context the table holds for a descriptor. *)
Definition entry (s : FdManager) (fd : Z) : option Z :=
  if fd <? 0 then None else match m_datas s !! Z.to_nat fd with Some p => p | None => None end.

Lemma FdManager_new_wf flags : wf (FdManager_new flags).
Proof.
  split; [change (64 ≤ 64 < 2 ^ 31); lia|]. intros i a Hi. by apply lookup_replicate in Hi as [? _].
Qed.

Lemma vec_resize_lookup n l i : zlen l ≤ n → (i < Z.to_nat n)%nat →
  vec_resize n l !! i = Some (match l !! i with Some p => p | None => None end).
Proof.
  unfold zlen. intros Hn Hi. unfold vec_resize. rewrite take_ge by lia.
  destruct (l !! i) as [p|] eqn:Hl.
  - rewrite lookup_app_l by (by eapply lookup_lt_Some). done.
  - apply lookup_ge_None in Hl. rewrite lookup_app_r by done. apply lookup_replicate_2. lia.
Qed.
Lemma zlen_vec_resize n l : zlen l ≤ n → zlen (vec_resize n l) = n.
Proof.
  unfold zlen, vec_resize. intros. rewrite length_app, length_take, length_replicate. lia.
Qed.

Lemma entry_in s fd : 0 ≤ fd < zlen (m_datas s) → m_datas s !! Z.to_nat fd = Some (entry s fd).
Proof.
  intros Hfd. unfold entry. replace (fd <? 0) with false by lia.
  destruct (m_datas s !! Z.to_nat fd) eqn:E; [done|]. apply lookup_ge_None in E. unfold zlen in Hfd. lia.
Qed.

Lemma entry_out s fd : zlen (m_datas s) ≤ fd → entry s fd = None.
Proof.
  intros Hfd. unfold entry. case_bool; [done|]. rewrite lookup_ge_None_2; [done|]. unfold zlen in Hfd. lia.
Qed.

Lemma get_lookup_ok s fd auto_create : wf s → 0 ≤ fd < 2 ^ 31 →
  get_lookup fd auto_create s
  = Done s (match entry s fd, auto_create with None, true => None | p, _ => Some p end).
Proof.
  intros Hwf Hfd. pose proof (wf_size _ Hwf) as Hz. unfold get_lookup. erewrite bind_done; [|done].
  rewrite s32_small by lia. destruct (zlen (m_datas s) <=? fd) eqn:Hle.
  - rewrite entry_out by lia. by destruct auto_create.
  - pose proof (entry_in s fd ltac:(lia)) as He. erewrite bind_done; [|unfold vec_at; if_true; by rewrite He].
    destruct (entry s fd), auto_create; done.
Qed.

(** What creating the context of [fd] at address [a] does to the table. *)
Definition created (s s' : FdManager) (fd a : Z) : Prop :=
  wf s' ∧ entry s' fd = Some a ∧ (∀ x, x ≠ fd → entry s' x = entry s x) ∧
  ctxs s' = <[a := (FdCtx_new fd (fd_flags s)).1]> (ctxs s) ∧
  fd_flags s' = (FdCtx_new fd (fd_flags s)).2 ∧
  (∀ c, ctxs s' !! a = Some c → m_fd c = fd).

Lemma FdCtx_new_fd fd flags : m_fd (FdCtx_new fd flags).1 = fd.
Proof. done. Qed.

Lemma get_create_ok s fd a : wf s → 0 ≤ fd → fd * 3 / 2 < 2 ^ 31 → ctxs s !! a = None →
  ∃ s', get_create fd a s = Done s' (Some a) ∧ created s s' fd a.
Proof.
  intros Hwf Hfd Hbd Ha. pose proof (wf_size _ Hwf) as Hz. unfold get_create, created.
  erewrite bind_done; [|done]. destruct (FdCtx_new fd (fd_flags s)) as [c fl] eqn:Hc.
  assert (Hfc : m_fd c = fd) by (rewrite <-(FdCtx_new_fd fd (fd_flags s)); by rewrite Hc).
  erewrite bind_done; [|done]. rewrite s32_small by lia.
  set (l := if fd >=? zlen (m_datas s) then vec_resize (fd * 3 / 2) (m_datas s) else m_datas s).
  assert (Hdiv : zlen (m_datas s) ≤ fd → zlen (m_datas s) ≤ fd * 3 / 2 ∧ fd < fd * 3 / 2).
  { intros Hge. assert (fd + 1 ≤ fd * 3 / 2) by (apply Z.div_le_lower_bound; lia). lia. }
  assert (Hl : zlen (m_datas s) ≤ zlen l ∧ fd < zlen l ∧ zlen l < 2 ^ 31 ∧
    ∀ i, (i < length l)%nat → l !! i = Some (match m_datas s !! i with Some p => p | None => None end)).
  { unfold l. destruct (fd >=? zlen (m_datas s)) eqn:Hge.
    - destruct Hdiv as [H1 H2]; [lia|]. rewrite zlen_vec_resize by done. repeat split; [lia..|].
      intros i Hi. apply vec_resize_lookup; [done|]. pose proof (zlen_vec_resize (fd * 3 / 2) (m_datas s) H1) as Hv. unfold zlen in Hv. lia.
    - repeat split; [lia..|]. intros i Hi. destruct (lookup_lt_is_Some_2 _ _ Hi) as [p ->]. done. }
  destruct Hl as (Hl1 & Hl2 & Hl3 & Hl4).
  exists (mkFdManager (<[a := c]> (ctxs s)) (<[Z.to_nat fd := Some a]> l) fl). split.
  { erewrite (bind_done _ _ _ (mkFdManager (<[a := c]> (ctxs s)) l fl) ()); [|by unfold l; destruct (fd >=? _)].
    erewrite bind_done; [|unfold vec_store; cbn [m_datas]; by if_true]. done. }
  assert (Hlen : (Z.to_nat fd < length l)%nat) by (unfold zlen in Hl2; lia).
  assert (Hent : ∀ x, entry (mkFdManager (<[a := c]> (ctxs s)) (<[Z.to_nat fd := Some a]> l) fl) x
    = if decide (x = fd) then Some a else entry s x).
  { intros x. unfold entry. cbn. destruct (x <? 0) eqn:Hx; [rewrite decide_False by lia; done|].
    case_decide as Hxf; [subst; by rewrite list_lookup_insert_eq|].
    rewrite list_lookup_insert_ne by lia. destruct (decide (Z.to_nat x < length l)%nat).
    - by rewrite Hl4.
    - rewrite lookup_ge_None_2 by lia. rewrite lookup_ge_None_2; [done|]. unfold zlen in Hl1. lia. }
  split; [|split; [by rewrite Hent, decide_True|split; [intros x Hx; by rewrite Hent, decide_False|]]].
  - split; cbn.
    + unfold zlen in *. rewrite length_insert. lia.
    + intros i b Hi. destruct (decide (i = Z.to_nat fd)) as [->|Hne].
      * rewrite list_lookup_insert_eq in Hi by done. injection Hi as <-. exists c. rewrite lookup_insert_eq. split; [done|lia].
      * rewrite list_lookup_insert_ne in Hi by done. rewrite Hl4 in Hi by (by eapply lookup_lt_Some).
        destruct (m_datas s !! i) as [p|] eqn:E; [|done]. injection Hi as ->.
        destruct (wf_entry _ Hwf i b E) as (c' & Hc' & Hf). exists c'. rewrite lookup_insert_ne; [done|].
        intros ->. congruence.
  - cbn. split; [done|]. split; [done|]. intros c'. rewrite lookup_insert_eq. by intros [= <-].
Qed.

Lemma del_ok s fd : wf s → 0 ≤ fd →
  ∃ s', del fd s = Done s' () ∧ wf s' ∧ entry s' fd = None ∧ (∀ x, x ≠ fd → entry s' x = entry s x) ∧
    ctxs s' = ctxs s.
Proof.
  intros Hwf Hfd. pose proof (wf_size _ Hwf) as Hz. unfold del. erewrite bind_done; [|done].
  rewrite s32_small by lia. destruct (zlen (m_datas s) <=? fd) eqn:Hle.
  { exists s. repeat split; try done; try apply Hwf. rewrite entry_out; [done|lia]. }
  pose proof (entry_in s fd ltac:(lia)) as He. erewrite bind_done; [|unfold vec_at; if_true; by rewrite He].
  eexists. split; [unfold vec_store; by if_true|].
  assert (Hlen : (Z.to_nat fd < length (m_datas s))%nat) by (unfold zlen in Hle; lia).
  split; [split; cbn|].
  - unfold zlen in *. rewrite length_insert. lia.
  - intros i a Hi. destruct (decide (i = Z.to_nat fd)) as [->|Hne]; [by rewrite list_lookup_insert_eq in Hi|].
    rewrite list_lookup_insert_ne in Hi by done. by apply (wf_entry _ Hwf).
  - split; [|split; [|done]].
    + unfold entry. cbn. case_bool; [lia|]. by rewrite list_lookup_insert_eq.
    + intros x Hx. unfold entry. cbn. case_bool; [done|]. rewrite list_lookup_insert_ne; [done|lia].
Qed.

(** [get] is a lookup in the map from descriptors to contexts, which creates
    the context exactly when it is missing and [auto_create] is set - growing the
    table, keeping every other entry - and [del] removes the entry; [get(-1)] is
    null.  A second [get] returns the same context. *)
Theorem fd_manager_map s fd a auto_create : wf s → 0 ≤ fd → fd * 3 / 2 < 2 ^ 31 → ctxs s !! a = None →
  get (-1) a auto_create s = Done s None ∧
  match entry s fd with
  | Some p => get fd a auto_create s = Done s (Some p)
  | None =>
      if auto_create then ∃ s', get fd a true s = Done s' (Some a) ∧ created s s' fd a ∧
        ∀ b, get fd b true s' = Done s' (Some a)
      else get fd a false s = Done s None
  end ∧
  ∃ s', del fd s = Done s' () ∧ wf s' ∧ entry s' fd = None ∧ ∀ x, x ≠ fd → entry s' x = entry s x.
Proof.
  intros Hwf Hfd Hbd Ha. assert (Hfd' : 0 ≤ fd < 2 ^ 31).
  { pose proof (Z.div_le_lower_bound (fd * 3) 2 fd). lia. }
  assert (Hget : ∀ s x ac, wf s → get fd x ac s =
    match entry s fd, ac with None, true => get_create fd x s | p, _ => Done s p end).
  { intros s0 x ac Hw. unfold get. if_false. erewrite bind_done; [|by apply get_lookup_ok].
    by destruct (entry s0 fd), ac. }
  split; [done|]. split.
  - rewrite Hget by done. destruct (entry s fd) eqn:He; [done|]. destruct auto_create; [|rewrite Hget by done; by rewrite He].
    destruct (get_create_ok s fd a Hwf Hfd Hbd Ha) as (s' & Hr & Hc). exists s'.
    rewrite Hget, He by done. split; [exact Hr|]. split; [exact Hc|]. intros b. rewrite Hget by apply Hc.
    destruct Hc as (_ & -> & _). done.
  - destruct (del_ok s fd Hwf Hfd) as (s' & H1 & H2 & H3 & H4 & _). by exists s'.
Qed.

(** Two threads that both look a missing descriptor up before either creates
    it get different contexts, and the table keeps only the later one: [get] does
    not look again under the write lock. *)
Theorem get_race s fd a1 a2 : wf s → 0 ≤ fd → fd * 3 / 2 < 2 ^ 31 → ctxs s !! a1 = None → ctxs s !! a2 = None →
  a1 ≠ a2 → entry s fd = None →
  get_lookup fd true s = Done s None ∧
  ∃ s1 s2, get_create fd a1 s = Done s1 (Some a1) ∧ get_create fd a2 s1 = Done s2 (Some a2) ∧
    entry s2 fd = Some a2 ∧ is_Some (ctxs s2 !! a1).
Proof.
  intros Hwf Hfd Hbd H1 H2 Hne He. assert (Hfd' : 0 ≤ fd < 2 ^ 31).
  { pose proof (Z.div_le_lower_bound (fd * 3) 2 fd). lia. }
  split; [rewrite get_lookup_ok by done; by rewrite He|].
  destruct (get_create_ok s fd a1 Hwf Hfd Hbd H1) as (s1 & Hr1 & Hw1 & _ & _ & Hc1 & _).
  destruct (get_create_ok s1 fd a2 Hw1 Hfd Hbd) as (s2 & Hr2 & Hw2 & He2 & _ & Hc2 & _).
  { by rewrite Hc1, lookup_insert_ne. }
  exists s1, s2. split; [done|]. split; [done|]. split; [done|].
  rewrite Hc2, lookup_insert_ne, Hc1, lookup_insert_eq by done. done.
Qed.
End fd_manager.

(** ** Witnesses *)
Definition table0 : FdManager := FdManager_new {[100 := 2]}.
Lemma fd_manager_map_witness : ∃ s', get (λ _, Some true) 100 7 true table0 = Done s' (Some 7) ∧
  entry s' 100 = Some 7 ∧ fd_flags s' !! 100 = Some 2050.
Proof.
  destruct (fd_manager_map (λ _, Some true) table0 100 7 true) as (_ & (s' & Hr & Hc & _) & _);
    [apply FdManager_new_wf|lia|reflexivity|reflexivity|].
  exists s'. split; [exact Hr|]. split; [apply Hc|].
  destruct Hc as (_ & _ & _ & _ & -> & _). vm_compute. reflexivity.
Defined.

Lemma get_race_witness : ∃ s1 s2, get_create (λ _, Some true) 5 1 table0 = Done s1 (Some 1) ∧
  get_create (λ _, Some true) 5 2 s1 = Done s2 (Some 2) ∧ entry s2 5 = Some 2.
Proof.
  destruct (get_race (λ _, Some true) table0 5 1 2) as (_ & s1 & s2 & H1 & H2 & H3 & _);
    [apply FdManager_new_wf|lia|reflexivity|reflexivity|reflexivity|lia|reflexivity|].
  by exists s1, s2.
Defined.
