(* ===== verification/Stream.v ===== *)
(** * Stream ([webserve/stream.h], [webserve/stream.cc])

    The abstract byte stream: the virtual operations are the interface [Stream],
    the fixed-size operations are programs over it.  [StreamLaws] is what an
    implementation promises; the theorems use nothing else. *)
From S2P Require Import Prelude.
Open Scope Z_scope.

(** The pure virtual functions, over the state [S] of the implementation. A read
    into memory returns its result and the bytes stored. *)
Class Stream (S : Type) := {
  read : Z → M S (Z * list Z);
  read_ba : Z → M S Z;
  write : list Z → M S Z;
  write_ba : Z → M S Z;
  close : M S ()
}.

(** A successful read has stored [d] at [offset] of a buffer of [size] bytes. *)
Definition stored {S} (size offset : Z) (d : list Z) : M S () := if size <? offset + zlen d then undef OutOfBounds else mret ().
Lemma stored_bind {S B} size offset d (k : () → M S B) s : offset + zlen d ≤ size → (stored size offset d ≫= k) s = k () s.
Proof. intros H. unfold stored. by replace (size <? offset + zlen d) with false by lia. Qed.

Section fix_size.
Context {S : Type} `{!Stream S}.

(** [Stream::readFixSize(void*, size_t)]: the result and the bytes stored; the
    loop reads at [buffer + offset], behind what it has stored. *)
Fixpoint readFixSize_loop (fuel : nat) (left : Z) (stored : list Z) : M S (option Z * list Z) :=
  if left >? 0 then
    match fuel with
    | O => nofuel
    | Datatypes.S fuel =>
        '(len, d) ← read left;
        if len <=? 0 then mret (Some len, stored)
        else readFixSize_loop fuel (s64 (left - len)) (stored ++ d)
    end
  else mret (None, stored).
Definition readFixSize (length : Z) : M S (Z * list Z) :=
  '(early, d) ← readFixSize_loop (Z.to_nat length) (s64 length) [];
  mret (match early with Some len => s32 len | None => s32 length end, d).

(** [Stream::readFixSize(ByteArray::ptr, size_t)] *)
Fixpoint readFixSize_ba_loop (fuel : nat) (left : Z) : M S (option Z) :=
  if left >? 0 then
    match fuel with
    | O => nofuel
    | Datatypes.S fuel =>
        len ← read_ba left;
        if len <=? 0 then mret (Some len) else readFixSize_ba_loop fuel (s64 (left - len))
    end
  else mret None.
Definition readFixSize_ba (length : Z) : M S Z :=
  early ← readFixSize_ba_loop (Z.to_nat length) (s64 length);
  mret (match early with Some len => s32 len | None => s32 length end).

(** [Stream::writeFixSize(const void*, size_t)]: [buffer + offset] is what has
    not been written yet. *)
Fixpoint writeFixSize_loop (fuel : nat) (buffer : list Z) (offset left : Z) : M S (option Z) :=
  if left >? 0 then
    match fuel with
    | O => nofuel
    | Datatypes.S fuel =>
        len ← write (slice offset left buffer);
        if len <=? 0 then mret (Some len)
        else writeFixSize_loop fuel buffer (u64 (offset + len)) (s64 (left - len))
    end
  else mret None.
Definition writeFixSize (buffer : list Z) : M S Z :=
  early ← writeFixSize_loop (length buffer) buffer 0 (s64 (zlen buffer));
  mret (match early with Some len => s32 len | None => s32 (zlen buffer) end).

(** [Stream::writeFixSize(ByteArray::ptr, size_t)] *)
Fixpoint writeFixSize_ba_loop (fuel : nat) (left : Z) : M S (option Z) :=
  if left >? 0 then
    match fuel with
    | O => nofuel
    | Datatypes.S fuel =>
        len ← write_ba left;
        if len <=? 0 then mret (Some len) else writeFixSize_ba_loop fuel (s64 (left - len))
    end
  else mret None.
Definition writeFixSize_ba (length : Z) : M S Z :=
  early ← writeFixSize_ba_loop (Z.to_nat length) (s64 length);
  mret (match early with Some len => s32 len | None => s32 length end).
End fix_size.

(** The contract of the virtual functions: a call returns, with a result that is
    at most what was asked for; a positive result is a number of bytes taken from
    the front of what arrives, or appended to what was sent; [close] closes. *)
Class StreamLaws (S : Type) `{!Stream S} := {
  incoming : S → list Z;
  outgoing : S → list Z;
  stream_closed : S → bool;
  read_law n s : 0 < n → ∃ s' len d, read n s = Done s' (len, d) ∧ len ≤ n ∧ - 2 ^ 31 ≤ len ∧
    outgoing s' = outgoing s ∧
    (if 0 <? len then zlen d = len ∧ incoming s = d ++ incoming s' else incoming s' = incoming s);
  write_law d s : 0 < zlen d → ∃ s' len, write d s = Done s' len ∧ len ≤ zlen d ∧ - 2 ^ 31 ≤ len ∧
    incoming s' = incoming s ∧
    outgoing s' = outgoing s ++ (if 0 <? len then ztake len d else []);
  close_law s : ∃ s', close s = Done s' () ∧ stream_closed s' = true ∧ outgoing s' = outgoing s
}.

Section fix_size_facts.
Context {S : Type} `{!Stream S, !StreamLaws S}.
#[local] Set Default Proof Using "All".

(** Successful calls in a row, each asking for exactly what is missing: [reads left
    s d left' s'] stores [d] and leaves [left'] bytes to read; [writes buffer o s o'
    s'] hands over the rest of [buffer] each time and gets from [o] to [o']. *)
Inductive reads : Z → S → list Z → Z → S → Prop :=
  | reads_none left s : reads left s [] left s
  | reads_more left s len d s1 d' left' s' : 0 < left → read left s = Done s1 (len, d) → 0 < len →
      reads (left - len) s1 d' left' s' → reads left s (d ++ d') left' s'.
Inductive writes (buffer : list Z) : Z → S → Z → S → Prop :=
  | writes_none o s : writes buffer o s o s
  | writes_more o s len s1 o' s' : o < zlen buffer → write (zdrop o buffer) s = Done s1 len → 0 < len →
      writes buffer (o + len) s1 o' s' → writes buffer o s o' s'.

Lemma readFixSize_loop_ok fuel : ∀ left stored s, left < 2 ^ 63 → left ≤ Z.of_nat fuel →
  ∃ s' early d, readFixSize_loop fuel left stored s = Done s' (early, stored ++ d) ∧
    incoming s = d ++ incoming s' ∧ outgoing s' = outgoing s ∧
    match early with Some len => - 2 ^ 31 ≤ len ≤ 0 ∧ zlen d < left | None => zlen d = Z.max 0 left end ∧
    ∃ s1, reads left s d (left - zlen d) s1 ∧
      match early with Some len => ∃ x, read (left - zlen d) s1 = Done s' (len, x) | None => s' = s1 end.
Proof.
  induction fuel as [|fuel IH]; intros left stored s Hl Hf; cbn [readFixSize_loop].
  { if_false. exists s, None, []. rewrite app_nil_r. change (zlen []) with 0. rewrite Z.sub_0_r. repeat split; [lia|]. exists s. split; [constructor|done]. }
  destruct (left >? 0) eqn:Hpos.
  2:{ exists s, None, []. rewrite app_nil_r. change (zlen []) with 0. rewrite Z.sub_0_r. repeat split; [lia|]. exists s. split; [constructor|done]. }
  destruct (read_law left s ltac:(lia)) as (s1 & len & d & Hr & Hle & Hge & Hout & Hin).
  erewrite bind_done; [|exact Hr]. cbn beta iota. destruct (len <=? 0) eqn:Hlen.
  - replace (0 <? len) with false in Hin by lia. exists s1, (Some len), []. rewrite app_nil_r. change (zlen []) with 0. rewrite Z.sub_0_r.
    repeat split; try done; try lia. exists s. split; [constructor|by exists d].
  - replace (0 <? len) with true in Hin by lia. destruct Hin as [Hd Hin]. rewrite s64_small by lia.
    destruct (IH (left - len) (stored ++ d) s1) as (s' & early & d' & -> & Hin' & Hout' & He & s0 & Hrs & Hlast); [lia..|].
    exists s', early, (d ++ d'). rewrite <-app_assoc. split; [done|].
    replace (left - zlen (d ++ d')) with (left - len - zlen d') by (rewrite zlen_app; lia).
    split; [by rewrite Hin, Hin', app_assoc|]. split; [congruence|]. split; [rewrite zlen_app; destruct early; lia|].
    exists s0. split; [|done]. eapply reads_more; [lia|exact Hr|lia|done].
Qed.

Lemma writeFixSize_loop_ok buffer fuel : zlen buffer < 2 ^ 63 → ∀ offset left s, 0 ≤ offset → 0 ≤ left →
  offset + left = zlen buffer → left ≤ Z.of_nat fuel →
  ∃ s' early n, writeFixSize_loop fuel buffer offset left s = Done s' early ∧
    incoming s' = incoming s ∧ outgoing s' = outgoing s ++ slice offset n buffer ∧
    match early with Some len => - 2 ^ 31 ≤ len ≤ 0 ∧ 0 ≤ n < left | None => n = left end ∧
    ∃ s1, writes buffer offset s (offset + n) s1 ∧
      match early with Some len => write (zdrop (offset + n) buffer) s1 = Done s' len | None => s' = s1 end.
Proof.
  intros Hb. induction fuel as [|fuel IH]; intros offset left s Ho Hl Hol Hf; cbn [writeFixSize_loop].
  { if_false. exists s, None, left. rewrite slice_neg, app_nil_r by lia. replace (offset + left) with offset by lia.
    repeat split; try done. exists s. split; [constructor|done]. }
  destruct (left >? 0) eqn:Hpos.
  2:{ exists s, None, left. rewrite slice_neg, app_nil_r by lia. replace (offset + left) with offset by lia.
    repeat split; try done. exists s. split; [constructor|done]. }
  assert (Hz : zlen (slice offset left buffer) = left) by (apply zlen_slice; lia).
  destruct (write_law (slice offset left buffer) s ltac:(lia)) as (s1 & len & Hr & Hle & Hge & Hin & Hout).
  assert (Hsl : slice offset left buffer = zdrop offset buffer).
  { unfold slice, ztake. apply firstn_all2. pose proof (zlen_zdrop offset buffer ltac:(lia)). unfold zlen in *. lia. }
  erewrite bind_done; [|exact Hr]. destruct (len <=? 0) eqn:Hlen.
  - replace (0 <? len) with false in Hout by lia. exists s1, (Some len), 0. rewrite slice_0, Z.add_0_r. repeat split; try done; try lia.
    exists s. split; [constructor|by rewrite <-Hsl].
  - replace (0 <? len) with true in Hout by lia. rewrite s64_small, u64_small by lia.
    destruct (IH (offset + len) (left - len) s1) as (s' & early & n & -> & Hin' & Hout' & He & s0 & Hws & Hlast); [lia..|].
    assert (Hn : 0 ≤ n) by (destruct early; lia).
    exists s', early, (len + n). split; [done|]. split; [congruence|]. rewrite Z.add_assoc. split; [|split; [destruct early; lia|]].
    + rewrite Hout', Hout, <-app_assoc, slice_split by lia. do 2 f_equal.
      unfold slice at 1. unfold ztake. rewrite take_take. unfold slice, ztake. f_equal. lia.
    + exists s0. split; [|done]. eapply writes_more; [lia|by rewrite <-Hsl|lia|done].
Qed.

(** The whole operations, with the calls they make. *)
Lemma readFixSize_calls length s : 0 ≤ length < 2 ^ 63 → ∃ s' r d s1, readFixSize length s = Done s' (r, d) ∧
  incoming s = d ++ incoming s' ∧ outgoing s' = outgoing s ∧ reads length s d (length - zlen d) s1 ∧
  (zlen d = length ∧ r = s32 length ∧ s' = s1 ∨
   zlen d < length ∧ r ≤ 0 ∧ ∃ x, read (length - zlen d) s1 = Done s' (r, x)).
Proof.
  intros Hl. unfold readFixSize. rewrite s64_small by lia.
  destruct (readFixSize_loop_ok (Z.to_nat length) length [] s) as (s' & early & d & Hr & Hin & Hout & He & s1 & Hrs & Hlast); [lia..|].
  erewrite bind_done; [|exact Hr]. eexists s', _, d, s1. do 4 (split; [done|]).
  destruct early as [len|]; [right|left]; [|split; [lia|done]]. rewrite s32_small by lia. split; [lia|]. split; [lia|done].
Qed.
Lemma writeFixSize_calls buffer s : zlen buffer < 2 ^ 63 → ∃ s' r n s1, writeFixSize buffer s = Done s' r ∧
  incoming s' = incoming s ∧ outgoing s' = outgoing s ++ ztake n buffer ∧ writes buffer 0 s n s1 ∧
  (n = zlen buffer ∧ r = s32 (zlen buffer) ∧ s' = s1 ∨
   0 ≤ n < zlen buffer ∧ r ≤ 0 ∧ write (zdrop n buffer) s1 = Done s' r).
Proof.
  intros Hl. pose proof (zlen_nonneg buffer). unfold writeFixSize. rewrite s64_small by lia.
  destruct (writeFixSize_loop_ok buffer (length buffer) Hl 0 (zlen buffer) s) as (s' & early & n & Hr & Hin & Hout & He & s1 & Hws & Hlast);
    [lia..|unfold zlen; lia|].
  erewrite bind_done; [|exact Hr]. eexists s', _, n, s1. split; [done|]. split; [done|]. split; [exact Hout|]. split; [done|].
  destruct early as [len|]; [right|left]; [|split; [lia|done]].
  rewrite s32_small by lia. split; [lia|]. split; [lia|done].
Qed.
Lemma readFixSize_ok length s : 0 ≤ length < 2 ^ 63 → ∃ s' r d, readFixSize length s = Done s' (r, d) ∧
  incoming s = d ++ incoming s' ∧ outgoing s' = outgoing s ∧
  (zlen d = length ∧ r = s32 length ∨ zlen d < length ∧ r ≤ 0).
Proof. intros Hl. destruct (readFixSize_calls length s Hl) as (s' & r & d & s1 & ? & ? & ? & _ & H). exists s', r, d. naive_solver. Qed.
Lemma writeFixSize_ok buffer s : zlen buffer < 2 ^ 63 → ∃ s' r n, writeFixSize buffer s = Done s' r ∧
  incoming s' = incoming s ∧ outgoing s' = outgoing s ++ ztake n buffer ∧
  (n = zlen buffer ∧ r = s32 (zlen buffer) ∨ 0 ≤ n < zlen buffer ∧ r ≤ 0).
Proof. intros Hl. destruct (writeFixSize_calls buffer s Hl) as (s' & r & n & s1 & ? & ? & ? & _ & H). exists s', r, n. naive_solver. Qed.

(** C40: [readFixSize] terminates and delivers, in order, the bytes that arrive.  It
    reads as long as the reads succeed, asking each time for exactly what is missing:
    until [length] bytes are there, when it returns [length] without another call - or
    up to the first read whose result is not positive, which it returns with the bytes
    stored so far.  [writeFixSize] does the same for what is sent, handing over the
    rest of the buffer each time.  For lengths of 2 GiB and more the success is
    reported as a truncated [int]. *)
Theorem fix_size_spec :
  (∀ length s, 0 ≤ length < 2 ^ 63 → ∃ s' r d s1, readFixSize length s = Done s' (r, d) ∧
    incoming s = d ++ incoming s' ∧ outgoing s' = outgoing s ∧ reads length s d (length - zlen d) s1 ∧
    (zlen d = length ∧ r = s32 length ∧ s' = s1 ∨
     zlen d < length ∧ r ≤ 0 ∧ ∃ x, read (length - zlen d) s1 = Done s' (r, x))) ∧
  (∀ buffer s, zlen buffer < 2 ^ 63 → ∃ s' r n s1, writeFixSize buffer s = Done s' r ∧
    incoming s' = incoming s ∧ outgoing s' = outgoing s ++ ztake n buffer ∧ writes buffer 0 s n s1 ∧
    (n = zlen buffer ∧ r = s32 (zlen buffer) ∧ s' = s1 ∨
     0 ≤ n < zlen buffer ∧ r ≤ 0 ∧ write (zdrop n buffer) s1 = Done s' r)).
Proof. split; intros; [by apply readFixSize_calls|by apply writeFixSize_calls]. Qed.
End fix_size_facts.

(** ** A witness: a peer that sends, and accepts, given chunk sizes, then anything *)
Record chunked := mkChunked { ch_in : list (list Z); ch_room : list Z; ch_out : list Z; ch_closed : bool }.
Definition chunked_read (n : Z) : M chunked (Z * list Z) := λ s,
  match ch_in s with
  | [] => Done s (0, [])
  | [] :: _ => Done s (-1, [])
  | c :: cs =>
      if zlen c <=? n then Done (mkChunked cs (ch_room s) (ch_out s) (ch_closed s)) (zlen c, c)
      else Done (mkChunked (zdrop n c :: cs) (ch_room s) (ch_out s) (ch_closed s)) (n, ztake n c)
  end.
Definition chunked_write (d : list Z) : M chunked Z := λ s,
  match ch_room s with
  | [] => Done (mkChunked (ch_in s) [] (ch_out s ++ d) (ch_closed s)) (zlen d)
  | n :: ns => if (0 <? n) && (n <? zlen d) then Done (mkChunked (ch_in s) ns (ch_out s ++ ztake n d) (ch_closed s)) n
               else Done (mkChunked (ch_in s) ns (ch_out s ++ d) (ch_closed s)) (zlen d)
  end.
#[export] Instance chunked_stream : Stream chunked := {|
  read := chunked_read; read_ba n := mret 0; write := chunked_write; write_ba n := mret 0;
  close s := Done (mkChunked (ch_in s) (ch_room s) (ch_out s) true) ()
|}.
#[export] Instance chunked_laws : StreamLaws chunked.
Proof.
  refine {| incoming s := concat (ch_in s); outgoing s := ch_out s; stream_closed s := ch_closed s |}.
  - intros n s Hn. cbn. unfold chunked_read. destruct (ch_in s) as [|c cs] eqn:E.
    { eexists _, _, _. split; [done|]. repeat split; try lia. by rewrite E. }
    destruct c as [|x c].
    { eexists _, _, _. split; [done|]. repeat split; try lia. by rewrite E. }
    assert (1 ≤ zlen (x :: c)) by (rewrite zlen_cons; pose proof (zlen_nonneg c); lia).
    destruct (zlen (x :: c) <=? n) eqn:Hle.
    + eexists _, _, _. split; [done|]. split; [lia|]. split; [lia|]. split; [done|]. if_true. done.
    + eexists _, _, _. split; [done|]. split; [lia|]. split; [lia|]. split; [done|]. if_true.
      split; [rewrite zlen_ztake; lia|]. cbn [concat ch_in]. rewrite app_assoc, ztake_zdrop. done.
  - intros d s Hd. cbn. unfold chunked_write. destruct (ch_room s) as [|n ns].
    { eexists _, _. split; [done|]. repeat split; try lia. cbn. if_true. f_equal. unfold ztake, zlen. by rewrite Nat2Z.id, firstn_all. }
    destruct ((0 <? n) && (n <? zlen d)) eqn:Hn; eexists _, _; (split; [done|]); repeat split; try lia; cbn.
    + by if_true.
    + if_true. f_equal. unfold ztake, zlen. by rewrite Nat2Z.id, firstn_all.
  - intros s. eexists. by split_and!.
Defined.

Lemma fix_size_spec_witness : ∃ s', readFixSize 4 (mkChunked [[1]; [2; 3]; [4; 5]] [] [] false) = Done s' (4, [1; 2; 3; 4]).
Proof.
  destruct (proj1 fix_size_spec 4 (mkChunked [[1]; [2; 3]; [4; 5]] [] [] false)) as (s' & r & d & s1 & Hr & _); [lia|].
  exists s'. vm_compute in Hr. injection Hr as <- <- <-. reflexivity.
Defined.
