(* ===== verification/Text.v ===== *)
(** * Text: C and C++ strings

    A [std::string] is a Rocq [string] of bytes; what the C library does to its
    [c_str()], the decimal and hexadecimal output of streams, and the searching
    members, each by its documented behaviour. *)
From Stdlib Require Export String Ascii.
From S2P Require Import Prelude.
Global Arguments String.append !_ _ : simpl nomatch.
Open Scope string_scope.
Open Scope Z_scope.

Definition NUL : ascii := "000"%char.
Definition CRLF : string := String "013" (String "010" "").

(** [c_str()] as the C functions see it: up to the first NUL. *)
Fixpoint c_str (s : string) : string :=
  match s with
  | "" => ""
  | String c s => if Ascii.eqb c NUL then "" else String c (c_str s)
  end.

(** [tolower] in the C locale. *)
Definition ascii_lower (c : ascii) : ascii :=
  let n := N_of_ascii c in
  if ((65 <=? n) && (n <=? 90))%N then ascii_of_N (n + 32) else c.
Fixpoint lower (s : string) : string :=
  match s with "" => "" | String c s => String (ascii_lower c) (lower s) end.

(** [strcmp(a.c_str(), b.c_str())] and [strcasecmp]: the sign of the result. *)
Definition strcmp (a b : string) : comparison := String.compare (c_str a) (c_str b).
Definition fold_case (s : string) : string := lower (c_str s).
Definition strcasecmp (a b : string) : comparison := String.compare (fold_case a) (fold_case b).
Definition cmp_eq (c : comparison) : bool := match c with Eq => true | _ => false end.

(** [strncmp(lit, m, strlen(lit)) == 0]: [lit] is a prefix of [m]. *)
Definition strncmp_eq (lit m : string) : bool := String.prefix lit (c_str m).

(** The offset of the first occurrence of a character from [pos] on. *)
Fixpoint find_char (c : ascii) (s : string) : option nat :=
  match s with
  | "" => None
  | String d s => if Ascii.eqb c d then Some O else S <$> find_char c s
  end.
Fixpoint str_drop (n : nat) (s : string) : string :=
  match n, s with O, _ => s | S n, String _ s => str_drop n s | S _, "" => "" end.
Fixpoint str_take (n : nat) (s : string) : string :=
  match n, s with O, _ => "" | S n, String c s => String c (str_take n s) | S _, "" => "" end.
Definition str_len (s : string) : Z := Z.of_nat (String.length s).
Definition is_empty (s : string) : bool := match s with "" => true | _ => false end.

(** The first [n] characters, all of them if there are fewer. *)
Definition str_ztake (n : Z) (s : string) : string := str_take (Z.to_nat (Z.min n (str_len s))) s.
(** [strncmp(a, b, n) == 0] *)
Definition strncmp_n (a b : string) (n : Z) : bool := String.eqb (str_ztake n (c_str a)) (str_ztake n (c_str b)).
(** [std::string::max_size()] of a 64-bit libstdc++. *)
Definition str_max : Z := 2 ^ 62 - 1.
(** [std::string(at, n)], [at] the memory from a pointer on. *)
Definition std_string {S} (at_ : string) (n : Z) : M S string :=
  if n >? str_max then raise ExnLengthError
  else if n <=? str_len at_ then mret (str_take (Z.to_nat n) at_) else undef OutOfBounds.

(** [strtol(s, NULL, base)] for base 10 and 16, a 64-bit [long]; [atoi]. *)
Definition is_space (c : ascii) : bool := let n := N_of_ascii c in ((9 <=? n) && (n <=? 13) || (n =? 32))%N.
Fixpoint skip_space (s : string) : string :=
  match s with String c s' => if is_space c then skip_space s' else s | "" => "" end.
Definition digit_of (base : Z) (c : ascii) : option Z :=
  let n := Z.of_N (N_of_ascii c) in
  let d := if (48 <=? n) && (n <=? 57) then n - 48 else if (97 <=? n) && (n <=? 122) then n - 87
    else if (65 <=? n) && (n <=? 90) then n - 55 else base in
  if d <? base then Some d else None.
Fixpoint strtol_digits (base : Z) (s : string) (acc : Z) : Z :=
  match s with
  | String c s => match digit_of base c with Some d => strtol_digits base s (acc * base + d) | None => acc end
  | "" => acc
  end.
Definition strtol_prefix (base : Z) (s : string) : string :=
  match s with
  | String "0" (String ("x" | "X") (String d s')) => if (base =? 16) && bool_decide (digit_of 16 d ≠ None) then String d s' else s
  | _ => s
  end.
Definition strtol (base : Z) (s : string) : Z :=
  match skip_space (c_str s) with
  | String "-" s => Z.max (- 2 ^ 63) (- strtol_digits base (strtol_prefix base s) 0)
  | String "+" s => Z.min (2 ^ 63 - 1) (strtol_digits base (strtol_prefix base s) 0)
  | s => Z.min (2 ^ 63 - 1) (strtol_digits base (strtol_prefix base s) 0)
  end.
Definition atoi (s : string) : Z := s32 (strtol 10 s).

(** Text as bytes. *)
Definition byte_of (c : ascii) : Z := Z.of_N (N_of_ascii c).
Definition char_of (b : Z) : ascii := ascii_of_N (Z.to_N (u8 b)).
Fixpoint bytes_of (s : string) : list Z := match s with "" => [] | String c s => byte_of c :: bytes_of s end.
Fixpoint text_of (l : list Z) : string := match l with [] => "" | b :: l => String (char_of b) (text_of l) end.

(** [strcasestr(haystack, needle) != nullptr] *)
Fixpoint has_infix (needle s : string) : bool :=
  String.prefix needle s || match s with "" => false | String _ s => has_infix needle s end.
Definition strcasestr (haystack needle : string) : bool := has_infix (fold_case needle) (fold_case haystack).

(** Decimal output of an integer: the digits of [z], most significant first. *)
Definition digit (z : Z) : ascii :=
  let d := z mod 16 in ascii_of_N (Z.to_N (if d <? 10 then 48 + d else 87 + d)).
Fixpoint digits (base : Z) (fuel : nat) (z : Z) (acc : string) : string :=
  match fuel with
  | O => acc
  | S fuel =>
      let acc := String (digit (z mod base)) acc in
      if z <? base then acc else digits base fuel (z / base) acc
  end.
(** [os << z] for an integer below [2^64], and [os << std::hex << z]. *)
Definition dec (z : Z) : string :=
  if z <? 0 then String "-" (digits 10 20 (- z) "") else digits 10 20 z "".
Definition hex (z : Z) : string := digits 16 16 z "".

(** [std::setw(w) << std::setfill(c)] *)
Fixpoint str_repeat (n : nat) (c : ascii) : string :=
  match n with O => "" | S n => String c (str_repeat n c) end.
Definition setw (w : Z) (fill : ascii) (s : string) : string :=
  str_repeat (Z.to_nat (w - str_len s)) fill ++ s.

Example strtol_text : strtol 10 " 12a" = 12 ∧ strtol 16 "1F;x" = 31 ∧ strtol 16 "0x" = 0 ∧ atoi "-7" = -7 ∧ strtol 10 "" = 0.
Proof. by vm_compute. Qed.
Example dec_text : dec 8020 = "8020" ∧ dec (-7) = "-7" ∧ dec 0 = "0" ∧ hex 48879 = "beef" ∧ setw 4 "0" "a" = "000a".
Proof. by vm_compute. Qed.

(** ** Lemmas *)
Lemma str_app_assoc a b c : (a ++ b) ++ c = a ++ (b ++ c).
Proof. induction a as [|x a IH]; [done|]. cbn. by rewrite IH. Qed.
Lemma str_app_nil_r a : a ++ "" = a.
Proof. induction a as [|x a IH]; [done|]. cbn. by rewrite IH. Qed.
Lemma str_len_app a b : str_len (a ++ b) = str_len a + str_len b.
Proof. unfold str_len. induction a as [|x a IH]; [done|]. cbn [append String.length]. lia. Qed.
Lemma str_len_nonneg s : 0 ≤ str_len s.
Proof. unfold str_len. lia. Qed.
Lemma str_len_0 s : str_len s ≤ 0 → s = "".
Proof. destruct s as [|c s]; [done|]. unfold str_len. cbn [String.length]. lia. Qed.
Lemma str_len_drop n s : Z.of_nat n ≤ str_len s → str_len (str_drop n s) = str_len s - Z.of_nat n.
Proof.
  unfold str_len. revert s. induction n as [|n IH]; intros [|c s]; cbn [str_drop String.length]; try lia.
  intros. rewrite IH; lia.
Qed.
Lemma str_len_take n s : Z.of_nat n ≤ str_len s → str_len (str_take n s) = Z.of_nat n.
Proof.
  unfold str_len. revert s. induction n as [|n IH]; intros [|c s]; cbn [str_take String.length]; try lia.
  intros. specialize (IH s). lia.
Qed.
Lemma prefix_app a b : String.prefix a (a ++ b) = true.
Proof.
  induction a as [|x a IH]; [by destruct b|]. cbn. destruct (ascii_dec x x); [done|congruence].
Qed.

Lemma ascii_lower_idemp c : ascii_lower (ascii_lower c) = ascii_lower c.
Proof. by destruct c as [[] [] [] [] [] [] [] []]. Qed.
Lemma ascii_lower_nul c : Ascii.eqb (ascii_lower c) NUL = Ascii.eqb c NUL.
Proof. by destruct c as [[] [] [] [] [] [] [] []]. Qed.
Lemma fold_case_idemp s : fold_case (fold_case s) = fold_case s.
Proof.
  induction s as [|c s IH]; [done|]. unfold fold_case in *. cbn [c_str].
  destruct (Ascii.eqb c NUL) eqn:E; [done|]. cbn [lower c_str]. rewrite ascii_lower_nul, E. cbn [lower].
  by rewrite ascii_lower_idemp, IH.
Qed.

Lemma char_of_byte_of c : char_of (byte_of c) = c.
Proof. by destruct c as [[] [] [] [] [] [] [] []]. Qed.
Lemma text_of_bytes_of s : text_of (bytes_of s) = s.
Proof. induction s as [|c s IH]; [done|]. cbn [bytes_of text_of]. by rewrite char_of_byte_of, IH. Qed.
Lemma bytes_of_app a b : bytes_of (a ++ b) = (bytes_of a ++ bytes_of b)%list.
Proof. induction a as [|c a IH]; [done|]. cbn. by rewrite IH. Qed.
Lemma text_of_app a b : text_of (a ++ b)%list = text_of a ++ text_of b.
Proof. induction a as [|c a IH]; [done|]. cbn. by rewrite IH. Qed.
Lemma zlen_bytes_of s : zlen (bytes_of s) = str_len s.
Proof. unfold zlen, str_len. induction s as [|c s IH]; [done|]. cbn [bytes_of List.length String.length]. lia. Qed.
Lemma str_len_text_of l : str_len (text_of l) = zlen l.
Proof. unfold zlen, str_len. induction l as [|c s IH]; [done|]. cbn [text_of List.length String.length]. lia. Qed.
Lemma str_take_app_exact a b : str_take (String.length a) (a ++ b) = a.
Proof. induction a as [|c a IH]; [by destruct b|]. cbn. by rewrite IH. Qed.
Lemma str_drop_app_exact a b : str_drop (String.length a) (a ++ b) = b.
Proof. induction a as [|c a IH]; [done|]. cbn. done. Qed.

(** [String.compare] is a total order. *)
Lemma ascii_compare_refl a : Ascii.compare a a = Eq.
Proof. apply N.compare_refl. Qed.
Lemma str_compare_refl a : String.compare a a = Eq.
Proof. induction a as [|x a IH]; [done|]. cbn. by rewrite ascii_compare_refl. Qed.
Lemma str_compare_eq a b : String.compare a b = Eq ↔ a = b.
Proof. split; [apply String.compare_eq_iff|intros ->; apply str_compare_refl]. Qed.
Lemma str_compare_antisym a b : String.compare b a = CompOpp (String.compare a b).
Proof. by rewrite String.compare_antisym. Qed.
Lemma ascii_compare_trans a b c : Ascii.compare a b = Lt → Ascii.compare b c = Lt → Ascii.compare a c = Lt.
Proof. unfold Ascii.compare. rewrite !N.compare_lt_iff. apply N.lt_trans. Qed.
Lemma str_compare_trans a b c : String.compare a b = Lt → String.compare b c = Lt → String.compare a c = Lt.
Proof.
  revert b c. induction a as [|x a IH]; intros [|y b] [|z c]; cbn; try done.
  destruct (Ascii.compare x y) eqn:Hxy; try done; destruct (Ascii.compare y z) eqn:Hyz; try done.
  - apply Ascii.compare_eq_iff in Hxy, Hyz. subst. rewrite ascii_compare_refl. apply IH.
  - apply Ascii.compare_eq_iff in Hxy. subst. by rewrite Hyz.
  - apply Ascii.compare_eq_iff in Hyz. subst. by rewrite Hxy.
  - by rewrite (ascii_compare_trans _ _ _ Hxy Hyz).
Qed.

Lemma c_str_app a s : c_str a = a → c_str (a ++ s) = a ++ c_str s.
Proof.
  induction a as [|c a IH]; [done|]. cbn [c_str]. destruct (Ascii.eqb c NUL) eqn:E; [done|]. intros [= Ha].
  change (c_str (String c (a ++ s)) = String c (a ++ c_str s)). cbn [c_str]. by rewrite E, (IH Ha).
Qed.

Lemma bytes_of_take n s : bytes_of (str_take n s) = take n (bytes_of s).
Proof. revert s. induction n as [|n IH]; intros [|c s]; cbn; [done..|by rewrite IH]. Qed.
Lemma str_take_drop n s : str_take n s ++ str_drop n s = s.
Proof. revert s. induction n as [|n IH]; intros [|c s]; cbn; [done..|by rewrite IH]. Qed.

(** Texts below the range of an [int], and the pieces copied from them. *)
Definition fits (s : string) : Prop := str_len s < 2 ^ 31.
Lemma std_string_ok {S} at_ n (s : S) : 0 ≤ n ≤ str_len at_ → str_len at_ < 2 ^ 62 → std_string at_ n s = Done s (str_take (Z.to_nat n) at_).
Proof. intros. unfold std_string. replace (n >? str_max) with false by (unfold str_max; lia). by replace (n <=? str_len at_) with true by lia. Qed.
Lemma std_string_piece {T} w s (σ : T) : fits (w ++ s) → std_string (w ++ s) (str_len w) σ = Done σ w.
Proof.
  unfold fits. rewrite str_len_app. pose proof (str_len_nonneg w). pose proof (str_len_nonneg s). intros.
  rewrite std_string_ok by (rewrite ?str_len_app; lia). unfold str_len. by rewrite Nat2Z.id, str_take_app_exact.
Qed.
Lemma fits_app_r a b : fits (a ++ b) → fits b.
Proof. unfold fits. rewrite str_len_app. pose proof (str_len_nonneg a). lia. Qed.

Lemma str_ztake_exact a b : str_ztake (str_len a) (a ++ b) = a.
Proof.
  unfold str_ztake. rewrite str_len_app, Z.min_l by (pose proof (str_len_nonneg b); lia).
  unfold str_len. rewrite Nat2Z.id. apply str_take_app_exact.
Qed.

(** ** What [dec] prints, [atoi] reads *)
Lemma digits_app base fuel : ∀ z acc t, digits base fuel z acc ++ t = digits base fuel z (acc ++ t).
Proof. induction fuel as [|n IH]; intros z acc t; [done|]. cbn [digits]. destruct (z <? base); [done|]. by rewrite IH. Qed.
Lemma digit_of_digit d : 0 ≤ d < 10 → digit_of 10 (digit d) = Some d.
Proof.
  intros. assert (Hin : In d [0; 1; 2; 3; 4; 5; 6; 7; 8; 9]) by (cbn; lia).
  revert d Hin H. rewrite <-List.Forall_forall. repeat constructor.
Qed.
Lemma strtol_digits_digits fuel : ∀ z acc, 0 ≤ z < 10 ^ Z.of_nat fuel → (0 < fuel)%nat →
  strtol_digits 10 (digits 10 fuel z acc) 0 = strtol_digits 10 acc z.
Proof.
  induction fuel as [|n IH]; intros z acc Hz Hf; [lia|]. cbn [digits]. pose proof (Z.div_mod z 10). pose proof (Z.mod_pos_bound z 10 ltac:(lia)).
  assert (Hd : ∀ a, strtol_digits 10 (String (digit (z mod 10)) acc) a = strtol_digits 10 acc (a * 10 + z mod 10)).
  { intros a. cbn [strtol_digits]. by rewrite digit_of_digit. }
  destruct (z <? 10) eqn:Hlt.
  - rewrite Hd. f_equal. rewrite Z.mod_small; lia.
  - rewrite Nat2Z.inj_succ, Z.pow_succ_r in Hz by lia.
    rewrite IH, Hd; [f_equal; lia| |].
    + split; [apply Z.div_pos; lia|]. apply Z.div_lt_upper_bound; lia.
    + destruct n; [cbn in Hz; lia|lia].
Qed.
(** A digit is neither white space nor a sign nor a terminator. *)
Definition is_digit_char (c : ascii) : bool := let n := N_of_ascii c in ((48 <=? n) && (n <=? 57))%N.
Fixpoint all_digits (s : string) : bool := match s with "" => true | String c s => is_digit_char c && all_digits s end.
Lemma digit_is_digit d : 0 ≤ d < 10 → is_digit_char (digit d) = true.
Proof.
  intros. assert (Hin : In d [0; 1; 2; 3; 4; 5; 6; 7; 8; 9]) by (cbn; lia).
  revert d Hin H. rewrite <-List.Forall_forall. repeat constructor.
Qed.
Lemma all_digits_digits fuel : ∀ z acc, 0 ≤ z → all_digits acc = true → all_digits (digits 10 fuel z acc) = true.
Proof.
  induction fuel as [|n IH]; intros z acc Hz Ha; [done|]. cbn [digits]. pose proof (Z.mod_pos_bound z 10 ltac:(lia)).
  assert (all_digits (String (digit (z mod 10)) acc) = true) by (cbn; rewrite digit_is_digit by lia; done).
  destruct (z <? 10); [done|]. apply IH; [apply Z.div_pos; lia|done].
Qed.
Lemma strtol_prefix_10 s : strtol_prefix 10 s = s.
Proof.
  destruct s as [|c s]; [done|]. destruct c as [[] [] [] [] [] [] [] []]; try reflexivity.
  destruct s as [|c s]; [done|]. destruct c as [[] [] [] [] [] [] [] []]; try reflexivity; by destruct s.
Qed.
Lemma strtol_10 c s : is_digit_char c = true → strtol 10 (String c s) = Z.min (2 ^ 63 - 1) (strtol_digits 10 (String c (c_str s)) 0).
Proof.
  intros Hc. unfold strtol. assert (Hs : skip_space (c_str (String c s)) = String c (c_str s)).
  { destruct c as [[] [] [] [] [] [] [] []]; try done. }
  rewrite Hs, <-(strtol_prefix_10 (String c (c_str s))) at 1. rewrite strtol_prefix_10. clear Hs.
  destruct c as [[] [] [] [] [] [] [] []]; try discriminate Hc; by rewrite strtol_prefix_10.
Qed.
Lemma c_str_digits s t : all_digits s = true → c_str (s ++ t) = s ++ c_str t.
Proof.
  induction s as [|c s IH]; [done|]. cbn [all_digits]. intros [Hc Hs]%andb_true_iff. cbn [append c_str]. rewrite (IH Hs).
  destruct (Ascii.eqb_spec c NUL) as [->|]; done.
Qed.
Lemma digits_nonempty base fuel : ∀ z acc, (0 < fuel)%nat ∨ acc ≠ "" → digits base fuel z acc ≠ "".
Proof.
  induction fuel as [|n IH]; intros z acc H; cbn [digits]; [destruct H; [lia|done]|]. destruct (z <? base); [done|]. apply IH. by right.
Qed.
Lemma dec_nonempty n : dec n ≠ "".
Proof. unfold dec. destruct (n <? 0); [done|]. apply digits_nonempty. left. lia. Qed.
Lemma dec_digits n : 0 ≤ n → all_digits (dec n) = true.
Proof. intros. unfold dec. replace (n <? 0) with false by lia. by apply all_digits_digits. Qed.
(** A printed number, read up to the character behind it. *)
Lemma strtol_dec n t : 0 ≤ n < 2 ^ 63 → digit_of 10 (match t with "" => NUL | String c _ => c end) = None → strtol 10 (dec n ++ t) = n.
Proof.
  intros Hn Ht. unfold dec. replace (n <? 0) with false by lia.
  pose proof (all_digits_digits 20 n "" ltac:(lia) eq_refl) as Hd. pose proof (digits_nonempty 10 20 n "" ltac:(left; lia)) as Hne.
  destruct (digits 10 20 n "") as [|c s] eqn:E; [done|]. cbn [append]. apply andb_true_iff in Hd as [Hc Hd].
  rewrite (strtol_10 _ _ Hc), (c_str_digits _ _ Hd). change (String c (s ++ c_str t)) with (String c s ++ c_str t).
  rewrite <-E, digits_app, strtol_digits_digits by (change (10 ^ Z.of_nat 20) with (10 ^ 20); lia). cbn [append].
  assert (Hstop : ∀ acc, strtol_digits 10 (c_str t) acc = acc).
  { intros acc. destruct t as [|c' t]; [done|]. cbn [c_str]. destruct (Ascii.eqb c' NUL); [done|]. cbn [strtol_digits]. by rewrite Ht. }
  rewrite Hstop. lia.
Qed.
Lemma atoi_dec n t : 0 ≤ n < 2 ^ 31 → digit_of 10 (match t with "" => NUL | String c _ => c end) = None → atoi (dec n ++ t) = n.
Proof. intros. unfold atoi. rewrite strtol_dec by (done || lia). apply s32_small. lia. Qed.
