(* ===== verification/Callbacks.v ===== *)
(** * Callbacks ([webserve/http/http11_common.h]): what the message parsers share

    A generated parser is an object with marks into the buffer of the current call and
    function pointers to its user; the user is an object of its own, behind [data].
    A buffer is a text behind which there is a zero byte. *)
From S2P Require Import Prelude Text.
Open Scope string_scope.
Open Scope Z_scope.

(** The callbacks work on what [data] points to: a pointer into the buffer is the text
    from there to its end. *)
Definition element_cb (D : Type) : Type := string → Z → M D ().
Definition field_cb (D : Type) : Type := string → Z → string → Z → M D ().

(** A callback works on the second half of the state. *)
Definition on_data {Q D A} (m : M D A) : M (Q * D) A := λ '(q, d),
  match m d with
  | Done d a => Done (q, d) a
  | Raise d e => Raise (q, d) e
  | Undef c => Undef c
  | NoFuel => NoFuel
  end.
Definition parser {Q D} : M (Q * D) Q := gets fst.
Definition update {Q D} (f : Q → Q) : M (Q * D) () := modify (λ s, (f s.1, s.2)).
(** [LEN(AT, FPC)] and [PTR_TO(F)] *)
Definition LEN (at_ p : Z) : Z := u64 (p - at_).
Definition PTR_TO (buffer : string) (f : Z) : string := str_drop (Z.to_nat f) buffer.
(** [if(parser->cb != NULL) parser->cb(parser->data, PTR_TO(at), LEN(at, p));] *)
Definition call {Q D} (buffer : string) (f : option (element_cb D)) (at_ p : Z) : M (Q * D) () :=
  match f with Some f => on_data (f (PTR_TO buffer at_) (LEN at_ p)) | None => mret () end.

(** Runs an operation of an object that is local to the function. *)
Definition local {S T A} (m : M T A) (t : T) : M S (T * A) :=
  match m t with
  | Done t a => mret (t, a)
  | Raise _ e => raise e
  | Undef c => undef c
  | NoFuel => nofuel
  end.

(** The version bytes that both parsers know. *)
Definition parse_version (at_ : string) (length : Z) : option Z :=
  if strncmp_n at_ "HTTP/1.1" length then Some 0x11
  else if strncmp_n at_ "HTTP/1.0" length then Some 0x10 else None.

(** ** Safety *)
(** A callback is safe, with respect to an invariant of its data, if it neither crashes
    nor hangs on a piece of the buffer, or on a length that no string has. *)
Definition outcome_ok {S A} (P : S → Prop) (r : result S A) : Prop :=
  match r with Done s _ => P s | Raise _ _ => True | _ => False end.
Definition element_safe {D} (I : D → Prop) (f : element_cb D) : Prop :=
  ∀ at_ len d, I d → 0 ≤ len ≤ str_len at_ ∨ 2 ^ 63 ≤ len → outcome_ok I (f at_ len d).
Definition field_safe {D} (I : D → Prop) (f : field_cb D) : Prop :=
  ∀ at1 l1 at2 l2 d, I d → 0 ≤ l1 ≤ str_len at1 → 0 ≤ l2 ≤ str_len at2 → outcome_ok I (f at1 l1 at2 l2 d).
Lemma parser_bind {Q D A} (k : Q → M (Q * D) A) q d : (parser ≫= k) (q, d) = k q (q, d).
Proof. done. Qed.
Lemma update_bind {Q D A} f (k : () → M (Q * D) A) q d : (update f ≫= k) (q, d) = k () (f q, d).
Proof. done. Qed.
Lemma assert_bind {S A} b (k : () → M S A) s : b = true → (assert_ b ≫= k) s = k () s.
Proof. by intros ->. Qed.

#[local] Arguments LEN : simpl never.
#[local] Arguments PTR_TO : simpl never.

Lemma LEN_back m p : 0 ≤ m ≤ p → p < 2 ^ 64 → LEN m p = p - m.
Proof. intros. unfold LEN. apply u64_small. lia. Qed.
Lemma PTR_TO_len buffer f : 0 ≤ f ≤ str_len buffer → str_len (PTR_TO buffer f) = str_len buffer - f.
Proof. intros. unfold PTR_TO. rewrite str_len_drop; [|lia]. rewrite Z2Nat.id; lia. Qed.
Lemma call_safe {Q D} (I : D → Prop) buffer f m p (q : Q) d : str_len buffer < 2 ^ 31 → from_option (element_safe I) True f → 0 ≤ p < str_len buffer → 0 ≤ m < 2 ^ 63 → I d →
  outcome_ok (λ s : Q * D, s.1 = q ∧ I s.2) (call buffer f m p (q, d)).
Proof.
  destruct f as [f|]; cbn; [|done]. intros Hlen Hf Hp Hm HI. unfold on_data.
  specialize (Hf (PTR_TO buffer m) (LEN m p) d HI). destruct (f (PTR_TO buffer m) (LEN m p) d); cbn in *; try (split; [done|]); try done; apply Hf;
  (destruct (decide (m ≤ p)); [left; rewrite LEN_back, PTR_TO_len; lia|right]);
  unfold LEN, u64; replace (p - m) with (p - m + 2 ^ 64 + -1 * 2 ^ 64) by lia; rewrite Z.mod_add, Z.mod_small; lia.
Qed.

Lemma std_string_long {S} at_ n (s : S) : 2 ^ 63 ≤ n → std_string at_ n s = Raise s ExnLengthError.
Proof. intros. unfold std_string. by replace (n >? str_max) with true by (unfold str_max; lia). Qed.
Lemma std_string_safe {S} (I : S → Prop) at_ n s (k : string → M S ()) : I s → 0 ≤ n ≤ str_len at_ ∨ 2 ^ 63 ≤ n →
  (∀ t, outcome_ok I (k t s)) → outcome_ok I ((std_string at_ n ≫= k) s).
Proof.
  intros HI Hn Hk. unfold std_string. destruct (n >? str_max) eqn:E; [done|].
  replace (n <=? str_len at_) with true by (unfold str_max in E; lia). apply Hk.
Qed.

(** A text between two marks, in the buffer of the call behind it. *)
Lemma marked pre w s : fits (pre ++ w ++ s) →
  LEN (str_len pre) (str_len (pre ++ w)) = str_len w ∧ PTR_TO ((pre ++ w) ++ s) (str_len pre) = w ++ s.
Proof.
  unfold fits. rewrite !str_len_app. pose proof (str_len_nonneg pre). pose proof (str_len_nonneg w). pose proof (str_len_nonneg s). intros. split.
  - unfold LEN. rewrite u64_small; lia.
  - unfold PTR_TO, str_len. rewrite Nat2Z.id, str_app_assoc. apply str_drop_app_exact.
Qed.
