(* ===== verification/Segments.v ===== *)
(** * Segments: texts on a stream

    Reading a text of known length, whatever pieces it arrives in; and for the examples, a
    peer that sends given texts, one per read, and the conversion of decimal texts. *)
From S2P Require Import Prelude Text Stream.
Open Scope string_scope.
Open Scope Z_scope.

(** All of the text is taken from the stream, or it ended within the text. *)
Lemma readFixSize_text {S} `{!Stream S, !StreamLaws S} b rest (s : S) : 0 < str_len b < 2 ^ 31 → incoming s = (bytes_of b ++ rest)%list →
  ∃ s' r d, readFixSize (str_len b) s = Done s' (r, d) ∧ outgoing s' = outgoing s ∧
    (0 < r ∧ text_of d = b ∧ zlen d = str_len b ∧ incoming s' = rest ∨ r ≤ 0).
Proof.
  intros Hb Hin. destruct (readFixSize_ok (S := S) (str_len b) s ltac:(lia)) as (s2 & r & d2 & Hr2 & Hin2 & Hout2 & Hd2).
  exists s2, r, d2. split; [done|]. split; [done|]. destruct Hd2 as [[Hd2 ->]|[_ ?]]; [left|by right].
  rewrite s32_small by lia. split; [lia|]. rewrite Hin in Hin2.
  assert (Hlen : List.length (bytes_of b) = List.length d2) by (rewrite <-zlen_bytes_of in Hd2; unfold zlen in Hd2; lia).
  destruct (app_inj_1 _ _ _ _ Hlen Hin2) as [<- Hrest]. by rewrite text_of_bytes_of, zlen_bytes_of.
Qed.

Definition chunks (l : list string) : chunked := mkChunked (bytes_of <$> l) [] [] false.
(** Decimal texts, for the conversion of [lexical_cast]. *)
Fixpoint undec_loop (s : string) (acc : Z) : option Z :=
  match s with
  | "" => Some acc
  | String c s => let v := byte_of c - 48 in if (0 <=? v) && (v <=? 9) then undec_loop s (10 * acc + v) else None
  end.
Definition undec (s : string) : option Z := if is_empty s then None else undec_loop s 0.
