(* ===== verification/Ragel.v ===== *)
(** * Ragel: the driver of the generated state machines

    The parsers of requests, responses and URIs are C code with one [case] per state
    that jumps to the label of a state ([st]) or of a transition with actions ([tr]).
    A machine is its two tables, one row per label, in the order of the code; this
    file is what the code around the labels does, and how runs are composed. *)
From S2P Require Import Prelude Text.
Open Scope string_scope.
Open Scope Z_scope.

(** [goto stN], [goto trN] *)
Inductive label := st (n : Z) | tr (n : Z).
(** [switch( v ) { case N: goto L; ... }], falling through to what follows it. *)
Fixpoint switch (v : Z) (cases : list (Z * label)) (otherwise : label) : label :=
  match cases with
  | [] => otherwise
  | (n, l) :: cases => if v =? n then l else switch v cases otherwise
  end.
(** The end of a [trN] block: [goto stN], or [{p++; cs = N; goto _out;}]. *)
Inductive dest := Goto (n : Z) | Break (n : Z).

#[export] Instance dest_eq_dec : EqDecision dest.
Proof. solve_decision. Defined.

(** The labels are listed in pieces: the first piece that has one. *)
Fixpoint first_some {F B} (at_ : F → option B) (pieces : list F) : option B :=
  match pieces with
  | [] => None
  | f :: pieces => match at_ f with Some b => Some b | None => first_some at_ pieces end
  end.
Lemma first_some_all {F B} (P : B → Prop) (at_ : F → option B) pieces b :
  Forall (λ f, ∀ b, at_ f = Some b → P b) pieces → first_some at_ pieces = Some b → P b.
Proof.
  induction 1 as [|f pieces Hf _ IH]; cbn; [done|]. destruct (at_ f) as [b'|] eqn:E; [|done]. intros [= <-]. by apply Hf.
Qed.

(** A [char] is signed. *)
Definition char_value (a : ascii) : Z := s8 (Z.of_N (N_of_ascii a)).

(** The generated tables: [case N:] of a state on a character ([None] where there is
    no such [case]), the actions and the end of a [trN] block, and the state of the
    first [_test_eof] label, which control reaches behind the [switch]. *)
Class Machine (A : Type) := {
  case : Z → Z → option label;
  trans : Z → list A * dest;
  first_test_eof : Z
}.

Section run.
Context {A : Type} `{!Machine A} {S : Type}.
(** An action of the grammar at the position [p]. *)
Context (act : A → Z → M S ()).

Fixpoint do_actions (l : list A) (p : Z) : M S () :=
  match l with [] => mret () | a :: l => act a p ;; do_actions l p end.

(** What a state does with a character: its actions and the jump behind them. *)
Definition edge (cs c : Z) : option (list A * dest) :=
  match case cs c with
  | Some (st n) => Some ([], Goto n)
  | Some (tr k) => Some (trans k)
  | None => None
  end.
(** The code from [case cs:] on, at position [p], [s] the text from [p] to [pe]:
    the values of [cs] and [p] at [_out].  [goto st0] stops without a step. *)
Fixpoint run (cs p : Z) (s : string) : M S (Z * Z) :=
  match s with
  | "" => mret (cs, p)
  | String c s =>
      match edge cs (char_value c) with
      | None => mret (first_test_eof, p)
      | Some (acts, d) =>
          do_actions acts p ;;
          match d with
          | Break n => mret (n, p + 1)
          | Goto n => if n =? 0 then mret (0, p) else run n (p + 1) s
          end
      end
  end.

(** ** Composing runs *)
(** A text that is consumed without any action, from [cs] to [cs']. *)
Inductive quiet : Z → string → Z → Prop :=
| quiet_nil cs : quiet cs "" cs
| quiet_cons cs n cs' c s : edge cs (char_value c) = Some ([], Goto n) → n ≠ 0 → quiet n s cs' → quiet cs (String c s) cs'.

Lemma run_quiet cs p w cs' s σ : quiet cs w cs' → run cs p (w ++ s) σ = run cs' (p + str_len w) s σ.
Proof.
  intros Hq. revert p. induction Hq as [cs|cs n cs' c w He Hn _ IH]; intros p.
  - cbn. by rewrite Z.add_0_r.
  - cbn [append run]. rewrite He. cbn [do_actions]. replace (n =? 0) with false by lia.
    change ((mret () ≫= λ _ : (), run n (p + 1) (w ++ s)) σ) with (run n (p + 1) (w ++ s) σ). rewrite IH.
    f_equal. unfold str_len. cbn [String.length]. lia.
Qed.
Lemma quiet_app cs w cs' w' cs'' : quiet cs w cs' → quiet cs' w' cs'' → quiet cs (w ++ w') cs''.
Proof. induction 1; [done|]. intros. cbn. econstructor; eauto. Qed.

(** One character with actions. *)
Lemma run_edge cs p c s acts n σ σ' : edge cs (char_value c) = Some (acts, Goto n) → n ≠ 0 → do_actions acts p σ = Done σ' () →
  run cs p (String c s) σ = run n (p + 1) s σ'.
Proof. intros He Hn Ha. cbn [run]. rewrite He. rewrite (bind_done _ _ _ _ _ Ha). by replace (n =? 0) with false by lia. Qed.
Lemma run_break cs p c s acts n σ σ' : edge cs (char_value c) = Some (acts, Break n) → do_actions acts p σ = Done σ' () →
  run cs p (String c s) σ = Done σ' (n, p + 1).
Proof. intros He Ha. cbn [run]. rewrite He. by rewrite (bind_done _ _ _ _ _ Ha). Qed.

(** Deciding that a closed text is consumed quietly. *)
Fixpoint quiet_to (cs : Z) (s : string) : option Z :=
  match s with
  | "" => Some cs
  | String c s => match edge cs (char_value c) with Some ([], Goto n) => if n =? 0 then None else quiet_to n s | _ => None end
  end.
Lemma quiet_to_ok s : ∀ cs cs', quiet_to cs s = Some cs' → quiet cs s cs'.
Proof.
  induction s as [|c s IH]; intros cs cs'; cbn [quiet_to]; [intros [= ->]; constructor|].
  destruct (edge cs (char_value c)) as [[[|a l] [n|n]]|] eqn:He; try done. destruct (n =? 0) eqn:Hn; [done|].
  intros H. econstructor; [exact He|lia|by apply IH].
Qed.

(** ** Simulating a small reference automaton

    [spec q c] is the next state of the reference, [above q] the states of the
    machine that may stand for [q].  [enters] and [simulates] are decided by computation
    over all 256 characters; a text the reference accepts is then consumed quietly. *)
Section simulation.
Context `{!EqDecision A} {Q : Type} (spec : Q → Z → option Q) (above : Q → list Z).
Fixpoint accepts (q : Q) (s : string) : option Q :=
  match s with
  | "" => Some q
  | String c s => match spec q (char_value c) with Some q' => accepts q' s | None => None end
  end.
Lemma accepts_app q s t : accepts q (s ++ t) = match accepts q s with Some q' => accepts q' t | None => None end.
Proof. revert q. induction s as [|c s IH]; intros q; [done|]. cbn. destruct (spec q (char_value c)); [apply IH|done]. Qed.
Definition steps_in (acts : list A) (cs c : Z) (to : list Z) : bool :=
  match edge cs c with Some (acts', Goto n) => bool_decide (acts' = acts) && negb (n =? 0) && existsb (Z.eqb n) to | _ => false end.
Definition chars : list Z := (λ n, Z.of_nat n - 128) <$> seq 0 256.
(** From [cs] the machine follows [spec q], with the actions [acts]. *)
Definition enters (acts : list A) (cs : Z) (q : Q) : bool :=
  forallb (λ c, match spec q c with Some q' => steps_in acts cs c (above q') | None => true end) chars.
Definition simulates (q : Q) : bool := forallb (λ cs, enters [] cs q) (above q).

(** All the states leave on a character in the same way. *)
Definition exits (states : list Z) (c : Z) (acts : list A) (n : Z) : bool :=
  negb (n =? 0) && forallb (λ cs, bool_decide (edge cs c = Some (acts, Goto n))) states.
Lemma exits_ok states c acts n cs : exits states c acts n = true → In cs states → n ≠ 0 ∧ edge cs c = Some (acts, Goto n).
Proof.
  intros [Hn Hall]%andb_true_iff Hin. rewrite forallb_forall in Hall. apply Hall, bool_decide_eq_true_1 in Hin. split; [by intros ->|done].
Qed.

Lemma chars_all (f : Z → bool) c : forallb f chars = true → f (char_value c) = true.
Proof.
  rewrite forallb_forall. intros H. apply H. clear. assert (Hb : existsb (Z.eqb (char_value c)) chars = true).
  { destruct c as [[] [] [] [] [] [] [] []]; reflexivity. }
  apply existsb_exists in Hb as (z & Hz & ->%Z.eqb_eq). exact Hz.
Qed.
Lemma enters_ok acts cs q q' c : enters acts cs q = true → spec q (char_value c) = Some q' →
  ∃ n, edge cs (char_value c) = Some (acts, Goto n) ∧ n ≠ 0 ∧ In n (above q').
Proof.
  intros Hst Hs. apply (chars_all _ c) in Hst. cbv beta in Hst. rewrite Hs in Hst. unfold steps_in in Hst.
  destruct (edge cs (char_value c)) as [[acts' [n|n]]|] eqn:He; try done. apply andb_true_iff in Hst as [[Ha%bool_decide_eq_true_1 Hn0]%andb_true_iff Hin].
  apply existsb_exists in Hin as (n' & Hin & ->%Z.eqb_eq). subst acts'. exists n'. split; [done|]. split; [|done]. by intros ->.
Qed.
Lemma simulates_quiet : (∀ q, simulates q = true) →
  ∀ s q q' cs, In cs (above q) → accepts q s = Some q' → ∃ cs', In cs' (above q') ∧ quiet cs s cs'.
Proof.
  intros Hsim. induction s as [|c s IH]; intros q q' cs Hcs Ha; cbn in Ha.
  { injection Ha as <-. exists cs. split; [done|constructor]. }
  destruct (spec q (char_value c)) as [q1|] eqn:Hs; [|done].
  pose proof (Hsim q) as Hst. unfold simulates in Hst. rewrite forallb_forall in Hst.
  destruct (enters_ok [] cs q q1 c (Hst cs Hcs) Hs) as (n & He & Hn & Hin).
  destruct (IH q1 q' n Hin Ha) as (cs' & Hin' & Hquiet). exists cs'. split; [done|]. by econstructor.
Qed.
(** Entering with actions, then quietly on. *)
Lemma enters_quiet acts cs q s c q' : (∀ q, simulates q = true) → enters acts cs q = true → accepts q (String c s) = Some q' →
  ∃ n cs', edge cs (char_value c) = Some (acts, Goto n) ∧ n ≠ 0 ∧ In cs' (above q') ∧ quiet n s cs'.
Proof.
  intros Hsim Hent Ha. cbn in Ha. destruct (spec q (char_value c)) as [q1|] eqn:Hs; [|done].
  destruct (enters_ok _ _ _ _ _ Hent Hs) as (n & He & Hn & Hin). destruct (simulates_quiet Hsim s q1 q' n Hin Ha) as (cs' & Hin' & Hq). eauto 8.
Qed.
End simulation.
End run.

(** ** Runs inside a text

    Actions that look at the text they run over: [parse pre cs s] is the machine in
    state [cs] between [pre] and [s]. *)
Section parse.
Context {A : Type} `{!Machine A, !EqDecision A} {S : Type} (act : string → A → Z → M S ()).
Definition parse (pre : string) (cs : Z) (s : string) : M S (Z * Z) := run (act (pre ++ s)) cs (str_len pre) s.

Lemma parse_quiet pre cs w cs' s σ : quiet cs w cs' → parse pre cs (w ++ s) σ = parse (pre ++ w) cs' s σ.
Proof. intros Hq. unfold parse. by rewrite (run_quiet _ _ _ _ _ _ _ Hq), str_len_app, str_app_assoc. Qed.
Lemma parse_edge pre cs c s acts n σ σ' : edge cs (char_value c) = Some (acts, Goto n) → n ≠ 0 →
  do_actions (act (pre ++ String c s)) acts (str_len pre) σ = Done σ' () →
  parse pre cs (String c s) σ = parse (pre ++ String c "") n s σ'.
Proof.
  intros He Hn Ha. unfold parse. rewrite (run_edge _ _ _ _ _ _ _ _ _ He Hn Ha). by rewrite str_len_app, str_app_assoc.
Qed.
(** One action behind which others may follow. *)
Lemma do_action b a l p σ σ' : act b a p σ = Done σ' () → do_actions (act b) (a :: l) p σ = do_actions (act b) l p σ'.
Proof. intros H. cbn [do_actions]. by rewrite (bind_done _ _ _ _ _ H). Qed.
(** A text of a reference grammar, with actions on its first character. *)
Lemma parse_token_acts {Q} (spec : Q → Z → option Q) above acts (G : Z → S) cs0 z0 zf pre w s σ :
  (∀ z, simulates spec above z = true) → enters spec above acts cs0 z0 = true →
  (∀ b p, do_actions (act b) acts p σ = Done (G p) ()) → w ≠ "" → accepts spec z0 w = Some zf →
  ∃ cs', In cs' (above zf) ∧ parse pre cs0 (w ++ s) σ = parse (pre ++ w) cs' s (G (str_len pre)).
Proof.
  intros Hsim Hent Hact Hne Ha. destruct w as [|c w]; [done|].
  destruct (enters_quiet spec above acts cs0 z0 w c zf Hsim Hent Ha) as (n & cs' & He & Hn & Hin & Hq).
  exists cs'. split; [done|]. cbn [append].
  rewrite (parse_edge pre cs0 c _ acts n _ (G (str_len pre)) He Hn (Hact _ _)).
  by rewrite (parse_quiet _ _ _ _ _ _ Hq), (str_app_assoc pre).
Qed.
(** The usual case: the first character is marked. *)
Lemma parse_token {Q} (spec : Q → Z → option Q) above a0 (G : Z → S) cs0 z0 zf pre w s σ :
  (∀ z, simulates spec above z = true) → enters spec above [a0] cs0 z0 = true →
  (∀ b p, act b a0 p σ = Done (G p) ()) → w ≠ "" → accepts spec z0 w = Some zf →
  ∃ cs', In cs' (above zf) ∧ parse pre cs0 (w ++ s) σ = parse (pre ++ w) cs' s (G (str_len pre)).
Proof. intros Hsim Hent Hact. apply (parse_token_acts spec above [a0]); [done|done|]. intros b p. by rewrite (do_action _ _ _ _ _ _ (Hact _ _)). Qed.
End parse.
