(* ===== verification/Http.v ===== *)
(** * Http ([webserve/http/http.h], [webserve/http/http.cc])

    Methods and status codes, the case-insensitive header maps, requests and
    responses with their accessors, and their serialisation.  An [HttpStatus] is
    one of the enumerators or another [int], which a cast can produce. *)
From S2P Require Import Prelude Text.
Open Scope string_scope.
Open Scope Z_scope.

Inductive HttpMethod :=
| DELETE | GET | HEAD | POST | PUT | CONNECT | OPTIONS | TRACE | COPY | LOCK | MKCOL
| MOVE | PROPFIND | PROPPATCH | SEARCH | UNLOCK | BIND | REBIND | UNBIND | ACL
| REPORT | MKACTIVITY | CHECKOUT | MERGE | MSEARCH | NOTIFY | SUBSCRIBE | UNSUBSCRIBE
| PATCH | PURGE | MKCALENDAR | LINK | UNLINK | SOURCE | INVALID_METHOD.

Inductive HttpStatus :=
| CONTINUE | SWITCHING_PROTOCOLS | PROCESSING | OK | CREATED | ACCEPTED
| NON_AUTHORITATIVE_INFORMATION | NO_CONTENT | RESET_CONTENT | PARTIAL_CONTENT
| MULTI_STATUS | ALREADY_REPORTED | IM_USED | MULTIPLE_CHOICES | MOVED_PERMANENTLY
| FOUND | SEE_OTHER | NOT_MODIFIED | USE_PROXY | TEMPORARY_REDIRECT
| PERMANENT_REDIRECT | BAD_REQUEST | UNAUTHORIZED | PAYMENT_REQUIRED | FORBIDDEN
| NOT_FOUND | METHOD_NOT_ALLOWED | NOT_ACCEPTABLE | PROXY_AUTHENTICATION_REQUIRED
| REQUEST_TIMEOUT | CONFLICT | GONE | LENGTH_REQUIRED | PRECONDITION_FAILED
| PAYLOAD_TOO_LARGE | URI_TOO_LONG | UNSUPPORTED_MEDIA_TYPE | RANGE_NOT_SATISFIABLE
| EXPECTATION_FAILED | MISDIRECTED_REQUEST | UNPROCESSABLE_ENTITY | LOCKED
| FAILED_DEPENDENCY | UPGRADE_REQUIRED | PRECONDITION_REQUIRED | TOO_MANY_REQUESTS
| REQUEST_HEADER_FIELDS_TOO_LARGE | UNAVAILABLE_FOR_LEGAL_REASONS
| INTERNAL_SERVER_ERROR | NOT_IMPLEMENTED | BAD_GATEWAY | SERVICE_UNAVAILABLE
| GATEWAY_TIMEOUT | HTTP_VERSION_NOT_SUPPORTED | VARIANT_ALSO_NEGOTIATES
| INSUFFICIENT_STORAGE | LOOP_DETECTED | NOT_EXTENDED
| NETWORK_AUTHENTICATION_REQUIRED
| OTHER_STATUS (code : Z).

#[export] Instance HttpMethod_eq_dec : EqDecision HttpMethod.
Proof. solve_decision. Defined.
#[export] Instance HttpStatus_eq_dec : EqDecision HttpStatus.
Proof. solve_decision. Defined.

(** [HTTP_METHOD_MAP]: the enumerators with their numbers and strings, in order. *)
Definition HTTP_METHOD_MAP : list (Z * HttpMethod * string) :=
  [(0, DELETE, "DELETE");
   (1, GET, "GET");
   (2, HEAD, "HEAD");
   (3, POST, "POST");
   (4, PUT, "PUT");
   (5, CONNECT, "CONNECT");
   (6, OPTIONS, "OPTIONS");
   (7, TRACE, "TRACE");
   (8, COPY, "COPY");
   (9, LOCK, "LOCK");
   (10, MKCOL, "MKCOL");
   (11, MOVE, "MOVE");
   (12, PROPFIND, "PROPFIND");
   (13, PROPPATCH, "PROPPATCH");
   (14, SEARCH, "SEARCH");
   (15, UNLOCK, "UNLOCK");
   (16, BIND, "BIND");
   (17, REBIND, "REBIND");
   (18, UNBIND, "UNBIND");
   (19, ACL, "ACL");
   (20, REPORT, "REPORT");
   (21, MKACTIVITY, "MKACTIVITY");
   (22, CHECKOUT, "CHECKOUT");
   (23, MERGE, "MERGE");
   (24, MSEARCH, "M-SEARCH");
   (25, NOTIFY, "NOTIFY");
   (26, SUBSCRIBE, "SUBSCRIBE");
   (27, UNSUBSCRIBE, "UNSUBSCRIBE");
   (28, PATCH, "PATCH");
   (29, PURGE, "PURGE");
   (30, MKCALENDAR, "MKCALENDAR");
   (31, LINK, "LINK");
   (32, UNLINK, "UNLINK");
   (33, SOURCE, "SOURCE")].

(** [HTTP_STATUS_MAP] *)
Definition HTTP_STATUS_MAP : list (Z * HttpStatus * string) :=
  [(100, CONTINUE, "Continue");
   (101, SWITCHING_PROTOCOLS, "Switching Protocols");
   (102, PROCESSING, "Processing");
   (200, OK, "OK");
   (201, CREATED, "Created");
   (202, ACCEPTED, "Accepted");
   (203, NON_AUTHORITATIVE_INFORMATION, "Non-Authoritative Information");
   (204, NO_CONTENT, "No Content");
   (205, RESET_CONTENT, "Reset Content");
   (206, PARTIAL_CONTENT, "Partial Content");
   (207, MULTI_STATUS, "Multi-Status");
   (208, ALREADY_REPORTED, "Already Reported");
   (226, IM_USED, "IM Used");
   (300, MULTIPLE_CHOICES, "Multiple Choices");
   (301, MOVED_PERMANENTLY, "Moved Permanently");
   (302, FOUND, "Found");
   (303, SEE_OTHER, "See Other");
   (304, NOT_MODIFIED, "Not Modified");
   (305, USE_PROXY, "Use Proxy");
   (307, TEMPORARY_REDIRECT, "Temporary Redirect");
   (308, PERMANENT_REDIRECT, "Permanent Redirect");
   (400, BAD_REQUEST, "Bad Request");
   (401, UNAUTHORIZED, "Unauthorized");
   (402, PAYMENT_REQUIRED, "Payment Required");
   (403, FORBIDDEN, "Forbidden");
   (404, NOT_FOUND, "Not Found");
   (405, METHOD_NOT_ALLOWED, "Method Not Allowed");
   (406, NOT_ACCEPTABLE, "Not Acceptable");
   (407, PROXY_AUTHENTICATION_REQUIRED, "Proxy Authentication Required");
   (408, REQUEST_TIMEOUT, "Request Timeout");
   (409, CONFLICT, "Conflict");
   (410, GONE, "Gone");
   (411, LENGTH_REQUIRED, "Length Required");
   (412, PRECONDITION_FAILED, "Precondition Failed");
   (413, PAYLOAD_TOO_LARGE, "Payload Too Large");
   (414, URI_TOO_LONG, "URI Too Long");
   (415, UNSUPPORTED_MEDIA_TYPE, "Unsupported Media Type");
   (416, RANGE_NOT_SATISFIABLE, "Range Not Satisfiable");
   (417, EXPECTATION_FAILED, "Expectation Failed");
   (421, MISDIRECTED_REQUEST, "Misdirected Request");
   (422, UNPROCESSABLE_ENTITY, "Unprocessable Entity");
   (423, LOCKED, "Locked");
   (424, FAILED_DEPENDENCY, "Failed Dependency");
   (426, UPGRADE_REQUIRED, "Upgrade Required");
   (428, PRECONDITION_REQUIRED, "Precondition Required");
   (429, TOO_MANY_REQUESTS, "Too Many Requests");
   (431, REQUEST_HEADER_FIELDS_TOO_LARGE, "Request Header Fields Too Large");
   (451, UNAVAILABLE_FOR_LEGAL_REASONS, "Unavailable For Legal Reasons");
   (500, INTERNAL_SERVER_ERROR, "Internal Server Error");
   (501, NOT_IMPLEMENTED, "Not Implemented");
   (502, BAD_GATEWAY, "Bad Gateway");
   (503, SERVICE_UNAVAILABLE, "Service Unavailable");
   (504, GATEWAY_TIMEOUT, "Gateway Timeout");
   (505, HTTP_VERSION_NOT_SUPPORTED, "HTTP Version Not Supported");
   (506, VARIANT_ALSO_NEGOTIATES, "Variant Also Negotiates");
   (507, INSUFFICIENT_STORAGE, "Insufficient Storage");
   (508, LOOP_DETECTED, "Loop Detected");
   (510, NOT_EXTENDED, "Not Extended");
   (511, NETWORK_AUTHENTICATION_REQUIRED, "Network Authentication Required")].

(** The underlying integers of the enumerations, and the casts to them. *)
Definition method_num (m : HttpMethod) : Z :=
  match List.find (λ e, bool_decide (e.1.2 = m)) HTTP_METHOD_MAP with Some e => e.1.1 | None => 34 end.
Definition status_code (s : HttpStatus) : Z :=
  match s with
  | OTHER_STATUS code => code
  | _ => match List.find (λ e, bool_decide (e.1.2 = s)) HTTP_STATUS_MAP with Some e => e.1.1 | None => 0 end
  end.
Definition status_of_code (code : Z) : HttpStatus :=
  match List.find (λ e, e.1.1 =? code) HTTP_STATUS_MAP with Some e => e.1.2 | None => OTHER_STATUS code end.

(** The [strcmp] chain of [StringToHttpMethod]. *)
Fixpoint first_match (test : string → bool) (l : list (Z * HttpMethod * string)) : HttpMethod :=
  match l with
  | [] => INVALID_METHOD
  | (_, name, str) :: l => if test str then name else first_match test l
  end.
Definition StringToHttpMethod (m : string) : HttpMethod :=
  first_match (λ str, cmp_eq (strcmp str m)) HTTP_METHOD_MAP.
(** [CharsToHttpMethod]: [strncmp] on the length of the table's string. *)
Definition CharsToHttpMethod (m : string) : HttpMethod :=
  first_match (λ str, strncmp_eq str m) HTTP_METHOD_MAP.

(** [s_method_string] and [HttpMethodToString] *)
Definition s_method_string : list string := snd <$> HTTP_METHOD_MAP.
Definition HttpMethodToString (m : HttpMethod) : string :=
  let idx := u32 (method_num m) in
  if idx >=? zlen s_method_string then "<unknown>"
  else default "" (s_method_string !! Z.to_nat idx).

Definition HttpStatusToString (s : HttpStatus) : string :=
  match List.find (λ e, bool_decide (e.1.2 = s)) HTTP_STATUS_MAP with Some e => e.2 | None => "<unknown>" end.

(** ** [std::map<std::string, std::string, CaseInsensitiveLess>]

    The entries in the order of the comparator. *)
Definition CaseInsensitiveLess (lhs rhs : string) : bool :=
  match strcasecmp lhs rhs with Lt => true | _ => false end.
Definition MapType := list (string * string).

(** [find(key)] *)
Fixpoint map_find (key : string) (m : MapType) : option string :=
  match m with
  | [] => None
  | (k, v) :: m =>
      if CaseInsensitiveLess k key then map_find key m
      else if CaseInsensitiveLess key k then None else Some v
  end.
(** [m[key] = val]: an equivalent key that is present keeps its spelling. *)
Fixpoint map_set (key val : string) (m : MapType) : MapType :=
  match m with
  | [] => [(key, val)]
  | (k, v) :: m' =>
      if CaseInsensitiveLess k key then (k, v) :: map_set key val m'
      else if CaseInsensitiveLess key k then (key, val) :: m else (k, val) :: m'
  end.
(** [m.erase(key)] *)
Fixpoint map_erase (key : string) (m : MapType) : MapType :=
  match m with
  | [] => []
  | (k, v) :: m' =>
      if CaseInsensitiveLess k key then (k, v) :: map_erase key m'
      else if CaseInsensitiveLess key k then m else m'
  end.

(** [checkGetAs] and [getAs]; [lexical_cast] is Boost's, [None] when it throws. *)
Section get_as.
Context {T : Type} (lexical_cast : string → option T).
Definition checkGetAs (m : MapType) (key : string) (def : T) : bool * T :=
  match map_find key m with
  | None => (false, def)
  | Some s => match lexical_cast s with Some v => (true, v) | None => (false, def) end
  end.
Definition getAs (m : MapType) (key : string) (def : T) : T :=
  match map_find key m with
  | None => def
  | Some s => match lexical_cast s with Some v => v | None => def end
  end.
End get_as.

(** ** HttpRequest *)
Record HttpRequest := mkHttpRequest {
  m_method : HttpMethod; m_version : Z; m_close : bool; m_websocket : bool; m_parserParamFlag : Z;
  m_path : string; m_query : string; m_fragment : string; m_body : string;
  m_headers : MapType; m_params : MapType; m_cookies : MapType
}.

(** [HttpRequest::HttpRequest(version, close)] *)
Definition HttpRequest_new (version : Z) (close : bool) : HttpRequest :=
  mkHttpRequest GET version close false 0 "/" "" "" "" [] [] [].

Definition setMethod (v : HttpMethod) (r : HttpRequest) : HttpRequest :=
  mkHttpRequest v (m_version r) (m_close r) (m_websocket r) (m_parserParamFlag r) (m_path r) (m_query r) (m_fragment r) (m_body r) (m_headers r) (m_params r) (m_cookies r).
Definition setVersion (v : Z) (r : HttpRequest) : HttpRequest :=
  mkHttpRequest (m_method r) v (m_close r) (m_websocket r) (m_parserParamFlag r) (m_path r) (m_query r) (m_fragment r) (m_body r) (m_headers r) (m_params r) (m_cookies r).
Definition setClose (v : bool) (r : HttpRequest) : HttpRequest :=
  mkHttpRequest (m_method r) (m_version r) v (m_websocket r) (m_parserParamFlag r) (m_path r) (m_query r) (m_fragment r) (m_body r) (m_headers r) (m_params r) (m_cookies r).
Definition set_flag (v : Z) (r : HttpRequest) : HttpRequest :=
  mkHttpRequest (m_method r) (m_version r) (m_close r) (m_websocket r) v (m_path r) (m_query r) (m_fragment r) (m_body r) (m_headers r) (m_params r) (m_cookies r).
Definition setPath (v : string) (r : HttpRequest) : HttpRequest :=
  mkHttpRequest (m_method r) (m_version r) (m_close r) (m_websocket r) (m_parserParamFlag r) v (m_query r) (m_fragment r) (m_body r) (m_headers r) (m_params r) (m_cookies r).
Definition setQuery (v : string) (r : HttpRequest) : HttpRequest :=
  mkHttpRequest (m_method r) (m_version r) (m_close r) (m_websocket r) (m_parserParamFlag r) (m_path r) v (m_fragment r) (m_body r) (m_headers r) (m_params r) (m_cookies r).
Definition setFragment (v : string) (r : HttpRequest) : HttpRequest :=
  mkHttpRequest (m_method r) (m_version r) (m_close r) (m_websocket r) (m_parserParamFlag r) (m_path r) (m_query r) v (m_body r) (m_headers r) (m_params r) (m_cookies r).
Definition setBody (v : string) (r : HttpRequest) : HttpRequest :=
  mkHttpRequest (m_method r) (m_version r) (m_close r) (m_websocket r) (m_parserParamFlag r) (m_path r) (m_query r) (m_fragment r) v (m_headers r) (m_params r) (m_cookies r).
Definition setWebsocket (v : bool) (r : HttpRequest) : HttpRequest :=
  mkHttpRequest (m_method r) (m_version r) (m_close r) v (m_parserParamFlag r) (m_path r) (m_query r) (m_fragment r) (m_body r) (m_headers r) (m_params r) (m_cookies r).
Definition setHeaders (v : MapType) (r : HttpRequest) : HttpRequest :=
  mkHttpRequest (m_method r) (m_version r) (m_close r) (m_websocket r) (m_parserParamFlag r) (m_path r) (m_query r) (m_fragment r) (m_body r) v (m_params r) (m_cookies r).
Definition setParams (v : MapType) (r : HttpRequest) : HttpRequest :=
  mkHttpRequest (m_method r) (m_version r) (m_close r) (m_websocket r) (m_parserParamFlag r) (m_path r) (m_query r) (m_fragment r) (m_body r) (m_headers r) v (m_cookies r).
Definition setCookies (v : MapType) (r : HttpRequest) : HttpRequest :=
  mkHttpRequest (m_method r) (m_version r) (m_close r) (m_websocket r) (m_parserParamFlag r) (m_path r) (m_query r) (m_fragment r) (m_body r) (m_headers r) (m_params r) v.

Definition getHeader (key def : string) (r : HttpRequest) : string := default def (map_find key (m_headers r)).
Definition setHeader (key val : string) (r : HttpRequest) : HttpRequest := setHeaders (map_set key val (m_headers r)) r.
Definition setParam (key val : string) (r : HttpRequest) : HttpRequest := setParams (map_set key val (m_params r)) r.
Definition setCookie (key val : string) (r : HttpRequest) : HttpRequest := setCookies (map_set key val (m_cookies r)) r.
Definition delHeader (key : string) (r : HttpRequest) : HttpRequest := setHeaders (map_erase key (m_headers r)) r.
Definition delParam (key : string) (r : HttpRequest) : HttpRequest := setParams (map_erase key (m_params r)) r.
Definition delCookie (key : string) (r : HttpRequest) : HttpRequest := setCookies (map_erase key (m_cookies r)) r.

(** The lazy parsing of parameters and cookies: the [PARSE_PARAM] calls are
    commented out in the source, so that only the flags change. *)
Definition has_flag (f : Z) (r : HttpRequest) : bool := negb (Z.land (m_parserParamFlag r) f =? 0).
Definition add_flag (f : Z) (r : HttpRequest) : HttpRequest := set_flag (u8 (Z.lor (m_parserParamFlag r) f)) r.
Definition initQueryParam (r : HttpRequest) : HttpRequest :=
  if has_flag 1 r then r else add_flag 1 r.
Definition initBodyParam (r : HttpRequest) : HttpRequest :=
  if has_flag 2 r then r else
  let content_type := getHeader "content-type" "" r in
  if negb (strcasestr content_type "application/x-www-form-urlencoded") then add_flag 2 r
  else add_flag 2 r.
Definition initCookies (r : HttpRequest) : HttpRequest :=
  if has_flag 4 r then r else
  let cookie := getHeader "cookie" "" r in
  if is_empty cookie then add_flag 4 r else add_flag 4 r.
Definition initParam (r : HttpRequest) : HttpRequest := initCookies (initBodyParam (initQueryParam r)).

(** The accessors that parse first return the request as well. *)
Definition getParam (key def : string) (r : HttpRequest) : HttpRequest * string :=
  let r := initBodyParam (initQueryParam r) in (r, default def (map_find key (m_params r))).
Definition getCookie (key def : string) (r : HttpRequest) : HttpRequest * string :=
  let r := initCookies r in (r, default def (map_find key (m_cookies r))).
Definition hasHeader (key : string) (r : HttpRequest) : option string := map_find key (m_headers r).
Definition hasParam (key : string) (r : HttpRequest) : HttpRequest * option string :=
  let r := initBodyParam (initQueryParam r) in (r, map_find key (m_params r)).
Definition hasCookie (key : string) (r : HttpRequest) : HttpRequest * option string :=
  let r := initCookies r in (r, map_find key (m_cookies r)).

(** The typed accessors. *)
Section typed.
Context {T : Type} (lexical_cast : string → option T).
Definition checkGetHeaderAs (key : string) (def : T) (r : HttpRequest) : bool * T := checkGetAs lexical_cast (m_headers r) key def.
Definition getHeaderAs (key : string) (def : T) (r : HttpRequest) : T := getAs lexical_cast (m_headers r) key def.
Definition checkGetParamAs (key : string) (def : T) (r : HttpRequest) : HttpRequest * (bool * T) :=
  let r := initBodyParam (initQueryParam r) in (r, checkGetAs lexical_cast (m_params r) key def).
Definition getParamAs (key : string) (def : T) (r : HttpRequest) : HttpRequest * T :=
  let r := initBodyParam (initQueryParam r) in (r, getAs lexical_cast (m_params r) key def).
Definition checkGetCookieAs (key : string) (def : T) (r : HttpRequest) : HttpRequest * (bool * T) :=
  let r := initCookies r in (r, checkGetAs lexical_cast (m_cookies r) key def).
Definition getCookieAs (key : string) (def : T) (r : HttpRequest) : HttpRequest * T :=
  let r := initCookies r in (r, getAs lexical_cast (m_cookies r) key def).
End typed.

(** [HttpRequest::init] *)
Definition init (r : HttpRequest) : HttpRequest :=
  let conn := getHeader "connection" "" r in
  if negb (is_empty conn) then
    if cmp_eq (strcasecmp conn "keep-alive") then setClose false r else setClose true r
  else r.

(** The header lines of [dump]: [connection] is left out unless websocket. *)
Fixpoint dump_headers (websocket : bool) (m : MapType) : string :=
  match m with
  | [] => ""
  | (k, v) :: m =>
      (if negb websocket && cmp_eq (strcasecmp k "connection") then ""
       else k ++ ": " ++ v ++ CRLF) ++ dump_headers websocket m
  end.
Definition dump_connection (websocket close : bool) : string :=
  if websocket then "" else "connection: " ++ (if close then "close" else "keep-alive") ++ CRLF.
Definition dump_body (body : string) : string :=
  if is_empty body then CRLF
  else "content-length: " ++ dec (str_len body) ++ CRLF ++ CRLF ++ body.
Definition dump_version (v : Z) : string :=
  "HTTP/" ++ dec (u32 (Z.shiftr v 4)) ++ "." ++ dec (u32 (Z.land v 0x0F)).

(** [HttpRequest::dump] and [HttpRequest::toString] *)
Definition HttpRequest_dump (r : HttpRequest) : string :=
  HttpMethodToString (m_method r) ++ " " ++ m_path r ++
  (if is_empty (m_query r) then "" else "?") ++ m_query r ++
  (if is_empty (m_fragment r) then "" else "#") ++ m_fragment r ++
  " " ++ dump_version (m_version r) ++ CRLF ++
  dump_connection (m_websocket r) (m_close r) ++
  dump_headers (m_websocket r) (m_headers r) ++
  dump_body (m_body r).

(** ** HttpResponse *)
Record HttpResponse := mkHttpResponse {
  p_status : HttpStatus; p_version : Z; p_close : bool; p_websocket : bool;
  p_body : string; p_reason : string; p_headers : MapType; p_cookies : list string
}.
(** [HttpResponse::HttpResponse(version, close)] *)
Definition HttpResponse_new (version : Z) (close : bool) : HttpResponse :=
  mkHttpResponse OK version close false "" "" [] [].
Definition rsp_setStatus (v : HttpStatus) (r : HttpResponse) : HttpResponse :=
  mkHttpResponse v (p_version r) (p_close r) (p_websocket r) (p_body r) (p_reason r) (p_headers r) (p_cookies r).
Definition rsp_setVersion (v : Z) (r : HttpResponse) : HttpResponse :=
  mkHttpResponse (p_status r) v (p_close r) (p_websocket r) (p_body r) (p_reason r) (p_headers r) (p_cookies r).
Definition rsp_setClose (v : bool) (r : HttpResponse) : HttpResponse :=
  mkHttpResponse (p_status r) (p_version r) v (p_websocket r) (p_body r) (p_reason r) (p_headers r) (p_cookies r).
Definition rsp_setWebsocket (v : bool) (r : HttpResponse) : HttpResponse :=
  mkHttpResponse (p_status r) (p_version r) (p_close r) v (p_body r) (p_reason r) (p_headers r) (p_cookies r).
Definition rsp_setBody (v : string) (r : HttpResponse) : HttpResponse :=
  mkHttpResponse (p_status r) (p_version r) (p_close r) (p_websocket r) v (p_reason r) (p_headers r) (p_cookies r).
Definition rsp_setReason (v : string) (r : HttpResponse) : HttpResponse :=
  mkHttpResponse (p_status r) (p_version r) (p_close r) (p_websocket r) (p_body r) v (p_headers r) (p_cookies r).
Definition rsp_setHeaders (v : MapType) (r : HttpResponse) : HttpResponse :=
  mkHttpResponse (p_status r) (p_version r) (p_close r) (p_websocket r) (p_body r) (p_reason r) v (p_cookies r).
Definition rsp_getHeader (key def : string) (r : HttpResponse) : string := default def (map_find key (p_headers r)).
Definition rsp_setHeader (key val : string) (r : HttpResponse) : HttpResponse := rsp_setHeaders (map_set key val (p_headers r)) r.
Definition rsp_checkGetHeaderAs {T : Type} (lexical_cast : string → option T) (key : string) (def : T) (r : HttpResponse) : bool * T :=
  checkGetAs lexical_cast (p_headers r) key def.
Definition rsp_getHeaderAs {T : Type} (lexical_cast : string → option T) (key : string) (def : T) (r : HttpResponse) : T :=
  getAs lexical_cast (p_headers r) key def.
Definition rsp_delHeader (key : string) (r : HttpResponse) : HttpResponse := rsp_setHeaders (map_erase key (p_headers r)) r.
(** [HttpResponse::setRedirect] *)
Definition setRedirect (uri : string) (r : HttpResponse) : HttpResponse :=
  rsp_setHeader "Location" uri (rsp_setStatus FOUND r).
(** [HttpResponse::setCookie]; the expiry date is commented out in the source. *)
Definition rsp_setCookie (key val : string) (expired : Z) (path domain : string) (secure : bool) (r : HttpResponse) : HttpResponse :=
  let ss := key ++ "=" ++ val ++
    (if is_empty domain then "" else ";domain=" ++ domain) ++
    (if is_empty path then "" else ";path=" ++ path) ++
    (if secure then ";secure" else "") in
  mkHttpResponse (p_status r) (p_version r) (p_close r) (p_websocket r) (p_body r) (p_reason r) (p_headers r)
    (p_cookies r ++ [ss])%list.

(** [HttpRequest::createResponse] *)
Definition createResponse (r : HttpRequest) : HttpResponse := HttpResponse_new (m_version r) (m_close r).

Fixpoint dump_cookies (l : list string) : string :=
  match l with [] => "" | c :: l => "Set-Cookie: " ++ c ++ CRLF ++ dump_cookies l end.
(** [HttpResponse::dump] *)
Definition HttpResponse_dump (r : HttpResponse) : string :=
  dump_version (p_version r) ++ " " ++ dec (u32 (status_code (p_status r))) ++ " " ++
  (if is_empty (p_reason r) then HttpStatusToString (p_status r) else p_reason r) ++ CRLF ++
  dump_headers (p_websocket r) (p_headers r) ++
  dump_cookies (p_cookies r) ++
  dump_connection (p_websocket r) (p_close r) ++
  dump_body (p_body r).
