(* ===== verification/HttpFacts.v ===== *)
(** * HttpFacts: the theorems on methods, header maps and serialisation *)
From Stdlib Require Import Sorting.Sorted.
From S2P Require Import Prelude Text Http.
Open Scope string_scope.
Open Scope Z_scope.

(** ** Methods *)
Lemma strcmp_lit lit m : c_str lit = lit → cmp_eq (strcmp lit m) = true ↔ c_str m = lit.
Proof.
  intros Hl. unfold strcmp. rewrite Hl. destruct (String.compare lit (c_str m)) eqn:E; cbn; split; try done.
  - by apply str_compare_eq in E.
  - intros He. rewrite He, str_compare_refl in E. done.
  - intros He. rewrite He, str_compare_refl in E. done.
Qed.

Lemma first_match_sound test l m : first_match test l = m → m ≠ INVALID_METHOD →
  ∃ n str, (n, m, str) ∈ l ∧ test str = true.
Proof.
  induction l as [|[[n name] str] l IH]; cbn; [congruence|]. destruct (test str) eqn:E.
  - intros <- _. exists n, str. split; [by left|done].
  - intros Hm Hne. destruct (IH Hm Hne) as (n' & str' & ? & ?). exists n', str'. split; [by right|done].
Qed.

(** What the table says of an entry. *)
Lemma method_table n m str : (n, m, str) ∈ HTTP_METHOD_MAP →
  HttpMethodToString m = str ∧ c_str str = str ∧ method_num m = n.
Proof.
  intros Hin. repeat (apply elem_of_cons in Hin as [[= -> -> ->]|Hin]; [by vm_compute|]). by apply not_elem_of_nil in Hin.
Qed.

Lemma method_name_ok m : c_str (HttpMethodToString m) = HttpMethodToString m ∧ HttpMethodToString m ≠ "".
Proof. destruct m; split; by vm_compute. Qed.


Lemma prefix_spec a s : String.prefix a s = true → ∃ rest, s = a ++ rest.
Proof.
  revert s. induction a as [|x a IH]; intros s; [by exists s|].
  destruct s as [|y s]; [done|]. cbn. destruct (ascii_dec x y) as [->|]; [|done].
  intros H. destruct (IH s H) as [rest ->]. by exists rest.
Qed.

(** ** Header maps *)
Definition ci_lt (a b : string * string) : Prop := CaseInsensitiveLess a.1 b.1 = true.
Definition map_ok (m : MapType) : Prop := StronglySorted ci_lt m.
(** The finite map from case-folded names to values. *)
Definition to_gmap (m : MapType) : gmap string string := list_to_map ((λ e, (fold_case e.1, e.2)) <$> m).

Lemma ci_cases a b :
  CaseInsensitiveLess a b = true ∧ CaseInsensitiveLess b a = false ∧ fold_case a ≠ fold_case b ∨
  CaseInsensitiveLess a b = false ∧ CaseInsensitiveLess b a = true ∧ fold_case a ≠ fold_case b ∨
  CaseInsensitiveLess a b = false ∧ CaseInsensitiveLess b a = false ∧ fold_case a = fold_case b.
Proof.
  unfold CaseInsensitiveLess, strcasecmp. rewrite (str_compare_antisym (fold_case a) (fold_case b)).
  destruct (String.compare (fold_case a) (fold_case b)) eqn:E; cbn.
  - right; right. apply str_compare_eq in E. done.
  - left. repeat split. intros He. rewrite He, str_compare_refl in E. done.
  - right; left. repeat split. intros He. rewrite He, str_compare_refl in E. done.
Qed.
Lemma ci_trans a b c : CaseInsensitiveLess a b = true → CaseInsensitiveLess b c = true → CaseInsensitiveLess a c = true.
Proof.
  unfold CaseInsensitiveLess, strcasecmp. destruct (String.compare (fold_case a) _) eqn:E1; try done.
  destruct (String.compare (fold_case b) _) eqn:E2; try done. by rewrite (str_compare_trans _ _ _ E1 E2).
Qed.
Lemma ci_fold a a' b : fold_case a = fold_case a' → CaseInsensitiveLess a b = CaseInsensitiveLess a' b.
Proof. unfold CaseInsensitiveLess, strcasecmp. by intros ->. Qed.

Lemma to_gmap_cons k v m : to_gmap ((k, v) :: m) = <[fold_case k := v]> (to_gmap m).
Proof. done. Qed.

(** Names below every entry of a map are not in it. *)
Lemma to_gmap_below k m : map_ok m → Forall (λ e, CaseInsensitiveLess k e.1 = true) m → to_gmap m !! fold_case k = None.
Proof.
  intros _ Hall. induction Hall as [|[k' v'] m Hk _ IH]; [done|]. rewrite to_gmap_cons.
  rewrite lookup_insert_ne; [done|]. cbn in Hk. destruct (ci_cases k k') as [(_&_&?)|[(?&_)|(?&_)]]; congruence.
Qed.

Lemma map_ok_below k k' v' m : map_ok ((k', v') :: m) → CaseInsensitiveLess k k' = true ∨ fold_case k = fold_case k' →
  Forall (λ e, CaseInsensitiveLess k e.1 = true) m.
Proof.
  intros Hs Hk. apply StronglySorted_inv in Hs as [_ Ha]. eapply Forall_impl; [exact Ha|]. intros e He.
  destruct Hk as [Hk|Hk]; [by eapply ci_trans|]. rewrite (ci_fold _ _ _ Hk). done.
Qed.

Lemma map_find_gmap k m : map_ok m → map_find k m = to_gmap m !! fold_case k.
Proof.
  intros Hs. induction m as [|[k' v'] m IH]; [done|]. cbn [map_find]. rewrite to_gmap_cons.
  destruct (ci_cases k' k) as [(E1 & E2 & Hne)|[(E1 & E2 & Hne)|(E1 & E2 & Heq)]]; rewrite E1, ?E2.
  - rewrite lookup_insert_ne by done. apply IH. by apply StronglySorted_inv in Hs as [? _].
  - rewrite lookup_insert_ne by done. symmetry. apply to_gmap_below; [by apply StronglySorted_inv in Hs as [? _]|].
    eapply map_ok_below; [done|by left].
  - by rewrite Heq, lookup_insert_eq.
Qed.

Lemma map_set_in k v m : ∀ e, e ∈ map_set k v m → e.1 = k ∨ ∃ v', (e.1, v') ∈ m.
Proof.
  induction m as [|[k' v'] m IH]; intros e; cbn [map_set].
  - intros He. apply list_elem_of_singleton in He as ->. by left.
  - repeat case_bool; intros He; apply elem_of_cons in He as [->|He].
    + right. exists v'. by left.
    + destruct (IH e He) as [?|[w ?]]; [by left|right; exists w; by right].
    + by left.
    + right. exists e.2. by destruct e.
    + right. exists v'. by left.
    + right. exists e.2. right. by destruct e.
Qed.

Lemma map_set_ok k v m : map_ok m → map_ok (map_set k v m) ∧ to_gmap (map_set k v m) = <[fold_case k := v]> (to_gmap m).
Proof.
  intros Hs. induction m as [|[k' v'] m IH]; cbn [map_set].
  { split; [repeat constructor|done]. }
  pose proof (StronglySorted_inv Hs) as [Hs' Ha].
  destruct (ci_cases k' k) as [(E1 & E2 & Hne)|[(E1 & E2 & Hne)|(E1 & E2 & Heq)]]; rewrite E1, ?E2.
  - destruct (IH Hs') as [H1 H3]. split.
    + constructor; [done|]. apply Forall_forall. intros e He. destruct (map_set_in k v m e He) as [Hk|[w Hw]].
      * unfold ci_lt. cbn. by rewrite Hk.
      * rewrite Forall_forall in Ha. apply (Ha _ Hw).
    + rewrite !to_gmap_cons, H3. by rewrite insert_insert_ne.
  - split; [|done]. constructor; [done|]. constructor; [done|]. eapply map_ok_below; [done|by left].
  - split.
    + constructor; [done|]. exact Ha.
    + rewrite !to_gmap_cons, Heq. by rewrite insert_insert_eq.
Qed.

Lemma map_erase_ok k m : map_ok m → map_ok (map_erase k m) ∧ to_gmap (map_erase k m) = delete (fold_case k) (to_gmap m) ∧
  (∀ e, e ∈ map_erase k m → e ∈ m).
Proof.
  intros Hs. induction m as [|[k' v'] m IH]; cbn [map_erase].
  { split; [constructor|]. split; [|done]. unfold to_gmap. cbn. by rewrite delete_empty. }
  pose proof (StronglySorted_inv Hs) as [Hs' Ha].
  destruct (ci_cases k' k) as [(E1 & E2 & Hne)|[(E1 & E2 & Hne)|(E1 & E2 & Heq)]]; rewrite E1, ?E2.
  - destruct (IH Hs') as (H1 & H3 & H4). split; [|split].
    + constructor; [done|]. apply Forall_forall. intros e He. rewrite Forall_forall in Ha. by apply Ha, H4.
    + rewrite !to_gmap_cons, H3. by rewrite delete_insert_ne.
    + intros e He. apply elem_of_cons in He as [->|He]; [by left|right; by apply H4].
  - split; [done|]. split; [|done]. symmetry. apply delete_id. rewrite to_gmap_cons, lookup_insert_ne by done.
    apply to_gmap_below; [done|]. eapply map_ok_below; [done|by left].
  - split; [done|]. split; [|by intros e He; right]. rewrite to_gmap_cons, Heq, delete_insert_eq. symmetry.
    apply delete_id. rewrite <-Heq. apply to_gmap_below; [done|]. eapply map_ok_below; [done|by right].
Qed.

(** ** Messages, as a receiver splits them *)
Definition CR : ascii := "013"%char.
Fixpoint no_cr (s : string) : bool :=
  match s with "" => true | String c s => negb (Ascii.eqb c CR) && no_cr s end.

(** The line up to the first CR LF, and what follows. *)
Fixpoint take_line (s : string) : option (string * string) :=
  match s with
  | String "013" (String "010" rest) => Some ("", rest)
  | String c s => '(l, rest) ← take_line s; Some (String c l, rest)
  | "" => None
  end.
(** The non-empty lines of the head, then the rest behind the empty line. *)
Fixpoint parse_message (fuel : nat) (s : string) : option (list string * string) :=
  match fuel with
  | O => None
  | S fuel =>
      '(l, rest) ← take_line s;
      if is_empty l then Some ([], rest)
      else '(ls, body) ← parse_message fuel rest; Some (l :: ls, body)
  end.
Definition split_message (s : string) : option (list string * string) := parse_message (S (String.length s)) s.

Lemma no_cr_app a b : no_cr (a ++ b) = no_cr a && no_cr b.
Proof. induction a as [|c a IH]; [done|]. cbn. by rewrite IH, andb_assoc. Qed.

Lemma take_line_app l rest : no_cr l = true → take_line (l ++ CRLF ++ rest) = Some (l, rest).
Proof.
  induction l as [|c l IH]; intros H; [done|]. cbn in H. apply andb_true_iff in H as [Hc Hl].
  change (take_line (String c (l ++ CRLF ++ rest)) = Some (String c l, rest)).
  assert (Hstep : take_line (String c (l ++ CRLF ++ rest))
    = ('(l', r) ← take_line (l ++ CRLF ++ rest); Some (String c l', r))).
  { destruct c as [[] [] [] [] [] [] [] []]; try done. }
  by rewrite Hstep, (IH Hl).
Qed.

Definition lines_text (ls : list string) : string := foldr (λ l t, l ++ CRLF ++ t) "" ls.
Definition clean_line (l : string) : Prop := no_cr l = true ∧ l ≠ "".

Lemma lines_text_app a b : lines_text (a ++ b) = lines_text a ++ lines_text b.
Proof. induction a as [|l a IH]; [done|]. cbn [lines_text foldr app]. fold (lines_text (a ++ b)). by rewrite IH, !str_app_assoc. Qed.

Lemma parse_message_app ls rest fuel : Forall clean_line ls → (List.length ls < fuel)%nat →
  parse_message fuel (lines_text ls ++ CRLF ++ rest) = Some (ls, rest).
Proof.
  intros Hls. revert fuel. induction Hls as [|l ls [Hl Hne] _ IH]; intros [|fuel] Hf; cbn [List.length] in Hf; try lia.
  - done.
  - cbn [lines_text foldr]. fold (lines_text ls). rewrite !str_app_assoc. cbn [parse_message].
    rewrite take_line_app by done. cbn [mbind option_bind]. destruct l; [done|]. cbn [is_empty].
    rewrite IH by lia. done.
Qed.

Lemma lines_length ls : Forall clean_line ls → (List.length ls ≤ String.length (lines_text ls))%nat.
Proof.
  induction 1 as [|l ls [_ Hne] _ IH]; [done|]. cbn [List.length lines_text foldr]. fold (lines_text ls).
  pose proof (str_len_app l (CRLF ++ lines_text ls)) as H1. pose proof (str_len_app CRLF (lines_text ls)) as H2.
  unfold str_len in *. change (String.length CRLF) with 2%nat in H2. lia.
Qed.

Lemma split_message_ok ls rest : Forall clean_line ls → split_message (lines_text ls ++ CRLF ++ rest) = Some (ls, rest).
Proof.
  intros Hls. apply parse_message_app; [done|]. pose proof (lines_length ls Hls).
  pose proof (str_len_app (lines_text ls) (CRLF ++ rest)) as H1. pose proof (str_len_app CRLF rest) as H2.
  unfold str_len in *. lia.
Qed.

(** The lines of a message head. *)
Definition header_lines (websocket : bool) (m : list (string * string)) : list string :=
  (λ e, e.1 ++ ": " ++ e.2) <$>
    filter (λ e, negb websocket && cmp_eq (strcasecmp e.1 "connection") = false) m.
Definition connection_lines (websocket close : bool) : list string :=
  if websocket then [] else ["connection: " ++ (if close then "close" else "keep-alive")].
Definition length_lines (body : string) : list string :=
  if is_empty body then [] else ["content-length: " ++ dec (str_len body)].

Lemma dump_headers_lines w m : dump_headers w m = lines_text (header_lines w m).
Proof.
  induction m as [|[k v] m IH]; [done|]. cbn [dump_headers]. unfold header_lines. rewrite filter_cons. cbn [fst snd].
  destruct (negb w && _) eqn:E.
  - rewrite decide_False by done. exact IH.
  - rewrite decide_True by done. cbn [fmap list_fmap lines_text foldr fst snd]. rewrite IH, !str_app_assoc. done.
Qed.
Lemma dump_connection_lines w c : dump_connection w c = lines_text (connection_lines w c).
Proof. destruct w, c; done. Qed.
Lemma dump_body_lines body : dump_body body = lines_text (length_lines body) ++ CRLF ++ body.
Proof. unfold dump_body, length_lines. destruct body; [done|]. cbn [is_empty lines_text foldr]. by rewrite !str_app_assoc. Qed.
Lemma dump_cookies_lines l : dump_cookies l = lines_text ((λ c, "Set-Cookie: " ++ c) <$> l).
Proof. induction l as [|c l IH]; [done|]. cbn [dump_cookies fmap list_fmap lines_text foldr]. rewrite IH, !str_app_assoc. done. Qed.

(** Numbers print without CR. *)
Lemma digit_no_cr z : Ascii.eqb (digit z) CR = false.
Proof.
  unfold digit. pose proof (Z.mod_pos_bound z 16 ltac:(lia)) as Hm. remember (z mod 16) as d.
  assert (d ∈ [0;1;2;3;4;5;6;7;8;9;10;11;12;13;14;15]) as Hin.
  { destruct (decide (d ∈ [0;1;2;3;4;5;6;7;8;9;10;11;12;13;14;15])) as [|Hn]; [done|].
    exfalso. apply Hn. clear Hn Heqd. assert (d = 0 ∨ d = 1 ∨ d = 2 ∨ d = 3 ∨ d = 4 ∨ d = 5 ∨ d = 6 ∨ d = 7 ∨ d = 8 ∨ d = 9 ∨ d = 10 ∨ d = 11 ∨ d = 12 ∨ d = 13 ∨ d = 14 ∨ d = 15) by lia.
    set_solver. }
  clear Hm Heqd. repeat (apply elem_of_cons in Hin as [->|Hin]; [by vm_compute|]). by apply not_elem_of_nil in Hin.
Qed.
Lemma digits_no_cr base fuel z acc : no_cr acc = true → no_cr (digits base fuel z acc) = true.
Proof.
  revert z acc. induction fuel as [|fuel IH]; intros z acc Ha; [done|]. cbn [digits].
  assert (Hc : no_cr (String (digit (z mod base)) acc) = true) by (cbn; by rewrite digit_no_cr, Ha).
  case_bool; [done|by apply IH].
Qed.
Lemma dec_no_cr z : no_cr (dec z) = true.
Proof. unfold dec. case_bool; [cbn [no_cr]; rewrite digits_no_cr by done; done|by apply digits_no_cr]. Qed.

Lemma clean_app_l a b : clean_line a → no_cr b = true → clean_line (a ++ b).
Proof. intros [H1 H2] Hb. split; [by rewrite no_cr_app, H1, Hb|]. by destruct a. Qed.

(** No field of a header contains a CR. *)
Definition clean_headers (m : MapType) : Prop := Forall (λ e, no_cr e.1 = true ∧ no_cr e.2 = true) m.

Lemma header_lines_clean w m : clean_headers m → Forall clean_line (header_lines w m).
Proof.
  intros Hm. apply Forall_fmap, Forall_forall. intros e He. apply list_elem_of_filter in He as [_ He].
  unfold clean_headers in Hm. rewrite Forall_forall in Hm. destruct (Hm e He) as [H1 H2]. change (clean_line (e.1 ++ ": " ++ e.2)). split.
  - by rewrite !no_cr_app, H1, H2.
  - by destruct e as [[] ?].
Qed.
Lemma connection_lines_clean w c : Forall clean_line (connection_lines w c).
Proof. destruct w, c; repeat constructor; done. Qed.
Lemma length_lines_clean body : Forall clean_line (length_lines body).
Proof.
  unfold length_lines. destruct (is_empty body); constructor; [|constructor].
  apply clean_app_l; [done|apply dec_no_cr].
Qed.

Definition status_line (r : HttpResponse) : string :=
  dump_version (p_version r) ++ " " ++ dec (u32 (status_code (p_status r))) ++ " " ++
  (if is_empty (p_reason r) then HttpStatusToString (p_status r) else p_reason r).
Definition response_lines (r : HttpResponse) : list string :=
  status_line r :: header_lines (p_websocket r) (p_headers r) ++ ((λ c, "Set-Cookie: " ++ c) <$> p_cookies r) ++
  connection_lines (p_websocket r) (p_close r) ++ length_lines (p_body r).
Definition request_line (r : HttpRequest) : string :=
  HttpMethodToString (m_method r) ++ " " ++ m_path r ++
  (if is_empty (m_query r) then "" else "?") ++ m_query r ++
  (if is_empty (m_fragment r) then "" else "#") ++ m_fragment r ++ " " ++ dump_version (m_version r).
Definition request_lines (r : HttpRequest) : list string :=
  request_line r :: connection_lines (m_websocket r) (m_close r) ++ header_lines (m_websocket r) (m_headers r) ++
  length_lines (m_body r).

Lemma dump_version_clean v : clean_line (dump_version v).
Proof.
  unfold dump_version. apply clean_app_l; [done|]. rewrite !no_cr_app, !dec_no_cr. done.
Qed.
Lemma status_text_clean s : no_cr (HttpStatusToString s) = true.
Proof. destruct s; by vm_compute. Qed.
Lemma method_text_clean m : clean_line (HttpMethodToString m).
Proof. destruct m; split; by vm_compute. Qed.

(** ** The properties *)
(** The method tables are inverse to each other: the name of every method is
    read back by both parsers, [StringToHttpMethod] accepts nothing else (up to
    the first NUL), and [CharsToHttpMethod] accepts exactly the strings that
    begin with a method's name - whatever follows it. *)
Theorem http_method_tables m s : m ≠ INVALID_METHOD →
  StringToHttpMethod (HttpMethodToString m) = m ∧
  (StringToHttpMethod s = m → c_str s = HttpMethodToString m) ∧
  CharsToHttpMethod (HttpMethodToString m ++ s) = m ∧
  (CharsToHttpMethod s = m → ∃ rest, c_str s = HttpMethodToString m ++ rest).
Proof.
  intros Hm. split; [by destruct m|]. split; [|split].
  - intros Hs. destruct (first_match_sound _ _ _ Hs Hm) as (n & str & Hin & Ht).
    destruct (method_table n m str Hin) as (-> & Hc & _). by apply strcmp_lit in Ht.
  - destruct (method_name_ok m) as [Hc _]. unfold CharsToHttpMethod, strncmp_eq. rewrite (c_str_app _ _ Hc).
    destruct m; try done; destruct (c_str s); vm_compute; reflexivity.
  - intros Hs. destruct (first_match_sound _ _ _ Hs Hm) as (n & str & Hin & Ht).
    destruct (method_table n m str Hin) as (-> & Hc & _). by apply prefix_spec in Ht.
Qed.

(** C36: the headers behave as a finite map from case-folded names to values:
    lookup, assignment and removal are those of the map, and keep the entries in
    the order of the comparator (the order they are written in). *)
Theorem header_map_refines k v m : map_ok m →
  map_find k m = to_gmap m !! fold_case k ∧
  map_ok (map_set k v m) ∧ to_gmap (map_set k v m) = <[fold_case k := v]> (to_gmap m) ∧
  map_ok (map_erase k m) ∧ to_gmap (map_erase k m) = delete (fold_case k) (to_gmap m).
Proof.
  intros Hm. destruct (map_set_ok k v m Hm). destruct (map_erase_ok k m Hm) as (? & ? & _).
  split; [by apply map_find_gmap|]. done.
Qed.

(** what [dump] writes is framed: when no field of the head contains a CR, a
    receiver that splits at CR LF finds the start line, one line per header,
    cookie and [connection] (never the user's own, unless websocket), the length
    line, and behind the empty line exactly the body. *)
Theorem dump_framing rq rs :
  (clean_line (m_path rq) → no_cr (m_query rq) = true → no_cr (m_fragment rq) = true → clean_headers (m_headers rq) →
   split_message (HttpRequest_dump rq) = Some (request_lines rq, m_body rq)) ∧
  (no_cr (p_reason rs) = true → clean_headers (p_headers rs) → Forall (λ c, no_cr c = true) (p_cookies rs) →
   split_message (HttpResponse_dump rs) = Some (response_lines rs, p_body rs)).
Proof.
  split.
  - intros [Hp _] Hq Hf Hh. rewrite <-split_message_ok.
    + f_equal. unfold HttpRequest_dump, request_lines, request_line.
      rewrite dump_connection_lines, dump_headers_lines, dump_body_lines. cbn [lines_text foldr].
      fold (lines_text (connection_lines (m_websocket rq) (m_close rq) ++ header_lines (m_websocket rq) (m_headers rq) ++ length_lines (m_body rq))).
      rewrite !lines_text_app, !str_app_assoc. done.
    + constructor; [|rewrite !Forall_app; repeat split; [apply connection_lines_clean|by apply header_lines_clean|apply length_lines_clean]].
      unfold request_line. apply clean_app_l; [apply method_text_clean|]. rewrite !no_cr_app, Hp, Hq, Hf.
      rewrite (proj1 (dump_version_clean _)). by destruct (is_empty (m_query rq)), (is_empty (m_fragment rq)).
  - intros Hr Hh Hc. rewrite <-split_message_ok.
    + f_equal. unfold HttpResponse_dump, response_lines, status_line.
      rewrite dump_headers_lines, dump_cookies_lines, dump_connection_lines, dump_body_lines. cbn [lines_text foldr].
      fold (lines_text (header_lines (p_websocket rs) (p_headers rs) ++ ((λ c, "Set-Cookie: " ++ c) <$> p_cookies rs) ++ connection_lines (p_websocket rs) (p_close rs) ++ length_lines (p_body rs))).
      rewrite !lines_text_app, !str_app_assoc. done.
    + constructor; [|rewrite !Forall_app; repeat split; [by apply header_lines_clean| |apply connection_lines_clean|apply length_lines_clean]].
      * unfold status_line. apply clean_app_l; [apply dump_version_clean|]. rewrite !no_cr_app, dec_no_cr.
        destruct (is_empty (p_reason rs)); [by rewrite status_text_clean|by rewrite Hr].
      * apply Forall_fmap. eapply Forall_impl; [exact Hc|]. intros c Hn. change (clean_line ("Set-Cookie: " ++ c)).
        by apply clean_app_l.
Qed.

(** ** Witnesses *)
Lemma http_method_tables_witness : CharsToHttpMethod "GETX /" = GET ∧ StringToHttpMethod "M-SEARCH" = MSEARCH.
Proof.
  split; [refine (proj1 (proj2 (proj2 (http_method_tables GET "X /" _))))|refine (proj1 (http_method_tables MSEARCH "" _))]; discriminate.
Defined.

Definition sample_headers : MapType := map_set "Host" "a.b" (map_set "accept" "*" []).
Lemma header_map_refines_witness : map_find "HOST" sample_headers = Some "a.b" ∧
  to_gmap (map_erase "hOsT" sample_headers) !! "host" = None.
Proof.
  assert (Hok : map_ok sample_headers) by (repeat constructor).
  destruct (header_map_refines "HOST" "" sample_headers Hok) as (-> & _ & _ & _ & _).
  destruct (header_map_refines "hOsT" "" sample_headers Hok) as (_ & _ & _ & _ & ->). split; reflexivity.
Defined.

Lemma dump_framing_witness : split_message (HttpResponse_dump (rsp_setBody "hello" (HttpResponse_new 17 true)))
  = Some (["HTTP/1.1 200 OK"; "connection: close"; "content-length: 5"], "hello").
Proof.
  rewrite (proj2 (dump_framing (HttpRequest_new 17 true) (rsp_setBody "hello" (HttpResponse_new 17 true))));
    [reflexivity|reflexivity|constructor|constructor].
Defined.
