(* ===== verification/HttpGrammar.v ===== *)
(** * HttpGrammar: the texts the parsers are proved to accept

    The grammars of URIs and of the fields of a message as small automata over
    characters (see the simulations of Ragel). *)
From S2P Require Import Prelude Text Ragel.
Open Scope string_scope.
Open Scope Z_scope.

(** ** The grammar (RFC 3986 and 7230), on signed characters *)
Definition between (a b c : Z) : bool := (a <=? c) && (c <=? b).
Definition one_of (l : list Z) (c : Z) : bool := existsb (Z.eqb c) l.
Definition is_alnum (c : Z) : bool := between 65 90 c || between 97 122 c || between 48 57 c.
Definition is_xdigit (c : Z) : bool := between 65 70 c || between 97 102 c || between 48 57 c.
(** [pchar] without the percent sign: other than ASCII, unreserved, [sub_delims], [":@"]. *)
Definition is_pchar (c : Z) : bool :=
  (c <? 0) || is_alnum c || one_of [45; 46; 95; 126; 33; 36; 38; 39; 40; 41; 42; 43; 44; 59; 61; 58; 64] c.
Definition is_tchar (c : Z) : bool := is_alnum c || one_of [33; 35; 36; 37; 38; 39; 42; 43; 45; 46; 94; 95; 96; 124; 126] c.
Definition is_vchar (c : Z) : bool := (c <? 0) || between 33 126 c.

(** The characters of a user name or a registered host name; of a scheme. *)
Definition is_hchar (c : Z) : bool := is_alnum c || one_of [45; 46; 95; 126; 33; 36; 38; 39; 40; 41; 42; 43; 44; 59; 61] c.
Definition is_alpha (c : Z) : bool := between 65 90 c || between 97 122 c.
Definition is_digit (c : Z) : bool := between 48 57 c.

(** Texts with percent escapes; [Root] is the place behind the first slash of a path. *)
Inductive uri_state := Root | Text | Hex1 | Hex2.
Definition uri_spec (extra : list Z) (q : uri_state) (c : Z) : option uri_state :=
  match q with
  | Root => if c =? 37 then Some Hex1 else if is_pchar c then Some Text else None
  | Text => if c =? 37 then Some Hex1 else if is_pchar c || one_of extra c then Some Text else None
  | Hex1 => if is_xdigit c then Some Hex2 else None
  | Hex2 => if is_xdigit c then Some Text else None
  end.
Definition path_spec := uri_spec [47].
Definition query_spec := uri_spec [47; 63].
Definition host_spec (q : uri_state) (c : Z) : option uri_state :=
  match q with
  | Root | Text => if c =? 37 then Some Hex1 else if is_hchar c then Some Text else None
  | _ => uri_spec [] q c
  end.
Definition scheme_spec (first : bool) (c : Z) : option bool :=
  if is_alpha c || negb first && (is_digit c || one_of [43; 45; 46] c) then Some false else None.
Definition digits_spec (_ : ()) (c : Z) : option () := if is_digit c then Some () else None.
Definition token_spec (_ : ()) (c : Z) : option () := if is_tchar c then Some () else None.
(** A field value does not begin with white space. *)
Definition value_spec (first : bool) (c : Z) : option bool :=
  if is_vchar c || negb first && one_of [9; 32] c then Some false else None.

Definition path_ok (s : string) : bool :=
  match s with
  | String "/" s => match accepts path_spec Root s with Some (Root | Text) => true | _ => false end
  | _ => false
  end.
(** The path of a URI behind its authority. *)
Definition abs_path_ok (s : string) : bool :=
  match s with String "/" _ => match accepts path_spec Text s with Some Text => true | _ => false end | _ => false end.
Definition query_ok (s : string) : bool := match accepts query_spec Text s with Some Text => true | _ => false end.
Definition host_ok (s : string) : bool := negb (is_empty s) && match accepts host_spec Text s with Some Text => true | _ => false end.
Definition scheme_ok (s : string) : bool := negb (is_empty s) && match accepts scheme_spec true s with Some _ => true | None => false end.
Definition name_ok (s : string) : bool := negb (is_empty s) && match accepts token_spec () s with Some _ => true | None => false end.
Definition value_ok (s : string) : bool := match accepts value_spec true s with Some _ => true | None => false end.

Lemma accepts_digits w : all_digits w = true → accepts digits_spec () w = Some ().
Proof.
  induction w as [|c w IH]; [done|]. cbn [all_digits accepts]. intros [Hc Hw]%andb_true_iff.
  assert (digits_spec () (char_value c) = Some ()) as -> by (by destruct c as [[] [] [] [] [] [] [] []]). by apply IH.
Qed.
