(* ===== verification/HttpFields.v ===== *)
(** * HttpFields: the header fields of a message, as text and as a map

    What requests and responses share: the lines of the fields, the map that reading them
    builds, and the fields that [dump] adds. *)
From Stdlib Require Import Sorting.Sorted.
From S2P Require Import Prelude Text Http HttpFacts HttpGrammar Callbacks Ragel.
Open Scope string_scope.
Open Scope Z_scope.

Definition field_line (e : string * string) : string := e.1 ++ ": " ++ e.2.
Definition fields_text (hs : MapType) : string := lines_text (field_line <$> hs).
Definition fields_ok (hs : MapType) : Prop := Forall (λ e, name_ok e.1 = true ∧ value_ok e.2 = true) hs.
Lemma fields_text_app a b : fields_text (a ++ b)%list = fields_text a ++ fields_text b.
Proof. unfold fields_text. rewrite fmap_app. apply lines_text_app. Qed.
Lemma parse_version_ok v s : v = 0x10 ∨ v = 0x11 → parse_version (dump_version v ++ s) (str_len (dump_version v)) = Some v.
Proof.
  assert (Hn : ∀ lit v, str_len (dump_version v) = 8 → str_len lit = 8 → c_str lit = lit → c_str (dump_version v) = dump_version v →
    strncmp_n (dump_version v ++ s) lit (str_len (dump_version v)) = String.eqb (dump_version v) lit).
  { intros lit v0 H1 H2 H3 H4. unfold strncmp_n. rewrite (c_str_app _ _ H4), H3, str_ztake_exact. f_equal.
    rewrite H1, <-H2. rewrite <-(str_app_nil_r lit) at 2. apply str_ztake_exact. }
  unfold parse_version. intros [-> | ->]; rewrite Hn by done; [rewrite Hn by done|]; reflexivity.
Qed.

(** The text of a number is a field value. *)
Lemma value_digit d b w : accepts value_spec false w = Some false → accepts value_spec b (String (digit d) w) = Some false.
Proof.
  intros Hw. assert (Hd : is_vchar (char_value (digit d)) = true).
  { unfold digit. pose proof (Z.mod_pos_bound d 16 ltac:(lia)) as Hm. remember (d mod 16) as x eqn:Hx. clear Hx.
    assert (Hin : In x (Z.of_nat <$> seq 0 16)).
    { rewrite <-list_elem_of_In. apply list_elem_of_fmap. exists (Z.to_nat x). split; [lia|]. apply elem_of_seq. lia. }
    cbn in Hin. repeat destruct Hin as [<-|Hin]; try (vm_compute; reflexivity). done. }
  cbn [accepts]. unfold value_spec at 1. by rewrite Hd.
Qed.
Lemma dec_value n : 0 ≤ n → value_ok (dec n) = true.
Proof.
  intros Hn. unfold dec. replace (n <? 0) with false by lia.
  assert (Hg : ∀ fuel z acc, accepts value_spec false acc = Some false → (fuel = O → accepts value_spec true acc = Some false) →
    accepts value_spec true (digits 10 fuel z acc) = Some false).
  { induction fuel as [|fuel IH]; intros z acc Ha H0; cbn [digits]; [by apply H0|].
    case_bool; [by apply value_digit|]. apply IH; [|intros _]; by apply value_digit. }
  unfold value_ok. by rewrite Hg.
Qed.

(** The fields that [dump] keeps. *)
Definition not_connection (e : string * string) : Prop := cmp_eq (strcasecmp e.1 "connection") = false.
#[export] Instance not_connection_dec e : Decision (not_connection e).
Proof. unfold not_connection. apply _. Defined.

(** The header map that reading the fields builds. *)
Definition put (m : MapType) (e : string * string) : MapType := map_set e.1 e.2 m.
Lemma put_gmap hs : ∀ m, map_ok m → map_ok (foldl put m hs) ∧ to_gmap (foldl put m hs) = foldl (λ g e, <[fold_case e.1 := e.2]> g) (to_gmap m) hs.
Proof.
  induction hs as [|e hs IH]; intros m Hm; [done|]. cbn. destruct (map_set_ok e.1 e.2 m Hm) as [Hm' Hg]. rewrite <-Hg. by apply IH.
Qed.
Lemma connection_iff e : not_connection e ↔ fold_case e.1 ≠ "connection".
Proof.
  unfold not_connection, strcasecmp. change (fold_case "connection") with "connection".
  destruct (String.compare (fold_case e.1) "connection") eqn:E; cbn; (split; [intros H|intros H; try done]).
  - done.
  - by apply str_compare_eq in E.
  - intros He. by rewrite He in E.
  - intros He. by rewrite He in E.
Qed.
Lemma put_filter (hs : list (string * string)) x : map_ok hs → ∀ g : gmap string string,
  foldl (λ g e, <[fold_case e.1 := e.2]> g) g (filter not_connection hs) !! x =
    if bool_decide (x = "connection") then g !! x else match to_gmap hs !! x with Some v => Some v | None => g !! x end.
Proof.
  intros Hs. induction hs as [|[k v] hs IH]; intros g; [by case_bool_decide|]. pose proof Hs as [Hs' Ha]%StronglySorted_inv.
  rewrite filter_cons, to_gmap_cons. destruct (decide (not_connection (k, v))) as [Hk|Hk]; rewrite connection_iff in Hk; cbn [fst] in Hk.
  - cbn [foldl fst snd]. rewrite IH by done. case_bool_decide as Hx; [by rewrite lookup_insert_ne by congruence|].
    destruct (decide (fold_case k = x)) as [<-|Hne].
    + rewrite to_gmap_below, !lookup_insert_eq; [done|done|]. eapply map_ok_below; [exact Hs|by right].
    + by rewrite !lookup_insert_ne by done.
  - rewrite IH by done. case_bool_decide as Hx; [done|]. rewrite lookup_insert_ne; [done|]. intros <-. by apply Hk.
Qed.
