(* ===== verification/Servlet.v ===== *)
(** * Servlet ([webserve/http/servlet.h], [servlet.cc])

    The servlets and their dispatcher.  [fnmatch] and the user's handlers are
    parameters. *)
From Stdlib Require Import Sorting.Permutation.
From S2P Require Import Prelude Text Http.
Open Scope string_scope.
Open Scope Z_scope.

(** A servlet object: the concrete classes of the source, user classes by a number. *)
Inductive Servlet :=
| FunctionServlet (cb : Z)
| NotFoundServlet (m_name m_content : string)
| UserServlet (id : Z).

(** [NotFoundServlet::NotFoundServlet(name)] *)
Definition NotFoundServlet_new (name : string) : Servlet :=
  NotFoundServlet name
    ("<html><head><title>404 Not Found" ++
     "</title></head><body><center><h1>404 Not Found</h1></center>" ++
     "<hr><center>" ++ name ++ "</center></body></html>").
Definition getName (s : Servlet) : string :=
  match s with
  | FunctionServlet _ => "FunctionServlet"
  | NotFoundServlet _ _ => "NotFoundServlet"
  | UserServlet _ => "UserServlet"
  end.

(** [HoldServletCreator] around a pointer that may be null. *)
Inductive IServletCreator := HoldServletCreator (m_servlet : option Servlet).
Definition creator_get (c : IServletCreator) : option Servlet := match c with HoldServletCreator s => s end.

Record ServletDispatch := mkServletDispatch {
  m_datas : gmap string IServletCreator;
  m_globs : list (string * IServletCreator);
  m_default : option Servlet
}.

(** [ServletDispatch::ServletDispatch] *)
Definition ServletDispatch_new : ServletDispatch :=
  mkServletDispatch ∅ [] (Some (NotFoundServlet_new "webserve/1.0")).

(** The erase loop over [m_globs]: the first entry with that pattern. *)
Fixpoint erase_glob (uri : string) (l : list (string * IServletCreator)) : list (string * IServletCreator) :=
  match l with
  | [] => []
  | e :: l => if String.eqb e.1 uri then l else e :: erase_glob uri l
  end.

Definition addServletCreator (uri : string) (c : IServletCreator) (d : ServletDispatch) : ServletDispatch :=
  mkServletDispatch (<[uri := c]> (m_datas d)) (m_globs d) (m_default d).
Definition addServlet (uri : string) (slt : option Servlet) (d : ServletDispatch) : ServletDispatch :=
  addServletCreator uri (HoldServletCreator slt) d.
Definition addServlet_cb (uri : string) (cb : Z) (d : ServletDispatch) : ServletDispatch :=
  addServletCreator uri (HoldServletCreator (Some (FunctionServlet cb))) d.
Definition addGlobServletCreator (uri : string) (c : IServletCreator) (d : ServletDispatch) : ServletDispatch :=
  mkServletDispatch (m_datas d) (erase_glob uri (m_globs d) ++ [(uri, c)])%list (m_default d).
Definition addGlobServlet (uri : string) (slt : option Servlet) (d : ServletDispatch) : ServletDispatch :=
  addGlobServletCreator uri (HoldServletCreator slt) d.
Definition addGlobServlet_cb (uri : string) (cb : Z) (d : ServletDispatch) : ServletDispatch :=
  addGlobServlet uri (Some (FunctionServlet cb)) d.
Definition delServlet (uri : string) (d : ServletDispatch) : ServletDispatch :=
  mkServletDispatch (delete uri (m_datas d)) (m_globs d) (m_default d).
Definition delGlobServlet (uri : string) (d : ServletDispatch) : ServletDispatch :=
  mkServletDispatch (m_datas d) (erase_glob uri (m_globs d)) (m_default d).
Definition setDefault (v : option Servlet) (d : ServletDispatch) : ServletDispatch :=
  mkServletDispatch (m_datas d) (m_globs d) v.

Definition getServlet (uri : string) (d : ServletDispatch) : option Servlet :=
  match m_datas d !! uri with Some c => creator_get c | None => None end.
(** The first entry of [m_globs] that passes the test. *)
Fixpoint first_glob (test : string → bool) (l : list (string * IServletCreator)) : option IServletCreator :=
  match l with
  | [] => None
  | e :: l => if test e.1 then Some e.2 else first_glob test l
  end.
Definition getGlobServlet (uri : string) (d : ServletDispatch) : option Servlet :=
  match first_glob (λ p, String.eqb p uri) (m_globs d) with Some c => creator_get c | None => None end.

(** [listAllServletCreator] and [listAllGlobServletCreator] into a map of the caller. *)
Definition listAllServletCreator (d : ServletDispatch) (infos : gmap string IServletCreator) : gmap string IServletCreator :=
  map_fold (λ uri c infos, <[uri := c]> infos) infos (m_datas d).
Definition listAllGlobServletCreator (d : ServletDispatch) (infos : gmap string IServletCreator) : gmap string IServletCreator :=
  foldl (λ infos (i : string * IServletCreator), <[i.1 := i.2]> infos) infos (m_globs d).

Section dispatch.
(** [!fnmatch(pattern, string, 0)], on C strings. *)
Context (fnmatch : string → string → bool).

Definition getMatchedServlet (uri : string) (d : ServletDispatch) : option Servlet :=
  match m_datas d !! uri with
  | Some c => creator_get c
  | None =>
      match first_glob (λ p, fnmatch (c_str p) (c_str uri)) (m_globs d) with
      | Some c => creator_get c
      | None => m_default d
      end
  end.

(** The handlers: [run] is what the user's callbacks and classes do to the request,
    the response and the state [S] of the session; they may throw. *)
Context {S : Type} (run : Servlet → HttpRequest → HttpResponse → M S (HttpRequest * HttpResponse)).

(** [NotFoundServlet::handle] *)
Definition NotFoundServlet_handle (content : string) (response : HttpResponse) : HttpResponse :=
  rsp_setBody content (rsp_setHeader "Content-Type" "text/html"
    (rsp_setHeader "Server" "sylar/1.0.0" (rsp_setStatus NOT_FOUND response))).
(** The virtual [handle] of the servlet classes. *)
Definition servlet_handle (slt : Servlet) (request : HttpRequest) (response : HttpResponse)
  : M S (HttpRequest * HttpResponse) :=
  match slt with
  | NotFoundServlet _ content => mret (request, NotFoundServlet_handle content response)
  | _ => run slt request response
  end.
(** [ServletDispatch::handle] *)
Definition handle (d : ServletDispatch) (request : HttpRequest) (response : HttpResponse)
  : M S (HttpRequest * HttpResponse) :=
  match getMatchedServlet (m_path request) d with
  | Some slt => servlet_handle slt request response
  | None => mret (request, response)
  end.
End dispatch.

(** ** Routing *)
(** Patterns are registered once. *)
Definition globs_ok (d : ServletDispatch) : Prop := NoDup (fst <$> m_globs d).

Lemma erase_glob_spec uri l : NoDup (fst <$> l) →
  erase_glob uri l = filter (λ e : string * IServletCreator, e.1 ≠ uri) l.
Proof.
  induction l as [|[p c] l IH]; [done|]. cbn [fmap list_fmap fst]. intros Hnd. apply NoDup_cons in Hnd as [Hp Hnd].
  cbn [erase_glob fst]. rewrite filter_cons. cbn [fst]. destruct (String.eqb_spec p uri) as [->|Hne].
  - rewrite decide_False by tauto. clear IH. induction l as [|[q c'] l IH]; [done|]. rewrite filter_cons. cbn [fst].
    cbn in Hp. rewrite decide_True by set_solver. f_equal. apply IH; [set_solver|]. by apply NoDup_cons in Hnd as [_ ?].
  - rewrite decide_True by done. f_equal. by apply IH.
Qed.

Lemma NoDup_filter_globs uri l : NoDup (fst <$> l) →
  NoDup (fst <$> filter (λ e : string * IServletCreator, e.1 ≠ uri) l) ∧
  uri ∉ fst <$> filter (λ e : string * IServletCreator, e.1 ≠ uri) l.
Proof.
  intros Hnd. split.
  - eapply sublist_NoDup; [exact Hnd|]. apply fmap_sublist. apply sublist_filter.
  - intros Hin. apply list_elem_of_fmap in Hin as (e & -> & He). apply list_elem_of_filter in He as [He _]. done.
Qed.

Lemma first_glob_filter test uri l : first_glob test (filter (λ e : string * IServletCreator, e.1 ≠ uri) l)
  = first_glob (λ p, test p && negb (String.eqb p uri)) l.
Proof.
  induction l as [|[p c] l IH]; [done|]. rewrite filter_cons. cbn [first_glob fst].
  destruct (String.eqb_spec p uri) as [->|Hne].
  - rewrite decide_False by (cbn; tauto). by rewrite andb_false_r.
  - rewrite decide_True by done. cbn [first_glob fst]. by rewrite andb_true_r, IH.
Qed.

Lemma first_glob_app test l k :
  first_glob test (l ++ k) = match first_glob test l with Some c => Some c | None => first_glob test k end.
Proof. induction l as [|e l IH]; [done|]. cbn. by destruct (test e.1). Qed.

(** A listing adds exactly the registered routes, over what the caller's map had. *)
Lemma listing_servlets d infos uri : listAllServletCreator d infos !! uri = match m_datas d !! uri with Some c => Some c | None => infos !! uri end.
Proof.
  unfold listAllServletCreator. generalize (m_datas d). intros m. apply (map_fold_weak_ind (λ r m, r !! uri = match m !! uri with Some c => Some c | None => infos !! uri end)).
  - by rewrite lookup_empty.
  - intros u c m' r _ IH. destruct (decide (u = uri)) as [->|Hne]; [by rewrite !lookup_insert_eq|]. by rewrite !lookup_insert_ne.
Qed.
Lemma listing_globs d infos uri : globs_ok d →
  listAllGlobServletCreator d infos !! uri = match first_glob (λ p, String.eqb p uri) (m_globs d) with Some c => Some c | None => infos !! uri end.
Proof.
  unfold listAllGlobServletCreator, globs_ok. revert infos. induction (m_globs d) as [|[p c] l IH]; intros infos Hnd; [done|].
  cbn [fmap list_fmap fst] in Hnd. apply NoDup_cons in Hnd as [Hp Hnd]. cbn [foldl first_glob fst snd]. rewrite IH by done.
  destruct (String.eqb_spec p uri) as [->|Hne]; [|by rewrite lookup_insert_ne].
  assert (first_glob (λ q, String.eqb q uri) l = None) as ->; [|by rewrite lookup_insert_eq].
  clear -Hp. induction l as [|[q c'] l IH]; [done|]. cbn [first_glob fst fmap list_fmap] in *. apply not_elem_of_cons in Hp as [Hq Hp].
  destruct (String.eqb_spec q uri) as [->|]; [done|]. by apply IH.
Qed.


