(* ===== verification/Address.v ===== *)
(** * Address ([webserve/address.h], [webserve/address.cc])

    Socket addresses as the structures of the system headers, with the fields in
    network order as the code stores them; the masks, the printing, the ordering
    and the resolution front end.  [getaddrinfo] and [getifaddrs] are parameters. *)
From S2P Require Import Prelude Endian Text.
Open Scope string_scope.
Open Scope Z_scope.

Definition AF_UNSPEC : Z := 0.
Definition AF_UNIX : Z := 1.
Definition AF_INET : Z := 2.
Definition AF_INET6 : Z := 10.

(** [CreateMask<T>(bits)]: [1] is an [int]; a shift by its width or more, and the
    subtraction from [1 << 31], are undefined ([None]).  [sizeof] is that of [T], to which the result converts. *)
Definition CreateMask (sizeof : nat) (bits : Z) : option Z :=
  let sh := u64 (Z.of_nat sizeof * 8 - bits) in
  if sh <? 31 then Some ((Z.shiftl 1 sh - 1) mod 2 ^ (8 * Z.of_nat sizeof)) else None.

(** [CountBytes]: the loop that clears the lowest set bit; [fuel] bounds the width. *)
Fixpoint CountBytes (fuel : nat) (value : Z) : Z :=
  match fuel with
  | O => 0
  | S fuel => if value =? 0 then 0 else 1 + CountBytes fuel (Z.land value (value - 1))
  end.

Record sockaddr_in := mk_sockaddr_in { sin_family : Z; sin_port : Z; s_addr : Z }.
Record sockaddr_in6 := mk_sockaddr_in6 {
  sin6_family : Z; sin6_port : Z; sin6_flowinfo : Z; s6_addr : list Z; sin6_scope_id : Z
}.
(** [sun_path] is an array of 108 characters; [m_length] belongs to the class. *)
Record sockaddr_un := mk_sockaddr_un { sun_family : Z; sun_path : list Z; un_length : Z }.

Inductive Address :=
| IPv4Address (a : sockaddr_in)
| IPv6Address (a : sockaddr_in6)
| UnixAddress (a : sockaddr_un)
| UnknownAddress (family : Z) (sa_data : list Z).

Section address.
Context `{!Host}.

Definition hton16 (v : Z) : Z := byteswapOnLittleEndian 2 (u16 v).
Definition hton32 (v : Z) : Z := byteswapOnLittleEndian 4 (u32 v).

(** ** IPv4 *)
Definition IPv4Address_new (address port : Z) : sockaddr_in :=
  mk_sockaddr_in AF_INET (hton16 port) (hton32 address).
Definition IPv4_getPort (a : sockaddr_in) : Z := byteswapOnLittleEndian 2 (sin_port a).
Definition IPv4_setPort (v : Z) (a : sockaddr_in) : sockaddr_in :=
  mk_sockaddr_in (sin_family a) (hton16 v) (s_addr a).
Definition IPv4_broadcastAddress (prefix_len : Z) (a : sockaddr_in) : result () (option sockaddr_in) :=
  if prefix_len >? 32 then Done () None else
  match CreateMask 4 prefix_len with
  | Some m => Done () (Some (mk_sockaddr_in (sin_family a) (sin_port a) (Z.lor (s_addr a) (byteswapOnLittleEndian 4 m))))
  | None => Undef Overflow
  end.
Definition IPv4_networdAddress (prefix_len : Z) (a : sockaddr_in) : result () (option sockaddr_in) :=
  if prefix_len >? 32 then Done () None else
  match CreateMask 4 prefix_len with
  | Some m => Done () (Some (mk_sockaddr_in (sin_family a) (sin_port a) (Z.land (s_addr a) (byteswapOnLittleEndian 4 m))))
  | None => Undef Overflow
  end.
Definition IPv4_subnetMask (prefix_len : Z) : result () sockaddr_in :=
  match CreateMask 4 prefix_len with
  | Some m => Done () (mk_sockaddr_in AF_INET 0 (u32 (Z.lnot (byteswapOnLittleEndian 4 m))))
  | None => Undef Overflow
  end.
Definition IPv4_insert (a : sockaddr_in) : string :=
  let addr := byteswapOnLittleEndian 4 (s_addr a) in
  dec (Z.land (Z.shiftr addr 24) 0xff) ++ "." ++ dec (Z.land (Z.shiftr addr 16) 0xff) ++ "." ++
  dec (Z.land (Z.shiftr addr 8) 0xff) ++ "." ++ dec (Z.land addr 0xff) ++ ":" ++ dec (IPv4_getPort a).

(** ** IPv6 *)
Definition IPv6Address_default : sockaddr_in6 := mk_sockaddr_in6 AF_INET6 0 0 (replicate 16 0) 0.
Definition IPv6Address_new (address : list Z) (port : Z) : sockaddr_in6 :=
  mk_sockaddr_in6 AF_INET6 (hton16 port) 0 (ztake 16 address) 0.
Definition IPv6_getPort (a : sockaddr_in6) : Z := byteswapOnLittleEndian 2 (sin6_port a).
Definition IPv6_setPort (v : Z) (a : sockaddr_in6) : sockaddr_in6 :=
  mk_sockaddr_in6 (sin6_family a) (hton16 v) (sin6_flowinfo a) (s6_addr a) (sin6_scope_id a).
Definition set_s6_addr (l : list Z) (a : sockaddr_in6) : sockaddr_in6 :=
  mk_sockaddr_in6 (sin6_family a) (sin6_port a) (sin6_flowinfo a) l (sin6_scope_id a).

(** [s6_addr[i] = f(s6_addr[i])] *)
Definition s6_update (i : Z) (f : Z → Z) (l : list Z) : result () (list Z) :=
  if (0 <=? i) && (i <? zlen l) then Done () (alter f (Z.to_nat i) l) else Undef OutOfBounds.
(** [for(i = from; i < upto; ++i) s6_addr[i] = v] *)
Definition s6_fill (from upto : Z) (v : Z) (l : list Z) : list Z :=
  imap (λ i x, if (from <=? Z.of_nat i) && (Z.of_nat i <? upto) then v else x) l.

Definition IPv6_mask_op (op : Z → Z → Z) (fill prefix_len : Z) (l : list Z) : result () (list Z) :=
  match CreateMask 1 (prefix_len mod 8) with
  | Some m =>
      match s6_update (prefix_len / 8) (λ b, op b m) l with
      | Done _ l => Done () (s6_fill (prefix_len / 8 + 1) 16 fill l)
      | Raise s e => Raise s e
      | Undef c => Undef c
      | NoFuel => NoFuel
      end
  | None => Undef Overflow
  end.
Definition with_s6_addr (r : result () (list Z)) (a : sockaddr_in6) : result () sockaddr_in6 :=
  match r with
  | Done _ l => Done () (set_s6_addr l a)
  | Raise s e => Raise s e
  | Undef c => Undef c
  | NoFuel => NoFuel
  end.
Definition IPv6_broadcastAddress (prefix_len : Z) (a : sockaddr_in6) : result () sockaddr_in6 :=
  with_s6_addr (IPv6_mask_op Z.lor 0xff prefix_len (s6_addr a)) a.
Definition IPv6_networdAddress (prefix_len : Z) (a : sockaddr_in6) : result () sockaddr_in6 :=
  with_s6_addr (IPv6_mask_op Z.land 0x00 prefix_len (s6_addr a)) a.
Definition IPv6_subnetMask (prefix_len : Z) : result () sockaddr_in6 :=
  match CreateMask 1 (prefix_len mod 8) with
  | Some m =>
      match s6_update (prefix_len / 8) (λ _, u8 (Z.lnot m)) (replicate 16 0) with
      | Done _ l => Done () (set_s6_addr (s6_fill 0 (prefix_len / 8) 0xff l) IPv6Address_default)
      | Raise s e => Raise s e
      | Undef c => Undef c
      | NoFuel => NoFuel
      end
  | None => Undef Overflow
  end.

(** The eight [uint16_t] groups, in memory order. *)
Fixpoint groups (l : list Z) : list Z :=
  match l with a :: b :: l => bytes_int [a; b] :: groups l | _ => [] end.
(** The printing loop; [prev] is [addr[i - 1]], [None] at [i = 0]. *)
Fixpoint insert_groups (l : list Z) (prev : option Z) (used_zeros : bool) : string * bool :=
  match l with
  | [] => ("", used_zeros)
  | g :: l =>
      if (g =? 0) && negb used_zeros then insert_groups l (Some g) used_zeros
      else
        let skipped := match prev with Some p => (p =? 0) && negb used_zeros | None => false end in
        let used := used_zeros || skipped in
        let '(rest, used') := insert_groups l (Some g) used in
        ((if skipped then ":" else "") ++ (match prev with Some _ => ":" | None => "" end) ++
         hex (byteswapOnLittleEndian 2 g) ++ rest, used')
  end.
Definition IPv6_insert (a : sockaddr_in6) : string :=
  let gs := groups (s6_addr a) in
  let '(body, used_zeros) := insert_groups gs None false in
  "[" ++ body ++ (if negb used_zeros && (default 1 (last gs) =? 0) then "::" else "") ++
  "]:" ++ dec (IPv6_getPort a).

(** ** Unix and unknown addresses *)
Definition sun_path_size : Z := 108.
Definition MAX_PATH_LEN : Z := sun_path_size - 1.
Definition offsetof_sun_path : Z := 2.
Definition UnixAddress_default : sockaddr_un :=
  mk_sockaddr_un AF_UNIX (replicate 108 0) (offsetof_sun_path + MAX_PATH_LEN).
(** [UnixAddress::UnixAddress(path)]; the bytes of [path.c_str()] end in a NUL. *)
Definition UnixAddress_new (path : list Z) : result () sockaddr_un :=
  let len := zlen path + 1 in
  let len := match path with 0 :: _ => len - 1 | _ => len end in
  if len >? sun_path_size then Raise () ExnLogicError
  else Done () (mk_sockaddr_un AF_UNIX (splice 0 (ztake len (path ++ [0])%list) (replicate 108 0)) (len + offsetof_sun_path)).
Definition setAddrLen (v : Z) (a : sockaddr_un) : sockaddr_un := mk_sockaddr_un (sun_family a) (sun_path a) v.

(** The bytes up to the first NUL. *)
Fixpoint upto_nul (l : list Z) : list Z :=
  match l with [] => [] | c :: l => if c =? 0 then [] else c :: upto_nul l end.
(** [UnixAddress::getPath] (and [insert]): the bytes printed, [None] when the
    string is read outside the array. *)
Definition getPath (a : sockaddr_un) : option (list Z) :=
  if (un_length a >? offsetof_sun_path) && (default 1 (head (sun_path a)) =? 0) then
    let n := un_length a - offsetof_sun_path - 1 in
    if n <=? zlen (sun_path a) - 1 then Some ([92; 48] ++ slice 1 n (sun_path a))%list else None
  else Some (upto_nul (sun_path a)).
Definition UnknownAddress_insert (family : Z) : string := "[UnknownAddress family=" ++ dec family ++ "]".

(** [Address::toString]; [None] as for [getPath]. *)
Definition Address_toString (a : Address) : option string :=
  match a with
  | IPv4Address a => Some (IPv4_insert a)
  | IPv6Address a => Some (IPv6_insert a)
  | UnixAddress a => text_of <$> getPath a
  | UnknownAddress family _ => Some (UnknownAddress_insert family)
  end.

(** ** The [sockaddr] view, its length, and the comparisons *)
Definition getFamily (a : Address) : Z :=
  match a with
  | IPv4Address a => sin_family a | IPv6Address a => sin6_family a
  | UnixAddress a => sun_family a | UnknownAddress f _ => f
  end.
(** The memory of the structure (the padding of [sockaddr_in] is zero). *)
Definition addr_bytes (a : Address) : list Z :=
  match a with
  | IPv4Address a => (int_bytes 2 (sin_family a) ++ int_bytes 2 (sin_port a) ++ int_bytes 4 (s_addr a) ++ replicate 8 0)%list
  | IPv6Address a => (int_bytes 2 (sin6_family a) ++ int_bytes 2 (sin6_port a) ++ int_bytes 4 (sin6_flowinfo a) ++
      s6_addr a ++ int_bytes 4 (sin6_scope_id a))%list
  | UnixAddress a => (int_bytes 2 (sun_family a) ++ sun_path a)%list
  | UnknownAddress f d => (int_bytes 2 f ++ d)%list
  end.
Definition getAddrLen (a : Address) : Z :=
  match a with IPv4Address _ => 16 | IPv6Address _ => 28 | UnixAddress a => un_length a | UnknownAddress _ _ => 16 end.

(** [memcmp] on the first [n] bytes: the sign of the first difference. *)
Fixpoint memcmp (l k : list Z) : comparison :=
  match l, k with
  | x :: l, y :: k => match x ?= y with Eq => memcmp l k | c => c end
  | _, _ => Eq
  end.
Definition addr_lt (a b : Address) : bool :=
  let minlen := Z.min (getAddrLen a) (getAddrLen b) in
  match memcmp (ztake minlen (addr_bytes a)) (ztake minlen (addr_bytes b)) with
  | Lt => true
  | Gt => false
  | Eq => getAddrLen a <? getAddrLen b
  end.
Definition addr_eq (a b : Address) : bool :=
  (getAddrLen a =? getAddrLen b) &&
  match memcmp (ztake (getAddrLen a) (addr_bytes a)) (ztake (getAddrLen a) (addr_bytes b)) with Eq => true | _ => false end.

(** ** Resolution *)
(** A [sockaddr] filled in by the system. *)
Inductive sockaddr := SA_in (a : sockaddr_in) | SA_in6 (a : sockaddr_in6) | SA_other (family : Z) (data : list Z).
(** [Address::Create] on a non-null pointer *)
Definition Create (s : sockaddr) : Address :=
  match s with SA_in a => IPv4Address a | SA_in6 a => IPv6Address a | SA_other f d => UnknownAddress f d end.

(** The text before and after the first occurrence of a character ([memchr]). *)
Fixpoint split_at (c : ascii) (s : string) : option (string * string) :=
  match s with
  | "" => None
  | String d s => if Ascii.eqb c d then Some ("", s) else '(l, r) ← split_at c s; Some (String d l, r)
  end.
(** The arguments [Address::Lookup] hands to [getaddrinfo]. *)
Definition split_host (host : string) : string * option string :=
  let bracket :=
    match host with
    | String "[" rest =>
        match split_at "]" rest with
        | Some (node, after) =>
            (node, match after with String ":" service => Some service | _ => None end)
        | None => ("", None)
        end
    | _ => ("", None)
    end in
  let colon :=
    if is_empty bracket.1 then
      match split_at ":" host with
      | Some (l, r) =>
          match split_at ":" r with
          | None => (l, Some r)
          | Some _ => ("", Some (String ":" r))
          end
      | None => ("", None)
      end
    else bracket in
  if is_empty colon.1 then (host, colon.2) else colon.

Section lookup.
(** [getaddrinfo(node, service, family, type, protocol)]: [None] on error. *)
Context (getaddrinfo : string → option string → Z → Z → Z → option (list sockaddr)).

(** [Address::Lookup]: whether it succeeded and the addresses appended. *)
Definition Lookup (result : list Address) (host : string) (family type protocol : Z) : bool * list Address :=
  let '(node, service) := split_host host in
  match getaddrinfo (c_str node) (c_str <$> service) family type protocol with
  | None => (false, result)
  | Some l => let r := (result ++ (Create <$> l))%list in (negb (bool_decide (r = [])), r)
  end.
Definition LookupAny (host : string) (family type protocol : Z) : option Address :=
  match Lookup [] host family type protocol with (true, a :: _) => Some a | _ => None end.
Definition is_ip (a : Address) : bool := match a with IPv4Address _ | IPv6Address _ => true | _ => false end.
Definition LookupAnyIPAddress (host : string) (family type protocol : Z) : option Address :=
  match Lookup [] host family type protocol with (true, l) => List.find is_ip l | _ => None end.
End lookup.

(** One entry of [getifaddrs]; [ifa_addr] may be null. *)
Record ifaddr := mk_ifaddr { ifa_name : string; ifa_addr : option sockaddr; ifa_netmask : option sockaddr }.
Definition sa_family (s : sockaddr) : Z :=
  match s with SA_in a => sin_family a | SA_in6 a => sin6_family a | SA_other f _ => f end.
(** The loop of [Address::GetInterfaceAddresses]: names, addresses, prefix lengths. *)
Fixpoint interface_loop (family : Z) (l : list ifaddr) : result () (list (string * Address * Z)) :=
  match l with
  | [] => Done () []
  | next :: l =>
      match ifa_addr next with
      | None => Undef NullDeref
      | Some sa =>
          let rest := interface_loop family l in
          let cons x := match rest with Done _ r => Done () (x :: r) | e => e end in
          if negb (family =? AF_UNSPEC) && negb (family =? sa_family sa) then rest
          else match sa, ifa_netmask next with
               | SA_in a, Some (SA_in m) => cons (ifa_name next, IPv4Address a, CountBytes 32 (s_addr m))
               | SA_in6 a, Some (SA_in6 m) =>
                   cons (ifa_name next, IPv6Address a, foldr (λ b n, CountBytes 8 b + n) 0 (s6_addr m))
               | SA_other _ _, _ => rest
               | _, _ => Undef NullDeref
               end
      end
  end.
End address.
