(* ===== verification/AddressFacts.v ===== *)
(** * AddressFacts: masks, printing, ordering and resolution of addresses *)
From S2P Require Import Prelude Endian Text Address.
Open Scope string_scope.
Open Scope Z_scope.

(** ** The bits of byte-swapped integers *)
Lemma le_value_testbit l : Forall is_byte l → ∀ i, 0 ≤ i →
  Z.testbit (le_value l) i = Z.testbit (nth (Z.to_nat (i / 8)) l 0) (i mod 8).
Proof.
  induction 1 as [|b l Hb Hl IH]; intros i Hi; cbn [le_value].
  { rewrite Z.bits_0. destruct (Z.to_nat (i / 8)); by rewrite Z.bits_0. }
  unfold is_byte in Hb. destruct (decide (i < 8)).
  - rewrite (Z.div_small i 8), (Z.mod_small i 8) by lia. cbn [Z.to_nat nth].
    rewrite <-(Z.mod_pow2_bits_low _ 8) by lia. f_equal.
    rewrite Z.mul_comm, Z.mod_add, Z.mod_small by lia. done.
  - replace i with ((i - 8) + 8) at 1 by lia. rewrite <-Z.div_pow2_bits by lia.
    rewrite Z.mul_comm, Z.div_add, (Z.div_small b), Z.add_0_l by lia. rewrite IH by lia.
    replace (i / 8) with ((i - 8) / 8 + 1) by (rewrite <-Z.div_add by lia; f_equal; lia).
    rewrite Z2Nat.inj_add, Nat.add_comm by (try apply Z.div_pos; lia). cbn [Z.to_nat Pos.to_nat Pos.iter_op Nat.add nth].
    f_equal. rewrite <-(Z.mod_add (i - 8) 1) by lia. f_equal. lia.
Qed.

Lemma nth_le_bytes n : ∀ z j, (j < n)%nat → nth j (le_bytes n z) 0 = (z / 2 ^ (8 * Z.of_nat j)) mod 2 ^ 8.
Proof.
  induction n as [|n IH]; intros z j Hj; [lia|]. cbn [le_bytes]. destruct j as [|j]; cbn [nth].
  - by rewrite Z.mul_0_r, Z.pow_0_r, Z.div_1_r.
  - rewrite IH by lia. rewrite Z.div_div by (try apply Z.pow_pos_nonneg; lia). do 2 f_equal.
    rewrite <-Z.pow_add_r by lia. f_equal. lia.
Qed.

Lemma bswap_testbit n z i : 0 ≤ i < 8 * Z.of_nat n →
  Z.testbit (bswap n z) i = Z.testbit z (8 * (Z.of_nat n - 1 - i / 8) + i mod 8).
Proof.
  intros Hi. unfold bswap. rewrite le_value_testbit by (try apply reverse_le_bytes_byte; lia).
  pose proof (Z.mod_pos_bound i 8 ltac:(lia)). pose proof (Z.div_pos i 8 ltac:(lia) ltac:(lia)).
  assert (i / 8 < Z.of_nat n) by (apply Z.div_lt_upper_bound; lia).
  unfold reverse. rewrite <-rev_alt, rev_nth by (rewrite length_le_bytes; lia). rewrite length_le_bytes, nth_le_bytes by lia.
  rewrite Z.mod_pow2_bits_low, Z.div_pow2_bits by lia. f_equal. lia.
Qed.

Section facts.
Context `{!Host}.
#[local] Set Default Proof Using "All".

(** Where bit [i] of a host-order integer lies in the network-order one. *)
Definition net_bit (n : nat) (i : Z) : Z :=
  if SYLAR_BYTE_ORDER =? SYLAR_BIG_ENDIAN then i else 8 * (Z.of_nat n - 1 - i / 8) + i mod 8.

Lemma net_bit_range n i : 0 ≤ i < 8 * Z.of_nat n → 0 ≤ net_bit n i < 8 * Z.of_nat n.
Proof.
  intros Hi. unfold net_bit. case_bool; [done|]. pose proof (Z.mod_pos_bound i 8 ltac:(lia)).
  pose proof (Z.div_pos i 8 ltac:(lia) ltac:(lia)). assert (i / 8 < Z.of_nat n) by (apply Z.div_lt_upper_bound; lia). lia.
Qed.
Lemma net_bit_involutive n i : 0 ≤ i < 8 * Z.of_nat n → net_bit n (net_bit n i) = i.
Proof.
  intros Hi. unfold net_bit. case_bool; [done|]. pose proof (Z.mod_pos_bound i 8 ltac:(lia)).
  pose proof (Z.div_mod i 8 ltac:(lia)). remember (Z.of_nat n - 1 - i / 8) as x eqn:Hx.
  assert ((8 * x + i mod 8) / 8 = x) as -> by (symmetry; apply (Z.div_unique _ _ _ (i mod 8)); lia).
  assert ((8 * x + i mod 8) mod 8 = i mod 8) as -> by (symmetry; apply (Z.mod_unique _ _ x); lia). lia.
Qed.

Lemma hton_testbit n z i : 0 ≤ i < 8 * Z.of_nat n →
  Z.testbit (byteswapOnLittleEndian n z) i = Z.testbit z (net_bit n i).
Proof. intros Hi. unfold byteswapOnLittleEndian, net_bit, byteswap. case_bool; [done|]. by apply bswap_testbit. Qed.

Lemma hton_inv n z : 0 ≤ z < 2 ^ (8 * Z.of_nat n) → byteswapOnLittleEndian n (byteswapOnLittleEndian n z) = z.
Proof.
  intros Hz. unfold byteswapOnLittleEndian, byteswap. case_bool; [done|]. rewrite bswap_involutive. by apply Z.mod_small.
Qed.

(** The host-order value of an IPv4 address; bit [i] counts from the left. *)
Definition ip4 (a : sockaddr_in) : Z := byteswapOnLittleEndian 4 (s_addr a).
Definition ip4_bit (a : sockaddr_in) (i : Z) : bool := Z.testbit (ip4 a) (31 - i).

Lemma CreateMask4 p : 2 ≤ p ≤ 32 → CreateMask 4 p = Some (Z.ones (32 - p)).
Proof.
  intros Hp. assert (Hin : p ∈ seqZ 2 31) by (apply elem_of_seqZ; lia). clear Hp. revert p Hin.
  apply (proj1 (Forall_forall (λ p, CreateMask 4 p = Some (Z.ones (32 - p))) (seqZ 2 31))). by repeat constructor.
Qed.
Lemma CreateMask1 b : 0 ≤ b < 8 → CreateMask 1 b = Some (Z.ones (8 - b)).
Proof.
  intros Hp. assert (Hin : b ∈ seqZ 0 8) by (apply elem_of_seqZ; lia). clear Hp. revert b Hin.
  apply (proj1 (Forall_forall (λ b, CreateMask 1 b = Some (Z.ones (8 - b))) (seqZ 0 8))). by repeat constructor.
Qed.

Lemma ones_testbit n i : 0 ≤ n → 0 ≤ i → Z.testbit (Z.ones n) i = (i <? n).
Proof. intros Hn Hi. destruct (i <? n) eqn:E; [apply Z.ones_spec_low|apply Z.ones_spec_high]; lia. Qed.

Lemma ip4_bit_op op bop a m i : (∀ x y j, Z.testbit (op x y) j = bop (Z.testbit x j) (Z.testbit y j)) → 0 ≤ i < 32 →
  ip4_bit (mk_sockaddr_in (sin_family a) (sin_port a) (op (s_addr a) (byteswapOnLittleEndian 4 m))) i
  = bop (ip4_bit a i) (Z.testbit m (31 - i)).
Proof.
  intros Hop Hi. unfold ip4_bit, ip4. cbn [s_addr].
  pose proof (net_bit_range 4 (31 - i) ltac:(lia)) as Hn.
  rewrite !(hton_testbit 4 _ (31 - i)), Hop by lia. f_equal. rewrite (hton_testbit 4 m) by lia. by rewrite net_bit_involutive by lia.
Qed.

(** IPv4, on either kind of host: ports survive the conversion, the printed
    form is the four bytes of the address and the port, [subnetMask] has exactly
    the first [prefix_len] bits set and [broadcastAddress] sets exactly the host
    bits.  [networdAddress] keeps exactly the host bits, where the network
    address is the rest; and prefix 0 shifts by the width of [int], prefix 1 overflows it. *)
Theorem ipv4_spec a p port addr : 0 ≤ port < 2 ^ 16 → 0 ≤ addr < 2 ^ 32 → 2 ≤ p ≤ 32 →
  IPv4_getPort (IPv4_setPort port a) = port ∧
  IPv4_insert (IPv4Address_new addr port) =
    dec (addr / 2 ^ 24) ++ "." ++ dec (addr / 2 ^ 16 mod 2 ^ 8) ++ "." ++ dec (addr / 2 ^ 8 mod 2 ^ 8) ++ "." ++
    dec (addr mod 2 ^ 8) ++ ":" ++ dec port ∧
  (∃ m, IPv4_subnetMask p = Done () m ∧ ∀ i, 0 ≤ i < 32 → ip4_bit m i = (i <? p)) ∧
  (∃ b, IPv4_broadcastAddress p a = Done () (Some b) ∧ ∀ i, 0 ≤ i < 32 → ip4_bit b i = ip4_bit a i || (p <=? i)) ∧
  (∃ n, IPv4_networdAddress p a = Done () (Some n) ∧ ∀ i, 0 ≤ i < 32 → ip4_bit n i = ip4_bit a i && (p <=? i)) ∧
  IPv4_subnetMask 0 = Undef Overflow ∧ IPv4_subnetMask 1 = Undef Overflow ∧ IPv4_broadcastAddress 33 a = Done () None.
Proof.
  intros Hport Haddr Hp.
  assert (Hgt : (p >? 32) = false) by lia.
  assert (Hm : ∀ i, 0 ≤ i < 32 → Z.testbit (Z.ones (32 - p)) (31 - i) = (p <=? i)).
  { intros i Hi. rewrite ones_testbit by lia. apply Bool.eq_iff_eq_true. lia. }
  assert (Hport' : IPv4_getPort (IPv4_setPort port a) = port).
  { unfold IPv4_getPort, IPv4_setPort, hton16. cbn. rewrite u16_small by lia. apply hton_inv. cbn -[Z.pow]. lia. }
  split; [done|]. split; [|split; [|split; [|split; [|done]]]].
  - unfold IPv4_insert, IPv4Address_new. cbn [s_addr]. unfold hton32. rewrite u32_small, hton_inv by (cbn -[Z.pow]; lia).
    unfold IPv4_getPort in *. cbn [sin_port] in *. cbn [IPv4_setPort sin_port] in Hport'. rewrite Hport'.
    rewrite !(Z.land_ones _ 8 ltac:(lia) : Z.land _ 0xff = _ mod 2 ^ 8), !Z.shiftr_div_pow2 by lia.
    rewrite (Z.mod_small (addr / 2 ^ 24)); [done|]. split; [apply Z.div_pos; lia|apply Z.div_lt_upper_bound; lia].
  - unfold IPv4_subnetMask. rewrite CreateMask4 by done. eexists. split; [done|]. intros i Hi. unfold ip4_bit, ip4. cbn [s_addr].
    rewrite hton_testbit by lia. pose proof (net_bit_range 4 (31 - i) ltac:(lia)) as Hn.
    unfold u32. rewrite Z.mod_pow2_bits_low, Z.lnot_spec, hton_testbit, net_bit_involutive, Hm by lia.
    apply Bool.eq_iff_eq_true. rewrite negb_true_iff. lia.
  - unfold IPv4_broadcastAddress. rewrite Hgt, CreateMask4 by done. eexists. split; [done|]. intros i Hi.
    rewrite (ip4_bit_op Z.lor orb) by (try apply Z.lor_spec; lia). by rewrite Hm.
  - unfold IPv4_networdAddress. rewrite Hgt, CreateMask4 by done. eexists. split; [done|]. intros i Hi.
    rewrite (ip4_bit_op Z.land andb) by (try apply Z.land_spec; lia). by rewrite Hm.
Qed.

(** ** IPv6: bit [i] from the left of the sixteen bytes *)
Definition ip6_bit (l : list Z) (i : Z) : bool := Z.testbit (nth (Z.to_nat (i / 8)) l 0) (7 - i mod 8).

Lemma nth_alter (f : Z → Z) i j l : (i < List.length l)%nat → nth j (alter f i l) 0 = if decide (i = j) then f (nth j l 0) else nth j l 0.
Proof.
  intros Hi. rewrite !nth_lookup. case_decide as Hij; [subst|by rewrite list_lookup_alter_ne].
  rewrite list_lookup_alter_eq. destruct (lookup_lt_is_Some_2 l j Hi) as [x ->]. done.
Qed.
Lemma nth_fill from upto v l j : (j < List.length l)%nat → nth j (s6_fill from upto v l) 0 =
  if (from <=? Z.of_nat j) && (Z.of_nat j <? upto) then v else nth j l 0.
Proof.
  intros Hj. rewrite !nth_lookup. unfold s6_fill. rewrite list_lookup_imap.
  destruct (lookup_lt_is_Some_2 l j Hj) as [x ->]. cbn. done.
Qed.

Lemma nth_zeros n k : nth k (replicate n 0) 0 = 0.
Proof. revert k. induction n as [|n IH]; intros [|k]; cbn; auto. Qed.

Lemma s6_index p i : 0 ≤ p < 128 → 0 ≤ i < 128 →
  0 ≤ p mod 8 < 8 ∧ 0 ≤ i mod 8 < 8 ∧ 0 ≤ p / 8 < 16 ∧ 0 ≤ i / 8 < 16 ∧ p = 8 * (p / 8) + p mod 8 ∧ i = 8 * (i / 8) + i mod 8.
Proof.
  intros Hp Hi. pose proof (Z.mod_pos_bound p 8 ltac:(lia)). pose proof (Z.mod_pos_bound i 8 ltac:(lia)).
  pose proof (Z.div_mod p 8 ltac:(lia)). pose proof (Z.div_mod i 8 ltac:(lia)). lia.
Qed.

Lemma IPv6_mask_op_bits op bop fill p l : (∀ x y j, Z.testbit (op x y) j = bop (Z.testbit x j) (Z.testbit y j)) →
  List.length l = 16%nat → 0 ≤ p < 128 → ∃ l', IPv6_mask_op op fill p l = Done () l' ∧ ∀ i, 0 ≤ i < 128 →
    ip6_bit l' i = if i / 8 <? p / 8 then ip6_bit l i
                   else if i / 8 =? p / 8 then bop (ip6_bit l i) (p <=? i) else Z.testbit fill (7 - i mod 8).
Proof.
  intros Hop Hl Hp. pose proof (Z.mod_pos_bound p 8 ltac:(lia)) as Hm.
  unfold IPv6_mask_op. rewrite CreateMask1 by lia. unfold s6_update.
  destruct (s6_index p 0 Hp ltac:(lia)) as (_ & _ & Hpd & _). unfold zlen. rewrite Hl.
  change (Z.of_nat 16) with 16. replace ((0 <=? p / 8) && (p / 8 <? 16)) with true by lia.
  eexists. split; [done|]. intros i Hi. destruct (s6_index p i Hp Hi) as (H1 & H2 & _ & H4 & H5 & H6).
  unfold ip6_bit. rewrite nth_fill by (rewrite length_alter; lia). rewrite Z2Nat.id by lia.
  destruct (i / 8 <? p / 8) eqn:E1.
  { replace ((p / 8 + 1 <=? i / 8) && (i / 8 <? 16)) with false by lia. rewrite nth_alter, decide_False by lia. done. }
  destruct (i / 8 =? p / 8) eqn:E2.
  - replace ((p / 8 + 1 <=? i / 8) && (i / 8 <? 16)) with false by lia. rewrite nth_alter, decide_True by lia.
    rewrite Hop. f_equal. rewrite ones_testbit by lia. apply Bool.eq_iff_eq_true. lia.
  - replace ((p / 8 + 1 <=? i / 8) && (i / 8 <? 16)) with true by lia. done.
Qed.

Lemma ff_testbit j : 0 ≤ j < 8 → Z.testbit 0xff j = true.
Proof. intros Hj. change 0xff with (Z.ones 8). rewrite ones_testbit by lia. lia. Qed.

(** IPv6: [subnetMask] has exactly the first [prefix_len] bits set and
    [broadcastAddress] sets exactly the bits behind them, for [prefix_len] up to
    127; [networdAddress] keeps the whole bytes of the prefix but, within the byte
    the prefix ends in, the host bits; prefix 128 stores outside the address. *)
Theorem ipv6_spec a p : List.length (s6_addr a) = 16%nat → 0 ≤ p < 128 →
  (∃ m, IPv6_subnetMask p = Done () m ∧ ∀ i, 0 ≤ i < 128 → ip6_bit (s6_addr m) i = (i <? p)) ∧
  (∃ b, IPv6_broadcastAddress p a = Done () b ∧
    ∀ i, 0 ≤ i < 128 → ip6_bit (s6_addr b) i = ip6_bit (s6_addr a) i || (p <=? i)) ∧
  (∃ n, IPv6_networdAddress p a = Done () n ∧
    ∀ i, 0 ≤ i < 128 → ip6_bit (s6_addr n) i = ip6_bit (s6_addr a) i && ((i / 8 <? p / 8) || (i / 8 =? p / 8) && (p <=? i))) ∧
  IPv6_subnetMask 128 = Undef OutOfBounds ∧ IPv6_broadcastAddress 128 a = Undef OutOfBounds.
Proof.
  intros Hl Hp. split; [|split; [|split; [|split; [done|]]]].
  - unfold IPv6_subnetMask. rewrite CreateMask1 by (apply Z.mod_pos_bound; lia). unfold s6_update.
    destruct (s6_index p 0 Hp ltac:(lia)) as (_ & _ & Hpd & _). rewrite zlen_replicate. change (Z.of_nat 16) with 16.
    replace ((0 <=? p / 8) && (p / 8 <? 16)) with true by lia. eexists. split; [done|]. intros i Hi.
    destruct (s6_index p i Hp Hi) as (H1 & H2 & _ & H4 & H5 & H6). unfold ip6_bit. cbn [s6_addr set_s6_addr].
    rewrite nth_fill by (rewrite length_alter, length_replicate; lia). rewrite Z2Nat.id by lia.
    rewrite nth_alter by (rewrite length_replicate; lia).
    destruct (decide (Z.to_nat (p / 8) = Z.to_nat (i / 8))).
    + replace ((0 <=? i / 8) && (i / 8 <? p / 8)) with false by lia. unfold u8.
      rewrite Z.mod_pow2_bits_low, Z.lnot_spec, ones_testbit by lia. apply Bool.eq_iff_eq_true. rewrite negb_true_iff. lia.
    + rewrite nth_zeros. destruct (i / 8 <? p / 8) eqn:E.
      * replace ((0 <=? i / 8) && true) with true by lia. rewrite ff_testbit by lia. lia.
      * rewrite andb_false_r, Z.bits_0. lia.
  - destruct (IPv6_mask_op_bits Z.lor orb 0xff p (s6_addr a) Z.lor_spec Hl Hp) as (l' & Hr & Hb).
    unfold IPv6_broadcastAddress. rewrite Hr. eexists. split; [done|]. intros i Hi. cbn [s6_addr set_s6_addr]. rewrite Hb by done.
    destruct (s6_index p i Hp Hi) as (H1 & H2 & _ & H4 & H5 & H6). repeat case_bool.
    + replace (p <=? i) with false by lia. by rewrite orb_false_r.
    + done.
    + rewrite ff_testbit by lia. replace (p <=? i) with true by lia. by rewrite orb_true_r.
  - destruct (IPv6_mask_op_bits Z.land andb 0 p (s6_addr a) Z.land_spec Hl Hp) as (l' & Hr & Hb).
    unfold IPv6_networdAddress. rewrite Hr. eexists. split; [done|]. intros i Hi. cbn [s6_addr set_s6_addr]. rewrite Hb by done.
    repeat case_bool; cbn [orb andb].
    + by rewrite andb_true_r.
    + done.
    + by rewrite Z.bits_0, andb_false_r.
  - unfold IPv6_broadcastAddress, IPv6_mask_op, s6_update, zlen. rewrite Hl. done.
Qed.
End facts.

(** ** The order on addresses *)
(** The lexicographic order of byte strings. *)
Fixpoint lex (l k : list Z) : comparison :=
  match l, k with
  | [], [] => Eq
  | [], _ => Lt
  | _, [] => Gt
  | x :: l, y :: k => match x ?= y with Eq => lex l k | c => c end
  end.

Lemma lex_eq l k : lex l k = Eq ↔ l = k.
Proof.
  revert k. induction l as [|x l IH]; intros [|y k]; cbn; try done.
  destruct (Z.compare_spec x y) as [->|Hlt|Hlt]; [rewrite IH|..]; split; try done.
  - by intros ->.
  - by intros [= ->].
  - intros [= -> ->]. lia.
  - intros [= -> ->]. lia.
Qed.
Lemma lex_antisym l k : lex k l = CompOpp (lex l k).
Proof.
  revert k. induction l as [|x l IH]; intros [|y k]; cbn; try done.
  rewrite (Z.compare_antisym x y). destruct (x ?= y); cbn; auto.
Qed.
Lemma lex_trans l k m : lex l k = Lt → lex k m = Lt → lex l m = Lt.
Proof.
  revert k m. induction l as [|x l IH]; intros [|y k] [|z m]; cbn; try done.
  destruct (Z.compare_spec x y) as [->|Hxy|Hxy], (Z.compare_spec y z) as [->|Hyz|Hyz]; try done;
    try (rewrite (proj2 (Z.compare_lt_iff _ _)) by lia; done).
  apply IH.
Qed.

Lemma lex_memcmp l k : lex l k = match memcmp (ztake (Z.min (zlen l) (zlen k)) l) (ztake (Z.min (zlen l) (zlen k)) k) with
  | Eq => zlen l ?= zlen k | c => c end.
Proof.
  revert k. induction l as [|x l IH]; intros [|y k]; [done| | |].
  - cbn [lex]. rewrite (zlen_nil (A:=Z)), zlen_cons. pose proof (zlen_nonneg k). rewrite Z.min_l by lia.
    change (ztake 0 []) with (@nil Z). cbn [memcmp]. symmetry. apply Z.compare_lt_iff. lia.
  - cbn [lex]. rewrite (zlen_nil (A:=Z)), zlen_cons. pose proof (zlen_nonneg l). rewrite Z.min_r by lia.
    unfold ztake at 1. cbn [Z.to_nat take memcmp]. symmetry. apply Z.compare_gt_iff. lia.
  - rewrite !zlen_cons. pose proof (zlen_nonneg l). pose proof (zlen_nonneg k). rewrite Z.add_min_distr_l.
    unfold ztake. rewrite Z2Nat.inj_add by lia. change (Z.to_nat 1) with 1%nat. cbn [Nat.add take memcmp lex].
    destruct (x ?= y); try done. rewrite IH. unfold ztake. destruct (memcmp _ _); try done.
    rewrite !(Z.compare_sub (_ + _)), Z.compare_sub. f_equal. lia.
Qed.

Section order.
Context `{!Host}.
(** The bytes that the comparisons look at; [setAddrLen] is in range. *)
Definition image (a : Address) : list Z := ztake (getAddrLen a) (addr_bytes a).
Definition complete (a : Address) : Prop := 0 ≤ getAddrLen a ≤ zlen (addr_bytes a).

Lemma zlen_image a : complete a → zlen (image a) = getAddrLen a.
Proof. intros Ha. by apply zlen_ztake. Qed.

Lemma image_take a n : 0 ≤ n ≤ getAddrLen a → ztake n (addr_bytes a) = ztake n (image a).
Proof. intros Hn. unfold image, ztake. rewrite take_take. f_equal. lia. Qed.

Lemma addr_lt_lex a b : complete a → complete b → addr_lt a b = true ↔ lex (image a) (image b) = Lt.
Proof.
  intros Ha Hb. rewrite lex_memcmp, !zlen_image by done. unfold addr_lt, complete in *.
  rewrite !image_take by lia. destruct (memcmp _ _); try done.
  unfold Z.ltb. by destruct (getAddrLen a ?= getAddrLen b).
Qed.
Lemma addr_eq_lex a b : complete a → complete b → addr_eq a b = true ↔ lex (image a) (image b) = Eq.
Proof.
  intros Ha Hb. rewrite lex_memcmp, !zlen_image by done. unfold addr_eq, complete in *.
  destruct (Z.compare_spec (getAddrLen a) (getAddrLen b)) as [Heq|Hlt|Hlt].
  - replace (Z.min _ _) with (getAddrLen a) by lia. rewrite <-!image_take by lia.
    replace (getAddrLen a =? getAddrLen b) with true by lia. destruct (memcmp _ _); by split.
  - replace (getAddrLen a =? getAddrLen b) with false by lia. split; [done|]; by destruct (memcmp (ztake (_ `min` _) _) _).
  - replace (getAddrLen a =? getAddrLen b) with false by lia. split; [done|]; by destruct (memcmp (ztake (_ `min` _) _) _).
Qed.

(** [operator<] is a strict total order on addresses up to [operator==],
    which is equality of the [getAddrLen()] bytes of the structure: any two
    addresses are equal or ordered one way, never both, and the order is
    transitive - what ordered containers of addresses rely on. *)
Theorem address_order a b c : complete a → complete b → complete c →
  (addr_eq a b = true ↔ image a = image b) ∧
  (addr_lt a b = true ∧ addr_lt b a = false ∧ addr_eq a b = false ∨
   addr_lt a b = false ∧ addr_lt b a = true ∧ addr_eq a b = false ∨
   addr_lt a b = false ∧ addr_lt b a = false ∧ addr_eq a b = true) ∧
  (addr_lt a b = true → addr_lt b c = true → addr_lt a c = true) ∧
  (addr_eq a b = true → addr_lt a c = addr_lt b c).
Proof.
  intros Ha Hb Hc. pose proof (addr_lt_lex a b Ha Hb) as Hab. pose proof (addr_lt_lex b a Hb Ha) as Hba.
  pose proof (addr_eq_lex a b Ha Hb) as He. rewrite lex_antisym in Hba.
  split; [by rewrite He, lex_eq|]. split; [|split].
  - destruct (lex (image a) (image b)); destruct (addr_lt a b), (addr_lt b a), (addr_eq a b); cbn in *; intuition congruence.
  - rewrite (addr_lt_lex a b), (addr_lt_lex b c), (addr_lt_lex a c) by done. apply lex_trans.
  - rewrite He, lex_eq. intros Him. apply Bool.eq_iff_eq_true. rewrite !addr_lt_lex by done. by rewrite Him.
Qed.
End order.

(** ** Resolution and Unix paths *)
Definition lacks (c : ascii) (s : string) : Prop := split_at c s = None.

Lemma split_at_app c l r : lacks c l → split_at c (l ++ String c r) = Some (l, r).
Proof.
  unfold lacks. induction l as [|d l IH]; intros H.
  - cbn. by rewrite Ascii.eqb_refl.
  - change (split_at c (String d (l ++ String c r)) = Some (String d l, r)). cbn [split_at] in *.
    destruct (Ascii.eqb c d); [done|]. destruct (split_at c l) as [[? ?]|]; [done|]. by rewrite (IH eq_refl).
Qed.
Definition brackets (s : string) : bool := match s with String "[" _ => true | _ => false end.

Lemma split_host_plain s : brackets s = false → split_host s =
  match split_at ":" s with
  | Some (l, r) => match split_at ":" r with None => (if is_empty l then s else l, Some r) | Some _ => (s, Some (String ":" r)) end
  | None => (s, None)
  end.
Proof.
  intros Hb. unfold split_host. destruct s as [|[[] [] [] [] [] [] [] []] s]; try done; cbn [is_empty fst snd];
    destruct (split_at ":" _) as [[l r]|]; try done; destruct (split_at ":" r); try done; by destruct l.
Qed.

(** What [Lookup] asks the resolver for: [host:port] and [[v6]:port] are taken
    apart, a host without colons (or a bracketed one without port) has no
    service.  A bare IPv6 address - two colons or more - keeps the whole text as
    the node, but its tail from the first colon on is passed as the service. *)
Theorem split_host_spec h p r : h ≠ "" → brackets h = false → lacks ":" h → lacks ":" p →
  split_host h = (h, None) ∧
  split_host (h ++ ":" ++ p) = (h, Some p) ∧
  split_host (h ++ ":" ++ r ++ ":" ++ p) = (h ++ ":" ++ r ++ ":" ++ p, Some (":" ++ r ++ ":" ++ p)) ∧
  (lacks "]" h → split_host ("[" ++ h ++ "]:" ++ p) = (h, Some p) ∧ split_host ("[" ++ h ++ "]") = (h, None)).
Proof.
  intros Hne Hb Hh Hp.
  assert (Happ : ∀ t, brackets (h ++ t) = false) by (intros t; destruct h as [|[[] [] [] [] [] [] [] []] h]; done).
  assert (Hsome : split_at ":" (r ++ ":" ++ p) ≠ None).
  { clear. induction r as [|d r IH]; [done|]. change (split_at ":" (String d (r ++ ":" ++ p)) ≠ None). cbn [split_at].
    destruct (Ascii.eqb ":" d); [done|]. by destruct (split_at ":" (r ++ ":" ++ p)) as [[? ?]|]. }
  split; [|split; [|split]].
  - rewrite split_host_plain by done. unfold lacks in Hh. by rewrite Hh.
  - rewrite split_host_plain by apply Happ. rewrite (split_at_app ":" h p Hh : split_at ":" (h ++ ":" ++ p) = _).
    unfold lacks in Hp. rewrite Hp. by destruct h.
  - rewrite split_host_plain by apply Happ. rewrite (split_at_app ":" h (r ++ ":" ++ p) Hh : split_at ":" (h ++ ":" ++ r ++ ":" ++ p) = _).
    destruct (split_at ":" (r ++ ":" ++ p)); done.
  - intros Hr. change ("[" ++ h ++ "]:" ++ p) with (String "[" (h ++ String "]" (String ":" p))).
    change ("[" ++ h ++ "]") with (String "[" (h ++ String "]" "")). unfold split_host.
    rewrite !(split_at_app "]" h) by done. cbn [fst snd]. destruct h; done.
Qed.

Lemma upto_nul_app l k : 0 ∉ l → upto_nul (l ++ 0 :: k)%list = l.
Proof.
  induction l as [|c l IH]; intros Hn; [done|]. cbn. destruct (Z.eqb_spec c 0) as [->|_]; [exfalso; apply Hn; by left|].
  f_equal. apply IH. set_solver.
Qed.

(** A Unix address holds its path: paths of at most 107 bytes (abstract names
    of at most 108, their leading NUL included) are stored with their exact
    length and read back by [getPath] - abstract names with the NUL shown as
    [\0] - and longer ones throw [logic_error]. *)
Theorem unix_path_spec path :
  (0 ∉ path → path ≠ [] → zlen path ≤ 107 →
    ∃ a, UnixAddress_new path = Done () a ∧ getPath a = Some path ∧ un_length a = 2 + zlen path + 1) ∧
  (zlen path ≤ 107 → ∃ a, UnixAddress_new (0 :: path) = Done () a ∧ getPath a = Some ([92; 48] ++ path)%list ∧
    un_length a = 2 + zlen path + 1) ∧
  (head path ≠ Some 0 → 107 < zlen path → UnixAddress_new path = Raise () ExnLogicError).
Proof.
  pose proof (zlen_nonneg path). unfold UnixAddress_new, sun_path_size. split; [|split].
  - intros Hn Hne Hl. assert (Hm : match path with 0 :: _ => zlen path + 1 - 1 | _ => zlen path + 1 end = zlen path + 1).
    { destruct path as [|[|?|?] ?]; try done. exfalso. apply Hn. by left. }
    rewrite Hm. replace (zlen path + 1 >? 108) with false by lia. eexists. split; [done|].
    assert (Htake : ztake (zlen path + 1) (path ++ [0])%list = (path ++ [0])%list) by (apply take_ge; rewrite length_app; unfold zlen; cbn; lia).
    rewrite Htake. unfold splice. cbn [un_length]. split; [|unfold offsetof_sun_path; lia].
    unfold getPath. cbn [sun_path un_length]. change (ztake 0 (replicate 108 0)) with (@nil Z). rewrite app_nil_l.
    replace ((_ >? _) && (default 1 (head _) =? 0)) with false.
    + f_equal. rewrite <-app_assoc. by apply upto_nul_app.
    + symmetry. apply andb_false_iff. right. destruct path as [|c path]; [done|]. cbn.
      destruct (Z.eqb_spec c 0) as [->|_]; [exfalso; apply Hn; by left|done].
  - intros Hl. rewrite zlen_cons. replace (1 + zlen path + 1 - 1 >? 108) with false by lia. eexists. split; [done|].
    assert (Htake : ztake (1 + zlen path + 1 - 1) ((0 :: path) ++ [0])%list = (0 :: path)).
    { apply ztake_app_exact. rewrite zlen_cons. lia. }
    rewrite Htake. cbn [un_length]. split; [|unfold offsetof_sun_path; lia].
    unfold getPath. cbn [sun_path un_length]. unfold splice. change (ztake 0 (replicate 108 0)) with (@nil Z). rewrite app_nil_l.
    cbn [app head default]. replace (1 + zlen path + 1 - 1 + offsetof_sun_path >? offsetof_sun_path) with true by lia. cbn [andb id Z.eqb].
    rewrite zlen_cons, zlen_app. rewrite zlen_zdrop by (rewrite zlen_cons, zlen_replicate; lia). rewrite zlen_replicate, zlen_cons.
    replace (_ <=? _) with true by (unfold offsetof_sun_path; symmetry; apply Z.leb_le; change (Z.of_nat 108) with 108; lia). do 3 f_equal.
    change (0 :: path ++ zdrop (0 + (1 + zlen path)) (replicate 108 0))%list with ([0] ++ (path ++ zdrop (0 + (1 + zlen path)) (replicate 108 0)))%list.
    rewrite slice_app_r by done. rewrite slice_app_l.
    + change (1 - zlen [0]) with 0; apply slice_all. unfold offsetof_sun_path. lia.
    + done.
    + unfold offsetof_sun_path. lia.
    + unfold offsetof_sun_path. change (zlen [0]) with 1. lia.
  - intros Hh Hl. destruct path as [|[|?|?] path]; try done;
      replace (zlen _ + 1 >? 108) with true by lia; done.
Qed.

(** ** Witnesses *)
Definition sample_ip4 : sockaddr_in := @IPv4Address_new little_host 0xC0A80105 80.
Lemma ipv4_spec_witness : ∃ b, @IPv4_broadcastAddress little_host 24 sample_ip4 = Done () (Some b) ∧
  @IPv4_insert little_host b = "192.168.1.255:80".
Proof.
  destruct (@ipv4_spec little_host sample_ip4 24 80 0xC0A80105) as (_ & _ & _ & (b & Hb & _) & _); [lia..|].
  exists b. split; [exact Hb|]. vm_compute in Hb. injection Hb as <-. vm_compute. reflexivity.
Defined.
Lemma ipv6_spec_witness : ∃ m, IPv6_subnetMask 20 = Done () m ∧ ip6_bit (s6_addr m) 19 = true ∧ ip6_bit (s6_addr m) 20 = false.
Proof.
  destruct (@ipv6_spec little_host IPv6Address_default 20) as ((m & Hm & Hb) & _); [reflexivity|lia|].
  exists m. split; [exact Hm|]. rewrite !Hb by lia. done.
Defined.
Lemma address_order_witness : let a := IPv4Address sample_ip4 in let b := UnknownAddress 2 (replicate 14 0) in
  (@addr_lt little_host b a = true) ∧ @addr_lt little_host a b = false.
Proof.
  intros a b. destruct (@address_order little_host a b b) as (_ & [(H1 & _)|[(H1 & H2 & _)|(_ & H2 & _)]] & _);
    [split; vm_compute; discriminate..|vm_compute in H1; discriminate|by split|vm_compute in H2; discriminate].
Defined.
Lemma split_host_spec_witness : split_host "localhost:80" = ("localhost", Some "80") ∧
  split_host "fe80::1" = ("fe80::1", Some "::1").
Proof.
  split.
  - apply (split_host_spec "localhost" "80" ""); done.
  - apply (split_host_spec "fe80" "1" ""); done.
Defined.
Lemma unix_path_spec_witness : ∃ a, UnixAddress_new [47; 97] = Done () a ∧ getPath a = Some [47; 97].
Proof.
  destruct (proj1 (unix_path_spec [47; 97])) as (a & H1 & H2 & _); [set_solver|done|vm_compute; discriminate|].
  exists a. by split.
Defined.
