(* ===== verification/AddressText.v ===== *)
(** * AddressText ([webserve/address.cc]): addresses from texts and from interfaces

    The constructors from numeric texts, what a text means by the standard, and the
    listing of one interface. The text of an address denotes it. *)
From S2P Require Import Prelude Endian Text Address AddressFacts.
Open Scope string_scope.
Open Scope Z_scope.

Section create.
Context `{!Host}.
(** [inet_pton]: the bytes it stores in the address, [None] when it does not return 1;
    [getaddrinfo] with AI_NUMERICHOST: [None] on error, or the first result and the rest. *)
Context (inet_pton4 : string → option Z) (inet_pton6 : string → option (list Z)) (getaddrinfo : string → option (sockaddr * list sockaddr)).

Definition INADDR_ANY : Z := 0.
Definition IPv4Address_default : sockaddr_in := IPv4Address_new INADDR_ANY 0.
Definition IPv4_Create (address : string) (port : Z) : option sockaddr_in :=
  a ← inet_pton4 (c_str address); Some (mk_sockaddr_in AF_INET (hton16 port) a).
Definition IPv6_Create (address : string) (port : Z) : option sockaddr_in6 :=
  a ← inet_pton6 (c_str address); Some (mk_sockaddr_in6 AF_INET6 (hton16 port) 0 a 0).
(** [IPAddress::setPort] *)
Definition IP_setPort (v : Z) (a : Address) : Address :=
  match a with IPv4Address a => IPv4Address (IPv4_setPort v a) | IPv6Address a => IPv6Address (IPv6_setPort v a) | _ => a end.
(** [IPAddress::Create] *)
Definition IPAddress_Create (address : string) (port : Z) : option Address :=
  '(sa, _) ← getaddrinfo (c_str address);
  let result := Create sa in
  if is_ip result then Some (IP_setPort port result) else None.

Definition UnknownAddress_new (family : Z) : Address := UnknownAddress (u16 family) (replicate 14 0).
Definition addr_ne (a b : Address) : bool := negb (addr_eq a b).

(** [Address::GetInterfaceAddresses] into a multimap, in the order of insertion, from what
    [getifaddrs] gave; and the addresses of one interface. *)
Definition GetInterfaceAddresses (family : Z) (l : option (list ifaddr)) (found : list (string * Address * Z)) : result () (bool * list (string * Address * Z)) :=
  match l with
  | None => Done () (false, found)
  | Some l =>
      match interface_loop family l with
      | Done _ r => Done () (negb (bool_decide ((found ++ r)%list = [])), (found ++ r)%list)
      | Raise s e => Raise s e
      | Undef c => Undef c
      | NoFuel => NoFuel
      end
  end.
Definition GetInterfaceAddresses_of (iface : string) (family : Z) (l : option (list ifaddr)) (found : list (Address * Z)) : result () (bool * list (Address * Z)) :=
  if is_empty iface || String.eqb iface "*" then
    Done () (true, (found ++ (if (family =? AF_INET) || (family =? AF_UNSPEC) then [(IPv4Address IPv4Address_default, 0)] else []) ++
      (if (family =? AF_INET6) || (family =? AF_UNSPEC) then [(IPv6Address IPv6Address_default, 0)] else []))%list)
  else
    match GetInterfaceAddresses family l [] with
    | Done _ (false, _) => Done () (false, found)
    | Done _ (true, r) =>
        let its := (λ x : string * Address * Z, (x.1.2, x.2)) <$> filter (λ x : string * Address * Z, x.1.1 = iface) r in
        Done () (negb (bool_decide ((found ++ its)%list = [])), (found ++ its)%list)
    | Raise s e => Raise s e
    | Undef c => Undef c
    | NoFuel => NoFuel
    end.
End create.

(** ** What the texts mean
    The forms of RFC 4291, section 2.2, and the dotted decimal form, as [inet_pton] reads them. *)
Fixpoint pieces (c : ascii) (s : string) : list string :=
  match s with
  | "" => [""]
  | String d s =>
      if Ascii.eqb c d then "" :: pieces c s
      else match pieces c s with p :: ps => String d p :: ps | [] => [String d ""] end
  end.
Fixpoint all_of (base : Z) (s : string) : bool :=
  match s with "" => true | String c s => match digit_of base c with Some _ => all_of base s | None => false end end.
Definition number (base width limit : Z) (s : string) : option Z :=
  if negb (is_empty s) && (str_len s <=? width) && all_of base s && (strtol_digits base s 0 <=? limit) then Some (strtol_digits base s 0) else None.
Definition numbers (base width limit : Z) (c : ascii) (s : string) : option (list Z) :=
  if is_empty s then Some [] else mapM (number base width limit) (pieces c s).
(** The text before and after the first [::]. *)
Fixpoint split_double (s : string) : option (string * string) :=
  match s with
  | "" => None
  | String c s =>
      if Ascii.eqb c ":" && match s with String d _ => Ascii.eqb d ":" | "" => false end
      then Some ("", match s with String _ s => s | "" => "" end)
      else '(l, r) ← split_double s; Some (String c l, r)
  end.
(** The eight groups of an IPv6 text. *)
Definition text6 (s : string) : option (list Z) :=
  match split_double s with
  | Some (l, r) =>
      a ← numbers 16 4 0xffff ":" l; b ← numbers 16 4 0xffff ":" r;
      let n := zlen a + zlen b in
      if n <=? 7 then Some (a ++ replicate (Z.to_nat (8 - n)) 0 ++ b)%list else None
  | None => a ← numbers 16 4 0xffff ":" s; if zlen a =? 8 then Some a else None
  end.
(** The four bytes of an IPv4 text; a number does not start with a zero, unless it is zero. *)
Definition octet (s : string) : option Z :=
  match s with String "0" (String _ _) => None | _ => number 10 3 255 s end.
Definition text4 (s : string) : option (list Z) := a ← mapM octet (pieces "." s); if zlen a =? 4 then Some a else None.

(** Readers that are right on the standard's texts, and the memory they fill. *)
Definition group_bytes (g : Z) : list Z := [g / 256; g mod 256].
Definition pton6 (s : string) : option (list Z) := g ← text6 s; Some (List.concat (group_bytes <$> g)).
Definition pton4 `{!Host} (s : string) : option Z := b ← text4 s; Some (bytes_int b).

Example texts : text6 "::1" = Some [0; 0; 0; 0; 0; 0; 0; 1] ∧ text6 "fe80::" = Some [0xfe80; 0; 0; 0; 0; 0; 0; 0] ∧
  text6 "1:2:3:4:5:6:7::" = Some [1; 2; 3; 4; 5; 6; 7; 0] ∧ text6 "1:2" = None ∧ text6 "1::2::3" = None ∧ text6 "12345::" = None ∧
  text6 "1:2:3:4::5:6:7:8" = None ∧ text4 "192.168.1.255" = Some [192; 168; 1; 255] ∧ text4 "1.2.3" = None ∧ text4 "1.2.3.256" = None ∧ text4 "010.0.0.1" = None.
Proof. by vm_compute. Qed.

(** ** Texts put together from numbers *)
Lemma lacks_cons c d s : lacks c (String d s) ↔ Ascii.eqb c d = false ∧ lacks c s.
Proof. unfold lacks. cbn. destruct (Ascii.eqb c d); [by split; [|intros []]|]. destruct (split_at c s) as [[]|]; naive_solver. Qed.
Lemma pieces_lacks c w : lacks c w → pieces c w = [w].
Proof. induction w as [|d w IH]; [done|]. intros [Hd Hw]%lacks_cons. cbn. by rewrite Hd, IH. Qed.
Lemma pieces_app c w s : lacks c w → pieces c (w ++ String c s) = w :: pieces c s.
Proof.
  induction w as [|d w IH]; [intros _; cbn; by rewrite Ascii.eqb_refl|]. intros [Hd Hw]%lacks_cons.
  change (pieces c (String d (w ++ String c s)) = String d w :: pieces c s). cbn [pieces]. by rewrite Hd, IH.
Qed.
Lemma split_double_skip w s : lacks ":" w → split_double (w ++ s) = (λ p, (w ++ p.1, p.2)) <$> split_double s.
Proof.
  induction w as [|d w IH]; [intros _; cbn; by destruct (split_double s) as [[]|]|]. intros [Hd Hw]%lacks_cons.
  change (split_double (String d (w ++ s)) = (λ p, (String d (w ++ p.1), p.2)) <$> split_double s). cbn [split_double]. rewrite Ascii.eqb_sym, Hd. cbn [andb].
  rewrite IH by done. by destruct (split_double s) as [[]|].
Qed.
Lemma split_double_sep w s : w ≠ "" → lacks ":" w → split_double (":" ++ w ++ s) = (λ p, (":" ++ w ++ p.1, p.2)) <$> split_double s.
Proof.
  intros Hne Hw. destruct w as [|d w]; [done|]. pose proof (split_double_skip _ s Hw) as Hs. apply lacks_cons in Hw as [Hd _]. rewrite Ascii.eqb_sym in Hd.
  change (split_double (String ":" (String d (w ++ s))) = (λ p, (String ":" (String d w ++ p.1), p.2)) <$> split_double s).
  change (split_double (String ":" (String d (w ++ s)))) with
    (if Ascii.eqb d ":" then Some ("", w ++ s) else '(l, r) ← split_double (String d w ++ s); Some (String ":" l, r)).
  rewrite Hd, Hs. by destruct (split_double s) as [[]|].
Qed.

(** ** The numbers *)
Definition is_group (g : Z) : Prop := 0 ≤ g < 65536.
(** The characters of a hexadecimal number. *)
Definition digits_text (ds : list Z) : string := foldr (λ d s, String (digit d) s) "" ds.
Definition plain_digit (d : Z) : bool :=
  negb (Ascii.eqb ":" (digit d)) && negb (Ascii.eqb "]" (digit d)) && negb (Ascii.eqb NUL (digit d)) && bool_decide (digit_of 16 (digit d) = Some d).
Lemma plain_digits d : 0 ≤ d < 16 → plain_digit d = true.
Proof.
  intros Hd. assert (H : forallb plain_digit (seqZ 0 16) = true) by (vm_compute; reflexivity).
  rewrite forallb_forall in H. apply H, list_elem_of_In, elem_of_seqZ. lia.
Qed.
Lemma hex_digits g : is_group g → ∃ ds, hex g = digits_text ds ∧ (0 < List.length ds ≤ 4)%nat ∧ Forall (λ d, 0 ≤ d < 16) ds ∧ foldl (λ a d, a * 16 + d) 0 ds = g.
Proof.
  intros Hg. unfold is_group in Hg. unfold hex. do 4 (cbn [digits]; match goal with |- context [?z <? 16] => destruct (z <? 16) eqn:? end;
    [match goal with |- context [String (digit ?a) (String (digit ?b) (String (digit ?c) (String (digit ?d) "")))] => exists [a; b; c; d]
       | |- context [String (digit ?a) (String (digit ?b) (String (digit ?c) ""))] => exists [a; b; c]
       | |- context [String (digit ?a) (String (digit ?b) "")] => exists [a; b] | |- context [String (digit ?a) ""] => exists [a] end;
     split; [reflexivity|]; cbn; split; [lia|]; split; [repeat constructor; apply Z.mod_pos_bound; lia|Z.to_euclidean_division_equations; lia]|]).
  Z.to_euclidean_division_equations; lia.
Qed.
Lemma digits_text_ok ds : Forall (λ d, 0 ≤ d < 16) ds → lacks ":" (digits_text ds) ∧ lacks "]" (digits_text ds) ∧ lacks NUL (digits_text ds) ∧
  all_of 16 (digits_text ds) = true ∧ ∀ a, strtol_digits 16 (digits_text ds) a = foldl (λ a d, a * 16 + d) a ds.
Proof.
  induction 1 as [|d ds Hd _ (H1 & H2 & H3 & H4 & H5)]; [done|]. cbn [digits_text foldr]. pose proof (plain_digits d Hd) as Hp. unfold plain_digit in Hp.
  apply andb_true_iff in Hp as [[[Ha Hb]%andb_true_iff Hc]%andb_true_iff He]. apply negb_true_iff in Ha, Hb, Hc. apply bool_decide_eq_true in He.
  rewrite !lacks_cons. split_and!; try done; cbn [all_of strtol_digits foldl]; rewrite He; [done|]. intros a. apply H5.
Qed.
Lemma digits_text_len ds : str_len (digits_text ds) = zlen ds.
Proof. unfold str_len, zlen. induction ds as [|d ds IH]; [done|]. cbn [digits_text foldr String.length List.length]. rewrite !Nat2Z.inj_succ. unfold digits_text in IH. lia. Qed.
Lemma hex_group g : is_group g → hex g ≠ "" ∧ lacks ":" (hex g) ∧ lacks "]" (hex g) ∧ lacks NUL (hex g) ∧ number 16 4 0xffff (hex g) = Some g.
Proof.
  intros Hg. destruct (hex_digits g Hg) as (ds & -> & Hl & Hds & Hv). destruct (digits_text_ok ds Hds) as (H1 & H2 & H3 & H4 & H5).
  assert (Hne : digits_text ds ≠ "") by (destruct ds; [cbn in Hl; lia|done]). split_and!; try done.
  unfold number. rewrite H4, H5, Hv, digits_text_len. unfold zlen, is_group in *. replace (is_empty (digits_text ds)) with false by (by destruct (digits_text ds)).
  cbn [negb andb]. by replace ((Z.of_nat (List.length ds) <=? 4) && true && (g <=? 65535)) with true by lia.
Qed.
Definition byte_ok (b : Z) : bool :=
  match split_at ":" (dec b), split_at "." (dec b), split_at NUL (dec b), octet (dec b) with
  | None, None, None, Some b' => (b' =? b) && negb (is_empty (dec b)) && negb (brackets (dec b))
  | _, _, _, _ => false
  end.
Lemma dec_byte b : is_byte b → dec b ≠ "" ∧ lacks ":" (dec b) ∧ lacks "." (dec b) ∧ lacks NUL (dec b) ∧ brackets (dec b) = false ∧ octet (dec b) = Some b.
Proof.
  intros Hb. assert (H : forallb byte_ok (seqZ 0 256) = true) by (vm_compute; reflexivity). rewrite forallb_forall in H.
  specialize (H b ltac:(apply list_elem_of_In, elem_of_seqZ; unfold is_byte in Hb; lia)). unfold byte_ok, lacks in *.
  destruct (split_at ":" (dec b)); [done|]. destruct (split_at "." (dec b)); [done|]. destruct (split_at NUL (dec b)); [done|].
  destruct (octet (dec b)) as [b'|]; [|done]. apply andb_true_iff in H as [[H1 H2]%andb_true_iff H3]. split_and!; try done.
  - by destruct (dec b).
  - by apply negb_true_iff.
  - f_equal. lia.
Qed.

(** ** Sequences of numbers *)
Definition colons (l : list Z) : string := foldr (λ g s, ":" ++ hex g ++ s) "" l.
Definition joined (l : list Z) : string := match l with [] => "" | g :: l => hex g ++ colons l end.
Lemma pieces_joined g l : is_group g → Forall is_group l → pieces ":" (hex g ++ colons l) = hex <$> g :: l.
Proof.
  intros Hg Hl. revert g Hg. induction Hl as [|x l Hx _ IH]; intros g Hg; destruct (hex_group g Hg) as (_ & Hc & _).
  - cbn [colons foldr]. rewrite str_app_nil_r. by apply pieces_lacks.
  - change (colons (x :: l)) with (String ":" (hex x ++ colons l)). rewrite pieces_app, IH by done. done.
Qed.
Lemma numbers_joined l : Forall is_group l → numbers 16 4 0xffff ":" (joined l) = Some l.
Proof.
  intros Hl. unfold numbers. destruct Hl as [|g l Hg Hl]; [done|]. destruct (hex_group g Hg) as (Hne & _). cbn [joined].
  replace (is_empty (hex g ++ colons l)) with false by (by destruct (hex g)). rewrite pieces_joined by done. apply mapM_Some. apply Forall2_fmap_l.
  apply Forall_Forall2_diag. constructor; [by apply hex_group|]. eapply Forall_impl; [exact Hl|]. intros x Hx. by apply hex_group.
Qed.
Lemma split_double_colons l s : Forall is_group l → split_double (colons l ++ s) = (λ p, (colons l ++ p.1, p.2)) <$> split_double s.
Proof.
  induction 1 as [|g l Hg _ IH]; [cbn; by destruct (split_double s) as [[]|]|]. destruct (hex_group g Hg) as (Hne & Hc & _).
  cbn [colons foldr]. rewrite !str_app_assoc. rewrite split_double_sep by done. fold (colons l). rewrite IH. destruct (split_double s) as [[a b]|]; [|done].
  cbn. by rewrite str_app_assoc.
Qed.
Lemma split_double_joined l s : Forall is_group l → split_double (joined l ++ s) = (λ p, (joined l ++ p.1, p.2)) <$> split_double s.
Proof.
  intros [|g l' Hg Hl]; [cbn; by destruct (split_double s) as [[]|]|]. destruct (hex_group g Hg) as (_ & Hc & _). cbn [joined].
  rewrite str_app_assoc, split_double_skip by done. rewrite split_double_colons by done. destruct (split_double s) as [[a b]|]; [|done].
  cbn. by rewrite str_app_assoc.
Qed.
Lemma text6_full l : Forall is_group l → zlen l = 8 → text6 (joined l) = Some l.
Proof.
  intros Hl H8. unfold text6. rewrite <-(str_app_nil_r (joined l)), split_double_joined by done. cbn [split_double fmap option_fmap option_map].
  rewrite str_app_nil_r, numbers_joined by done. cbn. by rewrite H8.
Qed.
Lemma text6_gap l k r : Forall is_group l → Forall is_group r → (0 < k)%nat → zlen l + Z.of_nat k + zlen r = 8 →
  text6 (joined l ++ "::" ++ joined r) = Some (l ++ replicate k 0 ++ r)%list.
Proof.
  intros Hl Hr Hk H8. unfold text6. rewrite split_double_joined by done.
  change (split_double ("::" ++ joined r)) with (Some ("", joined r)). cbn [fmap option_fmap option_map fst snd].
  rewrite str_app_nil_r, !numbers_joined by done. cbn [mbind option_bind]. replace (zlen l + zlen r <=? 7) with true by lia.
  by replace (Z.to_nat (8 - (zlen l + zlen r))) with k by lia.
Qed.

(** ** The printing loop of IPv6 *)
Section printing.
Context `{!Host}.
Notation swap := (byteswapOnLittleEndian 2).
Lemma swap_0 : swap 0 = 0.
Proof. unfold byteswapOnLittleEndian. by case_bool. Qed.
(** The loop behind the gap. *)
Lemma insert_used l p : insert_groups l (Some p) true = (colons (swap <$> l), true).
Proof.
  revert p. induction l as [|g l IH]; intros p; [done|]. cbn [insert_groups]. rewrite andb_false_r. cbn [orb]. rewrite andb_false_r, IH. done.
Qed.
(** What is printed with the [::] that may follow the loop. *)
Definition printed (l : list Z) (prev : option Z) (d : Z) : string :=
  let '(body, used) := insert_groups l prev false in body ++ (if negb used && (default d (last l) =? 0) then "::" else "").
Lemma default_last d x (l : list Z) : default d (last (x :: l)) = default x (last l).
Proof. rewrite last_cons. by destruct (last l). Qed.
Lemma printed_zeros l : ∃ k post, l = (replicate k 0 ++ post)%list ∧ printed l (Some 0) 0 = "::" ++ joined (swap <$> post).
Proof.
  induction l as [|g l (k & post & -> & Hp)]; [by exists 0%nat, []|]. destruct (g =? 0) eqn:E.
  - assert (g = 0) as -> by lia. exists (S k), post. split; [done|]. rewrite <-Hp. unfold printed. cbn [insert_groups]. rewrite Z.eqb_refl. cbn [andb negb].
    by rewrite default_last.
  - exists 0%nat, (g :: (replicate k 0 ++ post))%list. split; [done|]. unfold printed. cbn [insert_groups]. rewrite E, Z.eqb_refl. cbn [andb negb orb].
    rewrite insert_used. cbn [negb andb]. rewrite str_app_nil_r. done.
Qed.
Lemma printed_next l p : p ≠ 0 → (Forall (λ g, g ≠ 0) l ∧ printed l (Some p) p = colons (swap <$> l)) ∨
  ∃ pre k post, l = (pre ++ replicate (S k) 0 ++ post)%list ∧ printed l (Some p) p = colons (swap <$> pre) ++ "::" ++ joined (swap <$> post).
Proof.
  revert p. induction l as [|g l IH]; intros p Hp.
  { left. split; [constructor|]. unfold printed. cbn. by replace (p =? 0) with false by lia. }
  destruct (g =? 0) eqn:E.
  - right. assert (g = 0) as -> by lia. destruct (printed_zeros l) as (k & post & -> & Hz). exists [], k, post. split; [done|].
    etransitivity; [|exact Hz]. unfold printed. cbn [insert_groups]. rewrite Z.eqb_refl. cbn [andb negb]. by rewrite default_last.
  - assert (Hstep : printed (g :: l) (Some p) p = ":" ++ hex (swap g) ++ printed l (Some g) g).
    { unfold printed. cbn [insert_groups]. rewrite E. replace (p =? 0) with false by lia. cbn [andb negb orb].
      destruct (insert_groups l (Some g) false) as [rest used]. rewrite default_last. by rewrite <-!str_app_assoc. }
    rewrite Hstep. destruct (IH g ltac:(lia)) as [[Hl ->]|(pre & k & post & -> & ->)]; [left|right].
    + split; [constructor; [lia|done]|done].
    + exists (g :: pre), k, post. split; [done|]. cbn [fmap list_fmap colons foldr]. by rewrite !str_app_assoc.
Qed.
Lemma printed_first g l : (Forall (λ g, g ≠ 0) (g :: l) ∧ printed (g :: l) None 1 = joined (swap <$> g :: l)) ∨
  ∃ pre k post, (g :: l = pre ++ replicate (S k) 0 ++ post)%list ∧ printed (g :: l) None 1 = joined (swap <$> pre) ++ "::" ++ joined (swap <$> post).
Proof.
  destruct (g =? 0) eqn:E.
  - right. assert (g = 0) as -> by lia. destruct (printed_zeros l) as (k & post & -> & Hz). exists [], k, post. split; [done|].
    etransitivity; [|exact Hz]. unfold printed. cbn [insert_groups]. rewrite Z.eqb_refl. cbn [andb negb]. by rewrite default_last.
  - assert (Hstep : printed (g :: l) None 1 = hex (swap g) ++ printed l (Some g) g).
    { unfold printed. cbn [insert_groups]. rewrite E. cbn [andb negb orb].
      destruct (insert_groups l (Some g) false) as [rest used]. rewrite default_last. by rewrite <-!str_app_assoc. }
    rewrite Hstep. destruct (printed_next l g ltac:(lia)) as [[Hl ->]|(pre & k & post & -> & ->)]; [left|right].
    + split; [constructor; [lia|done]|done].
    + exists (g :: pre), k, post. split; [done|]. cbn [fmap list_fmap joined]. by rewrite !str_app_assoc.
Qed.
End printing.

(** ** The texts of addresses *)
Lemma lacks_app c a b : lacks c a → lacks c b → lacks c (a ++ b).
Proof. intros Ha Hb. induction a as [|d a IH]; [done|]. apply lacks_cons in Ha as [Hd Ha]. change (lacks c (String d (a ++ b))). apply lacks_cons. auto. Qed.
Lemma lacks_colons c l : c ≠ ":"%char → (∀ g, is_group g → lacks c (hex g)) → Forall is_group l → lacks c (colons l).
Proof.
  intros Hc Hhex. induction 1 as [|g l Hg _ IH]; [done|]. cbn [colons foldr]. apply (lacks_app c ":").
  - apply lacks_cons. split; [by apply Ascii.eqb_neq|done].
  - apply lacks_app; [by apply Hhex|exact IH].
Qed.
Lemma lacks_joined c l : c ≠ ":"%char → (∀ g, is_group g → lacks c (hex g)) → Forall is_group l → lacks c (joined l).
Proof. intros Hc Hhex [|g l' Hg Hl]; [done|]. apply lacks_app; [by apply Hhex|by apply lacks_colons]. Qed.
Lemma c_str_lacks s : lacks NUL s → c_str s = s.
Proof. induction s as [|c s IH]; [done|]. intros [Hc Hs]%lacks_cons. cbn. rewrite Ascii.eqb_sym, Hc. by rewrite IH. Qed.

Lemma digits_lack c s : all_digits s = true → is_digit_char c = false → lacks c s.
Proof.
  intros Hs Hc. induction s as [|d s IH]; [done|]. apply andb_true_iff in Hs as [Hd Hs]. apply lacks_cons. split; [|auto].
  apply Ascii.eqb_neq. intros ->. congruence.
Qed.
Lemma dec_plain n : 0 ≤ n → lacks ":" (dec n) ∧ lacks NUL (dec n).
Proof. intros Hn. pose proof (dec_digits n Hn). split; by apply digits_lack. Qed.

Section texts.
Context `{!Host}.
Notation swap := (byteswapOnLittleEndian 2).
Lemma hton_range n z : 0 ≤ z < 2 ^ (8 * Z.of_nat n) → 0 ≤ byteswapOnLittleEndian n z < 2 ^ (8 * Z.of_nat n).
Proof. intros Hz. unfold byteswapOnLittleEndian, byteswap. case_bool; [done|apply bswap_range]. Qed.
Lemma swap_group x y : is_byte x → is_byte y → swap (bytes_int [x; y]) = 256 * x + y.
Proof.
  intros Hx Hy. unfold is_byte in *. assert (Hb : bytes_int [x; y] = swap (256 * x + y)).
  { assert (Hr : 0 ≤ swap (256 * x + y) < 2 ^ (8 * Z.of_nat 2)) by (apply hton_range; lia).
    pose proof (bytes_int_bytes 2 (swap (256 * x + y))) as Hbi. rewrite int_bytes_hton, Z.mod_small in Hbi by done. rewrite <-Hbi. f_equal.
    cbn [le_bytes]. change (reverse [(256 * x + y) mod 2 ^ 8; (256 * x + y) / 2 ^ 8 mod 2 ^ 8]) with [(256 * x + y) / 2 ^ 8 mod 2 ^ 8; (256 * x + y) mod 2 ^ 8].
    f_equal; [|f_equal]; Z.to_euclidean_division_equations; lia. }
  rewrite Hb. apply hton_inv. cbn. lia.
Qed.
Lemma swap_groups l n : List.length l = (2 * n)%nat → Forall is_byte l →
  Forall is_group (swap <$> groups l) ∧ List.length (groups l) = n ∧ List.concat (group_bytes <$> (swap <$> groups l)) = l.
Proof.
  revert l. induction n as [|n IH]; intros l Hlen Hl.
  { destruct l; [|done]. split; [constructor|done]. }
  destruct l as [|x [|y l]]; [done|cbn in Hlen; lia|]. apply Forall_cons in Hl as [Hx [Hy Hl]%Forall_cons]. cbn [groups fmap list_fmap List.length].
  destruct (IH l ltac:(cbn in Hlen; lia) Hl) as (H1 & H2 & H3). rewrite swap_group by done. unfold is_byte in *. split; [|split; [congruence|]].
  - constructor; [unfold is_group; lia|done].
  - cbn [List.concat]. rewrite H3. unfold group_bytes. cbn [app]. f_equal; [|f_equal]; Z.to_euclidean_division_equations; lia.
Qed.
Lemma ipv6_text a : List.length (s6_addr a) = 16%nat → Forall is_byte (s6_addr a) →
  ∃ t, IPv6_insert a = "[" ++ t ++ "]:" ++ dec (IPv6_getPort a) ∧ pton6 t = Some (s6_addr a) ∧ t ≠ "" ∧ lacks "]" t ∧ lacks NUL t.
Proof.
  intros Hlen Hb. destruct (swap_groups (s6_addr a) 8 Hlen Hb) as (Hg & H8 & Hbytes). unfold IPv6_insert. set (gs := groups (s6_addr a)) in *.
  exists (printed gs None 1). split; [unfold printed; destruct (insert_groups gs None false); by rewrite <-!str_app_assoc|].
  assert (Hhex : ∀ g, is_group g → lacks "]" (hex g) ∧ lacks NUL (hex g)) by (intros g Hgr; by destruct (hex_group g Hgr) as (? & ? & ? & ? & _)).
  unfold pton6. rewrite <-Hbytes. destruct gs as [|g gs]; [done|].
  destruct (printed_first g gs) as [[_ ->]|(pre & k & post & Hgs & ->)].
  - rewrite text6_full by (done || (unfold zlen; rewrite length_fmap; lia)). split; [done|]. split; [|split; apply lacks_joined; try done; intros; by apply Hhex].
    cbn [fmap list_fmap joined]. apply Forall_cons in Hg as [Hg _]. destruct (hex_group _ Hg) as (Hne & _). by destruct (hex (swap g)).
  - rewrite Hgs, !fmap_app, fmap_replicate, swap_0 in Hg. apply Forall_app in Hg as [Hpre [_ Hpost]%Forall_app].
    rewrite (text6_gap (swap <$> pre) (S k) (swap <$> post)) by (done || lia || (unfold zlen; rewrite !length_fmap; apply (f_equal List.length) in Hgs;
      rewrite !length_app, length_replicate in Hgs; lia)).
    assert (Heq : (swap <$> g :: gs) = ((swap <$> pre) ++ replicate (S k) 0 ++ (swap <$> post))%list) by (by rewrite Hgs, !fmap_app, fmap_replicate, swap_0).
    split; [by rewrite Heq|].
    split; [by destruct (joined (swap <$> pre))|]. split; (apply lacks_app; [apply lacks_joined; try done; intros; by apply Hhex|]; apply (lacks_app _ "::"); [done|];
      apply lacks_joined; try done; intros; by apply Hhex).
Qed.
Definition dots (b3 b2 b1 b0 : Z) : string := dec b3 ++ "." ++ dec b2 ++ "." ++ dec b1 ++ "." ++ dec b0.
Lemma dots_ok b3 b2 b1 b0 : is_byte b3 → is_byte b2 → is_byte b1 → is_byte b0 →
  pton4 (dots b3 b2 b1 b0) = Some (bytes_int [b3; b2; b1; b0]) ∧ dots b3 b2 b1 b0 ≠ "" ∧ brackets (dots b3 b2 b1 b0) = false ∧
  lacks ":" (dots b3 b2 b1 b0) ∧ lacks NUL (dots b3 b2 b1 b0).
Proof.
  intros Hb3 Hb2 Hb1 Hb0. unfold dots.
  destruct (dec_byte b3 Hb3) as (Hn3 & Hc3 & Hd3 & Hz3 & Hbr & Hv3). destruct (dec_byte b2 Hb2) as (_ & Hc2 & Hd2 & Hz2 & _ & Hv2).
  destruct (dec_byte b1 Hb1) as (_ & Hc1 & Hd1 & Hz1 & _ & Hv1). destruct (dec_byte b0 Hb0) as (_ & Hc0 & Hd0 & Hz0 & _ & Hv0).
  revert Hn3 Hc3 Hd3 Hz3 Hbr Hv3 Hc2 Hd2 Hz2 Hv2 Hc1 Hd1 Hz1 Hv1 Hc0 Hd0 Hz0 Hv0.
  generalize (dec b3) as t3, (dec b2) as t2, (dec b1) as t1, (dec b0) as t0. intros t3 t2 t1 t0 Hn3 Hc3 Hd3 Hz3 Hbr Hv3 Hc2 Hd2 Hz2 Hv2 Hc1 Hd1 Hz1 Hv1 Hc0 Hd0 Hz0 Hv0.
  split.
  - assert (Hp : pieces "." (t3 ++ "." ++ t2 ++ "." ++ t1 ++ "." ++ t0) = [t3; t2; t1; t0]).
    { change (pieces "." (t3 ++ String "." (t2 ++ String "." (t1 ++ String "." t0))) = [t3; t2; t1; t0]). by rewrite !pieces_app, pieces_lacks. }
    assert (Hm : mapM octet [t3; t2; t1; t0] = Some [b3; b2; b1; b0]) by (apply mapM_Some; repeat constructor; done).
    unfold pton4, text4. by rewrite Hp, Hm.
  - split; [by destruct t3|]. split; [destruct t3 as [|[[] [] [] [] [] [] [] []] ?]; done|].
    split; repeat (apply lacks_app; [done|]; apply (lacks_app _ "."); [done|]); done.
Qed.
Lemma ipv4_text a : 0 ≤ s_addr a < 2 ^ 32 →
  ∃ t, IPv4_insert a = t ++ ":" ++ dec (IPv4_getPort a) ∧ pton4 t = Some (s_addr a) ∧ t ≠ "" ∧ brackets t = false ∧ lacks ":" t ∧ lacks NUL t.
Proof.
  intros Ha. set (addr := byteswapOnLittleEndian 4 (s_addr a)).
  exists (dots ((addr / 2 ^ 24) mod 2 ^ 8) ((addr / 2 ^ 16) mod 2 ^ 8) ((addr / 2 ^ 8) mod 2 ^ 8) (addr mod 2 ^ 8)). split.
  - unfold IPv4_insert, dots. fold addr. assert (Hand : ∀ z, Z.land z 0xff = z mod 2 ^ 8) by (intros z; by apply (Z.land_ones z 8)).
    rewrite !Hand, !Z.shiftr_div_pow2 by lia. by rewrite !str_app_assoc.
  - destruct (dots_ok ((addr / 2 ^ 24) mod 2 ^ 8) ((addr / 2 ^ 16) mod 2 ^ 8) ((addr / 2 ^ 8) mod 2 ^ 8) (addr mod 2 ^ 8)) as (-> & ? & ? & ? & ?);
      [apply Z.mod_pos_bound; lia..|]. split; [|done]. f_equal.
    assert (Hi : byteswapOnLittleEndian 4 addr = s_addr a) by (by apply hton_inv).
    pose proof (bytes_int_bytes 4 (byteswapOnLittleEndian 4 addr)) as Hbi. rewrite int_bytes_hton, Hi, Z.mod_small in Hbi by exact Ha. rewrite <-Hbi. f_equal.
    cbn [le_bytes]. rewrite !Z.div_div by lia. reflexivity.
Qed.

(** ** Reading them again *)
(** The socket types and protocols that go together: any, and those of TCP and UDP, the
    protocol named or not. *)
Definition transports : list (Z * Z) := [(0, 0); (1, 0); (1, 6); (2, 0); (2, 17)].
(** What the resolver does with numeric nodes and services, by its manual: one result for
    each socket type, all with the same address.  Of the forms of the old [inet_aton] only
    the four decimal bytes are covered, on which it agrees. *)
Definition numeric (getaddrinfo : string → option string → Z → Z → Z → option (list sockaddr)) : Prop :=
  (∀ node a port type protocol, (type, protocol) ∈ transports → pton4 node = Some a → 0 ≤ port < 2 ^ 16 →
    ∃ n, getaddrinfo node (Some (dec port)) AF_UNSPEC type protocol = Some (replicate (S n) (SA_in (mk_sockaddr_in AF_INET (hton16 port) a)))) ∧
  (∀ node a port type protocol, (type, protocol) ∈ transports → pton6 node = Some a → 0 ≤ port < 2 ^ 16 →
    ∃ n, getaddrinfo node (Some (dec port)) AF_UNSPEC type protocol = Some (replicate (S n) (SA_in6 (mk_sockaddr_in6 AF_INET6 (hton16 port) 0 a 0)))).
(** Addresses as the constructors make them. *)
Definition ip_address (a : Address) : Prop :=
  match a with
  | IPv4Address a => sin_family a = AF_INET ∧ 0 ≤ sin_port a < 2 ^ 16 ∧ 0 ≤ s_addr a < 2 ^ 32
  | IPv6Address a => sin6_family a = AF_INET6 ∧ 0 ≤ sin6_port a < 2 ^ 16 ∧ sin6_flowinfo a = 0 ∧ sin6_scope_id a = 0 ∧
      List.length (s6_addr a) = 16%nat ∧ Forall is_byte (s6_addr a)
  | _ => False
  end.
Lemma port_back p : 0 ≤ p < 2 ^ 16 → hton16 (byteswapOnLittleEndian 2 p) = p ∧ 0 ≤ byteswapOnLittleEndian 2 p < 2 ^ 16.
Proof. intros Hp. pose proof (hton_range 2 p Hp) as Hr. split; [|exact Hr]. unfold hton16. rewrite u16_small by exact Hr. by apply hton_inv. Qed.
Lemma lookup_first getaddrinfo host node service family type protocol sa n : split_host host = (node, Some service) → lacks NUL node → lacks NUL service →
  getaddrinfo node (Some service) family type protocol = Some (replicate (S n) sa) → LookupAny getaddrinfo host family type protocol = Some (Create sa).
Proof.
  intros Hs Hn Hv Hg. unfold LookupAny, Lookup. rewrite Hs. cbn [fmap option_fmap option_map]. rewrite !c_str_lacks, Hg by done. done.
Qed.
(** C32: The text of an IPv4 or IPv6 address, as toString prints it, denotes that address:
    looked up again, for any socket type or for TCP or UDP with a protocol that fits, it
    gives the same address, port included, and so does [Create] with the part without the
    port, for each of the 2^32 and 2^128 addresses and either byte order. *)
Theorem address_text_roundtrip getaddrinfo a : numeric getaddrinfo → ip_address a →
  ∃ text, Address_toString a = Some text ∧ (∀ type protocol, (type, protocol) ∈ transports → LookupAny getaddrinfo text AF_UNSPEC type protocol = Some a) ∧
  ∃ node, match a with
    | IPv4Address s => text = node ++ ":" ++ dec (IPv4_getPort s) ∧ IPv4_Create pton4 node (IPv4_getPort s) = Some s
    | IPv6Address s => text = "[" ++ node ++ "]:" ++ dec (IPv6_getPort s) ∧ IPv6_Create pton6 node (IPv6_getPort s) = Some s
    | _ => False
    end.
Proof.
  intros [H4 H6] Ha. destruct a as [a|a| |]; try done; cbn [ip_address Address_toString] in *.
  - destruct Ha as (Hf & Hp & Hs). destruct (port_back _ Hp) as [Hback Hport]. destruct (ipv4_text a Hs) as (t & Ht & Hpt & Hne & Hbr & Hc & Hz).
    exists (IPv4_insert a). split; [done|]. unfold IPv4_getPort in *. destruct a as [fa po ad]. cbn [sin_family sin_port s_addr] in *. subst fa.
    pose proof (dec_plain (byteswapOnLittleEndian 2 po) (proj1 Hport)) as [Hdc Hdz]. split.
    + intros type protocol Htr. destruct (H4 t ad (byteswapOnLittleEndian 2 po) type protocol Htr Hpt Hport) as (n & Hg). rewrite Hback in Hg.
      apply (lookup_first _ _ t (dec (byteswapOnLittleEndian 2 po)) _ _ _ (SA_in (mk_sockaddr_in AF_INET po ad)) n); [|done..]. rewrite Ht.
      by apply (split_host_spec t (dec (byteswapOnLittleEndian 2 po)) "").
    + exists t. split; [done|]. unfold IPv4_Create. rewrite c_str_lacks, Hpt by done. cbn. by rewrite Hback.
  - destruct Ha as (Hf & Hp & Hfl & Hsc & Hlen & Hb). destruct (port_back _ Hp) as [Hback Hport]. destruct (ipv6_text a Hlen Hb) as (t & Ht & Hpt & Hne & Hc & Hz).
    exists (IPv6_insert a). split; [done|]. unfold IPv6_getPort in *. destruct a as [fa po fl ad sc]. cbn [sin6_family sin6_port sin6_flowinfo s6_addr sin6_scope_id] in *. subst fa fl sc.
    pose proof (dec_plain (byteswapOnLittleEndian 2 po) (proj1 Hport)) as [Hdc Hdz]. split.
    + intros type protocol Htr. destruct (H6 t ad (byteswapOnLittleEndian 2 po) type protocol Htr Hpt Hport) as (n & Hg). rewrite Hback in Hg.
      apply (lookup_first _ _ t (dec (byteswapOnLittleEndian 2 po)) _ _ _ (SA_in6 (mk_sockaddr_in6 AF_INET6 po 0 ad 0)) n); [|done..]. rewrite Ht.
      change ("[" ++ t ++ "]:" ++ ?p) with (String "[" (t ++ String "]" (String ":" p))). unfold split_host. rewrite (split_at_app "]" t) by done.
      cbn [fst snd]. by destruct t.
    + exists t. split; [done|]. unfold IPv6_Create. rewrite c_str_lacks, Hpt by done. cbn. by rewrite Hback.
Qed.
End texts.

(** ** A resolver that reads numeric texts *)
Lemma pieces_nonempty c s : pieces c s ≠ [].
Proof. destruct s as [|d s]; [done|]. cbn. destruct (Ascii.eqb c d); [done|]. by destruct (pieces c s). Qed.
Lemma dotted_lacks s : Forall (λ p, all_of 10 p = true) (pieces "." s) → lacks ":" s.
Proof.
  induction s as [|c s IH]; [done|]. cbn [pieces]. destruct (Ascii.eqb_spec "." c) as [<-|Hc].
  - intros [_ H]%Forall_cons. apply lacks_cons. split; [done|auto].
  - pose proof (pieces_nonempty "." s) as Hne. destruct (pieces "." s) as [|p ps]; [done|].
    intros [Hp Hps]%Forall_cons. cbn [all_of] in Hp. destruct (digit_of 10 c) eqn:E; [|done]. apply lacks_cons. split; [|apply IH; by constructor].
    apply Ascii.eqb_neq. intros <-. done.
Qed.
Lemma number_all base width limit s v : number base width limit s = Some v → all_of base s = true.
Proof. unfold number. destruct (all_of base s); [done|]. by rewrite andb_false_r. Qed.
Lemma octet_all s v : octet s = Some v → all_of 10 s = true.
Proof. intros H. apply (number_all 10 3 255 s v). unfold octet in H. destruct s as [|[[] [] [] [] [] [] [] []] [|c s]]; done. Qed.
Lemma pton_apart `{!Host} s a : pton4 s = Some a → pton6 s = None.
Proof.
  unfold pton4, text4. destruct (mapM octet (pieces "." s)) as [l|] eqn:E; [|done]. intros Ha.
  assert (Hl : lacks ":" s).
  { apply dotted_lacks. apply mapM_Some in E. clear -E. induction E as [|x y xs ys H _ IH]; constructor; [by eapply octet_all|done]. }
  unfold pton6, text6. pose proof (split_double_skip s "" Hl) as Hd. rewrite str_app_nil_r in Hd. rewrite Hd. cbn.
  unfold numbers. destruct (is_empty s); [done|]. rewrite pieces_lacks by done. cbn. by destruct (number 16 4 65535 s).
Qed.
Definition reader `{!Host} (node : string) (service : option string) (_ _ _ : Z) : option (list sockaddr) :=
  let port := match service with Some s => atoi s | None => 0 end in
  match pton6 node, pton4 node with
  | Some a, _ => Some [SA_in6 (mk_sockaddr_in6 AF_INET6 (hton16 port) 0 a 0)]
  | None, Some a => Some [SA_in (mk_sockaddr_in AF_INET (hton16 port) a)]
  | None, None => None
  end.
Lemma reader_numeric `{!Host} : numeric reader.
Proof.
  assert (Hport : ∀ p, 0 ≤ p < 2 ^ 16 → atoi (dec p) = p) by (intros p Hp; rewrite <-(str_app_nil_r (dec p)); apply atoi_dec; [lia|done]).
  split; intros node a port type protocol _ Hn Hp; exists 0%nat; unfold reader; rewrite Hport by done.
  - by rewrite (pton_apart node a Hn), Hn.
  - by rewrite Hn.
Qed.
#[local] Existing Instance little_host.
Definition sample_ip6 : sockaddr_in6 := mk_sockaddr_in6 AF_INET6 0x5000 0 ([0xfe; 0x80] ++ replicate 13 0 ++ [1])%list 0.
Lemma address_text_roundtrip_witness : Address_toString (IPv6Address sample_ip6) = Some "[fe80::1]:80" ∧
  LookupAny reader "[fe80::1]:80" AF_UNSPEC 1 0 = Some (IPv6Address sample_ip6).
Proof.
  destruct (address_text_roundtrip reader (IPv6Address sample_ip6) reader_numeric) as (t & Ht & Hl & _).
  { repeat split; try done. repeat constructor; unfold is_byte; lia. }
  vm_compute in Ht. injection Ht as <-. split; [vm_compute; reflexivity|apply (Hl 1 0); by vm_compute; right; left].
Defined.
