(* ===== verification/Fiber.v ===== *)
(** * Fiber ([webserve/fiber.h], [webserve/fiber.cc])

    Stackful coroutines.  A machine context ([ucontext_t]) is modelled by what
    remains to be executed when it is resumed; user code is a script of the calls
    it makes into the library.  The thread-local pointers are a record per
    thread; objects live in a store shared by the threads. *)
From S2P Require Import Prelude.
Open Scope Z_scope.

Inductive State := INIT | HOLD | EXEC | TERM | READY | EXCEPT.
#[export] Instance State_eq_dec : EqDecision State.
Proof. solve_decision. Defined.

(** User code: what a callback does, call by call.  [TThis] is [Fiber::GetThis()]. *)
Inductive body :=
| BRet
| BThrow
| BEmit (n : Z) (k : body)                          (* an observable effect of the user's own *)
| BYieldToReady (k : body)
| BYieldToHold (k : body)
| BSchedule (t : task) (thread : Z) (k : body)      (* Scheduler::GetThis()->schedule(t, thread) *)
| BSwitchTo (thread : Z) (k : body)                 (* Scheduler::GetThis()->switchTo(thread) *)
with task :=
| TFiber (p : Z)
| TThis
| TCb (b : body).

(** [std::function<void()>] of a fiber: user code or a bound member function. *)
Inductive func := FBody (b : body) | FIdle | FRun.

(** What a saved context resumes. *)
Inductive ctx :=
| CtxMain                (* the entry of Fiber::MainFunc *)
| CtxCaller              (* the entry of Fiber::CallerMainFunc *)
| CtxBody (b : body)     (* inside the callback, behind a swapOut *)
| CtxIdle                (* inside Scheduler::idle, behind a swapOut *)
| CtxDead                (* behind the last swapOut of MainFunc: "never reach" *)
| CtxThread.             (* the thread's own stack *)

Record Fiber := mkFiber {
  m_id : Z; m_stacksize : Z; m_state : State; m_ctx : ctx; m_stack : bool; m_cb : option func
}.
(** The shared objects and the global counters. *)
Record Fibers := mkFibers { heap : gmap Z Fiber; next_addr : Z; s_fiber_id : Z; s_fiber_count : Z }.
(** The thread-local pointers of fiber.cc and scheduler.cc. *)
Record locals := mkLocals { t_fiber : option Z; t_threadFiber : option Z; t_scheduler_fiber : option Z }.
(** What a thread sees. *)
Record env := mkEnv { fibers : Fibers; tls : locals }.

Definition set_state (st : State) (f : Fiber) : Fiber :=
  mkFiber (m_id f) (m_stacksize f) st (m_ctx f) (m_stack f) (m_cb f).
Definition set_ctx (c : ctx) (f : Fiber) : Fiber :=
  mkFiber (m_id f) (m_stacksize f) (m_state f) c (m_stack f) (m_cb f).
Definition set_cb (cb : option func) (f : Fiber) : Fiber :=
  mkFiber (m_id f) (m_stacksize f) (m_state f) (m_ctx f) (m_stack f) cb.
Definition set_heap (h : gmap Z Fiber) (s : Fibers) : Fibers :=
  mkFibers h (next_addr s) (s_fiber_id s) (s_fiber_count s).
Definition set_fibers (f : Fibers) (e : env) : env := mkEnv f (tls e).
Definition set_t_fiber (p : option Z) (l : locals) : locals := mkLocals p (t_threadFiber l) (t_scheduler_fiber l).
Definition set_t_threadFiber (p : option Z) (l : locals) : locals := mkLocals (t_fiber l) p (t_scheduler_fiber l).
Definition set_t_scheduler_fiber (p : option Z) (l : locals) : locals := mkLocals (t_fiber l) (t_threadFiber l) p.
Definition map_tls (f : locals → locals) (e : env) : env := mkEnv (fibers e) (f (tls e)).

(** [*p] and assignments to its members. *)
Definition fiber_at (p : Z) : M env Fiber := λ e,
  match heap (fibers e) !! p with Some f => Done e f | None => Undef NullDeref end.
Definition update (p : Z) (g : Fiber → Fiber) : M env () :=
  f ← fiber_at p; modify (λ e, set_fibers (set_heap (<[p := g f]> (heap (fibers e))) (fibers e)) e).
Definition alloc (f : Fiber) : M env Z := λ e,
  let s := fibers e in
  Done (set_fibers (mkFibers (<[next_addr s := f]> (heap s)) (next_addr s + 1) (s_fiber_id s) (s_fiber_count s)) e) (next_addr s).
Definition getState (p : Z) : M env State := f ← fiber_at p; mret (m_state f).

(** [Fiber::SetThis] *)
Definition SetThis (p : option Z) : M env () := modify (map_tls (set_t_fiber p)).

(** [Fiber::Fiber()], the main fiber of a thread *)
Definition Fiber_main : M env Z :=
  p ← alloc (mkFiber 0 0 EXEC CtxThread false None);
  SetThis (Some p) ;;
  modify (λ e, let s := fibers e in set_fibers (mkFibers (heap s) (next_addr s) (s_fiber_id s) (u64 (s_fiber_count s + 1))) e) ;;
  mret p.

(** [Fiber::GetThis] *)
Definition GetThis : M env Z :=
  e ← get;
  match t_fiber (tls e) with
  | Some p => mret p
  | None => p ← Fiber_main; modify (map_tls (set_t_threadFiber (Some p))) ;; mret p
  end.
(** [Fiber::GetFiberId] *)
Definition GetFiberId : M env Z :=
  e ← get;
  match t_fiber (tls e) with Some p => f ← fiber_at p; mret (m_id f) | None => mret 0 end.
Definition TotalFibers (e : env) : Z := s_fiber_count (fibers e).

Section fiber.
(** The value of the configuration variable [fiber.stack_size]. *)
Context (g_fiber_stack_size : Z).

(** [Fiber::Fiber(cb, stacksize, use_caller)] *)
Definition Fiber_new (cb : option func) (stacksize : Z) (use_caller : bool) : M env Z :=
  modify (λ e, let s := fibers e in
    set_fibers (mkFibers (heap s) (next_addr s) (u64 (s_fiber_id s + 1)) (u64 (s_fiber_count s + 1))) e) ;;
  e ← get;
  alloc (mkFiber (s_fiber_id (fibers e)) (if stacksize =? 0 then g_fiber_stack_size else stacksize) INIT
           (if use_caller then CtxCaller else CtxMain) true cb).
End fiber.

Definition finished (st : State) : bool := match st with TERM | EXCEPT => true | _ => false end.
Definition reusable (st : State) : bool := match st with TERM | EXCEPT | INIT => true | _ => false end.

(** [Fiber::~Fiber] *)
Definition Fiber_delete (p : Z) : M env () :=
  f ← fiber_at p;
  modify (λ e, let s := fibers e in set_fibers (mkFibers (heap s) (next_addr s) (s_fiber_id s) (u64 (s_fiber_count s - 1))) e) ;;
  (if m_stack f then assert_ (reusable (m_state f))
   else
     assert_ (match m_cb f with None => true | Some _ => false end) ;;
     assert_ (bool_decide (m_state f = EXEC)) ;;
     e ← get;
     if bool_decide (t_fiber (tls e) = Some p) then SetThis None else mret ()) ;;
  modify (λ e, set_fibers (set_heap (delete p (heap (fibers e))) (fibers e)) e).

(** [Fiber::reset] *)
Definition reset (p : Z) (cb : option func) : M env () :=
  f ← fiber_at p;
  assert_ (m_stack f) ;;
  assert_ (reusable (m_state f)) ;;
  update p (λ f, set_state INIT (set_ctx CtxMain (set_cb cb f))).

(** [Fiber::call] and [Fiber::swapIn], up to the switch: the context resumed. *)
Definition call (p : Z) : M env ctx :=
  SetThis (Some p) ;;
  update p (set_state EXEC) ;;
  e ← get; deref (t_threadFiber (tls e)) ;;
  f ← fiber_at p; mret (m_ctx f).
Definition swapIn (p : Z) : M env ctx :=
  SetThis (Some p) ;;
  st ← getState p;
  assert_ (negb (bool_decide (st = EXEC))) ;;
  update p (set_state EXEC) ;;
  e ← get; deref (t_scheduler_fiber (tls e)) ;;
  f ← fiber_at p; mret (m_ctx f).
(** [Fiber::back] and [Fiber::swapOut]: [c] is where the fiber goes on. *)
Definition back (p : Z) (c : ctx) : M env () :=
  e ← get; SetThis (t_threadFiber (tls e)) ;; update p (set_ctx c).
Definition swapOut (p : Z) (c : ctx) : M env () :=
  e ← get; SetThis (t_scheduler_fiber (tls e)) ;;
  deref (t_scheduler_fiber (tls e)) ;; update p (set_ctx c).

(** [Fiber::YieldToReady] and [Fiber::YieldToHold], up to the [swapOut]. *)
Definition Yield (st : State) : M env Z :=
  p ← GetThis;
  cur ← getState p;
  assert_ (bool_decide (cur = EXEC)) ;;
  update p (set_state st) ;;
  mret p.
Definition YieldToReady : M env Z := Yield READY.
Definition YieldToHold : M env Z := Yield HOLD.

(** [Fiber::MainFunc] up to the call of [m_cb]: the callback. *)
Definition main_enter : M env (option func) := p ← GetThis; f ← fiber_at p; mret (m_cb f).
(** ... and behind it, up to the [swapOut]; an empty [std::function] throws. *)
Definition main_return : M env Z := p ← GetThis; update p (λ f, set_state TERM (set_cb None f)) ;; mret p.
Definition main_throw : M env Z := p ← GetThis; update p (set_state EXCEPT) ;; mret p.
