(* ===== verification/Scheduler.v ===== *)
(** * Scheduler ([webserve/scheduler.h], [webserve/scheduler.cc])

    The queue of tasks and the loop [Scheduler::run] of every worker thread, as a
    transition system: an event is the number of the thread that moves, and each
    move is what that thread does between two points where another thread can
    interfere.  Thread ids are the positions in the list of workers. *)
From S2P Require Import Prelude Fiber.
Open Scope Z_scope.

Record FiberAndThread := mkFT { ft_fiber : option Z; ft_cb : option func; ft_thread : Z }.
Definition ft_none : FiberAndThread := mkFT None None (-1).

(** Where a worker is in [run]; [cbf] tells whether it executes [cb_fiber]. *)
Inductive pc :=
| NotStarted                            (* the caller's thread before stop() calls the root fiber *)
| AtStart                               (* the entry of run() *)
| AtPick                                (* the top of the loop *)
| AtDispatch                            (* behind the critical section and the tickle *)
| InTask (cbf : bool) (b : body)        (* inside the swapIn, executing user code *)
| Leaving (cbf : bool) (c : ctx)        (* inside the swapIn, before the final swapOut; c is resumed later *)
| AfterTask (cbf : bool)                (* the swapIn has returned *)
| Judge (cbf : bool)                    (* m_activeThreadCount is decremented *)
| InIdle                                (* inside the swapIn of idle_fiber *)
| AfterIdle
| Exited.

(** A thread: its thread-local pointers and the local variables of [run]. *)
Record worker := mkWorker {
  w_tls : locals; w_idle : Z; w_cb_fiber : option Z; w_ft : FiberAndThread; w_is_active : bool; w_pc : pc
}.
Record Scheduler := mkScheduler {
  store : Fibers;
  m_fibers : list FiberAndThread; m_rootFiber : option Z;
  m_threadCount : Z; m_activeThreadCount : Z; m_idleThreadCount : Z;
  m_stopping : bool; m_autoStop : bool; m_rootThread : Z;
  workers : list worker;
  tickles : Z;              (* the calls of the virtual tickle() *)
  trace : list Z            (* the effects of user code, in order *)
}.

Definition set_store v s := mkScheduler v (m_fibers s) (m_rootFiber s) (m_threadCount s) (m_activeThreadCount s)
  (m_idleThreadCount s) (m_stopping s) (m_autoStop s) (m_rootThread s) (workers s) (tickles s) (trace s).
Definition set_queue v s := mkScheduler (store s) v (m_rootFiber s) (m_threadCount s) (m_activeThreadCount s)
  (m_idleThreadCount s) (m_stopping s) (m_autoStop s) (m_rootThread s) (workers s) (tickles s) (trace s).
Definition set_active v s := mkScheduler (store s) (m_fibers s) (m_rootFiber s) (m_threadCount s) v
  (m_idleThreadCount s) (m_stopping s) (m_autoStop s) (m_rootThread s) (workers s) (tickles s) (trace s).
Definition set_idleCount v s := mkScheduler (store s) (m_fibers s) (m_rootFiber s) (m_threadCount s) (m_activeThreadCount s)
  v (m_stopping s) (m_autoStop s) (m_rootThread s) (workers s) (tickles s) (trace s).
Definition set_flags st au s := mkScheduler (store s) (m_fibers s) (m_rootFiber s) (m_threadCount s) (m_activeThreadCount s)
  (m_idleThreadCount s) st au (m_rootThread s) (workers s) (tickles s) (trace s).
Definition set_workers v s := mkScheduler (store s) (m_fibers s) (m_rootFiber s) (m_threadCount s) (m_activeThreadCount s)
  (m_idleThreadCount s) (m_stopping s) (m_autoStop s) (m_rootThread s) v (tickles s) (trace s).
Definition set_trace v s := mkScheduler (store s) (m_fibers s) (m_rootFiber s) (m_threadCount s) (m_activeThreadCount s)
  (m_idleThreadCount s) (m_stopping s) (m_autoStop s) (m_rootThread s) (workers s) (tickles s) v.
Definition add_tickles n s := mkScheduler (store s) (m_fibers s) (m_rootFiber s) (m_threadCount s) (m_activeThreadCount s)
  (m_idleThreadCount s) (m_stopping s) (m_autoStop s) (m_rootThread s) (workers s) (tickles s + n) (trace s).

Definition w_set_tls v w := mkWorker v (w_idle w) (w_cb_fiber w) (w_ft w) (w_is_active w) (w_pc w).
Definition w_set_idle v w := mkWorker (w_tls w) v (w_cb_fiber w) (w_ft w) (w_is_active w) (w_pc w).
Definition w_set_cb_fiber v w := mkWorker (w_tls w) (w_idle w) v (w_ft w) (w_is_active w) (w_pc w).
Definition w_set_ft v a w := mkWorker (w_tls w) (w_idle w) (w_cb_fiber w) v a (w_pc w).
Definition w_set_pc v w := mkWorker (w_tls w) (w_idle w) (w_cb_fiber w) (w_ft w) (w_is_active w) v.

Definition tickle : M Scheduler () := modify (add_tickles 1).

(** [Scheduler::scheduleNoLock] and [Scheduler::schedule] *)
Definition scheduleNoLock (ft : FiberAndThread) (q : list FiberAndThread) : list FiberAndThread * bool :=
  let need_tickle := bool_decide (length q = 0%nat) in
  match ft_fiber ft, ft_cb ft with None, None => (q, need_tickle) | _, _ => (q ++ [ft], need_tickle) end.
Definition schedule (ft : FiberAndThread) : M Scheduler () :=
  s ← get;
  let '(q, need_tickle) := scheduleNoLock ft (m_fibers s) in
  modify (set_queue q) ;;
  if need_tickle then tickle else mret ().
(** the overload for a range: one critical section, one tickle; [scheduleNoLock]
    is evaluated before [|| need_tickle], so every task is queued. *)
Fixpoint scheduleNoLock_range (l q : list FiberAndThread) (need_tickle : bool) : list FiberAndThread * bool :=
  match l with
  | [] => (q, need_tickle)
  | ft :: l => let '(q, b) := scheduleNoLock ft q in scheduleNoLock_range l q (b || need_tickle)
  end.
Definition schedule_range (l : list FiberAndThread) : M Scheduler () :=
  s ← get;
  let '(q, need_tickle) := scheduleNoLock_range ((λ t, mkFT (ft_fiber t) (ft_cb t) (-1)) <$> l) (m_fibers s) false in
  modify (set_queue q) ;;
  if need_tickle then tickle else mret ().

(** [Scheduler::stopping] *)
Definition stopping (s : Scheduler) : bool :=
  m_autoStop s && m_stopping s && bool_decide (length (m_fibers s) = 0%nat) && (m_activeThreadCount s =? 0).

(** The loop over [m_fibers] in [run]: the task taken ([ft = *it]), the queue left
    and [tickle_me]; [None] when the assertion on the task fails. *)
Fixpoint scan (tid : Z) (h : gmap Z Fiber) (l : list FiberAndThread)
  : option (option FiberAndThread * list FiberAndThread * bool) :=
  match l with
  | [] => Some (None, [], false)
  | it :: l =>
      if negb (ft_thread it =? -1) && negb (ft_thread it =? tid) then
        '(o, r, _) ← scan tid h l; Some (o, it :: r, true)
      else
        let skip := '(o, r, t) ← scan tid h l; Some (o, it :: r, t) in
        let take := Some (Some it, l, negb (bool_decide (length l = 0%nat))) in
        match ft_fiber it with
        | Some p => f ← h !! p; if bool_decide (m_state f = EXEC) then skip else take
        | None => match ft_cb it with Some _ => take | None => None end
        end
  end.

Section run.
Context (g_fiber_stack_size : Z).

(** ** One thread *)
(** The worker that moves, and operations of fiber.cc run on its thread. *)
Definition worker_of (i : nat) : M Scheduler worker := λ s,
  match workers s !! i with Some w => Done s w | None => Undef OutOfBounds end.
Definition upd (i : nat) (g : worker → worker) : M Scheduler () := modify (λ s, set_workers (alter g i (workers s)) s).
Definition goto (i : nat) (p : pc) : M Scheduler () := upd i (w_set_pc p).
Definition on {A} (i : nat) (m : M env A) : M Scheduler A := λ s,
  match workers s !! i with
  | None => Undef OutOfBounds
  | Some w =>
      let back e := set_workers (<[i := w_set_tls (tls e) w]> (workers s)) (set_store (fibers e) s) in
      match m (mkEnv (store s) (w_tls w)) with
      | Done e a => Done (back e) a
      | Raise e x => Raise (back e) x
      | Undef c => Undef c
      | NoFuel => NoFuel
      end
  end.

(** The task a script names, for [schedule(t, thread)]. *)
Definition make_ft (i : nat) (t : task) (thread : Z) : M Scheduler FiberAndThread :=
  match t with
  | TFiber p => mret (mkFT (Some p) None thread)
  | TThis => p ← on i GetThis; mret (mkFT (Some p) None thread)
  | TCb b => mret (mkFT None (Some (FBody b)) thread)
  end.

(** Entering a fiber: [swapIn], then what its context resumes. *)
Definition enter (i : nat) (p : Z) (cbf : bool) : M Scheduler () :=
  c ← on i (swapIn p);
  match c with
  | CtxMain =>
      cb ← on i main_enter;
      match cb with
      | Some (FBody b) => goto i (InTask cbf b)
      | None => on i main_throw ;; goto i (Leaving cbf CtxDead)
      | Some _ => undef AssertFail
      end
  | CtxBody b => goto i (InTask cbf b)
  | _ => undef AssertFail
  end.

(** One move of the user code that worker [i] executes. *)
Definition run_body (i : nat) (cbf : bool) (b : body) : M Scheduler () :=
  match b with
  | BRet => on i main_return ;; goto i (Leaving cbf CtxDead)
  | BThrow => on i main_throw ;; goto i (Leaving cbf CtxDead)
  | BEmit n k => modify (λ s, set_trace (trace s ++ [n]) s) ;; goto i (InTask cbf k)
  | BYieldToReady k => on i YieldToReady ;; goto i (Leaving cbf (CtxBody k))
  | BYieldToHold k => on i YieldToHold ;; goto i (Leaving cbf (CtxBody k))
  | BSchedule t thread k => ft ← make_ft i t thread; schedule ft ;; goto i (InTask cbf k)
  | BSwitchTo thread k =>
      if (thread =? -1) || (thread =? Z.of_nat i) then goto i (InTask cbf k)
      else ft ← make_ft i TThis thread; schedule ft ;; goto i (InTask cbf (BYieldToHold k))
  end.

(** [Scheduler::run] behind the [swapIn]: what becomes of the fiber. *)
Definition judge_fiber (i : nat) (p : Z) : M Scheduler () :=
  st ← on i (getState p);
  (if bool_decide (st = READY) then schedule (mkFT (Some p) None (-1))
   else if negb (finished st) then on i (update p (set_state HOLD)) else mret ()) ;;
  upd i (λ w, w_set_ft ft_none (w_is_active w) w).
Definition judge_cb (i : nat) (p : Z) : M Scheduler () :=
  st ← on i (getState p);
  if bool_decide (st = READY) then schedule (mkFT (Some p) None (-1)) ;; upd i (w_set_cb_fiber None)
  else if finished st then on i (Fiber.reset p None)
  else on i (update p (set_state HOLD)) ;; upd i (w_set_cb_fiber None).

(** The beginning of [Scheduler::run]. *)
Definition run_start (i : nat) : M Scheduler () :=
  s ← get;
  (if negb (Z.of_nat i =? m_rootThread s) then
     p ← on i GetThis; upd i (λ w, w_set_tls (set_t_scheduler_fiber (Some p) (w_tls w)) w)
   else mret ()) ;;
  idle ← on i (Fiber_new g_fiber_stack_size (Some FIdle) 0 false);
  upd i (λ w, w_set_cb_fiber None (w_set_idle idle w)) ;;
  goto i AtPick.

(** The critical section of the loop, and the tickle. *)
Definition run_pick (i : nat) : M Scheduler () :=
  s ← get;
  match scan (Z.of_nat i) (heap (store s)) (m_fibers s) with
  | None => undef AssertFail
  | Some (o, q, tickle_me) =>
      (match o with
       | Some ft =>
           modify (set_queue q) ;; modify (λ s, set_active (u64 (m_activeThreadCount s + 1)) s) ;;
           upd i (w_set_ft ft true)
       | None => upd i (w_set_ft ft_none false)
       end) ;;
      (if tickle_me then tickle else mret ()) ;;
      goto i AtDispatch
  end.

(** The end of [run]: a thread ends; the root fiber returns to
    [CallerMainFunc], which ends in [back]. *)
Definition run_exit (i : nat) : M Scheduler () :=
  s ← get;
  (if Z.of_nat i =? m_rootThread s then p ← on i main_return; on i (back p CtxDead) else mret ()) ;;
  goto i Exited.

(** The three branches behind it. *)
Definition run_dispatch (i : nat) : M Scheduler () :=
  w ← worker_of i;
  runnable ← match ft_fiber (w_ft w) with
             | Some p => st ← on i (getState p); mret (negb (finished st))
             | None => mret false
             end;
  match (if runnable : bool then ft_fiber (w_ft w) else None), ft_cb (w_ft w) with
  | Some p, _ => enter i p false
  | None, Some cb =>
      p ← match w_cb_fiber w with
          | Some p => on i (Fiber.reset p (Some cb)) ;; mret p
          | None => p ← on i (Fiber_new g_fiber_stack_size (Some cb) 0 false); upd i (w_set_cb_fiber (Some p)) ;; mret p
          end;
      upd i (λ w, w_set_ft ft_none (w_is_active w) w) ;;
      enter i p true
  | None, None =>
      if w_is_active w then
        modify (λ s, set_active (u64 (m_activeThreadCount s - 1)) s) ;; goto i AtPick
      else
        st ← on i (getState (w_idle w));
        if bool_decide (st = TERM) then run_exit i
        else
          modify (λ s, set_idleCount (u64 (m_idleThreadCount s + 1)) s) ;;
          on i (swapIn (w_idle w)) ;;
          goto i InIdle
  end.

(** How an override of [idle] differs from [Scheduler::idle] is part of the
    event: it may schedule tasks, and its [stopping] may ask for more. *)
Inductive move :=
| Go                          (* the thread's next step *)
| IdleTask (ft : FiberAndThread)   (* the override of idle() schedules a task *)
| IdleMore.                   (* the override of stopping() returned false *)

(** [Scheduler::idle]: [while(!stopping()) YieldToHold();] *)
Definition idle_step (i : nat) (m : move) : M Scheduler () :=
  s ← get;
  match m with
  | IdleTask ft => schedule ft
  | _ =>
      (if stopping s && match m with Go => true | _ => false end
       then p ← on i main_return; on i (swapOut p CtxDead)
       else p ← on i YieldToHold; on i (swapOut p CtxIdle)) ;;
      goto i AfterIdle
  end.

Definition step (i : nat) (m : move) : M Scheduler () :=
  w ← worker_of i;
  match w_pc w with
  | NotStarted | Exited => mret ()
  | AtStart => run_start i
  | AtPick => run_pick i
  | AtDispatch => run_dispatch i
  | InTask cbf b => run_body i cbf b
  | Leaving cbf c =>
      p ← on i GetThis; on i (swapOut p c) ;; goto i (AfterTask cbf)
  | AfterTask cbf => modify (λ s, set_active (u64 (m_activeThreadCount s - 1)) s) ;; goto i (Judge cbf)
  | Judge cbf =>
      p ← deref (if cbf : bool then w_cb_fiber w else ft_fiber (w_ft w));
      (if cbf : bool then judge_cb i p else judge_fiber i p) ;; goto i AtPick
  | InIdle => idle_step i m
  | AfterIdle =>
      modify (λ s, set_idleCount (u64 (m_idleThreadCount s - 1)) s) ;;
      st ← on i (getState (w_idle w));
      (if negb (finished st) then on i (update (w_idle w) (set_state HOLD)) else mret ()) ;;
      goto i AtPick
  end.

(** ** The scheduler *)
Definition new_worker (p : pc) : worker := mkWorker (mkLocals None None None) 0 None ft_none false p.

(** [Scheduler::Scheduler(threads, use_caller)]; the caller's thread, when it is
    used, is worker 0. *)
Definition Scheduler_new (threads : Z) (use_caller : bool) : result Scheduler () :=
  if threads >? 0 then
    if use_caller then
      (on 0 GetThis ;;
       p ← on 0 (Fiber_new g_fiber_stack_size (Some FRun) 0 true);
       upd 0 (λ w, w_set_tls (set_t_scheduler_fiber (Some p) (w_tls w)) w) ;;
       modify (λ s, mkScheduler (store s) [] (Some p) (threads - 1) 0 0 true false 0 (workers s) 0 []))
      (mkScheduler (mkFibers ∅ 1 0 0) [] None 0 0 0 true false 0 [new_worker NotStarted] 0 [])
    else Done (mkScheduler (mkFibers ∅ 1 0 0) [] None threads 0 0 true false (-1) [] 0 []) ()
  else Undef AssertFail.

(** [Scheduler::start] *)
Definition start : M Scheduler () :=
  s ← get;
  if negb (m_stopping s) then mret () else
  modify (set_flags false (m_autoStop s)) ;;
  modify (λ s, set_workers (workers s ++ replicate (Z.to_nat (m_threadCount s)) (new_worker AtStart)) s).

(** [Scheduler::stop] up to the joining of the threads; the call of the root fiber
    starts the loop on the caller's thread (its context is the initial one when
    the loop is not running yet; a [stop] from inside the loop is not modelled).
    [on_worker]: [GetThis() == this]. *)
Definition stop (on_worker : bool) : M Scheduler () :=
  s ← get;
  modify (set_flags (m_stopping s) true) ;;
  early ← match m_rootFiber s with
          | Some p => st ← on 0 (getState p);
                      mret ((m_threadCount s =? 0) && bool_decide (st = TERM ∨ st = INIT))
          | None => mret false
          end;
  (if early : bool then modify (set_flags true true) else mret ()) ;;
  s ← get;
  if (early : bool) && stopping s then mret () else
  assert_ (if negb (m_rootThread s =? -1) then on_worker else negb on_worker) ;;
  modify (set_flags true true) ;;
  modify (add_tickles (m_threadCount s + match m_rootFiber s with Some _ => 1 | None => 0 end)) ;;
  s ← get;
  match m_rootFiber s with
  | Some p =>
      if negb (stopping s) then
        c ← on 0 (call p);
        w ← worker_of 0;
        match c, w_pc w with CtxCaller, NotStarted => goto 0 AtStart | _, _ => undef AssertFail end
      else mret ()
  | None => mret ()
  end.

(** ** Executions *)
(** What happens: a thread moves, or code outside the scheduler calls it. *)
Inductive event :=
| Move (i : nat) (m : move)
| Schedule (ft : FiberAndThread)
| ScheduleRange (l : list FiberAndThread)
| Stop (on_worker : bool).
Definition exec1 (e : event) : M Scheduler () :=
  match e with
  | Move i m => step i m
  | Schedule ft => schedule ft
  | ScheduleRange l => schedule_range l
  | Stop b => stop b
  end.
Fixpoint exec (es : list event) : M Scheduler () :=
  match es with [] => mret () | e :: es => exec1 e ;; exec es end.
End run.
