(* ===== verification/SchedulerFacts.v ===== *)
(** * SchedulerFacts: the counters, [stopping()] and the choice of the next task *)
From S2P Require Import Prelude Fiber Scheduler.
Open Scope Z_scope.

(** ** The choice of the next task *)
(** Thread [tid] may take [it]: not pinned elsewhere, and not a fiber that runs. *)
Definition eligible (tid : Z) (h : gmap Z Fiber) (it : FiberAndThread) : bool :=
  ((ft_thread it =? -1) || (ft_thread it =? tid)) &&
  match ft_fiber it with
  | Some p => match h !! p with Some f => negb (bool_decide (m_state f = EXEC)) | None => false end
  | None => true
  end.
Definition pinned_elsewhere (tid : Z) (it : FiberAndThread) : bool :=
  negb (ft_thread it =? -1) && negb (ft_thread it =? tid).
(** Queued tasks are never empty and their fibers exist. *)
Definition task_ok (h : gmap Z Fiber) (it : FiberAndThread) : Prop :=
  match ft_fiber it with Some p => is_Some (h !! p) | None => is_Some (ft_cb it) end.

Lemma scan_none tid h l : Forall (task_ok h) l → Forall (λ it, eligible tid h it = false) l →
  scan tid h l = Some (None, l, existsb (pinned_elsewhere tid) l).
Proof.
  induction 1 as [|it l Hit Hl IH]; intros He; [done|]. inversion He as [|? ? Hi He']; subst. specialize (IH He').
  cbn [scan existsb]. rewrite IH. unfold eligible, pinned_elsewhere in *. unfold task_ok in Hit.
  destruct (ft_thread it =? -1), (ft_thread it =? tid); cbn in *; try done;
    destruct (ft_fiber it) as [p|]; try done; destruct Hit as [f Hf]; rewrite Hf in *; cbn in *; by destruct (bool_decide (m_state _ = EXEC)).
Qed.
Lemma scan_some tid h pre it post : Forall (task_ok h) pre → task_ok h it →
  Forall (λ it, eligible tid h it = false) pre → eligible tid h it = true →
  scan tid h (pre ++ it :: post) = Some (Some it, pre ++ post, existsb (pinned_elsewhere tid) pre || negb (bool_decide (length post = 0%nat))).
Proof.
  intros Hpre Hit He Hel. induction Hpre as [|it' l Hit' Hl IH].
  - cbn [scan app existsb orb]. unfold eligible, task_ok in *.
    destruct (ft_thread it =? -1), (ft_thread it =? tid); cbn in *; try done;
      (destruct (ft_fiber it) as [p|]; [destruct Hit as [f Hf]; rewrite Hf in *; cbn; by destruct (bool_decide (m_state _ = EXEC))|]);
      destruct Hit as [cb ->]; done.
  - inversion He as [|? ? Hi He']; subst. specialize (IH He'). cbn [scan existsb app]. rewrite IH.
    unfold eligible, pinned_elsewhere, task_ok in *.
    destruct (ft_thread it' =? -1), (ft_thread it' =? tid); cbn in *; try done;
      destruct (ft_fiber it') as [p|]; try done; destruct Hit' as [f Hf]; rewrite Hf in *; cbn in *; by destruct (bool_decide (m_state _ = EXEC)).
Qed.

(** The critical section of [run] takes the first task of the queue that this
    thread may execute - pinned to no other thread and not a fiber that is
    executing - and keeps the order of the others; another thread is woken
    exactly when a task pinned elsewhere was passed over or tasks remain behind
    the one taken.  The assertion that tasks are not empty never fails. *)
Theorem pick_spec tid h q : Forall (task_ok h) q →
  (∀ pre it post, q = pre ++ it :: post → Forall (λ t, eligible tid h t = false) pre → eligible tid h it = true →
    scan tid h q = Some (Some it, pre ++ post,
      existsb (pinned_elsewhere tid) pre || negb (bool_decide (length post = 0%nat)))) ∧
  (Forall (λ t, eligible tid h t = false) q → scan tid h q = Some (None, q, existsb (pinned_elsewhere tid) q)) ∧
  (∃ r, scan tid h q = Some r).
Proof.
  intros Hq.
  assert (H1 : ∀ pre it post, q = pre ++ it :: post → Forall (λ t, eligible tid h t = false) pre → eligible tid h it = true →
    scan tid h q = Some (Some it, pre ++ post, existsb (pinned_elsewhere tid) pre || negb (bool_decide (length post = 0%nat)))).
  { intros pre it post -> Hpre Hit. apply Forall_app in Hq as [Hq1 Hq2]. inversion Hq2; subst. by apply scan_some. }
  split; [done|]. split; [by apply scan_none|].
  destruct (decide (Forall (λ t, eligible tid h t = false) q)) as [Hn|Hn].
  - eexists. by apply scan_none.
  - apply not_Forall_Exists, Exists_exists in Hn; [|intros t; destruct (eligible tid h t); [by right|by left]].
    assert (∃ i t, list_find (λ t, eligible tid h t = true) q = Some (i, t)) as (i & t & Hf).
    { destruct Hn as (t & Ht & Hne). destruct (list_find_elem_of (λ t, eligible tid h t = true) q t) as [[i t'] Hi]; [done| |eauto].
      destruct (eligible tid h t) eqn:E; [done|]. by destruct Hne. }
    apply list_find_Some in Hf as (Hi & Ht & Hlt). eexists. apply (H1 (take i q) t (drop (S i) q)).
    + by rewrite take_drop_middle.
    + apply Forall_forall. intros y Hy. apply list_elem_of_lookup in Hy as [j Hj]. apply lookup_take_Some in Hj as [Hj Hji].
      specialize (Hlt j y Hj Hji). by destruct (eligible tid h y).
    + done.
Qed.

(** ** What a step does to the counters *)
(** The part of a worker that operations of fiber.cc leave alone. *)
Definition wview : Type := pc * bool * FiberAndThread.
Definition w_view (w : worker) : wview := (w_pc w, w_is_active w, w_ft w).
Definition busy (x : wview) : bool :=
  match x.1.1 with AtDispatch => x.1.2 | InTask _ _ | Leaving _ _ | AfterTask _ => true | _ => false end.
Definition idling (x : wview) : bool := match x.1.1 with InIdle | AfterIdle => true | _ => false end.
(** Behind a scan that found nothing there is no task. *)
Definition empty_handed (x : wview) : Prop := x.1.1 = AtDispatch → x.1.2 = false → x.2 = ft_none.
Fixpoint count (f : wview → bool) (l : list wview) : Z :=
  match l with [] => 0 | x :: l => Z.b2z (f x) + count f l end.

Record view := mkView { v_active : Z; v_idle : Z; v_flags : bool * bool; v_workers : list wview }.
Definition view_of (s : Scheduler) : view :=
  mkView (m_activeThreadCount s) (m_idleThreadCount s) (m_stopping s, m_autoStop s) (w_view <$> workers s).
Definition v_upd (i : nat) (g : wview → wview) (v : view) : view :=
  mkView (v_active v) (v_idle v) (v_flags v) (alter g i (v_workers v)).
Definition v_act (d : Z) (v : view) : view := mkView (u64 (v_active v + d)) (v_idle v) (v_flags v) (v_workers v).
Definition v_idl (d : Z) (v : view) : view := mkView (v_active v) (u64 (v_idle v + d)) (v_flags v) (v_workers v).
Definition v_pc (p : pc) (x : wview) : wview := (p, x.1.2, x.2).

Lemma list_alter_id {A} (f : A → A) i (l : list A) : (∀ x, f x = x) → alter f i l = l.
Proof.
  intros Hf. revert i. induction l as [|x l IH]; intros [|i]; try done; unfold alter; cbn; f_equal; [apply Hf|apply IH].
Qed.
Lemma view_on {A} i (m : M env A) s s' a : on i m s = Done s' a → view_of s' = view_of s.
Proof.
  unfold on. destruct (workers s !! i) as [w|] eqn:Hw; [|done]. destruct (m _) as [e b| | |]; try done.
  intros [= <- <-]. unfold view_of. cbn. f_equal. rewrite list_fmap_insert. apply list_insert_id.
  by rewrite list_lookup_fmap, Hw.
Qed.
Lemma view_upd i g g' s s' a : (∀ w, w_view (g w) = g' (w_view w)) →
  upd i g s = Done s' a → view_of s' = v_upd i g' (view_of s).
Proof.
  intros Hg [= <- <-]. unfold view_of, v_upd. cbn. f_equal.
  generalize (workers s). intros l. revert i. induction l as [|x l IH]; intros [|i]; try done; unfold alter; cbn; f_equal; [apply Hg|apply IH].
Qed.
Lemma view_goto i p s s' a : goto i p s = Done s' a → view_of s' = v_upd i (v_pc p) (view_of s).
Proof. by apply view_upd. Qed.
Lemma view_upd_tls i g s s' a : (∀ w, w_view (g w) = w_view w) → upd i g s = Done s' a → view_of s' = view_of s.
Proof.
  intros Hg H. rewrite (view_upd i g id s s' a Hg H). destruct (view_of s). unfold v_upd. cbn. f_equal. by apply list_alter_id.
Qed.
Lemma view_schedule ft s s' a : schedule ft s = Done s' a → view_of s' = view_of s.
Proof.
  intros (? & ? & [= <- <-] & H)%bind_inv. destruct (scheduleNoLock ft (m_fibers s)) as [q [|]]; by injection H as <- <-.
Qed.
Lemma view_schedule_range l s s' a : schedule_range l s = Done s' a → view_of s' = view_of s.
Proof.
  intros (? & ? & [= <- <-] & H)%bind_inv.
  destruct (scheduleNoLock_range _ (m_fibers s) _) as [q [|]]; by injection H as <- <-.
Qed.
Lemma view_make_ft i t th s s' a : make_ft i t th s = Done s' a → view_of s' = view_of s.
Proof.
  destruct t; cbn [make_ft]; try by intros [= <- <-].
  intros (s1 & p & H1 & [= <- <-])%bind_inv. by apply view_on in H1.
Qed.

(** The effect of a step of worker [i] on the view. *)
Definition effect (i : nat) (v v' : view) : Prop := ∃ x x', v_workers v !! i = Some x ∧ v_workers v' = <[i := x']> (v_workers v) ∧
  v_active v' = u64 (v_active v + Z.b2z (busy x') - Z.b2z (busy x)) ∧
  v_idle v' = u64 (v_idle v + Z.b2z (idling x') - Z.b2z (idling x)) ∧
  v_flags v' = v_flags v ∧ empty_handed x'.

(** Takes a run of the monad apart, turning each operation into its view. *)
Ltac run_inv := repeat match goal with
  | H : (_ ≫= _) _ = Done _ _ |- _ => apply bind_inv in H as (? & ? & ? & H)
  | H : mret _ _ = Done _ _ |- _ => first [injection H as <- <- | injection H as <-]
  | H : get _ = Done _ _ |- _ => first [injection H as <- <- | injection H as <-]
  | H : modify _ _ = Done _ _ |- _ => first [injection H as <- <- | injection H as <-]
  | H : tickle _ = Done _ _ |- _ => first [injection H as <- <- | injection H as <-]
  | H : undef _ _ = Done _ _ |- _ => discriminate H
  | H : on _ _ _ = Done _ _ |- _ => apply view_on in H
  | H : schedule _ _ = Done _ _ |- _ => apply view_schedule in H
  | H : make_ft _ _ _ _ = Done _ _ |- _ => apply view_make_ft in H
  | H : goto _ _ _ = Done _ _ |- _ => apply view_goto in H
  | H : (if ?b then _ else _) _ = Done _ _ |- _ => destruct b eqn:?
  | H : match ?o with _ => _ end _ = Done _ _ |- _ => destruct o eqn:?
  end.

(** Rewrites the view of the last state along the operations. *)
Ltac view_chain := repeat match goal with
  | H : view_of ?t = _ |- context [view_of ?t] => rewrite H; clear H
  end.

Section effects.
Context (g_fiber_stack_size : Z).

Lemma view_enter i p cbf s s' a : enter i p cbf s = Done s' a →
  ∃ q, view_of s' = v_upd i (v_pc q) (view_of s) ∧ ((∃ b, q = InTask cbf b) ∨ q = Leaving cbf CtxDead).
Proof.
  unfold enter. intros H. run_inv; eexists; (split; [view_chain; reflexivity|eauto]).
Qed.
Lemma view_judge_fiber i p s s' a : judge_fiber i p s = Done s' a →
  view_of s' = v_upd i (λ x, (x.1, ft_none)) (view_of s).
Proof.
  unfold judge_fiber. intros H. run_inv;
    (apply (view_upd i _ (λ x, (x.1, ft_none))) in H; [|done]); view_chain; done.
Qed.
Lemma view_judge_cb i p s s' a : judge_cb i p s = Done s' a → view_of s' = view_of s.
Proof.
  unfold judge_cb. intros H. run_inv; repeat match goal with
    | H : upd _ _ _ = Done _ _ |- _ => apply view_upd_tls in H; [|done] end; view_chain; done.
Qed.

(** One worker's new view, and the counters it moves. *)
Lemma effect_intro i v x g da di : v_workers v !! i = Some x →
  is_u64 (v_active v) → is_u64 (v_idle v) →
  Z.b2z (busy (g x)) - Z.b2z (busy x) = da → Z.b2z (idling (g x)) - Z.b2z (idling x) = di →
  empty_handed (g x) →
  effect i v (mkView (if da =? 0 then v_active v else u64 (v_active v + da))
                     (if di =? 0 then v_idle v else u64 (v_idle v + di)) (v_flags v) (alter g i (v_workers v))).
Proof.
  unfold is_u64. intros Hx Ha Hi Hda Hdi Hg. exists x, (g x). cbn. split; [done|]. split.
  { apply list_eq. intros j. destruct (decide (i = j)) as [->|].
    - rewrite list_lookup_alter_eq, Hx, list_lookup_insert_eq; [done|]. by eapply lookup_lt_Some.
    - by rewrite list_lookup_alter_ne, list_lookup_insert_ne. }
  split; [|split; [|done]].
  - rewrite <-Z.add_sub_assoc, Hda. destruct (da =? 0) eqn:E; [|done].
    apply Z.eqb_eq in E as ->. rewrite Z.add_0_r. by rewrite u64_small.
  - rewrite <-Z.add_sub_assoc, Hdi. destruct (di =? 0) eqn:E; [|done].
    apply Z.eqb_eq in E as ->. rewrite Z.add_0_r. by rewrite u64_small.
Qed.

Lemma effect_same i v x : v_workers v !! i = Some x → is_u64 (v_active v) → is_u64 (v_idle v) → empty_handed x → effect i v v.
Proof.
  unfold is_u64. intros Hx Ha Hi He. exists x, x. rewrite list_insert_id by done.
  by rewrite !Z.add_simpl_r, !u64_small.
Qed.
Lemma v_upd_upd i g h v : v_upd i g (v_upd i h v) = v_upd i (λ x, g (h x)) v.
Proof.
  unfold v_upd. cbn. f_equal. apply list_eq. intros j. destruct (decide (i = j)) as [->|].
  - rewrite !list_lookup_alter_eq. by destruct (v_workers v !! j).
  - by rewrite !list_lookup_alter_ne.
Qed.
Lemma effect_upd i v x g : v_workers v !! i = Some x → is_u64 (v_active v) → is_u64 (v_idle v) →
  busy (g x) = busy x → idling (g x) = idling x → empty_handed (g x) → effect i v (v_upd i g v).
Proof. intros Hx Ha Hi Hb Hd Hg. by apply (effect_intro i v x g 0 0); rewrite ?Hb, ?Hd, ?Z.sub_diag. Qed.
Lemma effect_act i v x g d : v_workers v !! i = Some x → is_u64 (v_active v) → is_u64 (v_idle v) → d ≠ 0 →
  Z.b2z (busy (g x)) - Z.b2z (busy x) = d → idling (g x) = idling x → empty_handed (g x) → effect i v (v_upd i g (v_act d v)).
Proof.
  intros Hx Ha Hi Hd Hb Hid Hg. pose proof (effect_intro i v x g d 0 Hx Ha Hi Hb) as He.
  rewrite Hid, Z.sub_diag in He. specialize (He eq_refl Hg). replace (d =? 0) with false in He by lia. exact He.
Qed.
Lemma effect_idl i v x g d : v_workers v !! i = Some x → is_u64 (v_active v) → is_u64 (v_idle v) → d ≠ 0 →
  Z.b2z (idling (g x)) - Z.b2z (idling x) = d → busy (g x) = busy x → empty_handed (g x) → effect i v (v_upd i g (v_idl d v)).
Proof.
  intros Hx Ha Hi Hd Hb Hid Hg. pose proof (effect_intro i v x g 0 d Hx Ha Hi) as He.
  rewrite Hid, Z.sub_diag in He. specialize (He eq_refl Hb Hg). replace (d =? 0) with false in He by lia. exact He.
Qed.

Lemma view_run_body i cbf b s s' a : run_body i cbf b s = Done s' a →
  ∃ q, view_of s' = v_upd i (v_pc q) (view_of s) ∧ ((∃ b, q = InTask cbf b) ∨ (∃ c, q = Leaving cbf c)).
Proof.
  destruct b; cbn [run_body]; intros H; run_inv; (eexists; split; [view_chain; reflexivity|eauto]).
Qed.

Lemma view_run_start i s s' a : run_start g_fiber_stack_size i s = Done s' a →
  view_of s' = v_upd i (v_pc AtPick) (view_of s).
Proof.
  unfold run_start. intros H. run_inv; repeat match goal with
    | H : upd _ _ _ = Done _ _ |- _ => apply view_upd_tls in H; [|done] end; view_chain; done.
Qed.

Lemma view_run_exit i s s' a : run_exit i s = Done s' a → view_of s' = v_upd i (v_pc Exited) (view_of s).
Proof. unfold run_exit. intros H. run_inv; view_chain; done. Qed.

Lemma view_run_pick i s s' a : run_pick i s = Done s' a →
  view_of s' = v_upd i (λ _, (AtDispatch, false, ft_none)) (view_of s) ∨
  ∃ ft, view_of s' = v_upd i (λ _, (AtDispatch, true, ft)) (v_act 1 (view_of s)).
Proof.
  unfold run_pick. intros (s1 & ? & [= <- <-] & H)%bind_inv.
  destruct (scan _ _ _) as [[[o q] tk]|]; [|done]. destruct o as [ft|].
  - right. exists ft. apply bind_inv in H as (s1 & [] & H1 & H). apply bind_inv in H1 as (? & [] & [= <-] & H1).
    apply bind_inv in H1 as (? & [] & [= <-] & H1). apply (view_upd _ _ (λ x, (x.1.1, true, ft))) in H1; [|done].
    apply bind_inv in H as (s2 & [] & H2 & H). apply view_goto in H. rewrite H.
    assert (view_of s2 = view_of s1) as -> by (destruct tk; by injection H2 as <-). rewrite H1, v_upd_upd. done.
  - left. apply bind_inv in H as (s1 & [] & H1 & H). apply (view_upd _ _ (λ x, (x.1.1, false, ft_none))) in H1; [|done].
    apply bind_inv in H as (s2 & [] & H2 & H). apply view_goto in H. rewrite H.
    assert (view_of s2 = view_of s1) as -> by (destruct tk; by injection H2 as <-). by rewrite H1, v_upd_upd.
Qed.

Lemma view_lookup s i w : workers s !! i = Some w → v_workers (view_of s) !! i = Some (w_view w).
Proof. intros Hw. cbn. by rewrite list_lookup_fmap, Hw. Qed.
Lemma worker_of_inv i s s' w : worker_of i s = Done s' w → s' = s ∧ workers s !! i = Some w.
Proof. unfold worker_of. destruct (workers s !! i) eqn:Hw; [|done]. by intros [= <- <-]. Qed.

Lemma view_dec_active s : view_of (set_active (u64 (m_activeThreadCount s - 1)) s) = v_act (-1) (view_of s).
Proof. done. Qed.
Lemma view_inc_idle s : view_of (set_idleCount (u64 (m_idleThreadCount s + 1)) s) = v_idl 1 (view_of s).
Proof. done. Qed.
Lemma view_dec_idle s : view_of (set_idleCount (u64 (m_idleThreadCount s - 1)) s) = v_idl (-1) (view_of s).
Proof. done. Qed.

Lemma dispatch_enter i p cbf s s' a w ft : workers s !! i = Some w → w_pc w = AtDispatch →
  is_u64 (m_activeThreadCount s) → is_u64 (m_idleThreadCount s) → w_is_active w = true →
  ∀ s1, view_of s1 = v_upd i (λ x, (x.1, ft)) (view_of s) ∨ view_of s1 = view_of s →
  enter i p cbf s1 = Done s' a → effect i (view_of s) (view_of s').
Proof.
  intros Hw Hpc Ha Hi Hb s1 Hs1 (q & Hv & Hq)%view_enter. rewrite Hv.
  destruct Hs1 as [-> | ->]; rewrite ?v_upd_upd; apply (effect_upd i _ (w_view w)); try done; try by apply view_lookup.
  all: unfold w_view, busy, idling, empty_handed; cbn; rewrite ?Hpc, ?Hb; destruct Hq as [[b ->]| ->]; done.
Qed.

Lemma dispatch_effect i s s' a w : workers s !! i = Some w → w_pc w = AtDispatch →
  is_u64 (m_activeThreadCount s) → is_u64 (m_idleThreadCount s) → empty_handed (w_view w) →
  run_dispatch g_fiber_stack_size i s = Done s' a → effect i (view_of s) (view_of s').
Proof.
  intros Hw Hpc Ha Hi He H. unfold run_dispatch in H.
  apply bind_inv in H as (s0 & w' & [-> Hw']%worker_of_inv & H). rewrite Hw in Hw'. injection Hw' as <-.
  apply bind_inv in H as (s1 & runnable & H1 & H).
  assert (Hs1 : view_of s1 = view_of s) by (destruct (ft_fiber _); run_inv; view_chain; done).
  assert (Hact : w_is_active w = false → ft_fiber (w_ft w) = None ∧ ft_cb (w_ft w) = None).
  { intros Hb. unfold empty_handed, w_view in He. cbn in He. by rewrite (He Hpc Hb). }
  destruct (if runnable then ft_fiber (w_ft w) else None) as [p|] eqn:Hp.
  { destruct (w_is_active w) eqn:Hb; [|destruct Hact as [Hf _]; [done|]; rewrite Hf in Hp; by destruct runnable].
    eapply (dispatch_enter i p false s s' _ w ft_none); eauto. }
  destruct (ft_cb (w_ft w)) as [cb|] eqn:Hcb.
  { destruct (w_is_active w) eqn:Hb; [|by destruct Hact].
    apply bind_inv in H as (s2 & p & H2 & H). apply bind_inv in H as (s3 & [] & H3 & H).
    assert (Hs2 : view_of s2 = view_of s1).
    { destruct (w_cb_fiber w); run_inv; repeat match goal with
        | H : upd _ _ _ = Done _ _ |- _ => apply view_upd_tls in H; [|done] end; view_chain; done. }
    apply (view_upd _ _ (λ x, (x.1, ft_none))) in H3; [|done].
    eapply (dispatch_enter i p true s s' _ w ft_none); [..|exact H]; try done. left. congruence. }
  destruct (w_is_active w) eqn:Hb.
  - clear H1; run_inv; view_chain. rewrite view_dec_active, Hs1. apply (effect_act i _ (w_view w)); try done.
    + by apply view_lookup.
    + unfold w_view, busy. cbn. by rewrite Hpc, Hb.
    + unfold w_view, idling. cbn. by rewrite Hpc.
  - apply bind_inv in H as (s2 & st & H2 & H). apply view_on in H2. destruct (bool_decide (st = TERM)).
    + apply view_run_exit in H. rewrite H, H2, Hs1. apply (effect_upd i _ (w_view w)); try done.
      * by apply view_lookup.
      * unfold w_view, busy. cbn. by rewrite Hpc, Hb.
      * unfold w_view, idling. cbn. by rewrite Hpc.
    + clear H1; run_inv. rewrite H. match goal with H : view_of ?t = view_of (set_idleCount _ _) |- _ => rewrite H end.
      rewrite view_inc_idle, H2, Hs1. apply (effect_idl i _ (w_view w)); try done.
      * by apply view_lookup.
      * unfold w_view, idling. cbn. by rewrite Hpc.
      * unfold w_view, busy. cbn. by rewrite Hpc, Hb.
Qed.

Ltac effect_tac Hw Hpc := first
  [by apply view_lookup | done
  | unfold w_view, busy, idling, empty_handed; cbn; rewrite ?Hpc; done].

Lemma idle_effect i m s s' a w : workers s !! i = Some w → w_pc w = InIdle →
  is_u64 (m_activeThreadCount s) → is_u64 (m_idleThreadCount s) →
  idle_step i m s = Done s' a → effect i (view_of s) (view_of s').
Proof.
  intros Hw Hpc Ha Hi H. unfold idle_step in H. apply bind_inv in H as (s0 & ? & [= <- <-] & H).
  destruct m; [|apply view_schedule in H; rewrite H|].
  2: { apply (effect_same i _ (w_view w)); effect_tac Hw Hpc. }
  all: apply bind_inv in H as (s1 & [] & H1 & H); apply view_goto in H;
    assert (Hs1 : view_of s1 = view_of s) by (run_inv; view_chain; done);
    rewrite H, Hs1; apply (effect_upd i _ (w_view w)); effect_tac Hw Hpc.
Qed.

Lemma step_effect i m s s' a w : workers s !! i = Some w →
  is_u64 (m_activeThreadCount s) → is_u64 (m_idleThreadCount s) → empty_handed (w_view w) →
  step g_fiber_stack_size i m s = Done s' a → effect i (view_of s) (view_of s').
Proof.
  intros Hw Ha Hi He H. unfold step in H.
  apply bind_inv in H as (s0 & w' & [-> Hw']%worker_of_inv & H). rewrite Hw in Hw'. injection Hw' as <-.
  destruct (w_pc w) eqn:Hpc.
  - injection H as <- <-. by apply (effect_same i _ (w_view w)); [apply view_lookup|..].
  - apply view_run_start in H. rewrite H. apply (effect_upd i _ (w_view w)); effect_tac Hw Hpc.
  - apply view_run_pick in H as [H|[ft H]]; rewrite H;
      [apply (effect_upd i _ (w_view w))|apply (effect_act i _ (w_view w))]; effect_tac Hw Hpc.
  - by eapply dispatch_effect.
  - apply view_run_body in H as (q & H & Hq). rewrite H.
    apply (effect_upd i _ (w_view w)); destruct Hq as [[? ->]|[? ->]]; effect_tac Hw Hpc.
  - run_inv. view_chain. apply (effect_upd i _ (w_view w)); effect_tac Hw Hpc.
  - run_inv. view_chain. rewrite view_dec_active. apply (effect_act i _ (w_view w)); effect_tac Hw Hpc.
  - apply bind_inv in H as (s1 & p & H1 & H). apply bind_inv in H as (s2 & [] & H2 & H). apply view_goto in H.
    assert (view_of s1 = view_of s) as Hs1 by (unfold deref in H1; destruct (if cbf then _ else _); [by injection H1 as <- _|done]).
    destruct cbf.
    + apply view_judge_cb in H2. rewrite H, H2, Hs1. apply (effect_upd i _ (w_view w)); effect_tac Hw Hpc.
    + apply view_judge_fiber in H2. rewrite H, H2, Hs1, v_upd_upd. apply (effect_upd i _ (w_view w)); effect_tac Hw Hpc.
  - by eapply idle_effect.
  - apply bind_inv in H as (s1 & [] & [= <-] & H).
    apply bind_inv in H as (s2 & st & H2 & H). apply bind_inv in H as (s3 & [] & H3 & H).
    apply view_goto in H. assert (Hs3 : view_of s3 = view_of s2) by (run_inv; view_chain; done).
    apply view_on in H2. rewrite H, Hs3, H2, view_dec_idle. apply (effect_idl i _ (w_view w)); effect_tac Hw Hpc.
  - injection H as <- <-. by apply (effect_same i _ (w_view w)); [apply view_lookup|..].
Qed.

(** ** The invariant *)
(** Every counter is the number of threads it counts. *)
Definition counters (v : view) : Prop :=
  v_active v = count busy (v_workers v) ∧ v_idle v = count idling (v_workers v) ∧
  Forall empty_handed (v_workers v) ∧ zlen (v_workers v) < 2 ^ 64.

Lemma count_range f l : 0 ≤ count f l ≤ zlen l.
Proof. induction l as [|x l IH]; cbn; [done|]. rewrite zlen_cons. destruct (f x); cbn; lia. Qed.
Lemma count_insert f i x x' l : l !! i = Some x → count f (<[i := x']> l) = count f l + Z.b2z (f x') - Z.b2z (f x).
Proof.
  revert i. induction l as [|y l IH]; intros [|i]; cbn; try done.
  - intros [= ->]. lia.
  - intros H. rewrite IH by done. lia.
Qed.
Lemma counters_range v : counters v → is_u64 (v_active v) ∧ is_u64 (v_idle v).
Proof.
  intros (-> & -> & _ & Hl). unfold is_u64. pose proof (count_range busy (v_workers v)). pose proof (count_range idling (v_workers v)). lia.
Qed.
Lemma counters_effect i v v' : counters v → effect i v v' → counters v'.
Proof.
  intros (Ha & Hi & He & Hl) (x & x' & Hx & Hw & Ha' & Hi' & _ & He'). unfold counters. rewrite Hw.
  rewrite !(count_insert _ i x x') by done. rewrite Ha', Hi', Ha, Hi.
  pose proof (count_range busy (<[i:=x']> (v_workers v))) as H1. pose proof (count_range idling (<[i:=x']> (v_workers v))) as H2.
  rewrite (count_insert _ i x x') in H1 by done. rewrite (count_insert _ i x x') in H2 by done. unfold zlen in *. rewrite length_insert in *.
  rewrite !u64_small by lia. repeat split; try lia. by apply Forall_insert.
Qed.

Lemma counters_exec1 e s s' a : counters (view_of s) → exec1 g_fiber_stack_size e s = Done s' a → 
  (∀ b, e ≠ Stop b) → counters (view_of s').
Proof.
  intros Hc H Hns. destruct e as [i m|ft|l|b]; cbn in H.
  - destruct (workers s !! i) as [w|] eqn:Hw.
    + eapply counters_effect; [done|]. pose proof (counters_range _ Hc) as [? ?].
      eapply step_effect; try done. destruct Hc as (_ & _ & He & _). rewrite Forall_lookup in He. apply (He i). by apply view_lookup.
    + unfold step, worker_of in H. unfold mbind, M_bind in H. by rewrite Hw in H.
  - apply view_schedule in H. by rewrite H.
  - apply view_schedule_range in H. by rewrite H.
  - by destruct (Hns b).
Qed.

(** [stop] changes the flags and lets the caller's thread enter the loop. *)
Lemma counters_stop b s s' a : counters (view_of s) → stop b s = Done s' a → counters (view_of s').
Proof.
  intros Hc H. unfold stop in H.
  apply bind_inv in H as (? & ? & [= <- <-] & H). apply bind_inv in H as (s1 & [] & [= <-] & H).
  set (s1 := set_flags (m_stopping s) true s) in *.
  apply bind_inv in H as (s2 & early & H2 & H).
  assert (Hs2 : view_of s2 = view_of s1) by (destruct (m_rootFiber s); run_inv; view_chain; done).
  apply bind_inv in H as (s3 & [] & H3 & H). apply bind_inv in H as (? & ? & [= <- <-] & H).
  assert (Hc3 : counters (view_of s3)).
  { destruct early; injection H3 as <-; [|by rewrite Hs2].
    assert (counters (view_of s2)) as Hc2 by (by rewrite Hs2). exact Hc2. }
  destruct (early && stopping s3); [by injection H as <- <-|].
  apply bind_inv in H as (s4 & [] & H4 & H). unfold assert_ in H4. destruct (if negb _ then _ else _); [|done].
  injection H4 as <-. apply bind_inv in H as (s5 & [] & [= <-] & H). apply bind_inv in H as (s6 & [] & [= <-] & H).
  apply bind_inv in H as (? & ? & [= <- <-] & H). cbn [m_rootFiber add_tickles set_flags] in H.
  destruct (m_rootFiber s3) as [p|]; [|by injection H as <- <-].
  destruct (negb _); [|by injection H as <- <-].
  apply bind_inv in H as (s7 & c & H7%view_on & H). apply bind_inv in H as (s8 & w & [-> Hw]%worker_of_inv & H).
  destruct c; try done. destruct (w_pc w) eqn:Hpc; try done. apply view_goto in H. rewrite H.
  assert (Hc7 : counters (view_of s7)) by (by rewrite H7).
  pose proof (counters_range _ Hc7) as [? ?]. eapply (counters_effect 0); [exact Hc7|].
  apply (effect_upd 0%nat _ (w_view w)); effect_tac Hw Hpc.
Qed.

Lemma counters_exec es s s' a : counters (view_of s) → exec g_fiber_stack_size es s = Done s' a → counters (view_of s').
Proof.
  revert s. induction es as [|e es IH]; intros s Hc H; [by injection H as <- <-|].
  cbn in H. apply bind_inv in H as (s1 & [] & H1 & H). eapply IH; [|done].
  destruct e; try (eapply counters_exec1; done). by eapply counters_stop.
Qed.

(** What [stopping()] reads. *)
Definition quiet (s : Scheduler) := (m_fibers s, m_activeThreadCount s, m_stopping s, m_autoStop s).
Lemma quiet_on {A} i (m : M env A) s s' a : on i m s = Done s' a → quiet s' = quiet s.
Proof.
  unfold on. destruct (workers s !! i); [|done]. destruct (m _); try done. by intros [= <- <-].
Qed.
Lemma stopping_quiet s s' : quiet s' = quiet s → stopping s' = stopping s.
Proof. intros [= H1 H2 H3 H4]. unfold stopping. by rewrite H1, H2, H3, H4. Qed.
Lemma stopping_true s : stopping s = true → m_fibers s = [] ∧ m_activeThreadCount s = 0.
Proof.
  unfold stopping. rewrite !andb_true_iff, bool_decide_eq_true, Z.eqb_eq. intros [[_ Hq] Ha].
  split; [by apply nil_length_inv|done].
Qed.

Ltac quiet_inv := repeat match goal with
  | H : (_ ≫= _) _ = Done _ _ |- _ => apply bind_inv in H as (? & ? & ? & H)
  | H : on _ _ _ = Done _ _ |- _ => apply quiet_on in H
  | H : mret _ _ = Done _ _ |- _ => first [injection H as <- <- | injection H as <-]
  | H : get _ = Done _ _ |- _ => injection H as <- <-
  | H : modify _ _ = Done _ _ |- _ => first [injection H as <- <- | injection H as <-]
  | H : goto _ _ _ = Done _ _ |- _ => first [injection H as <- <- | injection H as <-]
  | H : upd _ _ _ = Done _ _ |- _ => first [injection H as <- <- | injection H as <-]
  | H : (if ?b then _ else _) _ = Done _ _ |- _ => destruct b eqn:?
  end.

Lemma quiet_step i m s s' a w : workers s !! i = Some w → busy (w_view w) = false → empty_handed (w_view w) →
  stopping s = true → (∀ cbf, w_pc w ≠ Judge cbf) → (∀ ft, m ≠ IdleTask ft) →
  step g_fiber_stack_size i m s = Done s' a → quiet s' = quiet s.
Proof.
  intros Hw Hb He Hst Hj Hm H. destruct (stopping_true s Hst) as [Hq _]. unfold step in H.
  apply bind_inv in H as (s0 & w' & [-> Hw']%worker_of_inv & H). rewrite Hw in Hw'. injection Hw' as <-.
  unfold busy, empty_handed, w_view in *. cbn in *. destruct (w_pc w) eqn:Hpc; try done.
  - by injection H as <- <-.
  - unfold run_start in H. quiet_inv; unfold quiet in *; cbn in *; congruence.
  - unfold run_pick in H. apply bind_inv in H as (? & ? & [= <- <-] & H). rewrite Hq in H. cbn [scan] in H.
    quiet_inv. done.
  - unfold run_dispatch in H. apply bind_inv in H as (s0 & w' & [-> Hw']%worker_of_inv & H). rewrite Hw in Hw'. injection Hw' as <-.
    rewrite (He eq_refl Hb), Hb in H. cbn in H. apply bind_inv in H as (? & ? & [= <- <-] & H).
    unfold run_exit in H. quiet_inv; unfold quiet in *; cbn in *; congruence.
  - by destruct (Hj cbf).
  - unfold idle_step in H. apply bind_inv in H as (? & ? & [= <- <-] & H).
    destruct m as [|ft|]; [|by destruct (Hm ft)|]; cbn in H; quiet_inv; unfold quiet in *; cbn in *; congruence.
  - quiet_inv; unfold quiet in *; cbn in *; congruence.
  - by injection H as <- <-.
Qed.
End effects.

Lemma counters_fresh active idle flags x n : active = 0 → idle = 0 → zlen x + Z.of_nat n < 2 ^ 64 →
  Forall (λ y, busy y = false ∧ idling y = false ∧ empty_handed y) x →
  counters (mkView active idle flags (w_view <$> (replicate n (new_worker AtStart))) ) ∧
  counters (mkView active idle flags (x ++ (w_view <$> replicate n (new_worker AtStart)))).
Proof.
  intros -> -> Hl Hx. unfold counters. cbn [v_active v_idle v_workers].
  assert (Hr : count busy (w_view <$> replicate n (new_worker AtStart)) = 0 ∧
    count idling (w_view <$> replicate n (new_worker AtStart)) = 0 ∧
    Forall empty_handed (w_view <$> replicate n (new_worker AtStart))).
  { clear. induction n as [|n IH]; cbn; [done|]. destruct IH as (-> & -> & IH). split; [done|]. split; [done|]. by constructor. }
  destruct Hr as (Hb & Hi & He). rewrite zlen_app, zlen_fmap, zlen_replicate. pose proof (zlen_nonneg x).
  split; [rewrite Hb, Hi; repeat split; try done; lia|].
  assert (∀ l k, (Forall (λ y, busy y = false ∧ idling y = false ∧ empty_handed y) l) →
    count busy (l ++ k) = count busy k ∧ count idling (l ++ k) = count idling k) as Happ.
  { induction 1 as [|y l (Hy1 & Hy2 & _) Hl' IH]; cbn; [done|]. by rewrite Hy1, Hy2. }
  destruct (Happ x (w_view <$> replicate n (new_worker AtStart)) Hx) as [-> ->]. rewrite Hb, Hi.
  repeat split; try lia. apply Forall_app. split; [|done]. eapply Forall_impl; [done|]. by intros y (_ & _ & Hy).
Qed.

(** C6: whatever the interleaving of the worker threads, the calls of [schedule]
    and [stop] and the behaviour of the tasks: [m_activeThreadCount] is the number
    of threads between taking a task and the decrement behind its [swapIn],
    [m_idleThreadCount] that of threads in their idle fiber; and once [stopping()]
    is true no task is queued, no thread executes one, and no step of a thread
    that is not about to reschedule the task it just left makes it false again. *)
Theorem scheduler_invariant stack threads use_caller s0 s1 es s :
  0 < threads < 2 ^ 63 → Scheduler_new stack threads use_caller = Done s0 () → start s0 = Done s1 () →
  exec stack es s1 = Done s () →
  m_activeThreadCount s = count busy (w_view <$> workers s) ∧
  m_idleThreadCount s = count idling (w_view <$> workers s) ∧
  (stopping s = true →
    m_fibers s = [] ∧ Forall (λ w, busy (w_view w) = false) (workers s) ∧
    ∀ i m s', (∀ w cbf, workers s !! i = Some w → w_pc w ≠ Judge cbf) → (∀ ft, m ≠ IdleTask ft) →
      step stack i m s = Done s' () → stopping s' = true).
Proof.
  intros Ht H0 H1 He.
  assert (Hc1 : counters (view_of s1)).
  { unfold start in H1. apply bind_inv in H1 as (? & ? & [= <- <-] & H1). unfold Scheduler_new in H0.
    replace (threads >? 0) with true in H0 by lia.
    assert (Hn : Z.of_nat (Z.to_nat threads) < 2 ^ 63) by lia. destruct use_caller.
    - unfold on in H0. cbn in H0. injection H0 as <-. cbn in H1. injection H1 as <-.
      by apply (counters_fresh 0 0 (false, false) [(NotStarted, false, ft_none)] (Z.to_nat (threads - 1)));
        [..|unfold zlen; cbn [length]; lia|repeat constructor].
    - injection H0 as <-. cbn in H1. injection H1 as <-. by apply (counters_fresh 0 0 (false, false) [] (Z.to_nat threads)); [..|unfold zlen; cbn [length]; lia|]. }
  destruct (counters_exec _ _ _ _ _ Hc1 He) as (Ha & Hi & Heh & _). split; [done|]. split; [done|]. intros Hst.
  destruct (stopping_true s Hst) as [Hq Ha0]. split; [done|].
  assert (Hb : Forall (λ w, busy (w_view w) = false) (workers s)).
  { cbn in Ha. rewrite Ha0 in Ha. revert Ha. clear. induction (workers s) as [|w l IH]; cbn; [constructor|].
    pose proof (count_range busy (w_view <$> l)). destruct (busy (w_view w)) eqn:Hb; cbn; [lia|]. intros Ha. constructor; auto. }
  split; [done|]. intros i m s' Hj Hm Hs. rewrite <-Hst. apply stopping_quiet.
  destruct (workers s !! i) as [w|] eqn:Hw; [|unfold step, worker_of, mbind, M_bind in Hs; by rewrite Hw in Hs].
  rewrite Forall_lookup in Hb. rewrite Forall_lookup in Heh. eapply (quiet_step stack i m s s' () w); eauto. apply (Heh i). by apply view_lookup.
Qed.

(** ** Two races *)
Definition moves (l : list nat) : list event := (λ i, Move i Go) <$> l.
Definition started (stack threads : Z) (es : list event) : result Scheduler () :=
  match Scheduler_new stack threads false with Done s _ => (start ;; exec stack es) s | r => r end.
Definition task_cb (b : body) : FiberAndThread := mkFT None (Some (FBody b)) (-1).

(** Two interleavings the code allows.  (1) [switchTo] queues the running fiber
    and [YieldToHold] marks it [HOLD] before [swapOut] has saved its context: a
    second thread takes it in between and resumes the stale context, so that two
    threads execute one fiber and its first effect happens twice.  (2) A worker
    decrements [m_activeThreadCount] before it reschedules a fiber that yielded
    [READY]: in between [stopping()] is true although the fiber has work left,
    which is then done. *)
Example scheduler_races :
  (∃ es s, started 131072 2 es = Done s () ∧ trace s = [1; 1] ∧
    (t_fiber ∘ w_tls <$> workers s) = [Some 3; Some 3] ∧
    (w_pc <$> workers s) = [Leaving true (CtxBody (BEmit 2 BRet)); InTask false (BSwitchTo 1 (BEmit 2 BRet))]) ∧
  (∃ es es' s s', started 131072 1 es = Done s () ∧ stopping s = true ∧ trace s = [1] ∧
    exec 131072 es' s = Done s' () ∧ trace s' = [1; 2] ∧ stopping s' = true ∧ (w_pc <$> workers s') = [Exited]).
Proof.
  split.
  - exists ([Schedule (task_cb (BEmit 1 (BSwitchTo 1 (BEmit 2 BRet))))] ++ moves [0; 0; 0; 0; 0; 0; 1; 1; 1; 1])%nat.
    eexists. split; [vm_compute; reflexivity|]. split; [reflexivity|]. split; reflexivity.
  - exists ([Schedule (task_cb (BEmit 1 (BYieldToReady (BEmit 2 BRet)))); Stop false] ++ moves [0; 0; 0; 0; 0; 0; 0])%nat,
      (moves (replicate 14 0%nat)).
    do 2 eexists. split; [vm_compute; reflexivity|]. split; [reflexivity|]. split; [reflexivity|].
    split; [vm_compute; reflexivity|]. split; [reflexivity|]. split; reflexivity.
Qed.

(** ** Witnesses *)
Definition demo_queue : list FiberAndThread := [mkFT (Some 1) None (-1); mkFT None (Some FIdle) 5; mkFT None (Some FIdle) 0; mkFT (Some 2) None (-1)].
Definition demo_heap : gmap Z Fiber := {[ 1 := mkFiber 1 0 EXEC CtxMain true None; 2 := mkFiber 2 0 HOLD CtxMain true None ]}.
Lemma pick_spec_witness : scan 0 demo_heap demo_queue =
  Some (Some (mkFT None (Some FIdle) 0), [mkFT (Some 1) None (-1); mkFT None (Some FIdle) 5; mkFT (Some 2) None (-1)], true).
Proof.
  destruct (pick_spec 0 demo_heap demo_queue) as (H & _).
  - repeat constructor; eexists; reflexivity.
  - apply (H [mkFT (Some 1) None (-1); mkFT None (Some FIdle) 5] (mkFT None (Some FIdle) 0) [mkFT (Some 2) None (-1)]);
      [reflexivity|repeat constructor|reflexivity].
Defined.
Definition demo_events : list event :=
  ([Schedule (task_cb (BEmit 1 BRet)); Schedule (task_cb (BYieldToReady BRet)); Stop false] ++ moves (replicate 7 0 ++ replicate 3 1))%nat.
Definition blank : Scheduler := mkScheduler (mkFibers ∅ 1 0 0) [] None 0 0 0 true false 0 [] 0 [].
Definition state_or {S} (d : S) (r : result S ()) : S := match r with Done s _ => s | _ => d end.
Definition demo0 : Scheduler := state_or blank (Scheduler_new 131072 2 false).
Definition demo1 : Scheduler := state_or blank (start demo0).
Definition demo2 : Scheduler := state_or blank (exec 131072 demo_events demo1).
Lemma scheduler_invariant_witness : m_activeThreadCount demo2 = 1 ∧
  m_activeThreadCount demo2 = count busy (w_view <$> workers demo2).
Proof.
  split; [vm_compute; reflexivity|].
  refine (proj1 (scheduler_invariant 131072 2 false demo0 demo1 demo_events demo2 _ _ _ _)).
  - lia.
  - vm_compute. reflexivity.
  - vm_compute. reflexivity.
  - vm_compute. reflexivity.
Defined.
