(* ===== verification/SchedulerRR.v ===== *)
(** * SchedulerRR: one worker thread is a round-robin scheduler

    The reference: a queue of scripts; the first one runs up to its next yield,
    what it schedules goes to the end of the queue in order, and behind that the
    rest of the script itself when it yielded [READY]. *)
From S2P Require Import Prelude Fiber Scheduler SchedulerFacts.
Open Scope Z_scope.

(** Scripts that schedule callbacks, not fibers, and pin nothing. *)
Fixpoint plain (b : body) : bool :=
  match b with
  | BRet | BThrow => true
  | BEmit _ k | BYieldToReady k | BYieldToHold k => plain k
  | BSchedule (TCb b) thread k => (thread =? -1) && plain b && plain k
  | BSchedule _ _ _ => false
  | BSwitchTo thread k => (thread =? -1) && plain k
  end.
Fixpoint size (b : body) : nat :=
  match b with
  | BRet | BThrow => 1
  | BEmit _ k | BYieldToReady k | BYieldToHold k | BSwitchTo _ k => S (size k)
  | BSchedule (TCb b) _ k => S (size b + size k)
  | BSchedule _ _ k => S (size k)
  end.
(** One turn: the effects, and what joins the queue. *)
Fixpoint turn (b : body) : list Z * list body :=
  match b with
  | BRet | BThrow | BYieldToHold _ => ([], [])
  | BYieldToReady k => ([], [k])
  | BEmit n k => (n :: (turn k).1, (turn k).2)
  | BSchedule (TCb b) _ k => ((turn k).1, b :: (turn k).2)
  | BSchedule _ _ k => turn k
  | BSwitchTo _ k => turn k
  end.
Fixpoint round_robin (fuel : nat) (q : list body) : list Z :=
  match fuel, q with
  | S fuel, b :: q => (turn b).1 ++ round_robin fuel (q ++ (turn b).2)
  | _, _ => []
  end.
Definition total (q : list body) : nat := sum_list (size <$> q).

(** Runs an operation whose result is known by computation and goes on. *)
Ltac do_step := erewrite bind_done by reflexivity.

Section rr.
Context (stack : Z).

(** Executions of worker 0 alone. *)
Definition runs (s s' : Scheduler) : Prop := ∃ n, exec stack (moves (replicate n 0%nat)) s = Done s' ().
Lemma runs_refl s : runs s s.
Proof. by exists 0%nat. Qed.
Lemma runs_step s s1 s' : step stack 0 Go s = Done s1 () → runs s1 s' → runs s s'.
Proof. intros H [n Hn]. exists (S n). cbn. by rewrite (bind_done _ _ _ _ _ H). Qed.

(** The scheduler with one worker thread, whose main fiber is [m]. *)
Definition one (f : Fibers) (q : list FiberAndThread) (act idl : Z) (au : bool) (cur m idle : Z) (cb : option Z)
  (ft : FiberAndThread) (ia : bool) (p : pc) (tk : Z) (tr : list Z) : Scheduler :=
  mkScheduler f q None 1 act idl au au (-1) [mkWorker (mkLocals (Some cur) (Some m) (Some m)) idle cb ft ia p] tk tr.

(** The task [ft] stands for the script [b]. *)
Definition repr (h : gmap Z Fiber) (ft : FiberAndThread) (b : body) : Prop :=
  ft = task_cb b ∨ ∃ p f, ft = mkFT (Some p) None (-1) ∧ h !! p = Some f ∧ m_state f = READY ∧ m_ctx f = CtxBody b ∧ m_stack f = true.
Definition ptrs (q : list FiberAndThread) : list Z := omap ft_fiber q.

(** The idle fiber and the spare [cb_fiber]. *)
Definition idle_fiber_ok (f : Fiber) : Prop := m_state f = INIT ∨ m_state f = HOLD.
Definition spare (f : Fiber) : Prop := m_state f = INIT ∧ m_ctx f = CtxMain ∧ m_stack f = true.

Record good (f : Fibers) (idle : Z) (cb : option Z) (q : list FiberAndThread) (bs : list body) : Prop := {
  g_fresh : ∀ p, next_addr f ≤ p → heap f !! p = None;
  g_queue : Forall2 (repr (heap f)) q bs;
  g_nodup : NoDup (ptrs q);
  g_idle : ∃ x, heap f !! idle = Some x ∧ idle_fiber_ok x;
  g_idle_q : idle ∉ ptrs q;
  g_cb : ∀ c, cb = Some c → c ≠ idle ∧ c ∉ ptrs q
}.

Lemma repr_insert h ft b p x : p ∉ ptrs [ft] → repr h ft b → repr (<[p := x]> h) ft b.
Proof.
  intros Hp [->|(p' & f & -> & Hf & Hs)]; [by left|]. right. exists p', f. split; [done|].
  rewrite lookup_insert_ne; [done|]. intros ->. apply Hp. cbn. by left.
Qed.
Lemma queue_insert h q bs p x : p ∉ ptrs q → Forall2 (repr h) q bs → Forall2 (repr (<[p := x]> h)) q bs.
Proof.
  intros Hp H. induction H as [|ft b q bs Hr Hq IH]; constructor.
  - apply repr_insert; [|done]. unfold ptrs in *. cbn in *. destruct (ft_fiber ft); set_solver.
  - apply IH. unfold ptrs in *. cbn in *. destruct (ft_fiber ft); set_solver.
Qed.

(** ** The steps of the only worker *)
Section steps.
Context (m idle : Z) (au : bool).
Notation st f q act cur cb ft ia p tk tr := (one f q act 0 au cur m idle cb ft ia p tk tr).
Definition put (p : Z) (x : Fiber) (f : Fibers) : Fibers := set_heap (<[p := x]> (heap f)) f.

(** A script [b] executes on fiber [p]; the queue and the spare fiber are as they should be. *)
Record running (f : Fibers) (cb : option Z) (q : list FiberAndThread) (bs : list body) (k : bool) (p : Z) : Prop := {
  r_good : good f idle cb q bs;
  r_fiber : ∃ x, heap f !! p = Some x ∧ m_state x = EXEC ∧ m_stack x = true;
  r_idle : p ≠ idle; r_queue : p ∉ ptrs q;
  r_cb : if k then cb = Some p else ∀ c, cb = Some c → c ≠ p ∧ ∃ y, heap f !! c = Some y ∧ spare y
}.

Lemma heap_put_eq p x f : heap (put p x f) !! p = Some x.
Proof. apply lookup_insert_eq. Qed.
Lemma good_put f cb q bs p x : good f idle cb q bs → is_Some (heap f !! p) → p ≠ idle → p ∉ ptrs q → good (put p x f) idle cb q bs.
Proof.
  intros [H1 H2 H3 (y & Hy & Hok) H5 H6] [z Hz] Hpi Hpq. constructor; cbn; try done.
  - intros a Ha. destruct (decide (a = p)) as [->|Hne].
    + by rewrite (H1 p Ha) in Hz.
    + rewrite lookup_insert_ne by done. by apply H1.
  - by apply queue_insert.
  - exists y. by rewrite lookup_insert_ne.
Qed.

(** Operations of fiber.cc on the worker's thread. *)
Definition L (cur : Z) : locals := mkLocals (Some cur) (Some m) (Some m).
Section fiber_ops.
Context (f : Fibers) (p : Z) (x : Fiber) (Hp : heap f !! p = Some x).
#[local] Set Default Proof Using "Hp".

Lemma fiber_at_ok l : fiber_at p (mkEnv f l) = Done (mkEnv f l) x.
Proof. unfold fiber_at. cbn. by rewrite Hp. Qed.
Lemma update_ok l g : update p g (mkEnv f l) = Done (mkEnv (put p (g x) f) l) ().
Proof. unfold update. by rewrite (bind_done _ _ _ _ _ (fiber_at_ok l)). Qed.
Lemma getState_ok l : getState p (mkEnv f l) = Done (mkEnv f l) (m_state x).
Proof. unfold getState. by rewrite (bind_done _ _ _ _ _ (fiber_at_ok l)). Qed.
Lemma swapOut_ok cur c : swapOut p c (mkEnv f (L cur)) = Done (mkEnv (put p (set_ctx c x) f) (L m)) ().
Proof. exact (update_ok (L m) (set_ctx c)). Qed.
Lemma fiber_reset_ok l cb : m_stack x = true → reusable (m_state x) = true →
  Fiber.reset p cb (mkEnv f l) = Done (mkEnv (put p (set_state INIT (set_ctx CtxMain (set_cb cb x))) f) l) ().
Proof.
  intros Hs Hr. unfold Fiber.reset. rewrite (bind_done _ _ _ _ _ (fiber_at_ok l)), Hs, Hr. exact (update_ok l _).
Qed.
Lemma Yield_ok st' : m_state x = EXEC → Yield st' (mkEnv f (L p)) = Done (mkEnv (put p (set_state st' x) f) (L p)) p.
Proof.
  intros He. unfold Yield.
  erewrite bind_done by reflexivity. rewrite (bind_done _ _ _ _ _ (getState_ok (L p))), He.
  erewrite bind_done by reflexivity. by rewrite (bind_done _ _ _ _ _ (update_ok (L p) _)).
Qed.
Lemma main_enter_ok : main_enter (mkEnv f (L p)) = Done (mkEnv f (L p)) (m_cb x).
Proof. unfold main_enter. erewrite bind_done by reflexivity. by rewrite (bind_done _ _ _ _ _ (fiber_at_ok (L p))). Qed.
Lemma main_return_ok : main_return (mkEnv f (L p)) = Done (mkEnv (put p (set_state TERM (set_cb None x)) f) (L p)) p.
Proof. unfold main_return. erewrite bind_done by reflexivity. by rewrite (bind_done _ _ _ _ _ (update_ok (L p) _)). Qed.
Lemma main_throw_ok : main_throw (mkEnv f (L p)) = Done (mkEnv (put p (set_state EXCEPT x) f) (L p)) p.
Proof. unfold main_throw. erewrite bind_done by reflexivity. by rewrite (bind_done _ _ _ _ _ (update_ok (L p) _)). Qed.
Lemma swapIn_ok cur : m_state x ≠ EXEC →
  swapIn p (mkEnv f (L cur)) = Done (mkEnv (put p (set_state EXEC x) f) (L p)) (m_ctx x).
Proof.
  intros He. unfold swapIn. erewrite bind_done by reflexivity. change (map_tls _ _) with (mkEnv f (L p)).
  rewrite (bind_done _ _ _ _ _ (getState_ok _)). rewrite bool_decide_false by done. erewrite bind_done by reflexivity.
  rewrite (bind_done _ _ _ _ _ (update_ok _ _)). erewrite bind_done by reflexivity. erewrite bind_done by reflexivity.
  unfold fiber_at, mbind, M_bind. cbn. by rewrite lookup_insert_eq.
Qed.
End fiber_ops.

Lemma on_one {A} (op : M env A) f q act cur cb ft ia p tk tr f' cur' a : op (mkEnv f (L cur)) = Done (mkEnv f' (L cur')) a →
  on 0 op (st f q act cur cb ft ia p tk tr) = Done (st f' q act cur' cb ft ia p tk tr) a.
Proof. intros H. unfold on, one. cbn. change (mkLocals (Some ?c) (Some m) (Some m)) with (L c). by rewrite H. Qed.

(** Runs an operation of the thread and goes on. *)
Ltac op_step lem := erewrite bind_done by (apply on_one; eapply lem; first [eassumption|done|match goal with E : m_state _ = _ |- _ => rewrite E; done end]).

Lemma step_leave f q cb ft ia k p x c tk tr : heap f !! p = Some x →
  step stack 0 Go (st f q 1 p cb ft ia (Leaving k c) tk tr) = Done (st (put p (set_ctx c x) f) q 1 m cb ft ia (AfterTask k) tk tr) ().
Proof.
  intros Hp. unfold step. do_step. cbn [w_pc]. erewrite bind_done by (apply on_one; reflexivity). op_step swapOut_ok. done.
Qed.

Lemma schedule_one ft' f q act cur cb ft ia p tk tr : is_Some (ft_fiber ft') ∨ is_Some (ft_cb ft') →
  ∃ tk', schedule ft' (st f q act cur cb ft ia p tk tr) = Done (st f (q ++ [ft']) act cur cb ft ia p tk' tr) ().
Proof.
  intros Hft. unfold schedule. erewrite bind_done by reflexivity. cbn [m_fibers one]. unfold scheduleNoLock.
  assert (Hsel : ∀ b, match ft_fiber ft', ft_cb ft' with None, None => (q, b) | _, _ => (q ++ [ft'], b) end = (q ++ [ft'], b : bool)).
  { intros b. destruct (ft_fiber ft'), (ft_cb ft'); try done. by destruct Hft as [[? ?]|[? ?]]. }
  rewrite Hsel. erewrite bind_done by reflexivity. destruct (bool_decide _); eexists; reflexivity.
Qed.

(** What [Judge] makes of a fiber in state [fin]. *)
Definition judged (k : bool) (p : Z) (x : Fiber) (f : Fibers) (q : list FiberAndThread) (cb : option Z) (ft : FiberAndThread) (ia : bool) (tk : Z) (tr : list Z) : Scheduler :=
  match m_state x with
  | READY => st f (q ++ [mkFT (Some p) None (-1)]) 0 m (if k then None else cb) ft_none ia AtPick tk tr
  | TERM | EXCEPT => st (if k then put p (set_state INIT (set_ctx CtxMain (set_cb None x))) f else f) q 0 m cb ft_none ia AtPick tk tr
  | _ => st (put p (set_state HOLD x) f) q 0 m (if k then None else cb) ft_none ia AtPick tk tr
  end.

Lemma bind_assoc {S A B C} (o : M S A) (k : A → M S B) (h : B → M S C) s0 :
  ((o ≫= k) ≫= h) s0 = (o ≫= λ a, k a ≫= h) s0.
Proof. unfold mbind, M_bind. by destruct (o s0). Qed.

Lemma step_judge f q cb ft ia k p x tk tr : heap f !! p = Some x → m_stack x = true →
  (if k : bool then cb = Some p ∧ ft = ft_none else ft_fiber ft = Some p) →
  ∃ tk', step stack 0 Go (st f q 0 m cb ft ia (Judge k) tk tr) = Done (judged k p x f q cb ft ia tk' tr) ().
Proof.
  intros Hp Hs Hk. unfold step. do_step. cbn [w_pc w_cb_fiber w_ft]. unfold judged.
  destruct k; [destruct Hk as [-> ->]|rewrite Hk]; do_step.
  - destruct (schedule_one (mkFT (Some p) None (-1)) f q 0 m (Some p) ft_none ia (Judge true) tk tr) as [tk' Htk]; [eauto|].
    unfold judge_cb. rewrite bind_assoc. op_step getState_ok. destruct (m_state x) eqn:Hst; cbn [bool_decide decide_rel finished].
    4,6: exists tk; rewrite bool_decide_false by done; op_step fiber_reset_ok; done.
    4: exists tk'; rewrite bool_decide_true, bind_assoc by done; rewrite (bind_done _ _ _ _ _ Htk); done.
    all: exists tk; rewrite bool_decide_false, bind_assoc by done; op_step update_ok; done.
  - destruct (schedule_one (mkFT (Some p) None (-1)) f q 0 m cb ft ia (Judge false) tk tr) as [tk' Htk]; [eauto|].
    unfold judge_fiber. rewrite bind_assoc. op_step getState_ok. destruct (m_state x) eqn:Hst; cbn [finished].
    4,6: exists tk; rewrite bool_decide_false by done; done.
    4: exists tk'; rewrite bool_decide_true, bind_assoc by done; rewrite (bind_done _ _ _ _ _ Htk); done.
    all: exists tk; rewrite bool_decide_false, bind_assoc by done; cbn [negb]; op_step update_ok; done.
Qed.

Lemma step_pick f q cur cb ft ft' ia tk tr : ft_thread ft' = -1 →
  (ft_fiber ft' = None ∧ is_Some (ft_cb ft') ∨ ∃ p x, ft_fiber ft' = Some p ∧ heap f !! p = Some x ∧ m_state x ≠ EXEC) →
  ∃ tk', step stack 0 Go (st f (ft' :: q) 0 cur cb ft ia AtPick tk tr) = Done (st f q 1 cur cb ft' true AtDispatch tk' tr) ().
Proof.
  intros Hth Hft. unfold step. do_step. cbn [w_pc]. unfold run_pick. do_step.
  assert (Hscan : scan (Z.of_nat 0) (heap f) (ft' :: q) = Some (Some ft', q, negb (bool_decide (length q = 0%nat)))).
  { cbn [scan]. rewrite Hth. cbn. destruct Hft as [[-> [c ->]]|(p & x & -> & -> & Hx)]; [done|]. cbn. by rewrite bool_decide_false. }
  cbn [store m_fibers one]. rewrite Hscan. rewrite bind_assoc. do_step. rewrite bind_assoc. do_step. do_step.
  destruct (negb _); eexists; reflexivity.
Qed.

(** Where [enter] leads: the script [b] runs on fiber [p]. *)
Lemma enter_one f q act cur cb ft ia p x b k tk tr pc0 : heap f !! p = Some x → m_state x ≠ EXEC →
  (m_ctx x = CtxBody b ∨ m_ctx x = CtxMain ∧ m_cb x = Some (FBody b)) →
  enter 0 p k (st f q act cur cb ft ia pc0 tk tr) = Done (st (put p (set_state EXEC x) f) q act p cb ft ia (InTask k b) tk tr) ().
Proof.
  intros Hp Hx Hc. unfold enter. op_step swapIn_ok. destruct Hc as [->|[-> Hcb]]; [done|].
  erewrite bind_done by (apply on_one; eapply main_enter_ok; apply lookup_insert_eq). cbn [m_cb set_state]. by rewrite Hcb.
Qed.

Lemma step_dispatch_fiber f q cur cb ft ia p x b tk tr : ft_fiber ft = Some p → heap f !! p = Some x →
  m_state x = READY → m_ctx x = CtxBody b →
  step stack 0 Go (st f q 1 cur cb ft ia AtDispatch tk tr) =
  Done (st (put p (set_state EXEC x) f) q 1 p cb ft ia (InTask false b) tk tr) ().
Proof.
  intros Hft Hp Hs Hc. unfold step. do_step. cbn [w_pc]. unfold run_dispatch. do_step. cbn [w_ft].
  rewrite Hft, bind_assoc. op_step getState_ok. do_step. rewrite Hs. cbn [finished negb].
  apply (enter_one _ _ _ _ _ _ _ _ _ b); [done| |by left]. by rewrite Hs.
Qed.

Definition fresh_fiber (f : Fibers) (b : body) : Fiber :=
  mkFiber (u64 (s_fiber_id f + 1)) stack INIT CtxMain true (Some (FBody b)).
Definition grown (f : Fibers) (b : body) : Fibers :=
  mkFibers (<[next_addr f := fresh_fiber f b]> (heap f)) (next_addr f + 1) (u64 (s_fiber_id f + 1)) (u64 (s_fiber_count f + 1)).
Lemma step_dispatch_new f q cur ia b tk tr :
  step stack 0 Go (st f q 1 cur None (task_cb b) ia AtDispatch tk tr) =
  Done (st (put (next_addr f) (set_state EXEC (fresh_fiber f b)) (grown f b)) q 1 (next_addr f) (Some (next_addr f)) ft_none ia (InTask true b) tk tr) ().
Proof.
  unfold step. do_step. cbn [w_pc]. unfold run_dispatch. do_step. do_step. cbn [w_ft w_cb_fiber task_cb ft_fiber ft_cb].
  rewrite bind_assoc. do_step. rewrite bind_assoc. do_step. do_step. do_step.
  change (enter 0 (next_addr f) true (st (grown f b) q 1 cur (Some (next_addr f)) ft_none ia AtDispatch tk tr) =
    Done (st (put (next_addr f) (set_state EXEC (fresh_fiber f b)) (grown f b)) q 1 (next_addr f) (Some (next_addr f)) ft_none ia (InTask true b) tk tr) ()).
  apply enter_one; [apply lookup_insert_eq|done|by right].
Qed.
Lemma step_dispatch_spare f q cur ia b c x tk tr : heap f !! c = Some x → spare x →
  step stack 0 Go (st f q 1 cur (Some c) (task_cb b) ia AtDispatch tk tr) =
  Done (st (put c (set_state EXEC (set_state INIT (set_ctx CtxMain (set_cb (Some (FBody b)) x)))) (put c (set_state INIT (set_ctx CtxMain (set_cb (Some (FBody b)) x))) f)) q 1 c (Some c) ft_none ia (InTask true b) tk tr) ().
Proof.
  intros Hc (Hs & Hx & Hk). unfold step. do_step. cbn [w_pc]. unfold run_dispatch. do_step. do_step. cbn [w_ft w_cb_fiber task_cb ft_fiber ft_cb].
  rewrite bind_assoc. erewrite bind_done by (apply on_one; eapply fiber_reset_ok; [done|done|by rewrite Hs]). do_step. do_step.
  apply enter_one; [apply lookup_insert_eq|done|by right].
Qed.

(** ** Turns *)
Definition spare_ok (f : Fibers) (cb : option Z) : Prop := ∀ c, cb = Some c → ∃ y, heap f !! c = Some y ∧ spare y.

Lemma good_tail f cb ft q b bs : good f idle cb (ft :: q) (b :: bs) → good f idle cb q bs ∧ repr (heap f) ft b ∧
  (∀ p, ft_fiber ft = Some p → p ∉ ptrs q ∧ p ≠ idle ∧ ∀ c, cb = Some c → c ≠ p).
Proof.
  intros [H1 H2 H3 H4 H5 H6]. inversion H2; subst. unfold ptrs in *. cbn in *.
  split; [|split; [done|]].
  - constructor; try done; unfold ptrs.
    + destruct (ft_fiber ft); [by apply NoDup_cons in H3 as [_ H3]|done].
    + destruct (ft_fiber ft); set_solver.
    + intros c Hc. destruct (H6 c Hc) as [? ?]. split; [done|]. destruct (ft_fiber ft); set_solver.
  - intros p Hp. rewrite Hp in *. apply NoDup_cons in H3 as [H3 _]. split; [done|]. split; [set_solver|].
    intros c Hc. destruct (H6 c Hc) as [_ Hc']. set_solver.
Qed.

Lemma spare_put f cb p x : spare_ok f cb → (∀ c, cb = Some c → c ≠ p) → spare_ok (put p x f) cb.
Proof. intros H Hne c Hc. destruct (H c Hc) as (y & Hy & Hs). exists y. cbn. by rewrite lookup_insert_ne by (symmetry; auto). Qed.

Lemma good_grown f q bs b : good f idle None q bs → good (grown f b) idle (Some (next_addr f)) q bs.
Proof.
  intros [H1 H2 H3 (y & Hy & Hok) H5 H6]. pose proof (H1 (next_addr f) ltac:(lia)) as Hn.
  assert (Hq : next_addr f ∉ ptrs q).
  { clear -H2 Hn. induction H2 as [|ft b q bs Hr Hq IH]; unfold ptrs in *; cbn; [apply not_elem_of_nil|].
    destruct Hr as [->|(p & x & -> & Hp & _)]; cbn; [done|]. apply not_elem_of_cons. split; [|done]. intros <-. congruence. }
  assert (Hi : next_addr f ≠ idle) by (intros Hi; rewrite <-Hi in Hy; congruence).
  constructor; cbn; try done.
  - intros p Hp. rewrite lookup_insert_ne by lia. apply H1. lia.
  - by apply queue_insert.
  - exists y. by rewrite lookup_insert_ne.
  - intros c [= <-]. done.
Qed.

(** Picking and dispatching the first task starts its turn. *)
Lemma start_turn f cb ft' q b bs cur ft ia tk tr : good f idle cb (ft' :: q) (b :: bs) → spare_ok f cb →
  ∃ f' cb' k p ft2 tk', (∀ s', runs (st f' q 1 p cb' ft2 true (InTask k b) tk' tr) s' → runs (st f (ft' :: q) 0 cur cb ft ia AtPick tk tr) s') ∧
    running f' cb' q bs k p ∧ (if k then ft2 = ft_none else ft_fiber ft2 = Some p).
Proof.
  intros Hg Hsp. destruct (good_tail _ _ _ _ _ _ Hg) as (Hg' & Hr & Hft).
  destruct Hr as [->|(p & x & -> & Hp & Hs & Hc & Hk)].
  - destruct (step_pick f q cur cb ft (task_cb b) ia tk tr) as [tk' Hpick]; [done|left; eauto|]. destruct cb as [c|].
    + destruct (Hsp c eq_refl) as (x & Hx & Hspx). do 6 eexists. split.
      { intros s' Hs'. eapply runs_step; [done|]. eapply runs_step; [by eapply step_dispatch_spare|]. exact Hs'. }
      destruct (g_cb _ _ _ _ _ Hg' c eq_refl) as [Hci Hcq].
      assert (Hst : m_stack x = true) by apply Hspx.
      split; [|done]. constructor; try done.
      * apply good_put; [apply good_put; eauto| |done..]. rewrite heap_put_eq. eauto.
      * eexists. split; [apply lookup_insert_eq|]. done.
    + do 6 eexists. split.
      { intros s' Hs'. eapply runs_step; [done|]. eapply runs_step; [by apply step_dispatch_new|]. exact Hs'. }
      pose proof (good_grown f q bs b Hg') as Hgr. destruct (g_cb _ _ _ _ _ Hgr _ eq_refl) as [Hci Hcq].
      split; [|done]. constructor; try done.
      * apply good_put; [done|cbn; rewrite lookup_insert_eq; eauto|done..].
      * eexists. split; [apply lookup_insert_eq|]. done.
  - destruct (step_pick f q cur cb ft (mkFT (Some p) None (-1)) ia tk tr) as [tk' Hpick]; [done| |].
    { right. exists p, x. repeat split; try done. by rewrite Hs. }
    destruct (Hft p eq_refl) as (Hpq & Hpi & Hcp).
    do 6 eexists. split.
    { intros s' Hs'. eapply runs_step; [done|]. eapply runs_step; [by eapply step_dispatch_fiber|]. exact Hs'. }
    split; [|done]. constructor; try done.
    + apply good_put; eauto.
    + eexists. split; [apply lookup_insert_eq|]. done.
    + intros c Hc'. split; [auto|]. apply (spare_put f cb p); auto.
Qed.

Lemma good_none f cb q bs : good f idle cb q bs → good f idle None q bs.
Proof. by intros []. Qed.
Lemma good_push f cb q bs p x b : good f idle cb q bs → heap f !! p = Some x → m_state x = READY → m_ctx x = CtxBody b →
  m_stack x = true → p ∉ ptrs q → p ≠ idle → (∀ c, cb = Some c → c ≠ p) → good f idle cb (q ++ [mkFT (Some p) None (-1)]) (bs ++ [b]).
Proof.
  intros [H1 H2 H3 H4 H5 H6] Hp Hs Hc Hk Hq Hi Hcb.
  assert (Hptrs : ptrs (q ++ [mkFT (Some p) None (-1)]) = ptrs q ++ [p]) by (unfold ptrs; by rewrite omap_app).
  constructor; try done; rewrite ?Hptrs.
  - apply Forall2_app; [done|]. constructor; [|constructor]. right. eauto 10.
  - apply NoDup_app. split; [done|]. split; [set_solver|apply NoDup_singleton].
  - set_solver.
  - intros c Hcc. destruct (H6 c Hcc) as [? ?]. pose proof (Hcb c Hcc). set_solver.
Qed.
Lemma good_push_cb f cb q bs b : good f idle cb q bs → good f idle cb (q ++ [task_cb b]) (bs ++ [b]).
Proof.
  intros [H1 H2 H3 H4 H5 H6].
  assert (Hptrs : ptrs (q ++ [task_cb b]) = ptrs q) by (unfold ptrs; rewrite omap_app; apply app_nil_r).
  constructor; rewrite ?Hptrs; try done. apply Forall2_app; [done|]. constructor; [by left|constructor].
Qed.

(** What joins the queue when a fiber leaves in state [fin] with context [c]. *)
Definition left_over (fin : State) (c : ctx) : list body := match fin, c with READY, CtxBody b => [b] | _, _ => [] end.

Lemma leave_turn f cb q bs k p x ft ia c tk tr : running f cb q bs k p → m_state x ≠ EXEC → m_state x ≠ INIT → m_stack x = true →
  (m_state x = READY → ∃ b, c = CtxBody b) → (if k then ft = ft_none else ft_fiber ft = Some p) →
  ∃ f' cb' q' tk', (∀ s', runs (st f' q' 0 m cb' ft_none ia AtPick tk' tr) s' → runs (st (put p x f) q 1 p cb ft ia (Leaving k c) tk tr) s') ∧
    good f' idle cb' q' (bs ++ left_over (m_state x) c) ∧ spare_ok f' cb'.
Proof.
  intros [Hg (x0 & Hx0 & _) Hpi Hpq Hcb] Hne Hni Hst Hr Hft.
  pose (x2 := set_ctx c x). pose (f2 := put p x2 (put p x f)).
  assert (Hp2 : heap f2 !! p = Some x2) by apply heap_put_eq.
  assert (Hg2 : good f2 idle cb q bs).
  { apply good_put; try done; [apply good_put; eauto|rewrite heap_put_eq; eauto]. }
  assert (Hk : if k then cb = Some p ∧ ft = ft_none else ft_fiber ft = Some p) by by destruct k.
  destruct (step_judge f2 q cb ft ia k p x2 tk tr Hp2 Hst Hk) as [tk' Hj].
  assert (Hruns : ∀ s', runs (judged k p x2 f2 q cb ft ia tk' tr) s' → runs (st (put p x f) q 1 p cb ft ia (Leaving k c) tk tr) s').
  { intros s' Hs'. eapply runs_step; [apply step_leave, heap_put_eq|]. eapply runs_step; [|eapply runs_step; [exact Hj|exact Hs']].
    unfold step. do_step. cbn [w_pc]. do_step. reflexivity. }
  assert (Hsp : ∀ y, k = false → (∀ c, cb = Some c → c ≠ p) ∧ spare_ok (put p y f2) cb ∧ spare_ok f2 cb).
  { intros y ->. assert (Hne' : ∀ c, cb = Some c → c ≠ p) by (intros c' Hc'; by apply Hcb).
    assert (spare_ok f2 cb) by (apply spare_put; [apply spare_put|]; [|done..]; intros c' Hc'; by apply Hcb).
    split; [done|]. split; [by apply spare_put|done]. }
  unfold judged in Hruns. change (m_state x2) with (m_state x) in Hruns. destruct (m_state x) eqn:Hs; try done.
  - exists (put p (set_state HOLD x2) f2), (if k then None else cb), q, tk'. cbn [left_over]. rewrite app_nil_r.
    split; [exact Hruns|]. pose proof (good_put f2 cb q bs p (set_state HOLD x2) Hg2 ltac:(eauto) Hpi Hpq) as Hg3.
    destruct k; [split; [by eapply good_none|by intros ? [=]]|]. split; [done|]. by apply Hsp.
  - exists (if k then put p (set_state INIT (set_ctx CtxMain (set_cb None x2))) f2 else f2), cb, q, tk'. cbn [left_over]. rewrite app_nil_r.
    split; [exact Hruns|]. destruct k; [|split; [done|by apply (Hsp x)]]. split; [by apply good_put; eauto|].
    subst cb. intros c' [= <-]. eexists. split; [apply heap_put_eq|]. done.
  - destruct (Hr eq_refl) as [b ->]. exists f2, (if k then None else cb), (q ++ [mkFT (Some p) None (-1)]), tk'. cbn [left_over].
    split; [exact Hruns|]. destruct k.
    + split; [|by intros ? [=]]. apply (good_push f2 None q bs p x2 b); try done. by eapply good_none.
    + destruct (Hsp x eq_refl) as (Hne' & _ & Hsp'). split; [|done]. by apply (good_push f2 cb q bs p x2 b).
  - exists (if k then put p (set_state INIT (set_ctx CtxMain (set_cb None x2))) f2 else f2), cb, q, tk'. cbn [left_over]. rewrite app_nil_r.
    split; [exact Hruns|]. destruct k; [|split; [done|by apply (Hsp x)]]. split; [by apply good_put; eauto|].
    subst cb. intros c' [= <-]. eexists. split; [apply heap_put_eq|]. done.
Qed.

Lemma running_put f cb q bs k p x : running f cb q bs k p → good (put p x f) idle cb q bs.
Proof. intros [Hg (y & Hy & _) Hpi Hpq _]. apply good_put; eauto. Qed.

(** A whole turn of the script [b] on fiber [p]. *)
Lemma body_turn b : ∀ f cb q bs k p ft ia tk tr, plain b = true → running f cb q bs k p →
  (if k then ft = ft_none else ft_fiber ft = Some p) →
  ∃ f' cb' q' tk', (∀ s', runs (st f' q' 0 m cb' ft_none ia AtPick tk' (tr ++ (turn b).1)) s' →
      runs (st f q 1 p cb ft ia (InTask k b) tk tr) s') ∧
    good f' idle cb' q' (bs ++ (turn b).2) ∧ spare_ok f' cb'.
Proof.
  induction b as [| |n b IH|b IH|b IH|t th b IH|th b IH]; intros f cb q bs k p ft ia tk tr Hpl Hr Hft;
    destruct (r_fiber _ _ _ _ _ _ Hr) as (x & Hx & Hxs & Hxk); cbn [turn fst snd plain] in *; rewrite ?app_nil_r.
  - destruct (leave_turn f cb q bs k p (set_state TERM (set_cb None x)) ft ia CtxDead tk tr) as (f' & cb' & q' & tk' & Hl & Hg & Hs); try done.
    rewrite ?app_nil_r in Hg. exists f', cb', q', tk'. split; [|done]. intros s' Hs'. eapply runs_step; [|by apply Hl].
    unfold step. do_step. cbn [w_pc run_body]. op_step main_return_ok. done.
  - destruct (leave_turn f cb q bs k p (set_state EXCEPT x) ft ia CtxDead tk tr) as (f' & cb' & q' & tk' & Hl & Hg & Hs); try done.
    rewrite ?app_nil_r in Hg. exists f', cb', q', tk'. split; [|done]. intros s' Hs'. eapply runs_step; [|by apply Hl].
    unfold step. do_step. cbn [w_pc run_body]. op_step main_throw_ok. done.
  - destruct (IH f cb q bs k p ft ia tk (tr ++ [n]) Hpl Hr Hft) as (f' & cb' & q' & tk' & Hl & Hg & Hs).
    exists f', cb', q', tk'. split; [|done]. intros s' Hs'. eapply runs_step; [|apply Hl].
    + reflexivity.
    + rewrite <-app_assoc. exact Hs'.
  - destruct (leave_turn f cb q bs k p (set_state READY x) ft ia (CtxBody b) tk tr) as (f' & cb' & q' & tk' & Hl & Hg & Hs); try done; [by eauto|].
    exists f', cb', q', tk'. split; [|done]. intros s' Hs'. eapply runs_step; [|by apply Hl].
    unfold step. do_step. cbn [w_pc run_body]. unfold YieldToReady. op_step Yield_ok. done.
  - destruct (leave_turn f cb q bs k p (set_state HOLD x) ft ia (CtxBody b) tk tr) as (f' & cb' & q' & tk' & Hl & Hg & Hs); try done.
    rewrite ?app_nil_r in Hg. exists f', cb', q', tk'. split; [|done]. intros s' Hs'. eapply runs_step; [|by apply Hl].
    unfold step. do_step. cbn [w_pc run_body]. unfold YieldToHold. op_step Yield_ok. done.
  - destruct t as [| |b']; try done. apply andb_true_iff in Hpl as [[Hth%Z.eqb_eq Hb']%andb_true_iff Hpl]. subst th.
    destruct (schedule_one (task_cb b') f q 1 p cb ft ia (InTask k (BSchedule (TCb b') (-1) b)) tk tr) as [tk1 Hsch]; [right; eauto|].
    destruct (IH f cb (q ++ [task_cb b']) (bs ++ [b']) k p ft ia tk1 tr Hpl) as (f' & cb' & q' & tk' & Hl & Hg & Hs).
    { destruct Hr as [Hg ? ? Hq ?]. constructor; try done; [by apply good_push_cb|].
      unfold ptrs in *. rewrite omap_app. by rewrite app_nil_r. }
    { done. }
    rewrite <-app_assoc in Hg. exists f', cb', q', tk'. split; [|done]. intros s' Hs'. eapply runs_step; [|by apply Hl].
    unfold step. do_step. cbn [w_pc run_body make_ft]. do_step. change (mkFT None (Some (FBody b')) (-1)) with (task_cb b').
    by rewrite (bind_done _ _ _ _ _ Hsch).
  - apply andb_true_iff in Hpl as [Hth%Z.eqb_eq Hpl]. subst th.
    destruct (IH f cb q bs k p ft ia tk tr Hpl Hr Hft) as (f' & cb' & q' & tk' & Hl & Hg & Hs).
    exists f', cb', q', tk'. split; [|done]. intros s' Hs'. eapply runs_step; [|by apply Hl]. reflexivity.
Qed.

Lemma turn_plain b : plain b = true → Forall (λ b, plain b = true) (turn b).2.
Proof.
  induction b as [| |n b IH|b IH|b IH|t th b IH|th b IH]; cbn; intros H; try constructor; auto; try constructor.
  - destruct t; try done. apply andb_true_iff in H as [[_ H1]%andb_true_iff H2]. constructor; auto.
  - apply andb_true_iff in H as [_ H]. auto.
Qed.
Lemma turn_size b : (total (turn b).2 < size b)%nat.
Proof.
  unfold total. induction b as [| |n b IH|b IH|b IH|t th b IH|th b IH]; cbn in *; try lia.
  destruct t; cbn; lia.
Qed.
Lemma total_app l k : total (l ++ k) = (total l + total k)%nat.
Proof. unfold total. induction l as [|x l IH]; cbn in *; [done|]. rewrite IH. lia. Qed.

(** The worker empties the queue, turn by turn. *)
Lemma drain fuel : ∀ bs f cb q cur ft ia tk tr, (total bs ≤ fuel)%nat → Forall (λ b, plain b = true) bs →
  good f idle cb q bs → spare_ok f cb →
  ∃ f' cb' cur' ft' ia' tk' bs', (∀ s', runs (st f' [] 0 cur' cb' ft' ia' AtPick tk' (tr ++ round_robin fuel bs)) s' →
    runs (st f q 0 cur cb ft ia AtPick tk tr) s') ∧ good f' idle cb' [] bs' ∧ (cur' = cur ∨ cur' = m).
Proof.
  induction fuel as [|fuel IH]; intros bs f cb q cur ft ia tk tr Hle Hpl Hg Hsp.
  - assert (bs = []) as -> by (destruct bs as [|b bs]; [done|pose proof (turn_size b); unfold total in *; cbn in *; lia]).
    pose proof (g_queue _ _ _ _ _ Hg) as Hq. inversion Hq; subst.
    exists f, cb, cur, ft, ia, tk, []. split; [|auto]. cbn. by rewrite app_nil_r.
  - destruct bs as [|b bs].
    { pose proof (g_queue _ _ _ _ _ Hg) as Hq. inversion Hq; subst.
      exists f, cb, cur, ft, ia, tk, []. split; [|auto]. cbn. by rewrite app_nil_r. }
    pose proof (g_queue _ _ _ _ _ Hg) as Hq. inversion Hq as [|ft' ? q' ? Hr Hq']; subst. inversion Hpl as [|? ? Hb Hbs]; subst.
    destruct (start_turn f cb ft' q' b bs cur ft ia tk tr Hg Hsp) as (f1 & cb1 & k & p & ft2 & tk1 & Hrun1 & Hrunning & Hft2).
    destruct (body_turn b f1 cb1 q' bs k p ft2 true tk1 tr Hb Hrunning Hft2) as (f2 & cb2 & q2 & tk2 & Hrun2 & Hg2 & Hsp2).
    destruct (IH (bs ++ (turn b).2) f2 cb2 q2 m ft_none true tk2 (tr ++ (turn b).1)) as (f3 & cb3 & cur3 & ft3 & ia3 & tk3 & bs3 & Hrun3 & Hg3 & Hcur).
    + rewrite total_app. pose proof (turn_size b). unfold total in *. cbn in Hle. lia.
    + apply Forall_app. split; [done|]. by apply turn_plain.
    + done.
    + done.
    + exists f3, cb3, cur3, ft3, ia3, tk3, bs3. split; [|destruct Hcur; subst; auto]. intros s' Hs'.
      apply Hrun1, Hrun2, Hrun3. cbn [round_robin]. by rewrite <-app_assoc.
Qed.
End steps.

(** From the empty queue with [stop] requested, the idle fiber ends and the thread leaves [run]. *)
Lemma finish f m idle cb cur ft ia tk tr bs : good f idle cb [] bs → cur = m →
  ∃ s', runs (one f [] 0 0 true cur m idle cb ft ia AtPick tk tr) s' ∧
    trace s' = tr ∧ (w_pc <$> workers s') = [Exited] ∧ m_fibers s' = [] ∧ m_activeThreadCount s' = 0 ∧ m_idleThreadCount s' = 0.
Proof.
  intros Hg ->. destruct (g_idle _ _ _ _ _ Hg) as (x & Hx & Hok).
  assert (Hne : m_state x ≠ EXEC ∧ m_state x ≠ TERM) by (destruct Hok as [-> | ->]; done). destruct Hne as [Hne Hnt].
  pose (x1 := set_state EXEC x). pose (f1 := put idle x1 f).
  pose (x2 := set_state TERM (set_cb None x1)). pose (f2 := put idle x2 f1).
  pose (x3 := set_ctx CtxDead x2). pose (f3 := put idle x3 f2).
  assert (H1 : heap f1 !! idle = Some x1) by apply heap_put_eq. assert (H2 : heap f2 !! idle = Some x2) by apply heap_put_eq.
  assert (H3 : heap f3 !! idle = Some x3) by apply heap_put_eq.
  exists (one f3 [] 0 0 true m m idle cb ft_none false Exited tk tr). split; [|done].
  apply (runs_step _ (one f [] 0 0 true m m idle cb ft_none false AtDispatch tk tr)); [reflexivity|].
  apply (runs_step _ (one f1 [] 0 1 true idle m idle cb ft_none false InIdle tk tr)).
  { unfold step. do_step. cbn [w_pc]. unfold run_dispatch. do_step. do_step. cbn [w_ft w_is_active ft_cb ft_none ft_fiber w_idle].
    erewrite bind_done by (apply on_one; by apply getState_ok). rewrite bool_decide_false by done. do_step.
    change (set_idleCount _ _) with (one f [] 0 1 true m m idle cb ft_none false AtDispatch tk tr).
    unfold one, on, mbind, M_bind. cbn [workers lookup list_lookup store w_tls].
    change (mkLocals (Some m) (Some m) (Some m)) with (L m m). rewrite (swapIn_ok m f idle x Hx m Hne). reflexivity. }
  apply (runs_step _ (one f3 [] 0 1 true m m idle cb ft_none false AfterIdle tk tr)).
  { unfold step. do_step. cbn [w_pc]. unfold idle_step. do_step. cbn [stopping one m_autoStop m_stopping m_fibers m_activeThreadCount].
    change (if _ && _ then ?a else _) with a. rewrite !bind_assoc.
    unfold one, on, mbind, M_bind. cbn [workers lookup list_lookup store w_tls].
    change (mkLocals (Some idle) (Some m) (Some m)) with (L m idle). rewrite (main_return_ok m f1 idle x1 H1).
    cbn -[put]. change (mkLocals (Some idle) (Some m) (Some m)) with (L m idle).
    change (put idle _ f1) with f2. by rewrite (swapOut_ok m f2 idle x2 H2). }
  apply (runs_step _ (one f3 [] 0 0 true m m idle cb ft_none false AtPick tk tr)).
  { unfold step. do_step. cbn [w_pc]. do_step. change (set_idleCount _ _) with (one f3 [] 0 0 true m m idle cb ft_none false AfterIdle tk tr).
    cbn [w_idle]. erewrite bind_done by (apply on_one; by apply getState_ok). done. }
  apply (runs_step _ (one f3 [] 0 0 true m m idle cb ft_none false AtDispatch tk tr)); [reflexivity|].
  apply (runs_step _ (one f3 [] 0 0 true m m idle cb ft_none false Exited tk tr)); [|apply runs_refl].
  unfold step. do_step. cbn [w_pc]. unfold run_dispatch. do_step. do_step. cbn [w_ft w_is_active ft_cb ft_none ft_fiber w_idle].
  erewrite bind_done by (apply on_one; by apply getState_ok). done.
Qed.

Lemma exec_app es1 es2 s s1 : exec stack es1 s = Done s1 () → exec stack (es1 ++ es2) s = exec stack es2 s1.
Proof.
  revert s. induction es1 as [|e es1 IH]; intros s H; [by injection H as <-|]. cbn in *.
  apply bind_inv in H as (s2 & [] & H1 & H). rewrite (bind_done _ _ _ _ _ H1). by apply IH.
Qed.

Definition cold (q : list FiberAndThread) (au : bool) (tk : Z) : Scheduler :=
  mkScheduler (mkFibers ∅ 1 0 0) q None 1 0 0 au au (-1) [new_worker AtStart] tk [].
Lemma exec_schedules bs : ∀ q tk, ∃ tk', exec stack ((λ b, Schedule (task_cb b)) <$> bs) (cold q false tk) = Done (cold (q ++ (task_cb <$> bs)) false tk') ().
Proof.
  induction bs as [|b bs IH]; intros q tk; [exists tk; by rewrite app_nil_r|].
  destruct (IH (q ++ [task_cb b]) (if bool_decide (length q = 0%nat) then tk + 1 else tk)) as [tk' H]. exists tk'. rewrite <-app_assoc in H.
  cbn [fmap list_fmap exec exec1].
  rewrite (bind_done _ _ _ (cold (q ++ [task_cb b]) false (if bool_decide (length q = 0%nat) then tk + 1 else tk)) ()); [exact H|]. unfold schedule. erewrite bind_done by reflexivity.
  cbn -[length]. by destruct (bool_decide _).
Qed.

Definition warm : Fibers :=
  mkFibers (<[2 := mkFiber (u64 1) stack INIT CtxMain true (Some FIdle)]> (<[1 := mkFiber 0 0 EXEC CtxThread false None]> ∅)) 3 (u64 1) (u64 (u64 1 + 1)).
Lemma warm_good bs : good warm 2 None (task_cb <$> bs) bs.
Proof.
  assert (Hp : ptrs (task_cb <$> bs) = []) by (induction bs; done). constructor; rewrite ?Hp; try done.
  - intros p Hp'. cbn in *. rewrite !lookup_insert_ne by lia. apply lookup_empty.
  - induction bs; constructor; [by left|auto].
  - apply NoDup_nil_2.
  - eexists. split; [apply lookup_insert_eq|]. by left.
  - apply not_elem_of_nil.
Qed.
End rr.

(** C5: a scheduler with one worker thread runs scripts exactly as a FIFO
    round-robin queue does: after the callbacks [bs] are scheduled and [stop] is
    called, the thread empties the queue - each turn runs the script at the head up
    to its next yield, a fiber that yielded [READY] queues up behind what it
    scheduled, fibers of finished callbacks are reused - and then ends, with no
    assertion failing on the way. *)
Theorem one_worker_round_robin stack bs : Forall (λ b, plain b = true) bs →
  ∃ n s, started stack 1 (((λ b, Schedule (task_cb b)) <$> bs) ++ Stop false :: moves (replicate n 0%nat)) = Done s () ∧
    trace s = round_robin (total bs) bs ∧ m_fibers s = [] ∧ m_activeThreadCount s = 0 ∧ (w_pc <$> workers s) = [Exited].
Proof.
  intros Hpl. destruct (exec_schedules stack bs [] 0) as [tk Hsch]. cbn [app] in Hsch.
  destruct (drain stack 1 2 true (total bs) bs (warm stack) None (task_cb <$> bs) 1 ft_none false (tk + 1) [])
    as (f & cb & cur & ft & ia & tk' & bs' & Hrun & Hg & Hcur); [done|done|apply warm_good|by intros ? [=]|].
  destruct (finish stack f 1 2 cb cur ft ia tk' (round_robin (total bs) bs) bs' Hg) as (s' & Hfin & Htr & Hpc & Hq & Hact & _); [by destruct Hcur|].
  destruct (Hrun s' Hfin) as [n Hn]. exists (S n), s'. split; [|done].
  assert (Hstart : started stack 1 (((λ b, Schedule (task_cb b)) <$> bs) ++ Stop false :: moves (replicate (S n) 0%nat)) =
    exec stack (((λ b, Schedule (task_cb b)) <$> bs) ++ Stop false :: moves (replicate (S n) 0%nat)) (cold [] false 0)) by reflexivity.
  rewrite Hstart, (exec_app stack _ _ _ _ Hsch). cbn [exec exec1 moves replicate fmap list_fmap].
  rewrite (bind_done _ _ _ (cold (task_cb <$> bs) true (tk + 1)) ()) by reflexivity.
  rewrite (bind_done _ _ _ (one (warm stack) (task_cb <$> bs) 0 0 true 1 1 2 None ft_none false AtPick (tk + 1) []) ()) by reflexivity.
  exact Hn.
Qed.

Lemma one_worker_round_robin_witness : ∃ n s,
  started 131072 1 ([Schedule (task_cb (BEmit 1 (BYieldToReady (BEmit 2 BRet)))); Schedule (task_cb (BSchedule (TCb (BEmit 3 BThrow)) (-1) (BEmit 4 BRet)))]
    ++ Stop false :: moves (replicate n 0%nat)) = Done s () ∧ trace s = [1; 4; 2; 3].
Proof.
  destruct (one_worker_round_robin 131072 [BEmit 1 (BYieldToReady (BEmit 2 BRet)); BSchedule (TCb (BEmit 3 BThrow)) (-1) (BEmit 4 BRet)])
    as (n & s & H & Ht & _); [repeat constructor|].
  exists n, s. split; [exact H|]. rewrite Ht. vm_compute. reflexivity.
Defined.
