(* ===== verification/SchedulerWork.v ===== *)
(** * SchedulerWork: any number of workers, in any interleaving, do all the work once

    The scripts of this file schedule callbacks, pinned to a thread or not, and yield;
    fibers are known to the scheduler only.  Then no two places of the scheduler share a
    fiber, and what is still to be done is what its tasks and threads hold. *)
From S2P Require Import Prelude Fiber Scheduler SchedulerFacts SchedulerRR.
Open Scope Z_scope.

Section pins.
(** The threads that callbacks may be pinned to; [-1] is none. *)
Context (pin : Z → bool).

Fixpoint simple (b : body) : bool :=
  match b with
  | BRet | BThrow => true
  | BEmit _ k | BYieldToReady k | BYieldToHold k => simple k
  | BSchedule (TCb b) thread k => pin thread && simple b && simple k
  | BSchedule _ _ _ => false
  | BSwitchTo thread k => (thread =? -1) && simple k
  end.
(** Everything a script does, and what it schedules; nobody wakes a fiber that holds. *)
Fixpoint effects (b : body) : list Z :=
  match b with
  | BRet | BThrow | BYieldToHold _ => []
  | BEmit n k => n :: effects k
  | BSchedule (TCb b) _ k => effects b ++ effects k
  | BYieldToReady k | BSchedule _ _ k | BSwitchTo _ k => effects k
  end.

(** What is still to be done by a fiber that is not running, a task and a worker. *)
Definition ctx_work (st : State) (c : ctx) : list Z := match st, c with READY, CtxBody b => effects b | _, _ => [] end.
Definition fiber_work (h : gmap Z Fiber) (p : Z) : list Z := match h !! p with Some f => ctx_work (m_state f) (m_ctx f) | None => [] end.
Definition task_work (h : gmap Z Fiber) (ft : FiberAndThread) : list Z :=
  match ft_fiber ft, ft_cb ft with
  | Some p, _ => fiber_work h p
  | None, Some (FBody b) => effects b
  | None, _ => []
  end.
Definition worker_work (h : gmap Z Fiber) (w : worker) : list Z :=
  match w_pc w with
  | AtDispatch => task_work h (w_ft w)
  | InTask _ b => effects b
  | Leaving _ c => match t_fiber (w_tls w) ≫= (h !!.) with Some f => ctx_work (m_state f) c | None => [] end
  | AfterTask cbf | Judge cbf => match (if cbf then w_cb_fiber w else ft_fiber (w_ft w)) with Some p => fiber_work h p | None => [] end
  | _ => []
  end.
Definition queue_work (h : gmap Z Fiber) (q : list FiberAndThread) : list Z := concat (task_work h <$> q).
Definition pending (s : Scheduler) : list Z :=
  queue_work (heap (store s)) (m_fibers s) ++ concat (worker_work (heap (store s)) <$> workers s).

(** A bound on the moves that all this takes, and where a worker is that does nothing of it, with
    whether its idle fiber has ended. *)
Definition ctx_cost (st : State) (c : ctx) : nat := match st, c with READY, CtxBody b => 6 * size b | _, _ => 0 end.
Definition fiber_cost (h : gmap Z Fiber) (p : Z) : nat := match h !! p with Some f => ctx_cost (m_state f) (m_ctx f) | None => 0 end.
Definition task_cost (h : gmap Z Fiber) (ft : FiberAndThread) : nat :=
  match ft_fiber ft, ft_cb ft with
  | Some p, _ => 5 + fiber_cost h p
  | None, Some (FBody b) => 5 + 6 * size b
  | None, _ => 0
  end.
Definition held_cost (h : gmap Z Fiber) (w : worker) (cbf : bool) : nat :=
  match (if cbf then w_cb_fiber w else ft_fiber (w_ft w)) with Some p => fiber_cost h p | None => 0 end.
Definition worker_cost (h : gmap Z Fiber) (w : worker) : nat :=
  match w_pc w with
  | AtDispatch => Nat.pred (task_cost h (w_ft w))
  | InTask _ b => 3 + 6 * size b
  | Leaving _ c => 8 + match t_fiber (w_tls w) ≫= (h !!.) with Some f => ctx_cost (m_state f) c | None => 0 end
  | AfterTask cbf => 7 + held_cost h w cbf
  | Judge cbf => 6 + held_cost h w cbf
  | _ => 0
  end.
Definition queue_cost (h : gmap Z Fiber) (q : list FiberAndThread) : nat := sum_list (task_cost h <$> q).
Definition cost (s : Scheduler) : nat :=
  queue_cost (heap (store s)) (m_fibers s) + sum_list (worker_cost (heap (store s)) <$> workers s).

Inductive stage := SWork (ended : bool) | SStart | SPick (ended : bool) | SDispatch (ended : bool) | SIdle | SAfter (ended : bool) | SExited.
Definition stage_of (h : gmap Z Fiber) (w : worker) : stage :=
  let ended := match h !! w_idle w with Some x => bool_decide (m_state x = TERM) | None => false end in
  match w_pc w with
  | AtStart => SStart
  | AtPick => SPick ended
  | AtDispatch => if w_is_active w then SWork ended else SDispatch ended
  | InIdle => SIdle
  | AfterIdle => SAfter ended
  | NotStarted | Exited => SExited
  | _ => SWork ended
  end.
(** It has a task, or looks for one. *)
Definition works (ended : bool) (st : stage) : Prop := st = SWork ended ∨ st = SPick ended.
(** What a worker that found nothing does next; [stop] when [stopping()] is true. *)
Definition next (stop : bool) (st : stage) : stage :=
  match st with
  | SStart => SPick false
  | SPick ended => SDispatch ended
  | SDispatch ended => if ended then SExited else SIdle
  | SIdle => SAfter stop
  | SAfter ended => SPick ended
  | _ => st
  end.

(** ** Ownership *)
(** A queued task, and a worker, with the fibers that only it knows. *)
Inductive queued (h : gmap Z Fiber) : FiberAndThread → list Z → Prop :=
| queued_cb b th : simple b = true → pin th = true → queued h (mkFT None (Some (FBody b)) th) []
| queued_fiber p f b : h !! p = Some f → m_state f = READY → m_ctx f = CtxBody b → simple b = true → m_stack f = true →
    queued h (mkFT (Some p) None (-1)) [p].
Definition spares (h : gmap Z Fiber) (l : list Z) : Prop := Forall (λ c, ∃ y, h !! c = Some y ∧ spare y) l.
(** The worker runs fiber [p]: as its [cb_fiber] or as the fiber of its task. *)
Definition held (k : bool) (cb : option Z) (ft : FiberAndThread) (p : Z) (l : list Z) : Prop :=
  if k then cb = Some p ∧ ft = ft_none ∧ l = [] else ft_fiber ft = Some p ∧ l = option_list cb.
(** A fiber that has left, to be resumed at [c]. *)
Definition parked (x : Fiber) (c : ctx) : Prop := m_stack x = true ∧
  (finished (m_state x) = true ∨ m_state x = HOLD ∨ m_state x = READY ∧ ∃ b, c = CtxBody b ∧ simple b = true).
Definition between (p : pc) (ia : bool) : Prop := match p with AtPick | AfterIdle | Exited => True | AtDispatch => ia = false | _ => False end.
Definition behind (p : pc) (k : bool) : Prop := p = AfterTask k ∨ p = Judge k.

Inductive worker_ok (h : gmap Z Fiber) : worker → list Z → Prop :=
| ok_start : worker_ok h (new_worker AtStart) []
| ok_between m idle x cb ia p : h !! idle = Some x → m_state x ≠ EXEC → spares h (option_list cb) → between p ia →
    worker_ok h (mkWorker (L m m) idle cb ft_none ia p) (idle :: option_list cb)
| ok_task m idle x cb ft o : h !! idle = Some x → m_state x ≠ EXEC → spares h (option_list cb) → queued h ft o →
    worker_ok h (mkWorker (L m m) idle cb ft true AtDispatch) (idle :: option_list cb ++ o)
| ok_run m idle x cb ft ia k p f b l : h !! idle = Some x → m_state x ≠ EXEC → spares h l → held k cb ft p l →
    h !! p = Some f → m_state f = EXEC → m_stack f = true → simple b = true →
    worker_ok h (mkWorker (L m p) idle cb ft ia (InTask k b)) (idle :: p :: l)
| ok_leaving m idle x cb ft ia k p f c l : h !! idle = Some x → m_state x ≠ EXEC → spares h l → held k cb ft p l →
    h !! p = Some f → parked f c →
    worker_ok h (mkWorker (L m p) idle cb ft ia (Leaving k c)) (idle :: p :: l)
| ok_behind m idle x cb ft ia k p f l pc : h !! idle = Some x → m_state x ≠ EXEC → spares h l → held k cb ft p l →
    h !! p = Some f → parked f (m_ctx f) → behind pc k →
    worker_ok h (mkWorker (L m m) idle cb ft ia pc) (idle :: p :: l)
| ok_idle m idle x cb ia : h !! idle = Some x → m_state x = EXEC → spares h (option_list cb) →
    worker_ok h (mkWorker (L m idle) idle cb ft_none ia InIdle) (idle :: option_list cb).

(** Other fibers do not matter. *)
Section frame.
Context (h h' : gmap Z Fiber).
Lemma fiber_work_frame p : h' !! p = h !! p → fiber_work h' p = fiber_work h p.
Proof. unfold fiber_work. by intros ->. Qed.
Lemma queued_frame ft o : (∀ a, a ∈ o → h' !! a = h !! a) → queued h ft o → queued h' ft o ∧ task_work h' ft = task_work h ft ∧ task_cost h' ft = task_cost h ft.
Proof.
  intros Hf H. destruct H as [b th Hb|p f b Hp Hs Hc Hb Hst]; (split; [|unfold task_cost; cbn; try done]).
  - by constructor.
  - eapply queued_fiber; try done. rewrite Hf; [done|set_solver].
  - unfold fiber_work, fiber_cost. by rewrite Hf by set_solver.
Qed.
Lemma spares_frame l : (∀ a, a ∈ l → h' !! a = h !! a) → spares h l → spares h' l.
Proof. unfold spares. rewrite !Forall_forall. intros Hf H a Ha. destruct (H a Ha) as (y & Hy & Hs). exists y. by rewrite Hf. Qed.
Lemma queue_frame q qo : (∀ a, a ∈ concat qo → h' !! a = h !! a) → Forall2 (queued h) q qo →
  Forall2 (queued h') q qo ∧ queue_work h' q = queue_work h q ∧ queue_cost h' q = queue_cost h q.
Proof.
  intros Hf H. induction H as [|ft o q qo Hq Hr IH]; [by split; [constructor|]|]. cbn in Hf.
  destruct (queued_frame ft o) as (H1 & H2 & H5); [intros; apply Hf; set_solver|done|].
  destruct IH as (H3 & H4 & H6); [intros; apply Hf; set_solver|]. split; [by constructor|]. unfold queue_work, queue_cost in *. cbn. by rewrite H2, H4, H5, H6.
Qed.
Lemma held_in k cb ft p l : held k cb ft p l → (if k then cb else ft_fiber ft) = Some p.
Proof. by destruct k; intros [? ?]. Qed.
Lemma worker_frame w o : (∀ a, a ∈ o → h' !! a = h !! a) → worker_ok h w o → worker_ok h' w o ∧
  worker_work h' w = worker_work h w ∧ worker_cost h' w = worker_cost h w ∧ stage_of h' w = stage_of h w.
Proof.
  intros Hf H.
  assert (Hstage : stage_of h' w = stage_of h w) by (unfold stage_of; destruct H; cbn [w_idle w_pc]; rewrite ?Hf by set_solver; done).
  split; [|rewrite Hstage; split; [|split; [|done]]]; clear Hstage; destruct H;
    try (unfold worker_work, worker_cost, held_cost; cbn [w_pc w_ft w_tls t_fiber L w_cb_fiber]; try done).
  all: try (by econstructor; try done; try (apply spares_frame; [|done]; intros; apply Hf; set_solver); rewrite Hf by set_solver).
  - econstructor; [rewrite Hf by set_solver; done|done|apply spares_frame; [intros; apply Hf; set_solver|done]|].
    eapply queued_frame; [|done]. intros; apply Hf; set_solver.
  - by destruct p.
  - eapply queued_frame; [|done]. intros; apply Hf; set_solver.
  - cbn. rewrite Hf by set_solver. done.
  - match goal with B : behind _ _, E : held _ _ _ _ _ |- _ => apply held_in in E; destruct B as [-> | ->]; cbn; rewrite E end;
      apply fiber_work_frame, Hf; set_solver.
  - by destruct p.
  - f_equal. eapply queued_frame; [|done]. intros; apply Hf; set_solver.
  - cbn. rewrite Hf by set_solver. done.
  - match goal with B : behind _ _, E : held _ _ _ _ _ |- _ => apply held_in in E; destruct B as [-> | ->]; cbn; rewrite E end;
      unfold fiber_cost; by rewrite Hf by set_solver.
Qed.
End frame.

(** ** The invariant *)
(** [all] is what has been asked for; [stp] and [au] are free. *)
Record inv (s : Scheduler) (all : list Z) (qo wo : list (list Z)) : Prop := {
  i_fresh : ∀ a, next_addr (store s) ≤ a → heap (store s) !! a = None;
  i_queue : Forall2 (queued (heap (store s))) (m_fibers s) qo;
  i_workers : Forall2 (worker_ok (heap (store s))) (workers s) wo;
  i_nodup : NoDup (concat qo ++ concat wo);
  i_work : trace s ++ pending s ≡ₚ all;
  i_root : m_rootFiber s = None ∧ m_rootThread s = -1
}.

Lemma sum_list_app' (l k : list nat) : sum_list (l ++ k) = (sum_list l + sum_list k)%nat.
Proof. induction l as [|x l IH]; [done|]. cbn in *. rewrite IH. lia. Qed.
Lemma queued_dom h ft o a : queued h ft o → a ∈ o → is_Some (h !! a).
Proof. intros H. destruct H as [|p f b Hp]; [set_solver|]. intros ->%list_elem_of_singleton. by rewrite Hp. Qed.
Lemma worker_dom h w o a : worker_ok h w o → a ∈ o → is_Some (h !! a).
Proof.
  intros H Ha.
  assert (Hsp : ∀ l, spares h l → a ∈ l → is_Some (h !! a)).
  { intros l Hl Hin. unfold spares in Hl. rewrite Forall_forall in Hl. destruct (Hl a Hin) as (y & Hy & _). by rewrite Hy. }
  destruct H; rewrite ?elem_of_cons, ?elem_of_app in Ha; destruct_or?; subst; eauto; try set_solver.
  eapply queued_dom; eauto.
Qed.

(** One worker in focus: [ro], [rw] and [rc] are the fibers, the work and the cost of the others. *)
Lemma inv_focus s all qo wo i w : inv s all qo wo → workers s !! i = Some w →
  let h := heap (store s) in
  ∃ o ro rw rc, worker_ok h w o ∧ NoDup (concat qo ++ o ++ ro) ∧ (∀ a, a ∈ concat qo ++ o ++ ro → is_Some (h !! a)) ∧
    trace s ++ queue_work h (m_fibers s) ++ worker_work h w ++ rw ≡ₚ all ∧
    cost s = (queue_cost h (m_fibers s) + worker_cost h w + rc)%nat ∧
    ∀ s' w' o' qo' all', let h' := heap (store s') in
      workers s' = <[i := w']> (workers s) → m_rootFiber s' = None ∧ m_rootThread s' = -1 →
      (∀ a, next_addr (store s') ≤ a → h' !! a = None) → (∀ a, a ∈ ro → h' !! a = h !! a) →
      Forall2 (queued h') (m_fibers s') qo' → worker_ok h' w' o' → NoDup (concat qo' ++ o' ++ ro) →
      trace s' ++ queue_work h' (m_fibers s') ++ worker_work h' w' ++ rw ≡ₚ all' →
      ∃ wo', inv s' all' qo' wo' ∧ cost s' = (queue_cost h' (m_fibers s') + worker_cost h' w' + rc)%nat ∧
        ∀ j v, j ≠ i → workers s !! j = Some v → stage_of h' v = stage_of h v.
Proof.
  intros [Hfr Hq Hw Hnd Hwk Hroot] Hi h.
  destruct (list_elem_of_split_length _ _ _ Hi) as (w1 & w2 & Hws & Hlen).
  rewrite Hws in Hw. apply Forall2_app_inv_l in Hw as (o1 & o2' & Hw1 & Hw2 & ->). apply Forall2_cons_inv_l in Hw2 as (o & o2 & Ho & Hw2 & ->).
  assert (Hperm : concat qo ++ concat (o1 ++ o :: o2) ≡ₚ concat qo ++ o ++ concat (o1 ++ o2)).
  { rewrite !concat_app. cbn. solve_Permutation. }
  exists o, (concat (o1 ++ o2)), (concat (worker_work h <$> (w1 ++ w2))), (sum_list (worker_cost h <$> (w1 ++ w2))). split; [done|]. split; [by rewrite <-Hperm|]. split; [|split; [|split]].
  - intros a Ha. rewrite <-Hperm in Ha. apply elem_of_app in Ha as [Ha|Ha].
    + apply list_elem_of_In, in_concat in Ha as (x & Hx%list_elem_of_In & Ha%list_elem_of_In).
      apply list_elem_of_lookup in Hx as [j Hx]. destruct (Forall2_lookup_r _ _ _ _ _ Hq Hx) as (ft & _ & Hft). eapply queued_dom; eauto.
    + apply list_elem_of_In, in_concat in Ha as (x & Hx%list_elem_of_In & Ha%list_elem_of_In).
      apply list_elem_of_lookup in Hx as [j Hx]. assert (Hw : Forall2 (worker_ok h) (w1 ++ w :: w2) (o1 ++ o :: o2)) by (apply Forall2_app; [done|by constructor]).
      destruct (Forall2_lookup_r _ _ _ _ _ Hw Hx) as (v & _ & Hv). eapply worker_dom; eauto.
  - rewrite <-Hwk. unfold pending. rewrite Hws. fold h. rewrite !fmap_app, !concat_app. cbn. solve_Permutation.
  - unfold cost. rewrite Hws. fold h. rewrite !fmap_app, !sum_list_app'. cbn. lia.
  - intros s' w' o' qo' all' h' Hws' Hroot' Hfr' Hag Hq' Ho' Hnd' Hwk'.
    assert (Hfrm : ∀ ws os, Forall2 (worker_ok h) ws os → (∀ a, a ∈ concat os → a ∈ concat (o1 ++ o2)) →
      Forall2 (worker_ok h') ws os ∧ worker_work h' <$> ws = worker_work h <$> ws ∧ worker_cost h' <$> ws = worker_cost h <$> ws ∧
        Forall (λ v, stage_of h' v = stage_of h v) ws).
    { intros ws os H. induction H as [|v x ws os Hv _ IH]; intros Hin; [done|]. cbn in Hin.
      destruct (worker_frame h h' v x) as (? & ? & ? & ?); [intros; apply Hag, Hin; set_solver|done|].
      destruct IH as (? & ? & ? & ?); [intros; apply Hin; set_solver|]. cbn. split; [by constructor|]. split; [by f_equal|]. split; [by f_equal|by constructor]. }
    destruct (Hfrm w1 o1 Hw1) as (Hw1' & Hk1 & Hc1 & Hs1); [intros a; rewrite concat_app; set_solver|].
    destruct (Hfrm w2 o2 Hw2) as (Hw2' & Hk2 & Hc2 & Hs2); [intros a; rewrite concat_app; set_solver|].
    assert (Hws2 : workers s' = w1 ++ w' :: w2).
    { rewrite Hws', Hws, Hlen. rewrite <-(Nat.add_0_r (length w1)) at 1. by rewrite insert_app_r. }
    exists (o1 ++ o' :: o2). split; [|split].
    { constructor; try done.
      + fold h'. rewrite Hws2. apply Forall2_app; [done|by constructor].
      + assert (concat qo' ++ concat (o1 ++ o' :: o2) ≡ₚ concat qo' ++ o' ++ concat (o1 ++ o2)) as -> by (rewrite !concat_app; cbn; solve_Permutation). done.
      + rewrite <-Hwk'. unfold pending. rewrite Hws2. fold h'. rewrite !fmap_app, Hk1. cbn. rewrite Hk2, !concat_app. cbn. solve_Permutation. }
    + unfold cost. rewrite Hws2. fold h'. rewrite !fmap_app, Hc1. cbn. rewrite Hc2, !sum_list_app'. cbn. lia.
    + intros j v Hj Hv. rewrite Hws in Hv. assert (Hin : v ∈ w1 ++ w2).
      { apply lookup_app_Some in Hv as [Hv|[Hle Hv]]; [apply elem_of_app; left; by eapply list_elem_of_lookup_2|].
        destruct (j - length w1)%nat as [|j'] eqn:E; [lia|]. apply elem_of_app. right. by eapply list_elem_of_lookup_2. }
      rewrite Forall_forall in Hs1. rewrite Forall_forall in Hs2. apply elem_of_app in Hin as [Hin|Hin]; auto.
Qed.

(** ** The steps of one worker *)
Section one_step.
Context (stack n : Z) (stp au : bool) (ws : list worker) (i : nat) (Hi : (i < length ws)%nat).
#[local] Set Default Proof Using "Hi".
Notation st f q a d w tk tr := (mkScheduler f q None n a d stp au (-1) (<[i:=w]> ws) tk tr).

Lemma at_on {A} (op : M env A) f q a d w tk tr f' l' r : op (mkEnv f (w_tls w)) = Done (mkEnv f' l') r →
  on i op (st f q a d w tk tr) = Done (st f' q a d (w_set_tls l' w) tk tr) r.
Proof. intros H. unfold on. cbn [workers store]. rewrite list_lookup_insert_eq by done. rewrite H. cbn. by rewrite list_insert_insert_eq. Qed.
Lemma alter_focus g w : alter g i (<[i:=w]> ws) = <[i:=g w]> ws.
Proof. apply list_eq. intros j. destruct (decide (j = i)) as [->|Hj]; [by rewrite list_lookup_alter_eq, !list_lookup_insert_eq by done|]. by rewrite list_lookup_alter_ne, !list_lookup_insert_ne by done. Qed.
Lemma at_upd g f q a d w tk tr : upd i g (st f q a d w tk tr) = Done (st f q a d (g w) tk tr) ().
Proof. unfold upd, modify, set_workers. cbn. f_equal. f_equal. apply alter_focus. Qed.
Lemma at_goto p f q a d w tk tr : goto i p (st f q a d w tk tr) = Done (st f q a d (w_set_pc p w) tk tr) ().
Proof. apply at_upd. Qed.
Lemma at_worker f q a d w tk tr : worker_of i (st f q a d w tk tr) = Done (st f q a d w tk tr) w.
Proof. unfold worker_of. cbn. by rewrite list_lookup_insert_eq. Qed.
Lemma at_schedule ft f q a d w tk tr : is_Some (ft_fiber ft) ∨ is_Some (ft_cb ft) →
  ∃ tk', schedule ft (st f q a d w tk tr) = Done (st f (q ++ [ft]) a d w tk' tr) ().
Proof.
  intros Hft. unfold schedule. erewrite bind_done by reflexivity. cbn [m_fibers]. unfold scheduleNoLock.
  assert (Hsel : ∀ b, match ft_fiber ft, ft_cb ft with None, None => (q, b) | _, _ => (q ++ [ft], b) end = (q ++ [ft], b : bool)).
  { intros b. destruct (ft_fiber ft), (ft_cb ft); try done. by destruct Hft as [[? ?]|[? ?]]. }
  rewrite Hsel. erewrite bind_done by reflexivity. destruct (bool_decide _); eexists; reflexivity.
Qed.

(** Step [mv] of the worker leads from one focused state to another, whatever the counters. *)
Definition goes (mv : move) f q w tr f' q' w' tr' : Prop :=
  ∀ a d tk, ∃ a' d' tk', step stack i mv (st f q a d w tk tr) = Done (st f' q' a' d' w' tk' tr') ().

(** Runs an operation of the worker whose result a lemma gives, and goes on. *)
Ltac on_step lem := erewrite bind_done by (apply at_on; eapply lem; first [eassumption|done]).
Ltac run1 := first
  [ rewrite bind_assoc
  | erewrite bind_done by apply at_upd
  | erewrite bind_done by apply at_worker
  | erewrite bind_done by apply at_goto
  | erewrite bind_done by reflexivity ].
Ltac start_step := intros a d tk; unfold step; erewrite bind_done by apply at_worker; cbn [w_pc].
Ltac end_step := do 3 eexists; first [reflexivity|apply at_goto|apply at_upd].

Section task.
Context (m idle : Z) (cb : option Z) (ft : FiberAndThread) (ia : bool) (f : Fibers) (q : list FiberAndThread) (tr : list Z).
Notation wk cur p := (mkWorker (L m cur) idle cb ft ia p).

Lemma go_emit mv k e b p : goes mv f q (wk p (InTask k (BEmit e b))) tr f q (wk p (InTask k b)) (tr ++ [e]).
Proof. start_step. unfold run_body. run1. end_step. Qed.
Lemma go_return mv k p x : heap f !! p = Some x →
  goes mv f q (wk p (InTask k BRet)) tr (put p (set_state TERM (set_cb None x)) f) q (wk p (Leaving k CtxDead)) tr.
Proof. intros Hp. start_step. unfold run_body. on_step main_return_ok. end_step. Qed.
Lemma go_throw mv k p x : heap f !! p = Some x →
  goes mv f q (wk p (InTask k BThrow)) tr (put p (set_state EXCEPT x) f) q (wk p (Leaving k CtxDead)) tr.
Proof. intros Hp. start_step. unfold run_body. on_step main_throw_ok. end_step. Qed.
Lemma go_ready mv k p x b : heap f !! p = Some x → m_state x = EXEC →
  goes mv f q (wk p (InTask k (BYieldToReady b))) tr (put p (set_state READY x) f) q (wk p (Leaving k (CtxBody b))) tr.
Proof. intros Hp He. start_step. unfold run_body, YieldToReady. on_step Yield_ok. end_step. Qed.
Lemma go_hold mv k p x b : heap f !! p = Some x → m_state x = EXEC →
  goes mv f q (wk p (InTask k (BYieldToHold b))) tr (put p (set_state HOLD x) f) q (wk p (Leaving k (CtxBody b))) tr.
Proof. intros Hp He. start_step. unfold run_body, YieldToHold. on_step Yield_ok. end_step. Qed.
Lemma go_schedule mv k p c th b : goes mv f q (wk p (InTask k (BSchedule (TCb c) th b))) tr
  f (q ++ [mkFT None (Some (FBody c)) th]) (wk p (InTask k b)) tr.
Proof.
  start_step. unfold run_body, make_ft. run1.
  destruct (at_schedule (mkFT None (Some (FBody c)) th) f q a d (wk p (InTask k (BSchedule (TCb c) th b))) tk tr) as [tk' Hs]; [right; eauto|].
  rewrite (bind_done _ _ _ _ _ Hs). end_step.
Qed.
Lemma go_switch mv k p b : goes mv f q (wk p (InTask k (BSwitchTo (-1) b))) tr f q (wk p (InTask k b)) tr.
Proof. start_step. unfold run_body. cbn. end_step. Qed.
Lemma go_leave mv k p x c : heap f !! p = Some x →
  goes mv f q (wk p (Leaving k c)) tr (put p (set_ctx c x) f) q (wk m (AfterTask k)) tr.
Proof. intros Hp. start_step. erewrite bind_done by (apply at_on; reflexivity). on_step swapOut_ok. end_step. Qed.
Lemma go_after mv k : goes mv f q (wk m (AfterTask k)) tr f q (wk m (Judge k)) tr.
Proof. start_step. run1. end_step. Qed.
Lemma go_judge mv k p x : heap f !! p = Some x → m_stack x = true → (if k : bool then cb = Some p ∧ ft = ft_none else ft_fiber ft = Some p) →
  let out f' q' cb' := goes mv f q (wk m (Judge k)) tr f' q' (mkWorker (L m m) idle cb' ft_none ia AtPick) tr in
  match m_state x with
  | READY => out f (q ++ [mkFT (Some p) None (-1)]) (if k then None else cb)
  | TERM | EXCEPT => out (if k then put p (set_state INIT (set_ctx CtxMain (set_cb None x))) f else f) q cb
  | _ => out (put p (set_state HOLD x) f) q (if k then None else cb)
  end.
Proof.
  intros Hp Hs Hk out.
  assert (Hsch : ∀ a d tk, ∃ tk', schedule (mkFT (Some p) None (-1)) (st f q a d (wk m (Judge k)) tk tr) =
    Done (st f (q ++ [mkFT (Some p) None (-1)]) a d (wk m (Judge k)) tk' tr) ()) by (intros; apply at_schedule; eauto).
  destruct (m_state x) eqn:Hst; subst out; start_step; cbn [w_cb_fiber w_ft]; destruct (Hsch a d tk) as [tk' Htk]; clear Hsch;
    (destruct k; [destruct Hk as [-> ->]|rewrite Hk]); run1; unfold judge_cb, judge_fiber;
    rewrite bind_assoc; (erewrite bind_done by (apply at_on; apply getState_ok; eassumption)); rewrite Hst;
    rewrite ?bool_decide_eq_true_2, ?bool_decide_eq_false_2 by done; cbn [finished negb]; rewrite ?bind_assoc;
    try rewrite (bind_done _ _ _ _ _ Htk); try (on_step update_ok); try (erewrite bind_done by (apply at_on; apply fiber_reset_ok; [eassumption|done|by rewrite Hst]));
    repeat run1; try end_step.
Qed.
End task.

Lemma go_pick mv m idle cb ia f q tr o q' t : scan (Z.of_nat i) (heap f) q = Some (o, q', t) → (o = None → q' = q) →
  goes mv f q (mkWorker (L m m) idle cb ft_none ia AtPick) tr f q'
    (mkWorker (L m m) idle cb (default ft_none o) (bool_decide (o ≠ None)) AtDispatch) tr.
Proof.
  intros Hs Hq. start_step. unfold run_pick. run1. cbn [store m_fibers]. rewrite Hs. destruct o as [ft|].
  - repeat run1. destruct t; repeat run1; end_step.
  - rewrite Hq by done. repeat run1. destruct t; repeat run1; end_step.
Qed.

(** The fibers a thread begins with: its main fiber and its idle fiber. *)
Definition begun (f : Fibers) : Fibers :=
  mkFibers (<[next_addr f + 1 := mkFiber (u64 (s_fiber_id f + 1)) stack INIT CtxMain true (Some FIdle)]>
    (<[next_addr f := mkFiber 0 0 EXEC CtxThread false None]> (heap f)))
    (next_addr f + 1 + 1) (u64 (s_fiber_id f + 1)) (u64 (u64 (s_fiber_count f + 1) + 1)).
Lemma go_start mv f q tr : goes mv f q (new_worker AtStart) tr (begun f) q
  (mkWorker (L (next_addr f) (next_addr f)) (next_addr f + 1) None ft_none false AtPick) tr.
Proof.
  start_step. cbn [new_worker w_pc]. unfold run_start. run1. cbn [m_rootThread]. rewrite (proj2 (Z.eqb_neq _ _)) by lia. cbn [negb].
  rewrite bind_assoc. erewrite bind_done by (apply at_on; reflexivity). run1.
  erewrite bind_done by (apply at_on; reflexivity). repeat run1. end_step.
Qed.

Section dispatch.
Context (m idle : Z) (cb : option Z) (f : Fibers) (q : list FiberAndThread) (tr : list Z).
Notation wk cur ft ia p := (mkWorker (L m cur) idle cb ft ia p).

Lemma go_idle mv x : heap f !! idle = Some x → m_state x ≠ EXEC → m_state x ≠ TERM →
  goes mv f q (wk m ft_none false AtDispatch) tr (put idle (set_state EXEC x) f) q (wk idle ft_none false InIdle) tr.
Proof.
  intros Hx He Ht. start_step. unfold run_dispatch. repeat run1. cbn [w_ft w_is_active ft_cb ft_none ft_fiber w_idle].
  on_step getState_ok. rewrite bool_decide_eq_false_2 by done. run1. unfold set_idleCount.
  cbn [store m_fibers m_rootFiber m_threadCount m_activeThreadCount m_idleThreadCount m_stopping m_autoStop m_rootThread workers tickles trace].
  erewrite bind_done by (apply at_on; apply swapIn_ok; eassumption). end_step.
Qed.
Lemma go_exit mv x : heap f !! idle = Some x → m_state x = TERM →
  goes mv f q (wk m ft_none false AtDispatch) tr f q (wk m ft_none false Exited) tr.
Proof.
  intros Hx Ht. start_step. unfold run_dispatch. repeat run1. cbn [w_ft w_is_active ft_cb ft_none ft_fiber w_idle].
  on_step getState_ok. rewrite Ht, bool_decide_eq_true_2 by done. unfold run_exit. run1. cbn [m_rootThread].
  rewrite (proj2 (Z.eqb_neq _ _)) by lia. run1. end_step.
Qed.
Lemma at_enter ft ia p x k b a d tk pc : heap f !! p = Some x → m_state x ≠ EXEC → (m_ctx x = CtxBody b ∨ m_ctx x = CtxMain ∧ m_cb x = Some (FBody b)) →
  enter i p k (st f q a d (wk m ft ia pc) tk tr) = Done (st (put p (set_state EXEC x) f) q a d (wk p ft ia (InTask k b)) tk tr) ().
Proof.
  intros Hp Hx Hc. unfold enter. erewrite bind_done by (apply at_on; apply swapIn_ok; eassumption).
  destruct Hc as [->|[-> Hcb]]; [apply at_goto|].
  erewrite bind_done by (apply at_on; apply main_enter_ok, heap_put_eq). cbn [m_cb set_state]. rewrite Hcb. apply at_goto.
Qed.
Lemma go_fiber mv p x b th : heap f !! p = Some x → m_state x = READY → m_ctx x = CtxBody b →
  goes mv f q (wk m (mkFT (Some p) None th) true AtDispatch) tr (put p (set_state EXEC x) f) q (wk p (mkFT (Some p) None th) true (InTask false b)) tr.
Proof.
  intros Hp Hs Hc. start_step. unfold run_dispatch. run1. cbn [w_ft ft_fiber]. rewrite bind_assoc. on_step getState_ok.
  run1. rewrite Hs. cbn [finished negb]. do 3 eexists. apply at_enter; [done|by rewrite Hs|by left].
Qed.
End dispatch.

Lemma go_new mv m idle f q tr b th : goes mv f q (mkWorker (L m m) idle None (mkFT None (Some (FBody b)) th) true AtDispatch) tr
  (put (next_addr f) (set_state EXEC (fresh_fiber stack f b)) (grown stack f b)) q
  (mkWorker (L m (next_addr f)) idle (Some (next_addr f)) ft_none true (InTask true b)) tr.
Proof.
  start_step. unfold run_dispatch. repeat run1. cbn [w_ft w_cb_fiber ft_fiber ft_cb]. rewrite bind_assoc.
  erewrite bind_done by (apply at_on; reflexivity). repeat run1. do 3 eexists.
  apply (at_enter m idle (Some (next_addr f)) (grown stack f b)); [apply lookup_insert_eq|done|by right].
Qed.
Lemma go_spare mv m idle c x f q tr b th : heap f !! c = Some x → spare x →
  goes mv f q (mkWorker (L m m) idle (Some c) (mkFT None (Some (FBody b)) th) true AtDispatch) tr
    (put c (set_state EXEC (set_state INIT (set_ctx CtxMain (set_cb (Some (FBody b)) x))))
      (put c (set_state INIT (set_ctx CtxMain (set_cb (Some (FBody b)) x))) f)) q
    (mkWorker (L m c) idle (Some c) ft_none true (InTask true b)) tr.
Proof.
  intros Hx (Hs & _ & Hst). start_step. unfold run_dispatch. repeat run1. cbn [w_ft w_cb_fiber ft_fiber ft_cb]. rewrite bind_assoc.
  erewrite bind_done by (apply at_on; apply fiber_reset_ok; [eassumption|done|by rewrite Hs]). repeat run1. do 3 eexists.
  apply at_enter; [apply heap_put_eq|done|by right].
Qed.

Section idling.
Context (m idle : Z) (cb : option Z) (ia : bool) (f : Fibers) (q : list FiberAndThread) (tr : list Z) (x : Fiber) (Hx : heap f !! idle = Some x).
#[local] Set Default Proof Using "Hi Hx".
Notation wk cur p := (mkWorker (L m cur) idle cb ft_none ia p).
(** The thread goes on, and does not ask for more before it ends. *)
Definition is_go (mv : move) : bool := match mv with Go => true | _ => false end.
Lemma go_turn mv : (∀ ft, mv ≠ IdleTask ft) → m_state x = EXEC →
  ∀ a d tk, ∃ y, m_state y = (if stopping (st f q a d (wk idle InIdle) tk tr) && is_go mv then TERM else HOLD) ∧
    step stack i mv (st f q a d (wk idle InIdle) tk tr) = Done (st (put idle y f) q a d (wk m AfterIdle) tk tr) ().
Proof.
  intros Hmv He a d tk. unfold step. erewrite bind_done by apply at_worker. cbn [w_pc]. unfold idle_step. run1.
  assert (Hnt : ∀ {A} (u v : A), match mv with IdleTask _ => u | _ => v end = v) by (intros; destruct mv; try done; by destruct (Hmv ft)).
  destruct mv as [|ft|]; [|by destruct (Hmv ft)|].
  all: cbn [is_go]; destruct (stopping _ && _).
  all: rewrite bind_assoc.
  all: first [erewrite bind_done by (apply at_on; apply main_return_ok; eassumption)
    |unfold YieldToHold; erewrite bind_done by (apply at_on; eapply Yield_ok; eassumption)].
  all: erewrite bind_done by (apply at_on; apply swapOut_ok; apply heap_put_eq).
  all: rewrite at_goto.
  all: unfold put; cbn [set_heap heap next_addr s_fiber_id s_fiber_count]; rewrite insert_insert_eq.
  all: eexists; split; [|reflexivity]; done.
Qed.
Lemma go_wake mv : m_state x ≠ EXEC →
  ∃ y, m_state y ≠ EXEC ∧ bool_decide (m_state y = TERM) = bool_decide (m_state x = TERM) ∧ ∃ f', (f' = f ∧ y = x ∨ f' = put idle y f) ∧ goes mv f q (wk m AfterIdle) tr f' q (wk m AtPick) tr.
Proof.
  intros He. destruct (finished (m_state x)) eqn:Hf.
  - exists x. split; [done|]. split; [done|]. exists f. split; [by left|]. start_step. run1. unfold set_idleCount.
    cbn [store m_fibers m_rootFiber m_threadCount m_activeThreadCount m_idleThreadCount m_stopping m_autoStop m_rootThread workers tickles trace w_idle].
    on_step getState_ok. rewrite Hf. run1. end_step.
  - exists (set_state HOLD x). split; [done|]. split; [by destruct (m_state x)|]. exists (put idle (set_state HOLD x) f). split; [by right|]. start_step. run1. unfold set_idleCount.
    cbn [store m_fibers m_rootFiber m_threadCount m_activeThreadCount m_idleThreadCount m_stopping m_autoStop m_rootThread workers tickles trace w_idle].
    on_step getState_ok. rewrite Hf. cbn [negb]. on_step update_ok. end_step.
Qed.
End idling.
End one_step.

Lemma submseteq_NoDup {A} (l k : list A) : l ⊆+ k → NoDup k → NoDup l.
Proof. intros [l' Hk]%submseteq_Permutation. rewrite Hk, NoDup_app. by intros [? _]. Qed.

(** ** Every step keeps the invariant *)
Section keep.
Context (stack : Z) (s : Scheduler) (all : list Z) (qo wo : list (list Z)) (i : nat) (w : worker) (mv : move).
Context (Hinv : inv s all qo wo) (Hw : workers s !! i = Some w) (Hmv : ∀ ft, mv ≠ IdleTask ft).
#[local] Set Default Proof Using "All".
Notation f := (store s).
Notation q := (m_fibers s).
Notation tr := (trace s).
(** The worker came closer to the end of its task or took one, or there was nothing for it to do. *)
Definition idles (h' : gmap Z Fiber) (w' : worker) : Prop :=
  stage_of h' w' = next (stopping s && is_go mv) (stage_of (heap f) w) ∧ (∀ e, stage_of (heap f) w ≠ SWork e) ∧
  ∀ e, stage_of (heap f) w = SPick e → ∃ t, scan (Z.of_nat i) (heap f) q = Some (None, q, t).
Definition advances (h' : gmap Z Fiber) (w' : worker) : Prop := ∃ e, works e (stage_of (heap f) w) ∧ works e (stage_of h' w').
Definition kept : Prop := ∃ s' qo' wo' w', step stack i mv s = Done s' () ∧ inv s' all qo' wo' ∧ workers s' = <[i:=w']> (workers s) ∧
  (∀ j v, j ≠ i → workers s !! j = Some v → stage_of (heap (store s')) v = stage_of (heap f) v) ∧
  m_stopping s' = m_stopping s ∧ m_autoStop s' = m_autoStop s ∧
  ((cost s' < cost s)%nat ∧ advances (heap (store s')) w' ∨ cost s' = cost s ∧ m_fibers s' = q ∧ idles (heap (store s')) w').
Definition moves_to f' q' w' tr' : Prop := ∃ a' d' tk', step stack i mv s =
  Done (mkScheduler f' q' None (m_threadCount s) a' d' (m_stopping s) (m_autoStop s) (-1) (<[i:=w']> (workers s)) tk' tr') ().
Lemma this_state : s = mkScheduler f q None (m_threadCount s) (m_activeThreadCount s) (m_idleThreadCount s) (m_stopping s) (m_autoStop s) (-1) (<[i:=w]> (workers s)) (tickles s) tr.
Proof. destruct (i_root _ _ _ _ Hinv) as [Hr1 Hr2]. rewrite list_insert_id, <-Hr1, <-Hr2 by done. by destruct s. Qed.
Lemma goes_moves f' q' w' tr' : goes stack (m_threadCount s) (m_stopping s) (m_autoStop s) (workers s) i mv f q w tr f' q' w' tr' → moves_to f' q' w' tr'.
Proof. intros Hgo. destruct (Hgo (m_activeThreadCount s) (m_idleThreadCount s) (tickles s)) as (a' & d' & tk' & H). rewrite <-this_state in H. by exists a', d', tk'. Qed.

Lemma settle (ro rw : list Z) (rc : nat) : cost s = (queue_cost (heap f) q + worker_cost (heap f) w + rc)%nat →
  (∀ s' w' o' qo' all', let h' := heap (store s') in
    workers s' = <[i := w']> (workers s) → m_rootFiber s' = None ∧ m_rootThread s' = -1 →
    (∀ a, next_addr (store s') ≤ a → h' !! a = None) → (∀ a, a ∈ ro → h' !! a = heap f !! a) →
    Forall2 (queued h') (m_fibers s') qo' → worker_ok h' w' o' → NoDup (concat qo' ++ o' ++ ro) →
    trace s' ++ queue_work h' (m_fibers s') ++ worker_work h' w' ++ rw ≡ₚ all' →
    ∃ wo', inv s' all' qo' wo' ∧ cost s' = (queue_cost h' (m_fibers s') + worker_cost h' w' + rc)%nat ∧
      ∀ j v, j ≠ i → workers s !! j = Some v → stage_of h' v = stage_of (heap f) v) →
  ∀ f' q' w' tr' qo' o', moves_to f' q' w' tr' →
  (∀ a, next_addr f' ≤ a → heap f' !! a = None) → (∀ a, a ∈ ro → heap f' !! a = heap f !! a) →
  Forall2 (queued (heap f')) q' qo' → worker_ok (heap f') w' o' → NoDup (concat qo' ++ o' ++ ro) →
  tr' ++ queue_work (heap f') q' ++ worker_work (heap f') w' ++ rw ≡ₚ all →
  (queue_cost (heap f') q' + worker_cost (heap f') w' < queue_cost (heap f) q + worker_cost (heap f) w)%nat ∧ advances (heap f') w' ∨
    (queue_cost (heap f') q' + worker_cost (heap f') w' = queue_cost (heap f) q + worker_cost (heap f) w)%nat ∧ q' = q ∧ idles (heap f') w' → kept.
Proof.
  intros Hrc Hclose f' q' w' tr' qo' o' (a' & d' & tk' & Hs) H1 H2 H3 H4 H5 H6 H7.
  destruct (Hclose _ w' o' qo' all (eq_refl (workers (mkScheduler f' q' None (m_threadCount s) a' d' (m_stopping s) (m_autoStop s) (-1) _ tk' tr'))))
    as (wo' & Hi' & Hc' & Hst'); try done. eexists _, qo', wo', w'. split; [exact Hs|]. split; [done|]. split; [done|]. split; [done|].
  split; [done|]. split; [done|]. rewrite Hrc.
  destruct H7 as [[? ?]|(? & ? & ?)]; [left; split; [eapply Nat.le_lt_trans; [apply Nat.eq_le_incl, Hc'|cbn [store m_fibers]; lia]|done]|right; split; [|done]].
  etransitivity; [exact Hc'|]. cbn [store m_fibers]. lia.
Qed.

(** A step that leaves the queue alone; and a step that moves tasks between the worker and the
    queue, and touches no fiber. *)
Definition stays (o : list Z) : Prop :=
  ∀ f' w' tr' o', moves_to f' q w' tr' →
    (∀ a, next_addr f' ≤ a → heap f' !! a = None) → (∀ a, a < next_addr f → a ∉ o → heap f' !! a = heap f !! a) →
    worker_ok (heap f') w' o' → NoDup o' → (∀ a, a ∈ o' → a ∈ o ∨ next_addr f ≤ a) →
    tr' ++ worker_work (heap f') w' ≡ₚ tr ++ worker_work (heap f) w →
    (worker_cost (heap f') w' < worker_cost (heap f) w)%nat ∧ advances (heap f') w' ∨ worker_cost (heap f') w' = worker_cost (heap f) w ∧ idles (heap f') w' → kept.
Definition through_queue (o : list Z) : Prop :=
  ∀ q' w' qo' o', moves_to f q' w' tr → Forall2 (queued (heap f)) q' qo' → worker_ok (heap f) w' o' →
    concat qo' ++ o' ⊆+ concat qo ++ o →
    queue_work (heap f) q' ++ worker_work (heap f) w' ≡ₚ queue_work (heap f) q ++ worker_work (heap f) w →
    (queue_cost (heap f) q' + worker_cost (heap f) w' < queue_cost (heap f) q + worker_cost (heap f) w)%nat ∧ advances (heap f) w' ∨
      worker_cost (heap f) w' = worker_cost (heap f) w ∧ q' = q ∧ idles (heap f) w' → kept.
Lemma settles : ∃ o, worker_ok (heap f) w o ∧ (∀ a, a ∈ o → is_Some (heap f !! a)) ∧ NoDup o ∧ stays o ∧ through_queue o.
Proof.
  destruct (inv_focus s all qo wo i w Hinv Hw) as (o & ro & rw & rc & Ho & Hnd & Hdom & Hwk & Hrc & Hclose).
  exists o. split; [done|]. split; [intros a Ha; apply Hdom; set_solver|].
  split; [by apply NoDup_app in Hnd as (_ & _ & (? & _)%NoDup_app)|]. split.
  - intros f' w' tr' o' Hgo Hfr Hsame Hok Hnd' Hin Hwk' Hc.
    assert (Hlt : ∀ a, is_Some (heap f !! a) → a < next_addr f).
    { intros a [x Hx]. destruct (decide (a < next_addr f)) as [|Hge]; [done|]. rewrite (i_fresh _ _ _ _ Hinv) in Hx by lia. done. }
    apply NoDup_app in Hnd as (Hndq & Hdis & (Hndo & Hdis2 & Hndr)%NoDup_app).
    destruct (queue_frame (heap f) (heap f') q qo) as (Hq' & Hqw & Hqc).
    { intros a Ha. apply Hsame; [apply Hlt, Hdom; set_solver|]. intros Hao. apply (Hdis a Ha). set_solver. }
    { apply (i_queue _ _ _ _ Hinv). }
    eapply (settle ro rw rc Hrc Hclose f' q w' tr' qo o'); try done.
    * intros a Ha. apply Hsame; [apply Hlt, Hdom; set_solver|]. intros Hao. by apply (Hdis2 a Hao).
    * apply NoDup_app. split; [done|]. split.
      -- intros a Ha [Hao|Har]%elem_of_app; [|apply (Hdis a Ha); set_solver].
        destruct (Hin a Hao) as [Ho'|Hge]; [apply (Hdis a Ha); set_solver|]. assert (a < next_addr f) by (apply Hlt, Hdom; set_solver). lia.
      -- apply NoDup_app. split; [done|]. split; [|done]. intros a Hao Har. destruct (Hin a Hao) as [Ho'|Hge]; [by apply (Hdis2 a Ho')|].
        assert (a < next_addr f) by (apply Hlt, Hdom; set_solver). lia.
    * rewrite Hqw, <-Hwk. transitivity ((tr' ++ worker_work (heap f') w') ++ queue_work (heap f) q ++ rw); [solve_Permutation|]. rewrite Hwk'. solve_Permutation.
    * rewrite Hqc. destruct Hc as [[? ?]|[? ?]]; [left; split; [lia|done]|right; split; [lia|done]].
  - intros q' w' qo' o' Hgo Hq' Hok Hsub Hwk' Hc.
    eapply (settle ro rw rc Hrc Hclose f q' w' tr qo' o'); try done.
    * apply (i_fresh _ _ _ _ Hinv).
    * rewrite app_assoc in Hnd |- *. eapply submseteq_NoDup; [|exact Hnd]. by apply submseteq_skips_r.
    * rewrite <-Hwk. transitivity (tr ++ (queue_work (heap f) q' ++ worker_work (heap f) w') ++ rw); [solve_Permutation|]. rewrite Hwk'. solve_Permutation.
    * destruct Hc as [|(? & -> & ?)]; [by left|right; split; [lia|done]].
Qed.
End keep.

Lemma fresh_put p x f : (∀ a, next_addr f ≤ a → heap f !! a = None) → is_Some (heap f !! p) →
  ∀ a, next_addr (put p x f) ≤ a → heap (put p x f) !! a = None.
Proof. intros Hf [y Hy] a Ha. cbn in *. rewrite lookup_insert_ne; [by apply Hf|]. intros ->. rewrite Hf in Hy by done. done. Qed.
Lemma same_put p x f (o : list Z) a : p ∈ o → a ∉ o → heap (put p x f) !! a = heap f !! a.
Proof. intros Hp Ha. cbn. apply lookup_insert_ne. intros ->. done. Qed.
Lemma own_put idle p l x y f : NoDup (idle :: p :: l) → heap f !! idle = Some x → spares (heap f) l →
  heap (put p y f) !! idle = Some x ∧ spares (heap (put p y f)) l.
Proof.
  clear pin. intros [Hi [Hp _]%NoDup_cons]%NoDup_cons Hx Hl. split.
  - rewrite (same_put p y f [p]); [done|set_solver|set_solver].
  - eapply spares_frame; [|exact Hl]. intros a Ha. apply (same_put p y f [p]); [set_solver|]. intros ->%list_elem_of_singleton. done.
Qed.
Lemma work_leaving h m idle cb ft ia k c p x : h !! p = Some x →
  worker_work h (mkWorker (L m p) idle cb ft ia (Leaving k c)) = ctx_work (m_state x) c.
Proof. intros H. unfold worker_work. cbn. by rewrite H. Qed.
Lemma work_behind h m idle cb ft ia k pc p x l : h !! p = Some x → held k cb ft p l → behind pc k →
  worker_work h (mkWorker (L m m) idle cb ft ia pc) = ctx_work (m_state x) (m_ctx x).
Proof. intros H Hh%held_in Hb. unfold worker_work. destruct Hb as [-> | ->]; cbn; rewrite Hh; unfold fiber_work; by rewrite H. Qed.

Lemma cost_leaving h m idle cb ft ia k c p x : h !! p = Some x →
  worker_cost h (mkWorker (L m p) idle cb ft ia (Leaving k c)) = (8 + ctx_cost (m_state x) c)%nat.
Proof. intros H. unfold worker_cost. cbn. by rewrite H. Qed.
Lemma cost_held h m idle cb ft ia k pc p x l : h !! p = Some x → held k cb ft p l →
  held_cost h (mkWorker (L m m) idle cb ft ia pc) k = ctx_cost (m_state x) (m_ctx x).
Proof. intros H Hh%held_in. unfold held_cost. cbn [w_cb_fiber w_ft]. rewrite Hh. unfold fiber_cost. by rewrite H. Qed.
Lemma queue_cost_app h q q' : queue_cost h (q ++ q') = (queue_cost h q + queue_cost h q')%nat.
Proof. unfold queue_cost. by rewrite fmap_app, sum_list_app'. Qed.
Lemma task_cost_queued h ft o : queued h ft o → (5 ≤ task_cost h ft)%nat.
Proof. intros H. destruct H; unfold task_cost; cbn; lia. Qed.
Lemma queue_work_app h q q' : queue_work h (q ++ q') = queue_work h q ++ queue_work h q'.
Proof. unfold queue_work. by rewrite fmap_app, concat_app. Qed.
(** The scan takes one task out of the queue, or none. *)
Lemma scan_split tid h q qo : Forall2 (queued h) q qo → ∃ o q' t, scan tid h q = Some (o, q', t) ∧
  match o with None => q' = q | Some ft => ∃ q1 q2, q = q1 ++ ft :: q2 ∧ q' = q1 ++ q2 end.
Proof.
  induction 1 as [|it x q qo Hit Hq (o & q' & t & IH & Ho)]; [by eexists _, _, _|]. cbn [scan]. rewrite IH.
  assert (Hskip : ∀ t1 : bool, ∃ o2 q2 t2, Some (o, it :: q', t1) = Some (o2, q2, t2) ∧
    match o2 with None => q2 = it :: q | Some ft => ∃ q1 q2', it :: q = q1 ++ ft :: q2' ∧ q2 = q1 ++ q2' end).
  { intros t1. eexists _, _, _. split; [done|]. destruct o as [ft|]; [|by rewrite Ho].
    destruct Ho as (q1 & q2 & -> & ->). by exists (it :: q1), q2. }
  destruct (negb _ && negb _); [apply Hskip|].
  destruct Hit as [b th _|p g b Hp Hs _ _ _]; cbn; [|rewrite Hp; cbn; rewrite bool_decide_eq_false_2 by (by rewrite Hs)];
    (eexists _, _, _; split; [done|]; by exists [], q).
Qed.

(** The cases of [worker_ok] that are not at the program point of [H]. *)
Ltac not_here H := try discriminate H; try (cbn in H; subst; match goal with B : between _ _ |- _ => by destruct B | B : behind _ _ |- _ => by destruct B end).

(** A worker whose idle fiber is as it was goes on with its task. *)
Definition at_work (w : worker) : Prop :=
  match w_pc w with AtPick | InTask _ _ | Leaving _ _ | AfterTask _ | Judge _ => True | AtDispatch => w_is_active w = true | _ => False end.
Lemma at_work_stage h w x : at_work w → h !! w_idle w = Some x → works (bool_decide (m_state x = TERM)) (stage_of h w).
Proof. unfold at_work, stage_of, works. intros Hw ->. destruct (w_pc w); rewrite ?Hw; auto; done. Qed.
Lemma advancing s w h' w' x : at_work w → at_work w' → heap (store s) !! w_idle w = Some x → h' !! w_idle w' = Some x → advances s w h' w'.
Proof. intros H1 H2 Hx Hx'. exists (bool_decide (m_state x = TERM)). split; by apply at_work_stage. Qed.

Section cases.
Context (stack : Z) (s : Scheduler) (all : list Z) (qo wo : list (list Z)) (i : nat) (w : worker) (mv : move).
Context (Hinv : inv s all qo wo) (Hw : workers s !! i = Some w) (Hmv : ∀ ft, mv ≠ IdleTask ft).
#[local] Set Default Proof Using "All".
Notation kept_by w := (kept stack s all i w mv).
Lemma in_range : (i < length (workers s))%nat.
Proof. by eapply lookup_lt_Some. Qed.

Lemma keep_leaving k c : w_pc w = Leaving k c → kept_by w.
Proof.
  intros Hpc. pose proof in_range as Hr. destruct (settles stack s all qo wo i w mv Hinv Hw Hmv) as (o & Ho & Hdom & Hnd & Hset & _).
  inversion Ho as [| | | |m idle x cb ft ia k' p g c' l Hx Hxe Hsp Hh Hg Hpk| |]; subst; not_here Hpc.
  injection Hpc as -> ->. destruct (own_put idle p l x (set_ctx c g) (store s) Hnd Hx Hsp) as [Hx' Hsp'].
  eapply (Hset _ _ (trace s) (idle :: p :: l)); [eapply (goes_moves stack s all qo wo i _ mv Hinv Hw Hmv), (go_leave _ _ _ _ _ _ Hr); exact Hg| | | |done|by left| |].
  - apply fresh_put; [apply (i_fresh _ _ _ _ Hinv)|by rewrite Hg].
  - intros a _ Ha. eapply same_put; [|exact Ha]. set_solver.
  - eapply ok_behind; [exact Hx'|done|done|exact Hh|apply heap_put_eq|exact Hpk|by left].
  - erewrite work_leaving by exact Hg. erewrite work_behind; [|apply heap_put_eq|exact Hh|by left]. done.
  - left. split; [|by eapply advancing]. erewrite cost_leaving by exact Hg. unfold worker_cost. cbn [w_pc]. erewrite cost_held; [|apply heap_put_eq|exact Hh]. cbn. lia.
Qed.
Lemma keep_after k : w_pc w = AfterTask k → kept_by w.
Proof.
  intros Hpc. pose proof in_range as Hr. destruct (settles stack s all qo wo i w mv Hinv Hw Hmv) as (o & Ho & Hdom & Hnd & Hset & _).
  inversion Ho as [| | | | |m idle x cb ft ia k' p g l pc Hx Hxe Hsp Hh Hg Hpk Hb|]; subst; not_here Hpc.
  cbn in Hpc. subst. destruct Hb as [[= <-]|]; [|done].
  eapply (Hset _ _ (trace s) (idle :: p :: l)); [eapply (goes_moves stack s all qo wo i _ mv Hinv Hw Hmv), (go_after _ _ _ _ _ _ Hr)|apply (i_fresh _ _ _ _ Hinv)|done| |done|by left| |].
  - eapply ok_behind; try done. by right.
  - erewrite !work_behind; [done|exact Hg|exact Hh|by left|exact Hg|exact Hh|by right].
  - left. split; [|by eapply advancing]. unfold worker_cost. cbn [w_pc]. erewrite !cost_held by done. lia.
Qed.
Lemma keep_schedule k c th b : w_pc w = InTask k (BSchedule (TCb c) th b) → kept_by w.
Proof.
  intros Hpc. pose proof in_range as Hr. destruct (settles stack s all qo wo i w mv Hinv Hw Hmv) as (o & Ho & _ & _ & _ & Hset).
  inversion Ho as [| | |m idle x cb ft ia k' p g b' l Hx Hxe Hsp Hh Hg He Hst Hb| | |]; subst; not_here Hpc. injection Hpc as -> ->.
  cbn in Hb. apply andb_true_iff in Hb as [[Hth Hc]%andb_true_iff Hb].
  eapply (Hset _ _ (qo ++ [[]]) (idle :: p :: l)); [by apply (goes_moves stack s all qo wo i _ mv Hinv Hw Hmv), go_schedule| | | | |].
  - apply Forall2_app; [apply (i_queue _ _ _ _ Hinv)|]. constructor; [by constructor|constructor].
  - by eapply ok_run.
  - rewrite concat_app. cbn. by rewrite app_nil_r.
  - rewrite queue_work_app. cbn. unfold queue_work. cbn. solve_Permutation.
  - left. split; [|by eapply advancing]. rewrite queue_cost_app. unfold worker_cost, queue_cost. cbn -[Nat.mul]. lia.
Qed.
Lemma keep_body k b : w_pc w = InTask k b → kept_by w.
Proof.
  intros Hpc. pose proof in_range as Hr. pose proof (λ c th b', keep_schedule k c th b') as Hsch. rewrite Hpc in Hsch. destruct (settles stack s all qo wo i w mv Hinv Hw Hmv) as (o & Ho & Hdom & Hnd & Hset & _).
  inversion Ho as [| | |m idle x cb ft ia k' p g b' l Hx Hxe Hsp Hh Hg He Hst Hb| | |]; subst; not_here Hpc. injection Hpc as -> ->.
  assert (Hleave : ∀ x' c, goes stack (m_threadCount s) (m_stopping s) (m_autoStop s) (workers s) i mv (store s) (m_fibers s)
      (mkWorker (L m p) idle cb ft ia (InTask k b)) (trace s) (put p x' (store s)) (m_fibers s) (mkWorker (L m p) idle cb ft ia (Leaving k c)) (trace s) →
      parked x' c → ctx_work (m_state x') c = effects b → (8 + ctx_cost (m_state x') c < 3 + 6 * size b)%nat → kept_by (mkWorker (L m p) idle cb ft ia (InTask k b))).
  { intros x' c Hgo Hpk Hwk Hcost. destruct (own_put idle p l x x' (store s) Hnd Hx Hsp) as [Hx' Hsp'].
    eapply (Hset _ _ (trace s) (idle :: p :: l)); [apply (goes_moves stack s all qo wo i _ mv Hinv Hw Hmv), Hgo| | | |done|by left| |].
    - apply fresh_put; [apply (i_fresh _ _ _ _ Hinv)|by rewrite Hg].
    - intros a _ Ha. eapply same_put; [|exact Ha]. set_solver.
    - eapply ok_leaving; [exact Hx'|done|done|exact Hh|apply heap_put_eq|exact Hpk].
    - erewrite work_leaving by apply heap_put_eq. by rewrite Hwk.
    - left. split; [|by eapply advancing]. erewrite cost_leaving by apply heap_put_eq. exact Hcost. }
  assert (Hstay : ∀ b' tr', goes stack (m_threadCount s) (m_stopping s) (m_autoStop s) (workers s) i mv (store s) (m_fibers s)
      (mkWorker (L m p) idle cb ft ia (InTask k b)) (trace s) (store s) (m_fibers s) (mkWorker (L m p) idle cb ft ia (InTask k b')) tr' →
      simple b' = true → tr' ++ effects b' ≡ₚ trace s ++ effects b → (size b' < size b)%nat → kept_by (mkWorker (L m p) idle cb ft ia (InTask k b))).
  { intros b' tr' Hgo Hb' Hwk Hcost. eapply (Hset _ _ tr' (idle :: p :: l)); [apply (goes_moves stack s all qo wo i _ mv Hinv Hw Hmv), Hgo|apply (i_fresh _ _ _ _ Hinv)|done| |done|by left|exact Hwk|].
    - by eapply ok_run.
    - left. split; [|by eapply advancing]. unfold worker_cost. cbn [w_pc]. lia. }
  destruct b as [| |e b|b|b|t th b|th b]; cbn [simple effects] in *.
  - eapply Hleave; [by apply go_return|by split; [|left]|done|cbn; lia].
  - eapply Hleave; [by apply go_throw|by split; [|left]|done|cbn; lia].
  - eapply Hstay; [by apply go_emit|done| |cbn; lia]. by rewrite <-app_assoc.
  - eapply Hleave; [by apply go_ready|split; [done|right; right; eauto]|done|cbn -[Nat.mul]; lia].
  - eapply Hleave; [by apply go_hold|split; [done|right; by left]|done|cbn; lia].
  - destruct t as [| |c]; try done. by eapply Hsch.
  - apply andb_true_iff in Hb as [->%Z.eqb_eq Hb]. eapply Hstay; [by apply go_switch|done|done|cbn; lia].
Qed.

Lemma keep_pick : w_pc w = AtPick → kept_by w.
Proof.
  intros Hpc. pose proof in_range as Hr. destruct (settles stack s all qo wo i w mv Hinv Hw Hmv) as (o & Ho & _ & _ & _ & Hset).
  inversion Ho as [|m idle x cb ia pc Hx Hxe Hsp Hb| | | | |]; subst; not_here Hpc. cbn in Hpc. subst.
  pose proof (i_queue _ _ _ _ Hinv) as Hq. destruct (scan_split (Z.of_nat i) _ _ _ Hq) as (o & q' & t & Hscan & Ho').
  destruct o as [ft|].
  - destruct Ho' as (q1 & q2 & Hqe & ->). rewrite Hqe in Hq.
    apply Forall2_app_inv_l in Hq as (o1 & o2' & Hq1 & Hq2 & Hoe). apply Forall2_cons_inv_l in Hq2 as (y & o2 & Hy & Hq2 & ->).
    eapply (Hset _ _ (o1 ++ o2) (idle :: option_list cb ++ y)); [by eapply (goes_moves stack s all qo wo i _ mv Hinv Hw Hmv), go_pick|by apply Forall2_app|by eapply ok_task| | |].
    + rewrite Hoe, !concat_app. cbn. apply Permutation_submseteq. solve_Permutation.
    + rewrite Hqe, !queue_work_app. unfold worker_work, queue_work. cbn. rewrite app_nil_r. solve_Permutation.
    + left. split; [|by eapply advancing]. apply task_cost_queued in Hy. rewrite Hqe, !queue_cost_app. unfold worker_cost, queue_cost. cbn -[task_cost]. lia.
  - eapply (Hset _ _ qo (idle :: option_list cb)); [by eapply (goes_moves stack s all qo wo i _ mv Hinv Hw Hmv), go_pick|by rewrite Ho'|by eapply ok_between|done| |].
    + rewrite Ho'. unfold worker_work. by cbn.
    + right. subst q'. split_and!; try done. unfold idles. split_and!; try done. intros e _. by exists t.
Qed.
Lemma keep_start : w_pc w = AtStart → kept_by w.
Proof.
  intros Hpc. pose proof in_range as Hr. destruct (settles stack s all qo wo i w mv Hinv Hw Hmv) as (o & Ho & Hdom & Hnd & Hset & _).
  inversion Ho as [|m idle x cb ia pc Hx Hxe Hsp Hb| | | | |]; subst; not_here Hpc.
  pose proof (i_fresh _ _ _ _ Hinv) as Hf.
  eapply (Hset _ _ (trace s) [next_addr (store s) + 1]); [by apply (goes_moves stack s all qo wo i _ mv Hinv Hw Hmv), go_start| | | | | |done|].
  - intros a Ha. cbn in *. rewrite !lookup_insert_ne by lia. apply Hf. lia.
  - intros a Ha _. cbn. by rewrite !lookup_insert_ne by lia.
  - eapply (ok_between _ (next_addr (store s)) _ _ None); [cbn; apply lookup_insert_eq|done|constructor|done].
  - apply NoDup_singleton.
  - intros a ->%list_elem_of_singleton. right. lia.
  - right. split; [done|]. unfold idles. split_and!; try done. unfold stage_of. cbn [w_pc w_idle begun heap]. by rewrite lookup_insert_eq.
Qed.
Lemma keep_idle : w_pc w = InIdle → kept_by w.
Proof.
  intros Hpc. pose proof in_range as Hr. destruct (settles stack s all qo wo i w mv Hinv Hw Hmv) as (o & Ho & Hdom & Hnd & Hset & _).
  inversion Ho as [|m idle x cb ia pc Hx Hxe Hsp Hb| | | | |m idle x cb ia Hx Hxe Hsp]; subst; not_here Hpc.
  pose proof (this_state stack s all qo wo i _ mv Hinv Hw Hmv) as Hst.
  destruct (go_turn stack (m_threadCount s) (m_stopping s) (m_autoStop s) (workers s) i Hr m idle cb ia (store s) (m_fibers s) (trace s) x Hx mv Hmv Hxe
    (m_activeThreadCount s) (m_idleThreadCount s) (tickles s)) as (y & Hy & Hgo). rewrite <-Hst in Hgo.
  apply NoDup_cons in Hnd as [Hi Hnd].
  eapply (Hset _ _ (trace s) (idle :: option_list cb)); [by do 3 eexists| | | |by apply NoDup_cons|by left|done|].
  - apply fresh_put; [apply (i_fresh _ _ _ _ Hinv)|by rewrite Hx].
  - intros a _ Ha. eapply same_put; [|exact Ha]. set_solver.
  - eapply ok_between; [apply heap_put_eq|rewrite Hy; by destruct (_ && _)| |done].
    eapply spares_frame; [|exact Hsp]. intros a Ha. apply (same_put _ _ _ [idle]); [set_solver|]. intros ->%list_elem_of_singleton. done.
  - right. split; [done|]. unfold idles. split_and!; try done. unfold stage_of. cbn [w_pc w_idle next]. rewrite heap_put_eq, Hy. by destruct (_ && _).
Qed.
Lemma keep_wake : w_pc w = AfterIdle → kept_by w.
Proof.
  intros Hpc. pose proof in_range as Hr. destruct (settles stack s all qo wo i w mv Hinv Hw Hmv) as (o & Ho & Hdom & Hnd & Hset & _).
  inversion Ho as [|m idle x cb ia pc Hx Hxe Hsp Hb| | | | |]; subst; not_here Hpc. cbn in Hpc. subst.
  destruct (go_wake stack (m_threadCount s) (m_stopping s) (m_autoStop s) (workers s) i Hr m idle cb ia (store s) (m_fibers s) (trace s) x Hx mv Hxe)
    as (y & Hy & Hyt & f' & Hf' & Hgo).
  apply NoDup_cons in Hnd as [Hi Hnd].
  eapply (Hset _ _ (trace s) (idle :: option_list cb)); [apply (goes_moves stack s all qo wo i _ mv Hinv Hw Hmv), Hgo| | | |by apply NoDup_cons|by left|done|].
  - destruct Hf' as [[-> _]| ->]; [apply (i_fresh _ _ _ _ Hinv)|]. apply fresh_put; [apply (i_fresh _ _ _ _ Hinv)|by rewrite Hx].
  - intros a _ Ha. destruct Hf' as [[-> _]| ->]; [done|]. eapply same_put; [|exact Ha]. set_solver.
  - destruct Hf' as [[-> ->]| ->]; [by eapply ok_between|]. eapply ok_between; [apply heap_put_eq|done| |done].
    eapply spares_frame; [|exact Hsp]. intros a Ha. apply (same_put _ _ _ [idle]); [set_solver|]. intros ->%list_elem_of_singleton. done.
  - right. split; [done|]. unfold idles. split_and!; try done. unfold stage_of. cbn [w_pc w_idle next].
    destruct Hf' as [[-> _]| ->]; [done|]. by rewrite heap_put_eq, Hx, Hyt.
Qed.
Lemma keep_dispatch : w_pc w = AtDispatch → kept_by w.
Proof.
  intros Hpc. pose proof in_range as Hr. destruct (settles stack s all qo wo i w mv Hinv Hw Hmv) as (o & Ho & Hdom & Hnd & Hset & _).
  pose proof (i_fresh _ _ _ _ Hinv) as Hf.
  inversion Ho as [|m idle x cb ia pc Hx Hxe Hsp Hb|m idle x cb ft o' Hx Hxe Hsp Hq| | | |]; subst; not_here Hpc.
  - cbn in Hpc. subst. cbn in Hb. subst. destruct (decide (m_state x = TERM)) as [Ht|Ht].
    + eapply (Hset _ _ (trace s) (idle :: option_list cb)); [by eapply (goes_moves stack s all qo wo i _ mv Hinv Hw Hmv), go_exit|done|done|by eapply ok_between|done|by left|done|].
      right. split; [done|]. unfold idles, stage_of. cbn [w_pc w_idle w_is_active]. by rewrite Hx, bool_decide_eq_true_2 by done.
    + apply NoDup_cons in Hnd as [Hi Hnd].
      eapply (Hset _ _ (trace s) (idle :: option_list cb)); [by eapply (goes_moves stack s all qo wo i _ mv Hinv Hw Hmv), go_idle| | | |by apply NoDup_cons|by left|done|].
      * apply fresh_put; [done|by rewrite Hx].
      * intros a _ Ha. eapply same_put; [|exact Ha]. set_solver.
      * eapply ok_idle; [apply heap_put_eq|done|]. eapply spares_frame; [|exact Hsp].
        intros a Ha. apply (same_put _ _ _ [idle]); [set_solver|]. intros ->%list_elem_of_singleton. done.
      * right. split; [done|]. unfold idles, stage_of. cbn [w_pc w_idle w_is_active]. by rewrite Hx, bool_decide_eq_false_2 by done.
  - destruct Hq as [b th Hb _|p g b Hg Hs Hc Hb Hst].
    + destruct cb as [c|]; cbn [option_list app] in *.
      * unfold spares in Hsp. apply Forall_cons in Hsp as [(g & Hg & Hs) _].
        assert (Hic : idle ≠ c) by (apply NoDup_cons in Hnd as [? _]; set_solver).
        eapply (Hset _ _ (trace s) [idle; c]); [by eapply (goes_moves stack s all qo wo i _ mv Hinv Hw Hmv), go_spare| | | |done|by left| |].
        -- apply fresh_put; [apply fresh_put; [done|by rewrite Hg]|]. by rewrite heap_put_eq.
        -- intros a _ Ha. rewrite !(same_put _ _ _ [idle; c]); [done|set_solver|done|set_solver|done].
        -- eapply ok_run; [|exact Hxe|constructor|done|apply heap_put_eq|done|by destruct Hs as (_ & _ & ?)|done].
           rewrite !(same_put _ _ _ [c]); [exact Hx|set_solver|set_solver|set_solver|set_solver].
        -- unfold worker_work. by cbn.
        -- left. split; [unfold worker_cost; cbn -[Nat.mul]; lia|]. eapply advancing; [done|done|exact Hx|].
           cbn [w_idle]. rewrite !(same_put _ _ _ [c]); [exact Hx|set_solver|set_solver|set_solver|set_solver].
      * assert (Hil : idle < next_addr (store s)).
        { destruct (decide (idle < next_addr (store s))); [done|]. rewrite Hf in Hx by lia. done. }
        eapply (Hset _ _ (trace s) [idle; next_addr (store s)]); [by eapply (goes_moves stack s all qo wo i _ mv Hinv Hw Hmv), go_new| | | | | | |].
        -- intros a Ha. cbn in *. rewrite !lookup_insert_ne by lia. apply Hf. lia.
        -- intros a Ha _. cbn. by rewrite !lookup_insert_ne by lia.
        -- eapply ok_run; [|exact Hxe|constructor|done|apply heap_put_eq|done|done|done]. cbn. by rewrite !lookup_insert_ne by lia.
        -- apply NoDup_cons. split; [|apply NoDup_singleton]. intros Heq%list_elem_of_singleton. lia.
        -- intros a. rewrite elem_of_cons, list_elem_of_singleton. intros [->| ->]; [left; by left|right; lia].
        -- unfold worker_work. by cbn.
        -- left. split; [unfold worker_cost; cbn -[Nat.mul]; lia|]. eapply advancing; [done|done|exact Hx|].
           cbn. by rewrite !lookup_insert_ne by lia.
    + assert (Hperm : idle :: option_list cb ++ [p] ≡ₚ idle :: p :: option_list cb) by solve_Permutation.
      assert (Hnd' : NoDup (idle :: p :: option_list cb)) by (by rewrite <-Hperm).
      destruct (own_put idle p _ x (set_state EXEC g) (store s) Hnd' Hx Hsp) as [Hx' Hsp'].
      eapply (Hset _ _ (trace s) (idle :: p :: option_list cb)); [by eapply (goes_moves stack s all qo wo i _ mv Hinv Hw Hmv), go_fiber| | | |done| | |].
      * apply fresh_put; [done|by rewrite Hg].
      * intros a _ Ha. eapply same_put; [|exact Ha]. set_solver.
      * eapply ok_run; [exact Hx'|done|exact Hsp'|done|apply heap_put_eq|done|done|done].
      * intros a Ha. left. by rewrite Hperm.
      * unfold worker_work. cbn. unfold fiber_work. by rewrite Hg, Hs, Hc.
      * left. split; [|by eapply advancing]. unfold worker_cost. cbn -[Nat.mul]. unfold fiber_cost. rewrite Hg, Hs, Hc. cbn -[Nat.mul]. lia.
Qed.
Lemma keep_judge k : w_pc w = Judge k → kept_by w.
Proof.
  intros Hpc. pose proof in_range as Hr. destruct (settles stack s all qo wo i w mv Hinv Hw Hmv) as (o & Ho & Hdom & Hnd & Hhere & Hqueue).
  inversion Ho as [| | | | |m idle x cb ft ia k' p g l pc Hx Hxe Hsp Hh Hg Hpk Hb|]; subst; not_here Hpc.
  cbn in Hpc. subst. destruct Hb as [|[= <-]]; [done|]. pose proof (goes_moves stack s all qo wo i _ mv Hinv Hw Hmv) as Hmoves.
  pose proof (i_fresh _ _ _ _ Hinv) as Hf. destruct Hpk as [Hst Hpk].
  pose proof (go_judge stack (m_threadCount s) (m_stopping s) (m_autoStop s) (workers s) i Hr m idle cb ft ia (store s) (m_fibers s) (trace s)
    mv k p g Hg Hst) as Hgo. cbn zeta in Hgo.
  assert (Hk : if k then cb = Some p ∧ ft = ft_none else ft_fiber ft = Some p) by (destruct k; cbn in Hh; naive_solver). specialize (Hgo Hk).
  set (cb' := if k then None else cb) in *. assert (Hl : l = option_list cb') by (subst cb'; destruct k; cbn in Hh; naive_solver).
  assert (Hrest : NoDup (idle :: l)) by (apply NoDup_cons in Hnd as [Hi [_ Hl']%NoDup_cons]; apply NoDup_cons; split; [set_solver|done]).
  assert (Hwk : worker_work (heap (store s)) (mkWorker (L m m) idle cb ft ia (Judge k)) = ctx_work (m_state g) (m_ctx g))
    by (eapply work_behind; [exact Hg|exact Hh|by right]).
  assert (Hput : ∀ y, ∀ a, a < next_addr (store s) → a ∉ idle :: p :: l → heap (put p y (store s)) !! a = heap (store s) !! a).
  { intros y a _ Ha. eapply same_put; [|exact Ha]. set_solver. }
  assert (Hidle : ∀ y, heap (put p y (store s)) !! idle = Some x) by (intros y; by destruct (own_put idle p l x y (store s) Hnd Hx Hsp)).
  assert (Hcost : ∀ cb1 h', (worker_cost h' (mkWorker (L m m) idle cb1 ft_none ia AtPick) = 0)%nat) by done.
  assert (Hcost' : worker_cost (heap (store s)) (mkWorker (L m m) idle cb ft ia (Judge k)) = (6 + ctx_cost (m_state g) (m_ctx g))%nat)
    by (unfold worker_cost; cbn [w_pc]; by erewrite cost_held by done).
  assert (Hquiet : ∀ cb1 h', worker_work h' (mkWorker (L m m) idle cb1 ft_none ia AtPick) = []) by done.
  destruct Hpk as [Hfin|[Hhold|(Hready & b & Hc & Hb)]].
  - assert (Hkeep : (if k then goes stack (m_threadCount s) (m_stopping s) (m_autoStop s) (workers s) i mv (store s) (m_fibers s) (mkWorker (L m m) idle cb ft ia (Judge k)) (trace s)
        (put p (set_state INIT (set_ctx CtxMain (set_cb None g))) (store s)) (m_fibers s) (mkWorker (L m m) idle cb ft_none ia AtPick) (trace s)
      else goes stack (m_threadCount s) (m_stopping s) (m_autoStop s) (workers s) i mv (store s) (m_fibers s) (mkWorker (L m m) idle cb ft ia (Judge k)) (trace s)
        (store s) (m_fibers s) (mkWorker (L m m) idle cb ft_none ia AtPick) (trace s))) by (destruct (m_state g); try done; by destruct k).
    assert (Hnone : ctx_work (m_state g) (m_ctx g) = []) by (by destruct (m_state g)). clear Hgo. destruct k.
    + destruct Hh as (-> & -> & ->). eapply (Hhere _ _ _ [idle; p]); [by apply Hmoves| |apply Hput| |done|by left|by rewrite Hquiet, Hwk, Hnone|left; split; [rewrite Hcost, Hcost'; lia|by eapply advancing]].
      * apply fresh_put; [done|by rewrite Hg].
      * destruct (own_put idle p [] x (set_state INIT (set_ctx CtxMain (set_cb None g))) (store s) Hnd Hx) as [Hx' _]; [constructor|].
        eapply (ok_between _ _ _ _ (Some p)); [exact Hx'|done| |done]. constructor; [|constructor]. eexists. split; [apply heap_put_eq|done].
    + eapply (Hhere _ _ _ (idle :: l)); [by apply Hmoves|done|done| |done| |by rewrite Hquiet, Hwk, Hnone|left; split; [rewrite Hcost, Hcost'; lia|by eapply advancing]].
      * rewrite Hl. eapply ok_between; [exact Hx|done|by rewrite <-Hl|done].
      * intros a Ha. left. set_solver.
  - rewrite Hhold in *. destruct (own_put idle p l x (set_state HOLD g) (store s) Hnd Hx Hsp) as [Hx' Hsp'].
    eapply (Hhere _ _ _ (idle :: l)); [by apply Hmoves| |apply Hput| |done| |by rewrite Hquiet, Hwk|left; split; [rewrite Hcost, Hcost'; lia|by eapply advancing]].
    + apply fresh_put; [done|by rewrite Hg].
    + rewrite Hl. eapply (ok_between _ _ _ _ cb'); [exact Hx'|done|by rewrite <-Hl|done].
    + intros a Ha. left. set_solver.
  - rewrite Hready in *. eapply (Hqueue _ _ (qo ++ [[p]]) (idle :: l)); [by apply Hmoves| | | | |].
    + apply Forall2_app; [apply (i_queue _ _ _ _ Hinv)|]. constructor; [by eapply queued_fiber|constructor].
    + rewrite Hl. eapply (ok_between _ _ _ _ cb'); [exact Hx|done|by rewrite <-Hl|done].
    + rewrite concat_app. cbn. apply Permutation_submseteq. solve_Permutation.
    + rewrite queue_work_app, Hquiet, Hwk. unfold queue_work, task_work, fiber_work. cbn. by rewrite Hg, Hready, !app_nil_r.
    + left. split; [|by eapply advancing]. rewrite queue_cost_app, Hcost, Hcost', Hc. unfold queue_cost, task_cost. cbn -[Nat.mul]. unfold fiber_cost. rewrite Hg, Hready, Hc. cbn -[Nat.mul]. lia.
Qed.

Lemma keep_step : kept_by w.
Proof.
  destruct (w_pc w) eqn:Hpc.
  - destruct (settles stack s all qo wo i w mv Hinv Hw Hmv) as (o & Ho & _). inversion Ho; subst; not_here Hpc.
  - by apply keep_start.
  - by apply keep_pick.
  - by apply keep_dispatch.
  - by eapply keep_body.
  - by eapply keep_leaving.
  - by eapply keep_after.
  - by eapply keep_judge.
  - by apply keep_idle.
  - by apply keep_wake.
  - assert (Hst : stage_of (heap (store s)) w = SExited) by (unfold stage_of; by rewrite Hpc).
    exists s, qo, wo, w. split; [unfold step; erewrite bind_done; [|unfold worker_of; by rewrite Hw]; by rewrite Hpc|].
    split_and!; try done; [by rewrite list_insert_id|]. right. unfold idles. by rewrite Hst.
Qed.
End cases.

(** ** Executions *)
(** Callbacks, from outside the scheduler, at any time; moves of the worker threads, which are
    numbered from 0; [stop] from a thread that is not one of them. *)
Definition callback (ft : FiberAndThread) : bool :=
  match ft_fiber ft, ft_cb ft with None, Some (FBody b) => simple b && pin (ft_thread ft) | _, _ => false end.
Definition allowed (n : nat) (e : event) : bool :=
  match e with
  | Move _ (IdleTask _) => false
  | Move i _ => bool_decide (i < n)%nat
  | Schedule ft => callback ft
  | ScheduleRange l => forallb callback l
  | Stop on_worker => negb on_worker
  end.
(** What is asked for. *)
Definition asked (e : event) : list Z :=
  match e with Schedule ft => task_work ∅ ft | ScheduleRange l => queue_work ∅ l | _ => [] end.

Lemma callback_queued h ft : callback ft = true → queued h ft [] ∧ ∀ h', task_work h' ft = task_work h ft.
Proof. destruct ft as [[p|] [[b| |]|] th]; try done. intros [Hb Ht]%andb_true_iff. split; [by constructor|done]. Qed.
Lemma scheduleNoLock_callback ft q : callback ft = true → (scheduleNoLock ft q).1 = q ++ [ft].
Proof. by destruct ft as [[p|] [[b| |]|] th]. Qed.
Lemma range_queue l : ∀ q need, Forall (λ ft, callback ft = true) l → (scheduleNoLock_range l q need).1 = q ++ l.
Proof.
  induction l as [|ft l IH]; intros q need Hl; [by rewrite app_nil_r|]. inversion Hl as [|? ? Hft Hl']; subst.
  cbn. destruct (scheduleNoLock ft q) as [q1 b] eqn:E. rewrite IH by done.
  pose proof (scheduleNoLock_callback ft q Hft) as H. rewrite E in H. cbn in H. subst. by rewrite <-app_assoc.
Qed.

(** Callbacks that join the queue from outside. *)
Lemma inv_queue s all qo wo l s' : inv s all qo wo → Forall (λ ft, callback ft = true) l →
  store s' = store s → m_fibers s' = m_fibers s ++ l → workers s' = workers s → trace s' = trace s → m_rootFiber s' = None ∧ m_rootThread s' = -1 →
  ∃ qo', inv s' (all ++ queue_work ∅ l) qo' wo.
Proof.
  intros [Hf Hq Hw Hnd Hwk _] Hl Hst Hqu Hws Htr Hroot.
  assert (Hl' : Forall2 (queued (heap (store s))) l (replicate (length l) [])).
  { clear -Hl. induction Hl; cbn; constructor; [by apply callback_queued|done]. }
  assert (Hnil : concat (replicate (length l) ([] : list Z)) = []) by (clear; by induction l).
  assert (Hlw : ∀ h h', queue_work h l = queue_work h' l).
  { intros h h'. unfold queue_work. f_equal. apply list_fmap_ext. intros j ft Hj. symmetry. rewrite Forall_lookup in Hl. by apply callback_queued, (Hl j). }
  exists (qo ++ replicate (length l) []). constructor; rewrite ?Hst, ?Hqu, ?Hws, ?Htr; try done.
  - by apply Forall2_app.
  - by rewrite concat_app, Hnil, app_nil_r.
  - rewrite <-Hwk. unfold pending. rewrite Hst, Hqu, Hws, queue_work_app, (Hlw ∅ (heap (store s))). solve_Permutation.
Qed.

Lemma keep_event stack n e s all qo wo : pin (-1) = true → allowed n e = true → inv s all qo wo → length (workers s) = n →
  ∃ s' qo' wo', exec1 stack e s = Done s' () ∧ inv s' (all ++ asked e) qo' wo' ∧ length (workers s') = n.
Proof.
  intros Hpin Ha Hinv Hn. pose proof (i_root _ _ _ _ Hinv) as Hroot. destruct e as [i mv|ft|l|b]; cbn [exec1 asked allowed] in *; rewrite ?app_nil_r.
  - assert (Hmv : ∀ ft, mv ≠ IdleTask ft) by (by destruct mv). assert (Hi : (i < length (workers s))%nat) by (destruct mv; try done; by apply bool_decide_eq_true in Ha; subst).
    apply lookup_lt_is_Some in Hi as [w Hw]. destruct (keep_step stack s all qo wo i w mv Hinv Hw Hmv) as (s' & qo' & wo' & w' & Hs & Hinv' & Hws & _).
    exists s', qo', wo'. split; [done|]. split; [done|]. by rewrite Hws, length_insert.
  - assert (Hl : Forall (λ ft, callback ft = true) [ft]) by (by constructor; [|constructor]).
    pose proof (scheduleNoLock_callback ft (m_fibers s) Ha) as Hq. unfold schedule, mbind, M_bind. cbn.
    destruct (scheduleNoLock ft (m_fibers s)) as [q need]. cbn in Hq. subst q.
    assert (Hwork : queue_work ∅ [ft] = task_work ∅ ft) by (unfold queue_work; cbn; by rewrite app_nil_r). rewrite <-Hwork.
    destruct need; cbn; (edestruct (inv_queue s all qo wo [ft]) as [qo' Hinv'];
      [exact Hinv|done| | | | | |eexists _, qo', wo; split; [reflexivity|split; [exact Hinv'|done]]]; done).
  - assert (Hl : Forall (λ ft, callback ft = true) l) by (by apply Forall_forall; intros x Hx; apply forallb_forall with (x := x) in Ha; [|by apply list_elem_of_In]).
    set (l' := (λ t, mkFT (ft_fiber t) (ft_cb t) (-1)) <$> l).
    assert (Hl2 : Forall (λ ft, callback ft = true) l') by (apply Forall_fmap; eapply Forall_impl; [exact Hl|]; intros [[] [[]|] ?]; try done; cbn; rewrite Hpin, !andb_true_iff; tauto).
    pose proof (range_queue l' (m_fibers s) false Hl2) as Hq. unfold schedule_range, mbind, M_bind. cbn. fold l'.
    destruct (scheduleNoLock_range l' (m_fibers s) false) as [q need]. cbn in Hq. subst q.
    assert (Hwork : queue_work ∅ l' = queue_work ∅ l) by (unfold queue_work, l'; f_equal; rewrite <-list_fmap_compose; by apply list_fmap_ext). rewrite <-Hwork.
    destruct need; cbn; (edestruct (inv_queue s all qo wo l') as [qo' Hinv'];
      [exact Hinv|done| | | | | |eexists _, qo', wo; split; [reflexivity|split; [exact Hinv'|done]]]; done).
  - destruct b; [done|]. destruct Hroot as [Hr1 Hr2]. unfold stop, mbind, M_bind. cbn. rewrite Hr1. cbn. rewrite Hr2. cbn. rewrite Hr1. cbn.
    eexists _, qo, wo. split; [reflexivity|]. split; [|done]. destruct Hinv. by constructor.
Qed.

Lemma keep_events stack n es : pin (-1) = true → ∀ s all qo wo, Forall (λ e, allowed n e = true) es → inv s all qo wo → length (workers s) = n →
  ∃ s' qo' wo', exec stack es s = Done s' () ∧ inv s' (all ++ concat (asked <$> es)) qo' wo' ∧ length (workers s') = n.
Proof.
  intros Hpin. induction es as [|e es IH]; intros s all qo wo He Hinv Hn; [exists s, qo, wo; by rewrite app_nil_r|]. inversion He as [|? ? H1 H2]; subst.
  destruct (keep_event stack _ e s all qo wo Hpin H1 Hinv eq_refl) as (s1 & qo1 & wo1 & Hs1 & Hinv1 & Hn1).
  destruct (IH s1 _ qo1 wo1 H2 Hinv1 Hn1) as (s' & qo' & wo' & Hs & Hinv' & Hn'). exists s', qo', wo'.
  cbn [exec fmap list_fmap concat]. rewrite (bind_done _ _ _ _ _ Hs1). by rewrite app_assoc.
Qed.

End pins.

(** The scheduler behind its constructor and [start]. *)
Definition ready (threads : Z) : Scheduler :=
  mkScheduler (mkFibers ∅ 1 0 0) [] None threads 0 0 false false (-1) (replicate (Z.to_nat threads) (new_worker AtStart)) 0 [].
Lemma started_ready stack threads es : 0 < threads → started stack threads es = exec stack es (ready threads).
Proof.
  intros Ht. unfold started, Scheduler_new. replace (threads >? 0) with true by lia. unfold start, mbind, M_bind. by cbn.
Qed.
Lemma ready_inv pin threads : inv pin (ready threads) [] [] (replicate (Z.to_nat threads) []).
Proof.
  constructor; try done.
  - cbn. induction (Z.to_nat threads); cbn; constructor; [constructor|done].
  - cbn. assert (concat (replicate (Z.to_nat threads) ([] : list Z)) = []) as -> by (by induction (Z.to_nat threads)). constructor.
  - unfold pending. cbn. by induction (Z.to_nat threads).
Qed.
Lemma ready_counters threads : 0 < threads < 2 ^ 63 → counters (view_of (ready threads)).
Proof. intros Ht. apply (counters_fresh 0 0 (false, false) [] (Z.to_nat threads)); [done|done|unfold zlen; cbn [length]; lia|constructor]. Qed.

Lemma no_busy l : count busy l = 0 → Forall (λ x, busy x = false) l.
Proof.
  induction l as [|x l IH]; cbn; [constructor|]. pose proof (count_range busy l). destruct (busy x) eqn:Hb; cbn; [lia|]. intros Ha. constructor; auto.
Qed.
Lemma stopping_idle s : counters (view_of s) → stopping s = true → Forall (λ w, ∀ k, w_pc w ≠ Judge k) (workers s) → pending s = [].
Proof.
  intros (Ha & _ & He & _) [Hq Ha0]%stopping_true Hj. cbn in Ha, He. rewrite Ha0 in Ha. symmetry in Ha. apply no_busy in Ha.
  unfold pending. rewrite Hq. cbn. apply Forall_fmap in Ha. apply Forall_fmap in He.
  induction (workers s) as [|w ws IH]; [done|]. inversion Ha as [|? ? Hb Ha']; inversion He as [|? ? He1 He']; inversion Hj as [|? ? Hj1 Hj']; subst.
  cbn. rewrite IH, app_nil_r by done. unfold worker_work, empty_handed, w_view, busy in *. cbn in *.
  destruct (w_pc w) eqn:Hpc; try done.
  - rewrite He1; done.
  - by destruct (Hj1 cbf).
Qed.

(** C1: any number of worker threads, in any interleaving of their steps with calls of
    [schedule] and [stop] from outside, do the work of callbacks exactly once: no step fails
    or asserts; at any time what has been done ([trace]) and what the queue and the threads
    still hold ([pending]) together are what was asked for; and once [stopping()] is true,
    all of it has been done, unless a thread is about to reschedule the fiber it just left. *)
Theorem workers_do_all_work stack threads es : 0 < threads < 2 ^ 63 →
  Forall (λ e, allowed (λ _, true) (Z.to_nat threads) e = true) es →
  ∃ s, started stack threads es = Done s () ∧ trace s ++ pending s ≡ₚ concat (asked <$> es) ∧
    (stopping s = true → Forall (λ w, ∀ k, w_pc w ≠ Judge k) (workers s) → trace s ≡ₚ concat (asked <$> es)).
Proof.
  intros Ht He. rewrite started_ready by lia.
  destruct (keep_events (λ _, true) stack _ es eq_refl (ready threads) _ _ _ He (ready_inv _ threads)) as (s & qo & wo & Hs & Hinv & _); [apply length_replicate|].
  pose proof (i_work _ _ _ _ _ Hinv) as Hwk. exists s. split; [done|]. split; [done|]. intros Hst Hj.
  pose proof (counters_exec stack _ _ _ _ (ready_counters threads Ht) Hs) as Hc. by rewrite (stopping_idle s Hc Hst Hj), app_nil_r in Hwk.
Qed.

Definition two_scripts : list FiberAndThread :=
  [task_cb (BEmit 1 (BYieldToReady (BEmit 2 BRet))); task_cb (BSchedule (TCb (BEmit 3 BThrow)) 1 (BEmit 4 BRet))].
Lemma workers_do_all_work_witness : ∃ s,
  started 131072 2 ([ScheduleRange two_scripts; Stop false] ++ moves ([0; 1; 0; 1; 0; 1; 0; 1; 1; 0; 1; 1; 0; 0; 1; 1; 1]%nat)) = Done s () ∧
  trace s ++ pending s ≡ₚ [1; 2; 3; 4].
Proof.
  destruct (workers_do_all_work 131072 2 ([ScheduleRange two_scripts; Stop false] ++ moves ([0; 1; 0; 1; 0; 1; 0; 1; 1; 0; 1; 1; 0; 0; 1; 1; 1]%nat)))
    as (s & Hs & Hp & _); [lia|by repeat constructor|].
  exists s. split; [exact Hs|]. rewrite Hp. reflexivity.
Defined.
