(* ===== verification/SchedulerEnds.v ===== *)
(** * SchedulerEnds: with threads that keep moving, a stopped scheduler ends

    The callbacks of this file are pinned to no thread.  What is left to do bounds the moves
    of the workers that have a task; a worker without one comes back to the queue within four
    moves, as long as its idle fiber has not ended; and when nothing is left, [stopping()] is
    true and every worker leaves [run]. *)
From S2P Require Import Prelude Fiber Scheduler SchedulerFacts SchedulerRR SchedulerWork.
Open Scope Z_scope.

Definition unpinned (thread : Z) : bool := thread =? -1.
Definition stages (s : Scheduler) : list stage := stage_of (heap (store s)) <$> workers s.

Lemma unpinned_scan tid h q qo t : Forall2 (queued unpinned h) q qo → scan tid h q = Some (None, q, t) → q = [].
Proof.
  intros [|it x q' qo' Hit _]; [done|]. cbn [scan]. destruct Hit as [b th _ Hth|p f b Hp Hs _ _ _]; cbn [ft_thread ft_fiber ft_cb].
  - unfold unpinned in Hth. rewrite Hth. cbn. done.
  - cbn. rewrite Hp. cbn. by rewrite bool_decide_eq_false_2 by (by rewrite Hs).
Qed.
(** A worker has something to do exactly when its stage says so. *)
Lemma working_cost pin h w o : worker_ok pin h w o → (∃ e, stage_of h w = SWork e) ↔ (0 < worker_cost h w)%nat.
Proof.
  intros H. unfold stage_of, worker_cost. split.
  - intros [e He]. destruct H as [|m idle x cb ia p ? ? ? Hb|? ? ? ? ? ? ? ? ? Hq| | |? ? ? ? ? ? ? ? ? ? ? ? ? ? ? ? ? [-> | ->]|]; cbn in *; try done; try lia.
    all: try (destruct p; cbn in *; by subst). all: try (apply task_cost_queued in Hq; lia).
  - destruct H as [|m idle x cb ia p ? ? ? Hb|? ? ? ? ? ? ? ? ? Hq| | |? ? ? ? ? ? ? ? ? ? ? ? ? ? ? ? ? [-> | ->]|]; cbn; try lia; eauto.
    all: destruct p; cbn in *; try lia; try done.
Qed.
Lemma sum_list_pos l : (0 < sum_list l)%nat → ∃ j x, l !! j = Some x ∧ (0 < x)%nat.
Proof.
  induction l as [|x l IH]; cbn; [lia|]. intros H. destruct (decide (x = 0)%nat) as [->|]; [|exists 0%nat, x; split; [done|lia]].
  destruct IH as (j & y & Hj & Hy); [done|]. by exists (S j), y.
Qed.
Lemma sum_list_zero l j x : sum_list l = 0%nat → l !! j = Some x → x = 0%nat.
Proof. revert j. induction l as [|y l IH]; intros [|j] Hs H; cbn in *; try done; [injection H as ->; lia|]. apply (IH j); [lia|done]. Qed.

Section ends.
Context (stack : Z) (all : list Z) (n : nat).

Definition good (s : Scheduler) : Prop :=
  (∃ qo wo, inv unpinned s all qo wo) ∧ counters (view_of s) ∧ length (workers s) = n.

(** One move of worker [i], as far as the end of the scheduler depends on it. *)
Record moved (mv : move) (i : nat) (s s' : Scheduler) : Prop := {
  mv_good : good s';
  mv_flags : m_stopping s' = m_stopping s ∧ m_autoStop s' = m_autoStop s;
  mv_stages : ∃ st st', stages s !! i = Some st ∧ stages s' = <[i:=st']> (stages s) ∧
    ((cost s' < cost s)%nat ∧ (∃ e, works e st ∧ works e st') ∨
     cost s' = cost s ∧ m_fibers s' = m_fibers s ∧ st' = next (stopping s && is_go mv) st ∧ (∀ e, st ≠ SWork e) ∧ (∀ e, st = SPick e → m_fibers s = []))
}.

Lemma move_ok mv i s : (∀ ft, mv ≠ IdleTask ft) → good s → (i < n)%nat → ∃ s', step stack i mv s = Done s' () ∧ moved mv i s s'.
Proof.
  intros Hmv ((qo & wo & Hinv) & Hc & Hn) Hi. rewrite <-Hn in Hi. apply lookup_lt_is_Some in Hi as [w Hw].
  destruct (keep_step unpinned stack s all qo wo i w mv Hinv Hw Hmv) as (s' & qo' & wo' & w' & Hs & Hinv' & Hws & Hoth & Hf1 & Hf2 & Hcost).
  exists s'. split; [done|]. constructor; [|done|].
  - split; [by exists qo', wo'|]. split; [by eapply (counters_exec1 stack (Move i mv))|]. by rewrite Hws, length_insert.
  - assert (Hst' : stages s' = <[i:=stage_of (heap (store s')) w']> (stages s)).
    { unfold stages. rewrite Hws. apply list_eq. intros j. destruct (decide (j = i)) as [->|Hj].
      - rewrite list_lookup_fmap, !list_lookup_insert_eq; [done|rewrite length_fmap|]; by eapply lookup_lt_Some.
      - rewrite list_lookup_fmap, !list_lookup_insert_ne, list_lookup_fmap by done.
        destruct (workers s !! j) as [v|] eqn:Hv; [|done]. cbn. f_equal. by apply (Hoth j). }
    exists (stage_of (heap (store s)) w), (stage_of (heap (store s')) w'). split; [unfold stages; by rewrite list_lookup_fmap, Hw|]. split; [done|].
    destruct Hcost as [[Hlt He]|(Heq & Hq & Hnext & Hnw & Hpick)]; [by left|right]. split_and!; try done.
    intros e He. destruct (Hpick e He) as [t Ht]. eapply unpinned_scan; [exact (i_queue _ _ _ _ _ Hinv)|exact Ht].
Qed.

Inductive run : list nat → Scheduler → Scheduler → Prop :=
| run_nil s : run [] s s
| run_cons i l s s1 s' : moved Go i s s1 → run l s1 s' → run (i :: l) s s'.
Lemma run_ok l : ∀ s, good s → Forall (λ i, (i < n)%nat) l → ∃ s', exec stack (moves l) s = Done s' () ∧ run l s s' ∧ good s'.
Proof.
  induction l as [|i l IH]; intros s Hg Hl; [exists s; split; [done|split; [apply run_nil|done]]|]. inversion Hl as [|? ? Hi Hl']; subst.
  destruct (move_ok Go i s) as (s1 & Hs1 & Hm); [done|done|done|]. destruct (IH s1 (mv_good _ _ _ _ Hm) Hl') as (s' & Hs & Hr & Hg').
  exists s'. split; [|split; [by econstructor|done]]. cbn. by rewrite (bind_done _ _ _ _ _ Hs1).
Qed.
Lemma run_app l1 l2 s s' : run (l1 ++ l2) s s' → ∃ s1, run l1 s s1 ∧ run l2 s1 s'.
Proof.
  revert s. induction l1 as [|i l IH]; intros s H; [exists s; by split; [constructor|]|]. inversion H as [|? ? ? s1 ? Hm Hr]; subst.
  destruct (IH s1 Hr) as (s2 & H1 & H2). exists s2. split; [by econstructor|done].
Qed.
Lemma run_good l s s' : good s → run l s s' → good s' ∧ (cost s' ≤ cost s)%nat ∧ m_stopping s' = m_stopping s ∧ m_autoStop s' = m_autoStop s.
Proof.
  intros Hg Hr. induction Hr as [|i l s s1 s' [Hg1 [Hf1 Hf2] (st & st' & _ & _ & Hc)] _ IH]; [done|].
  destruct (IH Hg1) as (? & ? & ? & ?). split; [done|]. split; [destruct Hc as [[? _]|[? _]]; lia|]. split; congruence.
Qed.

(** ** A worker comes to the queue *)
Definition awake (st : stage) : bool := match st with SExited | SDispatch true => false | _ => true end.
Definition some_awake (s : Scheduler) : Prop := ∃ j st, stages s !! j = Some st ∧ awake st = true.
(** The moves a worker needs until it takes a task or goes on with the one it has. *)
Definition rank (st : stage) : nat :=
  match st with SWork _ | SPick _ => 1 | SStart | SAfter _ => 2 | SIdle => 3 | SDispatch _ => 4 | SExited => 0 end.
Definition ready_to (j : nat) (r : nat) (s : Scheduler) : Prop :=
  ∃ st, stages s !! j = Some st ∧ awake st = true ∧ rank st = r ∧ (m_fibers s ≠ [] ∨ ∃ e, st = SWork e).

Lemma stages_insert i j s s' st st' : stages s' = <[i:=st']> (stages s) → stages s !! i = Some st →
  stages s' !! j = if decide (j = i) then Some st' else stages s !! j.
Proof.
  intros -> Hi. destruct (decide (j = i)) as [->|Hj]; [|by rewrite list_lookup_insert_ne].
  apply list_lookup_insert_eq. by eapply lookup_lt_Some.
Qed.

Lemma ready_move i j r s s' : ready_to j r s → moved Go i s s' →
  (cost s' < cost s)%nat ∨ cost s' = cost s ∧ ∃ r', (r' ≤ r)%nat ∧ ready_to j r' s' ∧ (i = j → r' < r)%nat.
Proof.
  intros (st & Hj & Haw & Hr & Hw) [_ _ (st0 & st1 & Hi & Hst & [[Hlt _]|(Heq & Hq & -> & Hnw & Hpick)])]; [by left|]. right. split; [done|].
  unfold ready_to. rewrite (stages_insert _ j _ _ _ _ Hst Hi). destruct (decide (j = i)) as [->|Hne].
  - rewrite Hj in Hi. injection Hi as <-. destruct Hw as [Hw|[e ->]]; [|by destruct (Hnw e)].
    rewrite Hq. destruct st as [e| |e|e| |e|]; try done; [by destruct (Hnw e)| |by destruct Hw, (Hpick e)|destruct e; [done|]| |].
    all: eexists; split; [|split; [eexists; split; [done|]; split; [done|]; split; [done|by left]|]]; cbn in *; lia.
  - exists r. split; [done|]. split; [|by intros ->]. exists st. by rewrite Hq.
Qed.
Lemma ready_run j l : ∀ r s s', ready_to j r s → run l s s' → good s →
  (cost s' < cost s)%nat ∨ cost s' = cost s ∧ ∃ r', (r' ≤ r)%nat ∧ ready_to j r' s' ∧ (j ∈ l → r' < r)%nat.
Proof.
  induction l as [|i l IH]; intros r s s' Hr Hrun Hg; inversion Hrun as [|? ? ? s1 ? Hm Hrun']; subst.
  - right. split; [done|]. exists r. split; [done|]. split; [done|]. intros Hin. by apply not_elem_of_nil in Hin.
  - pose proof (mv_good _ _ _ _ Hm) as Hg1. destruct (run_good _ _ _ Hg1 Hrun') as (_ & Hle & _).
    destruct (ready_move i j r s s1 Hr Hm) as [|(Heq & r1 & Hr1 & Hrd & Hlt)]; [left; lia|].
    destruct (IH r1 s1 s' Hrd Hrun' Hg1) as [|(Heq2 & r2 & Hr2 & Hrd2 & Hlt2)]; [left; lia|]. right. split; [lia|].
    exists r2. split; [lia|]. split; [done|]. intros [->|Hin]%elem_of_cons; [specialize (Hlt eq_refl)|specialize (Hlt2 Hin)]; lia.
Qed.

(** An interleaving in which every worker moves. *)
Definition fair (l : list nat) : Prop := Forall (λ i, (i < n)%nat) l ∧ ∀ i, (i < n)%nat → i ∈ l.

Lemma stage_bound s j st : good s → stages s !! j = Some st → (j < n)%nat.
Proof. intros (_ & _ & <-) Hj. apply lookup_lt_Some in Hj. unfold stages in Hj. by rewrite length_fmap in Hj. Qed.
Lemma ready_segments r : ∀ j segs s s', ready_to j r s → good s → Forall fair segs → (r ≤ length segs)%nat → run (concat segs) s s' → (cost s' < cost s)%nat.
Proof.
  induction r as [r IH] using lt_wf_ind. intros j segs s s' Hr Hg Hf Hle Hrun.
  assert (Hpos : (0 < r)%nat) by (destruct Hr as (st & _ & Haw & <- & _); destruct st; cbn in *; try lia; done).
  destruct segs as [|l segs]; [cbn in Hle; lia|]. inversion Hf as [|? ? [Hl Hall] Hf']; subst. cbn in Hle, Hrun.
  apply run_app in Hrun as (s1 & Hr1 & Hr2). destruct (run_good _ _ _ Hg Hr1) as (Hg1 & Hle1 & _). destruct (run_good _ _ _ Hg1 Hr2) as (_ & Hle2 & _).
  destruct (ready_run j l r s s1 Hr Hr1 Hg) as [|(Heq & r1 & _ & Hrd & Hlt)]; [lia|].
  assert (Hj : (j < n)%nat) by (destruct Hr as (st & Hj & _); exact (stage_bound _ _ _ Hg Hj)). specialize (Hlt (Hall j Hj)).
  enough (cost s' < cost s1)%nat by lia. eapply (IH r1); try done. lia.
Qed.

(** While something is left to do there is such a worker. *)
Lemma working_stage s : good s → (0 < cost s)%nat → m_fibers s = [] → ∃ j e, stages s !! j = Some (SWork e).
Proof.
  intros ((qo & wo & Hinv) & _ & _) Hc Hq. unfold cost in Hc. rewrite Hq in Hc. cbn in Hc.
  apply sum_list_pos in Hc as (j & x & Hj & Hx). rewrite list_lookup_fmap in Hj. destruct (workers s !! j) as [w|] eqn:Hw; [|done]. injection Hj as <-.
  destruct (Forall2_lookup_l _ _ _ _ _ (i_workers _ _ _ _ _ Hinv) Hw) as (o & _ & Ho).
  apply (working_cost _ _ _ _ Ho) in Hx as [e He]. exists j, e. unfold stages. by rewrite list_lookup_fmap, Hw, <-He.
Qed.
Lemma ready_exists s : good s → (0 < cost s)%nat → some_awake s → ∃ j r, (r ≤ 4)%nat ∧ ready_to j r s.
Proof.
  intros Hg Hc (j & st & Hj & Haw). destruct (decide (m_fibers s = [])) as [Hq|Hq].
  - destruct (working_stage s Hg Hc Hq) as (k & e & Hk). exists k, 1%nat. split; [lia|]. exists (SWork e). split_and!; eauto.
  - exists j, (rank st). split; [destruct st; cbn; lia|]. exists st. split_and!; eauto.
Qed.
Lemma awake_move i s s' : good s → ((0 < cost s)%nat → some_awake s) → moved Go i s s' → (0 < cost s')%nat → some_awake s'.
Proof.
  intros Hg Ha [Hg' _ (st0 & st1 & Hi & Hst & Hc)] Hpos.
  destruct Hc as [[_ (e & _ & Hw)]|(Heq & Hq & -> & Hnw & Hpick)].
  - exists i, st1. rewrite (stages_insert _ i _ _ _ _ Hst Hi), decide_True by done. split; [done|]. by destruct Hw as [-> | ->].
  - rewrite Heq in Hpos. destruct (decide (m_fibers s = [])) as [Hnil|Hnil].
    + rewrite <-Hq in Hnil. destruct (working_stage s' Hg') as (k & e & Hk); [lia|done|]. by exists k, (SWork e).
    + destruct (Ha Hpos) as (j & st & Hj & Haw). exists j. rewrite (stages_insert _ j _ _ _ _ Hst Hi). destruct (decide (j = i)) as [->|]; [|by exists st].
      rewrite Hj in Hi. injection Hi as <-. eexists. split; [done|].
      destruct st as [e| |e|[]| |e|]; try done. by destruct Hnil, (Hpick e).
Qed.
Lemma awake_run l s s' : good s → ((0 < cost s)%nat → some_awake s) → run l s s' → (0 < cost s')%nat → some_awake s'.
Proof.
  intros Hg Ha Hr. revert Hg Ha. induction Hr as [|i l s s1 s' Hm Hr IH]; intros Hg Ha; [done|].
  apply IH; [apply (mv_good _ _ _ _ Hm)|]. by apply (awake_move i s).
Qed.

(** ** When nothing is left *)
Lemma busy_stage h w : busy (w_view w) = true → ∃ e, stage_of h w = SWork e.
Proof. unfold busy, w_view, stage_of. cbn. destruct (w_pc w); try done; eauto. intros ->. eauto. Qed.
Lemma nothing_left s : good s → m_stopping s = true → m_autoStop s = true → cost s = 0%nat →
  m_fibers s = [] ∧ m_activeThreadCount s = 0 ∧ stopping s = true ∧ ∀ j st e, stages s !! j = Some st → st ≠ SWork e.
Proof.
  intros ((qo & wo & Hinv) & (Ha & _) & _) H1 H2 Hc. unfold cost in Hc.
  assert (Hq : m_fibers s = []).
  { destruct (m_fibers s) as [|ft q] eqn:E; [done|]. pose proof (i_queue _ _ _ _ _ Hinv) as Hq. rewrite E in Hq. inversion Hq as [|? o ? ? Hft]; subst.
    apply task_cost_queued in Hft. unfold queue_cost in Hc. cbn -[task_cost] in Hc. lia. }
  assert (Hst : ∀ j st e, stages s !! j = Some st → st ≠ SWork e).
  { intros j st e Hj ->. unfold stages in Hj. rewrite list_lookup_fmap in Hj. destruct (workers s !! j) as [w|] eqn:Hw; [|done]. injection Hj as Hj.
    destruct (Forall2_lookup_l _ _ _ _ _ (i_workers _ _ _ _ _ Hinv) Hw) as (o & _ & Ho).
    assert (Hpos : (0 < worker_cost (heap (store s)) w)%nat) by (apply (working_cost _ _ _ _ Ho); eauto).
    rewrite (sum_list_zero (worker_cost (heap (store s)) <$> workers s) j (worker_cost (heap (store s)) w)) in Hpos; [lia|lia|by rewrite list_lookup_fmap, Hw]. }
  assert (Hact : m_activeThreadCount s = 0).
  { cbn in Ha. rewrite Ha. unfold stages in Hst. clear -Hst. induction (workers s) as [|w ws IH]; [done|]. cbn. rewrite IH by (intros j; apply (Hst (S j))).
    destruct (busy (w_view w)) eqn:Hb; [|done]. destruct (busy_stage (heap (store s)) w Hb) as [e He]. by destruct (Hst 0%nat _ e eq_refl). }
  split; [done|]. split; [done|]. split; [|done]. unfold stopping. by rewrite H1, H2, Hq, Hact.
Qed.

(** The moves until a worker has left [run]. *)
Definition to_exit (st : stage) : nat :=
  match st with
  | SStart => 7 | SAfter e => if e then 3 else 7 | SPick e => if e then 2 else 6 | SDispatch e => if e then 1 else 5
  | SIdle => 4 | SWork _ | SExited => 0
  end.
Definition over (s : Scheduler) : Prop := good s ∧ m_stopping s = true ∧ m_autoStop s = true ∧ cost s = 0%nat.
Lemma over_run l s s' : over s → run l s s' → over s'.
Proof.
  intros (Hg & H1 & H2 & Hc) Hr. destruct (run_good _ _ _ Hg Hr) as (Hg' & Hle & E1 & E2). split; [done|]. rewrite E1, E2. split; [done|]. split; [done|lia].
Qed.
Lemma exit_run l : ∀ s s', over s → run l s s' → ∀ j st, stages s !! j = Some st →
  ∃ st', stages s' !! j = Some st' ∧ (to_exit st' ≤ to_exit st)%nat ∧ (j ∈ l → to_exit st' ≤ pred (to_exit st))%nat.
Proof.
  induction l as [|i l IH]; intros s s' Ho Hr j st Hj; inversion Hr as [|? ? ? s1 ? Hm Hr']; subst.
  { exists st. split; [done|]. split; [done|]. intros Hin. by apply not_elem_of_nil in Hin. }
  assert (Hr1 : run [i] s s1) by (econstructor; [exact Hm|constructor]). pose proof (over_run _ _ _ Ho Hr1) as Ho1.
  destruct Ho as (Hg & H1 & H2 & Hc). destruct (nothing_left s Hg H1 H2 Hc) as (_ & _ & Hstop & _).
  destruct Hm as [_ _ (st0 & st1 & Hi & Hst & [[Hlt _]|(_ & _ & -> & Hnw & _)])]; [lia|]. rewrite Hstop in Hst. cbn [is_go andb] in Hst.
  assert (Hdec : (to_exit (next true st0) ≤ pred (to_exit st0))%nat) by (destruct st0 as [e| |[]|[]| |[]|]; cbn; try lia; by destruct (Hnw e)).
  destruct (decide (j = i)) as [->|Hne].
  - rewrite Hi in Hj. injection Hj as ->. destruct (IH s1 s' Ho1 Hr' i (next true st)) as (st' & Hj' & Hle & _).
    { rewrite (stages_insert _ i _ _ _ _ Hst Hi). by rewrite decide_True. }
    exists st'. split; [done|]. split; [lia|]. intros _. lia.
  - destruct (IH s1 s' Ho1 Hr' j st) as (st' & Hj' & Hle & Hin). { rewrite (stages_insert _ j _ _ _ _ Hst Hi). by rewrite decide_False. }
    exists st'. split; [done|]. split; [done|]. intros [?|?]%elem_of_cons; [done|auto].
Qed.
Lemma exit_segments segs : ∀ s s', over s → Forall fair segs → run (concat segs) s s' → ∀ j st, stages s !! j = Some st →
  ∃ st', stages s' !! j = Some st' ∧ (to_exit st' ≤ to_exit st - length segs)%nat.
Proof.
  induction segs as [|l segs IH]; intros s s' Ho Hf Hr j st Hj; cbn in *.
  - inversion Hr; subst. exists st. split; [done|lia].
  - inversion Hf as [|? ? [_ Hall] Hf']; subst. apply run_app in Hr as (s1 & Hr1 & Hr2).
    destruct (exit_run _ _ _ Ho Hr1 j st Hj) as (st1 & Hj1 & _ & Hlt).
    assert (Hjn : (j < n)%nat) by (destruct Ho as [Hg _]; exact (stage_bound _ _ _ Hg Hj)). specialize (Hlt (Hall j Hjn)).
    destruct (IH s1 s' (over_run _ _ _ Ho Hr1) Hf' Hr2 j st1 Hj1) as (st' & Hj' & Hle). exists st'. split; [done|lia].
Qed.

(** Whatever is left, enough fair segments end it. *)
Lemma all_end c : ∀ s s' segs, (cost s ≤ c)%nat → good s → m_stopping s = true → m_autoStop s = true → ((0 < cost s)%nat → some_awake s) →
  Forall fair segs → (4 * c + 7 ≤ length segs)%nat → run (concat segs) s s' → over s' ∧ ∀ j st, stages s' !! j = Some st → st = SExited.
Proof.
  induction c as [|c IH]; intros s s' segs Hc Hg H1 H2 Ha Hf Hlen Hr; (destruct (decide (cost s = 0%nat)) as [Hz|Hnz]; [|try lia]).
  1,2: assert (Ho : over s) by done; pose proof (over_run _ _ _ Ho Hr) as Ho'; split; [done|]; intros j st Hj;
    assert (Hlen' : length (stages s) = length (stages s')) by (unfold stages; rewrite !length_fmap; destruct Ho' as ((_ & _ & ->) & _), Hg as (_ & _ & ->); done);
    (assert (is_Some (stages s !! j)) as [st0 Hj0] by (apply lookup_lt_is_Some; rewrite Hlen'; by eapply lookup_lt_Some));
    destruct (exit_segments segs s s' Ho Hf Hr j st0 Hj0) as (st' & Hj' & Hle); rewrite Hj in Hj'; injection Hj' as <-;
    destruct Ho' as (Hg' & E1 & E2 & E3); destruct (nothing_left s' Hg' E1 E2 E3) as (_ & _ & _ & Hnw);
    assert (to_exit st0 ≤ 7)%nat by (destruct st0 as [| |[]|[]| |[]|]; cbn; lia);
    destruct st as [e| |[]|[]| |[]|]; cbn in Hle; try lia; try done; by destruct (Hnw j _ e Hj).
  rewrite <-(take_drop 4 segs), concat_app in Hr. apply run_app in Hr as (s1 & Hr1 & Hr2).
  destruct (ready_exists s Hg) as (j & r & Hr4 & Hrd); [lia|apply Ha; lia|].
  assert (Hlt : (cost s1 < cost s)%nat).
  { eapply (ready_segments r j (take 4 segs)); [exact Hrd|exact Hg|by apply Forall_take|rewrite length_take; lia|exact Hr1]. }
  destruct (run_good _ _ _ Hg Hr1) as (Hg1 & _ & E1 & E2).
  apply (IH s1 s' (drop 4 segs)); [lia|done|congruence|congruence|exact (awake_run _ _ _ Hg Ha Hr1)|by apply Forall_drop|rewrite length_drop; lia|done].
Qed.
End ends.

(** ** Before [stop] *)
(** No idle fiber has ended. *)
Definition lasting (st : stage) : bool :=
  match st with SWork e | SPick e | SDispatch e | SAfter e => negb e | SExited => false | SStart | SIdle => true end.
Definition early (s : Scheduler) : Prop := m_autoStop s = false ∧ ∀ j st, stages s !! j = Some st → lasting st = true.

Lemma early_move all n mv i s s' : early s → moved all n mv i s s' → early s'.
Proof.
  intros [Hau Hst] [_ [_ Hf] (st0 & st1 & Hi & Hs & Hc)]. split; [congruence|]. intros j st. rewrite (stages_insert _ j _ _ _ _ Hs Hi).
  destruct (decide (j = i)) as [->|]; [|apply Hst]. intros [= <-]. specialize (Hst i st0 Hi).
  destruct Hc as [[_ (e & Hw & Hw')]|(_ & _ & -> & _)].
  - by destruct Hw as [-> | ->], Hw' as [-> | ->].
  - assert (stopping s = false) as -> by (unfold stopping; by rewrite Hau). by destruct st0 as [| |[]|[]| |[]|].
Qed.
Lemma schedule_same ft s s' : schedule ft s = Done s' () → stages s' = stages s ∧ m_autoStop s' = m_autoStop s.
Proof. unfold schedule, mbind, M_bind. cbn. destruct (scheduleNoLock _ _) as [q []]; cbn; by intros [= <-]. Qed.
Lemma schedule_range_same l s s' : schedule_range l s = Done s' () → stages s' = stages s ∧ m_autoStop s' = m_autoStop s.
Proof. unfold schedule_range, mbind, M_bind. cbn. destruct (scheduleNoLock_range _ _ _) as [q []]; cbn; by intros [= <-]. Qed.

Lemma early_event stack n e all s : allowed unpinned n e = true → (∀ b, e ≠ Stop b) → good all n s → early s →
  ∃ s', exec1 stack e s = Done s' () ∧ good (all ++ asked e) n s' ∧ early s'.
Proof.
  intros Ha Hns Hg He. pose proof Hg as ((qo & wo & Hinv) & Hc & Hn).
  destruct (keep_event unpinned stack n e s all qo wo eq_refl Ha Hinv Hn) as (s' & qo' & wo' & Hs & Hinv' & Hn').
  assert (Hg' : good (all ++ asked e) n s') by (split; [by exists qo', wo'|]; split; [by eapply counters_exec1|done]).
  exists s'. split; [done|]. split; [done|]. destruct e as [i mv|ft|l|b]; cbn in Hs, Ha; [| | |by destruct (Hns b)].
  - assert (Hmv : ∀ ft, mv ≠ IdleTask ft) by (by destruct mv). assert (Hi : (i < n)%nat) by (destruct mv; try done; by apply bool_decide_eq_true in Ha).
    destruct (move_ok stack all n mv i s Hmv Hg Hi) as (s2 & Hs2 & Hm). rewrite Hs in Hs2. injection Hs2 as ->. by eapply early_move.
  - destruct (schedule_same ft s s' Hs) as [E1 E2]. unfold early. by rewrite E1, E2.
  - destruct (schedule_range_same l s s' Hs) as [E1 E2]. unfold early. by rewrite E1, E2.
Qed.
Lemma early_events stack n es : ∀ all s, Forall (λ e, allowed unpinned n e = true) es → Forall (λ e, ∀ b, e ≠ Stop b) es → good all n s → early s →
  ∃ s', exec stack es s = Done s' () ∧ good (all ++ concat (asked <$> es)) n s' ∧ early s'.
Proof.
  induction es as [|e es IH]; intros all s Ha Hns Hg He; [exists s; by rewrite app_nil_r|].
  inversion Ha as [|? ? Ha1 Ha2]; inversion Hns as [|? ? Hn1 Hn2]; subst.
  destruct (early_event stack n e all s Ha1 Hn1 Hg He) as (s1 & Hs1 & Hg1 & He1). destruct (IH _ s1 Ha2 Hn2 Hg1 He1) as (s' & Hs & Hg' & He').
  exists s'. cbn [exec fmap list_fmap concat]. rewrite (bind_done _ _ _ _ _ Hs1), app_assoc. done.
Qed.
Lemma stop_event stack n all s : good all n s → early s → (0 < n)%nat →
  ∃ s', exec1 stack (Stop false) s = Done s' () ∧ good all n s' ∧ m_stopping s' = true ∧ m_autoStop s' = true ∧ some_awake s'.
Proof.
  intros ((qo & wo & Hinv) & Hc & Hn) [_ He] Hpos.
  destruct (keep_event unpinned stack n (Stop false) s all qo wo eq_refl eq_refl Hinv Hn) as (s' & qo' & wo' & Hs & Hinv' & Hn').
  cbn [asked] in Hinv'. rewrite app_nil_r in Hinv'. exists s'. split; [done|].
  split; [split; [by exists qo', wo'|split; [by eapply counters_stop|done]]|].
  assert (Hsame : stages s' = stages s ∧ m_stopping s' = true ∧ m_autoStop s' = true).
  { cbn in Hs. destruct (i_root _ _ _ _ _ Hinv) as [Hr1 Hr2]. unfold stop, mbind, M_bind in Hs. cbn in Hs. rewrite Hr1 in Hs. cbn in Hs. rewrite Hr2 in Hs. cbn in Hs.
    rewrite Hr1 in Hs. cbn in Hs. by injection Hs as <-. }
  destruct Hsame as (E1 & E2 & E3). split; [done|]. split; [done|]. rewrite <-Hn in Hpos. apply lookup_lt_is_Some in Hpos as [w Hw].
  exists 0%nat, (stage_of (heap (store s)) w). rewrite E1. unfold stages. rewrite list_lookup_fmap, Hw. split; [done|].
  assert (Hl : lasting (stage_of (heap (store s)) w) = true) by (apply (He 0%nat); unfold stages; by rewrite list_lookup_fmap, Hw).
  by destruct (stage_of _ _) as [| | |[]| | |].
Qed.
Lemma ready_good threads : 0 < threads < 2 ^ 63 → good [] (Z.to_nat threads) (ready threads) ∧ early (ready threads).
Proof.
  intros Ht. split; [split; [by exists [], (replicate (Z.to_nat threads) []); apply ready_inv|split; [by apply ready_counters|apply length_replicate]]|].
  split; [done|]. intros j st Hj. unfold stages in Hj. cbn in Hj. rewrite list_lookup_fmap in Hj. destruct (replicate _ _ !! j) as [w|] eqn:E; [|done].
  apply lookup_replicate in E as [-> _]. by injection Hj as <-.
Qed.

(** C2: a stopped scheduler with any number of worker threads ends, in every fair
    interleaving: after any calls of [schedule] with callbacks pinned to no thread and any moves
    of the threads, and then [stop], there is a number of rounds - a round is any sequence of
    moves in which every thread moves at least once - after which every thread has left [run],
    the queue is empty, and all that was asked for has been done exactly once.  The number does
    not depend on the interleaving of the rounds. *)
Theorem stopped_workers_end stack threads es : 0 < threads < 2 ^ 63 →
  Forall (λ e, allowed unpinned (Z.to_nat threads) e = true) es → Forall (λ e, ∀ b, e ≠ Stop b) es →
  ∃ k, ∀ rounds, Forall (fair (Z.to_nat threads)) rounds → (k ≤ length rounds)%nat →
    ∃ s, started stack threads (es ++ Stop false :: moves (concat rounds)) = Done s () ∧
      trace s ≡ₚ concat (asked <$> es) ∧ m_fibers s = [] ∧ m_activeThreadCount s = 0 ∧ stopping s = true ∧
      (w_pc <$> workers s) = replicate (Z.to_nat threads) Exited.
Proof.
  intros Ht Ha Hns. set (n := Z.to_nat threads) in *. destruct (ready_good threads Ht) as [Hg0 He0]. fold n in Hg0.
  destruct (early_events stack n es [] (ready threads) Ha Hns Hg0 He0) as (s1 & Hs1 & Hg1 & He1). cbn in Hg1.
  destruct (stop_event stack n _ s1 Hg1 He1) as (s2 & Hs2 & Hg2 & Hst2 & Hau2 & Haw2); [lia|].
  exists (4 * cost s2 + 7)%nat. intros rounds Hf Hlen.
  assert (Hin : Forall (λ i, (i < n)%nat) (concat rounds)).
  { clear -Hf. induction Hf as [|l rounds [Hl _] _ IH]; cbn; [constructor|by apply Forall_app]. }
  destruct (run_ok stack _ n (concat rounds) s2 Hg2 Hin) as (s & Hs & Hrun & Hg).
  destruct (all_end (concat (asked <$> es)) n (cost s2) s2 s rounds) as [Hover Hexit]; try done. destruct Hover as (_ & E1 & E2 & E3).
  destruct (nothing_left _ n s Hg E1 E2 E3) as (Hq & Hact & Hstop & Hnw).
  destruct Hg as ((qo & wo & Hinv) & Hc & Hn).
  assert (Hpc : ∀ w, w ∈ workers s → w_pc w = Exited).
  { intros w [j Hw]%list_elem_of_lookup. assert (He : stage_of (heap (store s)) w = SExited) by (apply (Hexit j); unfold stages; by rewrite list_lookup_fmap, Hw).
    destruct (Forall2_lookup_l _ _ _ _ _ (i_workers _ _ _ _ _ Hinv) Hw) as (o & _ & Ho). unfold stage_of in He.
    destruct Ho as [| | | | |? ? ? ? ? ? ? ? ? ? ? ? ? ? ? ? ? [-> | ->]|]; cbn in *; try done. destruct p; try done. by destruct ia. }
  exists s. split.
  { rewrite started_ready by lia. rewrite (exec_app stack _ _ _ _ Hs1). cbn [exec]. by rewrite (bind_done _ _ _ _ _ Hs2). }
  split.
  - pose proof (i_work _ _ _ _ _ Hinv) as Hwk. rewrite (stopping_idle s Hc Hstop), app_nil_r in Hwk; [exact Hwk|].
    apply Forall_forall. intros w Hw k. by rewrite (Hpc w Hw).
  - split_and!; try done. apply (list_eq_same_length _ _ n); [by rewrite length_replicate|by rewrite length_fmap|].
    intros j x y Hj Hx Hy. rewrite list_lookup_fmap in Hx. destruct (workers s !! j) as [w|] eqn:Hw; [|done]. injection Hx as <-.
    apply lookup_replicate in Hy as [-> _]. apply Hpc. by eapply list_elem_of_lookup_2.
Qed.

Lemma stopped_workers_end_witness : ∃ k s,
  started 131072 2 ([Move 0 Go; ScheduleRange [task_cb (BEmit 1 (BYieldToReady (BEmit 2 BRet))); task_cb (BSchedule (TCb (BEmit 3 BThrow)) (-1) (BEmit 4 BRet))]; Move 1 Go]
    ++ Stop false :: moves (concat (replicate k [0; 1; 1]%nat))) = Done s () ∧ trace s ≡ₚ [1; 2; 3; 4] ∧ (w_pc <$> workers s) = [Exited; Exited].
Proof.
  destruct (stopped_workers_end 131072 2
    [Move 0 Go; ScheduleRange [task_cb (BEmit 1 (BYieldToReady (BEmit 2 BRet))); task_cb (BSchedule (TCb (BEmit 3 BThrow)) (-1) (BEmit 4 BRet))]; Move 1 Go])
    as [k Hk]; [lia|by repeat constructor|by repeat constructor|].
  destruct (Hk (replicate k [0; 1; 1]%nat)) as (s & Hs & Htr & _ & _ & _ & Hpc).
  - apply Forall_replicate. split; [repeat constructor; lia|]. intros i Hi. change (Z.to_nat 2) with 2%nat in Hi.
    destruct i as [|[|]]; [by left|right; by left|lia].
  - by rewrite length_replicate.
  - exists k, s. split; [exact Hs|]. split; [exact Htr|exact Hpc].
Defined.
