(* ===== verification/IOManager.v ===== *)
(** * IOManager ([webserve/iomanager.h], [webserve/iomanager.cc])

    The scheduler with file-descriptor events and timers.  The kernel's epoll set
    is a parameter: an abstract state with [epoll_ctl] on it. *)
From S2P Require Import Prelude OrderedSet Timer Fiber Scheduler.
Open Scope Z_scope.

Definition EPOLLIN : Z := 0x1.
Definition EPOLLOUT : Z := 0x4.
Definition EPOLLERR : Z := 0x8.
Definition EPOLLHUP : Z := 0x10.
Definition EPOLLET : Z := 2 ^ 31.

Inductive Event := NONE | READ | WRITE.
#[export] Instance Event_eq_dec : EqDecision Event.
Proof. solve_decision. Defined.
Definition ev (e : Event) : Z := match e with NONE => 0x0 | READ => 0x1 | WRITE => 0x4 end.

Inductive EpollCtlOp := EPOLL_CTL_ADD | EPOLL_CTL_DEL | EPOLL_CTL_MOD.
(** [epoll_ctl(epfd, op, fd, event)] on the state [K] of the epoll instance:
    [true] when it returns 0. *)
Class Epoll (K : Type) := {
  epoll_ctl : EpollCtlOp → Z → Z → K → K * bool;
  registered : K → Z → option Z      (* the events a descriptor is registered for *)
}.
(** What epoll_ctl(2) documents: a successful call registers, changes or removes
    the events of that descriptor; a failed one changes nothing. *)
Class EpollLaws (K : Type) `{!Epoll K} := {
  ctl_ok : ∀ op fd mask k k', epoll_ctl op fd mask k = (k', true) →
    registered k' fd = match op with EPOLL_CTL_DEL => None | _ => Some mask end ∧
    (∀ fd', fd' ≠ fd → registered k' fd' = registered k fd');
  ctl_error : ∀ op fd mask k k', epoll_ctl op fd mask k = (k', false) → registered k' = registered k
}.

Record EventContext := mkEventContext { e_scheduler : bool; e_fiber : option Z; e_cb : option func }.
Record FdContext := mkFdContext { c_read : EventContext; c_write : EventContext; c_fd : Z; c_events : Z }.
Definition EventContext_empty : EventContext := mkEventContext false None None.
Definition FdContext_new (fd : Z) : FdContext := mkFdContext EventContext_empty EventContext_empty fd 0.

(** [FdContext::getContext] and the assignment through the reference it returns. *)
Definition getContext {S} (e : Event) (c : FdContext) : M S EventContext :=
  match e with READ => mret (c_read c) | WRITE => mret (c_write c) | NONE => undef AssertFail end.
Definition setContext (e : Event) (x : EventContext) (c : FdContext) : FdContext :=
  match e with
  | READ => mkFdContext x (c_write c) (c_fd c) (c_events c)
  | WRITE => mkFdContext (c_read c) x (c_fd c) (c_events c)
  | NONE => c
  end.
Definition set_events (v : Z) (c : FdContext) : FdContext := mkFdContext (c_read c) (c_write c) (c_fd c) v.
(** [FdContext::resetContext] *)
Definition resetContext (e : Event) (c : FdContext) : FdContext := setContext e EventContext_empty c.
Definition has (events : Z) (e : Event) : bool := negb (Z.land events (ev e) =? 0).
(** [events & ~event] *)
Definition without (events : Z) (e : Event) : Z := Z.land events (Z.lnot (ev e)).

Section iomanager.
Context {K : Type} `{!Epoll K}.

Record IOManager := mkIOManager {
  base : Scheduler; timers : TimerManager; epfd : K;
  m_tickleFd : Z;                  (* m_tickleFds[0], the reading end of the pipe *)
  m_tickles : Z;                   (* the bytes in the pipe *)
  m_pendingEventCount : Z; m_fdContexts : list FdContext
}.
Definition set_base v s := mkIOManager v (timers s) (epfd s) (m_tickleFd s) (m_tickles s) (m_pendingEventCount s) (m_fdContexts s).
Definition set_timers v s := mkIOManager (base s) v (epfd s) (m_tickleFd s) (m_tickles s) (m_pendingEventCount s) (m_fdContexts s).
Definition set_epfd v s := mkIOManager (base s) (timers s) v (m_tickleFd s) (m_tickles s) (m_pendingEventCount s) (m_fdContexts s).
Definition set_tickles v s := mkIOManager (base s) (timers s) (epfd s) (m_tickleFd s) v (m_pendingEventCount s) (m_fdContexts s).
Definition set_pending v s := mkIOManager (base s) (timers s) (epfd s) (m_tickleFd s) (m_tickles s) v (m_fdContexts s).
Definition set_contexts v s := mkIOManager (base s) (timers s) (epfd s) (m_tickleFd s) (m_tickles s) (m_pendingEventCount s) v.

(** [IOManager::tickle] and [IOManager::onTimerInsertedAtFront] *)
Definition tickle : M IOManager () :=
  s ← get;
  if negb (m_idleThreadCount (base s) >? 0) then mret () else modify (set_tickles (m_tickles s + 1)).
Definition onTimerInsertedAtFront : M IOManager () := tickle.

(** [Scheduler::schedule] with the override of [tickle]. *)
Definition schedule (ft : FiberAndThread) : M IOManager () :=
  s ← get;
  let '(q, need_tickle) := scheduleNoLock ft (m_fibers (base s)) in
  modify (set_base (set_queue q (base s))) ;;
  if need_tickle then tickle else mret ().
Definition schedule_range (l : list FiberAndThread) : M IOManager () :=
  s ← get;
  let '(q, need_tickle) := scheduleNoLock_range l (m_fibers (base s)) false in
  modify (set_base (set_queue q (base s))) ;;
  if need_tickle then tickle else mret ().

(** [IOManager::contextResize] *)
Definition contextResize (size : Z) : M IOManager () :=
  modify (λ s, set_contexts (take (Z.to_nat size) (m_fdContexts s) ++
    ((λ i, FdContext_new (Z.of_nat i)) <$> seq (length (m_fdContexts s)) (Z.to_nat size - length (m_fdContexts s)))) s).

(** [m_fdContexts[fd]] and updates of the object it points to. *)
Definition context_at (fd : Z) : M IOManager FdContext := λ s,
  if 0 <=? fd then match m_fdContexts s !! Z.to_nat fd with Some c => Done s c | None => Undef OutOfBounds end
  else Undef OutOfBounds.
Definition context_set (fd : Z) (c : FdContext) : M IOManager () :=
  modify (λ s, set_contexts (<[Z.to_nat fd := c]> (m_fdContexts s)) s).
Definition ctl (op : EpollCtlOp) (fd mask : Z) : M IOManager bool := λ s,
  let '(k, ok) := epoll_ctl op fd mask (epfd s) in Done (set_epfd k s) ok.
Definition add_pending (d : Z) : M IOManager () := modify (λ s, set_pending (u64 (m_pendingEventCount s + d)) s).

(** [FdContext::triggerEvent] on the context of [fd]; the task moves to the queue. *)
Definition triggerEvent (fd : Z) (e : Event) : M IOManager () :=
  c ← context_at fd;
  assert_ (has (c_events c) e) ;;
  x ← getContext e c;
  assert_ (e_scheduler x) ;;
  match e_cb x with
  | Some cb =>
      schedule (mkFT None (Some cb) (-1)) ;;
      context_set fd (setContext e (mkEventContext false (e_fiber x) None) (set_events (without (c_events c) e) c))
  | None =>
      schedule (mkFT (e_fiber x) None (-1)) ;;
      context_set fd (setContext e (mkEventContext false None None) (set_events (without (c_events c) e) c))
  end.

(** [IOManager::addEvent]; [self] is the running fiber and [exec] whether its
    state is [EXEC], [on_scheduler] whether the thread has a scheduler. *)
Definition addEvent (fd : Z) (e : Event) (cb : option func) (self : Z) (exec on_scheduler : bool) : M IOManager Z :=
  s ← get;
  (if s32 (zlen (m_fdContexts s)) >? fd then mret () else contextResize (fd * 3 / 2)) ;;
  c ← context_at fd;
  assert_ (negb (has (c_events c) e)) ;;
  let op := if negb (c_events c =? 0) then EPOLL_CTL_MOD else EPOLL_CTL_ADD in
  rt ← ctl op fd (Z.lor (Z.lor EPOLLET (c_events c)) (ev e));
  if negb rt then mret (-1) else
  add_pending 1 ;;
  x ← getContext e c;
  assert_ (negb (e_scheduler x) && match e_fiber x, e_cb x with None, None => true | _, _ => false end) ;;
  (match cb with Some _ => mret () | None => assert_ exec end) ;;
  context_set fd (setContext e (mkEventContext on_scheduler (match cb with Some _ => None | None => Some self end) cb)
                    (set_events (Z.lor (c_events c) (ev e)) c)) ;;
  mret 0.

(** [IOManager::delEvent] *)
Definition delEvent (fd : Z) (e : Event) : M IOManager bool :=
  s ← get;
  if s32 (zlen (m_fdContexts s)) <=? fd then mret false else
  c ← context_at fd;
  if negb (has (c_events c) e) then mret false else
  let new_events := without (c_events c) e in
  let op := if negb (new_events =? 0) then EPOLL_CTL_MOD else EPOLL_CTL_DEL in
  rt ← ctl op fd (Z.lor EPOLLET new_events);
  if negb rt then mret false else
  add_pending (-1) ;;
  getContext e c ;;
  context_set fd (resetContext e (set_events new_events c)) ;;
  mret true.

(** [IOManager::cancelEvent] *)
Definition cancelEvent (fd : Z) (e : Event) : M IOManager bool :=
  s ← get;
  if s32 (zlen (m_fdContexts s)) <=? fd then mret false else
  c ← context_at fd;
  if negb (has (c_events c) e) then mret false else
  let new_events := without (c_events c) e in
  let op := if negb (new_events =? 0) then EPOLL_CTL_MOD else EPOLL_CTL_DEL in
  rt ← ctl op fd (Z.lor EPOLLET new_events);
  if negb rt then mret false else
  triggerEvent fd e ;;
  add_pending (-1) ;;
  mret true.

(** [if(events & e) { triggerEvent(e); --m_pendingEventCount; }] *)
Definition trigger_if (b : bool) (fd : Z) (e : Event) : M IOManager () :=
  if b then triggerEvent fd e ;; add_pending (-1) else mret ().

(** [IOManager::cancelAll] *)
Definition cancelAll (fd : Z) : M IOManager bool :=
  s ← get;
  if s32 (zlen (m_fdContexts s)) <=? fd then mret false else
  c ← context_at fd;
  if c_events c =? 0 then mret false else
  rt ← ctl EPOLL_CTL_DEL fd 0;
  if negb rt then mret false else
  trigger_if (has (c_events c) READ) fd READ ;;
  c ← context_at fd;
  trigger_if (has (c_events c) WRITE) fd WRITE ;;
  c ← context_at fd;
  assert_ (c_events c =? 0) ;;
  mret true.

(** [IOManager::stopping] with the delay of the next timer. *)
Definition stopping (now : Z) : M IOManager (bool * Z) := λ s,
  match getNextTimer now (timers s) with
  | Done t timeout =>
      Done (set_timers t s)
        ((timeout =? u64 (-1)) && (m_pendingEventCount s =? 0) && Scheduler.stopping (base s), timeout)
  | Raise t x => Raise (set_timers t s) x
  | Undef c => Undef c
  | NoFuel => NoFuel
  end.

(** The timeout handed to [epoll_wait], an [int]. *)
Definition MAX_TIMEOUT : Z := 3000.
Definition epoll_timeout (next_timeout : Z) : Z :=
  s32 (if negb (next_timeout =? u64 (-1)) then if s32 next_timeout >? MAX_TIMEOUT then MAX_TIMEOUT else next_timeout
       else MAX_TIMEOUT).

(** An entry of the array [epoll_wait] fills: the tickle pipe or a context. *)
Inductive epoll_data := TickleFd | FdPtr (fd : Z).
(** [event.events] with errors turned into the registered events, and [real_events]. *)
Definition real_events (events : Z) (c : FdContext) : Z :=
  let events := if negb (Z.land events (Z.lor EPOLLERR EPOLLHUP) =? 0)
                then Z.lor events (Z.land (Z.lor EPOLLIN EPOLLOUT) (c_events c)) else events in
  let real_events := if negb (Z.land events EPOLLIN =? 0) then ev READ else 0 in
  if negb (Z.land events EPOLLOUT =? 0) then Z.lor real_events (ev WRITE) else real_events.
(** The body of the loop over the events in [idle]. *)
Definition idle_event (d : epoll_data) (events : Z) : M IOManager () :=
  match d with
  | TickleFd => modify (set_tickles 0)
  | FdPtr fd =>
      c ← context_at fd;
      let real_events := real_events events c in
      if Z.land (c_events c) real_events =? 0 then mret () else
      let left_events := Z.land (c_events c) (Z.lnot real_events) in
      let op := if negb (left_events =? 0) then EPOLL_CTL_MOD else EPOLL_CTL_DEL in
      rt2 ← ctl op (c_fd c) (Z.lor EPOLLET left_events);
      if negb rt2 then mret () else
      trigger_if (has real_events READ) fd READ ;;
      trigger_if (has real_events WRITE) fd WRITE
  end.
Fixpoint idle_events (l : list (epoll_data * Z)) : M IOManager () :=
  match l with [] => mret () | (d, e) :: l => idle_event d e ;; idle_events l end.

Section idle.
(** The task a timer callback becomes. *)
Context (timer_task : callback → option func).
Definition idle_timers (now tmp : Z) : M IOManager () := λ s,
  match listExpiredCb now tmp (timers s) with
  | Done t cbs =>
      (if bool_decide (length cbs = 0%nat) then mret ()
       else schedule_range ((λ cb, mkFT None (timer_task cb) (-1)) <$> cbs)) (set_timers t s)
  | Raise t x => Raise (set_timers t s) x
  | Undef c => Undef c
  | NoFuel => NoFuel
  end.
(** One turn of [IOManager::idle], up to its [swapOut]: whether it goes on.  The
    clock is read at each use; [epoll_wait] is called with the timeout and its
    result is the list of events (EINTR repeats the call with the same timeout). *)
Definition idle (now1 now2 tmp : Z) (epoll_wait : Z → list (epoll_data * Z)) : M IOManager bool :=
  '(stop, next_timeout) ← stopping now1;
  if stop : bool then mret false else
  let l := epoll_wait (epoll_timeout next_timeout) in
  idle_timers now2 tmp ;;
  idle_events l ;;
  mret true.
End idle.

(** [IOManager::IOManager] between the scheduler's constructor and [start()]:
    [fd] is the reading end of the new pipe, [k] the new epoll instance. *)
Definition IOManager_new (b : Scheduler) (k : K) (fd now : Z) : result IOManager () :=
  (rt ← ctl EPOLL_CTL_ADD fd (Z.lor EPOLLIN EPOLLET);
   assert_ rt ;;
   contextResize 32) (mkIOManager b (TimerManager_new now) k fd 0 0 []).
End iomanager.
