(* ===== verification/IOManagerFacts.v ===== *)
(** * IOManagerFacts: registrations, the pending count and the delivery of events *)
From S2P Require Import Prelude OrderedSet Timer Fiber Scheduler SchedulerFacts IOManager.
Open Scope Z_scope.

Ltac do_step := erewrite bind_done by reflexivity.

(** ** Contexts *)
Definition ctx_of (e : Event) (c : FdContext) : EventContext :=
  match e with READ => c_read c | WRITE => c_write c | NONE => EventContext_empty end.
(** The task that waits in an event context. *)
Definition waiter (x : EventContext) : option FiberAndThread :=
  match e_scheduler x, e_cb x, e_fiber x with
  | true, Some cb, None => Some (mkFT None (Some cb) (-1))
  | true, None, Some p => Some (mkFT (Some p) None (-1))
  | _, _, _ => None
  end.
Definition slot_ok (e : Event) (c : FdContext) : Prop :=
  if has (c_events c) e then is_Some (waiter (ctx_of e c)) else ctx_of e c = EventContext_empty.
Definition masks : list Z := [0; 1; 4; 5].
Definition ctx_ok (fd : Z) (c : FdContext) : Prop :=
  c_fd c = fd ∧ c_events c ∈ masks ∧ slot_ok READ c ∧ slot_ok WRITE c.
Definition weight (c : FdContext) : Z := Z.b2z (has (c_events c) READ) + Z.b2z (has (c_events c) WRITE).
Fixpoint pendings (l : list FdContext) : Z := match l with [] => 0 | c :: l => weight c + pendings l end.
Definition armed_mask (events : Z) : option Z := if events =? 0 then None else Some (Z.lor EPOLLET events).

Lemma masks_cases events : events ∈ masks → events = 0 ∨ events = 1 ∨ events = 4 ∨ events = 5.
Proof. unfold masks. set_solver. Qed.
Ltac mask_cases H := destruct (masks_cases _ H) as [?E|[?E|[?E|?E]]].

Lemma pendings_range l : 0 ≤ pendings l ≤ 2 * zlen l.
Proof.
  induction l as [|c l IH]; cbn; [done|]. rewrite zlen_cons. unfold weight.
  destruct (has (c_events c) READ), (has (c_events c) WRITE); cbn; lia.
Qed.
Lemma pendings_insert i c c' l : l !! i = Some c → pendings (<[i := c']> l) = pendings l + weight c' - weight c.
Proof.
  revert i. induction l as [|y l IH]; intros [|i]; cbn; try done.
  - intros [= ->]. lia.
  - intros H. rewrite IH by done. lia.
Qed.
Lemma pendings_app l k : pendings (l ++ k) = pendings l + pendings k.
Proof. induction l as [|c l IH]; cbn; [done|]. rewrite IH. lia. Qed.

(** ** Masks *)
Lemma real_events_mask events c : real_events events c ∈ masks.
Proof. unfold real_events. destruct (negb (Z.land _ EPOLLOUT =? 0)), (negb (Z.land _ EPOLLIN =? 0)); unfold masks; set_solver. Qed.
Lemma has_NONE m : has m NONE = false.
Proof. unfold has. cbn. by rewrite Z.land_0_r. Qed.
Definition left_mask (events real : Z) : Z := Z.land events (Z.lnot real).

Lemma mask_facts events real : events ∈ masks → real ∈ masks → (∀ e, has real e = true → has events e = true) →
  (Z.land events real =? 0) = (real =? 0) ∧ left_mask events real ∈ masks ∧
  ∀ e, has (left_mask events real) e = has events e && negb (has real e).
Proof.
  intros He Hr Hsub. pose proof (Hsub READ) as H1. pose proof (Hsub WRITE) as H2.
  mask_cases He; subst events; mask_cases Hr; subst real; vm_compute in H1; vm_compute in H2;
    try (by specialize (H1 eq_refl)); try (by specialize (H2 eq_refl));
    (split; [done|]); (split; [unfold masks; cbn; set_solver|by intros []]).
Qed.
Lemma mask_ext a b : a ∈ masks → b ∈ masks → (∀ e, has a e = has b e) → a = b.
Proof.
  intros Ha Hb H. pose proof (H READ) as H1. pose proof (H WRITE) as H2.
  mask_cases Ha; subst a; mask_cases Hb; subst b; done.
Qed.

Section facts.
Context {K : Type} `{!Epoll K, !EpollLaws K}.
#[local] Set Default Proof Using "All".
Notation iom := (@IOManager K).
Implicit Types s : iom.

(** ** The invariant *)
Record wf (s : iom) : Prop := {
  wf_ctx : ∀ i c, m_fdContexts s !! i = Some c → ctx_ok (Z.of_nat i) c;
  wf_epoll : ∀ i c, m_fdContexts s !! i = Some c → Z.of_nat i ≠ m_tickleFd s →
    registered (epfd s) (Z.of_nat i) = armed_mask (c_events c);
  wf_out : ∀ fd, zlen (m_fdContexts s) ≤ fd → fd ≠ m_tickleFd s → registered (epfd s) fd = None;
  wf_pending : m_pendingEventCount s = pendings (m_fdContexts s);
  wf_len : 2 ≤ zlen (m_fdContexts s) < 2 ^ 31
}.

(** The waiting tasks, by descriptor and event. *)
Definition reg (s : iom) (fd : Z) (e : Event) : option FiberAndThread :=
  if fd <? 0 then None else
  match m_fdContexts s !! Z.to_nat fd with Some c => if has (c_events c) e then waiter (ctx_of e c) else None | None => None end.

(** What every operation here changes. *)
Definition mk (s : iom) (q : list FiberAndThread) (k : K) (tk pend : Z) (l : list FdContext) : iom :=
  mkIOManager (set_queue q (base s)) (timers s) k (m_tickleFd s) tk pend l.
Definition queue (s : iom) : list FiberAndThread := m_fibers (base s).

Lemma events_wf_update s i c c' q k tk pend : wf s → m_fdContexts s !! i = Some c → ctx_ok (Z.of_nat i) c' → Z.of_nat i ≠ m_tickleFd s →
  registered k (Z.of_nat i) = armed_mask (c_events c') → (∀ fd, fd ≠ Z.of_nat i → registered k fd = registered (epfd s) fd) →
  pend = u64 (m_pendingEventCount s + weight c' - weight c) →
  wf (mk s q k tk pend (<[i := c']> (m_fdContexts s))).
Proof.
  intros [H1 H2 H3 H4 H5] Hc Hok Hti Hr Hro ->.
  assert (Hi : (i < length (m_fdContexts s))%nat) by by eapply lookup_lt_Some.
  constructor; cbn [mk m_fdContexts epfd m_pendingEventCount m_tickleFd].
  - intros j d Hj. destruct (decide (i = j)) as [<-|Hne].
    + rewrite list_lookup_insert_eq in Hj by done. by injection Hj as <-.
    + rewrite list_lookup_insert_ne in Hj by done. by apply H1.
  - intros j d Hj Htj. destruct (decide (i = j)) as [<-|Hne].
    + rewrite list_lookup_insert_eq in Hj by done. by injection Hj as <-.
    + rewrite list_lookup_insert_ne in Hj by done. rewrite Hro by lia. by apply H2.
  - intros fd Hfd Htf. unfold zlen in *. rewrite length_insert in Hfd. rewrite Hro by lia. apply H3; [unfold zlen; lia|done].
  - rewrite (pendings_insert i c c') by done. rewrite H4. apply u64_small.
    pose proof (pendings_range (<[i := c']> (m_fdContexts s))) as Hp. rewrite (pendings_insert i c c') in Hp by done.
    unfold zlen in *. rewrite length_insert in Hp. lia.
  - unfold zlen in *. by rewrite length_insert.
Qed.

Lemma reg_update s i c c' q k tk pend fd e : m_fdContexts s !! i = Some c →
  reg (mk s q k tk pend (<[i := c']> (m_fdContexts s))) fd e =
  if bool_decide (fd = Z.of_nat i) then (if has (c_events c') e then waiter (ctx_of e c') else None) else reg s fd e.
Proof.
  intros Hc. assert (Hi : (i < length (m_fdContexts s))%nat) by by eapply lookup_lt_Some.
  unfold reg. cbn [mk m_fdContexts]. case_bool_decide as Hfd; [subst fd|].
  - pose proof (Zle_0_nat i); replace (Z.of_nat i <? 0) with false by lia. rewrite Nat2Z.id, list_lookup_insert_eq by done. done.
  - destruct (fd <? 0) eqn:Hneg; [done|]. rewrite list_lookup_insert_ne by lia. done.
Qed.

Lemma context_at_ok s i c : m_fdContexts s !! i = Some c → context_at (Z.of_nat i) s = Done s c.
Proof. intros H. unfold context_at. pose proof (Zle_0_nat i). replace (0 <=? Z.of_nat i) with true by lia. by rewrite Nat2Z.id, H. Qed.

Lemma schedule_io ft s : is_Some (ft_fiber ft) ∨ is_Some (ft_cb ft) → ∃ tk,
  schedule ft s = Done (mk s (queue s ++ [ft]) (epfd s) tk (m_pendingEventCount s) (m_fdContexts s)) ().
Proof.
  intros Hft. unfold schedule. do_step. unfold scheduleNoLock.
  assert (Hsel : ∀ b, match ft_fiber ft, ft_cb ft with None, None => (m_fibers (base s), b) | _, _ => (m_fibers (base s) ++ [ft], b) end
    = (m_fibers (base s) ++ [ft], b : bool)).
  { intros b. destruct (ft_fiber ft), (ft_cb ft); try done. by destruct Hft as [[? ?]|[? ?]]. }
  rewrite Hsel. do_step. destruct (bool_decide _); [|eexists; reflexivity].
  unfold tickle. do_step. destruct (negb _); eexists; reflexivity.
Qed.

Lemma trigger_ok s i c e t : m_fdContexts s !! i = Some c → e ≠ NONE → has (c_events c) e = true → waiter (ctx_of e c) = Some t → ∃ tk,
  triggerEvent (Z.of_nat i) e s = Done (mk s (queue s ++ [t]) (epfd s) tk (m_pendingEventCount s)
    (<[i := resetContext e (set_events (without (c_events c) e) c)]> (m_fdContexts s))) ().
Proof.
  intros Hc He Hh Hw. unfold triggerEvent. rewrite (bind_done _ _ _ _ _ (context_at_ok s i c Hc)), Hh. do_step.
  assert (Hg : getContext e c s = Done s (ctx_of e c)) by by destruct e.
  rewrite (bind_done _ _ _ _ _ Hg). unfold waiter in Hw.
  destruct (ctx_of e c) as [sch fib cb]. cbn [e_scheduler e_cb e_fiber] in *. destruct sch; [|done]. do_step.
  destruct cb as [cb|], fib as [p|]; try done; injection Hw as <-.
  - destruct (schedule_io (mkFT None (Some cb) (-1)) s) as [tk Htk]; [right; eauto|]. exists tk.
    rewrite (bind_done _ _ _ _ _ Htk). unfold context_set, modify. by rewrite Nat2Z.id.
  - destruct (schedule_io (mkFT (Some p) None (-1)) s) as [tk Htk]; [left; eauto|]. exists tk.
    rewrite (bind_done _ _ _ _ _ Htk). unfold context_set, modify. by rewrite Nat2Z.id.
Qed.

(** ** One event of a context removed or added *)
Definition removed (e : Event) (c : FdContext) : FdContext := resetContext e (set_events (without (c_events c) e) c).
Definition added (e : Event) (x : EventContext) (c : FdContext) : FdContext :=
  setContext e x (set_events (Z.lor (c_events c) (ev e)) c).

Lemma removed_ok fd e c : ctx_ok fd c → e ≠ NONE → has (c_events c) e = true →
  ctx_ok fd (removed e c) ∧ weight (removed e c) = weight c - 1 ∧
  (∀ e', has (c_events (removed e c)) e' = has (c_events c) e' && bool_decide (e' ≠ e)) ∧
  (∀ e', e' ≠ e → ctx_of e' (removed e c) = ctx_of e' c).
Proof.
  intros (Hfd & Hm & Hr & Hw) He Hh. unfold slot_ok in *. destruct c as [r w f events]. cbn [c_events c_fd c_read c_write] in *.
  mask_cases Hm; subst events; destruct e; try done; vm_compute in Hh; try discriminate;
    (split; [repeat split; try exact Hfd; try exact Hr; try exact Hw; unfold masks; set_solver|]);
    (split; [reflexivity|]); (split; intros []; try done; reflexivity).
Qed.
Lemma added_ok fd e x c t : ctx_ok fd c → e ≠ NONE → has (c_events c) e = false → waiter x = Some t →
  ctx_ok fd (added e x c) ∧ weight (added e x c) = weight c + 1 ∧
  (∀ e', has (c_events (added e x c)) e' = has (c_events c) e' || bool_decide (e' = e)) ∧
  (∀ e', e' ≠ e → ctx_of e' (added e x c) = ctx_of e' c) ∧ ctx_of e (added e x c) = x.
Proof.
  intros (Hfd & Hm & Hr & Hw) He Hh Hx. unfold slot_ok in *. destruct c as [r w f events]. cbn [c_events c_fd c_read c_write] in *.
  mask_cases Hm; subst events; destruct e; try done; vm_compute in Hh; try discriminate;
    (split; [repeat split; try exact Hfd; try exact Hr; try exact Hw; unfold slot_ok; cbn; try (rewrite Hx; eauto); unfold masks; set_solver|]);
    (split; [reflexivity|]); (split; [intros []; reflexivity|]); (split; [intros []; done|reflexivity]).
Qed.

Lemma context_of s fd : wf s → 0 ≤ fd → s32 (zlen (m_fdContexts s)) = zlen (m_fdContexts s) ∧
  (fd < zlen (m_fdContexts s) → ∃ i c, fd = Z.of_nat i ∧ m_fdContexts s !! i = Some c ∧ ctx_ok fd c ∧ context_at fd s = Done s c).
Proof.
  intros Hwf Hfd. pose proof (wf_len _ Hwf). pose proof (zlen_nonneg (m_fdContexts s)). split; [apply s32_small; lia|].
  intros Hlt. destruct (lookup_lt_is_Some_2 (m_fdContexts s) (Z.to_nat fd)) as [c Hc]; [unfold zlen in *; lia|].
  exists (Z.to_nat fd), c. rewrite Z2Nat.id by done. split; [done|]. split; [done|]. split.
  - pose proof (wf_ctx _ Hwf _ _ Hc) as Hok. by rewrite Z2Nat.id in Hok.
  - rewrite <-(Z2Nat.id fd) at 1 by done. by apply context_at_ok.
Qed.

Lemma reg_of s i c e : m_fdContexts s !! i = Some c → reg s (Z.of_nat i) e = if has (c_events c) e then waiter (ctx_of e c) else None.
Proof. intros Hc. unfold reg. pose proof (Zle_0_nat i). replace (Z.of_nat i <? 0) with false by lia. by rewrite Nat2Z.id, Hc. Qed.
Lemma reg_beyond s fd e : zlen (m_fdContexts s) ≤ fd → reg s fd e = None.
Proof. intros H. unfold reg. destruct (fd <? 0); [done|]. rewrite lookup_ge_None_2; [done|]. unfold zlen in *. lia. Qed.
Lemma waiter_of fd c e : ctx_ok fd c → e ≠ NONE → has (c_events c) e = true → ∃ t, waiter (ctx_of e c) = Some t.
Proof. intros (_ & _ & Hr & Hw) He Hh. unfold slot_ok in *. destruct e; [done|rewrite Hh in Hr; by destruct Hr; eauto|rewrite Hh in Hw; by destruct Hw; eauto]. Qed.
Lemma empty_of fd c e : ctx_ok fd c → e ≠ NONE → has (c_events c) e = false → ctx_of e c = EventContext_empty.
Proof. intros (_ & _ & Hr & Hw) He Hh. unfold slot_ok in *. destruct e; [done|by rewrite Hh in Hr|by rewrite Hh in Hw]. Qed.

Lemma ctl_run s op fd mask : ∃ k ok, ctl op fd mask s = Done (mk s (queue s) k (m_tickles s) (m_pendingEventCount s) (m_fdContexts s)) ok ∧
  (ok = true → registered k fd = match op with EPOLL_CTL_DEL => None | _ => Some mask end ∧
    ∀ fd', fd' ≠ fd → registered k fd' = registered (epfd s) fd') ∧
  (ok = false → registered k = registered (epfd s)) ∧ (epoll_ctl op fd mask (epfd s)).2 = ok.
Proof.
  unfold ctl. destruct (epoll_ctl op fd mask (epfd s)) as [k ok] eqn:Hctl. exists k, ok. split; [|split; [|split; [|done]]].
  - f_equal. unfold mk, queue, set_epfd. f_equal. by destruct (base s).
  - intros ->. by eapply ctl_ok.
  - intros ->. by eapply ctl_error.
Qed.
(** The kernel accepts that only the events [mask] of [fd] stay armed: what
    [epoll_ctl] answers to MOD, or to DEL when none stays. *)
Definition accepts s (fd mask : Z) : bool :=
  (epoll_ctl (if mask =? 0 then EPOLL_CTL_DEL else EPOLL_CTL_MOD) fd (Z.lor EPOLLET mask) (epfd s)).2.
Lemma accepts_ctl s fd mask b :
  (epoll_ctl (if negb (mask =? 0) then EPOLL_CTL_MOD else EPOLL_CTL_DEL) fd (Z.lor EPOLLET mask) (epfd s)).2 = b → accepts s fd mask = b.
Proof. unfold accepts. by destruct (mask =? 0). Qed.
(** A failed [epoll_ctl] leaves everything as it was. *)
Lemma wf_same s k tk : wf s → registered k = registered (epfd s) → wf (mk s (queue s) k tk (m_pendingEventCount s) (m_fdContexts s)).
Proof. intros [H1 H2 H3 H4 H5] Hk. constructor; cbn; try done; rewrite Hk; done. Qed.
Lemma reg_same s k q tk pend fd e : reg (mk s q k tk pend (m_fdContexts s)) fd e = reg s fd e.
Proof. done. Qed.

(** The registrations of [s'] are those of [s] but for [(fd, e)], now [o]. *)
Definition reg_set (s s' : iom) (fd : Z) (e : Event) (o : option FiberAndThread) : Prop :=
  ∀ fd' e', reg s' fd' e' = if bool_decide (fd' = fd ∧ e' = e) then o else reg s fd' e'.

Lemma reg_set_intro s i c c' e o q k tk pend : m_fdContexts s !! i = Some c →
  (if has (c_events c') e then waiter (ctx_of e c') else None) = o →
  (∀ e', e' ≠ e → has (c_events c') e' = has (c_events c) e' ∧ ctx_of e' c' = ctx_of e' c) →
  reg_set s (mk s q k tk pend (<[i := c']> (m_fdContexts s))) (Z.of_nat i) e o.
Proof.
  intros Hc Ho He fd' e'. rewrite (reg_update s i c) by done. case_bool_decide as Hfd.
  - subst fd'. destruct (decide (e' = e)) as [->|Hne]; [by rewrite bool_decide_true|].
    rewrite bool_decide_false by (by intros [_ ?]). destruct (He e' Hne) as [-> ->]. by rewrite (reg_of s i c).
  - rewrite bool_decide_false; [done|]. by intros [? _].
Qed.
Lemma removed_reg s i c e q k tk pend : wf s → m_fdContexts s !! i = Some c → e ≠ NONE → has (c_events c) e = true →
  reg_set s (mk s q k tk pend (<[i := removed e c]> (m_fdContexts s))) (Z.of_nat i) e None.
Proof.
  intros Hwf Hc He Hh. destruct (removed_ok _ e c (wf_ctx _ Hwf _ _ Hc) He Hh) as (_ & _ & Hhas & Hctx).
  apply (reg_set_intro s i c); [done| |].
  - rewrite Hhas, (bool_decide_false (e ≠ e)) by (by intros []). by rewrite andb_false_r.
  - intros e' Hne. by rewrite Hhas, Hctx, bool_decide_true, andb_true_r by done.
Qed.

Lemma delEvent_spec s fd e : wf s → 0 ≤ fd → fd ≠ m_tickleFd s → e ≠ NONE →
  ∃ s' r, delEvent fd e s = Done s' r ∧ wf s' ∧ queue s' = queue s ∧
    if r : bool then is_Some (reg s fd e) ∧ reg_set s s' fd e None else ∀ fd' e', reg s' fd' e' = reg s fd' e'.
Proof.
  intros Hwf Hfd Ht He. destruct (context_of s fd Hwf Hfd) as [Hlen Hc]. unfold delEvent. do_step. rewrite Hlen.
  destruct (zlen (m_fdContexts s) <=? fd) eqn:Hle; [by exists s, false|].
  destruct Hc as (i & c & -> & Hc & Hok & Hat); [lia|]. rewrite (bind_done _ _ _ _ _ Hat).
  destruct (has (c_events c) e) eqn:Hh; cbn [negb]; [|by exists s, false].
  destruct (ctl_run s (if negb (without (c_events c) e =? 0) then EPOLL_CTL_MOD else EPOLL_CTL_DEL) (Z.of_nat i)
    (Z.lor EPOLLET (without (c_events c) e))) as (k & ok & Hctl & Htrue & Hfalse & Hacc).
  rewrite (bind_done _ _ _ _ _ Hctl). destruct ok; cbn [negb].
  2: { eexists _, false. split; [done|]. split; [by apply wf_same; auto|done]. }
  destruct (Htrue eq_refl) as [Hreg Hother]. do_step.
  assert (Hg : ∀ s0 : iom, getContext e c s0 = Done s0 (ctx_of e c)) by by destruct e.
  rewrite (bind_done _ _ _ _ _ (Hg _)). do_step. eexists _, true. split; [reflexivity|].
  destruct (removed_ok _ e c Hok He Hh) as (Hok' & Hw & _).
  change (set_contexts _ _) with (mk s (queue s) k (m_tickles s) (u64 (m_pendingEventCount s + -1)) (<[Z.to_nat (Z.of_nat i) := removed e c]> (m_fdContexts s))).
  rewrite Nat2Z.id. split; [|split; [done|split]].
  - eapply events_wf_update; try done.
    + rewrite Hreg. unfold armed_mask, removed, resetContext. replace (c_events (setContext e _ _)) with (without (c_events c) e) by by destruct e.
      by destruct (without (c_events c) e =? 0).
    + f_equal. lia.
  - rewrite (reg_of s i c) by done. rewrite Hh. destruct (waiter_of _ _ _ Hok He Hh) as [t ->]. eauto.
  - by apply removed_reg.
Qed.

(** [triggerEvent] and the decrement behind it. *)
Lemma trigger_dec s i c e t : m_fdContexts s !! i = Some c → e ≠ NONE → has (c_events c) e = true → waiter (ctx_of e c) = Some t → ∃ tk,
  trigger_if true (Z.of_nat i) e s = Done (mk s (queue s ++ [t]) (epfd s) tk (u64 (m_pendingEventCount s + -1))
    (<[i := removed e c]> (m_fdContexts s))) ().
Proof.
  intros Hc He Hh Hw. destruct (trigger_ok s i c e t Hc He Hh Hw) as [tk H]. exists tk. unfold trigger_if.
  by rewrite (bind_done _ _ _ _ _ H).
Qed.

(** The event of the other direction, and its bit when somebody waits for it. *)
Definition other (e : Event) : Event := match e with READ => WRITE | WRITE => READ | NONE => NONE end.
Definition mask_without s (fd : Z) (e : Event) : Z := match reg s fd (other e) with Some _ => ev (other e) | None => 0 end.
Lemma mask_without_of s i c e : m_fdContexts s !! i = Some c → ctx_ok (Z.of_nat i) c → e ≠ NONE →
  mask_without s (Z.of_nat i) e = without (c_events c) e.
Proof.
  intros Hc Hok He. unfold mask_without. rewrite (reg_of s i c) by done. pose proof Hok as (_ & Hm & _).
  destruct (has (c_events c) (other e)) eqn:Hh.
  - destruct (waiter_of _ _ (other e) Hok) as [t ->]; [by destruct e|done|]. mask_cases Hm; rewrite E in *; by destruct e.
  - mask_cases Hm; rewrite E in *; by destruct e.
Qed.

(** [cancelEvent] succeeds exactly when somebody waits and the kernel accepts. *)
Lemma cancelEvent_full s fd e : wf s → 0 ≤ fd → fd ≠ m_tickleFd s → e ≠ NONE →
  ∃ s' r, cancelEvent fd e s = Done s' r ∧ wf s' ∧
    r = match reg s fd e with Some _ => accepts s fd (mask_without s fd e) | None => false end ∧
    if r : bool then ∃ t, reg s fd e = Some t ∧ queue s' = queue s ++ [t] ∧ reg_set s s' fd e None
    else queue s' = queue s ∧ ∀ fd' e', reg s' fd' e' = reg s fd' e'.
Proof.
  intros Hwf Hfd Ht He. destruct (context_of s fd Hwf Hfd) as [Hlen Hc]. unfold cancelEvent. do_step. rewrite Hlen.
  destruct (zlen (m_fdContexts s) <=? fd) eqn:Hle.
  { exists s, false. rewrite (reg_beyond s fd) by lia. done. }
  destruct Hc as (i & c & -> & Hc & Hok & Hat); [lia|]. rewrite (bind_done _ _ _ _ _ Hat).
  rewrite (reg_of s i c e Hc). destruct (has (c_events c) e) eqn:Hh; cbn [negb]; [|by exists s, false].
  destruct (waiter_of _ _ _ Hok He Hh) as [t Hw]. rewrite Hw, (mask_without_of s i c) by done.
  destruct (ctl_run s (if negb (without (c_events c) e =? 0) then EPOLL_CTL_MOD else EPOLL_CTL_DEL) (Z.of_nat i)
    (Z.lor EPOLLET (without (c_events c) e))) as (k & ok & Hctl & Htrue & Hfalse & Hacc).
  apply accepts_ctl in Hacc. rewrite (bind_done _ _ _ _ _ Hctl), Hacc. destruct ok; cbn [negb].
  2: { eexists _, false. split; [done|]. split; [by apply wf_same; auto|done]. }
  destruct (Htrue eq_refl) as [Hreg Hother].
  destruct (trigger_ok (mk s (queue s) k (m_tickles s) (m_pendingEventCount s) (m_fdContexts s)) i c e t Hc He Hh Hw) as [tk Htr].
  rewrite (bind_done _ _ _ _ _ Htr). do_step. eexists _, true. split; [reflexivity|].
  destruct (removed_ok _ e c Hok He Hh) as (Hok' & Hwt & _).
  change (set_pending _ _) with (mk s (queue s ++ [t]) k tk (u64 (m_pendingEventCount s + -1)) (<[i := removed e c]> (m_fdContexts s))).
  split; [|split; [done|exists t; split; [done|split; [done|by apply removed_reg]]]].
  eapply events_wf_update; try done.
  - rewrite Hreg. unfold armed_mask, removed, resetContext. replace (c_events (setContext e _ _)) with (without (c_events c) e) by by destruct e.
    by destruct (without (c_events c) e =? 0).
  - f_equal. lia.
Qed.
Lemma cancelEvent_spec s fd e : wf s → 0 ≤ fd → fd ≠ m_tickleFd s → e ≠ NONE →
  ∃ s' r, cancelEvent fd e s = Done s' r ∧ wf s' ∧
    if r : bool then ∃ t, reg s fd e = Some t ∧ queue s' = queue s ++ [t] ∧ reg_set s s' fd e None
    else queue s' = queue s ∧ ∀ fd' e', reg s' fd' e' = reg s fd' e'.
Proof. intros Hwf Hfd Ht He. destruct (cancelEvent_full s fd e Hwf Hfd Ht He) as (s' & r & H1 & H2 & _ & H3). eauto. Qed.

Lemma cancelEvent_none s fd e : wf s → 0 ≤ fd → e ≠ NONE → reg s fd e = None → cancelEvent fd e s = Done s false.
Proof.
  intros Hwf Hfd He Hn. destruct (context_of s fd Hwf Hfd) as [Hlen Hc]. unfold cancelEvent. do_step. rewrite Hlen.
  destruct (zlen (m_fdContexts s) <=? fd) eqn:Hle; [done|].
  destruct Hc as (i & c & -> & Hc & Hok & Hat); [lia|]. rewrite (bind_done _ _ _ _ _ Hat). rewrite (reg_of s i c e Hc) in Hn.
  destruct (has (c_events c) e) eqn:Hh; [|done]. destruct (waiter_of _ _ _ Hok He Hh) as [t Hw]. by rewrite Hw in Hn.
Qed.

(** ** [contextResize] and [addEvent] *)
Lemma lookup_resized (l : list FdContext) n i c : (length l ≤ n)%nat →
  (take n l ++ ((λ i, FdContext_new (Z.of_nat i)) <$> seq (length l) (n - length l))) !! i = Some c →
  l !! i = Some c ∨ (length l ≤ i)%nat ∧ c = FdContext_new (Z.of_nat i).
Proof.
  intros Hn. rewrite take_ge by done. intros [H|[Hi H]]%lookup_app_Some; [by left|]. right. split; [done|].
  rewrite list_lookup_fmap in H. destruct (seq _ _ !! _) as [j|] eqn:Hj; [|done]. injection H as <-.
  apply lookup_seq in Hj as [-> _]. f_equal. lia.
Qed.

Lemma resize_spec s fd : wf s → zlen (m_fdContexts s) ≤ fd → fd < 2 ^ 30 →
  ∃ l, contextResize (fd * 3 / 2) s = Done (set_contexts l s) () ∧ wf (set_contexts l s) ∧ fd < zlen l ∧
    ∀ fd' e, reg (set_contexts l s) fd' e = reg s fd' e.
Proof.
  intros Hwf Hle Hlt. pose proof (wf_len _ Hwf) as Hlen. unfold contextResize.
  assert (Hsz : fd < fd * 3 / 2 < 2 ^ 31).
  { pose proof (Z.div_mod (fd * 3) 2 ltac:(lia)). pose proof (Z.mod_pos_bound (fd * 3) 2 ltac:(lia)). lia. }
  set (n := Z.to_nat (fd * 3 / 2)). assert (Hn : (length (m_fdContexts s) ≤ n)%nat) by (unfold zlen, n in *; lia).
  eexists. split; [reflexivity|]. destruct Hwf as [H1 H2 H3 H4 H5].
  set (l' := take _ _ ++ _). assert (Hl' : zlen l' = fd * 3 / 2).
  { unfold l', zlen. rewrite length_app, length_take, length_fmap, length_seq. fold n. unfold n in *. lia. }
  assert (Hnew : ∀ i, ctx_ok (Z.of_nat i) (FdContext_new (Z.of_nat i))).
  { intros i. repeat split; cbn; try done. unfold masks. set_solver. }
  split; [|split; [lia|]].
  - constructor; cbn; rewrite ?Hl'; try lia.
    + intros i c Hi. apply lookup_resized in Hi as [Hi|[_ ->]]; [by apply H1|apply Hnew|done].
    + intros i c Hi Ht. apply lookup_resized in Hi as [Hi|[Hi ->]]; [by apply H2| |done]. apply H3; [unfold zlen; lia|done].
    + intros fd' Hfd'. apply H3. lia.
    + rewrite H4. unfold l'. rewrite take_ge, pendings_app by done.
      assert (Hz : ∀ a b, pendings ((λ i, FdContext_new (Z.of_nat i)) <$> seq a b) = 0).
      { intros a b. revert a. induction b as [|b IH]; intros a; cbn; [done|]. by rewrite IH. }
      rewrite Hz. lia.
  - intros fd' e. unfold reg. cbn [set_contexts m_fdContexts]. destruct (fd' <? 0) eqn:Hneg; [done|].
    destruct (l' !! Z.to_nat fd') as [c|] eqn:Hc.
    + apply lookup_resized in Hc as [Hc|[Hge ->]]; [by rewrite Hc| |done].
      rewrite lookup_ge_None_2 by lia. by destruct e.
    + apply lookup_ge_None in Hc. rewrite lookup_ge_None_2; [done|]. unfold zlen in *. lia.
Qed.

Lemma addEvent_spec s fd e cb self : wf s → 0 ≤ fd < 2 ^ 30 → fd ≠ m_tickleFd s → e ≠ NONE → reg s fd e = None →
  ∃ s' r, addEvent fd e cb self true true s = Done s' r ∧ wf s' ∧ queue s' = queue s ∧
    (r = 0 ∧ reg_set s s' fd e (Some match cb with Some f => mkFT None (Some f) (-1) | None => mkFT (Some self) None (-1) end) ∨
     r = -1 ∧ ∀ fd' e', reg s' fd' e' = reg s fd' e').
Proof.
  intros Hwf0 Hfd Ht0 He Hnone0. unfold addEvent. do_step.
  (* the table is grown first *)
  assert (∃ s1, (if s32 (zlen (m_fdContexts s)) >? fd then mret () else contextResize (fd * 3 / 2)) s = Done s1 () ∧ wf s1 ∧
    fd < zlen (m_fdContexts s1) ∧ queue s1 = queue s ∧ m_tickleFd s1 = m_tickleFd s ∧ ∀ fd' e, reg s1 fd' e = reg s fd' e) as (s1 & Hs1 & Hwf & Hlt & Hq & Htk & Hregs).
  { destruct (context_of s fd Hwf0 ltac:(lia)) as [-> _]. destruct (zlen (m_fdContexts s) >? fd) eqn:Hgt.
    - exists s. split; [done|]. split; [done|]. split; [lia|done].
    - destruct (resize_spec s fd Hwf0) as (l & H1 & H2 & H3 & H4); [lia..|]. exists (set_contexts l s). done. }
  rewrite (bind_done _ _ _ _ _ Hs1). assert (Ht : fd ≠ m_tickleFd s1) by congruence. rewrite <-Hregs in Hnone0.
  destruct (context_of s1 fd Hwf ltac:(lia)) as [_ Hc]. destruct Hc as (i & c & -> & Hc & Hok & Hat); [done|].
  rewrite (bind_done _ _ _ _ _ Hat). rewrite (reg_of s1 i c) in Hnone0 by done.
  destruct (has (c_events c) e) eqn:Hh. { destruct (waiter_of _ _ _ Hok He Hh) as [t Hw]. by rewrite Hw in Hnone0. }
  do_step.
  destruct (ctl_run s1 (if negb (c_events c =? 0) then EPOLL_CTL_MOD else EPOLL_CTL_ADD) (Z.of_nat i)
    (Z.lor (Z.lor EPOLLET (c_events c)) (ev e))) as (k & ok & Hctl & Htrue & Hfalse & Hacc).
  rewrite (bind_done _ _ _ _ _ Hctl). destruct ok; cbn [negb].
  2: { eexists _, (-1). split; [done|]. split; [by apply wf_same; auto|]. split; [done|]. right. done. }
  destruct (Htrue eq_refl) as [Hreg Hother]. do_step.
  assert (Hg : ∀ s0 : iom, getContext e c s0 = Done s0 (ctx_of e c)) by by destruct e.
  rewrite (bind_done _ _ _ _ _ (Hg _)). rewrite (empty_of _ _ _ Hok He Hh). do_step.
  pose (x := mkEventContext true (match cb with Some _ => None | None => Some self end) cb).
  assert (Hx : waiter x = Some match cb with Some f => mkFT None (Some f) (-1) | None => mkFT (Some self) None (-1) end) by by destruct cb.
  destruct (added_ok _ e x c _ Hok He Hh Hx) as (Hok' & Hwt & Hhas & Hctx & Hcx).
  eexists (mk s1 (queue s1) k (m_tickles s1) (u64 (m_pendingEventCount s1 + 1)) (<[i := added e x c]> (m_fdContexts s1))), 0.
  split; [|split; [|split; [done|left; split; [done|]]]].
  - destruct cb; do_step; do_step; cbn; by rewrite Nat2Z.id.
  - eapply events_wf_update; try done.
    + rewrite Hreg. unfold armed_mask. replace (c_events (added e x c)) with (Z.lor (c_events c) (ev e)) by by destruct e.
      replace (Z.lor (c_events c) (ev e) =? 0) with false.
      * rewrite Z.lor_assoc. by destruct (negb _).
      * symmetry. apply Z.eqb_neq. intros [_ H]%Z.lor_eq_0_iff. by destruct e.
    + f_equal. lia.
  - intros fd' e'. rewrite <-Hregs. apply (reg_set_intro s1 i c); [done| |].
    + by rewrite Hhas, bool_decide_true, orb_true_r, Hcx.
    + intros e2 Hne. by rewrite Hhas, Hctx, (bool_decide_false (e2 = e)), orb_false_r.
Qed.

(** ** [cancelAll] and the loop of [idle] *)
Definition remove_if (b : bool) (e : Event) (c : FdContext) : FdContext := if b then removed e c else c.
Definition task_if (b : bool) (e : Event) (c : FdContext) : list FiberAndThread := if b then option_list (waiter (ctx_of e c)) else [].

Lemma trigger_step s i c b e : m_fdContexts s !! i = Some c → ctx_ok (Z.of_nat i) c → e ≠ NONE → (b = true → has (c_events c) e = true) →
  Z.b2z b ≤ m_pendingEventCount s < 2 ^ 64 → ∃ tk,
  trigger_if b (Z.of_nat i) e s = Done (mk s (queue s ++ task_if b e c) (epfd s) tk (m_pendingEventCount s - Z.b2z b)
    (<[i := remove_if b e c]> (m_fdContexts s))) ().
Proof.
  intros Hc Hok He Hb Hp. destruct b; cbn [Z.b2z task_if remove_if] in *.
  - destruct (waiter_of _ _ _ Hok He (Hb eq_refl)) as [t Hw]. rewrite Hw. cbn [option_list].
    destruct (trigger_dec s i c e t Hc He (Hb eq_refl) Hw) as [tk H]. exists tk. rewrite H, u64_small by lia. done.
  - exists (m_tickles s). rewrite list_insert_id by done. unfold trigger_if, mk, queue. rewrite app_nil_r, Z.sub_0_r.
    destruct s as [b ? ? ? ? ? ?]. by destruct b.
Qed.
Lemma remove_if_ok fd e c b : ctx_ok fd c → e ≠ NONE → (b = true → has (c_events c) e = true) →
  ctx_ok fd (remove_if b e c) ∧ weight (remove_if b e c) = weight c - Z.b2z b ∧
  (∀ e', has (c_events (remove_if b e c)) e' = has (c_events c) e' && negb (b && bool_decide (e' = e))) ∧
  (∀ e', e' ≠ e → ctx_of e' (remove_if b e c) = ctx_of e' c).
Proof.
  intros Hok He Hb. destruct b; cbn [remove_if Z.b2z].
  - destruct (removed_ok fd e c Hok He (Hb eq_refl)) as (H1 & H2 & H3 & H4). repeat split; try apply H1; try done.
    intros e'. rewrite H3. f_equal. clear. by destruct e', e.
  - repeat split; try apply Hok; try done; [lia|]. intros e'. by rewrite andb_true_r.
Qed.

(** Both events of a context at once: the queue, the context and the count. *)
Lemma trigger_both s i c b1 b2 : m_fdContexts s !! i = Some c → ctx_ok (Z.of_nat i) c →
  (b1 = true → has (c_events c) READ = true) → (b2 = true → has (c_events c) WRITE = true) →
  weight c ≤ m_pendingEventCount s < 2 ^ 64 → ∃ tk tk1 c1,
  trigger_if b1 (Z.of_nat i) READ s = Done (mk s (queue s ++ task_if b1 READ c) (epfd s) tk1 (m_pendingEventCount s - Z.b2z b1) (<[i := remove_if b1 READ c]> (m_fdContexts s))) () ∧
  c1 = remove_if b2 WRITE (remove_if b1 READ c) ∧
  trigger_if b2 (Z.of_nat i) WRITE (mk s (queue s ++ task_if b1 READ c) (epfd s) tk1 (m_pendingEventCount s - Z.b2z b1) (<[i := remove_if b1 READ c]> (m_fdContexts s)))
  = Done (mk s (queue s ++ task_if b1 READ c ++ task_if b2 WRITE c) (epfd s) tk (m_pendingEventCount s + weight c1 - weight c) (<[i := c1]> (m_fdContexts s))) () ∧
  ctx_ok (Z.of_nat i) c1 ∧ (∀ e', has (c_events c1) e' = has (c_events c) e' && negb (b1 && bool_decide (e' = READ) || b2 && bool_decide (e' = WRITE))) ∧
  (∀ e', has (c_events c1) e' = true → ctx_of e' c1 = ctx_of e' c).
Proof.
  intros Hc Hok H1 H2 Hp. assert (Hi : (i < length (m_fdContexts s))%nat) by by eapply lookup_lt_Some.
  assert (Hwt : Z.b2z b1 + Z.b2z b2 ≤ weight c).
  { unfold weight. destruct b1, b2; rewrite ?(H1 eq_refl), ?(H2 eq_refl); cbn; try lia;
      destruct (has _ READ), (has _ WRITE); cbn; lia. }
  destruct (trigger_step s i c b1 READ) as [tk1 Hs1]; [done..|destruct b2; cbn in *; lia|].
  destruct (remove_if_ok (Z.of_nat i) READ c b1 Hok) as (Hok1 & Hw1 & Hh1 & Hx1); [done..|].
  set (s1 := mk s _ _ _ _ _) in Hs1.
  destruct (trigger_step s1 i (remove_if b1 READ c) b2 WRITE) as [tk Hs2]; [by apply list_lookup_insert_eq|done|done| |cbn; destruct b1; cbn in *; lia|].
  { intros Hb. rewrite Hh1. rewrite (H2 Hb), (bool_decide_false (WRITE = READ)) by done. by destruct b1. }
  destruct (remove_if_ok (Z.of_nat i) WRITE (remove_if b1 READ c) b2 Hok1) as (Hok2 & Hw2 & Hh2 & Hx2); [done| |].
  { intros Hb. rewrite Hh1. rewrite (H2 Hb), (bool_decide_false (WRITE = READ)) by done. by destruct b1. }
  exists tk, tk1, (remove_if b2 WRITE (remove_if b1 READ c)). split; [exact Hs1|]. split; [done|]. split; [|split; [done|split]].
  - etransitivity; [exact Hs2|]. unfold s1, mk. cbn [m_fdContexts m_pendingEventCount base timers epfd m_tickleFd queue].
    rewrite list_insert_insert_eq. unfold queue. cbn [m_fibers set_queue base].
    assert (task_if b2 WRITE (remove_if b1 READ c) = task_if b2 WRITE c) as -> by (unfold task_if; by rewrite Hx1).
    rewrite <-app_assoc, Hw2, Hw1. do 2 f_equal. lia.
  - intros e'. rewrite Hh2, Hh1. destruct (has (c_events c) e'), b1, b2, (bool_decide (e' = READ)), (bool_decide (e' = WRITE)); done.
  - intros e' Hh. rewrite Hh2, Hh1 in Hh. destruct e'; try done.
    + destruct b1; [by rewrite andb_false_r in Hh|]. by rewrite Hx2.
    + destruct b2; [by rewrite andb_false_r in Hh|]. cbn [remove_if]. by rewrite Hx1.
Qed.

Lemma pendings_lookup l i c : l !! i = Some c → weight c ≤ pendings l.
Proof.
  revert i. induction l as [|x l IH]; intros [|i]; cbn; try done.
  - intros [= ->]. pose proof (pendings_range l). lia.
  - intros H. specialize (IH i H). unfold weight at 2. destruct (has (c_events x) READ), (has (c_events x) WRITE); cbn; lia.
Qed.
Lemma pending_bounds s i c : wf s → m_fdContexts s !! i = Some c → weight c ≤ m_pendingEventCount s < 2 ^ 63.
Proof.
  intros Hwf Hc. rewrite (wf_pending _ Hwf). pose proof (pendings_range (m_fdContexts s)). pose proof (wf_len _ Hwf).
  split; [by eapply pendings_lookup|lia].
Qed.

(** The state after the triggers is well-formed when epoll agrees. *)
Lemma trigger_both_wf s i c c1 k tk tk' q : wf s → m_fdContexts s !! i = Some c → ctx_ok (Z.of_nat i) c1 → Z.of_nat i ≠ m_tickleFd s →
  registered k (Z.of_nat i) = armed_mask (c_events c1) → (∀ fd, fd ≠ Z.of_nat i → registered k fd = registered (epfd s) fd) →
  weight c1 ≤ weight c →
  wf (mk (mk s (queue s) k tk' (m_pendingEventCount s) (m_fdContexts s)) q k tk (m_pendingEventCount s + weight c1 - weight c) (<[i := c1]> (m_fdContexts s))).
Proof.
  intros Hwf Hc Hok Ht Hr Ho Hle. eapply (events_wf_update s i c c1 q k tk); try done.
  pose proof (pending_bounds s i c Hwf Hc). rewrite u64_small; [done|]. unfold weight in *.
  destruct (has (c_events c1) READ), (has (c_events c1) WRITE); cbn in *; lia.
Qed.

Lemma cancelAll_spec s fd : wf s → 0 ≤ fd → fd ≠ m_tickleFd s →
  ∃ s' r, cancelAll fd s = Done s' r ∧ wf s' ∧
    if r : bool then queue s' = queue s ++ option_list (reg s fd READ) ++ option_list (reg s fd WRITE) ∧
      ∀ fd' e', reg s' fd' e' = if bool_decide (fd' = fd) then None else reg s fd' e'
    else queue s' = queue s ∧ ∀ fd' e', reg s' fd' e' = reg s fd' e'.
Proof.
  intros Hwf Hfd Ht. destruct (context_of s fd Hwf Hfd) as [Hlen Hc]. unfold cancelAll. do_step. rewrite Hlen.
  destruct (zlen (m_fdContexts s) <=? fd) eqn:Hle; [by exists s, false|].
  destruct Hc as (i & c & -> & Hc & Hok & Hat); [lia|]. rewrite (bind_done _ _ _ _ _ Hat).
  destruct (c_events c =? 0) eqn:Hz; [by exists s, false|].
  destruct (ctl_run s EPOLL_CTL_DEL (Z.of_nat i) 0) as (k & ok & Hctl & Htrue & Hfalse & Hacc).
  rewrite (bind_done _ _ _ _ _ Hctl). destruct ok; cbn [negb].
  2: { eexists _, false. split; [done|]. split; [by apply wf_same; auto|done]. }
  destruct (Htrue eq_refl) as [Hreg Hother]. set (s1 := mk s (queue s) k _ _ _).
  destruct (trigger_both s1 i c (has (c_events c) READ) (has (c_events c) WRITE) Hc Hok) as (tk & tk1 & c1 & H1 & Hc1 & H2 & Hok1 & Hh1 & _);
    [done|done|pose proof (pending_bounds s i c Hwf Hc); cbn; lia|].
  assert (Hi : (i < length (m_fdContexts s))%nat) by by eapply lookup_lt_Some.
  rewrite (bind_done _ _ _ _ _ H1). erewrite bind_done by (apply context_at_ok; by apply list_lookup_insert_eq).
  replace (has (c_events (remove_if (has (c_events c) READ) READ c)) WRITE) with (has (c_events c) WRITE).
  2: { destruct (remove_if_ok (Z.of_nat i) READ c (has (c_events c) READ) Hok) as (_ & _ & Hh & _); [done..|].
       rewrite Hh, (bool_decide_false (WRITE = READ)) by done. by rewrite andb_false_r, andb_true_r. }
  rewrite (bind_done _ _ _ _ _ H2). erewrite bind_done by (apply context_at_ok; by apply list_lookup_insert_eq).
  assert (Hz1 : c_events c1 = 0).
  { pose proof (Hh1 READ) as HR. pose proof (Hh1 WRITE) as HW. rewrite bool_decide_true, andb_true_r in HR by done.
    rewrite (bool_decide_true (WRITE = WRITE)), andb_true_r in HW by done.
    destruct Hok1 as (_ & Hm & _). mask_cases Hm; rewrite E in *; try done; exfalso; clear -HR HW;
      destruct (has (c_events c) READ), (has (c_events c) WRITE); done. }
  rewrite Hz1. do_step. eexists _, true. split; [reflexivity|].
  assert (Hle1 : weight c1 ≤ weight c).
  { assert (weight c1 = 0) as -> by (unfold weight; by rewrite Hz1). unfold weight. destruct (has (c_events c) READ), (has (c_events c) WRITE); cbn; lia. }
  split; [|split].
  - apply (trigger_both_wf s i c c1 k); try done. by rewrite Hreg, Hz1.
  - cbn. rewrite !(reg_of s i c) by done. unfold task_if, queue. by destruct (has (c_events c) READ), (has (c_events c) WRITE).
  - intros fd' e'. etransitivity; [exact (reg_update s i c c1 _ k tk _ fd' e' Hc)|]. by rewrite Hz1; destruct e'.
Qed.

(** An event that [epoll_wait] reports for registered events only. *)
Lemma idle_event_spec s i c events : wf s → m_fdContexts s !! i = Some c → Z.of_nat i ≠ m_tickleFd s →
  (∀ e, has (real_events events c) e = true → has (c_events c) e = true) →
  ∃ s', idle_event (FdPtr (Z.of_nat i)) events s = Done s' () ∧ wf s' ∧
    if real_events events c =? 0 then s' = s
    else if accepts s (Z.of_nat i) (left_mask (c_events c) (real_events events c)) then
      queue s' = queue s ++ task_if (has (real_events events c) READ) READ c ++ task_if (has (real_events events c) WRITE) WRITE c ∧
      ∀ fd' e', reg s' fd' e' = if bool_decide (fd' = Z.of_nat i) && has (real_events events c) e' then None else reg s fd' e'
    else queue s' = queue s ∧ ∀ fd' e', reg s' fd' e' = reg s fd' e'.
Proof.
  intros Hwf Hc Ht Hsub. pose proof (wf_ctx _ Hwf _ _ Hc) as Hok. unfold idle_event.
  rewrite (bind_done _ _ _ _ _ (context_at_ok s i c Hc)). cbn zeta. pose proof (real_events_mask events c) as Hrm.
  set (real := real_events events c) in *. pose proof Hok as (Hfd & Hm & Hslots).
  destruct (mask_facts (c_events c) real Hm Hrm Hsub) as (Hz & Hlm & Hleft). fold (left_mask (c_events c) real).
  rewrite Hz. destruct (real =? 0) eqn:Hreal; [by exists s|].
  rewrite Hfd. destruct (ctl_run s (if negb (left_mask (c_events c) real =? 0) then EPOLL_CTL_MOD else EPOLL_CTL_DEL) (Z.of_nat i)
    (Z.lor EPOLLET (left_mask (c_events c) real))) as (k & ok & Hctl & Htrue & Hfalse & Hacc).
  apply accepts_ctl in Hacc. rewrite (bind_done _ _ _ _ _ Hctl), Hacc. destruct ok; cbn [negb].
  2: { eexists. split; [done|]. split; [by apply wf_same; auto|done]. }
  destruct (Htrue eq_refl) as [Hreg Hother]. set (s1 := mk s (queue s) k _ _ _).
  destruct (trigger_both s1 i c (has real READ) (has real WRITE) Hc Hok) as (tk & tk1 & c1 & H1 & Hc1 & H2 & Hok1 & Hh1 & Hx1);
    [apply Hsub|apply Hsub|pose proof (pending_bounds s i c Hwf Hc); cbn; lia|].
  rewrite (bind_done _ _ _ _ _ H1), H2. eexists. split; [reflexivity|].
  assert (Hh1' : ∀ e, has (c_events c1) e = has (left_mask (c_events c) real) e).
  { intros e. rewrite Hh1, Hleft. f_equal. f_equal. destruct e; rewrite ?bool_decide_true, ?bool_decide_false by done; cbn.
    - by rewrite has_NONE, !andb_false_r.
    - by rewrite andb_true_r, andb_false_r, orb_false_r.
    - by rewrite andb_true_r, andb_false_r. }
  assert (Hev : c_events c1 = left_mask (c_events c) real) by (apply mask_ext; [apply Hok1|done|done]).
  split; [|split; [done|]].
  - apply (trigger_both_wf s i c c1 k); try done.
    + rewrite Hreg, Hev. unfold armed_mask. by destruct (left_mask _ _ =? 0).
    + unfold weight. rewrite !Hh1', !Hleft. destruct (has (c_events c) READ), (has (c_events c) WRITE), (has real READ), (has real WRITE); cbn; lia.
  - intros fd' e'. etransitivity; [exact (reg_update s i c c1 _ k tk _ fd' e' Hc)|]. case_bool_decide as Hf; [|done]. subst fd'. cbn [andb].
    rewrite Hh1', Hleft, (reg_of s i c) by done. specialize (Hx1 e'). rewrite Hh1', Hleft in Hx1.
    destruct (has real e') eqn:Hre; [by rewrite andb_false_r|]. rewrite andb_true_r in *. destruct (has (c_events c) e'); [|done]. by rewrite Hx1.
Qed.

(** An event that was cancelled between [epoll_wait] and the lock trips the assertion. *)
Lemma idle_event_stale s i c events e : wf s → m_fdContexts s !! i = Some c → Z.of_nat i ≠ m_tickleFd s →
  e ≠ NONE → c_events c = ev e → real_events events c = Z.lor (ev READ) (ev WRITE) →
  if accepts s (Z.of_nat i) 0 then idle_event (FdPtr (Z.of_nat i)) events s = Undef AssertFail
  else ∃ s', idle_event (FdPtr (Z.of_nat i)) events s = Done s' () ∧ wf s' ∧ queue s' = queue s ∧ ∀ fd' e', reg s' fd' e' = reg s fd' e'.
Proof.
  intros Hwf Hc Ht Hne He Hr. pose proof (wf_ctx _ Hwf _ _ Hc) as Hok. pose proof Hok as (Hfd & _).
  assert (Hidle : idle_event (FdPtr (Z.of_nat i)) events s = (rt2 ← ctl EPOLL_CTL_DEL (Z.of_nat i) (Z.lor EPOLLET 0);
    if negb rt2 then mret () else trigger_if true (Z.of_nat i) READ ;; trigger_if true (Z.of_nat i) WRITE) s).
  { unfold idle_event. rewrite (bind_done _ _ _ _ _ (context_at_ok s i c Hc)). cbn zeta. rewrite Hr, He, Hfd. by destruct e. }
  rewrite Hidle. destruct (ctl_run s EPOLL_CTL_DEL (Z.of_nat i) (Z.lor EPOLLET 0)) as (k & ok & Hctl & Htrue & Hfalse & Hacc).
  change (accepts s (Z.of_nat i) 0) with (epoll_ctl EPOLL_CTL_DEL (Z.of_nat i) (Z.lor EPOLLET 0) (epfd s)).2.
  rewrite (bind_done _ _ _ _ _ Hctl), Hacc. destruct ok; cbn [negb].
  2: { eexists. split; [done|]. split; [by apply wf_same; auto|done]. }
  set (s1 := mk s (queue s) k _ _ _). destruct e; [done| |].
  - destruct (trigger_step s1 i c true READ Hc Hok) as [tk H1]; [done|by rewrite He|pose proof (pending_bounds s i c Hwf Hc) as Hp|].
    { unfold weight in Hp. rewrite He in Hp. change (Z.b2z (has (ev READ) READ)) with 1 in Hp. change (Z.b2z (has (ev READ) WRITE)) with 0 in Hp. cbn. lia. }
    rewrite (bind_done _ _ _ _ _ H1). unfold trigger_if, triggerEvent.
    assert (Hi : (i < length (m_fdContexts s))%nat) by by eapply lookup_lt_Some.
    apply bind_undef. erewrite bind_done by (apply context_at_ok; by apply list_lookup_insert_eq). apply bind_undef.
    cbn [remove_if]. destruct c as [r w f0 evs]. cbn in He. by subst evs.
  - unfold trigger_if, triggerEvent. do 2 apply bind_undef.
    erewrite bind_done by (by apply context_at_ok). apply bind_undef. by rewrite He.
Qed.
(** What a socket object relies on when it cancels: the calls return for an open
    descriptor; a closed socket's -1 indexes the table of contexts. *)
Lemma cancel_open s fd e : wf s → 0 ≤ fd → fd ≠ m_tickleFd s → e ≠ NONE →
  (∃ s' r, cancelEvent fd e s = Done s' r ∧ wf s') ∧ (∃ s' r, cancelAll fd s = Done s' r ∧ wf s').
Proof.
  intros Hwf Hfd Ht He. split.
  - destruct (cancelEvent_spec s fd e Hwf Hfd Ht He) as (s' & r & ? & ? & _). eauto.
  - destruct (cancelAll_spec s fd Hwf Hfd Ht) as (s' & r & ? & ? & _). eauto.
Qed.
Lemma cancel_closed s e : wf s → cancelEvent (-1) e s = Undef OutOfBounds ∧ cancelAll (-1) s = Undef OutOfBounds.
Proof.
  intros Hwf. destruct (context_of s 0 Hwf ltac:(lia)) as [Hlen _]. pose proof (wf_len _ Hwf).
  unfold cancelEvent, cancelAll. do 2 do_step. rewrite Hlen. by replace (zlen (m_fdContexts s) <=? -1) with false by lia.
Qed.
End facts.

(** The constructor establishes the invariant. *)
Lemma IOManager_new_wf {K} `{!Epoll K, !EpollLaws K} b (k : K) fd now s : (∀ d, registered k d = None) →
  IOManager_new b k fd now = Done s () → wf s.
Proof.
  intros Hk H. unfold IOManager_new in H. apply bind_inv in H as (s1 & rt & H1 & H). unfold ctl in H1.
  destruct (epoll_ctl _ _ _ _) as [k' ok] eqn:Hctl. injection H1 as <- <-. destruct ok; [|done].
  cbn in H. injection H as <-. apply ctl_ok in Hctl as [_ Ho]. cbn in Ho.
  constructor; cbn [set_contexts m_fdContexts epfd m_tickleFd m_pendingEventCount set_epfd].
  - intros i c Hi. rewrite (list_lookup_fmap FdContext_new (Z.of_nat <$> seq 0 32)) in Hi || idtac.
    do 32 (destruct i as [|i]; [injection Hi as <-; repeat split; cbn; try done; unfold masks; set_solver|]). done.
  - intros i c Hi Ht. rewrite Ho, Hk by done.
    do 32 (destruct i as [|i]; [by injection Hi as <-|]). done.
  - intros d Hd Ht. by rewrite Ho.
  - reflexivity.
  - unfold zlen. cbn. lia.
Qed.

(** C7: the registrations, abstractly a map from (descriptor, event) to the waiting
    task.  [addEvent] of an event nobody waits for records the callback, or the
    running fiber, or returns -1 and changes nothing; [delEvent] removes the waiter
    without waking it; [cancelEvent] and [cancelAll] remove waiters and queue exactly
    those, READ before WRITE; [false] means nothing was changed.  Every operation
    keeps the invariant: contexts filled exactly for their event bits, the kernel
    registered for those bits, [m_pendingEventCount] the number of waiters. *)
Theorem event_ops_spec {K} `{!Epoll K, !EpollLaws K} (s : @IOManager K) fd e cb self :
  wf s → 0 ≤ fd < 2 ^ 30 → fd ≠ m_tickleFd s → e ≠ NONE →
  (reg s fd e = None → ∃ s' r, addEvent fd e cb self true true s = Done s' r ∧ wf s' ∧ queue s' = queue s ∧
    (r = 0 ∧ reg_set s s' fd e (Some match cb with Some f => mkFT None (Some f) (-1) | None => mkFT (Some self) None (-1) end) ∨
     r = -1 ∧ ∀ fd' e', reg s' fd' e' = reg s fd' e')) ∧
  (∃ s' r, delEvent fd e s = Done s' r ∧ wf s' ∧ queue s' = queue s ∧
    if r : bool then is_Some (reg s fd e) ∧ reg_set s s' fd e None else ∀ fd' e', reg s' fd' e' = reg s fd' e') ∧
  (∃ s' r, cancelEvent fd e s = Done s' r ∧ wf s' ∧
    if r : bool then ∃ t, reg s fd e = Some t ∧ queue s' = queue s ++ [t] ∧ reg_set s s' fd e None
    else queue s' = queue s ∧ ∀ fd' e', reg s' fd' e' = reg s fd' e') ∧
  (∃ s' r, cancelAll fd s = Done s' r ∧ wf s' ∧
    if r : bool then queue s' = queue s ++ option_list (reg s fd READ) ++ option_list (reg s fd WRITE) ∧
      ∀ fd' e', reg s' fd' e' = if bool_decide (fd' = fd) then None else reg s fd' e'
    else queue s' = queue s ∧ ∀ fd' e', reg s' fd' e' = reg s fd' e').
Proof.
  intros Hwf Hfd Ht He. split; [|split; [|split]].
  - intros Hn. by apply addEvent_spec.
  - by apply delEvent_spec; [|lia|..].
  - by apply cancelEvent_spec; [|lia|..].
  - by apply cancelAll_spec; [|lia|..].
Qed.

(** The event [e] counts as reported: its bit, or an error or a hang-up (bits 3 and
    4) while it is registered. *)
Definition reported (events : Z) (c : FdContext) (e : Event) : bool :=
  match e with READ => Z.testbit events 0 | WRITE => Z.testbit events 2 | NONE => false end ||
  (Z.testbit events 3 || Z.testbit events 4) && has (c_events c) e.
Lemma land_bit x n : 0 ≤ n → negb (Z.land x (2 ^ n) =? 0) = Z.testbit x n.
Proof.
  intros Hn. destruct (Z.testbit x n) eqn:E.
  - apply negb_true_iff, Z.eqb_neq. intros H. apply (f_equal (λ z, Z.testbit z n)) in H. by rewrite Z.land_spec, E, Z.pow2_bits_true, Z.bits_0 in H.
  - apply negb_false_iff, Z.eqb_eq, Z.bits_inj'. intros k Hk. rewrite Z.land_spec, Z.bits_0. destruct (decide (k = n)) as [->|Hne].
    + by rewrite E.
    + by rewrite Z.pow2_bits_false, andb_false_r.
Qed.
Lemma land_bits2 x a b : 0 ≤ a → 0 ≤ b → negb (Z.land x (Z.lor (2 ^ a) (2 ^ b)) =? 0) = Z.testbit x a || Z.testbit x b.
Proof.
  intros Ha Hb. rewrite Z.land_lor_distr_r, <-!land_bit by done.
  destruct (Z.land x (2 ^ a) =? 0) eqn:E1, (Z.land x (2 ^ b) =? 0) eqn:E2; cbn.
  - apply Z.eqb_eq in E1 as ->. apply Z.eqb_eq in E2 as ->. done.
  - apply Z.eqb_eq in E1 as ->. by rewrite Z.lor_0_l, E2.
  - apply Z.eqb_eq in E2 as ->. by rewrite Z.lor_0_r, E1.
  - apply negb_true_iff, Z.eqb_neq. intros [H1 _]%Z.lor_eq_0_iff. by rewrite H1 in E1.
Qed.
Lemma real_events_reported events c e : has (real_events events c) e = reported events c e.
Proof.
  unfold real_events, reported, EPOLLERR, EPOLLHUP, EPOLLIN, EPOLLOUT.
  change (Z.lor 8 16) with (Z.lor (2 ^ 3) (2 ^ 4)). rewrite (land_bits2 events 3 4) by done.
  match goal with |- context [if _ || _ then ?x else events] => set (events' := if Z.testbit events 3 || Z.testbit events 4 then x else events) end.
  assert (Hb : ∀ n e, (n, e) = (0, READ) ∨ (n, e) = (2, WRITE) →
    Z.testbit events' n = Z.testbit events n || (Z.testbit events 3 || Z.testbit events 4) && has (c_events c) e).
  { intros n e' Hn. subst events'. assert (Hh : has (c_events c) e' = Z.testbit (c_events c) n).
    { unfold has, ev. destruct Hn as [[= -> ->]|[= -> ->]]; [apply (land_bit _ 0)|apply (land_bit _ 2)]; done. }
    rewrite Hh. destruct (_ || _); cbn [andb]; [|by rewrite orb_false_r]. rewrite Z.lor_spec, Z.land_spec.
    by destruct Hn as [[= -> ->]|[= -> ->]]. }
  change (Z.land events' 1) with (Z.land events' (2 ^ 0)). change (Z.land events' 4) with (Z.land events' (2 ^ 2)).
  rewrite !land_bit by done. destruct e; [by unfold has; cbn [ev]; rewrite !Z.land_0_r, andb_false_r| |].
  - rewrite <-(Hb 0 READ) by by left. by destruct (Z.testbit events' 0), (Z.testbit events' 2).
  - rewrite <-(Hb 2 WRITE) by by right. by destruct (Z.testbit events' 0), (Z.testbit events' 2).
Qed.

(** The events of [c] that stay registered when [events] is reported. *)
Definition unreported (events : Z) (c : FdContext) : Z :=
  (if has (c_events c) READ && negb (reported events c READ) then ev READ else 0) +
  (if has (c_events c) WRITE && negb (reported events c WRITE) then ev WRITE else 0).
Lemma left_mask_unreported events c : c_events c ∈ masks → left_mask (c_events c) (real_events events c) = unreported events c.
Proof.
  intros Hm. pose proof (real_events_mask events c) as Hr. unfold unreported. rewrite <-!real_events_reported.
  mask_cases Hm; rewrite E; mask_cases Hr; rewrite E0; reflexivity.
Qed.
Lemma real_events_none events c : (real_events events c =? 0) = negb (reported events c READ || reported events c WRITE).
Proof. rewrite <-!real_events_reported. pose proof (real_events_mask events c) as Hr. mask_cases Hr; rewrite E; reflexivity. Qed.

(** An event nobody waits for any more changes nothing. *)
Lemma idle_event_late {K} `{!Epoll K, !EpollLaws K} (s : @IOManager K) i c e events : wf s → m_fdContexts s !! i = Some c → e ≠ NONE →
  reg s (Z.of_nat i) e = None → (∀ e', reported events c e' = bool_decide (e' = e)) → idle_event (FdPtr (Z.of_nat i)) events s = Done s ().
Proof.
  intros Hwf Hc He Hn Hr. pose proof (wf_ctx _ Hwf _ _ Hc) as Hok. pose proof Hok as (_ & Hm & _).
  unfold idle_event. rewrite (bind_done _ _ _ _ _ (context_at_ok s i c Hc)). cbn zeta.
  assert (real_events events c = ev e) as ->.
  { apply mask_ext; [apply real_events_mask|destruct e; [done|unfold masks; set_solver..]|].
    intros e'. rewrite real_events_reported, Hr. by destruct e, e'. }
  rewrite (reg_of s i c e Hc) in Hn. destruct (has (c_events c) e) eqn:Hh.
  { destruct (waiter_of _ _ _ Hok He Hh) as [t Hw]. by rewrite Hw in Hn. }
  apply negb_false_iff in Hh. by rewrite Hh.
Qed.

(** C8: the turn of [idle].  [epoll_wait] is given the delay of the next timer taken
    as an [int], at most 3 seconds (3 seconds without a timer): a delay whose low 32
    bits read as a negative [int] waits without limit.  An event reported for a
    descriptor, errors and hang-ups counting for everything registered: when nothing
    registered is reported nothing happens; when [epoll_ctl] accepts what is left
    registered, exactly the waiters of the reported events are queued, once, and
    deregistered; only when [epoll_ctl] refuses is nothing delivered.  If of two
    reported events one was cancelled before the context was locked, the assertion in
    [triggerEvent] fails, unless [epoll_ctl] refuses. *)
Theorem idle_event_delivery {K} `{!Epoll K, !EpollLaws K} (s : @IOManager K) i c events : wf s →
  m_fdContexts s !! i = Some c → Z.of_nat i ≠ m_tickleFd s →
  (∀ next, 0 ≤ next < 2 ^ 64 - 1 → epoll_timeout next = Z.min (s32 next) 3000) ∧ epoll_timeout (2 ^ 64 - 1) = 3000 ∧
  ((∀ e, reported events c e = true → has (c_events c) e = true) →
    ∃ s', idle_event (FdPtr (Z.of_nat i)) events s = Done s' () ∧ wf s' ∧
    if negb (reported events c READ || reported events c WRITE) then s' = s
    else if accepts s (Z.of_nat i) (unreported events c) then
      queue s' = queue s ++ task_if (reported events c READ) READ c ++ task_if (reported events c WRITE) WRITE c ∧
      ∀ fd' e', reg s' fd' e' = if bool_decide (fd' = Z.of_nat i) && reported events c e' then None else reg s fd' e'
    else queue s' = queue s ∧ ∀ fd' e', reg s' fd' e' = reg s fd' e') ∧
  (∀ e, e ≠ NONE → c_events c = ev e → reported events c READ = true → reported events c WRITE = true →
    if accepts s (Z.of_nat i) 0 then idle_event (FdPtr (Z.of_nat i)) events s = Undef AssertFail
    else ∃ s', idle_event (FdPtr (Z.of_nat i)) events s = Done s' () ∧ wf s' ∧ queue s' = queue s ∧
      ∀ fd' e', reg s' fd' e' = reg s fd' e').
Proof.
  intros Hwf Hc Ht. pose proof (wf_ctx _ Hwf _ _ Hc) as (_ & Hm & _). split; [|split; [done|split]].
  - intros next Hn. unfold epoll_timeout, MAX_TIMEOUT. change (u64 (-1)) with 18446744073709551615.
    replace (next =? 18446744073709551615) with false by lia. cbn [negb].
    destruct (s32 next >? 3000) eqn:Hgt; [rewrite s32_small by lia|]; lia.
  - intros Hsub. destruct (idle_event_spec s i c events Hwf Hc Ht) as (s' & Hr & Hw & H).
    { intros e. rewrite real_events_reported. apply Hsub. }
    exists s'. split; [done|]. split; [done|]. rewrite real_events_none, left_mask_unreported, !real_events_reported in H by done.
    destruct (negb _); [done|]. destruct (accepts _ _ _); [|done]. destruct H as [Hq Hreg].
    split; [done|]. intros fd' e'. by rewrite Hreg, real_events_reported.
  - intros e Hne He Hr Hw. apply (idle_event_stale s i c events e); [done..|]. rewrite <-real_events_reported in Hr, Hw.
    pose proof (real_events_mask events c) as Hrm. destruct (masks_cases _ Hrm) as [E|[E|[E|E]]]; rewrite E in *; done.
Qed.

(** ** An epoll instance as a finite map, and witnesses *)
#[export] Instance map_epoll : Epoll (gmap Z Z) := {|
  epoll_ctl op fd mask k :=
    match op, k !! fd with
    | EPOLL_CTL_ADD, None => (<[fd := mask]> k, true)
    | EPOLL_CTL_MOD, Some _ => (<[fd := mask]> k, true)
    | EPOLL_CTL_DEL, Some _ => (delete fd k, true)
    | _, _ => (k, false)
    end;
  registered k fd := k !! fd
|}.
#[export] Instance map_epoll_laws : EpollLaws (gmap Z Z).
Proof.
  split; cbn.
  - intros op fd mask k k' H. destruct op, (k !! fd) eqn:Hfd; injection H as <-; try done; split; intros;
      rewrite ?lookup_insert_eq, ?lookup_delete_eq, ?lookup_insert_ne, ?lookup_delete_ne; done.
  - intros op fd mask k k' H. by destruct op, (k !! fd) eqn:Hfd; injection H as <-.
Qed.

Definition io_sched : Scheduler := mkScheduler (mkFibers ∅ 10 0 0) [] None 1 0 0 false false (-1) [] 0 [].
Definition io_state (l : list FdContext) (k : gmap Z Z) (pend : Z) : @IOManager (gmap Z Z) :=
  mkIOManager io_sched (TimerManager_new 0) k 3 0 pend l.
Definition io_read : FdContext := mkFdContext (mkEventContext true (Some 7) None) EventContext_empty 1 1.
Definition io0 : @IOManager (gmap Z Z) := io_state [FdContext_new 0; io_read] {[ 1 := Z.lor EPOLLET 1; 3 := EPOLLIN ]} 1.
Lemma io0_wf : wf io0.
Proof.
  assert (Hnew : ∀ fd, ctx_ok fd (FdContext_new fd)) by (intros fd; repeat split; unfold masks; cbn; set_solver).
  constructor.
  - intros [|[|i]] c Hc; [injection Hc as <-; apply Hnew|injection Hc as <-; repeat split; try (unfold slot_ok; cbn; eauto); unfold masks; cbn; set_solver|done].
  - intros [|[|i]] c Hc _; [injection Hc as <-; reflexivity|injection Hc as <-; reflexivity|done].
  - intros fd Hfd Ht. cbn in *. unfold zlen in Hfd. cbn in Hfd. rewrite lookup_insert_ne by lia. rewrite lookup_singleton_ne; [done|]. intros <-. by apply Ht.
  - reflexivity.
  - unfold zlen. cbn. lia.
Qed.
Lemma event_ops_spec_witness : ∃ s' r, addEvent 40 WRITE (Some FIdle) 9 true true io0 = Done s' r ∧ r = 0 ∧
  reg s' 40 WRITE = Some (mkFT None (Some FIdle) (-1)) ∧ reg s' 1 READ = Some (mkFT (Some 7) None (-1)) ∧ m_pendingEventCount s' = 2.
Proof.
  destruct (event_ops_spec io0 40 WRITE (Some FIdle) 9) as (H & _); [apply io0_wf|lia|discriminate|discriminate|].
  destruct (H eq_refl) as (s' & r & Hadd & _). exists s', r. split; [exact Hadd|].
  vm_compute in Hadd. injection Hadd as <- <-. vm_compute. repeat split.
Defined.
Lemma idle_event_delivery_witness : ∃ s', idle_event (FdPtr 1) (Z.lor EPOLLHUP EPOLLIN) io0 = Done s' () ∧
  queue s' = [mkFT (Some 7) None (-1)] ∧ reg s' 1 READ = None.
Proof.
  destruct (idle_event_delivery io0 1 io_read (Z.lor EPOLLHUP EPOLLIN)) as (_ & _ & H & _); [apply io0_wf|reflexivity|discriminate|].
  destruct H as (s' & Hs & _ & Hq & Hreg); [intros []; vm_compute; done|]. exists s'. split; [exact Hs|].
  split; [rewrite Hq; reflexivity|]. rewrite Hreg. reflexivity.
Defined.
