(* ===== verification/Hook.v ===== *)
(** * Hook ([webserve/hook.h], [webserve/hook.cc])

    The replaced system calls.  The original functions are the kernel's: the
    results of the original I/O function are a list the state consumes, the
    descriptor flags and the socket error are parameters.  While a fiber is
    suspended in a call, everything else runs: each suspension takes the state
    through an arbitrary transformation. *)
From S2P Require Import Prelude OrderedSet Timer FdManager Fiber Scheduler IOManager.
Open Scope Z_scope.

Definition EINTR : Z := 4.
Definition EBADF : Z := 9.
Definition EAGAIN : Z := 11.
Definition ETIMEDOUT : Z := 110.
Definition EINPROGRESS : Z := 115.
Definition SOL_SOCKET : Z := 1.
(** [(uint64_t)-1] *)
Definition no_timeout : Z := u64 (-1).

(** What the code relies on of [fcntl(F_SETFL)] and [ioctl(FIONBIO)]: the flags of a
    descriptor behind the call, from those before it and the argument. *)
Class FdFlags := {
  setfl : Z → Z → Z;
  fionbio : Z → bool → Z;
  setfl_nonblock : ∀ old arg, Z.land (setfl old arg) O_NONBLOCK = Z.land arg O_NONBLOCK;
  fionbio_nonblock : ∀ old b, Z.land (fionbio old b) O_NONBLOCK = if b then O_NONBLOCK else 0
}.

Section hook.
Context {K : Type} `{!Epoll K, !FdFlags} (fstat : Z → option bool).

Record hooks := mkHooks {
  h_fdm : FdManager.FdManager;
  h_iom : @IOManager K;
  h_errno : Z;
  t_hook_enable : bool;
  h_tinfo : gmap Z Z;           (* the live timer_info objects: their [cancelled] *)
  h_calls : list (Z * Z)        (* what the original function returns next, and errno *)
}.
Definition set_fdm v s := mkHooks v (h_iom s) (h_errno s) (t_hook_enable s) (h_tinfo s) (h_calls s).
Definition set_iom v s := mkHooks (h_fdm s) v (h_errno s) (t_hook_enable s) (h_tinfo s) (h_calls s).
Definition set_errno v s := mkHooks (h_fdm s) (h_iom s) v (t_hook_enable s) (h_tinfo s) (h_calls s).
Definition set_tinfo v s := mkHooks (h_fdm s) (h_iom s) (h_errno s) (t_hook_enable s) v (h_calls s).
Definition set_calls v s := mkHooks (h_fdm s) (h_iom s) (h_errno s) (t_hook_enable s) (h_tinfo s) v.
(** [set_hook_enable], [is_hook_enable] *)
Definition set_hook_enable v s := mkHooks (h_fdm s) (h_iom s) (h_errno s) v (h_tinfo s) (h_calls s).
Definition is_hook_enable (s : hooks) : bool := t_hook_enable s.

(** Operations of the components, run on their part of the state. *)
Definition lift {S A} (proj : hooks → S) (put : S → hooks → hooks) (m : M S A) : M hooks A := λ s,
  match m (proj s) with
  | Done x a => Done (put x s) a
  | Raise x e => Raise (put x s) e
  | Undef c => Undef c
  | NoFuel => NoFuel
  end.
Definition on_fdm {A} : M FdManager.FdManager A → M hooks A := lift h_fdm set_fdm.
Definition on_iom {A} : M (@IOManager K) A → M hooks A := lift h_iom set_iom.
Definition on_timers {A} : M TimerManager A → M hooks A :=
  lift (λ s, timers (h_iom s)) (λ t s, set_iom (IOManager.set_timers t (h_iom s)) s).

(** [FdMgr::GetInstance()->get(fd)] *)
Definition fd_ctx (fd : Z) : M hooks (option FdCtx) :=
  p ← on_fdm (FdManager.get fstat fd 0 false);
  s ← Prelude.get;
  mret (a ← p; ctxs (h_fdm s) !! a).
Definition update_ctx (fd : Z) (g : FdCtx → FdCtx) : M hooks () :=
  p ← on_fdm (FdManager.get fstat fd 0 false);
  match p with
  | Some a => modify (λ s, set_fdm (mkFdManager (alter g a (ctxs (h_fdm s))) (m_datas (h_fdm s)) (fd_flags (h_fdm s))) s)
  | None => mret ()
  end.

(** [fun(fd, args...)] *)
Definition origin : M hooks Z := λ s,
  match h_calls s with
  | [] => NoFuel
  | (n, e) :: l => Done (set_calls l (if n =? -1 then set_errno e s else s)) n
  end.
(** [while(n == -1 && errno == EINTR) n = fun(...)]; every turn uses up a result. *)
Fixpoint origin_retry (fuel : nat) : M hooks Z :=
  match fuel with
  | O => nofuel
  | S fuel =>
      n ← origin; s ← Prelude.get;
      if (n =? -1) && (h_errno s =? EINTR) then origin_retry fuel else mret n
  end.
Definition call : M hooks Z := s ← Prelude.get; origin_retry (S (length (h_calls s))).

(** The lambda of the condition timer, when [OnTimer] found its [weak_cond] alive. *)
Definition timeout_cb (t fd : Z) (e : Event) : M hooks () :=
  s ← Prelude.get;
  match h_tinfo s !! t with
  | None => mret ()
  | Some cancelled =>
      if negb (cancelled =? 0) then mret ()
      else modify (set_tinfo (<[t := ETIMEDOUT]> (h_tinfo s))) ;; on_iom (cancelEvent fd e) ;; mret ()
  end.

(** [iom->addConditionTimer(to, lambda, winfo)] at address [a]; the insertion at
    the front tickles. *)
Definition add_timer (now a to t : Z) : M hooks Z :=
  s ← Prelude.get;
  let before := inserted_front (timers (h_iom s)) in
  on_timers (addConditionTimer now a to (UserCb a) t false) ;;
  s ← Prelude.get;
  (if (before <? inserted_front (timers (h_iom s)))%nat then on_iom onTimerInsertedAtFront else mret ()) ;;
  mret a.
Definition add_timer_opt (now a to t : Z) : M hooks (option Z) :=
  if negb (to =? no_timeout) then a ← add_timer now a to t; mret (Some a) else mret None.
Definition cancel_opt (timer : option Z) : M hooks () :=
  match timer with Some a => on_timers (cancel a) ;; mret () | None => mret () end.

(** One suspension: the clock, the address of the timer, and what happens until the
    fiber runs again. *)
Definition suspension : Type := Z * Z * (hooks → hooks).

Section fiber.
(** The running fiber. *)
Context (self : Z).

(** [do_io] behind its early returns; [t] is the address of [tinfo]. *)
Fixpoint do_io_loop (ws : list suspension) (fd : Z) (e : Event) (to t : Z) : M hooks Z :=
  n ← call;
  s ← Prelude.get;
  if (n =? -1) && (h_errno s =? EAGAIN) then
    match ws with
    | [] => nofuel
    | (now, a, world) :: ws =>
        timer ← add_timer_opt now a to t;
        rt ← on_iom (addEvent fd e None self true true);
        if rt >? 0 then cancel_opt timer ;; mret (-1)
        else
          modify world ;;
          cancel_opt timer ;;
          s ← Prelude.get;
          let cancelled := default 0 (h_tinfo s !! t) in
          if negb (cancelled =? 0) then modify (set_errno cancelled) ;; mret (-1)
          else do_io_loop ws fd e to t
    end
  else mret n.

Definition do_io (ws : list suspension) (fd : Z) (e : Event) (timeout_so t : Z) : M hooks Z :=
  s ← Prelude.get;
  if negb (t_hook_enable s) then origin else
  ctx ← fd_ctx fd;
  match ctx with
  | None => origin
  | Some c =>
      if m_isClosed c then modify (set_errno EBADF) ;; mret (-1) else
      if negb (m_isSocket c) || m_userNonblock c then origin else
      let to := getTimeout timeout_so c in
      modify (λ s, set_tinfo (<[t := 0]> (h_tinfo s)) s) ;;
      n ← do_io_loop ws fd e to t;
      modify (λ s, set_tinfo (delete t (h_tinfo s)) s) ;;
      mret n
  end.

(** [connect_with_timeout]; [so_error] is the socket's error when it is asked. *)
Definition connect_with_timeout (world : suspension) (so_error : hooks → option Z) (fd timeout_ms t : Z) : M hooks Z :=
  s ← Prelude.get;
  if negb (t_hook_enable s) then origin else
  ctx ← fd_ctx fd;
  match ctx with
  | None => modify (set_errno EBADF) ;; mret (-1)
  | Some c =>
      if m_isClosed c then modify (set_errno EBADF) ;; mret (-1) else
      if negb (m_isSocket c) then origin else
      if m_userNonblock c then origin else
      n ← origin;
      s ← Prelude.get;
      if n =? 0 then mret 0
      else if negb (n =? -1) || negb (h_errno s =? EINPROGRESS) then mret n
      else
        let '(now, a, w) := world in
        modify (λ s, set_tinfo (<[t := 0]> (h_tinfo s)) s) ;;
        timer ← add_timer_opt now a timeout_ms t;
        rt ← on_iom (addEvent fd WRITE None self true true);
        let finish : M hooks Z :=
          s ← Prelude.get;
          modify (λ s, set_tinfo (delete t (h_tinfo s)) s) ;;
          match so_error s with
          | None => mret (-1)
          | Some error => if error =? 0 then mret 0 else modify (set_errno error) ;; mret (-1)
          end in
        if rt =? 0 then
          modify w ;;
          cancel_opt timer ;;
          s ← Prelude.get;
          let cancelled := default 0 (h_tinfo s !! t) in
          if negb (cancelled =? 0) then
            modify (set_errno cancelled) ;; modify (λ s, set_tinfo (delete t (h_tinfo s)) s) ;; mret (-1)
          else finish
        else cancel_opt timer ;; finish
  end.

(** The hooked I/O functions: the event they wait for and the timeout they use. *)
Inductive io_fun := Read | Readv | Recv | Recvfrom | Recvmsg | Write | Writev | Send | Sendto | Sendmsg.
Definition io_event (f : io_fun) : Event :=
  match f with Read | Readv | Recv | Recvfrom | Recvmsg => READ | Write | Writev | Send | Sendto | Sendmsg => WRITE end.
Definition io_timeout (f : io_fun) : Z :=
  match f with Read | Readv | Recv | Recvfrom | Recvmsg => SO_RCVTIMEO | Write | Writev | Send | Sendto | Sendmsg => SO_SNDTIMEO end.
Definition hooked_io (f : io_fun) (ws : list suspension) (fd t : Z) : M hooks Z := do_io ws fd (io_event f) (io_timeout f) t.
(** [connect]; [s_connect_timeout] is an [uint64_t] that holds the configured [int]. *)
Definition connect (s_connect_timeout : Z) (world : suspension) (so_error : hooks → option Z) (fd t : Z) : M hooks Z :=
  connect_with_timeout world so_error fd (u64 s_connect_timeout) t.

(** [sleep], [usleep] and [nanosleep] with the hook: a timer that schedules the
    fiber again, then [YieldToHold]; [resume] is that callback's number. *)
Definition sleep_for (ms resume : Z) (w : suspension) : M hooks Z :=
  s ← Prelude.get;
  if negb (t_hook_enable s) then origin else
  let '(now, a, world) := w in
  let before := inserted_front (timers (h_iom s)) in
  on_timers (addTimer now a ms (UserCb resume) false) ;;
  s ← Prelude.get;
  (if (before <? inserted_front (timers (h_iom s)))%nat then on_iom onTimerInsertedAtFront else mret ()) ;;
  modify world ;;
  mret 0.
End fiber.

(** [socket] and the end of [accept]: the new descriptor gets a context at [a]. *)
Definition register_fd (fd a : Z) : M hooks () := on_fdm (FdManager.get fstat fd a true) ;; mret ().
Definition socket (a : Z) : M hooks Z :=
  s ← Prelude.get;
  if negb (t_hook_enable s) then origin else
  fd ← origin;
  if fd =? -1 then mret fd else register_fd fd a ;; mret fd.
Definition accept (self : Z) (ws : list suspension) (fd t a : Z) : M hooks Z :=
  r ← do_io self ws fd READ SO_RCVTIMEO t;
  (if r >=? 0 then register_fd r a else mret ()) ;;
  mret r.

(** [close]; [has_iom]: the thread has an IOManager. *)
Definition close (has_iom : bool) (fd : Z) : M hooks Z :=
  s ← Prelude.get;
  if negb (t_hook_enable s) then origin else
  ctx ← fd_ctx fd;
  (match ctx with
   | Some _ => (if has_iom then on_iom (cancelAll fd) ;; mret () else mret ()) ;; on_fdm (FdManager.del fd)
   | None => mret ()
   end) ;;
  origin.

(** [fcntl_f] on the flags, and the hooked [fcntl], [ioctl] and [setsockopt]. *)
Definition flags_of (fd : Z) (s : hooks) : Z := default 0 (fd_flags (h_fdm s) !! fd).
Definition set_flags_of (fd v : Z) : M hooks () :=
  modify (λ s, set_fdm (mkFdManager (ctxs (h_fdm s)) (m_datas (h_fdm s)) (<[fd := v]> (fd_flags (h_fdm s)))) s).
Definition hooked_socket (ctx : option FdCtx) : option FdCtx :=
  match ctx with Some c => if m_isClosed c || negb (m_isSocket c) then None else Some c | None => None end.
Definition fcntl_setfl (fd arg : Z) : M hooks () :=
  ctx ← fd_ctx fd;
  s ← Prelude.get;
  match hooked_socket ctx with
  | None => set_flags_of fd (setfl (flags_of fd s) arg)
  | Some c =>
      update_ctx fd (setUserNonblock (negb (Z.land arg O_NONBLOCK =? 0))) ;;
      let arg := if m_sysNonblock c then Z.lor arg O_NONBLOCK else Z.land arg (Z.lnot O_NONBLOCK) in
      set_flags_of fd (setfl (flags_of fd s) arg)
  end.
Definition fcntl_getfl (fd : Z) : M hooks Z :=
  s ← Prelude.get;
  let arg := flags_of fd s in
  ctx ← fd_ctx fd;
  match hooked_socket ctx with
  | None => mret arg
  | Some c => mret (if m_userNonblock c then Z.lor arg O_NONBLOCK else Z.land arg (Z.lnot O_NONBLOCK))
  end.
Definition ioctl_fionbio (fd arg : Z) : M hooks () :=
  let user_nonblock := negb (arg =? 0) in
  ctx ← fd_ctx fd;
  (match hooked_socket ctx with None => mret () | Some _ => update_ctx fd (setUserNonblock user_nonblock) end) ;;
  s ← Prelude.get;
  set_flags_of fd (fionbio (flags_of fd s) user_nonblock).
Definition setsockopt (fd level optname tv_sec tv_usec : Z) : M hooks Z :=
  s ← Prelude.get;
  if negb (t_hook_enable s) then origin else
  (if (level =? SOL_SOCKET) && ((optname =? SO_RCVTIMEO) || (optname =? SO_SNDTIMEO))
   then update_ctx fd (setTimeout optname (u64 (tv_sec * 1000 + Z.quot tv_usec 1000)))
   else mret ()) ;;
  origin.
End hook.

(** The delays [sleep], [usleep] and [nanosleep] hand to [addTimer]. *)
Definition sleep_ms (seconds : Z) : Z := u32 (seconds * 1000).
Definition usleep_ms (usec : Z) : Z := u32 usec / 1000.
Definition nanosleep_ms (tv_sec tv_nsec : Z) : Z := u64 (s32 (tv_sec * 1000 + Z.quot (Z.quot tv_nsec 1000) 1000)).
