(* ===== verification/HookFacts.v ===== *)
(** * HookFacts: hooked I/O, wake-ups by event or timeout, and descriptor flags *)
From S2P Require Import Prelude OrderedSet Timer FdManager Fiber Scheduler SchedulerFacts IOManager IOManagerFacts Hook.
Open Scope Z_scope.

(** ** The flag O_NONBLOCK *)
Definition nonblock (flags : Z) : bool := negb (Z.land flags O_NONBLOCK =? 0).
Lemma nonblock_lor a : Z.land (Z.lor a O_NONBLOCK) O_NONBLOCK = O_NONBLOCK.
Proof. rewrite Z.land_lor_distr_l, Z.land_diag, Z.lor_comm. change O_NONBLOCK with (Z.lor O_NONBLOCK 0) at 1. apply Z.bits_inj'. intros n Hn.
  rewrite !Z.lor_spec, Z.land_spec, Z.bits_0, orb_false_r. by destruct (Z.testbit O_NONBLOCK n), (Z.testbit a n). Qed.
Lemma nonblock_clear a : Z.land (Z.land a (Z.lnot O_NONBLOCK)) O_NONBLOCK = 0.
Proof. apply Z.bits_inj'. intros n Hn. rewrite !Z.land_spec, Z.lnot_spec, Z.bits_0 by done. by destruct (Z.testbit O_NONBLOCK n), (Z.testbit a n). Qed.

Section facts.
Context {K : Type} `{HE : !Epoll K, HL : !EpollLaws K, HF : !FdFlags} (fstat : Z → option bool).
#[local] Set Default Proof Using "All".
Notation hooks := (@hooks K).
Implicit Types s : hooks.

(** ** The descriptor table *)
Definition ctx_in s (fd : Z) : option FdCtx := a ← entry (h_fdm s) fd; ctxs (h_fdm s) !! a.

Lemma set_fdm_id s : set_fdm (h_fdm s) s = s.
Proof. by destruct s. Qed.
Lemma fdm_get s fd : FdManager.wf (h_fdm s) → 0 ≤ fd < 2 ^ 31 →
  on_fdm (FdManager.get fstat fd 0 false) s = Done s (entry (h_fdm s) fd).
Proof.
  intros Hwf Hfd. unfold on_fdm, lift, FdManager.get. replace (fd =? -1) with false by lia.
  rewrite (bind_done _ _ _ _ _ (get_lookup_ok (h_fdm s) fd false Hwf Hfd)).
  destruct (entry (h_fdm s) fd); cbn; by rewrite set_fdm_id.
Qed.
Lemma fd_ctx_ok s fd : FdManager.wf (h_fdm s) → 0 ≤ fd < 2 ^ 31 → fd_ctx fstat fd s = Done s (ctx_in s fd).
Proof. intros Hwf Hfd. unfold fd_ctx. rewrite (bind_done _ _ _ _ _ (fdm_get s fd Hwf Hfd)). done. Qed.
Lemma entry_alter (m : FdManager) g a fd l : entry (mkFdManager (alter g a (ctxs m)) (m_datas m) l) fd = entry m fd.
Proof. done. Qed.

(** ** The loop of [do_io] *)
Definition again (n e : Z) : bool := (n =? -1) && ((e =? EINTR) || (e =? EAGAIN)).

Lemma origin_retry_inv fuel : ∀ s s' n, origin_retry fuel s = Done s' n →
  (n = -1 → h_errno s' ≠ EINTR) ∧ h_iom s' = h_iom s ∧ h_tinfo s' = h_tinfo s ∧ h_fdm s' = h_fdm s.
Proof.
  induction fuel as [|fuel IH]; intros s s' n H; [done|]. cbn [origin_retry] in H.
  apply bind_inv in H as (s1 & r & H1 & H). apply bind_inv in H as (? & ? & [= <- <-] & H).
  assert (Hs1 : h_iom s1 = h_iom s ∧ h_tinfo s1 = h_tinfo s ∧ h_fdm s1 = h_fdm s).
  { unfold origin in H1. destruct (h_calls s) as [|[x e] l]; [done|]. injection H1 as <- <-. by destruct (x =? -1). }
  destruct ((r =? -1) && (h_errno s1 =? EINTR)) eqn:Hc.
  - apply IH in H as (H & H2 & H3 & H4). destruct Hs1 as (? & ? & ?). repeat split; congruence || done.
  - injection H as <- <-. split; [intros ->; cbn in Hc; lia|done].
Qed.

Lemma addEvent_result {A} (io io' : @IOManager A) `{!Epoll A} fd e cb self x y r : addEvent fd e cb self x y io = Done io' r → r = 0 ∨ r = -1.
Proof.
  unfold addEvent. intros H. repeat match goal with
    | H : (_ ≫= _) _ = Done _ _ |- _ => apply bind_inv in H as (? & ? & ? & H)
    | H : (if ?b then _ else _) _ = Done _ _ |- _ => destruct b
    | H : mret _ _ = Done _ _ |- _ => injection H as <- <-; auto
    end.
Qed.

(** A transformation of the state that only this call's own timer callback uses [t] in. *)
Definition polite (t : Z) (w : hooks → hooks) : Prop := ∀ s c, h_tinfo s !! t = Some c → c = 0 ∨ c = ETIMEDOUT →
  ∃ c', h_tinfo (w s) !! t = Some c' ∧ (c' = 0 ∨ c' = ETIMEDOUT).
Definition timed_out_or_clear (o : option Z) : Prop := ∃ c, o = Some c ∧ (c = 0 ∨ c = ETIMEDOUT).

Lemma lift_iom_tinfo {A} (m : M (@IOManager K) A) s s' a : on_iom m s = Done s' a → h_tinfo s' = h_tinfo s ∧ h_errno s' = h_errno s.
Proof. unfold on_iom, lift. destruct (m (h_iom s)); try done. by intros [= <- <-]. Qed.
Lemma lift_timers_tinfo {A} (m : M TimerManager A) s s' a : on_timers m s = Done s' a → h_tinfo s' = h_tinfo s ∧ h_errno s' = h_errno s.
Proof. unfold on_timers, lift. destruct (m _); try done. by intros [= <- <-]. Qed.
Lemma add_timer_tinfo now a to t s s' o : add_timer_opt now a to t s = Done s' o → h_tinfo s' = h_tinfo s ∧ h_errno s' = h_errno s.
Proof.
  unfold add_timer_opt. destruct (negb _); [|by intros [= <- <-]]. intros (s1 & a' & H1 & [= <- <-])%bind_inv.
  unfold add_timer in H1. apply bind_inv in H1 as (? & ? & [= <- <-] & H1). apply bind_inv in H1 as (s2 & ? & H2 & H1).
  apply bind_inv in H1 as (? & ? & [= <- <-] & H1). apply bind_inv in H1 as (s3 & ? & H3 & [= <- <-]).
  apply lift_timers_tinfo in H2 as [<- <-]. destruct (_ <? _)%nat; [by apply lift_iom_tinfo in H3|by injection H3 as <- _].
Qed.
Lemma cancel_opt_tinfo o s s' u : cancel_opt o s = Done s' u → h_tinfo s' = h_tinfo s ∧ h_errno s' = h_errno s.
Proof. destruct o; cbn; [intros (s1 & ? & H & [= <- _])%bind_inv; by apply lift_timers_tinfo in H|by intros [= <- _]]. Qed.

Lemma do_io_loop_inv self ws fd e to t : ∀ s s' n, Forall (λ w, polite t w.2) ws → timed_out_or_clear (h_tinfo s !! t) →
  do_io_loop self ws fd e to t s = Done s' n → n = -1 → h_errno s' ≠ EINTR ∧ h_errno s' ≠ EAGAIN.
Proof.
  induction ws as [|[[now a] w] ws IH]; intros s s' n Hw Ht H Hn; cbn [do_io_loop] in H;
    apply bind_inv in H as (s1 & r & H1 & H); apply bind_inv in H as (? & ? & [= <- <-] & H);
    unfold call in H1; apply bind_inv in H1 as (? & ? & [= <- <-] & H1); apply origin_retry_inv in H1 as (Hr & _ & Hti & _);
    destruct ((r =? -1) && (h_errno s1 =? EAGAIN)) eqn:Hc; try done;
    try (injection H as <- <-; subst r; split; [by apply Hr|intros Hea; rewrite Hea in Hc; done]).
  inversion Hw as [|? ? Hw1 Hw2]; subst. cbn in Hw1.
  apply bind_inv in H as (s2 & timer & H2 & H). apply add_timer_tinfo in H2 as [Ht2 _].
  apply bind_inv in H as (s3 & rt & H3 & H). destruct (lift_iom_tinfo _ _ _ _ H3) as [Ht3 _].
  assert (Hrt : rt = 0 ∨ rt = -1).
  { unfold on_iom, lift in H3. destruct (addEvent _ _ _ _ _ _ _) as [io' r'| | |] eqn:Hadd; try done. injection H3 as <- <-. by eapply addEvent_result. }
  replace (rt >? 0) with false in H by lia.
  apply bind_inv in H as (s4 & [] & [= <-] & H). apply bind_inv in H as (s5 & [] & H5 & H). apply cancel_opt_tinfo in H5 as [Ht5 _].
  apply bind_inv in H as (? & ? & [= <- <-] & H).
  assert (timed_out_or_clear (h_tinfo s5 !! t)) as (c & Hc5 & Hc5').
  { destruct Ht as (c0 & Hc0 & Hc0'). rewrite Ht5. apply (Hw1 s3 c0); [|done]. by rewrite Ht3, Ht2, Hti. }
  rewrite Hc5 in H. cbn [default from_option id] in H. destruct (c =? 0) eqn:Hz; cbn [negb] in H.
  - eapply (IH s5); eauto. by exists c.
  - apply bind_inv in H as (? & ? & [= <- <-] & H). injection H as <-. cbn. destruct Hc5' as [->| ->]; done.
Qed.

(** The results that are skipped, then the one returned. *)
Lemma origin_retry_run k : ∀ fuel s n e l, h_calls s = replicate k (-1, EINTR) ++ (n, e) :: l → (k < fuel)%nat →
  (n = -1 → e ≠ EINTR) → ∃ s', origin_retry fuel s = Done s' n ∧ h_calls s' = l ∧ h_iom s' = h_iom s ∧ h_fdm s' = h_fdm s ∧
  h_tinfo s' = h_tinfo s ∧ t_hook_enable s' = t_hook_enable s ∧ (n = -1 → h_errno s' = e).
Proof.
  induction k as [|k IH]; intros [|fuel] s n e l Hc Hk Hn; try lia; cbn [origin_retry].
  - cbn in Hc. assert (Ho : origin s = Done (set_calls l (if n =? -1 then set_errno e s else s)) n) by (unfold origin; by rewrite Hc).
    rewrite (bind_done _ _ _ _ _ Ho). do_step. destruct (Z.eqb_spec n (-1)) as [->|Hne].
    + cbn [h_errno set_calls set_errno]. replace (e =? EINTR) with false by (specialize (Hn eq_refl); lia). eexists. split; [reflexivity|]. done.
    + eexists. split; [reflexivity|]. done.
  - cbn [replicate app] in Hc. assert (Ho : origin s = Done (set_calls (replicate k (-1, EINTR) ++ (n, e) :: l) (set_errno EINTR s)) (-1)) by (unfold origin; by rewrite Hc).
    rewrite (bind_done _ _ _ _ _ Ho). do_step. cbn [h_errno set_calls set_errno].
    destruct (IH fuel (set_calls (replicate k (-1, EINTR) ++ (n, e) :: l) (set_errno EINTR s)) n e l) as (s' & H & Hs'); [done|lia|done|].
    exists s'. done.
Qed.

(** ** The two ways a waiting fiber wakes up *)
Lemma set_iom_reg s io : h_iom (set_iom io s) = io.
Proof. done. Qed.

Lemma timeout_cb_spec t fd e s : wf (h_iom s) → 0 ≤ fd → fd ≠ m_tickleFd (h_iom s) → e ≠ NONE → h_tinfo s !! t = Some 0 →
  ∃ s', timeout_cb t fd e s = Done s' () ∧ wf (h_iom s') ∧ h_tinfo s' !! t = Some ETIMEDOUT ∧ timeout_cb t fd e s' = Done s' () ∧
    match reg (h_iom s) fd e with
    | Some task => if accepts (h_iom s) fd (mask_without (h_iom s) fd e) then
        queue (h_iom s') = queue (h_iom s) ++ [task] ∧ reg_set (h_iom s) (h_iom s') fd e None
      else queue (h_iom s') = queue (h_iom s) ∧ ∀ fd' e', reg (h_iom s') fd' e' = reg (h_iom s) fd' e'
    | None => h_iom s' = h_iom s
    end.
Proof.
  intros Hwf Hfd Htk He Ht. unfold timeout_cb at 1. do_step. rewrite Ht. cbn [Z.eqb negb]. do_step.
  set (s1 := set_tinfo (<[t:=ETIMEDOUT]> (h_tinfo s)) s).
  destruct (cancelEvent_full (h_iom s) fd e Hwf Hfd Htk He) as (io & r & Hc & Hwf' & Hr & Hrr).
  assert (H1 : on_iom (cancelEvent fd e) s1 = Done (set_iom io s1) r) by (unfold on_iom, lift; cbn [h_iom s1 set_tinfo]; by rewrite Hc).
  rewrite (bind_done _ _ _ _ _ H1). eexists. split; [reflexivity|]. split; [done|]. split; [apply lookup_insert_eq|]. split.
  - unfold timeout_cb. do_step. cbn [h_tinfo set_iom s1 set_tinfo]. by rewrite lookup_insert_eq.
  - destruct (reg (h_iom s) fd e) as [task|] eqn:Hreg.
    + rewrite <-Hr. destruct r; [|done]. destruct Hrr as (task' & [= <-] & Hrr). done.
    + rewrite (cancelEvent_none _ fd e) in Hc by done. by injection Hc as <-.
Qed.
(** The callback once the event was delivered: only the flag changes. *)
Lemma timeout_cb_late t fd e s : wf (h_iom s) → 0 ≤ fd → e ≠ NONE → h_tinfo s !! t = Some 0 → reg (h_iom s) fd e = None →
  timeout_cb t fd e s = Done (set_tinfo (<[t := ETIMEDOUT]> (h_tinfo s)) s) ().
Proof.
  intros Hwf Hfd He Ht Hn. unfold timeout_cb. do_step. rewrite Ht. cbn [Z.eqb negb]. do_step.
  assert (H1 : on_iom (cancelEvent fd e) (set_tinfo (<[t:=ETIMEDOUT]> (h_tinfo s)) s) = Done (set_tinfo (<[t:=ETIMEDOUT]> (h_tinfo s)) s) false)
    by (unfold on_iom, lift; cbn [h_iom set_tinfo]; by rewrite cancelEvent_none).
  by rewrite (bind_done _ _ _ _ _ H1).
Qed.

(** ** Descriptor flags *)
Definition hooked s (fd : Z) (c : FdCtx) : Prop := ctx_in s fd = Some c ∧ m_isClosed c = false ∧ m_isSocket c = true.

Lemma update_ctx_ok s fd c g : FdManager.wf (h_fdm s) → 0 ≤ fd < 2 ^ 31 → ctx_in s fd = Some c → (∀ c, m_fd (g c) = m_fd c) → ∃ s',
  update_ctx fstat fd g s = Done s' () ∧ FdManager.wf (h_fdm s') ∧ ctx_in s' fd = Some (g c) ∧ fd_flags (h_fdm s') = fd_flags (h_fdm s) ∧
  h_calls s' = h_calls s ∧ t_hook_enable s' = t_hook_enable s.
Proof.
  intros Hwf Hfd Hc Hg. unfold update_ctx. rewrite (bind_done _ _ _ _ _ (fdm_get s fd Hwf Hfd)). unfold ctx_in in *.
  destruct (entry (h_fdm s) fd) as [a|] eqn:Ha; [|done]. cbn in Hc. eexists. split; [reflexivity|].
  cbn [h_fdm set_fdm h_calls t_hook_enable]. split; [|split; [|done]].
  - destruct Hwf as [H1 H2]. split; [done|]. intros i b Hb. cbn in *. destruct (H2 i b Hb) as (d & Hd & Hi).
    destruct (decide (a = b)) as [->|Hne].
    + rewrite lookup_alter_eq, Hd. eexists. split; [done|]. by rewrite Hg.
    + rewrite lookup_alter_ne by done. eauto.
  - rewrite entry_alter, Ha. cbn. by rewrite lookup_alter_eq, Hc.
Qed.

Lemma hooked_some s fd c : hooked s fd c → hooked_socket (ctx_in s fd) = Some c.
Proof. intros (-> & Hc & Hs). unfold hooked_socket. by rewrite Hc, Hs. Qed.

Lemma flags_set s fd v : flags_of fd (set_fdm (mkFdManager (ctxs (h_fdm s)) (m_datas (h_fdm s)) (<[fd := v]> (fd_flags (h_fdm s)))) s) = v.
Proof. unfold flags_of. cbn. by rewrite lookup_insert_eq. Qed.

Lemma setfl_spec s fd c arg : FdManager.wf (h_fdm s) → 0 ≤ fd < 2 ^ 31 → hooked s fd c → ∃ s',
  fcntl_setfl fstat fd arg s = Done s' () ∧ FdManager.wf (h_fdm s') ∧ hooked s' fd (setUserNonblock (nonblock arg) c) ∧
  nonblock (flags_of fd s') = m_sysNonblock c.
Proof.
  intros Hwf Hfd Hh. unfold fcntl_setfl. rewrite (bind_done _ _ _ _ _ (fd_ctx_ok s fd Hwf Hfd)). do_step.
  rewrite (hooked_some s fd c Hh). destruct Hh as (Hc & Hcl & Hso).
  destruct (update_ctx_ok s fd c (setUserNonblock (nonblock arg)) Hwf Hfd Hc) as (s1 & H1 & Hwf1 & Hc1 & Hfl1 & _); [done|].
  unfold nonblock in H1. rewrite (bind_done _ _ _ _ _ H1). eexists. split; [reflexivity|]. split; [|split].
  - by destruct Hwf1.
  - split; [|done]. unfold ctx_in in *. exact Hc1.
  - rewrite flags_set. unfold nonblock. rewrite setfl_nonblock. destruct (m_sysNonblock c); by rewrite ?nonblock_lor, ?nonblock_clear.
Qed.
Lemma getfl_spec s fd c : FdManager.wf (h_fdm s) → 0 ≤ fd < 2 ^ 31 → hooked s fd c → ∃ v,
  fcntl_getfl fstat fd s = Done s v ∧ nonblock v = m_userNonblock c.
Proof.
  intros Hwf Hfd Hh. unfold fcntl_getfl. do_step. rewrite (bind_done _ _ _ _ _ (fd_ctx_ok s fd Hwf Hfd)).
  rewrite (hooked_some s fd c Hh). eexists. split; [reflexivity|]. unfold nonblock.
  destruct (m_userNonblock c); by rewrite ?nonblock_lor, ?nonblock_clear.
Qed.
Lemma fionbio_spec s fd c arg : FdManager.wf (h_fdm s) → 0 ≤ fd < 2 ^ 31 → hooked s fd c → ∃ s',
  ioctl_fionbio fstat fd arg s = Done s' () ∧ hooked s' fd (setUserNonblock (negb (arg =? 0)) c) ∧
  nonblock (flags_of fd s') = negb (arg =? 0).
Proof.
  intros Hwf Hfd Hh. unfold ioctl_fionbio. rewrite (bind_done _ _ _ _ _ (fd_ctx_ok s fd Hwf Hfd)).
  rewrite (hooked_some s fd c Hh). destruct Hh as (Hc & Hcl & Hso).
  destruct (update_ctx_ok s fd c (setUserNonblock (negb (arg =? 0))) Hwf Hfd Hc) as (s1 & H1 & Hwf1 & Hc1 & Hfl1 & _); [done|].
  rewrite (bind_done _ _ _ _ _ H1). do_step. eexists. split; [reflexivity|]. split.
  - split; [|done]. unfold ctx_in in *. exact Hc1.
  - rewrite flags_set. unfold nonblock. rewrite fionbio_nonblock. by destruct (arg =? 0).
Qed.
End facts.

Lemma addEvent_failed {K} `{HE : !Epoll K} fd e self (s1 s : @hooks K) :
  on_iom (addEvent fd e None self true true) s = Done s1 (-1) →
  queue (h_iom s1) = queue (h_iom s) ∧ timers (h_iom s1) = timers (h_iom s).
Proof.
  unfold on_iom, lift. destruct (addEvent fd e None self true true _) as [io r| | |] eqn:Ha; try done. intros [= <- ->].
  cbn [h_iom set_iom]. unfold addEvent in Ha.
  apply bind_inv in Ha as (? & ? & [= <- <-] & Ha). apply bind_inv in Ha as (s2 & [] & H2 & Ha).
  assert (queue s2 = queue (h_iom s) ∧ timers s2 = timers (h_iom s)) as [<- <-] by (destruct (_ >? _) in H2; by injection H2 as <-).
  apply bind_inv in Ha as (s3 & c & H3 & Ha). assert (s3 = s2) as ->.
  { unfold context_at in H3. destruct (0 <=? fd); [|done]. destruct (_ !! _); [|done]. by injection H3 as <-. }
  apply bind_inv in Ha as (s4 & [] & H4 & Ha). unfold assert_ in H4. destruct (negb _) in H4; [|done]. injection H4 as <-.
  apply bind_inv in Ha as (s5 & rt & H5 & Ha). unfold ctl in H5. destruct (epoll_ctl _ _ _ _) as [k ok]. injection H5 as <- <-.
  destruct ok; cbn [negb] in Ha; [|by injection Ha as <-].
  exfalso. repeat match goal with H : (_ ≫= _) _ = Done _ (-1) |- _ => apply bind_inv in H as (? & ? & ? & H) end. by injection Ha.
Qed.

(** C14: [do_io] is transparent where it must be and hides the non-blocking descriptor
    where it hooks: without the hook, for unknown descriptors, for non-sockets and
    where the user asked for non-blocking mode it is the original call; on a closed
    context it fails with EBADF; otherwise interrupted calls are repeated, a result
    is returned as it is with the event manager untouched, and whatever happens while
    the fiber waits, a failure is never reported as EINTR or EAGAIN. *)
Theorem do_io_spec {K} `{HE : !Epoll K, HF : !FdFlags} `{!EpollLaws K} fstat (s : @hooks K) self ws fd e so t :
  FdManager.wf (h_fdm s) → 0 ≤ fd < 2 ^ 31 →
  (t_hook_enable s = false → do_io fstat self ws fd e so t s = origin s) ∧
  (t_hook_enable s = true →
    match ctx_in s fd with
    | None => do_io fstat self ws fd e so t s = origin s
    | Some c =>
        if m_isClosed c then do_io fstat self ws fd e so t s = Done (set_errno EBADF s) (-1)
        else if negb (m_isSocket c) || m_userNonblock c then do_io fstat self ws fd e so t s = origin s
        else
          (∀ k n e' l, h_calls s = replicate k (-1, EINTR) ++ (n, e') :: l → again n e' = false →
            ∃ s', do_io fstat self ws fd e so t s = Done s' n ∧ h_calls s' = l ∧ h_iom s' = h_iom s ∧ (n = -1 → h_errno s' = e')) ∧
          (∀ s' , Forall (λ w, polite t w.2) ws → do_io fstat self ws fd e so t s = Done s' (-1) →
            h_errno s' ≠ EINTR ∧ h_errno s' ≠ EAGAIN)
    end).
Proof.
  intros Hwf Hfd. unfold do_io. split; intros Hen.
  { do_step. by rewrite Hen. }
  assert (Hpre : ∀ k : option FdCtx → M hooks Z, (s0 ← Prelude.get; if negb (t_hook_enable s0) then origin else ctx ← fd_ctx fstat fd; k ctx) s = k (ctx_in s fd) s).
  { intros k. do_step. rewrite Hen. cbn [negb]. by rewrite (bind_done _ _ _ _ _ (fd_ctx_ok fstat s fd Hwf Hfd)). }
  destruct (ctx_in s fd) as [c|] eqn:Hctx; [|by rewrite Hpre].
  destruct (m_isClosed c) eqn:Hcl; [rewrite Hpre, Hcl; done|].
  destruct (negb (m_isSocket c) || m_userNonblock c) eqn:Hns; [rewrite Hpre, Hcl, Hns; done|].
  split.
  - intros k n e' l Hcalls Ha. rewrite Hpre, Hcl, Hns. do_step. set (s1 := set_tinfo _ s).
    destruct (origin_retry_run fstat k (S (length (h_calls s1))) s1 n e' l) as (s' & Hrun & Hc' & Hi' & _ & Ht' & _ & He'); [done| | |].
    + change (h_calls s1) with (h_calls s). rewrite Hcalls, length_app, length_replicate. lia.
    + intros -> ->. done.
    + assert (Hl : do_io_loop self ws fd e (getTimeout so c) t s1 = Done s' n).
      { assert (Hcall : call s1 = Done s' n) by (unfold call; do_step; exact Hrun). unfold again in Ha.
        destruct ws as [|[[now a] w] ws]; cbn [do_io_loop]; rewrite (bind_done _ _ _ _ _ Hcall); do_step;
          destruct (Z.eqb_spec n (-1)) as [Hn|Hn]; try done; cbn [andb] in *; rewrite (He' Hn);
          replace (e' =? EAGAIN) with false by (destruct (e' =? EAGAIN); [by rewrite orb_true_r in Ha|done]); done. }
      rewrite (bind_done _ _ _ _ _ Hl). do_step. eexists. split; [reflexivity|]. done.
  - intros s' Hw H. rewrite Hpre, Hcl, Hns in H. apply bind_inv in H as (s1 & [] & [= <-] & H).
    apply bind_inv in H as (s2 & n & H2 & H). apply bind_inv in H as (s3 & [] & [= <-] & H). injection H as <- ->.
    apply (do_io_loop_inv fstat self ws fd e (getTimeout so c) t _ _ _ Hw) in H2; try done.
    exists 0. split; [apply lookup_insert_eq|by left].
Qed.

(** C15: a fiber that waits for I/O with a timeout is woken once, by whichever comes
    first.  The timeout callback, run while the fiber waits, queues the fiber exactly
    once, removes its waiter and leaves ETIMEDOUT for it - unless [epoll_ctl] refuses,
    when it only leaves ETIMEDOUT; run again it changes nothing, and the event, if it
    is reported later, queues nothing.  When the event is delivered first, the fiber
    is queued by it and the callback behind it queues nothing.  But when
    [addEvent] fails, the test [rt > 0] lets the fiber suspend all the same, with no
    waiter recorded and, without a timeout, nothing that would ever wake it. *)
Theorem io_wait_wakeup {K} `{HE : !Epoll K, HF : !FdFlags} `{!EpollLaws K} (s : @hooks K) t fd e self : wf (h_iom s) → 0 ≤ fd < 2 ^ 30 →
  fd ≠ m_tickleFd (h_iom s) → e ≠ NONE → h_tinfo s !! t = Some 0 →
  (∃ s', timeout_cb t fd e s = Done s' () ∧ wf (h_iom s') ∧ h_tinfo s' !! t = Some ETIMEDOUT ∧ timeout_cb t fd e s' = Done s' () ∧
    match reg (h_iom s) fd e with
    | Some task => if accepts (h_iom s) fd (mask_without (h_iom s) fd e) then
        queue (h_iom s') = queue (h_iom s) ++ [task] ∧ reg_set (h_iom s) (h_iom s') fd e None ∧
        (∀ c events, m_fdContexts (h_iom s') !! Z.to_nat fd = Some c → (∀ e', reported events c e' = bool_decide (e' = e)) →
          idle_event (FdPtr fd) events (h_iom s') = Done (h_iom s') ())
      else queue (h_iom s') = queue (h_iom s) ∧ ∀ fd' e', reg (h_iom s') fd' e' = reg (h_iom s) fd' e'
    | None => h_iom s' = h_iom s
    end) ∧
  (∀ c events, m_fdContexts (h_iom s) !! Z.to_nat fd = Some c → reported events c e = true →
    (∀ e', reported events c e' = true → has (c_events c) e' = true) → accepts (h_iom s) fd (unreported events c) = true →
    ∃ io s', idle_event (FdPtr fd) events (h_iom s) = Done io () ∧
      queue io = queue (h_iom s) ++ task_if (reported events c READ) READ c ++ task_if (reported events c WRITE) WRITE c ∧
      timeout_cb t fd e (set_iom io s) = Done s' () ∧ h_iom s' = io) ∧
  (∀ l now a w ws s1, h_calls s = (-1, EAGAIN) :: l →
    on_iom (addEvent fd e None self true true) (set_calls l (set_errno EAGAIN s)) = Done s1 (-1) → h_tinfo (w s1) !! t = Some 0 →
    queue (h_iom s1) = queue (h_iom s) ∧ timers (h_iom s1) = timers (h_iom s) ∧
    do_io_loop self ((now, a, w) :: ws) fd e no_timeout t s = do_io_loop self ws fd e no_timeout t (w s1)).
Proof.
  intros Hwf Hfd Htk He Ht. split; [|split].
  - destruct (timeout_cb_spec (λ _, None) t fd e s Hwf ltac:(lia) Htk He Ht) as (s' & H1 & H2 & H3 & H4 & H5). exists s'.
    do 4 (split; [done|]). destruct (reg _ _ _) as [task|]; [|done]. destruct (accepts _ _ _); [|done]. destruct H5 as [Hq Hreg].
    split; [done|]. split; [done|]. intros c events Hc Hr. rewrite <-(Z2Nat.id fd) by lia.
    apply (idle_event_late _ (Z.to_nat fd) c e); try done. rewrite Z2Nat.id, Hreg by lia. by rewrite bool_decide_true.
  - intros c events Hc Hr Hsub Hacc. rewrite <-(Z2Nat.id fd) in Hacc, Htk by lia.
    destruct (idle_event_spec (h_iom s) (Z.to_nat fd) c events Hwf Hc Htk) as (io & Hi & Hwi & Hd).
    { intros e'. rewrite real_events_reported. apply Hsub. }
    pose proof (wf_ctx _ Hwf _ _ Hc) as (_ & Hm & _).
    rewrite real_events_none, left_mask_unreported, Hacc, !real_events_reported in Hd by done. rewrite Z2Nat.id in * by lia.
    replace (negb _) with false in Hd by (destruct e; [done|by rewrite Hr|by rewrite Hr, orb_true_r]). destruct Hd as [Hq Hreg].
    exists io, (set_tinfo (<[t := ETIMEDOUT]> (h_tinfo s)) (set_iom io s)). split; [done|]. split; [done|]. split; [|done].
    apply (timeout_cb_late (λ _, None) t fd e (set_iom io s)); try done; [lia|]. cbn [h_iom set_iom].
    by rewrite Hreg, real_events_reported, Hr, bool_decide_true.
  - intros l now a w ws s1 Hcalls Hadd Hw.
    assert (Hcall : call s = Done (set_calls l (set_errno EAGAIN s)) (-1)).
    { unfold call. do_step. cbn [origin_retry]. assert (Ho : origin s = Done (set_calls l (set_errno EAGAIN s)) (-1)) by (unfold origin; by rewrite Hcalls).
      rewrite (bind_done _ _ _ _ _ Ho). do_step. done. }
    split; [|split].
    + apply (addEvent_failed fd e self s1 _ Hadd).
    + apply (addEvent_failed fd e self s1 _ Hadd).
    + cbn [do_io_loop]. rewrite (bind_done _ _ _ _ _ Hcall). do_step. change ((-1 =? -1) && _) with true. cbn iota.
      do_step. rewrite (bind_done _ _ _ _ _ Hadd). change (-1 >? 0) with false. cbn iota. do_step. do_step. do_step. by rewrite Hw.
Qed.

(** the user's view of O_NONBLOCK on a hooked socket: [fcntl(F_SETFL)] is read
    back by [fcntl(F_GETFL)] while the kernel's flag stays what the hook needs.
    [ioctl(FIONBIO, 0)] however also clears the kernel's flag, so the original
    functions the hook calls then block the whole thread.  [SO_RCVTIMEO] and
    [SO_SNDTIMEO] set the timeout of their direction in milliseconds only.  [sleep],
    [usleep] and [nanosleep] ask for the right delay below 2^32 and 2^31
    milliseconds; [sleep] beyond wraps around. *)
Theorem fd_flags_spec {K} `{HE : !Epoll K, HF : !FdFlags} `{!EpollLaws K} fstat (s : @hooks K) fd c arg sec usec :
  FdManager.wf (h_fdm s) → 0 ≤ fd < 2 ^ 31 → hooked s fd c → 0 ≤ sec < 2 ^ 40 → 0 ≤ usec < 10 ^ 6 →
  (∃ s1 v, fcntl_setfl fstat fd arg s = Done s1 () ∧ nonblock (flags_of fd s1) = m_sysNonblock c ∧
    fcntl_getfl fstat fd s1 = Done s1 v ∧ nonblock v = nonblock arg) ∧
  (∃ s1, ioctl_fionbio fstat fd 0 s = Done s1 () ∧ nonblock (flags_of fd s1) = false ∧ hooked s1 fd (setUserNonblock false c)) ∧
  (t_hook_enable s = true → ∀ r l so, h_calls s = (0, r) :: l → so = SO_RCVTIMEO ∨ so = SO_SNDTIMEO →
    ∃ s1 c1, setsockopt fstat fd SOL_SOCKET so sec usec s = Done s1 0 ∧ ctx_in s1 fd = Some c1 ∧
      ∀ so', so' = SO_RCVTIMEO ∨ so' = SO_SNDTIMEO → getTimeout so' c1 = if so' =? so then sec * 1000 + usec / 1000 else getTimeout so' c) ∧
  (0 ≤ sec * 1000 < 2 ^ 32 → sleep_ms sec = sec * 1000) ∧ (usleep_ms usec = usec / 1000) ∧ sleep_ms 4294968 = 704 ∧
  (0 ≤ sec * 1000 + usec / 1000 < 2 ^ 31 → nanosleep_ms sec (usec * 1000) = sec * 1000 + usec / 1000).
Proof.
  intros Hwf Hfd Hh Hsec Husec. split; [|split; [|split; [|split; [|split; [|split; [done|]]]]]].
  - destruct (setfl_spec fstat s fd c arg Hwf Hfd Hh) as (s1 & H1 & Hwf1 & Hh1 & Hn1).
    destruct (getfl_spec fstat s1 fd _ Hwf1 Hfd Hh1) as (v & Hv & Hnv). exists s1, v. split; [exact H1|]. split; [exact Hn1|].
    split; [exact Hv|]. exact Hnv.
  - destruct (fionbio_spec fstat s fd c 0 Hwf Hfd Hh) as (s1 & H1 & Hh1 & Hn1). exists s1. done.
  - intros Hen r l so Hcalls Hso. unfold setsockopt. do_step. rewrite Hen. cbn [negb]. change (SOL_SOCKET =? SOL_SOCKET) with true. cbn [andb].
    replace ((so =? SO_RCVTIMEO) || (so =? SO_SNDTIMEO)) with true by (destruct Hso as [->| ->]; done).
    pose proof Hh as (Hc & _).
    destruct (update_ctx_ok fstat s fd c (setTimeout so (u64 (sec * 1000 + Z.quot usec 1000))) Hwf Hfd Hc) as (s1 & H1 & Hwf1 & Hc1 & _ & Hcalls1 & _).
    { intros d. unfold setTimeout. by destruct (so =? SO_RCVTIMEO). }
    rewrite (bind_done _ _ _ _ _ H1). unfold origin. rewrite Hcalls1, Hcalls.
    eexists _, (setTimeout so (u64 (sec * 1000 + Z.quot usec 1000)) c). split; [reflexivity|]. split; [exact Hc1|].
    rewrite Z.quot_div_nonneg by lia. assert (0 ≤ usec / 1000 ≤ usec) by (split; [apply Z.div_pos; lia|apply Z.div_le_upper_bound; lia]).
    rewrite u64_small by lia. intros so' Hso'. unfold setTimeout, getTimeout.
    destruct Hso as [->| ->], Hso' as [->| ->]; done.
  - intros Hs. unfold sleep_ms. apply u32_small. lia.
  - unfold usleep_ms. rewrite u32_small by lia. done.
  - intros Hn. unfold nanosleep_ms. assert (Hq : Z.quot (Z.quot (usec * 1000) 1000) 1000 = usec / 1000).
    { rewrite Z.quot_mul by lia. apply Z.quot_div_nonneg; lia. }
    rewrite Hq, s32_small, u64_small; lia.
Qed.

(** ** Witnesses *)
#[export] Instance simple_flags : FdFlags.
Proof.
  refine {| setfl := λ _ arg, arg; fionbio := λ old b, if b then Z.lor old O_NONBLOCK else Z.land old (Z.lnot O_NONBLOCK) |}; [done|].
  intros old []; [apply nonblock_lor|apply nonblock_clear].
Defined.
Definition is_socket : Z → option bool := λ _, Some true.
Definition table5 : FdManager :=
  mkFdManager {[ 9 := mkFdCtx true true true false false 1 (2 ^ 64 - 1) (2 ^ 64 - 1) ]} (None :: Some 9 :: replicate 62 None) {[ 1 := 2050 ]}.
Definition hooks0 (calls : list (Z * Z)) : @hooks (gmap Z Z) := mkHooks table5 io0 0 true {[ 77 := 0 ]} calls.
Lemma table5_wf : FdManager.wf table5.
Proof.
  split; [change (64 ≤ 64 < 2 ^ 31); lia|]. intros [|[|i]] a Ha; [done|injection Ha as <-; eexists; split; reflexivity|].
  change (replicate 62 (None : option Z) !! i = Some (Some a)) in Ha. by apply lookup_replicate in Ha as [? _].
Qed.
Lemma do_io_spec_witness : ∃ s', do_io is_socket 7 [] 1 READ SO_RCVTIMEO 5 (hooks0 [(-1, EINTR); (12, 0)]) = Done s' 12.
Proof.
  destruct (do_io_spec is_socket (hooks0 [(-1, EINTR); (12, 0)]) 7 [] 1 READ SO_RCVTIMEO 5) as [_ H]; [apply table5_wf|lia|].
  specialize (H eq_refl). change (ctx_in (hooks0 [(-1, EINTR); (12, 0)]) 1) with (Some (mkFdCtx true true true false false 1 (2 ^ 64 - 1) (2 ^ 64 - 1))) in H.
  cbn in H. destruct H as [H _]. destruct (H 1%nat 12 0 [] eq_refl eq_refl) as (s' & Hs' & _). exists s'. exact Hs'.
Defined.
Lemma io_wait_wakeup_witness : ∃ s', timeout_cb 77 1 READ (hooks0 []) = Done s' () ∧ queue (h_iom s') = [mkFT (Some 7) None (-1)] ∧
  h_tinfo s' !! 77 = Some ETIMEDOUT.
Proof.
  destruct (io_wait_wakeup (hooks0 []) 77 1 READ 7) as (H & _); [apply io0_wf|lia|discriminate|discriminate|reflexivity|].
  destruct H as (s' & Hs' & _ & Ht & _ & H). exists s'. split; [exact Hs'|]. split; [|exact Ht].
  change (reg (h_iom (hooks0 [])) 1 READ) with (Some (mkFT (Some 7) None (-1))) in H. cbv iota in H.
  change (accepts (h_iom (hooks0 [])) 1 (mask_without (h_iom (hooks0 [])) 1 READ)) with true in H. destruct H as [Hq _]. exact Hq.
Defined.
Lemma fd_flags_spec_witness : ∃ s1 v, fcntl_setfl is_socket 1 O_NONBLOCK (hooks0 []) = Done s1 () ∧
  fcntl_getfl is_socket 1 s1 = Done s1 v ∧ nonblock v = true.
Proof.
  destruct (fd_flags_spec is_socket (hooks0 []) 1 (mkFdCtx true true true false false 1 (2 ^ 64 - 1) (2 ^ 64 - 1)) O_NONBLOCK 3 500000)
    as ((s1 & v & H1 & _ & H2 & H3) & _); [apply table5_wf|lia|repeat split|lia|lia|].
  exists s1, v. split; [exact H1|]. split; [exact H2|]. exact H3.
Defined.
