(* ===== verification/HookCalls.v ===== *)
(** * HookCalls ([webserve/hook.cc]): the calls behind their dispatch

    The table of the original functions, and [fcntl], [ioctl] and [getsockopt] as they are
    called, with the commands they tell apart. *)
From S2P Require Import Prelude Text FdManager IOManager Hook.
Open Scope string_scope.
Open Scope Z_scope.

(** ** The original functions *)
Definition HOOK_FUN : list string :=
  ["sleep"; "usleep"; "nanosleep"; "socket"; "connect"; "accept"; "read"; "readv"; "recv"; "recvfrom"; "recvmsg"; "write"; "writev"; "send";
   "sendto"; "sendmsg"; "close"; "fcntl"; "ioctl"; "getsockopt"; "setsockopt"].
(** [hook_init] on the pointers [name_f]; [dlsym] finds the next definition of a name.
    The flag is never set. *)
Definition hook_init {F} (dlsym : string → F) (is_inited : bool) (f : gmap string F) : gmap string F :=
  if is_inited then f else foldl (λ f name, <[name := dlsym name]> f) f HOOK_FUN.

(** ** fcntl *)
(** The commands of Linux. *)
Definition F_DUPFD : Z := 0.
Definition F_GETFD : Z := 1.
Definition F_SETFD : Z := 2.
Definition F_GETFL : Z := 3.
Definition F_SETFL : Z := 4.
Definition F_GETLK : Z := 5.
Definition F_SETLK : Z := 6.
Definition F_SETLKW : Z := 7.
Definition F_SETOWN : Z := 8.
Definition F_GETOWN : Z := 9.
Definition F_SETSIG : Z := 10.
Definition F_GETSIG : Z := 11.
Definition F_SETOWN_EX : Z := 15.
Definition F_GETOWN_EX : Z := 16.
Definition F_SETLEASE : Z := 1024.
Definition F_GETLEASE : Z := 1025.
Definition F_NOTIFY : Z := 1026.
Definition F_DUPFD_CLOEXEC : Z := 1030.
Definition F_SETPIPE_SZ : Z := 1031.
Definition F_GETPIPE_SZ : Z := 1032.
Definition FIONBIO : Z := 0x5421.
(** What is passed on behind the command. *)
Inductive fcntl_arg := NoArg | IntArg (i : Z) | PointerArg (p : Z).
Definition one_of (cmd : Z) (l : list Z) : bool := bool_decide (cmd ∈ l).
Definition int_commands : list Z := [F_DUPFD; F_DUPFD_CLOEXEC; F_SETFD; F_SETOWN; F_SETSIG; F_SETLEASE; F_NOTIFY; F_SETPIPE_SZ].
Definition plain_commands : list Z := [F_GETFD; F_GETOWN; F_GETSIG; F_GETLEASE; F_GETPIPE_SZ].
Definition lock_commands : list Z := [F_SETLK; F_SETLKW; F_GETLK].
Definition owner_commands : list Z := [F_GETOWN_EX; F_SETOWN_EX].

Section calls.
Context {K : Type} `{!Epoll K, !FdFlags} (fstat : Z → option bool).
Notation hooks := (@hooks K).
(** The original functions; the last argument is what the caller passed, a machine word. *)
Context (fcntl_f : Z → Z → fcntl_arg → M hooks Z) (ioctl_f : Z → Z → Z → M hooks Z) (getsockopt_f : Z → Z → Z → M hooks Z).

Definition fcntl (fd cmd arg : Z) : M hooks Z :=
  if cmd =? F_SETFL then
    let arg := s32 arg in
    ctx ← fd_ctx fstat fd;
    match hooked_socket ctx with
    | None => fcntl_f fd cmd (IntArg arg)
    | Some c =>
        update_ctx fstat fd (setUserNonblock (negb (Z.land arg O_NONBLOCK =? 0))) ;;
        fcntl_f fd cmd (IntArg (if m_sysNonblock c then Z.lor arg O_NONBLOCK else Z.land arg (Z.lnot O_NONBLOCK)))
    end
  else if cmd =? F_GETFL then
    arg ← fcntl_f fd cmd NoArg;
    ctx ← fd_ctx fstat fd;
    match hooked_socket ctx with
    | None => mret arg
    | Some c => mret (if m_userNonblock c then Z.lor arg O_NONBLOCK else Z.land arg (Z.lnot O_NONBLOCK))
    end
  else if one_of cmd int_commands then fcntl_f fd cmd (IntArg (s32 arg))
  else if one_of cmd plain_commands then fcntl_f fd cmd NoArg
  else if one_of cmd lock_commands then fcntl_f fd cmd (PointerArg arg)
  else if one_of cmd owner_commands then fcntl_f fd cmd (PointerArg arg)
  else fcntl_f fd cmd NoArg.

(** [value] is the [int] that the argument of FIONBIO points to. *)
Definition ioctl (d request arg value : Z) : M hooks Z :=
  if FIONBIO =? request then
    let user_nonblock := negb (value =? 0) in
    ctx ← fd_ctx fstat d;
    match hooked_socket ctx with
    | None => ioctl_f d request arg
    | Some _ => update_ctx fstat d (setUserNonblock user_nonblock) ;; ioctl_f d request arg
    end
  else ioctl_f d request arg.
Definition getsockopt (sockfd level optname : Z) : M hooks Z := getsockopt_f sockfd level optname.
End calls.

(** ** What the dispatch passes on *)
Lemma hook_init_all {F} (dlsym : string → F) f name : name ∈ HOOK_FUN → hook_init dlsym false f !! name = Some (dlsym name).
Proof.
  intros Hin. unfold hook_init. enough (∀ l (f : gmap string F), (name ∈ l ∨ f !! name = Some (dlsym name)) →
    foldl (λ f name, <[name := dlsym name]> f) f l !! name = Some (dlsym name)) by auto.
  induction l as [|n l IH]; intros g [Hl|Hg]; cbn [foldl]; [by apply elem_of_nil in Hl|done|apply IH..].
  - apply elem_of_cons in Hl as [->|?]; [right; apply lookup_insert_eq|by left].
  - right. destruct (decide (n = name)) as [->|]; [apply lookup_insert_eq|by rewrite lookup_insert_ne].
Qed.
Section facts.
Context {K : Type} `{!Epoll K, !FdFlags} (fstat : Z → option bool) (other : Z → Z → fcntl_arg → M (@hooks K) Z).
(** A kernel that keeps the flags of descriptors, and does [other] for other commands. *)
Definition flags_kernel (fd cmd : Z) (arg : fcntl_arg) : M (@hooks K) Z :=
  if cmd =? F_SETFL then match arg with IntArg v => s ← Prelude.get; set_flags_of fd (setfl (flags_of fd s) v) ;; mret 0 | _ => other fd cmd arg end
  else if cmd =? F_GETFL then gets (flags_of fd)
  else other fd cmd arg.
(** On that kernel the call is [fcntl_setfl] and [fcntl_getfl] for the flags; the other
    commands keep their argument when they are in a table of the code, and lose it when not. *)
Lemma fcntl_dispatch fd cmd arg s :
  (cmd = F_GETFL → fcntl fstat flags_kernel fd cmd arg s = fcntl_getfl fstat fd s) ∧
  (cmd ≠ F_SETFL → cmd ≠ F_GETFL → fcntl fstat flags_kernel fd cmd arg s =
    other fd cmd (if one_of cmd int_commands then IntArg (s32 arg) else if one_of cmd (lock_commands ++ owner_commands)%list then PointerArg arg else NoArg) s).
Proof.
  split.
  - intros ->. unfold fcntl, flags_kernel, fcntl_getfl, mbind, M_bind. cbn. done.
  - intros H1 H2. unfold fcntl, flags_kernel. replace (cmd =? F_SETFL) with false by lia. replace (cmd =? F_GETFL) with false by lia.
    unfold one_of. destruct (decide (cmd ∈ plain_commands)) as [Hin|Hin].
    + repeat (apply elem_of_cons in Hin as [->|Hin]; [reflexivity|]). by apply elem_of_nil in Hin.
    + rewrite (bool_decide_eq_false_2 (cmd ∈ plain_commands)) by done. destruct (bool_decide (cmd ∈ int_commands)); [done|].
      rewrite (bool_decide_ext (cmd ∈ (lock_commands ++ owner_commands)%list) (cmd ∈ lock_commands ∨ cmd ∈ owner_commands)) by apply elem_of_app.
      rewrite bool_decide_or. by destruct (bool_decide (cmd ∈ lock_commands)), (bool_decide (cmd ∈ owner_commands)).
Qed.
End facts.
(** F_ADD_SEALS and the open-file locks are not in the tables: their argument is lost. *)
Example fcntl_unlisted {K} `{!Epoll K, !FdFlags} fstat (f : Z → Z → fcntl_arg → M (@hooks K) Z) :
  fcntl fstat f 3 1033 15 = f 3 1033 NoArg ∧ fcntl fstat f 3 37 0x7000 = f 3 37 NoArg.
Proof. by split. Qed.
