(* ===== verification/Config.v ===== *)
(** * Config ([webserve/config.h], [webserve/config.cc])

    Named configuration variables with change listeners, and their loading from a
    YAML tree.  Values of all types live in one type [V]; a type is a tag, with the
    conversions from and to strings ([LexicalCast]) as parameters that may throw. *)
From S2P Require Import Prelude OrderedSet Text.
Open Scope string_scope.
Open Scope Z_scope.

(** A parsed YAML document. *)
Inductive node :=
| Null
| Scalar (s : string)
| Sequence (l : list node)
| Map (l : list (node * node)).
(** [YAML::Node::Scalar()]: the empty string for other nodes. *)
Definition scalar (n : node) : string := match n with Scalar s => s | _ => "" end.
Definition IsScalar (n : node) : bool := match n with Scalar _ => true | _ => false end.
Definition IsMap (n : node) : bool := match n with Map _ => true | _ => false end.

(** [name.find_first_not_of("abc...z._0123456789") == npos] *)
Definition valid_char (c : ascii) : bool :=
  let n := Z.of_N (N_of_ascii c) in
  ((97 <=? n) && (n <=? 122)) || (n =? 46) || (n =? 95) || ((48 <=? n) && (n <=? 57)).
Fixpoint valid_name (s : string) : bool :=
  match s with "" => true | String c s => valid_char c && valid_name s end.

(** [prefix.empty() ? key : prefix + "." + key] *)
Definition join (prefix key : string) : string := if is_empty prefix then key else prefix ++ "." ++ key.

(** [ListAllMember]: the nodes in the order they are appended. *)
Fixpoint ListAllMember (prefix : string) (n : node) : list (string * node) :=
  if valid_name prefix then
    (prefix, n) ::
    match n with
    | Map l =>
        (fix members (l : list (node * node)) : list (string * node) :=
           match l with
           | [] => []
           | (k, v) :: l => (ListAllMember (join prefix (scalar k)) v ++ members l)%list
           end) l
    | _ => []
    end
  else [].

Section config.
Context {V : Type} `{!EqDecision V}.
(** [FromStr] and [ToStr] of a type; [None] when they throw. *)
Context (FromStr : Z → string → option V) (ToStr : Z → V → option string).
(** [ss << node] *)
Context (emit : node → string).

Record ConfigVar := mkConfigVar {
  m_name : string; m_description : string; m_type : Z; m_val : V;
  m_cbs : list (Z * Z)          (* listeners by id, in the order of the ids *)
}.
(** The registry, the counters of listener ids (a static per type), and the calls
    of listeners made so far: listener, old and new value. *)
Record Config := mkConfig {
  s_datas : gmap string ConfigVar; s_fun_id : gmap Z Z; calls : list (Z * V * V)
}.
Definition set_datas d c := mkConfig d (s_fun_id c) (calls c).
Definition with_val v x := mkConfigVar (m_name x) (m_description x) (m_type x) v (m_cbs x).
Definition with_cbs l x := mkConfigVar (m_name x) (m_description x) (m_type x) (m_val x) l.

(** [ConfigVar::ConfigVar] *)
Definition ConfigVar_new (type : Z) (name : string) (default_value : V) (description : string) : ConfigVar :=
  mkConfigVar (lower name) description type default_value [].

(** The variable a [ConfigVar::ptr] from the registry points to. *)
Definition var_at (name : string) : M Config ConfigVar := λ c,
  match s_datas c !! name with Some x => Done c x | None => Undef NullDeref end.
Definition store_var (name : string) (x : ConfigVar) : M Config () :=
  modify (λ c, set_datas (<[name := x]> (s_datas c)) c).

(** [ConfigVar::setValue]: the listeners run before the assignment. *)
Definition notify (x : ConfigVar) (v : V) (c : Config) : Config :=
  mkConfig (s_datas c) (s_fun_id c) (calls c ++ ((λ i : Z * Z, (i.2, m_val x, v)) <$> m_cbs x))%list.
Definition setValue (name : string) (v : V) : M Config () :=
  x ← var_at name;
  if decide (v = m_val x) then mret () else
  modify (notify x v) ;;
  store_var name (with_val v x).
Definition getValue (name : string) : M Config V := x ← var_at name; mret (m_val x).

(** [ConfigVar::toString] and [ConfigVar::fromString]; exceptions are caught. *)
Definition toString (name : string) : M Config string := x ← var_at name; mret (default "" (ToStr (m_type x) (m_val x))).
Definition fromString (name : string) (val : string) : M Config bool :=
  x ← var_at name;
  match FromStr (m_type x) val with
  | Some v => setValue name v ;; mret false
  | None => mret false
  end.

(** [addListener], [delListener], [getListener], [clearListener] *)
Definition addListener (name : string) (cb : Z) : M Config Z :=
  x ← var_at name;
  c ← Prelude.get;
  let id := u64 (default 0 (s_fun_id c !! m_type x) + 1) in
  modify (λ c, mkConfig (s_datas c) (<[m_type x := id]> (s_fun_id c)) (calls c)) ;;
  store_var name (with_cbs (filter (λ i : Z * Z, i.1 < id) (m_cbs x) ++ [(id, cb)] ++ filter (λ i : Z * Z, id < i.1) (m_cbs x))%list x) ;;
  mret id.
Definition delListener (name : string) (key : Z) : M Config () :=
  x ← var_at name; store_var name (with_cbs (filter (λ i : Z * Z, i.1 ≠ key) (m_cbs x)) x).
Definition getListener (name : string) (key : Z) : M Config (option Z) :=
  x ← var_at name; mret (snd <$> List.find (λ i : Z * Z, i.1 =? key) (m_cbs x)).
Definition clearListener (name : string) : M Config () := x ← var_at name; store_var name (with_cbs [] x).

(** [Config::Lookup(name, default_value, description)] and [Config::Lookup(name)]:
    the key of the variable the returned pointer is to. *)
Definition Lookup_create (type : Z) (name : string) (default_value : V) (description : string) : M Config (option string) :=
  c ← Prelude.get;
  match s_datas c !! name with
  | Some x => mret (if m_type x =? type then Some name else None)
  | None =>
      if negb (valid_name name) then raise ExnInvalidArgument
      else store_var name (ConfigVar_new type name default_value description) ;; mret (Some name)
  end.
Definition Lookup (type : Z) (name : string) (c : Config) : option string :=
  match s_datas c !! name with Some x => if m_type x =? type then Some name else None | None => None end.
(** [Config::LookupBase] *)
Definition LookupBase (name : string) (c : Config) : option ConfigVar := s_datas c !! name.

(** [Config::LoadFromYaml] *)
Definition load_one (i : string * node) : M Config () :=
  if is_empty i.1 then mret () else
  let key := lower i.1 in
  c ← Prelude.get;
  match LookupBase key c with
  | Some _ => fromString key (if IsScalar i.2 then scalar i.2 else emit i.2) ;; mret ()
  | None => mret ()
  end.
Fixpoint load_all (l : list (string * node)) : M Config () :=
  match l with [] => mret () | i :: l => load_one i ;; load_all l end.
Definition LoadFromYaml (root : node) : M Config () := load_all (ListAllMember "" root).

(** ** What a load does *)
(** The node at a path of keys. *)
Inductive walk : node → list string → node → Prop :=
| walk_here n : walk n [] n
| walk_in l k v ks n : (k, v) ∈ l → walk v ks n → walk (Map l) (scalar k :: ks) n.
(** The names of the nodes on a path. *)
Definition dotted (ks : list string) : string := foldl join "" ks.

Lemma members_in prefix l p n :
  (p, n) ∈ (fix members (l : list (node * node)) : list (string * node) :=
     match l with [] => [] | (k, v) :: l => (ListAllMember (join prefix (scalar k)) v ++ members l)%list end) l ↔
  ∃ k v, (k, v) ∈ l ∧ (p, n) ∈ ListAllMember (join prefix (scalar k)) v.
Proof.
  induction l as [|[k v] l IH]; [split; [by intros ?%elem_of_nil|intros (? & ? & ?%elem_of_nil & _); done]|].
  rewrite elem_of_app, IH. split.
  - intros [H|(k' & v' & H & H')]; [exists k, v|exists k', v']; (split; [|done]); [by left|by right].
  - intros (k' & v' & H & H'). apply elem_of_cons in H as [[= -> ->]|H]; [by left|right; eauto].
Qed.
End config.

(** Induction on documents. *)
Lemma node_nested_ind (P : node → Prop) : P Null → (∀ s, P (Scalar s)) → (∀ l, P (Sequence l)) →
  (∀ l, Forall (λ kv : node * node, P kv.2) l → P (Map l)) → ∀ n, P n.
Proof.
  intros H1 H2 H3 H4. fix IH 1. intros [|s|l|l]; [done|apply H2|apply H3|]. apply H4.
  induction l as [|[k v] l IHl]; constructor; [apply IH|exact IHl].
Qed.

Definition prefixes_valid (prefix : string) (ks : list string) : Prop :=
  ∀ j, (j ≤ List.length ks)%nat → valid_name (foldl join prefix (take j ks)) = true.
Lemma prefixes_valid_cons prefix k ks :
  prefixes_valid prefix (k :: ks) ↔ valid_name prefix = true ∧ prefixes_valid (join prefix k) ks.
Proof.
  unfold prefixes_valid. split.
  - intros H. split; [exact (H 0%nat ltac:(lia))|]. intros j Hj. apply (H (S j)). cbn. lia.
  - intros [H1 H2] [|j] Hj; [done|]. apply (H2 j). cbn in Hj. lia.
Qed.

Lemma flatten_iff n : ∀ prefix p m, (p, m) ∈ ListAllMember prefix n ↔
  ∃ ks, walk n ks m ∧ p = foldl join prefix ks ∧ prefixes_valid prefix ks.
Proof.
  assert (Hleaf : ∀ n prefix p m, (∀ l, n ≠ Map l) → (p, m) ∈ ListAllMember prefix n ↔
    ∃ ks, walk n ks m ∧ p = foldl join prefix ks ∧ prefixes_valid prefix ks).
  { intros n0 prefix p m Hn. split.
    - intros H. assert (Hv : valid_name prefix = true ∧ p = prefix ∧ m = n0).
      { destruct n0 as [| | |l]; [..|by destruct (Hn l)]; cbn in H; destruct (valid_name prefix); try (by apply elem_of_nil in H);
          apply list_elem_of_singleton in H; injection H as -> ->; done. }
      destruct Hv as (Hv & -> & ->). exists []. split; [constructor|]. split; [done|]. intros j _. by destruct j.
    - intros (ks & Hw & -> & Hv). inversion Hw; subst; [|by edestruct Hn].
      pose proof (Hv 0%nat ltac:(lia)) as Hp. cbn in *. destruct m as [| | |l]; [..|by destruct (Hn l)]; cbn; rewrite Hp; by left. }
  induction n as [|s|l|l IH] using node_nested_ind; intros prefix p m; [by apply Hleaf..|].
  cbn [ListAllMember]. destruct (valid_name prefix) eqn:Hp.
  - rewrite elem_of_cons, members_in. split.
    + intros [[= -> ->]|(k & v & Hin & Hm)].
      * exists []. split; [constructor|]. split; [done|]. intros j _. by destruct j.
      * rewrite Forall_forall in IH. apply (IH (k, v) Hin) in Hm as (ks & Hw & -> & Hv).
        exists (scalar k :: ks). split; [by econstructor|]. split; [done|]. by apply prefixes_valid_cons.
    + intros (ks & Hw & -> & Hv). inversion Hw as [|? k v ks' ? Hin Hw']; subst; [by left|]. right.
      exists k, v. split; [done|]. rewrite Forall_forall in IH. apply (IH (k, v) Hin).
      exists ks'. apply prefixes_valid_cons in Hv as [_ Hv]. done.
  - split; [by intros ?%elem_of_nil|]. intros (ks & _ & _ & Hv). pose proof (Hv 0%nat ltac:(lia)) as H0. change (valid_name prefix = true) in H0. by rewrite Hp in H0.
Qed.

Section facts.
Context {V : Type} `{!EqDecision V} (FromStr : Z → string → option V) (emit : node → string).
Notation Config := (@Config V).

(** The value of a variable behind a text, and behind a load. *)
Definition parse_or (type : Z) (v : V) (text : string) : V := default v (FromStr type text).
Definition node_text (n : node) : string := if IsScalar n then scalar n else emit n.
Definition texts_for (name : string) (l : list (string * node)) : list string :=
  (λ i : string * node, node_text i.2) <$> filter (λ i : string * node, i.1 ≠ "" ∧ lower i.1 = name) l.
Definition loaded (l : list (string * node)) (name : string) (x : @ConfigVar V) : @ConfigVar V :=
  with_val (foldl (parse_or (m_type x)) (m_val x) (texts_for name l)) x.

Lemma setValue_ok (c : Config) name x v : s_datas c !! name = Some x → ∃ c',
  setValue name v c = Done c' () ∧ s_datas c' = <[name := with_val v x]> (s_datas c) ∧
  calls c' = (calls c ++ if decide (v = m_val x) then [] else (λ i : Z * Z, (i.2, m_val x, v)) <$> m_cbs x)%list ∧ s_fun_id c' = s_fun_id c.
Proof.
  intros Hx. unfold setValue. assert (Hv : var_at name c = Done c x) by (unfold var_at; by rewrite Hx).
  rewrite (bind_done _ _ _ _ _ Hv). destruct (decide (v = m_val x)) as [->|Hne].
  - exists c. split; [done|]. split; [|by rewrite app_nil_r]. rewrite insert_id; [done|]. by rewrite Hx; destruct x.
  - eexists. split; [reflexivity|]. done.
Qed.

Lemma load_one_ok (c : Config) i : ∃ c', load_one FromStr emit i c = Done c' () ∧
  (∀ name, s_datas c' !! name = loaded [i] name <$> s_datas c !! name).
Proof.
  unfold load_one. assert (Hid : ∀ (x : @ConfigVar V), with_val (m_val x) x = x) by by intros [].
  assert (Hskip : ∀ name, texts_for name [i] = [] → ∀ o : option ConfigVar, o = loaded [i] name <$> o).
  { intros name Ht [x|]; [|done]. cbn [fmap option_fmap option_map]. unfold loaded. rewrite Ht. cbn. by rewrite Hid. }
  assert (Htexts : ∀ name, texts_for name [i] = if decide (i.1 ≠ "" ∧ lower i.1 = name) then [node_text i.2] else []).
  { intros name. unfold texts_for. rewrite filter_cons, filter_nil. by case_decide. }
  destruct (is_empty i.1) eqn:He.
  { exists c. split; [done|]. intros name. apply Hskip. rewrite Htexts, decide_False; [done|]. intros [H _]. by destruct i as [[]]. }
  assert (Hne : i.1 ≠ "") by (intros H; by rewrite H in He). erewrite bind_done by reflexivity. unfold LookupBase.
  destruct (s_datas c !! lower i.1) as [x|] eqn:Hx.
  2: { exists c. split; [done|]. intros name. destruct (decide (lower i.1 = name)) as [<-|Hn]; [by rewrite Hx|].
       apply Hskip. rewrite Htexts, decide_False; [done|]. by intros [_ H]. }
  unfold fromString. assert (Hv : var_at (lower i.1) c = Done c x) by (unfold var_at; by rewrite Hx).
  assert (Hres : ∃ c', (x0 ← var_at (lower i.1); match FromStr (m_type x0) (if IsScalar i.2 then scalar i.2 else emit i.2) with
      | Some v => setValue (lower i.1) v ;; mret false | None => mret false end) c = Done c' false ∧
      s_datas c' = <[lower i.1 := with_val (parse_or (m_type x) (m_val x) (node_text i.2)) x]> (s_datas c)).
  { rewrite (bind_done _ _ _ _ _ Hv). unfold parse_or, node_text. destruct (FromStr _ _) as [v|] eqn:Hf.
    - destruct (setValue_ok c (lower i.1) x v Hx) as (c' & Hs & Hd & _). exists c'. rewrite (bind_done _ _ _ _ _ Hs). done.
    - exists c. split; [done|]. cbn. rewrite Hid, insert_id; done. }
  destruct Hres as (c' & Hr & Hd). exists c'. rewrite (bind_done _ _ _ _ _ Hr). split; [done|]. intros name. rewrite Hd.
  destruct (decide (lower i.1 = name)) as [<-|Hn].
  - rewrite lookup_insert_eq, Hx. cbn. unfold loaded. by rewrite Htexts, decide_True.
  - rewrite lookup_insert_ne by done. apply Hskip. rewrite Htexts, decide_False; [done|]. by intros [_ H].
Qed.

Lemma load_all_ok l : ∀ c : Config, ∃ c', load_all FromStr emit l c = Done c' () ∧
  (∀ name, s_datas c' !! name = loaded l name <$> s_datas c !! name).
Proof.
  induction l as [|i l IH]; intros c; cbn [load_all].
  - exists c. split; [done|]. intros name. destruct (s_datas c !! name) as [[]|]; done.
  - destruct (load_one_ok c i) as (c1 & H1 & Hd1). destruct (IH c1) as (c2 & H2 & Hd2).
    exists c2. rewrite (bind_done _ _ _ _ _ H1). split; [done|]. intros name. rewrite Hd2, Hd1.
    destruct (s_datas c !! name) as [x|]; [|done]. cbn [fmap option_fmap option_map]. f_equal. unfold loaded, with_val. cbn [m_name m_description m_type m_val m_cbs]. f_equal.
    assert (Ht : texts_for name (i :: l) = (texts_for name [i] ++ texts_for name l)%list).
    { unfold texts_for. rewrite (filter_app _ [i] l), fmap_app. done. }
    by rewrite Ht, foldl_app.
Qed.
End facts.

(** loading a YAML document.  The nodes it assigns are exactly those behind a
    path of keys all of whose dotted names are made of lower-case letters, digits,
    dots and underscores - a name with another character hides the whole subtree, so
    the lower-casing of keys behind it changes nothing - and every registered
    variable ends with the last of its texts that parses, or its old value; no
    variable is created or removed and no failure escapes. *)
Theorem load_yaml_spec {V} `{!EqDecision V} FromStr emit (c : @Config V) root : ∃ c',
  LoadFromYaml FromStr emit root c = Done c' () ∧
  (∀ name, s_datas c' !! name = loaded FromStr emit (ListAllMember "" root) name <$> s_datas c !! name) ∧
  (∀ p n, (p, n) ∈ ListAllMember "" root ↔ ∃ ks, walk root ks n ∧ p = dotted ks ∧ prefixes_valid "" ks) ∧
  (∀ p n, (p, n) ∈ ListAllMember "" root → lower p = p).
Proof.
  destruct (load_all_ok FromStr emit (ListAllMember "" root) c) as (c' & H & Hd). exists c'.
  split; [exact H|]. split; [exact Hd|]. split; [intros p n; apply flatten_iff|].
  intros p n (ks & _ & -> & Hv)%flatten_iff. specialize (Hv (List.length ks) ltac:(lia)). rewrite take_ge in Hv by lia.
  revert Hv. generalize (foldl join "" ks). clear. induction s as [|a s IH]; [done|]. cbn. intros [Ha Hs]%andb_true_iff.
  rewrite IH by done. f_equal. destruct a as [[] [] [] [] [] [] [] []]; done.
Qed.

(** ** Listeners *)
Definition listener (l : list (Z * Z)) (key : Z) : option Z := snd <$> List.find (λ i : Z * Z, i.1 =? key) l.
Lemma find_app (f : Z * Z → bool) l k : List.find f (l ++ k) = match List.find f l with Some x => Some x | None => List.find f k end.
Proof. induction l as [|x l IH]; [done|]. cbn. by destruct (f x). Qed.
Lemma listener_none l key : Forall (λ i, i.1 < key) l → listener l key = None.
Proof.
  unfold listener. induction 1 as [|i l Hi Hl IH]; [done|]. cbn. replace (i.1 =? key) with false by lia. exact IH.
Qed.
Lemma listener_del l key key' : listener (filter (λ i : Z * Z, i.1 ≠ key) l) key' = if key' =? key then None else listener l key'.
Proof.
  unfold listener. induction l as [|i l IH]; [by destruct (key' =? key)|]. rewrite filter_cons. cbn [List.find].
  case_decide as Hd; cbn [List.find]; destruct (i.1 =? key') eqn:E; try done.
  - by replace (key' =? key) with false by lia.
  - rewrite IH. by replace (key' =? key) with true by lia.
Qed.

(** [setValue] does nothing when the value is unchanged; otherwise every listener
    registered at that moment is called exactly once, in the order of the ids, with
    the old and the new value, and the new value is stored.  [addListener] returns an
    id no listener of the variable had and affects no other; [delListener] and
    [clearListener] remove what they say.  [fromString] assigns what parses and
    ignores what does not, and returns [false] either way. *)
Theorem config_var_spec {V} `{!EqDecision V} FromStr (c : @Config V) name x n : s_datas c !! name = Some x →
  default 0 (s_fun_id c !! m_type x) = n → 0 ≤ n < 2 ^ 64 - 1 → Forall (λ i, i.1 ≤ n) (m_cbs x) →
  (∀ v, ∃ c', setValue name v c = Done c' () ∧ s_datas c' = <[name := with_val v x]> (s_datas c) ∧
    calls c' = (calls c ++ if decide (v = m_val x) then [] else (λ i : Z * Z, (i.2, m_val x, v)) <$> m_cbs x)%list) ∧
  (∀ cb, ∃ c' x', addListener name cb c = Done c' (n + 1) ∧ s_datas c' = <[name := x']> (s_datas c) ∧ m_val x' = m_val x ∧
    listener (m_cbs x) (n + 1) = None ∧ (∀ key, listener (m_cbs x') key = if key =? n + 1 then Some cb else listener (m_cbs x) key)) ∧
  (∀ key, ∃ c' x', delListener name key c = Done c' () ∧ s_datas c' = <[name := x']> (s_datas c) ∧ m_val x' = m_val x ∧
    (∀ key', listener (m_cbs x') key' = if key' =? key then None else listener (m_cbs x) key')) ∧
  (∃ c' x', clearListener name c = Done c' () ∧ s_datas c' = <[name := x']> (s_datas c) ∧ ∀ key, listener (m_cbs x') key = None) ∧
  (∀ text, ∃ c', fromString FromStr name text c = Done c' false ∧ s_datas c' = <[name := with_val (parse_or FromStr (m_type x) (m_val x) text) x]> (s_datas c)).
Proof.
  intros Hx Hn Hb Hids. assert (Hv : var_at name c = Done c x) by (unfold var_at; by rewrite Hx).
  split; [|split; [|split; [|split]]].
  - intros v. destruct (setValue_ok c name x v Hx) as (c' & H1 & H2 & H3 & _). by exists c'.
  - intros cb. unfold addListener. rewrite (bind_done _ _ _ _ _ Hv). erewrite bind_done by reflexivity. rewrite Hn, (u64_small (n + 1)) by lia.
    do 2 eexists. split; [reflexivity|]. split; [reflexivity|]. split; [done|]. cbn [m_cbs with_cbs].
    assert (Hlt : Forall (λ i, i.1 < n + 1) (m_cbs x)) by (eapply Forall_impl; [done|]; intros i Hi; cbn in *; lia).
    assert (filter (λ i : Z * Z, i.1 < n + 1) (m_cbs x) = m_cbs x) as ->.
    { clear -Hlt. induction Hlt as [|i l Hi Hl IH]; [done|]. cbn in Hi. rewrite filter_cons, decide_True by lia. by rewrite IH. }
    assert (filter (λ i : Z * Z, n + 1 < i.1) (m_cbs x) = []) as ->.
    { clear -Hlt. induction Hlt as [|i l Hi Hl IH]; [done|]. cbn in Hi. rewrite filter_cons, decide_False by lia. done. }
    pose proof (listener_none _ _ Hlt) as Hnone. split; [done|]. intros key. unfold listener in *. rewrite app_nil_r, find_app.
    destruct (key =? n + 1) eqn:E.
    + apply Z.eqb_eq in E as ->. destruct (List.find _ (m_cbs x)) in Hnone |- *; [done|]. cbn [List.find fst]. by rewrite Z.eqb_refl.
    + cbn [List.find fst]. replace (n + 1 =? key) with false by lia. by destruct (List.find (λ i : Z * Z, i.1 =? key) (m_cbs x)).
  - intros key. unfold delListener. rewrite (bind_done _ _ _ _ _ Hv). do 2 eexists. split; [reflexivity|]. split; [reflexivity|].
    split; [done|]. intros key'. apply listener_del.
  - unfold clearListener. rewrite (bind_done _ _ _ _ _ Hv). do 2 eexists. split; [reflexivity|]. by split.
  - intros text. unfold fromString, parse_or. rewrite (bind_done _ _ _ _ _ Hv). destruct (FromStr (m_type x) text) as [v|].
    + destruct (setValue_ok c name x v Hx) as (c' & H1 & H2 & _). exists c'. by rewrite (bind_done _ _ _ _ _ H1).
    + exists c. split; [done|]. cbn. rewrite insert_id; [done|]. rewrite Hx. by destruct x.
Qed.

Definition var0 : @ConfigVar Z := ConfigVar_new 1 "tcp.connect.timeout" 5000 "".
Definition config0 : @Config Z := mkConfig {[ "tcp.connect.timeout" := with_cbs [(3, 70)] var0 ]} {[ 1 := 4 ]} [].
Lemma config_var_spec_witness : ∃ c', setValue "tcp.connect.timeout" 200 config0 = Done c' () ∧ calls c' = [(70, 5000, 200)].
Proof.
  destruct (config_var_spec (λ _ _, None) config0 "tcp.connect.timeout" (with_cbs [(3, 70)] var0) 4) as (H & _);
    [reflexivity|reflexivity|lia|repeat constructor; cbn; lia|].
  destruct (H 200) as (c' & H1 & _ & H2). exists c'. split; [exact H1|exact H2].
Defined.
