(* ===== verification/LogPattern.v ===== *)
(** * LogPattern ([webserve/log.cc]): levels and the pattern compiler

    [LogFormatter::init] turns a pattern such as [%d{%H:%M}%T%m%n] into a list of
    format items, [LogFormatter::format] writes an event through them.  A position
    in the pattern is what remains of it from there on. *)
From S2P Require Import Prelude Text.
Open Scope string_scope.
Open Scope Z_scope.

(** [LogLevel::Level] *)
Inductive Level := UNKNOW | DEBUG | INFO | WARN | ERROR | FATAL.
#[export] Instance Level_eq_dec : EqDecision Level.
Proof. solve_decision. Defined.
Definition level_val (l : Level) : Z :=
  match l with UNKNOW => 0 | DEBUG => 1 | INFO => 2 | WARN => 3 | ERROR => 4 | FATAL => 5 end.
(** [LogLevel::ToString], [LogLevel::FromString] *)
Definition ToString (l : Level) : string :=
  match l with DEBUG => "DEBUG" | INFO => "INFO" | WARN => "WARN" | ERROR => "ERROR" | FATAL => "FATAL" | UNKNOW => "UNKNOW" end.
Definition FromString (s : string) : Level :=
  if String.eqb s "debug" then DEBUG else if String.eqb s "info" then INFO else if String.eqb s "warn" then WARN else
  if String.eqb s "error" then ERROR else if String.eqb s "fatal" then FATAL else
  if String.eqb s "DEBUG" then DEBUG else if String.eqb s "INFO" then INFO else if String.eqb s "WARN" then WARN else
  if String.eqb s "ERROR" then ERROR else if String.eqb s "FATAL" then FATAL else UNKNOW.

(** [LogEvent]; the logger by its address. *)
Record LogEvent := mkLogEvent {
  m_file : string; m_line : Z; m_elapse : Z; m_threadId : Z; m_fiberId : Z; m_time : Z;
  m_threadName : string; m_content : string; m_logger : Z; e_level : Level
}.

(** The subclasses of [LogFormatter::FormatItem]. *)
Inductive FormatItem :=
| MessageFormatItem | LevelFormatItem | ElapseFormatItem | NameFormatItem | ThreadIdFormatItem | NewLineFormatItem
| DateTimeFormatItem (m_format : string) | FilenameFormatItem | LineFormatItem | TabFormatItem | FiberIdFormatItem
| ThreadNameFormatItem | StringFormatItem (m_string : string).
Definition DateTimeFormatItem_new (format : string) : FormatItem :=
  DateTimeFormatItem (if is_empty format then "%Y-%m-%d %H:%M:%S" else format).

Record LogFormatter := mkLogFormatter { m_pattern : string; m_items : list FormatItem; m_error : bool }.

(** ** [LogFormatter::init] *)
Definition isalpha (c : ascii) : bool :=
  let n := Z.of_N (N_of_ascii c) in ((65 <=? n) && (n <=? 90)) || ((97 <=? n) && (n <=? 122)).
Definition brace_l : ascii := "{".
Definition brace_r : ascii := "}".
Definition percent : ascii := "%".

(** The inner loop at position [n]: [str], [fmt], [fmt_status] and the position it
    leaves at.  With [fmt_status == 0], [read] is the text between [i + 1] and [n]. *)
Fixpoint read_fmt (str fmt s : string) : string * string * Z * string :=
  match s with
  | "" => (str, "", 1, "")
  | String c s => if Ascii.eqb c brace_r then (str, fmt, 0, s) else read_fmt str (fmt ++ String c "") s
  end.
Fixpoint read_name (read s : string) : string * string * Z * string :=
  match s with
  | "" => (read, "", 0, "")
  | String c s' =>
      if negb (isalpha c) && negb (Ascii.eqb c brace_l) && negb (Ascii.eqb c brace_r) then (read, "", 0, s)
      else if Ascii.eqb c brace_l then read_fmt read "" s'
      else read_name (read ++ String c "") s'
  end.

(** The outer loop: [vec] of (str, fmt, type), the literal [nstr], [m_error]. *)
Definition flush (nstr : string) : list (string * string * Z) := if is_empty nstr then [] else [(nstr, "", 0)].
Fixpoint init_loop (fuel : nat) (s nstr : string) (vec : list (string * string * Z)) (err : bool) :
    option (list (string * string * Z) * string * bool) :=
  match fuel with
  | O => None
  | S fuel =>
      match s with
      | "" => Some (vec, nstr, err)
      | String c s' =>
          if negb (Ascii.eqb c percent) then init_loop fuel s' (nstr ++ String c "") vec err
          else if match s' with String d _ => Ascii.eqb d percent | "" => false end
          then init_loop fuel s' (nstr ++ "%") vec err
          else
            let '(str, fmt, fmt_status, rest) := read_name "" s' in
            if fmt_status =? 0 then init_loop fuel rest "" (vec ++ flush nstr ++ [(str, fmt, 1)])%list err
            else init_loop fuel s' nstr (vec ++ [("<<pattern_error>>", fmt, 0)])%list true
      end
  end.

(** [s_format_items] *)
Definition s_format_items (name fmt : string) : option FormatItem :=
  if String.eqb name "m" then Some MessageFormatItem else if String.eqb name "p" then Some LevelFormatItem else
  if String.eqb name "r" then Some ElapseFormatItem else if String.eqb name "c" then Some NameFormatItem else
  if String.eqb name "t" then Some ThreadIdFormatItem else if String.eqb name "n" then Some NewLineFormatItem else
  if String.eqb name "d" then Some (DateTimeFormatItem_new fmt) else if String.eqb name "f" then Some FilenameFormatItem else
  if String.eqb name "l" then Some LineFormatItem else if String.eqb name "T" then Some TabFormatItem else
  if String.eqb name "F" then Some FiberIdFormatItem else if String.eqb name "N" then Some ThreadNameFormatItem else None.
(** The last loop over [vec]. *)
Fixpoint make_items (vec : list (string * string * Z)) (err : bool) : list FormatItem * bool :=
  match vec with
  | [] => ([], err)
  | (str, fmt, type) :: vec =>
      if type =? 0 then let '(items, err) := make_items vec err in (StringFormatItem str :: items, err)
      else match s_format_items str fmt with
      | None => let '(items, err) := make_items vec true in (StringFormatItem ("<<error_format %" ++ str ++ ">>") :: items, err)
      | Some item => let '(items, err) := make_items vec err in (item :: items, err)
      end
  end.
(** [init]: every turn of the outer loop moves [i] on, so its fuel suffices. *)
Definition init (pattern : string) : option LogFormatter :=
  match init_loop (S (String.length pattern)) pattern "" [] false with
  | Some (vec, nstr, err) =>
      let '(items, err) := make_items (vec ++ flush nstr)%list err in Some (mkLogFormatter pattern items err)
  | None => None
  end.
Definition LogFormatter_new (pattern : string) : LogFormatter := default (mkLogFormatter pattern [] false) (init pattern).

(** ** [LogFormatter::format] *)
Section format.
(** [localtime_r] and [strftime]: the text for a format and a time. *)
Context (strftime : string → Z → string).
(** [FormatItem::format]; [name] is that of the event's logger.  The buffer for the
    time has 64 bytes; when [strftime] does not fit, its contents are undefined. *)
Definition item_format {S} (name : string) (level : Level) (e : LogEvent) (i : FormatItem) : M S string :=
  match i with
  | MessageFormatItem => mret (m_content e)
  | LevelFormatItem => mret (ToString level)
  | ElapseFormatItem => mret (dec (m_elapse e))
  | NameFormatItem => mret name
  | ThreadIdFormatItem => mret (dec (m_threadId e))
  | NewLineFormatItem => mret (String "010" "")
  | DateTimeFormatItem f =>
      let buf := strftime (c_str f) (m_time e) in if str_len buf <? 64 then mret buf else undef OutOfBounds
  | FilenameFormatItem => mret (m_file e)
  | LineFormatItem => mret (dec (m_line e))
  | TabFormatItem => mret (String "009" "")
  | FiberIdFormatItem => mret (dec (m_fiberId e))
  | ThreadNameFormatItem => mret (m_threadName e)
  | StringFormatItem s => mret s
  end.
Fixpoint format_items {S} (name : string) (level : Level) (e : LogEvent) (l : list FormatItem) : M S string :=
  match l with
  | [] => mret ""
  | i :: l => a ← item_format name level e i; b ← format_items name level e l; mret (a ++ b)
  end.
Definition format {S} (f : LogFormatter) (name : string) (level : Level) (e : LogEvent) : M S string :=
  format_items name level e (m_items f).
End format.

Example default_pattern : LogFormatter_new "%d{%Y-%m-%d %H:%M:%S}%T%t%T%N%T%F%T[%p]%T[%c]%T%f:%l%T%m%n" =
  mkLogFormatter "%d{%Y-%m-%d %H:%M:%S}%T%t%T%N%T%F%T[%p]%T[%c]%T%f:%l%T%m%n"
    [DateTimeFormatItem "%Y-%m-%d %H:%M:%S"; TabFormatItem; ThreadIdFormatItem; TabFormatItem; ThreadNameFormatItem;
     TabFormatItem; FiberIdFormatItem; TabFormatItem; StringFormatItem "["; LevelFormatItem; StringFormatItem "]"; TabFormatItem;
     StringFormatItem "["; NameFormatItem; StringFormatItem "]"; TabFormatItem; FilenameFormatItem; StringFormatItem ":";
     LineFormatItem; TabFormatItem; MessageFormatItem; NewLineFormatItem] false.
Proof. vm_compute. reflexivity. Qed.

(** ** Patterns and what they are made of *)
Inductive elem := Lit (s : string) | Item (name : string) (fmt : option string).
Definition show (e : elem) : string :=
  match e with
  | Lit s => s
  | Item n None => "%" ++ n
  | Item n (Some f) => "%" ++ n ++ "{" ++ f ++ "}"
  end.
Definition print (l : list elem) : string := foldr (λ e s, show e ++ s) "" l.

Fixpoint forall_chars (P : ascii → bool) (s : string) : bool :=
  match s with "" => true | String c s => P c && forall_chars P s end.
Definition name_char (c : ascii) : bool := isalpha c || Ascii.eqb c brace_r.
Definition not_percent (c : ascii) : bool := negb (Ascii.eqb c percent).
Definition not_brace_r (c : ascii) : bool := negb (Ascii.eqb c brace_r).
(** A text that ends a name in front of it. *)
Definition ends_name (s : string) : bool :=
  match s with "" => true | String c _ => negb (name_char c) && negb (Ascii.eqb c brace_l) end.
(** Literals hold no percent sign, are not empty and do not touch; a name without a
    format in braces is not followed by a letter or a brace. *)
Fixpoint well_formed (l : list elem) : bool :=
  match l with
  | [] => true
  | Lit s :: l => negb (is_empty s) && forall_chars not_percent s && match l with Lit _ :: _ => false | _ => true end && well_formed l
  | Item n None :: l => negb (is_empty n) && forall_chars name_char n && ends_name (print l) && well_formed l
  | Item n (Some f) :: l => negb (is_empty n) && forall_chars name_char n && forall_chars not_brace_r f && well_formed l
  end.
Definition entry (e : elem) : string * string * Z :=
  match e with Lit s => (s, "", 0) | Item n f => (n, default "" f, 1) end.
(** What an element is compiled to. *)
Definition known (e : elem) : bool :=
  match e with Lit _ => true | Item n _ => match s_format_items n "" with Some _ => true | None => false end end.
Definition item_of (e : elem) : FormatItem :=
  match e with
  | Lit s => StringFormatItem s
  | Item n f => default (StringFormatItem ("<<error_format %" ++ n ++ ">>")) (s_format_items n (default "" f))
  end.

Lemma name_not_percent c : name_char c = true → Ascii.eqb c percent = false ∧ Ascii.eqb c brace_l = false.
Proof. by destruct c as [[] [] [] [] [] [] [] []]. Qed.

Lemma read_fmt_ok str f : ∀ fmt s, forall_chars not_brace_r f = true →
  read_fmt str fmt (f ++ String brace_r s) = (str, fmt ++ f, 0, s).
Proof.
  induction f as [|c f IH]; intros fmt s Hf; [by rewrite str_app_nil_r|].
  cbn in Hf. apply andb_true_iff in Hf as [Hc Hf]. unfold not_brace_r in Hc. apply negb_true_iff in Hc.
  cbn. rewrite Hc, IH by done. by rewrite str_app_assoc.
Qed.
Lemma read_fmt_open str f : ∀ fmt, forall_chars not_brace_r f = true → read_fmt str fmt f = (str, "", 1, "").
Proof.
  induction f as [|c f IH]; intros fmt Hf; [done|].
  cbn in Hf. apply andb_true_iff in Hf as [Hc Hf]. unfold not_brace_r in Hc. apply negb_true_iff in Hc.
  cbn. rewrite Hc. by apply IH.
Qed.
Lemma read_name_app n : ∀ read s, forall_chars name_char n = true → read_name read (n ++ s) = read_name (read ++ n) s.
Proof.
  induction n as [|c n IH]; intros read s Hn; [by rewrite str_app_nil_r|].
  cbn in Hn. apply andb_true_iff in Hn as [Hc Hn]. destruct (name_not_percent c Hc) as [_ Hb].
  cbn [append read_name]. replace (negb (isalpha c) && _ && _) with false.
  - rewrite Hb, IH by done. by rewrite str_app_assoc.
  - unfold name_char in Hc. rewrite Hb. by destruct (isalpha c), (Ascii.eqb c brace_r).
Qed.
Lemma read_name_end read s : ends_name s = true → read_name read s = (read, "", 0, s).
Proof.
  destruct s as [|c s]; [done|]. cbn. unfold name_char. intros H.
  destruct (isalpha c), (Ascii.eqb c brace_l), (Ascii.eqb c brace_r); done.
Qed.
Lemma read_name_length s : ∀ read str fmt st rest, read_name read s = (str, fmt, st, rest) →
  (String.length rest ≤ String.length s)%nat.
Proof.
  assert (Hf : ∀ s str0 fmt0 str fmt st rest, read_fmt str0 fmt0 s = (str, fmt, st, rest) → (String.length rest ≤ String.length s)%nat).
  { clear. induction s as [|c s IH]; intros * H; cbn in H; [by injection H as <- <- <- <-|].
    destruct (Ascii.eqb c brace_r); [injection H as <- <- <- <-; cbn; lia|]. apply IH in H. cbn. lia. }
  induction s as [|c s IH]; intros * H; cbn in H; [by injection H as <- <- <- <-|].
  destruct (_ && _ && _); [by injection H as <- <- <- <-|]. destruct (Ascii.eqb c brace_l); [apply Hf in H|apply IH in H]; cbn; lia.
Qed.

(** The fuel of [init] is enough for every pattern, and any more gives the same. *)
Lemma init_loop_fuel fuel : ∀ s nstr vec err, (String.length s < fuel)%nat →
  ∃ r, ∀ more, init_loop (fuel + more) s nstr vec err = Some r.
Proof.
  induction fuel as [|fuel IH]; intros s nstr vec err Hl; [lia|].
  destruct s as [|c s]; [by eexists|]. cbn [String.length] in Hl. cbn [Nat.add init_loop].
  destruct (negb _); [apply IH; lia|]. destruct (match s with "" => _ | String d _ => _ end); [apply IH; lia|].
  destruct (read_name "" s) as [[[str fmt] st] rest] eqn:Hr. apply read_name_length in Hr.
  destruct (st =? 0); apply IH; lia.
Qed.
Lemma init_loop_enough fuel k s nstr vec err r : (String.length s < fuel)%nat → init_loop k s nstr vec err = Some r →
  init_loop fuel s nstr vec err = Some r.
Proof.
  intros Hf Hk. destruct (init_loop_fuel fuel s nstr vec err Hf) as (r' & Hr).
  assert (Hmono : ∀ k s nstr vec err r more, init_loop k s nstr vec err = Some r → init_loop (k + more) s nstr vec err = Some r).
  { clear. induction k as [|k IH]; intros * H; [done|]. cbn [Nat.add init_loop] in *. destruct s as [|c s]; [done|].
    destruct (negb _); [by apply IH|]. destruct (match s with "" => _ | String d _ => _ end); [by apply IH|].
    destruct (read_name "" s) as [[[str fmt] st] rest]. destruct (st =? 0); by apply IH. }
  apply (Hmono _ _ _ _ _ _ fuel) in Hk. specialize (Hr k). rewrite Nat.add_comm in Hr. rewrite Hk in Hr.
  pose proof (init_loop_fuel fuel s nstr vec err Hf) as (r2 & Hr2). specialize (Hr2 O) as H0. rewrite Nat.add_0_r in H0.
  specialize (Hr2 k). rewrite Nat.add_comm, Hk in Hr2. congruence.
Qed.

(** [init_loop] at this point of a pattern ends with [r]. *)
Definition parses (s nstr : string) (vec : list (string * string * Z)) (err : bool) r : Prop :=
  ∃ fuel, init_loop fuel s nstr vec err = Some r.
Lemma parses_end nstr vec err : parses "" nstr vec err (vec, nstr, err).
Proof. by exists 1%nat. Qed.
Lemma parses_lit l s nstr vec err r : forall_chars not_percent l = true →
  parses s (nstr ++ l) vec err r → parses (l ++ s) nstr vec err r.
Proof.
  revert nstr. induction l as [|c l IH]; intros nstr Hl H; [by rewrite str_app_nil_r in H|].
  cbn in Hl. apply andb_true_iff in Hl as [Hc Hl]. unfold not_percent in Hc.
  destruct (IH (nstr ++ String c "") Hl) as [k Hk]; [by rewrite str_app_assoc|]. exists (S k). cbn. by rewrite Hc.
Qed.
Lemma parses_item s nstr vec err r str fmt rest : ends_name s = false → read_name "" s = (str, fmt, 0, rest) →
  parses rest "" (vec ++ flush nstr ++ [(str, fmt, 1)])%list err r → parses (String percent s) nstr vec err r.
Proof.
  intros Hs Hr [k Hk]. exists (S k). cbn. destruct s as [|c s]; [done|].
  replace (Ascii.eqb c percent) with false; [by rewrite Hr|]. revert Hs. by destruct c as [[] [] [] [] [] [] [] []].
Qed.

Lemma print_parses l : well_formed l = true → ∀ nstr vec err, match l with Lit _ :: _ => nstr = "" | _ => True end →
  ∃ vec' nstr', parses (print l) nstr vec err (vec', nstr', err) ∧
    (vec' ++ flush nstr' = vec ++ flush nstr ++ (entry <$> l))%list.
Proof.
  assert (Hstep : ∀ n t nstr vec err l str fmt rest, n ≠ "" → forall_chars name_char n = true →
    read_name n t = (str, fmt, 0, rest) →
    (∃ vec' nstr', parses rest "" (vec ++ flush nstr ++ [(str, fmt, 1)]) err (vec', nstr', err) ∧
      (vec' ++ flush nstr' = (vec ++ flush nstr ++ [(str, fmt, 1)]) ++ flush "" ++ l)%list) →
    ∃ vec' nstr', parses (String percent (n ++ t)) nstr vec err (vec', nstr', err) ∧
      (vec' ++ flush nstr' = vec ++ flush nstr ++ (str, fmt, 1) :: l)%list).
  { intros n t nstr vec err l0 str fmt rest Hne Hn Hr (vec' & nstr' & Hp & He). exists vec', nstr'. split.
    - eapply parses_item; [|by rewrite read_name_app|done]. destruct n as [|c n]; [done|].
      cbn in Hn |- *. apply andb_true_iff in Hn as [-> _]. done.
    - rewrite He. by rewrite <-!app_assoc. }
  induction l as [|e l IH]; intros Hwf nstr vec err Hn.
  { exists vec, nstr. split; [apply parses_end|]. by rewrite app_nil_r. }
  destruct e as [s|n [f|]]; cbn [well_formed] in Hwf; rewrite !andb_true_iff in Hwf.
  - destruct Hwf as (((Hne & Hs) & Hl) & Hwf). subst nstr. destruct (IH Hwf s vec err) as (vec' & nstr' & Hp & He).
    { by destruct l as [|[] ?]. }
    exists vec', nstr'. split; [by apply parses_lit|]. rewrite He. unfold flush. by destruct s.
  - destruct Hwf as (((Hne & Hnm) & Hf) & Hwf). change (print (Item n (Some f) :: l)) with (String percent ((n ++ "{" ++ f ++ "}") ++ print l)).
    rewrite str_app_assoc. change ("{" ++ f ++ "}") with (String brace_l (f ++ String brace_r "")).
    rewrite fmap_cons; cbn [entry default]. eapply (Hstep n _ nstr vec err (entry <$> l) n f (print l)); [by intros ->|done| |by apply IH; [|by destruct l as [|[] ?]]].
    cbn [append read_name]. rewrite str_app_assoc. cbn. by rewrite read_fmt_ok.
  - destruct Hwf as (((Hne & Hnm) & Hf) & Hwf). change (print (Item n None :: l)) with (String percent (n ++ print l)).
    rewrite fmap_cons; cbn [entry default]. eapply (Hstep n _ nstr vec err (entry <$> l) n "" (print l)); [by intros ->|done|by apply read_name_end|by apply IH; [|by destruct l as [|[] ?]]].
Qed.

Lemma make_items_entries l err : make_items (entry <$> l) err = (item_of <$> l, err || negb (forallb known l)).
Proof.
  assert (Hk : ∀ n f, s_format_items n "" = None ↔ s_format_items n f = None).
  { intros n f. unfold s_format_items. repeat case_bool; done. }
  revert err. induction l as [|e l IH]; intros err; [by rewrite orb_false_r|].
  destruct e as [s|n f]; cbn.
  - by rewrite IH.
  - specialize (Hk n (default "" f)). destruct (s_format_items n (default "" f)) as [i|], (s_format_items n "") as [i'|].
    + by rewrite IH.
    + by destruct Hk as [Hk _]; specialize (Hk eq_refl).
    + by destruct Hk as [_ Hk]; specialize (Hk eq_refl).
    + rewrite IH. cbn. by rewrite orb_true_r.
Qed.
Lemma init_parses s vec nstr err : parses s "" [] false (vec, nstr, err) →
  init s = Some (let '(items, err) := make_items (vec ++ flush nstr)%list err in mkLogFormatter s items err).
Proof.
  intros [k Hk]. unfold init. rewrite (init_loop_enough (S (String.length s)) k s "" [] false _ ltac:(lia) Hk).
  by destruct (make_items _ _).
Qed.

Lemma init_open_brace text n f : forall_chars not_percent text = true → n ≠ "" → forall_chars name_char n = true →
  forall_chars not_brace_r f = true → forall_chars not_percent f = true →
  init (text ++ "%" ++ n ++ "{" ++ f) = Some
    (mkLogFormatter (text ++ "%" ++ n ++ "{" ++ f) [StringFormatItem "<<pattern_error>>"; StringFormatItem (text ++ n ++ "{" ++ f)] true).
Proof.
  intros Ht Hne Hn Hf Hpf.
  assert (Hnp : forall_chars not_percent n = true).
  { clear -Hn. induction n as [|c n IH]; [done|]. cbn in Hn |- *. apply andb_true_iff in Hn as [Hc Hn].
    apply name_not_percent in Hc as [Hc _]. apply andb_true_iff. split; [by unfold not_percent; rewrite Hc|by apply IH]. }
  erewrite (init_parses _ [("<<pattern_error>>", "", 0)] (text ++ n ++ "{" ++ f) true).
  + cbn. unfold flush. destruct (is_empty _) eqn:E; [|done]. destruct text; [|done]. by destruct n.
  + apply parses_lit; [done|]. cbn [append].
    assert (Hrest : parses (n ++ String brace_l f) text [("<<pattern_error>>", "", 0)] true
      ([("<<pattern_error>>", "", 0)], text ++ n ++ "{" ++ f, true)).
    { apply parses_lit; [done|]. rewrite <-(str_app_nil_r (String brace_l f)). apply parses_lit; [by cbn|].
      rewrite str_app_assoc. apply parses_end. }
    destruct Hrest as [k Hk]. exists (S k). change (String percent (n ++ "{" ++ f)) with (String percent (n ++ String brace_l f)).
    cbn [init_loop append]. change (String "{" f) with (String brace_l f).
    assert (Hr : read_name "" (n ++ String brace_l f) = (n, "", 1, "")).
    { rewrite read_name_app by done. cbn. by apply read_fmt_open. }
    change (negb (Ascii.eqb percent percent)) with false. rewrite Hr.
    destruct n as [|c n]; [done|]. cbn in Hn. apply andb_true_iff in Hn as [Hc _].
    destruct (name_not_percent c Hc) as [Hcp _]. cbn [append] in Hk |- *. rewrite Hcp. exact Hk.
Qed.
Lemma init_double_percent text : forall_chars not_percent text = true →
  init (text ++ "%%") = Some (mkLogFormatter (text ++ "%%") [StringFormatItem (text ++ "%"); StringFormatItem "<<error_format %>>"] true) ∧
  init (text ++ "%%m") = Some (mkLogFormatter (text ++ "%%m") [StringFormatItem (text ++ "%"); MessageFormatItem] false).
Proof.
  intros Ht. split.
  + erewrite (init_parses _ [(text ++ "%", "", 0); ("", "", 1)] "" false); [reflexivity|].
    apply parses_lit; [done|]. exists 3%nat. cbn. by rewrite <-(str_app_nil_r (text ++ "%")); destruct text.
  + erewrite (init_parses _ [(text ++ "%", "", 0); ("m", "", 1)] "" false); [reflexivity|].
    apply parses_lit; [done|]. exists 3%nat. cbn. by destruct text.
Qed.

(** C39: the pattern compiler.  Every pattern is compiled, in a bounded number of
    steps.  The text of a well-formed list of literals, items [%x] and items with a
    format [%x{f}] compiles to exactly those items in order, and [isError] tells
    whether an item name is unknown.  An unclosed brace is reported in front of the
    literals read before it.  The documented escape [%%] does not work: its first
    sign is printed and its second one starts an item, so that [%%] at the end of a
    pattern is an error and [%%m] prints a percent sign and the message. *)
Theorem pattern_roundtrip l : well_formed l = true →
  (∀ pattern, ∃ f, init pattern = Some f ∧ m_pattern f = pattern) ∧
  LogFormatter_new (print l) = mkLogFormatter (print l) (item_of <$> l) (negb (forallb known l)) ∧
  (∀ text n f, forall_chars not_percent text = true → n ≠ "" → forall_chars name_char n = true →
    forall_chars not_brace_r f = true → forall_chars not_percent f = true →
    LogFormatter_new (text ++ "%" ++ n ++ "{" ++ f) =
    mkLogFormatter (text ++ "%" ++ n ++ "{" ++ f) [StringFormatItem "<<pattern_error>>"; StringFormatItem (text ++ n ++ "{" ++ f)] true) ∧
  (∀ text, forall_chars not_percent text = true →
    LogFormatter_new (text ++ "%%") =
      mkLogFormatter (text ++ "%%") [StringFormatItem (text ++ "%"); StringFormatItem "<<error_format %>>"] true ∧
    LogFormatter_new (text ++ "%%m") = mkLogFormatter (text ++ "%%m") [StringFormatItem (text ++ "%"); MessageFormatItem] false).
Proof.
  intros Hwf. unfold LogFormatter_new. split; [|split; [|split]].
  - intros pattern. unfold init. destruct (init_loop_fuel (S (String.length pattern)) pattern "" [] false ltac:(lia)) as (r & Hr).
    specialize (Hr O). rewrite Nat.add_0_r in Hr. rewrite Hr. destruct r as [[vec nstr] err]. destruct (make_items _ _). by eexists.
  - destruct (print_parses l Hwf "" [] false) as (vec & nstr & Hp & He); [by destruct l as [|[] ?]|].
    rewrite (init_parses _ _ _ _ Hp), He. change ([] ++ flush "" ++ (entry <$> l))%list with (entry <$> l).
    rewrite make_items_entries. done.
  - intros text n f Ht Hne Hn Hf Hpf. by rewrite init_open_brace.
  - intros text Ht. destruct (init_double_percent text Ht) as [-> ->]. done.
Qed.
Lemma pattern_roundtrip_witness : well_formed [Lit "["; Item "p" None; Lit "] "; Item "m" (Some "x y"); Item "q" None] = true ∧
  LogFormatter_new "[%p] %m{x y}%q" = mkLogFormatter "[%p] %m{x y}%q"
    [StringFormatItem "["; LevelFormatItem; StringFormatItem "] "; MessageFormatItem; StringFormatItem "<<error_format %q>>"] true.
Proof. split; [reflexivity|]. apply (pattern_roundtrip [Lit "["; Item "p" None; Lit "] "; Item "m" (Some "x y"); Item "q" None]). reflexivity. Defined.
