(* ===== verification/Log.v ===== *)
(** * Log ([webserve/log.h], [webserve/log.cc]): loggers, appenders, the manager

    Loggers and appenders are shared by pointer: they live in two stores, by address.
    Formatters are never changed after construction: values.  The text an appender
    has written is kept, for a file the text since the stream was last opened -
    opening truncates the file.  Writes to an open stream succeed. *)
From S2P Require Import Prelude Text LogPattern.
Open Scope string_scope.
Open Scope Z_scope.

(** [StdoutLogAppender] or [FileLogAppender]; [m_filestream] is [None] when failed. *)
Inductive Sink := Stdout | File (m_filename : string) (m_filestream : option string) (m_lastTime : Z).
Record LogAppender := mkLogAppender {
  a_level : Level; a_formatter : option LogFormatter; m_hasFormatter : bool; a_sink : Sink
}.
Record Logger := mkLogger {
  l_name : string; l_level : Level; l_appenders : list Z; l_formatter : option LogFormatter; l_root : option Z
}.
(** The stores with the next fresh address, [LoggerManager], and standard output. *)
Record Logs := mkLogs {
  loggers : gmap Z Logger; appenders : gmap Z LogAppender; next : Z;
  m_loggers : gmap string Z; m_root : Z; cout : string
}.
Definition set_loggers v s := mkLogs v (appenders s) (next s) (m_loggers s) (m_root s) (cout s).
Definition set_appenders v s := mkLogs (loggers s) v (next s) (m_loggers s) (m_root s) (cout s).
Definition set_names v s := mkLogs (loggers s) (appenders s) (next s) v (m_root s) (cout s).
Definition set_cout v s := mkLogs (loggers s) (appenders s) (next s) (m_loggers s) (m_root s) v.
Definition with_a_level v a := mkLogAppender v (a_formatter a) (m_hasFormatter a) (a_sink a).
Definition with_a_formatter v a := mkLogAppender (a_level a) v (m_hasFormatter a) (a_sink a).
Definition with_a_sink v a := mkLogAppender (a_level a) (a_formatter a) (m_hasFormatter a) v.
Definition with_level v l := mkLogger (l_name l) v (l_appenders l) (l_formatter l) (l_root l).
Definition with_appenders v l := mkLogger (l_name l) (l_level l) v (l_formatter l) (l_root l).
Definition with_formatter v l := mkLogger (l_name l) (l_level l) (l_appenders l) v (l_root l).
Definition with_root v l := mkLogger (l_name l) (l_level l) (l_appenders l) (l_formatter l) v.

Definition logger_at (a : Z) : M Logs Logger := λ s, match loggers s !! a with Some l => Done s l | None => Undef NullDeref end.
Definition appender_at (a : Z) : M Logs LogAppender := λ s, match appenders s !! a with Some x => Done s x | None => Undef NullDeref end.
Definition put_logger (a : Z) (l : Logger) : M Logs () := modify (λ s, set_loggers (<[a := l]> (loggers s)) s).
Definition put_appender (a : Z) (x : LogAppender) : M Logs () := modify (λ s, set_appenders (<[a := x]> (appenders s)) s).
Definition new_logger (l : Logger) : M Logs Z := λ s,
  Done (mkLogs (<[next s := l]> (loggers s)) (appenders s) (next s + 1) (m_loggers s) (m_root s) (cout s)) (next s).
Definition new_appender (x : LogAppender) : M Logs Z := λ s,
  Done (mkLogs (loggers s) (<[next s := x]> (appenders s)) (next s + 1) (m_loggers s) (m_root s) (cout s)) (next s).

Section log.
Context (strftime : string → Z → string).
(** Whether [std::ofstream::open] succeeds on a path. *)
Context (openable : string → bool).

(** ** LogAppender *)
Definition LogAppender_setFormatter (a : Z) (val : option LogFormatter) : M Logs () :=
  x ← appender_at a; put_appender a (mkLogAppender (a_level x) val (match val with Some _ => true | None => false end) (a_sink x)).
Definition LogAppender_setLevel (a : Z) (val : Level) : M Logs () := x ← appender_at a; put_appender a (with_a_level val x).
(** [FileLogAppender::reopen]: [close] if the stream is good, then [open] for writing. *)
Definition reopened (file : string) : option string := if openable file then Some "" else None.
Definition reopen (a : Z) : M Logs bool :=
  x ← appender_at a;
  match a_sink x with
  | Stdout => undef NullDeref
  | File f _ t => put_appender a (with_a_sink (File f (reopened f) t) x) ;; mret (openable f)
  end.
Definition StdoutLogAppender_new : M Logs Z := new_appender (mkLogAppender DEBUG None false Stdout).
Definition FileLogAppender_new (filename : string) : M Logs Z :=
  a ← new_appender (mkLogAppender DEBUG None false (File filename (Some "") 0)); reopen a ;; mret a.

(** [m_formatter->format(logger, level, event)] *)
Definition format_event (x : LogAppender) (level : Level) (e : LogEvent) : M Logs string :=
  f ← deref (a_formatter x); l ← logger_at (m_logger e); format strftime f (l_name l) level e.
(** [FileLogAppender::log] and [StdoutLogAppender::log] *)
Definition appender_log (a : Z) (level : Level) (e : LogEvent) : M Logs () :=
  x ← appender_at a;
  if negb (level_val level >=? level_val (a_level x)) then mret () else
  match a_sink x with
  | Stdout =>
      str ← format_event x level e;
      modify (λ s, set_cout (cout s ++ str) s)
  | File f _ t =>
      let now := m_time e in
      (if now >=? u64 (t + 3)
       then reopen a ;; x ← appender_at a;
         match a_sink x with File f st _ => put_appender a (with_a_sink (File f st now) x) | Stdout => mret () end
       else mret ()) ;;
      x ← appender_at a;
      str ← format_event x level e;
      match a_sink x with
      | File f st t => put_appender a (with_a_sink (File f ((λ w, w ++ str) <$> st) t) x)
      | Stdout => mret ()
      end
  end.

(** ** Logger *)
Definition default_format : string := "%d{%Y-%m-%d %H:%M:%S}%T%t%T%N%T%F%T[%p]%T[%c]%T%f:%l%T%m%n".
Definition Logger_new (name : string) : Logger := mkLogger name DEBUG [] (Some (LogFormatter_new default_format)) None.
Definition setLevel (a : Z) (val : Level) : M Logs () := l ← logger_at a; put_logger a (with_level val l).
(** [Logger::setFormatter(ptr)]: the loop over the appenders. *)
Fixpoint inherit (val : option LogFormatter) (l : list Z) : M Logs () :=
  match l with
  | [] => mret ()
  | i :: l => x ← appender_at i;
      (if negb (m_hasFormatter x) then put_appender i (with_a_formatter val x) else mret ()) ;; inherit val l
  end.
Definition setFormatter (a : Z) (val : option LogFormatter) : M Logs () :=
  l ← logger_at a; put_logger a (with_formatter val l) ;; inherit val (l_appenders l).
(** [Logger::setFormatter(const std::string&)] *)
Definition setFormatter_string (a : Z) (val : string) : M Logs () :=
  let new_val := LogFormatter_new val in
  if m_error new_val then mret () else setFormatter a (Some new_val).
Definition addAppender (a : Z) (appender : Z) : M Logs () :=
  l ← logger_at a; x ← appender_at appender;
  (match a_formatter x with None => put_appender appender (with_a_formatter (l_formatter l) x) | Some _ => mret () end) ;;
  put_logger a (with_appenders (l_appenders l ++ [appender])%list l).
Fixpoint erase_first (x : Z) (l : list Z) : list Z :=
  match l with [] => [] | i :: l => if i =? x then l else i :: erase_first x l end.
Definition delAppender (a : Z) (appender : Z) : M Logs () :=
  l ← logger_at a; put_logger a (with_appenders (erase_first appender (l_appenders l)) l).
Definition clearAppenders (a : Z) : M Logs () := l ← logger_at a; put_logger a (with_appenders [] l).

(** [Logger::log]; [fuel] bounds the chain of [m_root], which has one link. *)
Fixpoint log_all (l : list Z) (level : Level) (e : LogEvent) : M Logs () :=
  match l with [] => mret () | i :: l => appender_log i level e ;; log_all l level e end.
Fixpoint log_fuel (fuel : nat) (a : Z) (level : Level) (e : LogEvent) : M Logs () :=
  match fuel with
  | O => nofuel
  | S fuel =>
      l ← logger_at a;
      if level_val level >=? level_val (l_level l) then
        match l_appenders l, l_root l with
        | [], Some root => log_fuel fuel root level e
        | [], None => mret ()
        | ids, _ => log_all ids level e
        end
      else mret ()
  end.
Definition log : Z → Level → LogEvent → M Logs () := log_fuel 2.

(** [SYLAR_LOG_LEVEL(logger, level) << ...]: the event, with its logger and level, is
    logged when the temporary [LogEventWrap] is destroyed. *)
Definition LogEventWrap_destroy (e : LogEvent) : M Logs () := log (m_logger e) (e_level e) e.
Definition LOG_LEVEL (logger : Z) (level : Level) (e : LogEvent) : M Logs () :=
  l ← logger_at logger;
  if level_val (l_level l) <=? level_val level then
    LogEventWrap_destroy (mkLogEvent (m_file e) (m_line e) (m_elapse e) (m_threadId e) (m_fiberId e) (m_time e) (m_threadName e) (m_content e) logger level)
  else mret ().

(** ** LoggerManager *)
Definition getLogger (name : string) : M Logs Z :=
  s ← Prelude.get;
  match m_loggers s !! name with
  | Some a => mret a
  | None =>
      a ← new_logger (with_root (Some (m_root s)) (Logger_new name));
      modify (λ s, set_names (<[name := a]> (m_loggers s)) s) ;; mret a
  end.
(** The constructor, on the empty stores. *)
Definition LoggerManager_new : M Logs () :=
  root ← new_logger (Logger_new "root");
  modify (λ s, mkLogs (loggers s) (appenders s) (next s) (m_loggers s) root (cout s)) ;;
  ap ← StdoutLogAppender_new; addAppender root ap ;;
  modify (λ s, set_names (<["root" := root]> (m_loggers s)) s).

(** ** The "logs" configuration *)
Record LogAppenderDefine := mkLogAppenderDefine { d_type : Z; d_level : Level; d_formatter : string; d_file : string }.
Record LogDefine := mkLogDefine {
  name : string; level : Level; formatter : string; def_appenders : list LogAppenderDefine
}.
#[export] Instance LogAppenderDefine_eq_dec : EqDecision LogAppenderDefine.
Proof. solve_decision. Defined.
(** [LogDefine::operator==], which compares the appenders with themselves. *)
Definition LogDefine_eq (d oth : LogDefine) : bool :=
  String.eqb (name d) (name oth) && bool_decide (level d = level oth) && String.eqb (formatter d) (formatter oth) &&
  bool_decide (def_appenders d = def_appenders d).
(** [std::set<LogDefine>::find]: [operator<] compares the names. *)
Definition find_define (n : string) (l : list LogDefine) : option LogDefine := List.find (λ d, String.eqb (name d) n) l.

(** The loop over the appenders of a definition. *)
Definition make_appender (logger : Z) (a : LogAppenderDefine) : M Logs () :=
  ap ← (if d_type a =? 1 then FileLogAppender_new (d_file a)
        else if d_type a =? 2 then StdoutLogAppender_new else undef NullDeref);
  LogAppender_setLevel ap (d_level a) ;;
  (if is_empty (d_formatter a) then mret () else
   let fmt := LogFormatter_new (d_formatter a) in
   if m_error fmt then mret () else LogAppender_setFormatter ap (Some fmt)) ;;
  addAppender logger ap.
Fixpoint make_appenders (logger : Z) (l : list LogAppenderDefine) : M Logs () :=
  match l with [] => mret () | a :: l => make_appender logger a ;; make_appenders logger l end.
Definition configure (i : LogDefine) : M Logs () :=
  logger ← getLogger (name i);
  setLevel logger (level i) ;;
  (if is_empty (formatter i) then mret () else setFormatter_string logger (formatter i)) ;;
  clearAppenders logger ;;
  make_appenders logger (def_appenders i).
Fixpoint on_new (old_value l : list LogDefine) : M Logs () :=
  match l with
  | [] => mret ()
  | i :: l =>
      (match find_define (name i) old_value with
       | None => configure i
       | Some it => if negb (LogDefine_eq i it) then configure i else mret ()
       end) ;; on_new old_value l
  end.
Fixpoint on_removed (new_value l : list LogDefine) : M Logs () :=
  match l with
  | [] => mret ()
  | i :: l =>
      (match find_define (name i) new_value with
       | None => logger ← getLogger (name i); setLevel logger UNKNOW ;; clearAppenders logger
       | Some _ => mret ()
       end) ;; on_removed new_value l
  end.
(** The listener of [LogIniter]; [here] is the event of its own log line. *)
Definition on_conf_changed (here : LogEvent) (old_value new_value : list LogDefine) : M Logs () :=
  s ← Prelude.get; LOG_LEVEL (m_root s) INFO here ;;
  on_new old_value new_value ;;
  on_removed new_value old_value.
End log.
