(* ===== verification/LogFacts.v ===== *)
(** * LogFacts: where log lines go, and what a change of the configuration does *)
From S2P Require Import Prelude Text LogPattern Log.
Open Scope string_scope.
Open Scope Z_scope.

(** The loggers of the manager: each but the root falls back to the root, has a
    formatter and its own appenders, which have formatters. *)
Record wf (s : Logs) : Prop := {
  wf_root : is_Some (loggers s !! m_root s);
  wf_logger : ∀ a lg, loggers s !! a = Some lg → a < next s ∧ is_Some (l_formatter lg) ∧ NoDup (l_appenders lg) ∧
    l_root lg = if decide (a = m_root s) then None else Some (m_root s);
  wf_appender : ∀ a lg x, loggers s !! a = Some lg → x ∈ l_appenders lg → ∃ ap, appenders s !! x = Some ap ∧ is_Some (a_formatter ap);
  wf_next : ∀ x ap, appenders s !! x = Some ap → x < next s;
  wf_name : ∀ n a, m_loggers s !! n = Some a → ∃ lg, loggers s !! a = Some lg ∧ l_name lg = n;
  wf_own : ∀ a b lg lg' x, loggers s !! a = Some lg → loggers s !! b = Some lg' → x ∈ l_appenders lg → x ∈ l_appenders lg' → a = b
}.

Lemma logger_at_ok a s l : loggers s !! a = Some l → logger_at a s = Done s l.
Proof. intros H. unfold logger_at. by rewrite H. Qed.
Lemma appender_at_ok a s x : appenders s !! a = Some x → appender_at a s = Done s x.
Proof. intros H. unfold appender_at. by rewrite H. Qed.
(** Runs the first operation of a sequence by the equation [H]. *)
Ltac run H := rewrite (bind_done _ _ _ _ _ H).
Ltac run_appender := erewrite bind_done; [|apply appender_at_ok; cbn [appenders set_appenders set_cout set_loggers]; first [eassumption|apply lookup_insert_eq]].
Ltac run_logger := erewrite bind_done; [|apply logger_at_ok; cbn [loggers set_appenders set_cout set_loggers]; first [eassumption|apply lookup_insert_eq]].
Ltac run_now := erewrite bind_done by reflexivity.

(** ** Delivery *)
Section delivery.
Context (strftime : string → Z → string) (openable : string → bool).
Notation appender_log := (appender_log strftime openable).
Notation log_all := (log_all strftime openable).
(** Every time text fits the buffer of 64 bytes. *)
Definition times_fit : Prop := ∀ f t, str_len (strftime f t) < 64.
Context (Hfit : times_fit).
#[local] Set Default Proof Using "All".

Definition text (f : LogFormatter) (n : string) (level : Level) (e : LogEvent) : string :=
  match format strftime f n level e () with Done _ t => t | _ => "" end.
Lemma format_ok {S} (s : S) f n level e : format strftime f n level e s = Done s (text f n level e).
Proof.
  assert (Hf : ∃ t, ∀ T (s : T), format_items strftime n level e (m_items f) s = Done s t).
  { induction (m_items f) as [|i l [t' IH]]; [by eexists|].
    assert (Hi : ∃ t, ∀ T (s : T), item_format strftime n level e i s = Done s t).
    { destruct i as [| | | | | |g| | | | | |]; try by eexists. eexists. intros T s'. cbn. specialize (Hfit (c_str g) (m_time e)).
      replace (_ <? 64) with true by lia. reflexivity. }
    destruct Hi as [t Hi]. exists (t ++ t'). intros T s'. cbn [format_items].
    rewrite (bind_done _ _ _ _ _ (Hi _ _)), (bind_done _ _ _ _ _ (IH _ _)). reflexivity. }
  destruct Hf as [t Hf]. unfold text, format. by rewrite !Hf.
Qed.

(** What one appender does with an event: its sink, and the text on standard output. *)
Definition enabled (level : Level) (x : LogAppender) : bool := level_val (a_level x) <=? level_val level.
Definition written (n : string) (level : Level) (e : LogEvent) (x : LogAppender) : LogAppender :=
  let t := match a_formatter x with Some f => text f n level e | None => "" end in
  match a_sink x with
  | File f st last =>
      if negb (enabled level x) then x else
      let stale := m_time e >=? u64 (last + 3) in
      with_a_sink (File f ((λ w, w ++ t) <$> (if stale then reopened openable f else st)) (if stale then m_time e else last)) x
  | Stdout => x
  end.
Definition shown (n : string) (level : Level) (e : LogEvent) (x : LogAppender) : string :=
  match a_sink x, a_formatter x with Stdout, Some f => if enabled level x then text f n level e else "" | _, _ => "" end.

Lemma format_event_ok s x f le level e : a_formatter x = Some f → loggers s !! m_logger e = Some le →
  format_event strftime x level e s = Done s (text f (l_name le) level e).
Proof.
  intros Hf Hle. unfold format_event. rewrite Hf. erewrite bind_done by reflexivity. run_logger. by apply format_ok.
Qed.
Lemma appender_log_ok s a x f le level e : appenders s !! a = Some x → a_formatter x = Some f → loggers s !! m_logger e = Some le →
  appender_log a level e s = Done (mkLogs (loggers s) (<[a := written (l_name le) level e x]> (appenders s)) (next s) (m_loggers s) (m_root s)
    (cout s ++ shown (l_name le) level e x)) ().
Proof.
  intros Hx Hf Hle. unfold Log.appender_log. run_appender. unfold written, shown, enabled. rewrite Hf.
  destruct (level_val level >=? level_val (a_level x)) eqn:Hl.
  2: { replace (_ <=? _) with false by lia. cbn [negb]. replace (match a_sink x with Stdout => _ | File _ _ _ => _ end) with x by by destruct (a_sink x).
       replace (match a_sink x with Stdout => _ | File _ _ _ => _ end) with "" by by destruct (a_sink x).
       rewrite str_app_nil_r, insert_id by done. by destruct s. }
  replace (_ <=? _) with true by lia. cbn [negb]. destruct x as [lv fm hf [|file st last]] eqn:Ex; cbn [a_sink a_formatter] in *; subst fm.
  - rewrite insert_id by done. erewrite bind_done by by apply format_event_ok. by destruct s.
  - destruct (m_time e >=? u64 (last + 3)) eqn:Ht.
    + erewrite bind_done.
      2: { unfold reopen. erewrite bind_done; [|run_appender; cbn [a_sink]; run_now; reflexivity]. run_appender. cbn [a_sink with_a_sink]. reflexivity. }
      run_appender. erewrite bind_done by by apply format_event_ok. cbn [a_sink]. unfold put_appender, modify, set_appenders. cbn.
      rewrite !insert_insert_eq, str_app_nil_r. done.
    + erewrite bind_done by reflexivity. run_appender. erewrite bind_done by by apply format_event_ok. cbn [a_sink]. unfold put_appender, modify, set_appenders. cbn.
      rewrite str_app_nil_r. done.
Qed.

(** The text a list of appenders shows, in order. *)
Definition shown_all (n : string) (level : Level) (e : LogEvent) (m : gmap Z LogAppender) (l : list Z) : string :=
  foldr (λ a acc, match m !! a with Some x => shown n level e x | None => "" end ++ acc) "" l.
Lemma shown_all_ext n level e m m' l : (∀ a, a ∈ l → m !! a = m' !! a) → shown_all n level e m l = shown_all n level e m' l.
Proof.
  induction l as [|a l IH]; intros H; [done|]. unfold shown_all in *. cbn.
  rewrite (H a) by by left. f_equal. apply IH. intros b Hb. apply H. by right.
Qed.

(** The state after the event went to the appenders [l]. *)
Definition logged (n : string) (level : Level) (e : LogEvent) (l : list Z) (s s' : Logs) : Prop :=
  loggers s' = loggers s ∧ m_loggers s' = m_loggers s ∧ m_root s' = m_root s ∧ next s' = next s ∧
  cout s' = cout s ++ shown_all n level e (appenders s) l ∧
  ∀ a, appenders s' !! a = (if decide (a ∈ l) then written n level e else id) <$> appenders s !! a.
Lemma fmap_id_option {A} (o : option A) : id <$> o = o.
Proof. by destruct o. Qed.
Lemma logged_nil n level e s : logged n level e [] s s.
Proof.
  repeat split. { by rewrite str_app_nil_r. }
  intros a. rewrite decide_False by apply not_elem_of_nil. by rewrite fmap_id_option.
Qed.
Lemma log_all_ok l level e le : NoDup l → ∀ s, loggers s !! m_logger e = Some le →
  (∀ a, a ∈ l → ∃ x, appenders s !! a = Some x ∧ is_Some (a_formatter x)) →
  ∃ s', log_all l level e s = Done s' () ∧ logged (l_name le) level e l s s'.
Proof.
  induction 1 as [|a l Ha Hnd IH]; intros s Hle Happ; [eexists; split; [done|apply logged_nil]|].
  destruct (Happ a ltac:(by left)) as (x & Hx & f & Hf). cbn [Log.log_all].
  rewrite (bind_done _ _ _ _ _ (appender_log_ok s a x f le level e Hx Hf Hle)).
  edestruct IH as (s' & Hr & H1 & H2 & H3 & H4 & H5 & H6); [| |exists s'; split; [exact Hr|]].
  - done.
  - cbn. intros b Hb. rewrite lookup_insert_ne by (intros ->; done). apply Happ. by right.
  - cbn [loggers m_loggers m_root next cout appenders] in *. do 4 (split; [done|]). split.
    + rewrite H5, str_app_assoc. f_equal. unfold shown_all at 2. cbn [foldr]. rewrite Hx. f_equal.
      apply shown_all_ext. intros b Hb. by rewrite lookup_insert_ne by (intros ->; done).
    + intros b. rewrite H6. destruct (decide (b = a)) as [->|Hne].
      * rewrite lookup_insert_eq, Hx, decide_False, decide_True; [done|by left|done].
      * rewrite lookup_insert_ne by done. destruct (decide (b ∈ l)) as [Hb|Hb].
        -- by rewrite decide_True by by right.
        -- rewrite decide_False; [done|]. by intros [->|?]%elem_of_cons.
Qed.

(** The appenders an event of a level reaches through a logger. *)
Definition own_targets (level : Level) (lg : Logger) : list Z :=
  if level_val (l_level lg) <=? level_val level then l_appenders lg else [].
Definition targets (s : Logs) (a : Z) (level : Level) : list Z :=
  match loggers s !! a with
  | Some lg =>
      if bool_decide (l_appenders lg = []) && (level_val (l_level lg) <=? level_val level)
      then match loggers s !! m_root s with Some r => own_targets level r | None => [] end
      else own_targets level lg
  | None => []
  end.

Lemma log_ok s a lg le level e : wf s → loggers s !! a = Some lg → loggers s !! m_logger e = Some le →
  ∃ s', log strftime openable a level e s = Done s' () ∧ logged (l_name le) level e (targets s a level) s s'.
Proof.
  intros Hwf Ha Hle. destruct (wf_root s Hwf) as [r Hr]. unfold log. cbn [log_fuel]. run_logger. unfold targets. rewrite Ha, Hr.
  destruct (wf_logger s Hwf a lg Ha) as (_ & _ & Hnd & Hroot). destruct (wf_logger s Hwf _ r Hr) as (_ & _ & Hndr & Hroot').
  rewrite decide_True in Hroot' by done. unfold own_targets.
  destruct (level_val level >=? level_val (l_level lg)) eqn:Hl.
  2: { replace (_ <=? level_val level) with false by lia. rewrite andb_false_r. eexists. split; [done|apply logged_nil]. }
  replace (level_val (l_level lg) <=? level_val level) with true by lia. rewrite andb_true_r.
  destruct (l_appenders lg) as [|i ids] eqn:Hap.
  - rewrite bool_decide_true by done. rewrite Hroot. destruct (decide (a = m_root s)) as [->|Hne].
    + replace r with lg by congruence. rewrite Hap. eexists. split; [done|]. case_match; apply logged_nil.
    + run_logger. rewrite Hroot'. destruct (level_val level >=? level_val (l_level r)) eqn:Hlr.
      * replace (_ <=? level_val level) with true by lia. destruct (l_appenders r) as [|j ids] eqn:Hapr.
        -- eexists. split; [done|apply logged_nil].
        -- apply log_all_ok; [done|done|]. intros b Hb. eapply (wf_appender s Hwf); [exact Hr|by rewrite Hapr].
      * replace (_ <=? level_val level) with false by lia. eexists. split; [done|apply logged_nil].
  - rewrite bool_decide_false by done. destruct (l_root lg); (apply log_all_ok; [done|done|]);
      intros b Hb; (eapply (wf_appender s Hwf); [exact Ha|by rewrite Hap]).
Qed.

Lemma logged_wf n level e l s s' : wf s → logged n level e l s s' → wf s'.
Proof.
  intros Hwf (H1 & H2 & H3 & H4 & _ & H6). split; rewrite ?H1, ?H2, ?H3, ?H4; try apply Hwf.
  - intros a lg x Ha Hx. destruct (wf_appender s Hwf a lg x Ha Hx) as (ap & Hap & Hf). rewrite H6, Hap. eexists. split; [done|].
    destruct (decide _); [|done]. unfold written. destruct (a_sink ap); [done|]. by case_match.
  - intros x ap Hx. rewrite H6 in Hx. destruct (appenders s !! x) as [ap'|] eqn:Hap; [|done]. by eapply (wf_next s Hwf).
Qed.
End delivery.

(** where a log line goes.  An event whose level is below the logger's goes
    nowhere; otherwise it is handed, in order, to the logger's appenders, or when it
    has none to the root logger's, which are subject to the root's level.  Each
    appender whose own level allows it adds the formatted text: to standard output,
    or to its file - but a file last opened three or more seconds before the event is
    opened again, which empties it, so that of the earlier lines none remains.
    Nothing else changes, and the invariant of the loggers is kept. *)
Theorem log_dispatch_spec strftime openable s a lg le level e : times_fit strftime → wf s →
  loggers s !! a = Some lg → loggers s !! m_logger e = Some le →
  (level_val level < level_val (l_level lg) → log strftime openable a level e s = Done s () ∧
    LOG_LEVEL strftime openable a level e s = Done s ()) ∧
  ∃ s', log strftime openable a level e s = Done s' () ∧ wf s' ∧ loggers s' = loggers s ∧
    cout s' = cout s ++ shown_all strftime (l_name le) level e (appenders s) (targets s a level) ∧
    (∀ x ap, appenders s !! x = Some ap → x ∉ targets s a level ∨ enabled level ap = false → appenders s' !! x = Some ap) ∧
    (∀ x ap p st last f, appenders s !! x = Some ap → x ∈ targets s a level → enabled level ap = true →
      a_sink ap = File p st last → a_formatter ap = Some f →
      let line := text strftime f (l_name le) level e in
      appenders s' !! x = Some (with_a_sink (
        if m_time e <? u64 (last + 3) then File p ((λ w, w ++ line) <$> st) last
        else File p (if openable p then Some line else None) (m_time e)) ap)).
Proof.
  intros Hfit Hwf Ha Hle. split.
  - intros Hlv. split.
    + unfold log. cbn [log_fuel]. run_logger. by replace (_ >=? _) with false by lia.
    + unfold LOG_LEVEL. run_logger. by replace (_ <=? _) with false by lia.
  - destruct (log_ok strftime openable Hfit s a lg le level e Hwf Ha Hle) as (s' & Hr & Hlog).
    exists s'. split; [done|]. split; [by eapply logged_wf|]. destruct Hlog as (H1 & _ & _ & _ & H5 & H6).
    split; [done|]. split; [done|]. split.
    + intros x ap Hx Hno. rewrite H6, Hx. destruct (decide _) as [Hin|Hin]; [|done]. destruct Hno as [?|Hen]; [done|].
      cbn. f_equal. unfold written. rewrite Hen. by destruct (a_sink ap).
    + intros x ap p st last f Hx Hin Hen Hs Hf line. rewrite H6, Hx, decide_True by done. cbn. f_equal.
      unfold written. rewrite Hs, Hen, Hf. cbn [negb]. unfold reopened. destruct (m_time e >=? u64 (last + 3)) eqn:Ht.
      * replace (_ <? _) with false by lia. by destruct (openable p).
      * by replace (_ <? _) with true by lia.
Qed.

(** ** A change of the configuration *)
Section conf.
Context (strftime : string → Z → string) (openable : string → bool).

Definition named (s : Logs) (n : string) : option Logger := m_loggers s !! n ≫= λ a, loggers s !! a.
Definition formatter_before (s : Logs) (n : string) : option LogFormatter :=
  match named s n with Some lg => l_formatter lg | None => Some (LogFormatter_new default_format) end.
(** The pattern is given and has no error. *)
Definition usable (pattern : string) : bool := negb (is_empty pattern) && negb (m_error (LogFormatter_new pattern)).

(** An appender as a definition says. *)
Definition built (lf : option LogFormatter) (d : LogAppenderDefine) (x : LogAppender) : Prop :=
  a_level x = d_level d ∧ m_hasFormatter x = usable (d_formatter d) ∧
  a_formatter x = (if usable (d_formatter d) then Some (LogFormatter_new (d_formatter d)) else lf) ∧
  a_sink x = (if d_type d =? 1 then File (d_file d) (reopened openable (d_file d)) 0 else Stdout).
(** A logger as a definition says, that had the formatter [before]. *)
Definition configured (s : Logs) (before : option LogFormatter) (d : LogDefine) (lg : Logger) : Prop :=
  l_name lg = name d ∧ l_level lg = level d ∧
  l_formatter lg = (if usable (formatter d) then Some (LogFormatter_new (formatter d)) else before) ∧
  Forall2 (λ a i, ∃ x, appenders s !! i = Some x ∧ built (l_formatter lg) a x) (def_appenders d) (l_appenders lg).
Definition types_ok (d : LogDefine) : Prop := Forall (λ a, d_type a = 1 ∨ d_type a = 2) (def_appenders d).

(** A logger is left alone, with its appenders. *)
Definition stable (n : string) (s s' : Logs) : Prop :=
  named s' n = named s n ∧ ∀ lg x, named s n = Some lg → x ∈ l_appenders lg → appenders s' !! x = appenders s !! x.
Lemma stable_trans n s1 s2 s3 : stable n s1 s2 → stable n s2 s3 → stable n s1 s3.
Proof.
  intros [H1 H2] [H3 H4]. split; [congruence|]. intros lg x Hn Hx. rewrite <-(H2 lg x), <-(H4 lg x); try done; congruence.
Qed.
Lemma configured_stable s s' before d lg n : stable n s s' → named s n = Some lg → configured s before d lg → configured s' before d lg.
Proof.
  intros [_ Hst] Hn (H1 & H2 & H3 & H4). do 3 (split; [done|]). assert (Hin : ∀ x, x ∈ l_appenders lg → appenders s' !! x = appenders s !! x) by eauto.
  revert Hin. induction H4 as [|a i la li Hai _ IH]; intros Hin; constructor.
  - rewrite Hin by by left. exact Hai.
  - apply IH. intros x Hx. apply Hin. by right.
Qed.

Lemma getLogger_ok s n : wf s → ∃ s' a lg, getLogger n s = Done s' a ∧ wf s' ∧ m_loggers s' !! n = Some a ∧ loggers s' !! a = Some lg ∧
  l_name lg = n ∧ l_formatter lg = formatter_before s n ∧ m_root s' = m_root s ∧ appenders s' = appenders s ∧
  (∀ m, m ≠ n → named s' m = named s m).
Proof.
  intros Hwf. unfold getLogger, formatter_before. erewrite bind_done by reflexivity.
  destruct (m_loggers s !! n) as [a|] eqn:Hn.
  { destruct (wf_name s Hwf n a Hn) as (lg & Ha & Hlg). exists s, a, lg. unfold named. rewrite Hn. cbn. rewrite Ha. done. }
  eexists _, (next s), _. split; [reflexivity|]. cbn.
  assert (Hfresh : loggers s !! next s = None).
  { destruct (loggers s !! next s) as [lg|] eqn:H; [|done]. apply (wf_logger s Hwf) in H. lia. }
  assert (Hroot : m_root s ≠ next s) by (intros H; destruct (wf_root s Hwf) as [? Hr]; congruence).
  split; [split; cbn|].
  - rewrite lookup_insert_ne by done. apply Hwf.
  - intros a lg Ha. destruct (decide (a = next s)) as [->|Hne].
    + rewrite lookup_insert_eq in Ha. injection Ha as <-. cbn. rewrite decide_False by done. split; [lia|]. split; [done|]. by split; [constructor|].
    + rewrite lookup_insert_ne in Ha by done. apply (wf_logger s Hwf) in Ha as (? & ?). by split; [lia|].
  - intros a lg x Ha Hx. destruct (decide (a = next s)) as [->|Hne].
    + rewrite lookup_insert_eq in Ha. injection Ha as <-. by apply elem_of_nil in Hx.
    + rewrite lookup_insert_ne in Ha by done. by eapply (wf_appender s Hwf).
  - intros x ap Hx. apply (wf_next s Hwf) in Hx. lia.
  - intros m a. destruct (decide (m = n)) as [->|Hne].
    + rewrite lookup_insert_eq. intros [= <-]. rewrite lookup_insert_eq. by eexists.
    + rewrite lookup_insert_ne by done. intros Hm. destruct (wf_name s Hwf m a Hm) as (lg & Ha & Hlg).
      exists lg. rewrite lookup_insert_ne; [done|]. intros <-. congruence.
  - intros a b lg lg' x Ha Hb Hx Hx'.
    destruct (decide (a = next s)) as [->|Hna]; [rewrite lookup_insert_eq in Ha; injection Ha as <-; by apply elem_of_nil in Hx|].
    destruct (decide (b = next s)) as [->|Hnb]; [rewrite lookup_insert_eq in Hb; injection Hb as <-; by apply elem_of_nil in Hx'|].
    rewrite lookup_insert_ne in Ha, Hb by done. by eapply (wf_own s Hwf).
  - rewrite !lookup_insert_eq. split; [done|]. split; [reflexivity|]. split; [done|]. unfold named. rewrite Hn. do 3 (split; [done|]).
    intros m Hm. cbn. rewrite lookup_insert_ne by done. destruct (m_loggers s !! m) as [a|] eqn:Hma; [|done]. cbn.
    destruct (wf_name s Hwf m a Hma) as (lg & Ha & _). rewrite lookup_insert_ne; [done|]. intros <-. congruence.
Qed.

(** The appender a definition makes for a logger with the formatter [lf]. *)
Definition made (lf : option LogFormatter) (d : LogAppenderDefine) : LogAppender :=
  mkLogAppender (d_level d) (if usable (d_formatter d) then Some (LogFormatter_new (d_formatter d)) else lf) (usable (d_formatter d))
    (if d_type d =? 1 then File (d_file d) (reopened openable (d_file d)) 0 else Stdout).
Definition with_made (a : Z) (lg : Logger) (d : LogAppenderDefine) (s : Logs) : Logs :=
  mkLogs (<[a := with_appenders (l_appenders lg ++ [next s])%list lg]> (loggers s)) (<[next s := made (l_formatter lg) d]> (appenders s))
    (next s + 1) (m_loggers s) (m_root s) (cout s).

Lemma make_appender_eq s a lg d : loggers s !! a = Some lg → d_type d = 1 ∨ d_type d = 2 →
  make_appender openable a d s = Done (with_made a lg d s) ().
Proof.
  intros Ha Ht. unfold make_appender, with_made, made.
  pose (sink := if d_type d =? 1 then File (d_file d) (reopened openable (d_file d)) 0 else Stdout). fold sink.
  assert (Hnew : (if d_type d =? 1 then FileLogAppender_new openable (d_file d) else if d_type d =? 2 then StdoutLogAppender_new else undef NullDeref) s =
    Done (mkLogs (loggers s) (<[next s := mkLogAppender DEBUG None false sink]> (appenders s)) (next s + 1) (m_loggers s) (m_root s) (cout s)) (next s)).
  { subst sink. destruct Ht as [-> | ->]; [|reflexivity]. change (1 =? 1) with true. cbv iota. unfold FileLogAppender_new. erewrite bind_done by reflexivity.
    erewrite bind_done; [|unfold reopen; run_appender; cbn [a_sink]; reflexivity]. cbn. unfold set_appenders. cbn. by rewrite insert_insert_eq. }
  run Hnew. unfold LogAppender_setLevel. erewrite bind_done; [|run_appender; reflexivity].
  cbn [loggers appenders next m_loggers m_root cout set_appenders with_a_level]. rewrite insert_insert_eq.
  set (f := if usable (d_formatter d) then Some (LogFormatter_new (d_formatter d)) else None).
  erewrite (bind_done _ _ _ (mkLogs (loggers s) (<[next s := mkLogAppender (d_level d) f (usable (d_formatter d)) sink]> (appenders s))
    (next s + 1) (m_loggers s) (m_root s) (cout s)) ()).
  - unfold addAppender. run_logger. run_appender. cbn [a_formatter]. subst f. destruct (usable (d_formatter d)).
    + reflexivity.
    + erewrite bind_done by reflexivity. unfold put_logger, modify, set_loggers, set_appenders. cbn. by rewrite insert_insert_eq.
  - subst f. unfold usable. destruct (is_empty (d_formatter d)); [done|]. destruct (m_error (LogFormatter_new (d_formatter d))) eqn:He; [done|].
    unfold LogAppender_setFormatter. run_appender. cbn. unfold put_appender, modify, set_appenders. cbn. by rewrite insert_insert_eq.
Qed.

Lemma with_made_wf s a lg d : wf s → loggers s !! a = Some lg → wf (with_made a lg d s).
Proof.
  intros Hwf Ha. unfold with_made.
  assert (Hfresh : ∀ b lg', loggers s !! b = Some lg' → next s ∉ l_appenders lg').
  { intros b lg' Hb Hin. destruct (wf_appender s Hwf b lg' _ Hb Hin) as (ap & Hap & _). apply (wf_next s Hwf) in Hap. lia. }
  assert (Hnew : ∀ b lg', <[a := with_appenders (l_appenders lg ++ [next s])%list lg]> (loggers s) !! b = Some lg' →
    ∃ lg0, loggers s !! b = Some lg0 ∧ l_name lg' = l_name lg0 ∧ l_formatter lg' = l_formatter lg0 ∧ l_root lg' = l_root lg0 ∧
      l_appenders lg' = (l_appenders lg0 ++ if decide (b = a) then [next s] else [])%list).
  { intros b lg'. destruct (decide (b = a)) as [->|Hne].
    - rewrite lookup_insert_eq. intros [= <-]. by exists lg.
    - rewrite lookup_insert_ne by done. intros Hb. exists lg'. by rewrite app_nil_r. }
  split; cbn [loggers appenders next m_loggers m_root].
  - destruct (wf_root s Hwf) as [r Hr]. destruct (decide (m_root s = a)) as [->|Hne]; [rewrite lookup_insert_eq; by eexists|].
    rewrite lookup_insert_ne by done. by eexists.
  - intros b lg' (lg0 & Hb & H1 & H2 & H3 & H4)%Hnew. pose proof (Hfresh _ _ Hb) as Hni. destruct (wf_logger s Hwf b lg0 Hb) as (? & ? & ? & ?).
    split; [lia|]. rewrite H2, H3, H4. split; [done|]. split; [|done]. destruct (decide (b = a)); [|by rewrite app_nil_r].
    apply NoDup_app. split; [done|]. split; [|apply NoDup_singleton]. intros x Hx ->%list_elem_of_singleton. done.
  - intros b lg' x (lg0 & Hb & H1 & H2 & H3 & H4)%Hnew. rewrite H4. intros [Hx|Hx]%elem_of_app.
    + destruct (wf_appender s Hwf b lg0 x Hb Hx) as (ap & Hap & Hf). exists ap. split; [|done]. rewrite lookup_insert_ne; [done|].
      intros <-. by apply (Hfresh _ _ Hb).
    + destruct (decide (b = a)) as [->|]; [|by apply elem_of_nil in Hx]. apply list_elem_of_singleton in Hx as ->.
      rewrite lookup_insert_eq. eexists. split; [done|]. unfold made. cbn. destruct (usable _); [done|]. by apply (wf_logger s Hwf a lg Ha).
  - intros x ap. destruct (decide (x = next s)) as [->|Hne]; [lia|]. rewrite lookup_insert_ne by done. intros Hx%(wf_next s Hwf). lia.
  - intros n b Hb. destruct (wf_name s Hwf n b Hb) as (lg0 & Hl & Hn). destruct (decide (b = a)) as [->|Hne].
    + rewrite lookup_insert_eq. eexists. split; [done|]. cbn. congruence.
    + rewrite lookup_insert_ne by done. by exists lg0.
  - intros b c lg1 lg2 x (l1 & Hb & _ & _ & _ & Hl1)%Hnew (l2 & Hc & _ & _ & _ & Hl2)%Hnew. rewrite Hl1, Hl2, !elem_of_app.
    pose proof (Hfresh _ _ Hb). pose proof (Hfresh _ _ Hc).
    intros [Hx|Hx] [Hy|Hy].
    + by eapply (wf_own s Hwf).
    + destruct (decide (c = a)); [|by apply elem_of_nil in Hy]. by apply list_elem_of_singleton in Hy as ->.
    + destruct (decide (b = a)); [|by apply elem_of_nil in Hx]. by apply list_elem_of_singleton in Hx as ->.
    + destruct (decide (b = a)), (decide (c = a)); subst; try done; by (apply elem_of_nil in Hx || apply elem_of_nil in Hy).
Qed.

Lemma make_appenders_ok a l : ∀ s lg, wf s → loggers s !! a = Some lg → Forall (λ d, d_type d = 1 ∨ d_type d = 2) l →
  ∃ s' ids, make_appenders openable a l s = Done s' () ∧ wf s' ∧
    loggers s' = <[a := with_appenders (l_appenders lg ++ ids)%list lg]> (loggers s) ∧
    (∀ x, is_Some (appenders s !! x) → appenders s' !! x = appenders s !! x) ∧
    Forall2 (λ d i, ∃ x, appenders s' !! i = Some x ∧ built (l_formatter lg) d x) l ids ∧
    m_loggers s' = m_loggers s ∧ m_root s' = m_root s.
Proof.
  induction l as [|d l IH]; intros s lg Hwf Ha Hts.
  { exists s, []. rewrite app_nil_r. split; [done|]. split; [done|]. split; [|done]. rewrite insert_id; [done|]. rewrite Ha. by destruct lg. }
  apply Forall_cons in Hts as [Ht Hts]. cbn [make_appenders]. run (make_appender_eq s a lg d Ha Ht).
  destruct (IH (with_made a lg d s) (with_appenders (l_appenders lg ++ [next s])%list lg)) as (s' & ids & Hr & Hw & Hl & Hx & Hf & Hn & Hm);
    [by apply with_made_wf|apply lookup_insert_eq|done|].
  assert (Hkeep : ∀ x, is_Some (appenders s !! x) → x ≠ next s) by (intros x [ap Hap] ->; apply (wf_next s Hwf) in Hap; lia).
  exists s', (next s :: ids). split; [done|]. split; [done|]. cbn in Hl, Hx, Hn, Hm. split; [|split; [|split; [|done]]].
  - rewrite Hl, insert_insert_eq. unfold with_appenders. cbn. by rewrite <-app_assoc.
  - intros x Hs. rewrite Hx; rewrite lookup_insert_ne by (intros <-; by eapply Hkeep); done.
  - constructor; [|exact Hf]. exists (made (l_formatter lg) d). rewrite Hx; rewrite lookup_insert_eq; [|by eexists]. split; [done|]. done.
Qed.

Lemma inherit_ok val l : ∀ s, (∀ x, x ∈ l → is_Some (appenders s !! x)) → ∃ s', inherit val l s = Done s' () ∧
  loggers s' = loggers s ∧ m_loggers s' = m_loggers s ∧ m_root s' = m_root s ∧ next s' = next s ∧
  (∀ x, x ∉ l → appenders s' !! x = appenders s !! x) ∧ ∀ x, is_Some (appenders s' !! x) ↔ is_Some (appenders s !! x).
Proof.
  induction l as [|i l IH]; intros s Hl; [by exists s|]. destruct (Hl i ltac:(by left)) as [x Hx]. cbn [inherit].
  erewrite bind_done; [|by apply appender_at_ok].
  set (s1 := if negb (m_hasFormatter x) then set_appenders (<[i := with_a_formatter val x]> (appenders s)) s else s).
  assert (Hdom : ∀ y, is_Some (appenders s1 !! y) ↔ is_Some (appenders s !! y)).
  { intros y. subst s1. destruct (negb _); [|done]. cbn. destruct (decide (y = i)) as [->|Hne]; [|by rewrite lookup_insert_ne].
    rewrite lookup_insert_eq, Hx. by split; eexists. }
  destruct (IH s1) as (s' & Hr & H1 & H2 & H3 & H4 & H5 & H6).
  { intros y Hy. apply Hdom, Hl. by right. }
  exists s'. split.
  { rewrite (bind_done _ _ _ s1 ()); [done|]. subst s1. by destruct (negb _). }
  assert (Hs1 : loggers s1 = loggers s ∧ m_loggers s1 = m_loggers s ∧ m_root s1 = m_root s ∧ next s1 = next s) by (subst s1; by destruct (negb _)).
  destruct Hs1 as (E1 & E2 & E3 & E4). rewrite H1, H2, H3, H4. do 4 (split; [done|]). split.
  - intros y [Hy Hyl]%not_elem_of_cons. rewrite H5 by done. subst s1. destruct (negb _); [|done]. cbn. by rewrite lookup_insert_ne.
  - intros y. by rewrite H6.
Qed.

(** Logger [a], a record [lg] in [s], has become [lg'] without appenders in [s']. *)
Record cleared (a : Z) (lg lg' : Logger) (s s' : Logs) : Prop := {
  cl_loggers : loggers s' = <[a := lg']> (loggers s);
  cl_names : m_loggers s' = m_loggers s; cl_root : m_root s' = m_root s; cl_next : next s' = next s;
  cl_name : l_name lg' = l_name lg; cl_lroot : l_root lg' = l_root lg; cl_formatter : is_Some (l_formatter lg'); cl_none : l_appenders lg' = [];
  cl_keep : ∀ x, x ∉ l_appenders lg → appenders s' !! x = appenders s !! x;
  cl_dom : ∀ x, is_Some (appenders s' !! x) ↔ is_Some (appenders s !! x)
}.
Lemma cleared_wf a lg lg' s s' : wf s → loggers s !! a = Some lg → cleared a lg lg' s s' →
  wf s' ∧ loggers s' !! a = Some lg' ∧ ∀ n, n ≠ l_name lg → stable n s s'.
Proof.
  intros Hwf Ha [Hl Hn Hr Hx Hnm Hrt Hf Hno Hk Hd].
  assert (Hne : ∀ b lb x, loggers s !! b = Some lb → b ≠ a → x ∈ l_appenders lb → x ∉ l_appenders lg).
  { intros b lb x Hb Hba Hi Hi'. by apply Hba, (wf_own s Hwf b a lb lg x). }
  split; [split; rewrite ?Hl, ?Hn, ?Hr, ?Hx|split].
  - destruct (decide (m_root s = a)) as [->|Hra]; [rewrite lookup_insert_eq; by eexists|]. rewrite lookup_insert_ne by done. apply Hwf.
  - intros b lb. destruct (decide (b = a)) as [->|Hba]; [|rewrite lookup_insert_ne by done; apply Hwf].
    rewrite lookup_insert_eq. intros [= <-]. destruct (wf_logger s Hwf a lg Ha) as (? & _ & _ & ?). rewrite Hno, Hrt. by split; [|split; [|split; [constructor|]]].
  - intros b lb x. destruct (decide (b = a)) as [->|Hba].
    + rewrite lookup_insert_eq. intros [= <-]. rewrite Hno. by intros ?%elem_of_nil.
    + rewrite lookup_insert_ne by done. intros Hb Hi. rewrite Hk by (by eapply Hne). by eapply (wf_appender s Hwf).
  - intros x ap Hap. assert (is_Some (appenders s !! x)) as [ap' Hap'] by (apply Hd; by eexists). by eapply (wf_next s Hwf).
  - intros n b Hb. destruct (wf_name s Hwf n b Hb) as (lb & Hlb & Hlbn). destruct (decide (b = a)) as [->|Hba].
    + rewrite lookup_insert_eq. exists lg'. split; [done|]. congruence.
    + rewrite lookup_insert_ne by done. by exists lb.
  - intros b c lb lc x. destruct (decide (b = a)) as [->|Hba]; [rewrite lookup_insert_eq; intros [= <-] _; rewrite Hno; by intros ?%elem_of_nil|].
    destruct (decide (c = a)) as [->|Hca]; [rewrite lookup_insert_eq; intros _ [= <-] _; rewrite Hno; by intros ?%elem_of_nil|].
    rewrite !lookup_insert_ne by done. apply Hwf.
  - rewrite Hl. apply lookup_insert_eq.
  - intros n Hnn. assert (Hother : ∀ b, m_loggers s !! n = Some b → b ≠ a).
    { intros b Hb ->. destruct (wf_name s Hwf n a Hb) as (lb & Hlb & Hlbn). congruence. }
    split.
    + unfold named. rewrite Hn, Hl. destruct (m_loggers s !! n) as [b|] eqn:Hb; [|done]. cbn. by rewrite lookup_insert_ne by (intros <-; by eapply Hother).
    + intros lb x Hb Hi. unfold named in Hb. destruct (m_loggers s !! n) as [b|] eqn:Hbn; [|done]. cbn in Hb. apply Hk.
      eapply Hne; [exact Hb|by eapply Hother|done].
Qed.

Lemma with_level_wf s a lg v : wf s → loggers s !! a = Some lg → wf (set_loggers (<[a := with_level v lg]> (loggers s)) s).
Proof.
  intros Hwf Ha. assert (Hnew : ∀ b lb, <[a := with_level v lg]> (loggers s) !! b = Some lb → ∃ l0, loggers s !! b = Some l0 ∧ l_name lb = l_name l0 ∧
    l_appenders lb = l_appenders l0 ∧ l_formatter lb = l_formatter l0 ∧ l_root lb = l_root l0).
  { intros b lb. destruct (decide (b = a)) as [->|]; [rewrite lookup_insert_eq; intros [= <-]; by exists lg|].
    rewrite lookup_insert_ne by done. by exists lb. }
  split; cbn [m_root next appenders m_loggers loggers set_loggers].
  - destruct (decide (m_root s = a)) as [->|]; [rewrite lookup_insert_eq; by eexists|]. rewrite lookup_insert_ne by done. apply Hwf.
  - intros b lb (l0 & Hb & _ & -> & -> & ->)%Hnew. by apply (wf_logger s Hwf).
  - intros b lb x (l0 & Hb & _ & -> & _)%Hnew. by apply (wf_appender s Hwf b).
  - apply (wf_next s Hwf).
  - intros n b Hb. destruct (wf_name s Hwf n b Hb) as (l0 & Hl & <-). destruct (decide (b = a)) as [->|].
    + rewrite lookup_insert_eq. eexists. split; [done|]. cbn. congruence.
    + rewrite lookup_insert_ne by done. by exists l0.
  - intros b c lb lc x (l1 & Hb & _ & -> & _)%Hnew (l2 & Hc & _ & -> & _)%Hnew. by apply (wf_own s Hwf).
Qed.

Lemma setFormatter_string_ok a p : ∀ s lg, wf s → loggers s !! a = Some lg →
  let fmt := if usable p then Some (LogFormatter_new p) else l_formatter lg in
  ∃ s', (if is_empty p then mret () else setFormatter_string a p) s = Done s' () ∧
    loggers s' = <[a := with_formatter fmt lg]> (loggers s) ∧ m_loggers s' = m_loggers s ∧ m_root s' = m_root s ∧ next s' = next s ∧
    (∀ x, x ∉ l_appenders lg → appenders s' !! x = appenders s !! x) ∧ ∀ x, is_Some (appenders s' !! x) ↔ is_Some (appenders s !! x).
Proof.
  intros s lg Hwf Ha. unfold usable. assert (Hid : ∃ s', Done s () = Done s' () ∧
    loggers s' = <[a := with_formatter (l_formatter lg) lg]> (loggers s) ∧ m_loggers s' = m_loggers s ∧ m_root s' = m_root s ∧ next s' = next s ∧
    (∀ x, x ∉ l_appenders lg → appenders s' !! x = appenders s !! x) ∧ ∀ x, is_Some (appenders s' !! x) ↔ is_Some (appenders s !! x)).
  { exists s. split; [done|]. split; [|done]. rewrite insert_id; [done|]. rewrite Ha. by destruct lg. }
  destruct (is_empty p); [exact Hid|]. cbn [negb andb]. unfold setFormatter_string. destruct (m_error (LogFormatter_new p)); [exact Hid|].
  cbn [negb]. unfold setFormatter. run_logger. run_now.
  destruct (inherit_ok (Some (LogFormatter_new p)) (l_appenders lg) (set_loggers (<[a := with_formatter (Some (LogFormatter_new p)) lg]> (loggers s)) s))
    as (s' & Hr & H); [|by exists s'].
  intros x Hx. destruct (wf_appender s Hwf a lg x Ha Hx) as (ap & Hap & _). by exists ap.
Qed.

Lemma configure_ok d s : wf s → types_ok d → ∃ s' lg, configure openable d s = Done s' () ∧ wf s' ∧
  m_root s' = m_root s ∧ named s' (name d) = Some lg ∧ configured s' (formatter_before s (name d)) d lg ∧
  ∀ n, n ≠ name d → stable n s s'.
Proof.
  intros Hwf Hts. destruct (getLogger_ok s (name d) Hwf) as (s1 & a & lg & Hg & Hw1 & Hn1 & Ha & Hnm & Hfb & Hroot & Happ & Hoth).
  unfold configure. run Hg. unfold setLevel. erewrite bind_done; [|run_logger; reflexivity].
  set (s2 := set_loggers _ s1). assert (Ha2 : loggers s2 !! a = Some (with_level (level d) lg)) by apply lookup_insert_eq.
  pose proof (with_level_wf s1 a lg (level d) Hw1 Ha : wf s2) as Hw2.
  destruct (setFormatter_string_ok a (formatter d) s2 _ Hw2 Ha2) as (s3 & H3 & Hl3 & Hn3 & Hr3 & Hx3 & Hk3 & Hd3). run H3.
  cbn [with_level with_formatter l_formatter l_appenders l_name l_level l_root] in *. rewrite Hfb in Hl3.
  set (fmt := if usable (formatter d) then Some (LogFormatter_new (formatter d)) else formatter_before s (name d)) in *.
  assert (Ha3 : loggers s3 !! a = Some (mkLogger (l_name lg) (level d) (l_appenders lg) fmt (l_root lg))) by (rewrite Hl3; apply lookup_insert_eq).
  unfold clearAppenders. erewrite bind_done; [|run_logger; reflexivity]. set (s4 := set_loggers _ s3).
  set (lg4 := mkLogger (l_name lg) (level d) [] fmt (l_root lg)).
  destruct (cleared_wf a lg lg4 s1 s4 Hw1 Ha) as (Hw4 & Ha4 & Hst4).
  { split; try done. - unfold s4. cbn. rewrite Hl3. subst s2. cbn. by rewrite !insert_insert_eq.
    - subst fmt. cbn. case_match; [done|]. rewrite <-Hfb. by apply (wf_logger s1 Hw1 a lg). }
  destruct (make_appenders_ok a (def_appenders d) s4 lg4 Hw4 Ha4 Hts) as (s5 & ids & Hr & Hw5 & Hl5 & Hx5 & Hf5 & Hn5 & Hr5).
  assert (Hna : m_loggers s5 !! name d = Some a) by (rewrite Hn5; unfold s4; cbn; by rewrite Hn3).
  exists s5, (with_appenders ids lg4). split; [exact Hr|]. split; [done|]. split; [|split; [|split]].
  - rewrite Hr5. unfold s4. cbn. rewrite Hr3. exact Hroot.
  - unfold named. rewrite Hna. cbn. by rewrite Hl5, lookup_insert_eq.
  - split; [done|]. split; [done|]. split; [done|]. exact Hf5.
  - intros n Hn. apply (stable_trans n s s1).
    { split; [by apply Hoth|]. intros lb x _ _. by rewrite Happ. }
    apply (stable_trans n s1 s4); [apply Hst4; congruence|]. split.
    + unfold named. rewrite Hn5, Hl5. destruct (m_loggers s4 !! n) as [b|] eqn:Hb; [|done]. cbn.
      rewrite lookup_insert_ne; [done|]. intros <-. destruct (wf_name s4 Hw4 n a Hb) as (lb & Hlb & Hlbn). rewrite Ha4 in Hlb. injection Hlb as <-.
      cbn in Hlbn. congruence.
    + intros lb x Hb Hi. unfold named in Hb. destruct (m_loggers s4 !! n) as [b|] eqn:Hbn; [|done]. cbn in Hb.
      destruct (wf_appender s4 Hw4 b lb x Hb Hi) as (ap & Hap & _). apply Hx5. by eexists.
Qed.

(** The loop body for a removed definition. *)
Lemma remove_ok n s : wf s → ∃ s' lg, (logger ← getLogger n; setLevel logger UNKNOW ;; clearAppenders logger) s = Done s' () ∧ wf s' ∧
  m_root s' = m_root s ∧ named s' n = Some lg ∧ l_level lg = UNKNOW ∧ l_appenders lg = [] ∧ ∀ m, m ≠ n → stable m s s'.
Proof.
  intros Hwf. destruct (getLogger_ok s n Hwf) as (s1 & a & lg & Hg & Hw1 & Hn1 & Ha & Hnm & _ & Hroot & Happ & Hoth).
  run Hg. unfold setLevel. erewrite bind_done; [|run_logger; reflexivity]. unfold clearAppenders. run_logger.
  set (lg' := with_appenders [] (with_level UNKNOW lg)). eexists _, lg'. split; [reflexivity|].
  destruct (cleared_wf a lg lg' s1 (set_loggers (<[a := lg']> (<[a := with_level UNKNOW lg]> (loggers s1))) s1) Hw1 Ha) as (Hw & Ha' & Hst).
  { split; try done; cbn; [by rewrite insert_insert_eq|]. by apply (wf_logger s1 Hw1 a lg). }
  split; [exact Hw|]. split; [exact Hroot|]. split; [|split; [done|split; [done|]]].
  - unfold named. cbn in Ha' |- *. rewrite Hn1. exact Ha'.
  - intros m Hm. apply (stable_trans m s s1); [|by apply Hst; rewrite Hnm]. split; [by apply Hoth|]. intros lb x _ _. by rewrite Happ.
Qed.

Definition changed (d : LogDefine) (old : list LogDefine) : bool :=
  match find_define (name d) old with None => true | Some it => negb (LogDefine_eq d it) end.
Lemma stable_refl n s : stable n s s.
Proof. done. Qed.
Lemma formatter_before_stable n s s' : stable n s s' → formatter_before s' n = formatter_before s n.
Proof. intros [H _]. unfold formatter_before. by rewrite H. Qed.
Lemma find_define_none n l : n ∉ (name <$> l) → find_define n l = None.
Proof.
  unfold find_define. induction l as [|d l IH]; [done|]. rewrite fmap_cons, not_elem_of_cons. intros [Hn Hl]. cbn.
  destruct (String.eqb_spec (name d) n) as [Heq|_]; [by destruct Hn|by apply IH].
Qed.
Lemma find_define_cons n d l : find_define n (d :: l) = if String.eqb (name d) n then Some d else find_define n l.
Proof. done. Qed.

Lemma on_new_ok old l : NoDup (name <$> l) → Forall types_ok l → ∀ s, wf s → ∃ s', on_new openable old l s = Done s' () ∧ wf s' ∧
  m_root s' = m_root s ∧ ∀ n, match find_define n l with
    | Some d => if changed d old then ∃ lg, named s' n = Some lg ∧ configured s' (formatter_before s n) d lg else stable n s s'
    | None => stable n s s' end.
Proof.
  induction l as [|d l IH]; intros Hnd Hts s Hwf; [by exists s|].
  rewrite fmap_cons in Hnd. apply NoDup_cons in Hnd as [Hd Hnd]. apply Forall_cons in Hts as [Ht Hts]. cbn [on_new].
  assert (Hhead : ∃ s1, (match find_define (name d) old with None => configure openable d
      | Some it => if negb (LogDefine_eq d it) then configure openable d else mret () end) s = Done s1 () ∧ wf s1 ∧ m_root s1 = m_root s ∧
      (if changed d old then ∃ lg, named s1 (name d) = Some lg ∧ configured s1 (formatter_before s (name d)) d lg else stable (name d) s s1) ∧
      ∀ n, n ≠ name d → stable n s s1).
  { destruct (configure_ok d s Hwf Ht) as (s1 & lg & Hr & Hw & Hrt & Hn & Hc & Hst). unfold changed.
    destruct (find_define (name d) old) as [it|]; [destruct (negb (LogDefine_eq d it))|]; eexists; (split; [first [exact Hr|reflexivity]|]); eauto 8 using stable_refl. }
  destruct Hhead as (s1 & H1 & Hw1 & Hr1 & Hd1 & Hst1). run H1.
  destruct (IH Hnd Hts s1 Hw1) as (s2 & H2 & Hw2 & Hr2 & Hn2). exists s2. split; [exact H2|]. split; [done|]. split; [congruence|].
  intros n. specialize (Hn2 n). rewrite find_define_cons. destruct (String.eqb_spec (name d) n) as [<-|Hne].
  - rewrite find_define_none in Hn2 by done. destruct (changed d old).
    + destruct Hd1 as (lg & Hlg & Hc). exists lg. split; [by destruct Hn2 as [-> _]|]. by eapply configured_stable.
    + by eapply stable_trans.
  - specialize (Hst1 n ltac:(congruence)). destruct (find_define n l) as [d'|]; [destruct (changed d' old)|].
    + by rewrite <-(formatter_before_stable n s s1).
    + by eapply stable_trans.
    + by eapply stable_trans.
Qed.

Lemma on_removed_ok new l : NoDup (name <$> l) → ∀ s, wf s → ∃ s', on_removed new l s = Done s' () ∧ wf s' ∧ m_root s' = m_root s ∧
  ∀ n, match find_define n l, find_define n new with
    | Some _, None => ∃ lg, named s' n = Some lg ∧ l_level lg = UNKNOW ∧ l_appenders lg = []
    | _, _ => stable n s s' end.
Proof.
  induction l as [|d l IH]; intros Hnd s Hwf; [by exists s|].
  rewrite fmap_cons in Hnd. apply NoDup_cons in Hnd as [Hd Hnd]. cbn [on_removed].
  assert (Hhead : ∃ s1, (match find_define (name d) new with
      | None => logger ← getLogger (name d); setLevel logger UNKNOW ;; clearAppenders logger | Some _ => mret () end) s = Done s1 () ∧ wf s1 ∧
      m_root s1 = m_root s ∧ (match find_define (name d) new with
      | None => ∃ lg, named s1 (name d) = Some lg ∧ l_level lg = UNKNOW ∧ l_appenders lg = [] | Some _ => stable (name d) s s1 end) ∧
      ∀ n, n ≠ name d → stable n s s1).
  { destruct (remove_ok (name d) s Hwf) as (s1 & lg & Hr & Hw & Hrt & Hn & Hl & Ha & Hst).
    destruct (find_define (name d) new) as [it|]; eexists; (split; [first [exact Hr|reflexivity]|]); eauto 8 using stable_refl. }
  destruct Hhead as (s1 & H1 & Hw1 & Hr1 & Hd1 & Hst1). run H1.
  destruct (IH Hnd s1 Hw1) as (s2 & H2 & Hw2 & Hr2 & Hn2). exists s2. split; [exact H2|]. split; [done|]. split; [congruence|].
  intros n. specialize (Hn2 n). rewrite find_define_cons. destruct (String.eqb_spec (name d) n) as [<-|Hne].
  - rewrite find_define_none in Hn2 by done. destruct (find_define (name d) new); [by eapply stable_trans|].
    destruct Hn2 as [-> _]. exact Hd1.
  - specialize (Hst1 n ltac:(congruence)). destruct (find_define n l), (find_define n new); first [by eapply stable_trans|done].
Qed.
End conf.

(** C38: the listener of the "logs" configuration.  For well-formed sets of
    definitions it runs to completion and keeps the invariant.  A definition that is
    new or differs from the old one leaves its logger with exactly the level, the
    formatter (when its pattern is usable) and, one by one, the appenders it says,
    whatever the logger was before; other loggers are untouched.  A definition that
    differs in its appenders only counts as unchanged.  A removed logger gets level
    UNKNOW and no appenders, which does not silence it: its lines of every level go
    to the root logger. *)
Theorem conf_changed_spec strftime openable s here old new : times_fit strftime → wf s →
  NoDup (name <$> old) → NoDup (name <$> new) → Forall types_ok new →
  (∃ s', on_conf_changed strftime openable here old new s = Done s' () ∧ wf s' ∧ ∀ n,
    match find_define n new, find_define n old with
    | Some d, o =>
        if match o with Some it => negb (LogDefine_eq d it) | None => true end
        then ∃ lg, named s' n = Some lg ∧ configured openable s' (formatter_before s n) d lg
        else named s' n = named s n
    | None, Some _ => ∃ a lg, m_loggers s' !! n = Some a ∧ loggers s' !! a = Some lg ∧ l_level lg = UNKNOW ∧ l_appenders lg = [] ∧
        ∀ level, targets s' a level = targets s' (m_root s') level
    | None, None => named s' n = named s n
    end) ∧
  (∀ d apps, LogDefine_eq (mkLogDefine (name d) (level d) (formatter d) apps) d = true).
Proof.
  intros Hfit Hwf Hold Hnew Hts. split.
  2: { intros d apps. unfold LogDefine_eq. cbn. by rewrite !String.eqb_refl, !bool_decide_true. }
  destruct (wf_root s Hwf) as [r Hr].
  assert (H0 : ∃ s0, LOG_LEVEL strftime openable (m_root s) INFO here s = Done s0 () ∧ wf s0 ∧ m_root s0 = m_root s ∧ ∀ n, named s0 n = named s n).
  { unfold LOG_LEVEL. run_logger. case_bool; [|by exists s]. unfold LogEventWrap_destroy. set (ev := mkLogEvent _ _ _ _ _ _ _ _ _ _).
    destruct (log_ok strftime openable Hfit s (m_root s) r r INFO ev Hwf Hr Hr) as (s0 & Hs0 & Hlog). exists s0. split; [done|].
    split; [by eapply logged_wf|]. destruct Hlog as (H1 & H2 & H3 & _). split; [done|]. intros n. unfold named. by rewrite H1, H2. }
  destruct H0 as (s0 & H0 & Hw0 & Hr0 & Hn0). unfold on_conf_changed. erewrite bind_done by reflexivity. run H0.
  destruct (on_new_ok openable old new Hnew Hts s0 Hw0) as (s1 & H1 & Hw1 & Hr1 & Hn1). run H1.
  destruct (on_removed_ok new old Hold s1 Hw1) as (s2 & H2 & Hw2 & Hr2 & Hn2). exists s2. split; [exact H2|]. split; [done|].
  intros n. specialize (Hn1 n). specialize (Hn2 n).
  assert (Hfb : formatter_before s0 n = formatter_before s n) by (unfold formatter_before; by rewrite Hn0).
  destruct (find_define n new) as [d|] eqn:Hd.
  - assert (Hst : stable n s1 s2) by by destruct (find_define n old). assert (Hname : name d = n).
    { unfold find_define in Hd. apply find_some in Hd as [_ Hd]. by apply String.eqb_eq. }
    unfold changed in Hn1. rewrite Hname in Hn1. destruct (match find_define n old with None => true | Some it => negb (LogDefine_eq d it) end).
    + destruct Hn1 as (lg & Hlg & Hc). rewrite <-Hfb. exists lg. split; [by destruct Hst as [-> _]|]. by eapply configured_stable.
    + destruct Hst as [-> _], Hn1 as [-> _]. apply Hn0.
  - destruct (find_define n old) as [o|].
    + destruct Hn2 as (lg & Hlg & Hl & Ha). unfold named in Hlg. destruct (m_loggers s2 !! n) as [a|]; [|done]. cbn in Hlg. exists a, lg.
      do 4 (split; [done|]). intros lv. destruct (wf_root s2 Hw2) as [r2 Hr2']. unfold targets, own_targets. rewrite Hlg, Hr2', Hl, Ha. cbn [level_val].
      rewrite bool_decide_true by done. replace (0 <=? level_val lv) with true by by destruct lv. cbn [andb].
      destruct (bool_decide (l_appenders r2 = []) && _) eqn:E; [done|done].
    + destruct Hn2 as [-> _], Hn1 as [-> _]. apply Hn0.
Qed.

(** ** Witnesses *)
Definition date (f : string) (t : Z) : string := "2024-01-01 12:00:00".
Definition f_msg : LogFormatter := LogFormatter_new "[%p] %m%n".
Definition logs1 : Logs := mkLogs
  {[ 0 := mkLogger "root" DEBUG [1] (Some f_msg) None; 2 := mkLogger "http" WARN [3] (Some f_msg) (Some 0) ]}
  {[ 1 := mkLogAppender DEBUG (Some f_msg) false Stdout; 3 := mkLogAppender DEBUG (Some f_msg) false (File "http.log" (Some "older") 100) ]}
  4 (<["root" := 0]> {[ "http" := 2 ]}) 0 "".
Definition event1 : LogEvent := mkLogEvent "a.cc" 7 0 1 0 120 "main" "hello" 2 ERROR.

Lemma logs1_loggers a lg : loggers logs1 !! a = Some lg →
  (a = 0 ∧ lg = mkLogger "root" DEBUG [1] (Some f_msg) None) ∨ (a = 2 ∧ lg = mkLogger "http" WARN [3] (Some f_msg) (Some 0)).
Proof.
  cbn. intros [[<- <-]|[_ H]]%lookup_insert_Some; [by left|]. apply lookup_singleton_Some in H as [<- <-]. by right.
Qed.
Lemma logs1_wf : wf logs1.
Proof.
  split.
  - by eexists.
  - intros a lg [[-> ->]|[-> ->]]%logs1_loggers; (split; [done|]; split; [by eexists|]; split; [apply NoDup_singleton|done]).
  - intros a lg x [[-> ->]|[-> ->]]%logs1_loggers ->%list_elem_of_singleton; (eexists; split; [reflexivity|by eexists]).
  - cbn. intros x ap [[<- <-]|[_ H]]%lookup_insert_Some; [done|]. by apply lookup_singleton_Some in H as [<- <-].
  - cbn. intros n a [[<- <-]|[_ H]]%lookup_insert_Some; [by eexists|]. apply lookup_singleton_Some in H as [<- <-]. by eexists.
  - intros a b lg lg' x [[-> ->]|[-> ->]]%logs1_loggers [[-> ->]|[-> ->]]%logs1_loggers; try done;
      by intros ->%list_elem_of_singleton ?%list_elem_of_singleton.
Qed.

Lemma log_dispatch_spec_witness : ∃ s', log date (λ _, true) 2 ERROR event1 logs1 = Done s' () ∧ cout s' = "" ∧
  a_sink <$> appenders s' !! 3 = Some (File "http.log" (Some ("[ERROR] hello" ++ String "010" "")) 120).
Proof.
  destruct (log_dispatch_spec date (λ _, true) logs1 2 (mkLogger "http" WARN [3] (Some f_msg) (Some 0)) (mkLogger "http" WARN [3] (Some f_msg) (Some 0)) ERROR event1)
    as (_ & s' & H1 & _ & _ & H2 & _ & H3); [by intros|exact logs1_wf|reflexivity|reflexivity|].
  exists s'. split; [exact H1|]. split; [exact H2|].
  specialize (H3 3 _ "http.log" (Some "older") 100 f_msg eq_refl ltac:(by left) eq_refl eq_refl eq_refl). cbn beta in H3. rewrite H3. vm_compute. reflexivity.
Defined.

Lemma conf_changed_spec_witness : ∃ s', on_conf_changed date (λ _, true) event1 [mkLogDefine "http" WARN "" []]
    [mkLogDefine "db" INFO "%m" [mkLogAppenderDefine 1 UNKNOW "" "db.log"]] logs1 = Done s' () ∧
  (∃ lg, named s' "db" = Some lg ∧ l_level lg = INFO) ∧ ∃ a, m_loggers s' !! "http" = Some a ∧ targets s' a DEBUG = targets s' (m_root s') DEBUG.
Proof.
  destruct (conf_changed_spec date (λ _, true) logs1 event1 [mkLogDefine "http" WARN "" []]
    [mkLogDefine "db" INFO "%m" [mkLogAppenderDefine 1 UNKNOW "" "db.log"]]) as ((s' & H1 & _ & H2) & _);
    [by intros|exact logs1_wf|apply NoDup_singleton|apply NoDup_singleton|repeat constructor|].
  exists s'. split; [exact H1|]. split.
  - destruct (H2 "db") as (lg & Hn & _ & Hl & _). by exists lg.
  - destruct (H2 "http") as (a & lg & Ha & _ & _ & _ & Ht). by exists a.
Defined.
