(* ===== verification/Http11.v ===== *)
(** * Http11 ([webserve/http/http11_parser.cc], [http11_common.h]): the request parser

    The code around the tables of Http11Table: the parser's record, the actions, which
    call back into the user of the parser, [http_parser_execute] and its companions.
    The text handed to one call is the string [buffer]; a position is an offset in it. *)
From S2P Require Import Prelude Text Callbacks Ragel Http11Table.
Open Scope string_scope.
Open Scope Z_scope.

(** [struct http_parser], without [data] and the callbacks. *)
Record http_parser := mkHttpParser {
  cs : Z; body_start : Z; content_len : Z; nread : Z; mark : Z; field_start : Z; field_len : Z; query_start : Z;
  xml_sent : Z; json_sent : Z; uri_relaxed : Z
}.
Definition set_cs v q := mkHttpParser v (body_start q) (content_len q) (nread q) (mark q) (field_start q) (field_len q) (query_start q) (xml_sent q) (json_sent q) (uri_relaxed q).
Definition set_body_start v q := mkHttpParser (cs q) v (content_len q) (nread q) (mark q) (field_start q) (field_len q) (query_start q) (xml_sent q) (json_sent q) (uri_relaxed q).
Definition set_content_len v q := mkHttpParser (cs q) (body_start q) v (nread q) (mark q) (field_start q) (field_len q) (query_start q) (xml_sent q) (json_sent q) (uri_relaxed q).
Definition set_nread v q := mkHttpParser (cs q) (body_start q) (content_len q) v (mark q) (field_start q) (field_len q) (query_start q) (xml_sent q) (json_sent q) (uri_relaxed q).
Definition set_mark v q := mkHttpParser (cs q) (body_start q) (content_len q) (nread q) v (field_start q) (field_len q) (query_start q) (xml_sent q) (json_sent q) (uri_relaxed q).
Definition set_field_start v q := mkHttpParser (cs q) (body_start q) (content_len q) (nread q) (mark q) v (field_len q) (query_start q) (xml_sent q) (json_sent q) (uri_relaxed q).
Definition set_field_len v q := mkHttpParser (cs q) (body_start q) (content_len q) (nread q) (mark q) (field_start q) v (query_start q) (xml_sent q) (json_sent q) (uri_relaxed q).
Definition set_query_start v q := mkHttpParser (cs q) (body_start q) (content_len q) (nread q) (mark q) (field_start q) (field_len q) v (xml_sent q) (json_sent q) (uri_relaxed q).
Definition set_xml_sent v q := mkHttpParser (cs q) (body_start q) (content_len q) (nread q) (mark q) (field_start q) (field_len q) (query_start q) v (json_sent q) (uri_relaxed q).
Definition set_json_sent v q := mkHttpParser (cs q) (body_start q) (content_len q) (nread q) (mark q) (field_start q) (field_len q) (query_start q) (xml_sent q) v (uri_relaxed q).

(** [http_parser_init]: what it does not write keeps the value of the memory. *)
Definition http_parser_init (q : http_parser) : http_parser :=
  mkHttpParser 1 0 0 0 0 0 0 (query_start q) 0 0 (uri_relaxed q).
Definition http_parser_has_error (q : http_parser) : bool := cs q =? 0.
Definition http_parser_is_finished (q : http_parser) : bool := cs q >=? 348.
Definition http_parser_finish (q : http_parser) : Z :=
  if http_parser_has_error q then -1 else if http_parser_is_finished q then 1 else 0.

(** The callbacks. *)
Record callbacks (D : Type) := mkCallbacks {
  http_field : option (field_cb D);
  request_method : option (element_cb D); request_uri : option (element_cb D); fragment : option (element_cb D);
  request_path : option (element_cb D); query_string : option (element_cb D); http_version : option (element_cb D);
  header_done : option (element_cb D)
}.
Arguments http_field {D} _.
Arguments request_method {D} _.
Arguments request_uri {D} _.
Arguments fragment {D} _.
Arguments request_path {D} _.
Arguments query_string {D} _.
Arguments http_version {D} _.
Arguments header_done {D} _.


Section execute.
Context {D : Type} (cb : callbacks D) (buffer : string).


(** The actions of the grammar; [HeadDone] is [done] without its [fbreak]. *)
Definition act (a : http11_action) (p : Z) : M (http_parser * D) () :=
  q ← parser;
  match a with
  | Mark => update (set_mark p)
  | StartField => update (set_field_start p)
  | WriteField => update (set_field_len (LEN (field_start q) p))
  | WriteValue =>
      match http_field cb with
      | Some f => on_data (f (PTR_TO buffer (field_start q)) (field_len q) (PTR_TO buffer (mark q)) (LEN (mark q) p))
      | None => mret ()
      end
  | RequestMethod => call buffer (request_method cb) (mark q) p
  | RequestUri => call buffer (request_uri cb) (mark q) p
  | Fragment => call buffer (fragment cb) (mark q) p
  | StartQuery => update (set_query_start p)
  | QueryString => call buffer (query_string cb) (query_start q) p
  | HttpVersion => call buffer (http_version cb) (mark q) p
  | RequestPath => call buffer (request_path cb) (mark q) p
  | HeadDone =>
      if negb (xml_sent q =? 0) || negb (json_sent q =? 0) then
        update (λ q, set_content_len (s32 (p - mark q + 1)) (set_body_start (mark q) q))
      else
        update (set_body_start (p + 1)) ;;
        match header_done cb with
        | Some f => on_data (f (PTR_TO buffer (p + 1)) (str_len buffer - p - 1))
        | None => mret ()
        end
  | Xml => update (set_xml_sent 1)
  | Json => update (set_json_sent 1)
  end.

(** The beginning of a call, and what follows [_out]. *)
Definition execute_reset (q : http_parser) : http_parser :=
  set_field_start 0 (set_field_len 0 (set_mark 0 (set_nread 0 q))).
Definition execute_end (off cs' p : Z) : M (http_parser * D) Z :=
  let len := str_len buffer in
  assert_ (p <=? len) ;;
  update (λ q, if negb (http_parser_has_error q) then set_cs cs' q else q) ;;
  update (λ q, set_nread (u64 (nread q + (p - off))) q) ;;
  q ← parser;
  assert_ (nread q <=? len) ;;
  assert_ (body_start q <=? len) ;;
  assert_ (mark q <? len) ;;
  assert_ (field_len q <=? len) ;;
  assert_ (field_start q <? len) ;;
  mret (nread q).
(** [http_parser_execute(parser, buffer, len, off)], [len] the length of [buffer]. *)
Definition http_parser_execute (off : Z) : M (http_parser * D) Z :=
  let len := str_len buffer in
  if len =? 0 then mret 0 else
  update execute_reset ;;
  q ← parser;
  assert_ (off <=? len) ;;
  assert_ (len - off =? s32 len - s32 off) ;;
  '(cs', p) ← run (Machine0 := http11 (negb (uri_relaxed q =? 0))) act (cs q) off (str_drop (Z.to_nat off) buffer);
  execute_end off cs' p.
End execute.
