(* ===== verification/Http11Facts.v ===== *)
(** * Http11Facts: the request parser stays within its buffer, whatever it reads *)
From S2P Require Import Prelude Text Callbacks Ragel Http11Table Http11.
Open Scope string_scope.
Open Scope Z_scope.

Definition all_safe {D} (I : D → Prop) (cb : callbacks D) : Prop :=
  from_option (field_safe I) True (http_field cb) ∧
  Forall (from_option (element_safe I) True)
    [request_method cb; request_uri cb; fragment cb; request_path cb; query_string cb; http_version cb; header_done cb].

(** ** What the tables guarantee

    A field is written only behind its start: [track known acts] follows whether the
    name of the last field is known to lie before the position. *)
Fixpoint track (known : bool) (acts : list http11_action) : option bool :=
  match acts with
  | [] => Some known
  | StartField :: acts => track false acts
  | WriteField :: acts => track true acts
  | WriteValue :: acts => if known then track known acts else None
  | _ :: acts => track known acts
  end.
(** The states inside a field name, or behind an empty line. *)
Definition in_name (n : Z) : bool := (n =? 14) || (n =? 18).
(** The head is done only by a transition that ends the run in a final state. *)
Definition orderly (known : bool) (t : list http11_action * dest) : bool :=
  match track known t.1 with
  | None => false
  | Some known' =>
      match t.2 with
      | Break n => n >=? 348
      | Goto n => (known' || in_name n || (n =? 0)) && forallb (λ a, match a with HeadDone => false | _ => true end) t.1
      end
  end.
Ltac chunk := intro; match goal with |- ?f ?n = _ → _ => unfold f end;
  repeat (match goal with |- match ?x with _ => _ end = _ → _ => destruct x end); intros [= <-]; reflexivity.
Lemma http11_orderly n : orderly true (http11_trans n) = true.
Proof.
  unfold http11_trans. match goal with |- orderly _ (default _ ?x) = _ => destruct x as [t|] eqn:E; [cbn [default]|reflexivity] end.
  revert E. apply (first_some_all (λ t, orderly true t = true)).
  repeat (apply List.Forall_cons; [cbv beta; chunk|]). apply List.Forall_nil.
Qed.
(** Every step of the machine is orderly. *)
Lemma http11_edges r cs c t : edge (Machine0 := http11 r) cs (char_value c) = Some t → orderly (negb (in_name cs)) t = true.
Proof.
  destruct (in_name cs) eqn:Hin; cbn [negb].
  - assert (Hall : forallb (λ c, match edge (Machine0 := http11 r) cs c with Some t => orderly false t | None => true end) chars = true).
    { unfold in_name in Hin. apply orb_true_iff in Hin as [->%Z.eqb_eq | ->%Z.eqb_eq]; destruct r; vm_compute; reflexivity. }
    apply (chars_all _ c) in Hall. cbv beta in Hall. intros He. by rewrite He in Hall.
  - unfold edge. destruct (case (Machine := http11 r) cs (char_value c)) as [[n|n]|]; [|intros [= <-]; apply http11_orderly|done].
    intros [= <-]. done.
Qed.


(** ** The invariant of a call *)
Section safety.
Context {D : Type} (I : D → Prop) (cb : callbacks D) (buffer : string).
Hypothesis Hcb : all_safe I cb.
#[local] Set Default Proof Using "All".

Hypothesis Hlen : str_len buffer < 2 ^ 31.

(** The marks lie before the position [p] and inside the buffer. *)
Record marks_ok (p : Z) (q : http_parser) : Prop := {
  ok_mark : 0 ≤ mark q ≤ p; ok_mark_in : mark q < str_len buffer;
  ok_field : 0 ≤ field_start q ≤ p; ok_field_in : field_start q < str_len buffer; ok_flen : 0 ≤ field_len q ≤ p;
  ok_query : 0 ≤ query_start q < 2 ^ 63; ok_body : 0 ≤ body_start q ≤ str_len buffer;
  ok_nread : nread q = 0
}.
Definition field_ok (p : Z) (q : http_parser) : Prop := field_start q + field_len q ≤ p.


(** An action keeps the marks where they may be. *)
Ltac marks_done := repeat split; cbn; first [lia | by left | by right | done | by intros [|[? ?]]].
Lemma act_safe a p q d : 0 ≤ p < str_len buffer → marks_ok p q → (a = WriteValue → field_ok p q) → I d →
  outcome_ok (λ s : http_parser * D, I s.2 ∧ marks_ok p s.1 ∧ cs s.1 = cs q ∧ (a = HeadDone ∨ body_start s.1 = body_start q) ∧
    (a = WriteField ∨ a ≠ StartField ∧ field_ok p q → field_ok p s.1)) (act cb buffer a p (q, d)).
Proof.
  intros Hp Hm Hf HI. pose proof Hcb as [Hfield Hel]. rewrite !Forall_cons in Hel. destruct Hel as (? & ? & ? & ? & ? & ? & ? & _).
  assert (Hcall : ∀ f m, from_option (element_safe I) True f → 0 ≤ m < 2 ^ 63 → a ≠ WriteField →
    outcome_ok (λ s : http_parser * D, I s.2 ∧ marks_ok p s.1 ∧ cs s.1 = cs q ∧ (a = HeadDone ∨ body_start s.1 = body_start q) ∧
      (a = WriteField ∨ a ≠ StartField ∧ field_ok p q → field_ok p s.1)) (call buffer f m p (q, d))).
  { intros f m Hs Hb Hne. pose proof (call_safe I buffer f m p q d Hlen Hs Hp Hb HI) as Hc. destruct (call buffer f m p (q, d)) as [[q' d'] ?|[q' d'] ?| |]; try done;
      cbn in *; destruct Hc as [-> Hc]; (split; [done|]; split; [done|]; split; [done|]; split; [by right|]; intros [|[_ ?]]; done). }
  destruct Hm as [Hm1 Hm2 Hf1 Hf2 Hl Hq Hb Hn].
  unfold act. rewrite parser_bind. destruct a; try (apply Hcall; [done|lia|done]).
  - cbn. marks_done.
  - cbn. marks_done.
  - cbn. split; [done|]. unfold field_ok. repeat split; cbn; try lia; rewrite ?LEN_back by lia; lia.
  - specialize (Hf eq_refl). cbn. destruct (http_field cb) as [f|] eqn:E; cbn.
    + cbn in Hfield. unfold on_data. specialize (Hfield (PTR_TO buffer (field_start q)) (field_len q) (PTR_TO buffer (mark q)) (LEN (mark q) p) d HI).
      unfold field_ok in Hf. rewrite LEN_back, !PTR_TO_len in Hfield by lia. rewrite LEN_back in * by lia.
      destruct (f _ _ _ _ d); cbn in *; try (apply Hfield; lia); (split; [apply Hfield; lia|]; split; [done|]; split; [done|]; split; [by right|]; intros _; exact Hf).
    + split; [done|]. split; [done|]. split; [done|]. split; [by right|]. intros _; exact Hf.
  - cbn. marks_done.
  - cbn. destruct (_ || _).
    + cbn. marks_done.
    + rewrite update_bind. destruct (header_done cb) as [f|]; cbn.
      2:{ marks_done. }
      unfold on_data. match goal with H : from_option (element_safe I) True (Some f) |- _ =>
        specialize (H (PTR_TO buffer (p + 1)) (str_len buffer - p - 1) d HI) as Hs end. rewrite PTR_TO_len in Hs by lia.
      destruct (f _ _ d); cbn in *; try (apply Hs; lia); (split; [apply Hs; lia|]); marks_done.
  - cbn. marks_done.
  - cbn. marks_done.
Qed.

Lemma do_actions_safe acts : ∀ known known' p q d, track known acts = Some known' → 0 ≤ p < str_len buffer → marks_ok p q →
  (known = true → field_ok p q) → I d →
  outcome_ok (λ s : http_parser * D, I s.2 ∧ marks_ok p s.1 ∧ cs s.1 = cs q ∧ (In HeadDone acts ∨ body_start s.1 = body_start q) ∧
    (known' = true → field_ok p s.1)) (do_actions (act cb buffer) acts p (q, d)).
Proof.
  induction acts as [|a acts IH]; intros known known' p q d Ht Hp Hm Hk HI; cbn [do_actions].
  { cbn in Ht. injection Ht as ->. cbn. auto 6. }
  assert (Hf : a = WriteValue → field_ok p q) by (intros ->; cbn in Ht; destruct known; [by apply Hk|done]).
  assert (∃ k1, track k1 acts = Some known' ∧ (k1 = true → a = WriteField ∨ a ≠ StartField ∧ known = true)) as (k1 & Ht1 & Hk1).
  { destruct a; cbn in Ht; try (eexists; split; [exact Ht|]; intros; by auto). by destruct known; [eexists; split; [exact Ht|]; auto|]. }
  pose proof (act_safe a p q d Hp Hm Hf HI) as Ha.
  destruct (act cb buffer a p (q, d)) as [[q1 d1] []|[q1 d1] e| |] eqn:E; try done.
  - rewrite (bind_done _ _ _ _ _ E). destruct Ha as (HI1 & Hm1 & Hc1 & Hb1 & Hf1). cbn in Hm1, Hc1, Hb1, Hf1.
    specialize (IH k1 known' p q1 d1 Ht1 Hp Hm1). destruct (do_actions (act cb buffer) acts p (q1, d1)) as [[q2 d2] ?|[q2 d2] ?| |];
    specialize (IH ltac:(intros H1; apply Hf1; destruct (Hk1 H1) as [|[? ->]]; auto) HI1); try done.
    destruct IH as (HI2 & Hm2 & Hc2 & Hb2 & Hf2). cbn in *. split; [done|]. split; [done|]. split; [congruence|]. split; [|done].
    destruct Hb1 as [->|Hb1]; [by left; left|]. destruct Hb2 as [|Hb2]; [by left; right|]. right. congruence.
  - by rewrite (bind_raise _ _ _ _ _ E).
Qed.

Lemma marks_later p p' q : marks_ok p q → p ≤ p' → marks_ok p' q.
Proof. intros []. split; lia. Qed.

(** A whole run: it ends behind the buffer unless it ends in a final state, or fails. *)
Lemma run_safe r s : ∀ cs0 p q d, 0 ≤ p → p + str_len s = str_len buffer → marks_ok p q → (in_name cs0 = false → field_ok p q) → I d →
  match run (Machine0 := http11 r) (act cb buffer) cs0 p s (q, d) with
  | Done (q', d') (cs', p') => I d' ∧ marks_ok p' q' ∧ p ≤ p' ≤ str_len buffer ∧ cs q' = cs q ∧ (cs' >= 348 ∨ body_start q' = body_start q)
  | Raise _ _ => True
  | _ => False
  end.
Proof.
  induction s as [|c s IH]; intros cs0 p q d Hp Hs Hm Hk HI; cbn [run].
  { cbn in *. unfold str_len in Hs at 1. cbn in Hs. split; [done|]. repeat split; try apply Hm; try lia. }
  assert (Hs' : p + 1 + str_len s = str_len buffer) by (unfold str_len in Hs at 1; cbn [String.length] in Hs; unfold str_len at 1; lia).
  pose proof (str_len_nonneg s). destruct (edge cs0 (char_value c)) as [[acts dst]|] eqn:He.
  2:{ cbn. split; [done|]. repeat split; try apply Hm; try lia. }
  apply http11_edges in He. unfold orderly in He. cbn in He. destruct (track (negb (in_name cs0)) acts) as [k|] eqn:Ht; [|done].
  assert (Hk' : negb (in_name cs0) = true → field_ok p q) by (intros Hn; apply Hk; by apply negb_true_iff in Hn).
  pose proof (do_actions_safe acts _ k p q d Ht ltac:(lia) Hm Hk' HI) as Ha.
  destruct (do_actions (act cb buffer) acts p (q, d)) as [[q1 d1] []|? ?| |] eqn:E; try done.
  2:{ by rewrite (bind_raise _ _ _ _ _ E). }
  rewrite (bind_done _ _ _ _ _ E). destruct Ha as (HI1 & Hm1 & Hc1 & Hb1 & Hf1). cbn in Hm1, Hc1, Hb1, Hf1.
  destruct dst as [n|n].
  - apply andb_true_iff in He as [He Hhd].
    assert (Hb1' : body_start q1 = body_start q).
    { destruct Hb1 as [Hin|]; [|done]. rewrite forallb_forall in Hhd. by specialize (Hhd _ Hin). }
    destruct (n =? 0) eqn:Hn.
    { cbn. split; [done|]. repeat split; try apply Hm1; try lia. }
    assert (Hk1 : in_name n = false → field_ok (p + 1) q1).
    { intros Hnm. rewrite Hnm, !orb_false_r in He. unfold field_ok in *. specialize (Hf1 He). lia. }
    specialize (IH n (p + 1) q1 d1 ltac:(lia) Hs' (marks_later p (p + 1) _ Hm1 ltac:(lia)) Hk1 HI1). revert IH.
    destruct (run _ n (p + 1) s (q1, d1)) as [[q2 d2] [cs2 p2]|? ?| |]; try done. intros (? & ? & ? & ? & Hb).
    split; [done|]. split; [done|]. split; [lia|]. split; [congruence|lia].
  - cbn. split; [done|]. split; [by apply (marks_later p); [|lia]|]. repeat split; try lia.
Qed.

Lemma execute_end_eq cs' p q d : marks_ok p q → 0 ≤ p ≤ str_len buffer →
  execute_end (D := D) buffer 0 cs' p (q, d) = Done (set_nread p (if negb (http_parser_has_error q) then set_cs cs' q else q), d) p.
Proof.
  intros [] Hp. unfold execute_end. rewrite assert_bind, !update_bind, parser_bind by lia.
  destruct (negb (http_parser_has_error q)); cbn [nread set_nread set_cs body_start mark field_len field_start];
    rewrite ok_nread0, Z.sub_0_r, Z.add_0_l, u64_small by lia; by rewrite !assert_bind by lia.
Qed.
(** A call on a buffer that is not empty, run by run. *)
Lemma execute_run q d : 0 < str_len buffer → http_parser_execute cb buffer 0 (q, d) =
  (run (Machine0 := http11 (negb (uri_relaxed q =? 0))) (act cb buffer) (cs q) 0 buffer ≫= λ '(cs', p), execute_end (D := D) buffer 0 cs' p)
    (execute_reset q, d).
Proof.
  intros H0. unfold http_parser_execute. replace (str_len buffer =? 0) with false by lia.
  rewrite update_bind, parser_bind, !assert_bind; [done| |lia]. rewrite (s32_small (str_len buffer)) by lia. apply Z.eqb_refl.
Qed.

(** [http_parser_execute] never reads or writes outside the buffer and none of its
    assertions fails, in whatever state the parser is and whatever the buffer holds. *)
Lemma http_parser_execute_safe q d : 0 ≤ query_start q < 2 ^ 63 → 0 ≤ body_start q ≤ str_len buffer → I d →
  match http_parser_execute cb buffer 0 (q, d) with
  | Done (q', d') n => I d' ∧ 0 ≤ n ≤ str_len buffer ∧ 0 ≤ query_start q' < 2 ^ 63 ∧
      (http_parser_has_error q = false → http_parser_is_finished q' = false → body_start q' = body_start q)
  | Raise _ _ => True
  | _ => False
  end.
Proof.
  intros Hq Hb HI. destruct (str_len buffer =? 0) eqn:H0.
  { unfold http_parser_execute. rewrite H0. cbn. split; [done|]. repeat split; lia. }
  rewrite execute_run by lia. assert (Hm : marks_ok 0 (execute_reset q)) by (split; cbn; lia).
  pose proof (run_safe (negb (uri_relaxed q =? 0)) buffer (cs q) 0 _ d ltac:(lia) ltac:(lia) Hm ltac:(intros; unfold field_ok; cbn; lia) HI) as Hr.
  destruct (run _ (cs q) 0 buffer (execute_reset q, d)) as [[q1 d1] [cs1 p1]|? ?| |] eqn:E; try done.
  2:{ by rewrite (bind_raise _ _ _ _ _ E). }
  destruct Hr as (HI1 & Hm1 & Hp1 & Hc1 & Hb1). rewrite (bind_done _ _ _ _ _ E), execute_end_eq by done.
  split; [done|]. split; [lia|]. split; [destruct Hm1, (negb (http_parser_has_error q1)); done|]. unfold http_parser_has_error. rewrite Hc1. cbn [cs execute_reset set_field_start set_field_len set_mark set_nread].
  intros ->. unfold http_parser_is_finished. cbn. intros. destruct Hb1; [lia|done].
Qed.
End safety.
