(* ===== verification/HttpParser.v ===== *)
(** * HttpParser ([webserve/http/http_parser.h], [http_parser.cc]): HttpRequestParser

    The object behind the callbacks of the request parser.  The log lines of the
    callbacks have no other effect and are left out. *)
From S2P Require Import Prelude Text Http Callbacks Ragel Http11Table Http11 Http11Facts.
Open Scope string_scope.
Open Scope Z_scope.

(** [HttpRequestParser] is [m_parser] with what its callbacks write. *)
Record request_data := mkRequestData { m_data : HttpRequest; m_error : Z }.
Definition HttpRequestParser : Type := http_parser * request_data.
Definition setError (v : Z) : M request_data () := modify (λ d, mkRequestData (m_data d) v).
(** [parser->getData()->...] *)
Definition on_request (f : HttpRequest → HttpRequest) : M request_data () :=
  modify (λ d, mkRequestData (f (m_data d)) (m_error d)).

Definition on_request_method : element_cb request_data := λ at_ length,
  let m := CharsToHttpMethod at_ in
  if bool_decide (m = INVALID_METHOD) then setError 1000 else on_request (setMethod m).
Definition on_request_uri : element_cb request_data := λ at_ length, mret ().
Definition on_request_fragment : element_cb request_data := λ at_ length,
  s ← std_string at_ length; on_request (setFragment s).
Definition on_request_path : element_cb request_data := λ at_ length,
  s ← std_string at_ length; on_request (setPath s).
Definition on_request_query : element_cb request_data := λ at_ length,
  s ← std_string at_ length; on_request (setQuery s).
Definition on_request_version : element_cb request_data := λ at_ length,
  match parse_version at_ length with
  | Some v => on_request (setVersion v)
  | None => setError 1001
  end.
Definition on_request_header_done : element_cb request_data := λ at_ length, mret ().
Definition on_request_http_field : field_cb request_data := λ field flen value vlen,
  if flen =? 0 then mret () else
  k ← std_string field flen; v ← std_string value vlen; on_request (setHeader k v).

Definition request_callbacks : callbacks request_data :=
  {| request_method := Some on_request_method; request_uri := Some on_request_uri; fragment := Some on_request_fragment;
     request_path := Some on_request_path; query_string := Some on_request_query; http_version := Some on_request_version;
     header_done := Some on_request_header_done; http_field := Some on_request_http_field |}.
(** [HttpRequestParser::HttpRequestParser]; [mem] is what the memory of [m_parser] holds. *)
Definition HttpRequestParser_new (mem : http_parser) : HttpRequestParser :=
  (http_parser_init mem, mkRequestData (HttpRequest_new 0x11 true) 0).

(** [HttpRequestParser::execute]: the result, and the data after the [memmove]. *)
Definition execute (data : string) : M HttpRequestParser (Z * string) :=
  offset ← http_parser_execute request_callbacks data 0;
  mret (offset, str_drop (Z.to_nat offset) data).
Definition isFinished (prs : HttpRequestParser) : Z := http_parser_finish prs.1.
Definition hasError (prs : HttpRequestParser) : bool := negb (m_error prs.2 =? 0) || http_parser_has_error prs.1.
(** [HttpRequestParser::getContentLength], with Boost's conversion to [uint64_t]. *)
Definition getContentLength (lexical_cast : string → option Z) (prs : HttpRequestParser) : Z :=
  getAs lexical_cast (m_headers (m_data prs.2)) "content-length" 0.


(** The callbacks write neither the body nor the flags. *)
Definition untouched (d : request_data) : Prop :=
  m_body (m_data d) = "" ∧ m_close (m_data d) = true ∧ m_websocket (m_data d) = false ∧ m_parserParamFlag (m_data d) = 0.
Lemma request_callbacks_safe : all_safe untouched request_callbacks.
Proof.
  split.
  - intros at1 l1 at2 l2 d HI H1 H2. unfold on_request_http_field. destruct (l1 =? 0); [done|].
    apply std_string_safe; [done|by left|]. intros. apply std_string_safe; [done|by left|]. done.
  - rewrite !Forall_cons. cbn. split_and!; try done; intros at_ len d HI Hl; try done; try by apply std_string_safe.
    + unfold on_request_method. by destruct (bool_decide _).
    + unfold on_request_version. by destruct (parse_version at_ len).
Qed.
