(* ===== verification/HttpParserFacts.v ===== *)
(** * HttpParserFacts: the request parser reads every request a client may write

    The machine follows the automata of HttpGrammar; the pieces of the text one by one,
    and the whole text, for any number of header fields. *)
From S2P Require Import Prelude Text Http HttpFacts HttpGrammar HttpFields Callbacks Ragel Http11Table Http11 Http11Facts HttpParser.
Open Scope string_scope.
Open Scope Z_scope.

(** ** The machine follows it *)
Definition above_path q := match q with Root => [33] | Text => [26] | Hex1 => [27] | Hex2 => [28] end.
Definition above_query q := match q with Root => [] | Text => [30] | Hex1 => [31] | Hex2 => [32] end.
Definition above_fragment q := match q with Root => [] | Text => [21] | Hex1 => [22] | Hex2 => [23] end.
Definition above_token (_ : ()) := [14].
Definition above_value (first : bool) := if first then [] else [16].

Section machine.
Context (r : bool).
#[local] Instance machine : Machine http11_action := http11 r.
Lemma path_simulates q : simulates path_spec above_path q = true.
Proof. destruct r, q; vm_compute; reflexivity. Qed.
Lemma query_simulates q : simulates query_spec above_query q = true.
Proof. destruct r, q; vm_compute; reflexivity. Qed.
Lemma fragment_simulates q : simulates query_spec above_fragment q = true.
Proof. destruct r, q; vm_compute; reflexivity. Qed.
Lemma token_simulates q : simulates token_spec above_token q = true.
Proof. destruct r, q; vm_compute; reflexivity. Qed.
Lemma value_simulates q : simulates value_spec above_value q = true.
Proof. destruct r, q; vm_compute; reflexivity. Qed.
Lemma query_enters : enters query_spec above_query [StartQuery] 29 Text = true.
Proof. destruct r; vm_compute; reflexivity. Qed.
Lemma fragment_enters : enters query_spec above_fragment [Mark] 20 Text = true.
Proof. destruct r; vm_compute; reflexivity. Qed.
Lemma token_enters : enters token_spec above_token [StartField] 13 () = true.
Proof. destruct r; vm_compute; reflexivity. Qed.
Lemma value_enters : enters value_spec above_value [Mark] 15 true = true.
Proof. destruct r; vm_compute; reflexivity. Qed.
(** The names of the methods, but for the one with a hyphen. *)
Lemma method_quiet m : m ≠ INVALID_METHOD → m ≠ MSEARCH → ∃ c w n cs', HttpMethodToString m = String c w ∧
  edge 1 (char_value c) = Some ([Mark], Goto n) ∧ n ≠ 0 ∧ quiet n w cs' ∧ edge cs' 32 = Some ([RequestMethod], Goto 3).
Proof.
  intros. destruct m, r; try done; (do 4 eexists; split; [vm_compute; reflexivity|]; split; [vm_compute; reflexivity|];
    split; [done|]; split; [apply quiet_to_ok; vm_compute; reflexivity|vm_compute; reflexivity]).
Qed.
Lemma version_quiet v : v = 0x10 ∨ v = 0x11 → ∃ w, dump_version v = String "H" w ∧ edge 4 (char_value "H") = Some ([Mark], Goto 5) ∧ quiet 5 w 12.
Proof.
  intros [-> | ->]; eexists; (split; [vm_compute; reflexivity|]); (split; [by destruct r|]);
    apply quiet_to_ok; destruct r; vm_compute; reflexivity.
Qed.

(** ** The pieces of a text *)
#[local] Notation parse := (Ragel.parse (act request_callbacks)).
Definition upd (f : HttpRequest → HttpRequest) (d : request_data) : request_data := mkRequestData (f (m_data d)) (m_error d).

(** The callbacks that copy a marked text. *)
Lemma call_text pre w s f at_ (q : http_parser) d : at_ = str_len pre → fits (pre ++ w ++ s) →
  call ((pre ++ w) ++ s) (Some (λ a n, t ← std_string a n; on_request (f t))) at_ (str_len (pre ++ w)) (q, d) = Done (q, upd (f w) d) ().
Proof.
  intros -> Hf. unfold call, on_data. destruct (marked pre w s Hf) as [-> ->].
  by rewrite (bind_done _ _ _ _ _ (std_string_piece w s d (fits_app_r _ _ Hf))).
Qed.
Lemma act_path pre w s q d : mark q = str_len pre → fits (pre ++ w ++ s) →
  act request_callbacks ((pre ++ w) ++ s) RequestPath (str_len (pre ++ w)) (q, d) = Done (q, upd (setPath w) d) ().
Proof. apply call_text. Qed.
Lemma act_query pre w s q d : query_start q = str_len pre → fits (pre ++ w ++ s) →
  act request_callbacks ((pre ++ w) ++ s) QueryString (str_len (pre ++ w)) (q, d) = Done (q, upd (setQuery w) d) ().
Proof. apply call_text. Qed.
Lemma act_fragment pre w s q d : mark q = str_len pre → fits (pre ++ w ++ s) →
  act request_callbacks ((pre ++ w) ++ s) Fragment (str_len (pre ++ w)) (q, d) = Done (q, upd (setFragment w) d) ().
Proof. apply call_text. Qed.

Lemma CharsToHttpMethod_name m s : m ≠ INVALID_METHOD → CharsToHttpMethod (HttpMethodToString m ++ s) = m.
Proof.
  intros. destruct (method_name_ok m) as [Hc _]. unfold CharsToHttpMethod, strncmp_eq. rewrite (c_str_app _ _ Hc).
  destruct m; try done; destruct (c_str s); vm_compute; reflexivity.
Qed.
Lemma parse_method pre m s q d : m ≠ INVALID_METHOD → m ≠ MSEARCH → fits (pre ++ HttpMethodToString m ++ " " ++ s) →
  ∃ q', parse pre 1 (HttpMethodToString m ++ " " ++ s) (q, d) = parse (pre ++ HttpMethodToString m ++ " ") 3 s (q', upd (setMethod m) d).
Proof.
  intros Hm Hs Hf. destruct (method_quiet m Hm Hs) as (c & w & n & cs' & Hn & He & Hn0 & Hq & Hx).
  exists (set_mark (str_len pre) q). pose proof (CharsToHttpMethod_name m (" " ++ s) Hm) as Hc. rewrite Hn in *.
  change (String c w ++ " " ++ s) with (String c (w ++ String " " s)) in *.
  rewrite (parse_edge (act request_callbacks) pre 1 c _ _ _ _ _ He Hn0 eq_refl), (parse_quiet (act request_callbacks) _ _ _ _ _ _ Hq).
  change (edge cs' (char_value " ") = Some ([RequestMethod], Goto 3)) in Hx.
  erewrite (parse_edge (act request_callbacks) _ _ _ _ _ _ _ _ Hx); [|done|].
  - rewrite !str_app_assoc. reflexivity.
  - cbn [do_actions]. rewrite (bind_done _ _ (set_mark (str_len pre) q, d) (set_mark (str_len pre) q, upd (setMethod m) d) ()); [done|].
    unfold act. rewrite parser_bind. cbn [call request_method request_callbacks mark set_mark]. unfold on_data.
    assert (HP : PTR_TO (((pre ++ String c "") ++ w) ++ String " " s) (str_len pre) = String c w ++ String " " s).
    { rewrite (str_app_assoc pre (String c "") w). exact (proj2 (marked pre (String c w) (String " " s) Hf)). }
    rewrite HP. unfold on_request_method. cbn [append]. rewrite Hc. by rewrite bool_decide_eq_false_2 by done.
Qed.

Lemma do_uri b l p q d : do_actions (act request_callbacks b) (RequestUri :: l) p (q, d) = do_actions (act request_callbacks b) l p (q, d).
Proof. done. Qed.

(** The request target: path, query, fragment, each up to the character behind it. *)
Definition setQuery_opt (s : string) (r : HttpRequest) : HttpRequest := if is_empty s then r else setQuery s r.
Definition setFragment_opt (s : string) (r : HttpRequest) : HttpRequest := if is_empty s then r else setFragment s r.

(** The end of a path that began behind [pre]. *)
Lemma parse_path_end pre w cs' c n s q d : mark q = str_len pre → In cs' [33; 26] → In (c, n) [(" "%char, 4); ("?"%char, 29); ("#"%char, 20)] →
  fits (pre ++ w ++ String c s) →
  parse (pre ++ w) cs' (String c s) (q, d) = parse ((pre ++ w) ++ String c "") n s (q, upd (setPath w) d).
Proof.
  intros Hm Hcs Hin Hf. pose proof (act_path pre w (String c s) q d Hm Hf) as Hact.
  assert (∃ acts, edge cs' (char_value c) = Some (RequestPath :: acts, Goto n) ∧ n ≠ 0 ∧ (acts = [] ∨ acts = [RequestUri])) as (acts & He & Hn & Ha).
  { destruct Hcs as [<-|[<-|[]]]; destruct Hin as [[= <- <-]|[[= <- <-]|[[= <- <-]|[]]]]; destruct r;
      (eexists; split; [vm_compute; reflexivity|]; split; [done|]; first [by left|by right]). }
  rewrite (parse_edge (act request_callbacks) _ cs' _ _ _ n _ (q, upd (setPath w) d) He Hn); [done|].
  rewrite (do_action (act request_callbacks) _ _ _ _ _ _ Hact). by destruct Ha as [-> | ->].
Qed.
(** The state inside a path of which [w] is still to come. *)
Definition in_path (cs' : Z) (w : string) : Prop :=
  ∃ z z', In cs' (above_path z) ∧ accepts path_spec z w = Some z' ∧ (z' = Root ∨ z' = Text).
Lemma in_path_quiet cs' w : in_path cs' w → ∃ cs2, quiet cs' w cs2 ∧ In cs2 [33; 26].
Proof.
  intros (z & z' & Hin & Ha & Hz). destruct (simulates_quiet _ _ path_simulates w z z' cs' Hin Ha) as (cs2 & Hcs2 & Hq). exists cs2. split; [done|].
  destruct Hz as [-> | ->]; destruct Hcs2 as [<-|[]]; cbn; auto.
Qed.
Lemma parse_path_begin pre p1 p2 s q d : p1 ≠ "" → path_ok (p1 ++ p2) = true →
  ∃ cs1, parse pre 3 (p1 ++ s) (q, d) = parse (pre ++ p1) cs1 s (set_mark (str_len pre) q, d) ∧ in_path cs1 p2.
Proof.
  intros Hne Hp. destruct p1 as [|c0 w]; [done|]. cbn [append] in *.
  assert (c0 = "/"%char ∧ ∃ z, accepts path_spec Root (w ++ p2) = Some z ∧ (z = Root ∨ z = Text)) as [-> (z & Ha & Hz)].
  { destruct c0 as [[] [] [] [] [] [] [] []]; cbn in Hp; try done. split; [done|]. destruct (accepts path_spec Root (w ++ p2)) as [[]|]; try done; eauto. }
  rewrite accepts_app in Ha. destruct (accepts path_spec Root w) as [z1|] eqn:Ha1; [|done].
  destruct (simulates_quiet _ _ path_simulates w Root z1 33 ltac:(by left) Ha1) as (cs1 & Hcs1 & Hq1). exists cs1. split; [|by exists z1, z].
  rewrite (parse_edge (act request_callbacks) pre 3 "/" _ [Mark] 33 _ (set_mark (str_len pre) q, d)); [|by destruct r|done|done].
  rewrite (parse_quiet (act request_callbacks) _ _ _ _ _ _ Hq1), (str_app_assoc pre). done.
Qed.
Lemma parse_query pre w c n s q d : query_ok w = true → w ≠ "" → In (c, n) [(" "%char, 4); ("#"%char, 20)] → fits (pre ++ w ++ String c s) →
  ∃ q', parse pre 29 (w ++ String c s) (q, d) = parse ((pre ++ w) ++ String c "") n s (q', upd (setQuery w) d).
Proof.
  intros Hw Hne Hin Hf. unfold query_ok in Hw. destruct (accepts query_spec Text w) as [[]|] eqn:Ha; try done.
  destruct (parse_token (act request_callbacks) query_spec above_query StartQuery (λ p, (set_query_start p q, d)) 29 Text Text pre w (String c s) (q, d)
    query_simulates query_enters (λ _ _, eq_refl) Hne Ha) as (cs' & [<-|[]] & ->).
  exists (set_query_start (str_len pre) q).
  pose proof (act_query pre w (String c s) (set_query_start (str_len pre) q) d eq_refl Hf) as Hact.
  assert (Hx : edge 30 (char_value c) = Some ([QueryString; RequestUri], Goto n)).
  { by destruct Hin as [[= <- <-]|[[= <- <-]|[]]], r. }
  rewrite (parse_edge (act request_callbacks) _ 30 _ _ _ n _ (set_query_start (str_len pre) q, upd (setQuery w) d) Hx); [done| |].
  - by destruct Hin as [[= <- <-]|[[= <- <-]|[]]].
  - by rewrite (do_action (act request_callbacks) _ _ _ _ _ _ Hact).
Qed.
Lemma parse_fragment pre w s q d : query_ok w = true → w ≠ "" → fits (pre ++ w ++ " " ++ s) →
  ∃ q', parse pre 20 (w ++ " " ++ s) (q, d) = parse ((pre ++ w) ++ " ") 4 s (q', upd (setFragment w) d).
Proof.
  intros Hw Hne Hf. unfold query_ok in Hw. destruct (accepts query_spec Text w) as [[]|] eqn:Ha; try done.
  destruct (parse_token (act request_callbacks) query_spec above_fragment Mark (λ p, (set_mark p q, d)) 20 Text Text pre w (" " ++ s) (q, d)
    fragment_simulates fragment_enters (λ _ _, eq_refl) Hne Ha) as (cs' & [<-|[]] & ->).
  exists (set_mark (str_len pre) q).
  pose proof (act_fragment pre w (" " ++ s) (set_mark (str_len pre) q) d eq_refl Hf) as Hact. cbn [append].
  rewrite (parse_edge (act request_callbacks) _ 21 _ _ [Fragment] 4 _ (set_mark (str_len pre) q, upd (setFragment w) d)); [done|by destruct r|done|].
  by rewrite (do_action (act request_callbacks) _ _ _ _ _ _ Hact).
Qed.

Definition target (path query fragment : string) : string :=
  path ++ (if is_empty query then "" else "?") ++ query ++ (if is_empty fragment then "" else "#") ++ fragment.
Lemma target_path path query fragment : target path query fragment = path ++ target "" query fragment.
Proof. reflexivity. Qed.
(** From the end of the path, which began behind [pre], to the end of the target. *)
Lemma parse_target_end pre w cs' query fragment s q d : mark q = str_len pre → In cs' [33; 26] → query_ok query = true → query_ok fragment = true →
  fits (pre ++ w ++ target "" query fragment ++ " " ++ s) →
  ∃ q', parse (pre ++ w) cs' (target "" query fragment ++ " " ++ s) (q, d) = parse ((pre ++ w) ++ target "" query fragment ++ " ") 4 s
    (q', upd (setFragment_opt fragment) (upd (setQuery_opt query) (upd (setPath w) d))).
Proof.
  intros Hm Hcs Hq Hf Hfit. unfold target, setFragment_opt, setQuery_opt in *.
  destruct query as [|qc query]; destruct fragment as [|fc fragment]; cbn [is_empty append] in *;
    rewrite ?str_app_assoc, ?str_app_nil_r in *; cbn [append] in *; rewrite ?str_app_assoc in *; cbn [append] in *.
  - rewrite <-(str_app_assoc pre w), (parse_path_end pre w cs' " " 4 s q d Hm Hcs ltac:(cbn; tauto) Hfit). exists q. by rewrite !str_app_assoc.
  - rewrite <-(str_app_assoc pre w), (parse_path_end pre w cs' "#" 20 _ q d Hm Hcs ltac:(cbn; tauto) Hfit).
    destruct (parse_fragment ((pre ++ w) ++ "#") (String fc fragment) s q (upd (setPath w) d) Hf) as (q2 & Hq2); [done|by rewrite !str_app_assoc|].
    exists q2. cbn [append] in Hq2. rewrite Hq2. by rewrite !str_app_assoc.
  - rewrite <-(str_app_assoc pre w), (parse_path_end pre w cs' "?" 29 _ q d Hm Hcs ltac:(cbn; tauto) Hfit).
    destruct (parse_query ((pre ++ w) ++ "?") (String qc query) " " 4 s q (upd (setPath w) d) Hq) as (q2 & Hq2);
      [done|cbn; tauto|by rewrite !str_app_assoc|].
    exists q2. cbn [append] in Hq2. rewrite Hq2. by rewrite !str_app_assoc.
  - rewrite <-(str_app_assoc pre w), (parse_path_end pre w cs' "?" 29 _ q d Hm Hcs ltac:(cbn; tauto) Hfit).
    destruct (parse_query ((pre ++ w) ++ "?") (String qc query) "#" 20 (String fc fragment ++ " " ++ s) q (upd (setPath w) d) Hq) as (q2 & Hq2);
      [done|cbn; tauto|by rewrite !str_app_assoc|].
    cbn [append] in Hq2. rewrite Hq2.
    destruct (parse_fragment ((((pre ++ w) ++ "?") ++ String qc query) ++ "#") (String fc fragment) s q2 (upd (setQuery (String qc query)) (upd (setPath w) d)) Hf)
      as (q3 & Hq3); [done|by rewrite !str_app_assoc|].
    exists q3. cbn [append] in Hq3. rewrite Hq3. by rewrite !str_app_assoc.
Qed.
Lemma parse_target pre path query fragment s q d : path_ok path = true → query_ok query = true → query_ok fragment = true →
  fits (pre ++ target path query fragment ++ " " ++ s) →
  ∃ q', parse pre 3 (target path query fragment ++ " " ++ s) (q, d) = parse (pre ++ target path query fragment ++ " ") 4 s
    (q', upd (setFragment_opt fragment) (upd (setQuery_opt query) (upd (setPath path) d))).
Proof.
  intros Hp Hq Hf. rewrite (target_path path), !str_app_assoc. intros Hfit.
  destruct (parse_path_begin pre path "" (target "" query fragment ++ " " ++ s) q d) as (cs1 & -> & Hin); [by intros ->|by rewrite str_app_nil_r|].
  destruct (in_path_quiet _ _ Hin) as (cs2 & Hqt & Hcs). inversion Hqt; subst. destruct (parse_target_end pre path cs2 query fragment s (set_mark (str_len pre) q) d eq_refl Hcs Hq Hf Hfit) as (q' & ->).
  exists q'. by rewrite !str_app_assoc.
Qed.

Lemma parse_version_line pre v s q d : v = 0x10 ∨ v = 0x11 → fits (pre ++ dump_version v ++ CRLF ++ s) →
  ∃ q', parse pre 4 (dump_version v ++ CRLF ++ s) (q, d) = parse (pre ++ dump_version v ++ CRLF) 13 s (q', upd (setVersion v) d).
Proof.
  intros Hv Hf. destruct (version_quiet v Hv) as (w & Hw & He & Hq). pose proof (parse_version_ok v (CRLF ++ s) Hv) as Hc.
  exists (set_mark (str_len pre) q). rewrite Hw in *. cbn [append] in *.
  rewrite (parse_edge (act request_callbacks) pre 4 "H" _ [Mark] 5 _ (set_mark (str_len pre) q, d)); [|done|done|done].
  rewrite (parse_quiet (act request_callbacks) _ _ _ _ _ _ Hq), (str_app_assoc pre (String "H" "") w). change (String "H" "" ++ w) with (String "H" w).
  unfold CRLF at 1. cbn [append].
  rewrite (parse_edge (act request_callbacks) _ 12 "013" _ [HttpVersion] 17 _ (set_mark (str_len pre) q, upd (setVersion v) d)); [|by destruct r|done|].
  - change (String "010" s) with (String "010" "" ++ s). rewrite (parse_quiet (act request_callbacks) _ 17 _ 13) by (apply quiet_to_ok; by destruct r).
    rewrite !str_app_assoc. reflexivity.
  - rewrite (do_action (act request_callbacks) _ _ _ _ _ (set_mark (str_len pre) q, upd (setVersion v) d)); [done|].
    unfold act. rewrite parser_bind. cbn [call http_version request_callbacks mark set_mark]. unfold on_data.
    destruct (marked pre (String "H" w) (CRLF ++ s) Hf) as [HL HP]. unfold CRLF in HP at 1. cbn [append] in HP. rewrite HL, HP.
    unfold on_request_version. change (String "013" (String "010" s)) with (CRLF ++ s). by rewrite Hc.
Qed.


(** A field without a name is dropped. *)
Definition set_named (k v : string) (rq : HttpRequest) : HttpRequest := if is_empty k then rq else setHeader k v rq.
Lemma act_write_value pre k v s q d : field_start q = str_len pre → field_len q = str_len k → mark q = str_len (pre ++ k ++ ": ") →
  fits ((pre ++ k ++ ": ") ++ v ++ s) →
  act request_callbacks (((pre ++ k ++ ": ") ++ v) ++ s) WriteValue (str_len ((pre ++ k ++ ": ") ++ v)) (q, d)
    = Done (q, upd (set_named k v) d) ().
Proof.
  intros H1 H2 H3 Hf. unfold act. rewrite parser_bind. cbn [http_field request_callbacks]. rewrite H1, H2, H3. unfold on_data.
  destruct (marked (pre ++ k ++ ": ") v s Hf) as [HL HP]. rewrite HL, HP.
  assert (Hf' : fits (pre ++ k ++ (": " ++ v ++ s))) by (revert Hf; by rewrite !str_app_assoc).
  assert (HP' : PTR_TO (((pre ++ k ++ ": ") ++ v) ++ s) (str_len pre) = k ++ (": " ++ v ++ s)).
  { rewrite <-(proj2 (marked pre k _ Hf')). f_equal. by rewrite !str_app_assoc. }
  rewrite HP'. unfold on_request_http_field. destruct k as [|kc k]; [by destruct d as [[] ?]|].
  replace (str_len (String kc k) =? 0) with false by (symmetry; apply Z.eqb_neq; unfold str_len; cbn [String.length]; lia).
  rewrite (bind_done _ _ _ _ _ (std_string_piece _ _ _ (fits_app_r _ _ Hf'))).
  by rewrite (bind_done _ _ _ _ _ (std_string_piece _ _ _ (fits_app_r _ _ Hf))).
Qed.
Lemma parse_line_end pre s q d : parse pre 17 (String "010" s) (q, d) = parse (pre ++ String "010" "") 13 s (q, d).
Proof. change (String "010" s) with (String "010" "" ++ s). apply parse_quiet, quiet_to_ok. by destruct r. Qed.
(** Some of a value, and all of it. *)
Lemma parse_value_begin pre v1 v2 s q d : v1 ≠ "" → value_ok (v1 ++ v2) = true →
  parse pre 15 (v1 ++ s) (q, d) = parse (pre ++ v1) 16 s (set_mark (str_len pre) q, d) ∧ quiet 16 v2 16.
Proof.
  intros Hne. unfold value_ok. rewrite accepts_app. destruct (accepts value_spec true v1) as [z1|] eqn:Hacc; [|done].
  assert (Hg : ∀ w z b, accepts value_spec b w = Some z → w ≠ "" ∨ b = false → z = false).
  { induction w as [|c w IH]; cbn; intros z0 b; [intros [= ->] [|]; done|]. unfold value_spec at 1. destruct (_ || _); [|done].
    intros H _. eapply IH; [exact H|by right]. }
  assert (z1 = false) as -> by (eapply Hg; [exact Hacc|by left]).
  destruct (accepts value_spec false v2) as [z2|] eqn:Hacc2; [|done]. intros _. assert (z2 = false) as -> by (eapply Hg; [exact Hacc2|by right]).
  destruct (simulates_quiet _ _ value_simulates v2 false false 16 ltac:(by left) Hacc2) as (cs' & [<-|[]] & Hq). split; [|done].
  by destruct (parse_token (act request_callbacks) value_spec above_value Mark (λ p, (set_mark p q, d)) 15 true false pre v1 s (q, d)
    value_simulates value_enters (λ _ _, eq_refl) Hne Hacc) as (cs' & [<-|[]] & ->).
Qed.
(** Some of a name, and all of it. *)
Lemma parse_name_begin pre k1 k2 s q d : k1 ≠ "" → name_ok (k1 ++ k2) = true →
  parse pre 13 (k1 ++ s) (q, d) = parse (pre ++ k1) 14 s (set_field_start (str_len pre) q, d) ∧ quiet 14 k2 14.
Proof.
  intros Hne [_ Hk]%andb_true_iff. rewrite accepts_app in Hk. destruct (accepts token_spec () k1) as [[]|] eqn:Ha1; [|done].
  destruct (accepts token_spec () k2) as [[]|] eqn:Ha2; [|done].
  destruct (simulates_quiet _ _ token_simulates k2 () () 14 ltac:(by left) Ha2) as (cs' & [<-|[]] & Hq). split; [|done].
  by destruct (parse_token (act request_callbacks) token_spec above_token StartField (λ p, (set_field_start p q, d)) 13 () () pre k1 s (q, d)
    token_simulates token_enters (λ _ _, eq_refl) Hne Ha1) as (cs' & [<-|[]] & ->).
Qed.
(** From the end of a name, which began behind [pre], to the value. *)
Lemma parse_colon pre k s q d : field_start q = str_len pre → fits (pre ++ k ++ ": " ++ s) →
  ∃ q', parse (pre ++ k) 14 (": " ++ s) (q, d) = parse (pre ++ k ++ ": ") 15 s (q', d) ∧
    field_start q' = str_len pre ∧ field_len q' = str_len k.
Proof.
  intros Hq Hf. set (q2 := set_field_len (str_len k) q). exists (set_mark (str_len ((pre ++ k) ++ ":")) q2).
  destruct (marked pre k (": " ++ s) Hf) as [HL _]. change (": " ++ s) with (String ":" (String " " s)).
  rewrite (parse_edge (act request_callbacks) (pre ++ k) 14 ":" _ [WriteField] 15 _ (q2, d)); [|by destruct r|done|].
  2:{ rewrite (do_action (act request_callbacks) _ _ _ _ _ (q2, d)); [done|]. unfold act. rewrite parser_bind. by rewrite Hq, HL. }
  rewrite (parse_edge (act request_callbacks) ((pre ++ k) ++ ":") 15 " " _ [Mark] 15 _ (set_mark (str_len ((pre ++ k) ++ ":")) q2, d)); [|by destruct r|done|done].
  by rewrite !str_app_assoc.
Qed.
Lemma parse_name_end pre k v s q d : field_start q = str_len pre → value_ok v = true → fits (pre ++ k ++ ": " ++ v ++ CRLF ++ s) →
  ∃ q', parse (pre ++ k) 14 (": " ++ v ++ CRLF ++ s) (q, d) = parse (pre ++ k ++ ": " ++ v ++ CRLF) 13 s (q', upd (set_named k v) d).
Proof.
  intros Hq Hv Hf. destruct (parse_colon pre k (v ++ CRLF ++ s) q d Hq Hf) as (q3 & -> & Hfs & Hfl).
  assert (Hf' : fits ((pre ++ k ++ ": ") ++ v ++ CRLF ++ s)) by (revert Hf; by rewrite !str_app_assoc).
  set (q4 := set_mark (str_len (pre ++ k ++ ": ")) q3).
  pose proof (act_write_value pre k v (CRLF ++ s) q4 d Hfs Hfl eq_refl Hf') as Hw. exists q4. destruct v as [|vc v].
  - cbn [append] in *. unfold CRLF at 1. cbn [append]. rewrite str_app_nil_r in Hw.
    rewrite (parse_edge (act request_callbacks) _ 15 "013" _ [Mark; WriteValue] 17 _ (q4, upd (set_named k "") d)); [|by destruct r|done|].
    + rewrite parse_line_end. by rewrite !str_app_assoc.
    + rewrite (do_action (act request_callbacks) _ Mark _ _ _ (q4, d)) by done. by rewrite (do_action (act request_callbacks) _ _ _ _ _ _ Hw).
  - destruct (parse_value_begin (pre ++ k ++ ": ") (String vc v) "" (CRLF ++ s) q3 d) as [-> _]; [done|by rewrite str_app_nil_r|].
    fold q4. unfold CRLF at 1. cbn [append].
    rewrite (parse_edge (act request_callbacks) _ 16 "013" _ [WriteValue] 17 _ (q4, upd (set_named k (String vc v)) d)); [|by destruct r|done|].
    + rewrite parse_line_end. by rewrite !str_app_assoc.
    + by rewrite (do_action (act request_callbacks) _ _ _ _ _ _ Hw).
Qed.
Lemma parse_field pre k v s q d : name_ok k = true → value_ok v = true → fits (pre ++ k ++ ": " ++ v ++ CRLF ++ s) →
  ∃ q', parse pre 13 (k ++ ": " ++ v ++ CRLF ++ s) (q, d) = parse (pre ++ k ++ ": " ++ v ++ CRLF) 13 s (q', upd (setHeader k v) d).
Proof.
  intros Hk Hv Hf. assert (Hne : k ≠ "") by (by intros ->).
  destruct (parse_name_begin pre k "" (": " ++ v ++ CRLF ++ s) q d Hne) as [-> _]; [by rewrite str_app_nil_r|].
  destruct (parse_name_end pre k v s (set_field_start (str_len pre) q) d eq_refl Hv Hf) as (q' & ->). exists q'. by destruct k.
Qed.
(** The end of a value whose field has lost its name. *)
Lemma parse_value_lost pre s q d : field_len q = 0 → parse pre 16 (CRLF ++ s) (q, d) = parse (pre ++ CRLF) 13 s (q, d).
Proof.
  intros Hq. unfold CRLF at 1. cbn [append].
  rewrite (parse_edge (act request_callbacks) _ 16 "013" _ [WriteValue] 17 _ (q, d)); [|by destruct r|done|].
  - rewrite parse_line_end. by rewrite !str_app_assoc.
  - rewrite (do_action (act request_callbacks) _ _ _ _ _ (q, d)); [done|]. unfold act. rewrite parser_bind. cbn [http_field request_callbacks].
    unfold on_data, on_request_http_field. by rewrite Hq.
Qed.

Definition set_fields (hs : MapType) (rq : HttpRequest) : HttpRequest := foldl (λ rq e, setHeader e.1 e.2 rq) rq hs.
Lemma parse_fields hs : fields_ok hs → ∀ pre s q d, fits (pre ++ fields_text hs ++ s) →
  ∃ q', parse pre 13 (fields_text hs ++ s) (q, d) = parse (pre ++ fields_text hs) 13 s (q', upd (set_fields hs) d).
Proof.
  induction 1 as [|[k v] hs [Hk Hv] _ IH]; intros pre s q d Hf.
  { exists q. cbn. rewrite str_app_nil_r. by destruct d. }
  cbn [fields_text fmap list_fmap lines_text foldr] in *. fold (lines_text (field_line <$> hs)) in *. fold (fields_text hs) in *.
  unfold field_line in *. cbn [fst snd] in *. rewrite !str_app_assoc in *.
  destruct (parse_field pre k v (fields_text hs ++ s) q d Hk Hv Hf) as (q1 & ->).
  destruct (IH (pre ++ k ++ ": " ++ v ++ CRLF) s q1 (upd (setHeader k v) d)) as (q2 & ->); [by rewrite !str_app_assoc|].
  exists q2. rewrite !str_app_assoc. reflexivity.
Qed.
(** The empty line ends the run in state 348. *)
Lemma parse_end pre s q d : ∃ q', parse pre 13 (CRLF ++ s) (q, d) = Done (q', d) (348, str_len (pre ++ CRLF)).
Proof.
  unfold CRLF at 1. cbn [append]. set (q1 := set_field_start (str_len pre) q).
  rewrite (parse_edge (act request_callbacks) pre 13 "013" _ [StartField] 18 _ (q1, d)); [|by destruct r|done|done].
  assert (∃ q', act request_callbacks ((pre ++ String "013" "") ++ String "010" s) HeadDone (str_len (pre ++ String "013" "")) (q1, d) = Done (q', d) ())
    as (q' & Ha).
  { unfold act. rewrite parser_bind. case_bool; eexists; reflexivity. }
  exists q'. unfold Ragel.parse. rewrite (run_break _ 18 _ "010" s [HeadDone] 348 _ (q', d)); [|by destruct r|by rewrite (do_action (act request_callbacks) _ _ _ _ _ _ Ha)].
  rewrite !str_len_app, <-Z.add_assoc. reflexivity.
Qed.

(** The last fields, and what follows the target. *)
Lemma parse_rest hs pre rest q d : fields_ok hs → fits (pre ++ fields_text hs ++ CRLF ++ rest) →
  ∃ q', parse pre 13 (fields_text hs ++ CRLF ++ rest) (q, d) = Done (q', upd (set_fields hs) d) (348, str_len (pre ++ fields_text hs ++ CRLF)).
Proof.
  intros Hhs Hf. destruct (parse_fields hs Hhs pre (CRLF ++ rest) q d Hf) as (q1 & ->).
  destruct (parse_end (pre ++ fields_text hs) rest q1 (upd (set_fields hs) d)) as (q2 & ->). exists q2. by rewrite !str_app_assoc.
Qed.
Lemma parse_tail v hs pre rest q d : v = 0x10 ∨ v = 0x11 → fields_ok hs → fits (pre ++ dump_version v ++ CRLF ++ fields_text hs ++ CRLF ++ rest) →
  ∃ q', parse pre 4 (dump_version v ++ CRLF ++ fields_text hs ++ CRLF ++ rest) (q, d) =
    Done (q', upd (set_fields hs) (upd (setVersion v) d)) (348, str_len (pre ++ dump_version v ++ CRLF ++ fields_text hs ++ CRLF)).
Proof.
  intros Hv Hhs Hf. destruct (parse_version_line pre v _ q d Hv Hf) as (q1 & ->).
  destruct (parse_rest hs (pre ++ dump_version v ++ CRLF) rest q1 (upd (setVersion v) d) Hhs) as (q2 & ->); [by rewrite !str_app_assoc|].
  exists q2. by rewrite !str_app_assoc.
Qed.

(** The head of a request. *)
Definition line_text (m : HttpMethod) (path query fragment : string) (v : Z) : string :=
  HttpMethodToString m ++ " " ++ target path query fragment ++ " " ++ dump_version v ++ CRLF.
Definition head_text (m : HttpMethod) (path query fragment : string) (v : Z) (hs : MapType) : string :=
  HttpMethodToString m ++ " " ++ target path query fragment ++ " " ++ dump_version v ++ CRLF ++ fields_text hs ++ CRLF.
Definition head_ok (m : HttpMethod) (path query fragment : string) (v : Z) (hs : MapType) : Prop :=
  m ≠ INVALID_METHOD ∧ m ≠ MSEARCH ∧ path_ok path = true ∧ query_ok query = true ∧ query_ok fragment = true ∧
  (v = 0x10 ∨ v = 0x11) ∧ fields_ok hs.
Definition line_read (m : HttpMethod) (path query fragment : string) (v : Z) (rq : HttpRequest) : HttpRequest :=
  setVersion v (setFragment_opt fragment (setQuery_opt query (setPath path (setMethod m rq)))).
Definition head_read (m : HttpMethod) (path query fragment : string) (v : Z) (hs : MapType) (rq : HttpRequest) : HttpRequest :=
  set_fields hs (line_read m path query fragment v rq).
Lemma parse_line m path query fragment v hs s q d : head_ok m path query fragment v hs → fits (line_text m path query fragment v ++ s) →
  ∃ q', parse "" 1 (line_text m path query fragment v ++ s) (q, d) =
    parse (line_text m path query fragment v) 13 s (q', upd (line_read m path query fragment v) d).
Proof.
  intros (Hm & Hm' & Hp & Hq & Hfr & Hv & _) Hf. unfold line_text in *. rewrite !str_app_assoc in *.
  destruct (parse_method "" m _ q d Hm Hm' Hf) as (q1 & ->).
  edestruct (parse_target ("" ++ HttpMethodToString m ++ " ") path query fragment) as (q2 & ->); [done..|by cbn [append]; rewrite !str_app_assoc|].
  edestruct (parse_version_line (("" ++ HttpMethodToString m ++ " ") ++ target path query fragment ++ " ") v) as (q3 & ->); [done|by cbn [append]; rewrite !str_app_assoc|].
  exists q3. cbn [append]. rewrite !str_app_assoc. reflexivity.
Qed.
Lemma head_line m path query fragment v hs : head_text m path query fragment v hs = line_text m path query fragment v ++ fields_text hs ++ CRLF.
Proof. unfold head_text, line_text. by rewrite !str_app_assoc. Qed.
Lemma parse_head m path query fragment v hs rest q d : head_ok m path query fragment v hs →
  fits (head_text m path query fragment v hs ++ rest) →
  ∃ q', parse "" 1 (head_text m path query fragment v hs ++ rest) (q, d) =
    Done (q', upd (head_read m path query fragment v hs) d) (348, str_len (head_text m path query fragment v hs)).
Proof.
  intros Hok Hf. rewrite head_line, !str_app_assoc in *. destruct (parse_line m path query fragment v hs _ q d Hok Hf) as (q1 & ->).
  destruct (parse_rest hs (line_text m path query fragment v) rest q1 (upd (line_read m path query fragment v) d)) as (q2 & ->); [by apply Hok|done|].
  exists q2. reflexivity.
Qed.
End machine.

(** Reading a head leaves the body, the flags and the parameters alone. *)
Lemma set_fields_rest hs rq : set_fields hs rq = setHeaders (foldl (λ hd e, map_set e.1 e.2 hd) (m_headers rq) hs) rq.
Proof. revert rq. induction hs as [|e hs IH]; intros rq; cbn; [by destruct rq|]. fold (set_fields hs (setHeader e.1 e.2 rq)). by rewrite IH. Qed.
Lemma head_read_eq m path query fragment v hs : head_read m path query fragment v hs (HttpRequest_new 0x11 true) =
  mkHttpRequest m v true false 0 path query fragment "" (foldl (λ hd e, map_set e.1 e.2 hd) [] hs) [] [].
Proof. unfold head_read. rewrite set_fields_rest. unfold setFragment_opt, setQuery_opt. by destruct query, fragment. Qed.
Lemma head_text_pos m path query fragment v hs : 0 < str_len (head_text m path query fragment v hs).
Proof.
  unfold head_text. destruct (method_name_ok m) as [_ Hn]. rewrite !str_len_app. destruct (HttpMethodToString m) as [|c w]; [done|].
  unfold str_len. cbn [String.length]. lia.
Qed.
(** [execute] on a text whose run is known. *)
Lemma execute_parse t q d q' d' cs' p : let r := negb (uri_relaxed q =? 0) in 0 < str_len t < 2 ^ 31 →
  0 ≤ query_start q < 2 ^ 63 → body_start q = 0 → http_parser_has_error q = false → untouched d →
  Ragel.parse (Machine0 := http11 r) (act request_callbacks) "" (cs q) t (execute_reset q, d) = Done (q', d') (cs', p) →
  execute t (q, d) = Done (set_nread p (set_cs cs' q'), d') (p, str_drop (Z.to_nat p) t).
Proof.
  intros r Hl Hq Hb He Hd Hp. pose proof (execute_run untouched request_callbacks t request_callbacks_safe ltac:(lia) q d ltac:(lia)) as Hx.
  pose proof (run_safe untouched request_callbacks t request_callbacks_safe ltac:(lia) r t (cs q) 0
    (execute_reset q) d ltac:(lia) ltac:(lia)) as Hs.
  unfold Ragel.parse in Hp. cbn [append] in Hp. change (str_len "") with 0 in Hp. fold r in Hx. rewrite Hp in Hs.
  destruct Hs as (_ & Hmk & Hle & Hcs & _); [split; cbn; lia|by intros _; unfold field_ok; cbn|done|].
  rewrite (bind_done _ _ _ _ _ Hp), (execute_end_eq untouched request_callbacks _ request_callbacks_safe (proj2 Hl)) in Hx by (done || lia).
  unfold execute. rewrite (bind_done _ _ _ _ _ Hx). assert (He' : http_parser_has_error q' = false) by (unfold http_parser_has_error in *; by rewrite Hcs).
  by rewrite He'.
Qed.
(** [execute] on a text that begins with the head of a request reads exactly the head. *)
Lemma execute_head m path query fragment v hs rest mem : head_ok m path query fragment v hs →
  fits (head_text m path query fragment v hs ++ rest) → 0 ≤ query_start mem < 2 ^ 63 →
  ∃ prs, execute (head_text m path query fragment v hs ++ rest) (HttpRequestParser_new mem) =
      Done prs (str_len (head_text m path query fragment v hs), rest) ∧
    hasError prs = false ∧ isFinished prs = 1 ∧ m_data prs.2 = head_read m path query fragment v hs (HttpRequest_new 0x11 true).
Proof.
  intros Hok Hf Hm. set (t := head_text m path query fragment v hs) in *. unfold HttpRequestParser_new.
  assert (Hpos : 0 < str_len (t ++ rest)).
  { rewrite str_len_app. pose proof (head_text_pos m path query fragment v hs : 0 < str_len t). pose proof (str_len_nonneg rest). lia. }
  destruct (parse_head (negb (uri_relaxed (http_parser_init mem) =? 0)) m path query fragment v hs rest (execute_reset (http_parser_init mem))
    (mkRequestData (HttpRequest_new 0x11 true) 0) Hok Hf) as (q' & Hp). fold t in Hp.
  eexists. split.
  { rewrite (execute_parse (t ++ rest) (http_parser_init mem) (mkRequestData (HttpRequest_new 0x11 true) 0) _ _ _ _ (conj Hpos Hf) Hm eq_refl eq_refl ltac:(done) Hp).
    unfold str_len. rewrite Nat2Z.id, str_drop_app_exact. reflexivity. }
  done.
Qed.
