(* ===== verification/HttpSession.v ===== *)
(** * HttpSession ([webserve/http/http_session.h], [http_session.cc])

    Receiving requests and sending responses over a [Stream], which stands for the
    SocketStream the session is.  [recvRequest] is safe on any stream. *)
From S2P Require Import Prelude Text Http Callbacks Ragel Http11Table Http11 Http11Facts HttpParser Stream.
Open Scope string_scope.
Open Scope Z_scope.


Section session.
Context {S : Type} `{!Stream S}.
(** Boost's conversion to [uint64_t]; [GetHttpRequestBufferSize()]; the memory of the
    new parser. *)
Context (lexical_cast : string → option Z) (buff_size : Z) (mem : http_parser).

(** The loop of [recvRequest]: [data] are the first [offset] bytes of the buffer. *)
Fixpoint recv_loop (fuel : nat) (parser : HttpRequestParser) (data : string) (offset : Z)
  : M S (option (HttpRequestParser * string * Z)) :=
  match fuel with
  | O => nofuel
  | Datatypes.S fuel =>
      '(len, d) ← read (u64 (buff_size - offset));
      if len <=? 0 then close ;; mret None else
      stored buff_size offset d ;;
      let len := s32 (len + offset) in
      '(parser, (nparse, data)) ← local (execute (data ++ text_of d)) parser;
      if hasError parser then close ;; mret None else
      let offset := s32 (len - nparse) in
      if offset =? s32 buff_size then close ;; mret None else
      if negb (isFinished parser =? 0) then mret (Some (parser, data, offset))
      else recv_loop fuel parser data offset
  end.

(** What follows the loop: the body; [body.resize(length)] throws beyond [max_size]. *)
Definition recv_body (parser : HttpRequestParser) (data : string) (offset : Z) : M S (option HttpRequest) :=
  let length := s64 (getContentLength lexical_cast parser) in
  let request := m_data parser.2 in
  if length >? 0 then
    if length >? str_max then raise ExnLengthError else
    let len := if length >=? offset then offset else length in
    let body := str_ztake len data in
    let length := s64 (length - offset) in
    if length >? 0 then
      '(r, d) ← readFixSize length;
      if r <=? 0 then close ;; mret None else
      mret (Some (init (setBody (body ++ text_of d ++ str_repeat (Z.to_nat (length - zlen d)) NUL) request)))
    else mret (Some (init (setBody body request)))
  else mret (Some (init request)).

(** [HttpSession::recvRequest] *)
Definition recvRequest (fuel : nat) : M S (option HttpRequest) :=
  head ← recv_loop fuel (HttpRequestParser_new mem) "" 0;
  match head with
  | Some (parser, data, offset) => recv_body parser data offset
  | None => mret None
  end.

(** [HttpSession::sendResponse] *)
Definition sendResponse (rsp : HttpResponse) : M S Z :=
  let data := HttpResponse_dump rsp in
  writeFixSize (bytes_of data).
End session.
