(* ===== verification/HttpSessionFacts.v ===== *)
(** * HttpSessionFacts: receiving a request from any stream *)
From S2P Require Import Prelude Text Http HttpFacts HttpGrammar HttpFields Callbacks Ragel Http11Table Http11 Http11Facts HttpParser HttpParserFacts Stream Segments HttpSession.
Open Scope string_scope.
Open Scope Z_scope.

(** A call of [execute] on the object of a session. *)
Definition parser_ok (prs : HttpRequestParser) : Prop :=
  0 ≤ query_start prs.1 < 2 ^ 63 ∧ body_start prs.1 = 0 ∧ http_parser_has_error prs.1 = false ∧ untouched prs.2.
Lemma execute_ok data prs : str_len data < 2 ^ 31 → parser_ok prs →
  match execute data prs with
  | Done prs' (n, rest) => 0 ≤ n ≤ str_len data ∧ str_len rest = str_len data - n ∧ untouched prs'.2 ∧
      (hasError prs' = false → isFinished prs' = 0 → parser_ok prs')
  | Raise _ _ => True
  | _ => False
  end.
Proof.
  destruct prs as [q d]. intros Hl (Hq & Hb & He & Hu). cbn [fst snd] in *. unfold execute. pose proof (str_len_nonneg data).
  pose proof (http_parser_execute_safe untouched request_callbacks data request_callbacks_safe Hl q d Hq ltac:(lia) Hu) as Hs.
  destruct (http_parser_execute request_callbacks data 0 (q, d)) as [[q' d'] n|? ?| |] eqn:E; try done.
  2:{ by rewrite (bind_raise _ _ _ _ _ E). }
  destruct Hs as (Hu' & Hn & Hq' & Hb'). rewrite (bind_done _ _ _ _ _ E). cbn.
  split; [done|]. split; [rewrite str_len_drop; lia|]. split; [done|]. unfold hasError, isFinished, http_parser_finish. cbn [fst snd].
  intros [_ He']%orb_false_iff. rewrite He'. destruct (http_parser_is_finished q') eqn:Hf; [done|]. intros _. unfold parser_ok. cbn. rewrite Hb', Hb by done. done.
Qed.

Lemma init_keeps r : m_body (init r) = m_body r ∧ m_headers (init r) = m_headers r.
Proof. unfold init. repeat case_bool; done. Qed.
Lemma str_len_ztake n s : 0 ≤ n ≤ str_len s → str_len (str_ztake n s) = n.
Proof. intros. unfold str_ztake. rewrite Z.min_l by lia. rewrite str_len_take; lia. Qed.

Section laws.
Context {S : Type} `{!Stream S, !StreamLaws S} (lexical_cast : string → option Z) (buff_size : Z) (mem : http_parser).
#[local] Set Default Proof Using "All".
Hypothesis Hbuff : 0 < buff_size < 2 ^ 31.

Lemma close_none s : ∃ s', (close ;; mret (None : option (HttpRequestParser * string * Z))) s = Done s' None ∧ outgoing s' = outgoing s.
Proof. destruct (close_law s) as (s' & Hc & _ & Ho). exists s'. by rewrite (bind_done _ _ _ _ _ Hc). Qed.

(** The loop ends on every stream: with nothing, or with a parser that has finished
    and the bytes it left over. *)
Lemma recv_loop_ok fuel : ∀ prs data offset s, (List.length (incoming s) < fuel)%nat → parser_ok prs →
  offset = str_len data → offset < buff_size →
  match recv_loop buff_size fuel prs data offset s with
  | Done s' None | Raise s' _ => outgoing s' = outgoing s
  | Done s' (Some (prs', data', offset')) => outgoing s' = outgoing s ∧ untouched prs'.2 ∧ offset' = str_len data' ∧
      0 ≤ offset' < buff_size ∧ (List.length (incoming s') < List.length (incoming s))%nat
  | _ => False
  end.
Proof.
  induction fuel as [|fuel IH]; intros prs data offset s Hf Hp Ho Hob; [lia|]. cbn [recv_loop]. pose proof (str_len_nonneg data).
  rewrite u64_small by lia. destruct (read_law (buff_size - offset) s ltac:(lia)) as (s1 & len & d & Hr & Hle & Hge & Hout & Hin).
  rewrite (bind_done _ _ _ _ _ Hr). cbn beta iota. destruct (len <=? 0) eqn:Hlen.
  { destruct (close_none s1) as (s' & -> & Ho'). congruence. }
  replace (0 <? len) with true in Hin by lia. destruct Hin as [Hd Hin]. rewrite stored_bind, (s32_small (len + offset)) by lia.
  assert (Htl : str_len (data ++ text_of d) = len + offset) by (rewrite str_len_app, str_len_text_of; lia).
  pose proof (execute_ok (data ++ text_of d) prs ltac:(lia) Hp) as He. unfold local.
  destruct (execute (data ++ text_of d) prs) as [prs' [n rest]|? ?| |] eqn:E; try done.
  erewrite bind_done; [|reflexivity]. cbv beta iota.
  destruct He as (Hn & Hrest & Hu & Hok). destruct (hasError prs') eqn:Herr.
  { destruct (close_none s1) as (s' & -> & Ho'). congruence. }
  rewrite !s32_small by lia. destruct (_ =? buff_size) eqn:Hfull.
  { destruct (close_none s1) as (s' & -> & Ho'). congruence. }
  destruct (isFinished prs' =? 0) eqn:Hfin; cbn [negb].
  - assert (Hlt : (List.length (incoming s1) < fuel)%nat).
    { rewrite Hin, length_app in Hf. unfold zlen in Hd. lia. }
    specialize (IH prs' rest (len + offset - n) s1 Hlt ltac:(apply Hok; [done|lia]) ltac:(lia) ltac:(lia)). revert IH.
    destruct (recv_loop buff_size fuel prs' rest _ s1) as [s2 [[[??]?]|]|s2 ?| |]; rewrite <-?Hout; try done.
    intros (? & ? & ? & ? & ?). split_and!; try done; try lia. rewrite Hin, length_app. lia.
  - cbn. split; [done|]. split; [done|]. rewrite Hin, length_app. unfold zlen in Hd. lia.
Qed.
Lemma recv_body_ok prs data offset s : offset = str_len data → offset < 2 ^ 31 → untouched prs.2 →
  match recv_body lexical_cast prs data offset s with
  | Done s' None => outgoing s' = outgoing s
  | Done s' (Some r) => outgoing s' = outgoing s ∧ m_headers r = m_headers (m_data prs.2) ∧
      str_len (m_body r) = Z.max 0 (s64 (getContentLength lexical_cast prs)) ∧ (List.length (incoming s') ≤ List.length (incoming s))%nat
  | Raise s' _ => outgoing s' = outgoing s
  | _ => False
  end.
Proof.
  intros Ho Hob Hu. pose proof (str_len_nonneg data) as Hnn. unfold recv_body. set (n := s64 (getContentLength lexical_cast prs)).
  assert (Hn : n < 2 ^ 63) by (unfold n, s64; pose proof (Z.mod_pos_bound (getContentLength lexical_cast prs + 2 ^ 63) (2 ^ 64)); lia).
  destruct (n >? 0) eqn:Hpos.
  2:{ cbn. destruct (init_keeps (m_data prs.2)) as [-> ->]. destruct Hu as (-> & _). rewrite Z.max_l by lia. done. }
  destruct (n >? str_max); [done|]. rewrite s64_small by lia. destruct (n - offset >? 0) eqn:Hrest.
  - replace (n >=? offset) with true by lia.
    destruct (readFixSize_ok (S := S) (n - offset) s ltac:(lia)) as (s1 & r & d & Hr & Hin & Hout & Hd).
    rewrite (bind_done _ _ _ _ _ Hr). cbv beta iota. destruct (r <=? 0) eqn:Hr0.
    { destruct (close_law s1) as (s' & Hc & _ & Ho'). rewrite (bind_done _ _ _ _ _ Hc). cbn. congruence. }
    destruct Hd as [[Hd _]|]; [|lia]. cbn. split; [done|].
    match goal with |- context [init ?q] => destruct (init_keeps q) as [-> ->] end. split; [done|].
    cbn [m_body setBody]. rewrite Hd, Z.sub_diag, !str_len_app, str_len_ztake, str_len_text_of by lia. change (str_len (str_repeat (Z.to_nat 0) NUL)) with 0.
    split; [lia|]. rewrite Hin, length_app. lia.
  - cbn. split; [done|]. match goal with |- context [init ?q] => destruct (init_keeps q) as [-> ->] end. split; [done|].
    cbn. rewrite str_len_ztake by (destruct (n >=? offset); lia). split; [destruct (n >=? offset) eqn:E; lia|done].
Qed.

(** A call that returns a request has taken bytes from the stream. *)
Lemma recvRequest_takes fuel s : (List.length (incoming s) < fuel)%nat → 0 ≤ query_start mem < 2 ^ 63 →
  match recvRequest lexical_cast buff_size mem fuel s with
  | Done s' (Some _) => (List.length (incoming s') < List.length (incoming s))%nat
  | Done _ None | Raise _ _ => True
  | _ => False
  end.
Proof.
  intros Hf Hm. unfold recvRequest. assert (Hp : parser_ok (HttpRequestParser_new mem)) by done.
  pose proof (recv_loop_ok fuel _ "" 0 s Hf Hp eq_refl ltac:(lia)) as Hl.
  destruct (recv_loop buff_size fuel (HttpRequestParser_new mem) "" 0 s) as [s1 [[[prs data] offset]|]|s1 e| |] eqn:E; try done.
  - rewrite (bind_done _ _ _ _ _ E). destruct Hl as (_ & Hu & Hoff & Hb & Hlt).
    pose proof (recv_body_ok prs data offset s1 Hoff ltac:(lia) Hu) as Hr.
    destruct (recv_body lexical_cast prs data offset s1) as [s2 [r|]|s2 ?| |]; try done. destruct Hr as (_ & _ & _ & Hle). lia.
  - by rewrite (bind_done _ _ _ _ _ E).
  - by rewrite (bind_raise _ _ _ _ _ E).
Qed.
(** C17: [recvRequest] ends on every stream, without a failed assertion or an access
    outside the buffer: it returns nothing, or a request whose body is exactly as long
    as its content-length says, or an exception escapes from a callback, or from the string
    of a body too long for any string.  It sends nothing. *)
Theorem recvRequest_safe fuel s : (List.length (incoming s) < fuel)%nat → 0 ≤ query_start mem < 2 ^ 63 →
  match recvRequest lexical_cast buff_size mem fuel s with
  | Done s' None => outgoing s' = outgoing s
  | Done s' (Some r) => outgoing s' = outgoing s ∧
      str_len (m_body r) = Z.max 0 (s64 (getAs lexical_cast (m_headers r) "content-length" 0))
  | Raise s' _ => outgoing s' = outgoing s
  | _ => False
  end.
Proof.
  intros Hf Hm. unfold recvRequest.
  assert (Hp : parser_ok (HttpRequestParser_new mem)) by done.
  pose proof (recv_loop_ok fuel _ "" 0 s Hf Hp eq_refl ltac:(lia)) as Hl.
  destruct (recv_loop buff_size fuel (HttpRequestParser_new mem) "" 0 s) as [s1 [[[prs data] offset]|]|s1 e| |] eqn:E; try done.
  - rewrite (bind_done _ _ _ _ _ E). destruct Hl as (Ho & Hu & Hoff & Hb).
    pose proof (recv_body_ok prs data offset s1 Hoff ltac:(lia) Hu) as Hr.
    destruct (recv_body lexical_cast prs data offset s1) as [s2 [r|]|s2 ?| |]; try done; [|congruence..].
    destruct Hr as (Ho2 & Hh & Hlen & _). split; [congruence|]. rewrite Hlen, Hh. done.
  - by rewrite (bind_done _ _ _ _ _ E).
  - by rewrite (bind_raise _ _ _ _ _ E).
Qed.

(** ** A request that arrives with its head in one piece *)
Lemma text_of_len d : str_len (text_of d) = zlen d.
Proof. apply str_len_text_of. Qed.
Lemma recv_loop_head fuel m path query fragment v hs b1 s s1 len d : head_ok m path query fragment v hs → 0 ≤ query_start mem < 2 ^ 63 →
  read buff_size s = Done s1 (len, d) → zlen d = len → len ≤ buff_size → text_of d = head_text m path query fragment v hs ++ b1 →
  ∃ prs, recv_loop buff_size (Datatypes.S fuel) (HttpRequestParser_new mem) "" 0 s = Done s1 (Some (prs, b1, str_len b1)) ∧
    m_data prs.2 = head_read m path query fragment v hs (HttpRequest_new 0x11 true).
Proof.
  intros Hok Hm Hr Hd Hle Ht. cbn [recv_loop]. rewrite Z.sub_0_r, u64_small by lia.
  pose proof (head_text_pos m path query fragment v hs) as Hpos. pose proof (str_len_nonneg b1) as Hb1.
  assert (Htl : str_len (head_text m path query fragment v hs) + str_len b1 = len) by (rewrite <-str_len_app, <-Ht, text_of_len; lia).
  rewrite (bind_done _ _ _ _ _ Hr). cbv beta iota. replace (len <=? 0) with false by lia. rewrite stored_bind by lia. cbn [append]. rewrite Ht.
  destruct (execute_head m path query fragment v hs b1 mem Hok) as (prs & He & Herr & Hfin & Hdata);
    [unfold fits; rewrite str_len_app; lia|done|].
  unfold local. rewrite He. erewrite bind_done; [|reflexivity]. cbv beta iota. rewrite Herr, Hfin. cbn [negb Z.eqb].
  rewrite Z.add_0_r, !s32_small by (rewrite ?s32_small; lia). replace (len - str_len (head_text m path query fragment v hs)) with (str_len b1) by lia.
  replace (str_len b1 =? buff_size) with false by lia. exists prs. done.
Qed.

(** The whole request in one read. *)
Lemma recvRequest_whole fuel m path query fragment v hs body s s1 len d :
  head_ok m path query fragment v hs → 0 ≤ query_start mem < 2 ^ 63 →
  getAs lexical_cast (m_headers (head_read m path query fragment v hs (HttpRequest_new 0x11 true))) "content-length" 0 = str_len body →
  read buff_size s = Done s1 (len, d) → zlen d = len → len ≤ buff_size → text_of d = head_text m path query fragment v hs ++ body →
  recvRequest lexical_cast buff_size mem (Datatypes.S fuel) s =
    Done s1 (Some (init (setBody body (head_read m path query fragment v hs (HttpRequest_new 0x11 true))))).
Proof.
  intros Hok Hm Hcl Hr Hd Hle Ht. unfold recvRequest.
  destruct (recv_loop_head fuel m path query fragment v hs body s s1 len d Hok Hm Hr Hd Hle Ht) as (prs & Hl & Hdata).
  rewrite (bind_done _ _ _ _ _ Hl). cbv beta iota. unfold recv_body, getContentLength. rewrite Hdata, Hcl.
  assert (Hbl : str_len body ≤ len).
  { pose proof (head_text_pos m path query fragment v hs). pose proof (text_of_len d) as Htl. rewrite Ht, str_len_app in Htl. lia. }
  pose proof (str_len_nonneg body). rewrite s64_small by lia. rewrite Z.sub_diag. change (s64 0 >? 0) with false. cbv iota.
  assert (Hb : str_ztake (str_len body) body = body) by (rewrite <-(str_app_nil_r body) at 2; apply str_ztake_exact).
  destruct (str_len body >? 0) eqn:Hpos.
  - replace (str_len body >? str_max) with false by (unfold str_max; lia). if_true. by rewrite Hb.
  - rewrite (str_len_0 body) in * by lia. by rewrite head_read_eq.
Qed.

(** What [recvRequest] returns for a head, its fields naming the length of the body. *)
Lemma recvRequest_head fuel m path query fragment v hs body b1 b2 rest s s1 len d :
  head_ok m path query fragment v hs → 0 ≤ query_start mem < 2 ^ 63 → str_len body < 2 ^ 31 → body = b1 ++ b2 →
  getAs lexical_cast (m_headers (head_read m path query fragment v hs (HttpRequest_new 0x11 true))) "content-length" 0 = str_len body →
  read buff_size s = Done s1 (len, d) → zlen d = len → len ≤ buff_size → text_of d = head_text m path query fragment v hs ++ b1 →
  incoming s1 = (bytes_of b2 ++ rest)%list → outgoing s1 = outgoing s →
  ∃ s' r, recvRequest lexical_cast buff_size mem (Datatypes.S fuel) s = Done s' r ∧ outgoing s' = outgoing s ∧
    (r = Some (init (setBody body (head_read m path query fragment v hs (HttpRequest_new 0x11 true)))) ∧ incoming s' = rest ∨
     r = None ∧ stream_closed s' = true ∧ b2 ≠ "").
Proof.
  intros Hok Hm Hbl -> Hcl Hr Hd Hle Ht Hin Hout. unfold recvRequest.
  destruct (recv_loop_head fuel m path query fragment v hs b1 s s1 len d Hok Hm Hr Hd Hle Ht) as (prs & Hl & Hdata).
  rewrite (bind_done _ _ _ _ _ Hl). cbv beta iota. unfold recv_body, getContentLength. rewrite Hdata, Hcl.
  rewrite str_len_app in *. pose proof (str_len_nonneg b1). pose proof (str_len_nonneg b2). rewrite s64_small by lia.
  assert (Hb1 : str_ztake (str_len b1) b1 = b1) by (rewrite <-(str_app_nil_r b1) at 2; apply str_ztake_exact).
  destruct (str_len b1 + str_len b2 >? 0) eqn:Hpos.
  2:{ rewrite (str_len_0 b1), (str_len_0 b2) by lia. rewrite (str_len_0 b2) in Hin by lia. rewrite head_read_eq. eexists _, _. split; [reflexivity|]. split; [done|by left]. }
  replace (str_len b1 + str_len b2 >? str_max) with false by (unfold str_max; lia).
  replace (str_len b1 + str_len b2 >=? str_len b1) with true by lia. rewrite Hb1, Z.add_simpl_l, s64_small by lia.
  destruct (str_len b2 >? 0) eqn:Hpos2.
  2:{ pose proof (str_len_0 b2 ltac:(lia)) as ->. rewrite str_app_nil_r. eexists _, _. split; [reflexivity|]. split; [done|by left]. }
  destruct (readFixSize_text b2 rest s1 ltac:(lia) Hin) as (s2 & r & d2 & Hr2 & Hout2 & Hd2).
  rewrite (bind_done _ _ _ _ _ Hr2). cbv beta iota. destruct (r <=? 0) eqn:Hr0.
  - destruct (close_law s2) as (s3 & Hc & Hcl3 & Ho3). rewrite (bind_done _ _ _ _ _ Hc). eexists _, _. split; [reflexivity|].
    split; [congruence|]. right. split; [done|]. split; [done|]. intros ->. done.
  - destruct Hd2 as [(_ & -> & -> & Hrest)|]; [|lia]. rewrite Z.sub_diag. change (str_repeat (Z.to_nat 0) NUL) with "". rewrite str_app_nil_r.
    eexists _, _. split; [reflexivity|]. split; [congruence|]. by left.
Qed.
End laws.

(** ** A witness *)
Definition no_parser : http_parser := mkHttpParser 0 0 0 0 0 0 0 0 0 0 0.
Lemma recvRequest_safe_witness : ∃ s' r, recvRequest undec 4096 no_parser 60
    (chunks ["GET / HTTP/1.1" ++ CRLF ++ "content-length: 2" ++ CRLF ++ CRLF ++ "a"; "b"]) = Done s' (Some r) ∧ str_len (m_body r) = 2.
Proof.
  pose proof (recvRequest_safe (S := chunked) undec 4096 no_parser ltac:(lia) 60
    (chunks ["GET / HTTP/1.1" ++ CRLF ++ "content-length: 2" ++ CRLF ++ CRLF ++ "a"; "b"])) as H.
  specialize (H ltac:(apply Nat.ltb_lt; vm_compute; reflexivity) ltac:(cbn; lia)).
  destruct (recvRequest undec 4096 no_parser 60 _) as [s' [r|]|s' e| |] eqn:E.
  - exists s', r. split; [reflexivity|]. rewrite (proj2 H). vm_compute in E. injection E as _ <-. vm_compute. reflexivity.
  - vm_compute in E. discriminate E.
  - vm_compute in E. discriminate E.
  - vm_compute in E. discriminate E.
  - vm_compute in E. discriminate E.
Defined.
