(* ===== verification/HttpRoundTrip.v ===== *)
(** * HttpRoundTrip: a request that is written is received

    The text of [HttpRequest::dump], as a client writes it, through [recvRequest]. *)
From S2P Require Import Prelude Text Http HttpFacts HttpGrammar HttpFields Callbacks Ragel Http11Table Http11 Http11Facts HttpParser HttpParserFacts Stream Segments HttpSession HttpSessionFacts.
Open Scope string_scope.
Open Scope Z_scope.

(** The fields of a dumped request. *)
Definition request_fields (r : HttpRequest) : MapType :=
  ("connection", if m_close r then "close" else "keep-alive") :: (filter not_connection (m_headers r) ++
    (if is_empty (m_body r) then [] else [("content-length", dec (str_len (m_body r)))]))%list.
Definition dumped_head (r : HttpRequest) : string :=
  head_text (m_method r) (m_path r) (m_query r) (m_fragment r) (m_version r) (request_fields r).
(** A request a client can write so that it is read back. *)
Definition sendable (r : HttpRequest) : Prop :=
  head_ok (m_method r) (m_path r) (m_query r) (m_fragment r) (m_version r) (m_headers r) ∧ m_websocket r = false ∧
  map_ok (m_headers r) ∧ to_gmap (m_headers r) !! "content-length" = None ∧ str_len (m_body r) < 2 ^ 31.

Lemma dump_head r : m_websocket r = false → HttpRequest_dump r = dumped_head r ++ m_body r.
Proof.
  intros Hw. unfold HttpRequest_dump, dumped_head, head_text, target, request_fields. rewrite Hw, dump_connection_lines, dump_headers_lines, dump_body_lines.
  change (?x :: ?l) with ([x] ++ l)%list. rewrite !fields_text_app, !str_app_assoc. do 12 f_equal.
  unfold length_lines. by destruct (is_empty (m_body r)).
Qed.

Lemma request_fields_ok r : sendable r → fields_ok (request_fields r).
Proof.
  intros ((_ & _ & _ & _ & _ & _ & Hf) & _). unfold request_fields, fields_ok in *. constructor; [by destruct (m_close r)|].
  apply Forall_app. split; [|destruct (is_empty (m_body r)); repeat constructor; apply dec_value, str_len_nonneg].
  apply Forall_forall. intros e He. apply list_elem_of_filter in He as [_ He]. rewrite Forall_forall in Hf. by apply Hf.
Qed.


(** What the receiver makes of the fields. *)
Definition received (r : HttpRequest) : HttpRequest :=
  init (setBody (m_body r) (head_read (m_method r) (m_path r) (m_query r) (m_fragment r) (m_version r) (request_fields r) (HttpRequest_new 0x11 true))).
Lemma received_headers r x : sendable r → to_gmap (foldl put [] (request_fields r)) !! x =
  if bool_decide (x = "content-length") then (if is_empty (m_body r) then None else Some (dec (str_len (m_body r))))
  else if bool_decide (x = "connection") then Some (if m_close r then "close" else "keep-alive")
  else to_gmap (m_headers r) !! x.
Proof.
  intros (_ & _ & Hmap & Hcl & _). rewrite (proj2 (put_gmap (request_fields r) [] ltac:(constructor))). unfold request_fields.
  cbn [foldl fst snd]. rewrite foldl_app. change (fold_case "connection") with "connection".
  assert (Hlast : ∀ g : gmap string string, foldl (λ g e, <[fold_case e.1 := e.2]> g) g
      (if is_empty (m_body r) then [] else [("content-length", dec (str_len (m_body r)))]) !! x =
    if bool_decide (x = "content-length") && negb (is_empty (m_body r)) then Some (dec (str_len (m_body r))) else g !! x).
  { intros g. destruct (is_empty (m_body r)); [by rewrite andb_false_r|]. cbn. case_bool_decide as Hx; [subst; by rewrite lookup_insert_eq|].
    by rewrite lookup_insert_ne. }
  rewrite Hlast. case_bool_decide as Hx; [subst x|].
  - destruct (is_empty (m_body r)); cbn [negb andb]; [|done]. rewrite put_filter, Hcl, lookup_insert_ne by done. by case_bool_decide.
  - cbn [andb]. case_bool_decide as Hx'; [subst x|].
    + rewrite put_filter by done. by rewrite bool_decide_eq_true_2, lookup_insert_eq.
    + rewrite put_filter by done. rewrite bool_decide_eq_false_2, lookup_insert_ne by done. by destruct (to_gmap (m_headers r) !! x).
Qed.
Lemma received_find r k : sendable r → map_find k (m_headers (received r)) = to_gmap (foldl put [] (request_fields r)) !! fold_case k.
Proof.
  intros Hr. unfold received. destruct (init_keeps (setBody (m_body r) (head_read (m_method r) (m_path r) (m_query r) (m_fragment r) (m_version r)
    (request_fields r) (HttpRequest_new 17 true)))) as [_ ->]. rewrite head_read_eq. cbn [m_headers setBody].
  apply map_find_gmap, put_gmap. constructor.
Qed.
(** Every part of the request arrives. *)
Lemma received_ok r : sendable r → m_method (received r) = m_method r ∧ m_version (received r) = m_version r ∧
  m_path (received r) = m_path r ∧ m_query (received r) = m_query r ∧ m_fragment (received r) = m_fragment r ∧
  m_body (received r) = m_body r ∧ m_close (received r) = m_close r ∧ m_websocket (received r) = false ∧
  ∀ k, fold_case k ≠ "connection" → fold_case k ≠ "content-length" → hasHeader k (received r) = hasHeader k r.
Proof.
  intros Hr. assert (Hi : ∀ rq, m_method (init rq) = m_method rq ∧ m_version (init rq) = m_version rq ∧ m_path (init rq) = m_path rq ∧
    m_query (init rq) = m_query rq ∧ m_fragment (init rq) = m_fragment rq ∧ m_body (init rq) = m_body rq ∧ m_websocket (init rq) = m_websocket rq).
  { intros rq. unfold init. repeat case_bool; done. }
  assert (Hc : m_close (received r) = m_close r).
  { unfold received. set (rq := setBody _ _). assert (Hh : getHeader "connection" "" rq = if m_close r then "close" else "keep-alive").
    { unfold getHeader, rq. rewrite head_read_eq. cbn [m_headers setBody].
      rewrite map_find_gmap by (apply (put_gmap (request_fields r) []); constructor). change (foldl _ [] (request_fields r)) with (foldl put [] (request_fields r)).
      rewrite received_headers by done. by destruct (m_close r). }
    unfold init. rewrite Hh. by destruct (m_close r). }
  split_and!; try done; try (unfold received; match goal with |- context [init ?q] => destruct (Hi q) as (?&?&?&?&?&?&?) end;
    rewrite head_read_eq in *; cbn in *; congruence).
  intros k H1 H2. unfold hasHeader. rewrite received_find, received_headers by done. rewrite !bool_decide_eq_false_2 by done.
  symmetry. apply map_find_gmap. apply Hr.
Qed.

Lemma received_length lexical_cast r : sendable r → lexical_cast (dec (str_len (m_body r))) = Some (str_len (m_body r)) →
  getAs lexical_cast (m_headers (head_read (m_method r) (m_path r) (m_query r) (m_fragment r) (m_version r) (request_fields r)
    (HttpRequest_new 0x11 true))) "content-length" 0 = str_len (m_body r).
Proof.
  intros Hr Hlc. unfold getAs. rewrite head_read_eq. cbn [m_headers].
  rewrite map_find_gmap by (apply (put_gmap (request_fields r) []); constructor).
  change (foldl _ [] (request_fields r)) with (foldl put [] (request_fields r)).
  rewrite received_headers by done. rewrite bool_decide_eq_true_2 by done. destruct (is_empty (m_body r)) eqn:E; [|by rewrite Hlc].
  by destruct (m_body r).
Qed.

(** The bytes of a request, the head in the first read: the request is received. *)
Lemma recv_dumped {S} `{!Stream S, !StreamLaws S} lexical_cast buff_size mem fuel r rest s s1 len d :
  sendable r → 0 < buff_size < 2 ^ 31 → 0 ≤ query_start mem < 2 ^ 63 →
  lexical_cast (dec (str_len (m_body r))) = Some (str_len (m_body r)) →
  incoming s = (bytes_of (HttpRequest_dump r) ++ rest)%list →
  read buff_size s = Done s1 (len, d) → str_len (dumped_head r) ≤ len ≤ str_len (HttpRequest_dump r) →
  ∃ s' res, recvRequest lexical_cast buff_size mem (Datatypes.S fuel) s = Done s' res ∧ outgoing s' = outgoing s ∧
    (res = Some (received r) ∧ incoming s' = rest ∨ res = None ∧ stream_closed s' = true ∧ len < str_len (HttpRequest_dump r)).
Proof.
  intros Hr Hb Hm Hlc Hin Hread Hlen. destruct (read_law buff_size s ltac:(lia)) as (s1' & len' & d' & Hread' & Hle & Hge & Hout & Hd).
  rewrite Hread in Hread'. injection Hread' as <- <- <-.
  assert (Hpos : 0 < str_len (dumped_head r)) by apply head_text_pos. replace (0 <? len) with true in Hd by lia. destruct Hd as [Hzd Hin1].
  pose proof Hr as ((Hm1 & Hm2 & Hp & Hq & Hf & Hv & _) & Hw & Hmap & Hcl & Hbody). rewrite (dump_head r Hw) in *. rewrite str_len_app in Hlen.
  set (n := Z.to_nat (len - str_len (dumped_head r))). set (b1 := str_take n (m_body r)). set (b2 := str_drop n (m_body r)).
  assert (Hsplit : m_body r = b1 ++ b2) by (unfold b1, b2; by rewrite str_take_drop).
  assert (Hb1 : str_len b1 = len - str_len (dumped_head r)) by (unfold b1; rewrite str_len_take; unfold n; lia).
  rewrite Hin1, bytes_of_app, Hsplit, bytes_of_app, <-!app_assoc, app_assoc, <-bytes_of_app in Hin.
  apply app_inj_1 in Hin as [Hd Hin]; [|pose proof (zlen_bytes_of (dumped_head r ++ b1)) as Hz; rewrite str_len_app in Hz; unfold zlen in *; lia].
  edestruct (recvRequest_head (S := S) lexical_cast buff_size mem Hb fuel (m_method r) (m_path r) (m_query r) (m_fragment r) (m_version r)
    (request_fields r) (m_body r) b1 b2 rest s s1 len d) as (s' & res & Hrecv & Hout' & Hres); try done.
  - split_and!; try done. by apply request_fields_ok.
  - by apply received_length.
  - rewrite Hd, text_of_bytes_of. done.
  - exists s', res. split; [done|]. split; [done|]. fold (received r) in Hres. destruct Hres as [[-> Hrest]|(-> & Hcl' & Hne)].
    + by left.
    + right. split; [done|]. split; [done|]. rewrite !str_len_app, Hsplit, str_len_app in *.
      assert (0 < str_len b2) by (destruct b2; [done|unfold str_len; cbn [String.length]; lia]). lia.
Qed.

(** C16: a request written with [dump] and received with [recvRequest] is the same
    request: method, version, target, body, close flag and every header field but the
    two that [dump] writes itself - provided the first read delivers the whole head (and
    any part of the body).  Otherwise the stream ended within the body, and the session
    is closed. *)
Theorem request_roundtrip {S} `{!Stream S, !StreamLaws S} lexical_cast buff_size mem fuel r rest s s1 len d :
  sendable r → 0 < buff_size < 2 ^ 31 → 0 ≤ query_start mem < 2 ^ 63 →
  lexical_cast (dec (str_len (m_body r))) = Some (str_len (m_body r)) →
  incoming s = (bytes_of (HttpRequest_dump r) ++ rest)%list →
  read buff_size s = Done s1 (len, d) → str_len (dumped_head r) ≤ len ≤ str_len (HttpRequest_dump r) →
  ∃ s' res, recvRequest lexical_cast buff_size mem (Datatypes.S fuel) s = Done s' res ∧ outgoing s' = outgoing s ∧
    ((∃ r', res = Some r' ∧ incoming s' = rest ∧
        m_method r' = m_method r ∧ m_version r' = m_version r ∧ m_path r' = m_path r ∧ m_query r' = m_query r ∧
        m_fragment r' = m_fragment r ∧ m_body r' = m_body r ∧ m_close r' = m_close r ∧
        ∀ k, fold_case k ≠ "connection" → fold_case k ≠ "content-length" → hasHeader k r' = hasHeader k r) ∨
     res = None ∧ stream_closed s' = true ∧ len < str_len (HttpRequest_dump r)).
Proof.
  intros Hr Hb Hm Hlc Hin Hread Hlen. destruct (recv_dumped lexical_cast buff_size mem fuel r rest s s1 len d Hr Hb Hm Hlc Hin Hread Hlen)
    as (s' & res & Hrecv & Hout & Hres). exists s', res. split; [done|]. split; [done|]. destruct Hres as [[-> Hrest]|]; [left|by right].
  exists (received r). destruct (received_ok r Hr) as (?&?&?&?&?&?&?&_&?). by split_and!.
Qed.

(** ** Reads that end inside the head

    The head of a request, cut into [t1] and [t2] inside the path, the name of a field or
    the value of a field, and the path and the fields that are left of it. *)
Section cut.
Context (m : HttpMethod) (path query fragment : string) (v : Z) (hs : MapType).
Inductive cut_in : string → string → string → MapType → Prop :=
| cut_path p1 p2 : path = p1 ++ p2 → p1 ≠ "" →
    cut_in (HttpMethodToString m ++ " " ++ p1) (p2 ++ target "" query fragment ++ " " ++ dump_version v ++ CRLF ++ fields_text hs ++ CRLF) p2 hs
| cut_name hs1 k1 k2 x hs2 : hs = (hs1 ++ ((k1 ++ k2)%string, x) :: hs2)%list → k1 ≠ "" →
    cut_in (line_text m path query fragment v ++ fields_text hs1 ++ k1) (k2 ++ ": " ++ x ++ CRLF ++ fields_text hs2 ++ CRLF)
      path (hs1 ++ (if is_empty k2 then [] else [(k2, x)]) ++ hs2)%list
| cut_value hs1 k x1 x2 hs2 : hs = (hs1 ++ (k, (x1 ++ x2)%string) :: hs2)%list → x1 ≠ "" →
    cut_in (line_text m path query fragment v ++ fields_text hs1 ++ k ++ ": " ++ x1) (x2 ++ CRLF ++ fields_text hs2 ++ CRLF)
      path (hs1 ++ hs2)%list.

Lemma fields_text_cons k x l : fields_text ((k, x) :: l) = k ++ ": " ++ x ++ CRLF ++ fields_text l.
Proof. change ((k, x) :: l) with ([(k, x)] ++ l)%list. rewrite fields_text_app. unfold fields_text at 1, field_line. cbn. by rewrite !str_app_assoc. Qed.
(** The two parts are the head. *)
Lemma cut_in_text t1 t2 path' hs' : cut_in t1 t2 path' hs' → t1 ++ t2 = head_text m path query fragment v hs.
Proof.
  destruct 1 as [p1 p2 -> _|hs1 k1 k2 x hs2 -> _|hs1 k x1 x2 hs2 -> _].
  - unfold head_text. by rewrite (target_path (p1 ++ p2)), !str_app_assoc.
  - by rewrite head_line, fields_text_app, fields_text_cons, !str_app_assoc.
  - by rewrite head_line, fields_text_app, fields_text_cons, !str_app_assoc.
Qed.

Lemma cut_in_pos t1 t2 path' hs' : cut_in t1 t2 path' hs' → 0 < str_len t1 ∧ 0 < str_len t2.
Proof.
  assert (Hl : ∀ s t, 0 < str_len s → 0 < str_len (s ++ t)) by (intros s t; rewrite str_len_app; pose proof (str_len_nonneg t); lia).
  assert (Hr : ∀ s t, 0 < str_len t → 0 < str_len (s ++ t)) by (intros s t; rewrite str_len_app; pose proof (str_len_nonneg s); lia).
  assert (Hcr : 0 < str_len CRLF) by done. assert (Hsp : 0 < str_len " ") by done. destruct 1; unfold line_text; auto 12.
Qed.
#[local] Notation parse r := (Ragel.parse (Machine0 := machine r) (act request_callbacks)).
(** What one call leaves to the next: the state, and the request as far as it is read. *)
Definition resumes (cs1 : Z) (d1 : request_data) (t : string) (d' : request_data) : Prop :=
  ∀ r q s, mark q = 0 → field_start q = 0 → field_len q = 0 → fits (t ++ s) →
    ∃ q', parse r "" cs1 (t ++ s) (q, d1) = Done (q', d') (348, str_len t).
Lemma parse_stop r pre cs' σ : parse r pre cs' "" σ = Done σ (cs', str_len pre).
Proof. reflexivity. Qed.
Lemma fields_ok_app l1 l2 : fields_ok (l1 ++ l2)%list ↔ fields_ok l1 ∧ fields_ok l2.
Proof. apply Forall_app. Qed.

Lemma cut_resumes r q d t1 t2 path' hs' : head_ok m path query fragment v hs → cut_in t1 t2 path' hs' → fits t1 →
  ∃ q1 d1 cs1, parse r "" 1 t1 (q, d) = Done (q1, d1) (cs1, str_len t1) ∧ 0 < cs1 < 348 ∧ m_error d1 = m_error d ∧
    resumes cs1 d1 t2 (upd (head_read m path' query fragment v hs') d).
Proof.
  intros Hok Hcut. pose proof Hok as (Hm & Hm' & Hp & Hq & Hfr & Hv & Hhs). destruct Hcut as [p1 p2 Hpath Hne|hs1 k1 k2 x hs2 Hfs Hne|hs1 k x1 x2 hs2 Hfs Hne]; intros Hfit.
  - rewrite Hpath in Hp. destruct (parse_method r "" m p1 q d Hm Hm' Hfit) as (q1 & E1).
    destruct (parse_path_begin r ("" ++ HttpMethodToString m ++ " ") p1 p2 "" q1 (upd (setMethod m) d) Hne Hp) as (cs1 & E2 & Hin).
    rewrite str_app_nil_r, parse_stop in E2. rewrite E1, E2. eexists _, _, cs1. split; [cbn [append]; by rewrite !str_app_assoc|]. split; [|split; [done|]].
    { destruct Hin as (z & _ & Hin & _). destruct z; destruct Hin as [<-|[]]; lia. }
    intros r' q2 s Hmk _ _ Hf. destruct (in_path_quiet r' _ _ Hin) as (cs2 & Hqt & Hcs). rewrite !str_app_assoc in *.
    rewrite (parse_quiet (act request_callbacks) _ _ _ _ _ _ Hqt).
    destruct (parse_target_end r' "" p2 cs2 query fragment _ q2 (upd (setMethod m) d) Hmk Hcs Hq Hfr Hf) as (q3 & ->).
    edestruct (parse_tail r' v hs (("" ++ p2) ++ target "" query fragment ++ " ") s q3) as (q4 & ->); [done|done|by rewrite ?str_app_assoc in *|].
    exists q4. change ("" ++ ?y) with y. by rewrite !str_app_assoc.
  - rewrite Hfs in Hhs. apply fields_ok_app in Hhs as [Hh1 [[Hk Hx] Hh2]%Forall_cons]. cbn [fst snd] in Hk, Hx.
    destruct (parse_line r m path query fragment v hs _ q d Hok Hfit) as (q1 & E1).
    edestruct (parse_fields r hs1 Hh1 (line_text m path query fragment v) k1 q1) as (q2 & E2); [exact Hfit|].
    edestruct (parse_name_begin r (line_text m path query fragment v ++ fields_text hs1) k1 k2 "" q2) as [E3 _]; [done|done|].
    rewrite str_app_nil_r, parse_stop in E3. rewrite E1, E2, E3. eexists _, _, 14. split; [by rewrite !str_app_assoc|]. split; [lia|]. split; [done|].
    intros r' q3 s _ Hfst _ Hf. rewrite !str_app_assoc in *.
    destruct (parse_name_begin r' "" k1 k2 "" q3 d Hne Hk) as [_ Hqt]. rewrite (parse_quiet (act request_callbacks) _ _ _ _ _ _ Hqt).
    edestruct (parse_name_end r' "" k2 x (fields_text hs2 ++ CRLF ++ s) q3) as (q4 & ->); [done|done|exact Hf|].
    edestruct (parse_rest r' hs2 ("" ++ k2 ++ ": " ++ x ++ CRLF) s q4) as (q5 & ->); [done|by rewrite ?str_app_assoc in *|].
    exists q5. change ("" ++ ?y) with y. rewrite !str_app_assoc. do 2 f_equal. unfold upd, head_read, set_fields, set_named. cbn [m_data m_error].
    rewrite !foldl_app. by destruct k2.
  - rewrite Hfs in Hhs. apply fields_ok_app in Hhs as [Hh1 [[Hk Hx] Hh2]%Forall_cons]. cbn [fst snd] in Hk, Hx.
    assert (Hkne : k ≠ "") by (by intros ->).
    destruct (parse_line r m path query fragment v hs _ q d Hok Hfit) as (q1 & E1).
    edestruct (parse_fields r hs1 Hh1 (line_text m path query fragment v) (k ++ ": " ++ x1) q1) as (q2 & E2); [exact Hfit|].
    edestruct (parse_name_begin r (line_text m path query fragment v ++ fields_text hs1) k "" (": " ++ x1) q2) as [E3 _]; [done|by rewrite str_app_nil_r|].
    edestruct (parse_colon r (line_text m path query fragment v ++ fields_text hs1) k x1) as (q3 & E4 & _); [|by rewrite !str_app_assoc|].
    2:{ edestruct (parse_value_begin r ((line_text m path query fragment v ++ fields_text hs1) ++ k ++ ": ") x1 x2 "" q3) as [E5 _]; [done|done|].
      rewrite str_app_nil_r, parse_stop in E5. rewrite E1, E2, E3, E4, E5. eexists _, _, 16. split; [by rewrite !str_app_assoc|]. split; [lia|]. split; [done|].
      intros r' q4 s _ _ Hfl Hf. rewrite !str_app_assoc in *.
      destruct (parse_value_begin r' "" x1 x2 "" q4 d Hne Hx) as [_ Hqt]. rewrite (parse_quiet (act request_callbacks) _ _ _ _ _ _ Hqt).
      rewrite parse_value_lost by done.
      edestruct (parse_rest r' hs2 (("" ++ x2) ++ CRLF) s q4) as (q5 & ->); [done|by rewrite ?str_app_assoc in *|].
      exists q5. change ("" ++ ?y) with y. rewrite !str_app_assoc. do 2 f_equal. unfold upd, head_read, set_fields. cbn [m_data m_error].
      by rewrite !foldl_app. }
    done.
Qed.
End cut.

(** The fields of a head whose names are all different, one of them lost. *)
Definition names (hs : MapType) : list string := (λ e, fold_case e.1) <$> hs.
Lemma put_lookup_none hs x : x ∉ names hs → to_gmap (foldl put [] hs) !! x = None.
Proof.
  intros Hx. rewrite (proj2 (put_gmap hs [] ltac:(constructor))). cut (∀ g : gmap string string, g !! x = None →
    foldl (λ g e, <[fold_case e.1 := e.2]> g) g hs !! x = None); [intros H; by apply H|].
  induction hs as [|e hs IH]; intros g Hg; [done|]. cbn in Hx. apply not_elem_of_cons in Hx as [Hne Hx]. cbn [foldl].
  apply IH; [done|]. by rewrite lookup_insert_ne.
Qed.
Lemma fold_case_len k : accepts token_spec () k = Some () → str_len (fold_case k) = str_len k.
Proof.
  unfold fold_case. induction k as [|c k IH]; [done|]. cbn [accepts]. destruct (token_spec () (char_value c)) as [[]|] eqn:E; [|done]. intros Hk.
  specialize (IH Hk). cbn [c_str]. destruct (Ascii.eqb c NUL) eqn:Ec; [apply Ascii.eqb_eq in Ec; subst c; done|].
  unfold str_len in *. cbn [lower String.length]. lia.
Qed.
Lemma cut_loses m path query fragment v hs t1 t2 path' hs' : cut_in m path query fragment v hs t1 t2 path' hs' → fields_ok hs → NoDup (names hs) →
  path' ≠ path ∨ ∃ e, e ∈ hs ∧ fold_case e.1 ∉ names hs'.
Proof.
  assert (Hpos : ∀ s : string, s ≠ "" → 0 < str_len s) by (intros [|c s]; [done|]; unfold str_len; cbn [String.length]; lia).
  destruct 1 as [p1 p2 -> Hne|hs1 k1 k2 x hs2 -> Hne|hs1 k x1 x2 hs2 -> Hne]; unfold names; intros Hok Hnd; [left|right; exists ((k1 ++ k2)%string, x)|right; exists (k, (x1 ++ x2)%string)].
  - intros He. apply (f_equal str_len) in He. rewrite str_len_app in He. specialize (Hpos p1 Hne). lia.
  - split; [set_solver|]. rewrite fmap_app, fmap_cons in Hnd. apply NoDup_app in Hnd as (_ & Hd & [Hni _]%NoDup_cons). cbn [fst] in *.
    rewrite !fmap_app, !elem_of_app. intros [Hin|[Hin|Hin]]; [apply (Hd _ Hin); by left| |done].
    rewrite fields_ok_app in Hok. destruct Hok as [_ [[[_ Hk]%andb_true_iff _] _]%Forall_cons]. cbn [fst] in Hk.
    destruct (accepts token_spec () (k1 ++ k2)) as [[]|] eqn:Ha; [|done]. pose proof Ha as Ha'. rewrite accepts_app in Ha'.
    destruct (accepts token_spec () k1) as [[]|]; [|done].
    destruct (is_empty k2); [by apply not_elem_of_nil in Hin|]. apply list_elem_of_singleton, (f_equal str_len) in Hin. cbn [fst] in Hin.
    rewrite !fold_case_len, str_len_app in Hin by done. specialize (Hpos k1 Hne). lia.
  - split; [set_solver|]. rewrite fmap_app, fmap_cons in Hnd. apply NoDup_app in Hnd as (_ & Hd & [Hni _]%NoDup_cons). cbn [fst] in *.
    rewrite fmap_app, elem_of_app. intros [Hin|Hin]; [apply (Hd _ Hin); by left|done].
Qed.

(** One round of the loop with an empty buffer. *)
Lemma recv_loop_step {S} `{!Stream S} buff_size fuel prs t (s s1 : S) prs' k rest : 0 < buff_size < 2 ^ 31 →
  read buff_size s = Done s1 (str_len t, bytes_of t) → 0 < str_len t ≤ buff_size →
  execute t prs = Done prs' (k, rest) → hasError prs' = false → 0 < k ≤ str_len t →
  recv_loop buff_size (Datatypes.S fuel) prs "" 0 s =
    if negb (isFinished prs' =? 0) then Done s1 (Some (prs', rest, str_len t - k)) else recv_loop buff_size fuel prs' rest (str_len t - k) s1.
Proof.
  intros Hb Hr Ht Hx He Hk. cbn [recv_loop]. rewrite Z.sub_0_r, u64_small by lia. rewrite (bind_done _ _ _ _ _ Hr). cbv beta iota.
  replace (str_len t <=? 0) with false by lia. rewrite stored_bind by (rewrite zlen_bytes_of; lia). cbn [append].
  rewrite text_of_bytes_of. unfold local. rewrite Hx. erewrite bind_done; [|reflexivity]. cbv beta iota. rewrite He.
  rewrite Z.add_0_r, !s32_small by (rewrite ?s32_small; lia). replace (str_len t - k =? buff_size) with false by lia. by destruct (isFinished prs' =? 0).
Qed.
Lemma recv_cut {S} `{!Stream S, !StreamLaws S} lexical_cast buff_size mem fuel m path query fragment v hs t1 t2 path' hs' body s s1 s2 :
  let rq := head_read m path' query fragment v hs' (HttpRequest_new 0x11 true) in
  let n := getAs lexical_cast (m_headers rq) "content-length" 0 in
  head_ok m path query fragment v hs → cut_in m path query fragment v hs t1 t2 path' hs' →
  0 < buff_size < 2 ^ 31 → 0 ≤ query_start mem < 2 ^ 63 →
  read buff_size s = Done s1 (str_len t1, bytes_of t1) → read buff_size s1 = Done s2 (str_len (t2 ++ body), bytes_of (t2 ++ body)) →
  0 ≤ n ≤ str_len body →
  recvRequest lexical_cast buff_size mem (Datatypes.S (Datatypes.S fuel)) s = Done s2 (Some (init (setBody (str_ztake n body) rq))).
Proof.
  intros rq n Hok Hcut Hb Hm Hr1 Hr2 Hn. destruct (cut_in_pos _ _ _ _ _ _ _ _ _ _ Hcut) as [Hp1 Hp2].
  destruct (read_law buff_size s ltac:(lia)) as (? & ? & ? & E1 & Hle1 & _). rewrite Hr1 in E1. injection E1 as <- <- <-.
  destruct (read_law buff_size s1 ltac:(lia)) as (? & ? & ? & E2 & Hle2 & _). rewrite Hr2 in E2. injection E2 as <- <- <-.
  rewrite str_len_app in *. pose proof (str_len_nonneg body).
  destruct (cut_resumes m path query fragment v hs (negb (uri_relaxed (http_parser_init mem) =? 0)) (execute_reset (http_parser_init mem))
    (mkRequestData (HttpRequest_new 0x11 true) 0) t1 t2 path' hs' Hok Hcut ltac:(unfold fits; lia)) as (q1 & d1 & cs1 & Hx1 & Hcs1 & He1 & Hres).
  apply (execute_parse t1 (http_parser_init mem) (mkRequestData (HttpRequest_new 0x11 true) 0) _ _ _ _ ltac:(lia) Hm eq_refl eq_refl ltac:(done)) in Hx1.
  pose proof (execute_ok t1 (HttpRequestParser_new mem) ltac:(lia) ltac:(done)) as Hs1. unfold HttpRequestParser_new in Hs1 at 1. rewrite Hx1 in Hs1.
  destruct Hs1 as (_ & _ & _ & Hp). set (q1' := set_nread (str_len t1) (set_cs cs1 q1)) in *.
  assert (Hne1 : hasError (q1', d1) = false) by (unfold hasError, http_parser_has_error; cbn; rewrite He1; cbn; lia).
  assert (Hnf1 : isFinished (q1', d1) = 0) by (unfold isFinished, http_parser_finish, http_parser_has_error, http_parser_is_finished; cbn; repeat case_bool; lia).
  destruct (Hp Hne1 Hnf1) as (Hq1 & Hbs1 & Her1 & Hu1). cbn [fst snd] in *.
  destruct (Hres (negb (uri_relaxed q1' =? 0)) (execute_reset q1') body eq_refl eq_refl eq_refl) as (q2 & Hx2); [unfold fits; rewrite str_len_app; lia|].
  apply (execute_parse (t2 ++ body) q1' d1) in Hx2; [|rewrite str_len_app; lia|done|done|done|done].
  assert (Hdrop : ∀ w b, str_drop (Z.to_nat (str_len w)) (w ++ b) = b) by (intros w b; unfold str_len; rewrite Nat2Z.id; apply str_drop_app_exact).
  rewrite Hdrop in Hx2. assert (Hd1 : str_drop (Z.to_nat (str_len t1)) t1 = "") by (rewrite <-(str_app_nil_r t1) at 2; apply Hdrop). rewrite Hd1 in Hx1.
  assert (Hhead : recv_loop buff_size (Datatypes.S (Datatypes.S fuel)) (HttpRequestParser_new mem) "" 0 s =
    Done s2 (Some ((set_nread (str_len t2) (set_cs 348 q2), upd (head_read m path' query fragment v hs') (mkRequestData (HttpRequest_new 0x11 true) 0)), body, str_len body))).
  { rewrite (recv_loop_step buff_size _ _ t1 s s1 _ _ _ Hb Hr1 ltac:(lia) Hx1 Hne1) by lia. rewrite Hnf1, Z.sub_diag. cbn [negb Z.eqb].
    rewrite (recv_loop_step buff_size _ _ (t2 ++ body) s1 s2 _ _ _ Hb ltac:(by rewrite str_len_app) ltac:(rewrite str_len_app; lia) Hx2) by (done || rewrite str_len_app; lia).
    rewrite str_len_app, Z.add_simpl_l. reflexivity. }
  unfold recvRequest. rewrite (bind_done _ _ _ _ _ Hhead). cbv beta iota. unfold recv_body, getContentLength. cbn [m_data upd snd]. fold rq. fold n.
  rewrite s64_small by lia. destruct (n >? 0) eqn:Hpos.
  - replace (n >? str_max) with false by (unfold str_max; lia). rewrite s64_small by lia. replace (n - str_len body >? 0) with false by lia.
    replace (if n >=? str_len body then str_len body else n) with n by (case_bool; lia). done.
  - replace n with 0 by lia. change (str_ztake 0 body) with (str_take (Z.to_nat (0 `min` str_len body)) body). rewrite Z.min_l by lia.
    change (str_take (Z.to_nat 0) body) with "". unfold rq. by rewrite head_read_eq.
Qed.

(** C23: [http_parser_execute] forgets its marks at every call, so a head that arrives
    in two reads, cut inside its path, the name of a field or the value of a field, is
    received as another request, without any error: of the path, or of the name, only the
    part of the second read is left, and a field cut inside its value is lost.  If the
    fields have different names, the path is not the one sent or some field is missing;
    the body is what the fields that are left call for. *)
Theorem split_head_corrupted {S} `{!Stream S, !StreamLaws S} lexical_cast buff_size mem fuel m path query fragment v hs t1 t2 path' hs' body s s1 s2 :
  let rq := head_read m path' query fragment v hs' (HttpRequest_new 0x11 true) in
  let n := getAs lexical_cast (m_headers rq) "content-length" 0 in
  head_ok m path query fragment v hs → cut_in m path query fragment v hs t1 t2 path' hs' →
  0 < buff_size < 2 ^ 31 → 0 ≤ query_start mem < 2 ^ 63 →
  read buff_size s = Done s1 (str_len t1, bytes_of t1) → read buff_size s1 = Done s2 (str_len (t2 ++ body), bytes_of (t2 ++ body)) →
  0 ≤ n ≤ str_len body →
  ∃ r, recvRequest lexical_cast buff_size mem (Datatypes.S (Datatypes.S fuel)) s = Done s2 (Some r) ∧
    m_method r = m ∧ m_path r = path' ∧ m_query r = query ∧ m_fragment r = fragment ∧ m_version r = v ∧ m_body r = str_ztake n body ∧
    (∀ k, hasHeader k r = to_gmap (foldl put [] hs') !! fold_case k) ∧
    (NoDup (names hs) → m_path r ≠ path ∨ ∃ e, e ∈ hs ∧ hasHeader e.1 r = None).
Proof.
  intros rq n Hok Hcut Hb Hm Hr1 Hr2 Hn.
  exists (init (setBody (str_ztake n body) rq)). split; [by eapply recv_cut|].
  destruct (init_keeps (setBody (str_ztake n body) rq)) as [Hbody Hhd].
  assert (Hi : ∀ x, m_method (init x) = m_method x ∧ m_path (init x) = m_path x ∧ m_query (init x) = m_query x ∧ m_fragment (init x) = m_fragment x ∧
    m_version (init x) = m_version x) by (intros x; unfold init; repeat case_bool; done).
  destruct (Hi (setBody (str_ztake n body) rq)) as (-> & Hp & -> & -> & ->). clear Hi. unfold hasHeader. rewrite Hbody, Hhd, Hp. clear Hbody Hhd Hp.
  unfold rq. rewrite head_read_eq. cbn. change (foldl _ [] hs') with (foldl put [] hs').
  assert (Hfind : ∀ k, map_find k (foldl put [] hs') = to_gmap (foldl put [] hs') !! fold_case k) by (intros k; apply map_find_gmap, put_gmap; constructor).
  split_and!; try done. intros Hnd. destruct (cut_loses m path query fragment v hs t1 t2 path' hs' Hcut ltac:(apply Hok) Hnd) as [|(e & He & Hlost)]; [by left|right].
  exists e. split; [done|]. rewrite Hfind. by apply put_lookup_none.
Qed.

(** Cut inside the query, which [query_start] outlives: a negative length reaches
    [std::string], and an exception leaves [recvRequest]. *)
Example split_query_raises : ∃ s, recvRequest undec 4096 no_parser 10 (chunks ["GET /?a"; "b HTTP/1.1" ++ CRLF ++ CRLF]) = Raise s ExnLengthError.
Proof. eexists. vm_compute. reflexivity. Qed.

(** ** Witnesses *)
(** The same field, cut in its value and in its name. *)
Lemma split_head_corrupted_witness :
  (∃ r s', recvRequest undec 4096 no_parser 2 (chunks ["POST /p HTTP/1.1" ++ CRLF ++ "host: a"; "bc" ++ CRLF ++ "content-length: 2" ++ CRLF ++ CRLF ++ "xy"]) = Done s' (Some r) ∧
    m_path r = "/p" ∧ m_body r = "xy" ∧ hasHeader "host" r = None) ∧
  (∃ r s', recvRequest undec 4096 no_parser 2 (chunks ["POST /p HTTP/1.1" ++ CRLF ++ "ho"; "st: abc" ++ CRLF ++ "content-length: 2" ++ CRLF ++ CRLF ++ "xy"]) = Done s' (Some r) ∧
    hasHeader "host" r = None ∧ hasHeader "st" r = Some "abc").
Proof.
  set (hs := [("host", "abc"); ("content-length", "2")]).
  assert (Hok : head_ok POST "/p" "" "" 0x11 hs) by (split_and!; first [done | right; reflexivity | by repeat constructor]). split.
  - assert (Hcut : cut_in POST "/p" "" "" 0x11 hs ("POST /p HTTP/1.1" ++ CRLF ++ "host: a") ("bc" ++ CRLF ++ "content-length: 2" ++ CRLF ++ CRLF) "/p" [("content-length", "2")])
      by exact (cut_value POST "/p" "" "" 0x11 hs [] "host" "a" "bc" [("content-length", "2")] eq_refl ltac:(done)).
    destruct (split_head_corrupted (S := chunked) undec 4096 no_parser 0 POST "/p" "" "" 0x11 hs _ _ _ _ "xy"
      (chunks ["POST /p HTTP/1.1" ++ CRLF ++ "host: a"; "bc" ++ CRLF ++ "content-length: 2" ++ CRLF ++ CRLF ++ "xy"])
      (chunks ["bc" ++ CRLF ++ "content-length: 2" ++ CRLF ++ CRLF ++ "xy"]) (chunks []) Hok Hcut)
      as (r & Hr & _ & Hp & _ & _ & _ & Hb & Hh & _);
      [lia|cbn; lia|vm_compute; reflexivity|vm_compute; reflexivity|split; vm_compute; discriminate|].
    exists r, (chunks []). split; [exact Hr|]. split; [exact Hp|]. rewrite Hb, Hh. split; vm_compute; reflexivity.
  - assert (Hcut : cut_in POST "/p" "" "" 0x11 hs ("POST /p HTTP/1.1" ++ CRLF ++ "ho") ("st: abc" ++ CRLF ++ "content-length: 2" ++ CRLF ++ CRLF) "/p" [("st", "abc"); ("content-length", "2")])
      by exact (cut_name POST "/p" "" "" 0x11 hs [] "ho" "st" "abc" [("content-length", "2")] eq_refl ltac:(done)).
    destruct (split_head_corrupted (S := chunked) undec 4096 no_parser 0 POST "/p" "" "" 0x11 hs _ _ _ _ "xy"
      (chunks ["POST /p HTTP/1.1" ++ CRLF ++ "ho"; "st: abc" ++ CRLF ++ "content-length: 2" ++ CRLF ++ CRLF ++ "xy"])
      (chunks ["st: abc" ++ CRLF ++ "content-length: 2" ++ CRLF ++ CRLF ++ "xy"]) (chunks []) Hok Hcut)
      as (r & Hr & _ & _ & _ & _ & _ & _ & Hh & _);
      [lia|cbn; lia|vm_compute; reflexivity|vm_compute; reflexivity|split; vm_compute; discriminate|].
    exists r, (chunks []). split; [exact Hr|]. rewrite !Hh. split; vm_compute; reflexivity.
Defined.
Definition sample_request : HttpRequest :=
  setBody "a=1&b=2" (setHeader "Host" "a.b" (setQuery "x=%31" (setPath "/p/q" (setMethod POST (HttpRequest_new 0x11 false))))).
Definition sample_stream : chunked :=
  mkChunked [bytes_of (dumped_head sample_request ++ "a=1"); bytes_of "&b=2"] [] [] false.
Lemma request_roundtrip_witness : ∃ s' r', recvRequest undec 4096 no_parser 1 sample_stream = Done s' (Some r') ∧ m_body r' = "a=1&b=2" ∧
  hasHeader "host" r' = Some "a.b".
Proof.
  assert (Hs : sendable sample_request).
  { split_and!; first [reflexivity | by intros H; vm_compute in H | right; reflexivity | by repeat constructor]. }
  destruct (request_roundtrip (S := chunked) undec 4096 no_parser 0 sample_request [] sample_stream
    (mkChunked [bytes_of "&b=2"] [] [] false) (str_len (dumped_head sample_request ++ "a=1")) (bytes_of (dumped_head sample_request ++ "a=1")))
    as (s' & res & Hr & _ & Hres);
    [exact Hs|lia|cbn; lia|vm_compute; reflexivity|vm_compute; reflexivity|vm_compute; reflexivity|split; vm_compute; discriminate|].
  destruct Hres as [(r' & -> & _ & _ & _ & _ & _ & _ & Hb & _ & Hh)|(-> & _)].
  - exists s', r'. split; [exact Hr|]. split; [exact Hb|]. rewrite Hh by done. reflexivity.
  - vm_compute in Hr. discriminate Hr.
Defined.
