(* ===== verification/HttpServer.v ===== *)
(** * HttpServer ([webserve/http/http_server.cc]): serving a client

    The request loop over the interface of a session, what the loop sends, and the
    loop over HttpSession: from the bytes of the requests to the bytes of the responses. *)
From S2P Require Import Prelude Text Http HttpFacts HttpGrammar HttpFields Servlet Callbacks Ragel Http11Table Http11 HttpParser HttpParserFacts Stream Segments HttpSession HttpSessionFacts HttpRoundTrip.
Open Scope string_scope.
Open Scope Z_scope.

(** What [HttpServer::handleClient] needs of its session. *)
Class Session (S : Type) := {
  session_recv : M S (option HttpRequest);
  session_send : HttpResponse → M S Z;
  session_close : M S ()
}.

Section server.
Context (fnmatch : string → string → bool) {S : Type} `{!Session S}.
Context (run : Servlet → HttpRequest → HttpResponse → M S (HttpRequest * HttpResponse)).

(** [HttpServer::handleClient]: the loop, then [session->close()]. *)
Fixpoint client_loop (fuel : nat) (m_name : string) (m_isKeepalive : bool) (d : ServletDispatch) : M S () :=
  match fuel with
  | O => nofuel
  | Datatypes.S fuel =>
      req ← session_recv;
      match req with
      | None => mret ()
      | Some req =>
          let rsp := HttpResponse_new (m_version req) (m_close req || negb m_isKeepalive) in
          let rsp := rsp_setHeader "Server" m_name rsp in
          '(req, rsp) ← handle fnmatch run d req rsp;
          session_send rsp ;;
          if negb m_isKeepalive || m_close req then mret ()
          else client_loop fuel m_name m_isKeepalive d
      end
  end.
Definition handleClient (fuel : nat) (m_name : string) (m_isKeepalive : bool) (d : ServletDispatch) : M S () :=
  client_loop fuel m_name m_isKeepalive d ;;
  session_close.
End server.

(** The contract of a session on which [rs] are the requests still to come: they arrive
    in order, then none; a response is appended to what was sent. *)
Class SessionLaws (S : Type) `{!Session S} := {
  pending : S → list HttpRequest → Prop;
  sent : S → list Z;
  closed : S → bool;
  recv_law s rs : pending s rs → ∃ s', session_recv s = Done s' (head rs) ∧ pending s' (tail rs) ∧ sent s' = sent s;
  send_law s rs r : pending s rs → str_len (HttpResponse_dump r) < 2 ^ 63 → ∃ s' n, session_send r s = Done s' n ∧ pending s' rs ∧
    sent s' = (sent s ++ bytes_of (HttpResponse_dump r))%list;
  session_close_law s : ∃ s', session_close s = Done s' () ∧ closed s' = true ∧ sent s' = sent s
}.

(** Handlers that only look at the request and the response. *)
Definition pure_run {S} (g : Servlet → HttpRequest → HttpResponse → HttpRequest * HttpResponse)
  (slt : Servlet) (rq : HttpRequest) (rs : HttpResponse) : M S (HttpRequest * HttpResponse) := mret (g slt rq rs).

Section serving.
Context (fnmatch : string → string → bool).
Context (g : Servlet → HttpRequest → HttpResponse → HttpRequest * HttpResponse).
Context (m_name : string) (m_isKeepalive : bool) (d : ServletDispatch).

(** The exchange of one request: what the dispatcher makes of it. *)
Definition exchange (req : HttpRequest) : HttpRequest * HttpResponse :=
  let rsp := rsp_setHeader "Server" m_name (HttpResponse_new (m_version req) (m_close req || negb m_isKeepalive)) in
  match getMatchedServlet fnmatch (m_path req) d with
  | Some (NotFoundServlet _ content) => (req, NotFoundServlet_handle content rsp)
  | Some slt => g slt req rsp
  | None => (req, rsp)
  end.
(** The conversation ends with this request. *)
Definition last_request (req : HttpRequest) : bool := negb m_isKeepalive || m_close (exchange req).1.
(** The requests that are answered: up to and including the first last one. *)
Fixpoint served (l : list HttpRequest) : list HttpRequest :=
  match l with [] => [] | r :: l => r :: (if last_request r then [] else served l) end.
Definition responses (l : list HttpRequest) : list Z := List.concat ((λ r, bytes_of (HttpResponse_dump (exchange r).2)) <$> served l).

Lemma handle_pure {S} req (s : S) :
  handle fnmatch (pure_run g) d req
    (rsp_setHeader "Server" m_name (HttpResponse_new (m_version req) (m_close req || negb m_isKeepalive))) s = Done s (exchange req).
Proof. unfold handle, exchange. by destruct (getMatchedServlet fnmatch (m_path req) d) as [[]|]. Qed.

Lemma client_loop_ok {S} `{!Session S, !SessionLaws S} fuel : ∀ s rs, pending s rs → (List.length rs < fuel)%nat →
  Forall (λ r, str_len (HttpResponse_dump (exchange r).2) < 2 ^ 63) rs →
  ∃ s', client_loop fnmatch (pure_run g) fuel m_name m_isKeepalive d s = Done s' () ∧ sent s' = (sent s ++ responses rs)%list.
Proof.
  induction fuel as [|fuel IH]; intros s rs Hp Hf Hall; [lia|]. cbn [client_loop].
  destruct (recv_law s rs Hp) as (s1 & Hr & Hp1 & Hs1). rewrite (bind_done _ _ _ _ _ Hr).
  destruct rs as [|r rs]; cbn [head tail] in *.
  { exists s1. split; [done|]. cbn. by rewrite app_nil_r. }
  apply Forall_cons in Hall as [Hlen Hall].
  rewrite (bind_done _ _ _ _ _ (handle_pure r s1)). destruct (exchange r) as [req' rsp] eqn:He.
  destruct (send_law s1 rs rsp Hp1 Hlen) as (s2 & n & Hsend & Hp2 & Hs2). rewrite (bind_done _ _ _ _ _ Hsend).
  unfold responses. cbn [served fmap list_fmap List.concat]. rewrite He. cbn [snd]. unfold last_request. rewrite He. cbn [fst].
  destruct (negb m_isKeepalive || m_close req').
  - exists s2. split; [done|]. cbn. by rewrite app_nil_r, Hs2, Hs1.
  - destruct (IH s2 rs Hp2) as (s' & Hl & Hs'); [cbn in Hf; lia|done|].
    exists s'. split; [done|]. by rewrite Hs', Hs2, Hs1, <-app_assoc.
Qed.
End serving.

(** ** HttpSession over a stream *)
Definition http_session {S} `{!Stream S} (lexical_cast : string → option Z) (buff_size : Z) (mem : http_parser) (fuel : nat) : Session S := {|
  session_recv := recvRequest lexical_cast buff_size mem fuel;
  session_send := sendResponse;
  session_close := Stream.close
|}.

(** A client that sends each of its requests as one segment, to a peer that reads and
    writes segments. *)
Section segments.
Context (lexical_cast : string → option Z) (buff_size : Z) (mem : http_parser) (fuel : nat).
Hypothesis Hbuff : 0 < buff_size < 2 ^ 31.
Hypothesis Hmem : 0 ≤ query_start mem < 2 ^ 63.
#[local] Instance session : Session chunked := http_session lexical_cast buff_size mem (Datatypes.S fuel).
Definition sends (q : HttpRequest) : Prop :=
  sendable q ∧ str_len (HttpRequest_dump q) ≤ buff_size ∧ lexical_cast (dec (str_len (m_body q))) = Some (str_len (m_body q)).
Definition client (qs : list HttpRequest) (s : chunked) : Prop :=
  ch_in s = (λ q, bytes_of (HttpRequest_dump q)) <$> qs ∧ Forall sends qs ∧ ch_room s = [].

Lemma recv_segment q qs s : client (q :: qs) s → ∃ s', session_recv s = Done s' (Some (received q)) ∧ client qs s' ∧ ch_out s' = ch_out s.
Proof using Hbuff Hmem.
  intros (Hin & [(Hq & Hle & Hlc) Hqs]%Forall_cons & Hroom). pose proof Hq as (_ & Hw & _).
  exists (mkChunked ((λ q, bytes_of (HttpRequest_dump q)) <$> qs) (ch_room s) (ch_out s) (ch_closed s)). split; [|done].
  assert (Hr : read buff_size s = Done (mkChunked ((λ q, bytes_of (HttpRequest_dump q)) <$> qs) (ch_room s) (ch_out s) (ch_closed s))
    (str_len (HttpRequest_dump q), bytes_of (HttpRequest_dump q))).
  { cbn. unfold chunked_read. rewrite Hin. cbn [fmap list_fmap]. pose proof (zlen_bytes_of (HttpRequest_dump q)) as Hz.
    destruct (bytes_of (HttpRequest_dump q)) eqn:E.
    - rewrite (dump_head q Hw), str_len_app in Hz. pose proof (head_text_pos (m_method q) (m_path q) (m_query q) (m_fragment q) (m_version q) (request_fields q)).
      pose proof (str_len_nonneg (m_body q)). unfold dumped_head in Hz. rewrite zlen_nil in Hz. lia.
    - by replace (_ <=? buff_size) with true by lia; rewrite Hz. }
  apply (recvRequest_whole (S := chunked) lexical_cast buff_size mem Hbuff fuel (m_method q) (m_path q) (m_query q) (m_fragment q) (m_version q)
    (request_fields q) (m_body q) _ _ _ _) with (2 := Hmem) (4 := Hr).
  - pose proof Hq as ((?&?&?&?&?&?&?) & _). split_and!; try done. by apply request_fields_ok.
  - by apply received_length.
  - apply zlen_bytes_of.
  - done.
  - by rewrite text_of_bytes_of, (dump_head q Hw).
Qed.
Lemma recv_end s : client [] s → ∃ s', session_recv s = Done s' None ∧ client [] s' ∧ ch_out s' = ch_out s.
Proof using Hbuff.
  intros (Hin & _ & Hroom). exists (mkChunked [] [] (ch_out s) true). split; [|done]. cbn [session_recv session http_session].
  unfold recvRequest. rewrite (bind_done _ _ s (mkChunked [] [] (ch_out s) true) None); [done|]. cbn [recv_loop].
  rewrite (bind_done _ _ s (mkChunked [] [] (ch_out s) (ch_closed s)) (0, [])); [done|]. cbn. unfold chunked_read. rewrite Hin.
  destruct s; cbn in *. by subst.
Qed.
Lemma write_segment b s : ch_room s = [] → 0 < zlen b < 2 ^ 63 →
  writeFixSize b s = Done (mkChunked (ch_in s) [] (ch_out s ++ b)%list (ch_closed s)) (s32 (zlen b)).
Proof.
  intros Hroom Hb. unfold writeFixSize. destruct (List.length b) as [|n] eqn:Hn; [unfold zlen in Hb; lia|]. rewrite s64_small by lia.
  rewrite (bind_done _ _ s (mkChunked (ch_in s) [] (ch_out s ++ b)%list (ch_closed s)) None); [done|]. cbn [writeFixSize_loop]. replace (zlen b >? 0) with true by lia. rewrite (slice_all (zlen b) b eq_refl).
  erewrite bind_done; [|cbn [write chunked_stream]; unfold chunked_write; rewrite Hroom; reflexivity].
  replace (zlen b <=? 0) with false by lia. rewrite Z.sub_diag. by destruct n.
Qed.
Lemma send_segment r qs s : client qs s → str_len (HttpResponse_dump r) < 2 ^ 63 →
  ∃ s' n, session_send r s = Done s' n ∧ client qs s' ∧ ch_out s' = (ch_out s ++ bytes_of (HttpResponse_dump r))%list.
Proof.
  intros (Hin & Hqs & Hroom) Hl. cbn [session_send session http_session]. unfold sendResponse.
  rewrite write_segment; [by eexists _, _|done|]. rewrite zlen_bytes_of. split; [|done].
  unfold HttpResponse_dump, dump_version. rewrite !str_len_app. change (str_len "HTTP/") with 5.
  repeat match goal with |- context [str_len ?x] => lazymatch goal with H : 0 ≤ str_len x |- _ => fail | _ => pose proof (str_len_nonneg x) end end. lia.
Qed.
#[local] Instance session_laws : SessionLaws chunked.
Proof using Hbuff Hmem.
  refine {| pending s rs := ∃ qs, client qs s ∧ rs = received <$> qs; sent := ch_out; closed := ch_closed |}.
  - intros s rs ([|q qs] & Hc & ->).
    + destruct (recv_end s Hc) as (s' & Hr & Hc' & Ho). exists s'. split; [done|]. split; [by exists []|done].
    + destruct (recv_segment q qs s Hc) as (s' & Hr & Hc' & Ho). exists s'. split; [done|]. split; [by exists qs|done].
  - intros s rs r (qs & Hc & ->) Hl. destruct (send_segment r qs s Hc Hl) as (s' & n & Hs & Hc' & Ho). exists s', n.
    split; [done|]. split; [by exists qs|done].
  - intros s. eexists. by split_and!.
Defined.
End segments.

(** ** The properties *)
(** a client connection is served in order, one response per request, up to and
    including the first request that ends the conversation (or until nothing more
    arrives); then the session is closed.  If the handlers leave the flags alone, a
    response says [close] exactly when it is the last one allowed. *)
Theorem handleClient_spec {S} `{!Session S, !SessionLaws S} fnmatch g m_name m_isKeepalive d fuel s rs :
  pending s rs → (List.length rs < fuel)%nat →
  Forall (λ r, str_len (HttpResponse_dump (exchange fnmatch g m_name m_isKeepalive d r).2) < 2 ^ 63) rs →
  ∃ s', handleClient fnmatch (pure_run g) fuel m_name m_isKeepalive d s = Done s' () ∧ closed s' = true ∧
    sent s' = (sent s ++ responses fnmatch g m_name m_isKeepalive d rs)%list ∧
    ((∀ slt rq rs, m_close (g slt rq rs).1 = m_close rq ∧ p_close (g slt rq rs).2 = p_close rs) →
     ∀ r, p_close (exchange fnmatch g m_name m_isKeepalive d r).2 = last_request fnmatch g m_name m_isKeepalive d r).
Proof.
  intros Hp Hf Hall. destruct (client_loop_ok fnmatch g m_name m_isKeepalive d fuel s rs Hp Hf Hall) as (s1 & Hl & Hs).
  destruct (session_close_law s1) as (s2 & Hc & Hc1 & Hc2). exists s2. unfold handleClient. rewrite (bind_done _ _ _ _ _ Hl).
  split; [done|]. split; [done|]. split; [by rewrite Hc2|].
  intros Hg r. unfold last_request, exchange. assert (Hor : m_close r || negb m_isKeepalive = negb m_isKeepalive || m_close r) by apply orb_comm.
  destruct (getMatchedServlet fnmatch (m_path r) d) as [[cb|nm content|id]|]; try exact Hor;
    by rewrite (proj1 (Hg _ _ _)), (proj2 (Hg _ _ _)).
Qed.

(** C18: from bytes to bytes: when a client sends the texts of its requests, a segment
    each, the server sends the texts of the responses to what it received, in order, up
    to the end of the conversation, and closes the connection. *)
Theorem serve_segments lexical_cast buff_size mem fuel fnmatch g m_name m_isKeepalive d n qs s :
  0 < buff_size < 2 ^ 31 → 0 ≤ query_start mem < 2 ^ 63 → client lexical_cast buff_size qs s → (List.length qs < n)%nat →
  Forall (λ q, str_len (HttpResponse_dump (exchange fnmatch g m_name m_isKeepalive d (received q)).2) < 2 ^ 63) qs →
  ∃ s', handleClient (S := chunked) (Session0 := http_session lexical_cast buff_size mem (Datatypes.S fuel)) fnmatch (pure_run g) n m_name m_isKeepalive d s
      = Done s' () ∧ stream_closed s' = true ∧
    outgoing s' = (outgoing s ++ responses fnmatch g m_name m_isKeepalive d (received <$> qs))%list.
Proof.
  intros Hb Hm Hc Hn Hall.
  destruct (client_loop_ok (SessionLaws0 := session_laws lexical_cast buff_size mem fuel Hb Hm) fnmatch g m_name m_isKeepalive d n s (received <$> qs))
    as (s1 & Hl & Hs).
  - by exists qs.
  - by rewrite length_fmap.
  - by apply Forall_fmap.
  - eexists. unfold handleClient. rewrite (bind_done _ _ _ _ _ Hl). split; [reflexivity|]. split; [done|]. exact Hs.
Qed.

(** ** Witnesses *)
(** Two keep-alive requests and one that closes: three answers, the last says close. *)
Definition echo (_ : Servlet) (q : HttpRequest) (r : HttpResponse) : HttpRequest * HttpResponse := (q, rsp_setBody (m_path q) r).
Definition dispatch : ServletDispatch := addServlet_cb "/a" 1 ServletDispatch_new.
Definition get_request (path : string) (close : bool) : HttpRequest := setPath path (HttpRequest_new 0x11 close).
Definition conversation : list HttpRequest := [get_request "/a" false; get_request "/b" false; get_request "/a" true].
Definition wire : chunked := mkChunked ((λ q, bytes_of (HttpRequest_dump q)) <$> conversation) [] [] false.
Lemma get_sends path close : path_ok path = true → str_len (HttpRequest_dump (get_request path close)) ≤ 4096 → sends undec 4096 (get_request path close).
Proof.
  intros Hp Hl. split; [|by split]. unfold sendable, head_ok. split_and!; first [reflexivity | exact Hp | done | right; reflexivity | by constructor].
Qed.
Lemma conversation_sends : client undec 4096 conversation wire.
Proof. split; [reflexivity|]. split; [|reflexivity]. repeat apply Forall_cons_2; try constructor; by apply get_sends. Qed.
Lemma handleClient_spec_witness : ∃ s', handleClient (S := chunked) (Session0 := http_session undec 4096 no_parser 2) (λ _ _, false) (pure_run echo) 5 "srv" true dispatch wire
    = Done s' () ∧ ch_closed s' = true.
Proof.
  destruct (handleClient_spec (SessionLaws0 := session_laws undec 4096 no_parser 1 ltac:(lia) ltac:(cbn; lia)) (λ _ _, false) echo "srv" true dispatch 5 wire
    (received <$> conversation)) as (s' & H1 & H2 & _).
  - exists conversation. split; [exact conversation_sends|reflexivity].
  - cbn. lia.
  - repeat constructor; vm_compute; reflexivity.
  - exists s'. split; [exact H1|exact H2].
Defined.
Lemma serve_segments_witness : ∃ s', handleClient (S := chunked) (Session0 := http_session undec 4096 no_parser 2) (λ _ _, false) (pure_run echo) 5 "srv" true dispatch wire
    = Done s' () ∧ String.prefix "HTTP/1.1 200 OK" (text_of (ch_out s')) = true.
Proof.
  destruct (serve_segments undec 4096 no_parser 1 (λ _ _, false) echo "srv" true dispatch 5 conversation wire) as (s' & H1 & H2 & H3).
  - lia.
  - cbn. lia.
  - exact conversation_sends.
  - cbn. lia.
  - repeat constructor; vm_compute; reflexivity.
  - exists s'. split; [exact H1|]. change (outgoing s') with (ch_out s') in H3. rewrite H3. vm_compute. reflexivity.
Defined.
