(* ===== verification/UriTable.v ===== *)
(** * UriTable ([webserve/uri.rl.cc]): the tables of the URI parser

    One row per label of the generated code, in its order, as in Http11Table. *)
From S2P Require Import Prelude Ragel.
Open Scope Z_scope.

(** The actions of the grammar (uri.rl). *)
Inductive uri_action := MarkP | SaveScheme | SaveUserinfo | SaveHost | SavePort | SavePath | SaveQuery | SaveFragment.
#[export] Instance uri_action_eq_dec : EqDecision uri_action.
Proof. solve_decision. Defined.

(** Lines 43 to 190. *)
Definition uri_cases_1 (cs c : Z) : option label :=
  match cs with
  | 451 => Some (
      switch c [(34, st 0); (35, st 453); (37, st 3); (47, st 458); (58, st 0); (60, st 0); (62, st 0); (63, st 456);
      (96, st 0); (127, st 0)] (if c <? 91 then if c >? 32 then if (65 <=? c) && (c <=? 90) then tr 461 else st 452
      else if c >=? 0 then st 0 else st 452 else if c >? 94 then if c >? 122 then if (123 <=? c) && (c <=? 125) then st 0
      else st 452 else if c >=? 97 then tr 461 else st 452 else st 0))
  | 452 => Some (
      switch c [(34, st 0); (35, st 453); (37, st 3); (47, st 455); (58, st 0); (60, st 0); (62, st 0); (63, st 456);
      (96, st 0); (127, st 0)] (if c <? 91 then if (0 <=? c) && (c <=? 32) then st 0 else st 452
      else if c >? 94 then if (123 <=? c) && (c <=? 125) then st 0 else st 452 else st 0))
  | _ => None
  end.
Definition uri_trans_1 (n : Z) : option (list uri_action * dest) :=
  match n with
  | 467 => Some ([MarkP; SaveQuery], Goto 453)
  | 469 => Some ([SaveQuery], Goto 453)
  | 474 => Some ([MarkP; SaveHost], Goto 453)
  | 485 => Some ([SaveHost], Goto 453)
  | 489 => Some ([MarkP; SavePort], Goto 453)
  | 493 => Some ([SavePort], Goto 453)
  | 548 => Some ([MarkP; SaveHost; SavePath], Goto 453)
  | 559 => Some ([SaveHost; MarkP; SavePath], Goto 453)
  | _ => None
  end.
(** Lines 191 to 331. *)
Definition uri_cases_2 (cs c : Z) : option label :=
  match cs with
  | 453 => Some (
      switch c [(37, tr 463); (60, st 0); (62, st 0); (96, st 0); (127, st 0)]
      (if c <? 34 then if (0 <=? c) && (c <=? 32) then st 0 else tr 462
      else if c >? 35 then if c >? 94 then if (123 <=? c) && (c <=? 125) then st 0 else tr 462 else if c >=? 91 then st 0
      else tr 462 else st 0))
  | 454 => Some (
      switch c [(37, st 1); (60, st 0); (62, st 0); (96, st 0); (127, st 0)]
      (if c <? 34 then if (0 <=? c) && (c <=? 32) then st 0 else st 454
      else if c >? 35 then if c >? 94 then if (123 <=? c) && (c <=? 125) then st 0 else st 454 else if c >=? 91 then st 0
      else st 454 else st 0))
  | 1 => Some (
      if c <? 65 then if (48 <=? c) && (c <=? 57) then st 2 else st 0
      else if c >? 70 then if (97 <=? c) && (c <=? 102) then st 2 else st 0 else st 2)
  | 2 => Some (
      if c <? 65 then if (48 <=? c) && (c <=? 57) then st 454 else st 0
      else if c >? 70 then if (97 <=? c) && (c <=? 102) then st 454 else st 0 else st 454)
  | 3 => Some (
      if c <? 65 then if (48 <=? c) && (c <=? 57) then st 4 else st 0
      else if c >? 70 then if (97 <=? c) && (c <=? 102) then st 4 else st 0 else st 4)
  | _ => None
  end.
Definition uri_trans_2 (n : Z) : option (list uri_action * dest) :=
  match n with
  | 563 => Some ([SavePath], Goto 453)
  | 566 => Some ([MarkP; SavePort; SavePath], Goto 453)
  | 570 => Some ([SavePort; MarkP; SavePath], Goto 453)
  | 462 => Some ([MarkP], Goto 454)
  | 463 => Some ([MarkP], Goto 1)
  | _ => None
  end.
(** Lines 332 to 471. *)
Definition uri_cases_3 (cs c : Z) : option label :=
  match cs with
  | 4 => Some (
      if c <? 65 then if (48 <=? c) && (c <=? 57) then st 452 else st 0
      else if c >? 70 then if (97 <=? c) && (c <=? 102) then st 452 else st 0 else st 452)
  | 455 => Some (
      switch c [(34, st 0); (35, st 453); (37, st 5); (60, st 0); (62, st 0); (63, st 456); (96, st 0); (127, st 0)]
      (if c <? 91 then if (0 <=? c) && (c <=? 32) then st 0 else st 455
      else if c >? 94 then if (123 <=? c) && (c <=? 125) then st 0 else st 455 else st 0))
  | 5 => Some (
      if c <? 65 then if (48 <=? c) && (c <=? 57) then st 6 else st 0
      else if c >? 70 then if (97 <=? c) && (c <=? 102) then st 6 else st 0 else st 6)
  | 6 => Some (
      if c <? 65 then if (48 <=? c) && (c <=? 57) then st 455 else st 0
      else if c >? 70 then if (97 <=? c) && (c <=? 102) then st 455 else st 0 else st 455)
  | _ => None
  end.
Definition uri_trans_3 (n : Z) : option (list uri_action * dest) :=
  match n with
  | 476 => Some ([MarkP; SaveHost], Goto 455)
  | 486 => Some ([SaveHost], Goto 455)
  | 490 => Some ([MarkP; SavePort], Goto 455)
  | 494 => Some ([SavePort], Goto 455)
  | 482 => Some ([MarkP; SaveHost], Goto 456)
  | 488 => Some ([SaveHost], Goto 456)
  | 492 => Some ([MarkP; SavePort], Goto 456)
  | 496 => Some ([SavePort], Goto 456)
  | _ => None
  end.
(** Lines 472 to 618. *)
Definition uri_cases_4 (cs c : Z) : option label :=
  match cs with
  | 456 => Some (
      switch c [(34, st 0); (35, tr 467); (37, tr 468); (60, st 0); (62, st 0); (96, st 0); (127, st 0)]
      (if c <? 91 then if (0 <=? c) && (c <=? 32) then st 0 else tr 466
      else if c >? 94 then if (123 <=? c) && (c <=? 125) then st 0 else tr 466 else st 0))
  | 457 => Some (
      switch c [(34, st 0); (35, tr 469); (37, st 7); (60, st 0); (62, st 0); (96, st 0); (127, st 0)]
      (if c <? 91 then if (0 <=? c) && (c <=? 32) then st 0 else st 457
      else if c >? 94 then if (123 <=? c) && (c <=? 125) then st 0 else st 457 else st 0))
  | 7 => Some (
      if c <? 65 then if (48 <=? c) && (c <=? 57) then st 8 else st 0
      else if c >? 70 then if (97 <=? c) && (c <=? 102) then st 8 else st 0 else st 8)
  | _ => None
  end.
Definition uri_trans_4 (n : Z) : option (list uri_action * dest) :=
  match n with
  | 556 => Some ([MarkP; SaveHost; SavePath], Goto 456)
  | 562 => Some ([SaveHost; MarkP; SavePath], Goto 456)
  | 565 => Some ([SavePath], Goto 456)
  | 569 => Some ([MarkP; SavePort; SavePath], Goto 456)
  | 573 => Some ([SavePort; MarkP; SavePath], Goto 456)
  | 466 => Some ([MarkP], Goto 457)
  | 468 => Some ([MarkP], Goto 7)
  | _ => None
  end.
(** Lines 619 to 766. *)
Definition uri_cases_5 (cs c : Z) : option label :=
  match cs with
  | 8 => Some (
      if c <? 65 then if (48 <=? c) && (c <=? 57) then st 457 else st 0
      else if c >? 70 then if (97 <=? c) && (c <=? 102) then st 457 else st 0 else st 457)
  | 458 => Some (
      switch c [(34, st 0); (35, st 453); (37, st 5); (47, st 459); (60, st 0); (62, st 0); (63, st 456); (96, st 0);
      (127, st 0)] (if c <? 91 then if (0 <=? c) && (c <=? 32) then st 0 else st 455
      else if c >? 94 then if (123 <=? c) && (c <=? 125) then st 0 else st 455 else st 0))
  | 459 => Some (
      switch c [(2, tr 472); (33, tr 473); (35, tr 474); (37, tr 475); (47, tr 476); (48, tr 477); (49, tr 478);
      (50, tr 479); (58, tr 481); (59, tr 473); (61, tr 473); (63, tr 482); (64, tr 483); (91, tr 484); (95, tr 473);
      (126, tr 473)] (if c <? 51 then if (36 <=? c) && (c <=? 46) then tr 473 else st 0
      else if c >? 57 then if c >? 90 then if (97 <=? c) && (c <=? 122) then tr 473 else st 0 else if c >=? 65 then tr 473
      else st 0 else tr 480))
  | 9 => Some (if (48 <=? c) && (c <=? 52) then st 10 else st 0)
  | 10 => Some (if (48 <=? c) && (c <=? 57) then st 11 else st 0)
  | 11 => Some (if c =? 46 then st 12 else st 0)
  | 12 => Some (
      switch c [(2, st 13); (48, st 15); (49, st 27); (50, st 29)] (if (51 <=? c) && (c <=? 57) then st 28 else st 0))
  | 13 => Some (if (48 <=? c) && (c <=? 52) then st 14 else st 0)
  | 14 => Some (if (48 <=? c) && (c <=? 57) then st 15 else st 0)
  | 15 => Some (if c =? 46 then st 16 else st 0)
  | 16 => Some (
      switch c [(2, st 17); (48, st 19); (49, st 23); (50, st 25)] (if (51 <=? c) && (c <=? 57) then st 24 else st 0))
  | 17 => Some (if (48 <=? c) && (c <=? 52) then st 18 else st 0)
  | _ => None
  end.
Definition uri_trans_5 (n : Z) : option (list uri_action * dest) :=
  match n with
  | 472 => Some ([MarkP], Goto 9)
  | _ => None
  end.
(** Lines 767 to 911. *)
Definition uri_cases_6 (cs c : Z) : option label :=
  match cs with
  | 18 => Some (if (48 <=? c) && (c <=? 57) then st 19 else st 0)
  | 19 => Some (if c =? 46 then st 20 else st 0)
  | 20 => Some (
      switch c [(2, st 21); (48, st 460); (49, st 463); (50, st 465)] (if (51 <=? c) && (c <=? 57) then st 464 else st 0))
  | 21 => Some (if (48 <=? c) && (c <=? 52) then st 22 else st 0)
  | 22 => Some (if (48 <=? c) && (c <=? 57) then st 460 else st 0)
  | 460 => Some (switch c [(35, tr 485); (47, tr 486); (58, tr 487); (63, tr 488)] (st 0))
  | 461 => Some (
      switch c [(35, tr 489); (47, tr 490); (63, tr 492)] (if (48 <=? c) && (c <=? 57) then tr 491 else st 0))
  | 462 => Some (
      switch c [(35, tr 493); (47, tr 494); (63, tr 496)] (if (48 <=? c) && (c <=? 57) then st 462 else st 0))
  | 463 => Some (
      switch c [(35, tr 485); (47, tr 486); (58, tr 487); (63, tr 488)] (if (48 <=? c) && (c <=? 57) then st 464 else st 0))
  | 464 => Some (
      switch c [(35, tr 485); (47, tr 486); (58, tr 487); (63, tr 488)] (if (48 <=? c) && (c <=? 57) then st 460 else st 0))
  | 465 => Some (
      switch c [(35, tr 485); (47, tr 486); (53, st 466); (58, tr 487); (63, tr 488)]
      (if (48 <=? c) && (c <=? 57) then st 460 else st 0))
  | _ => None
  end.
Definition uri_trans_6 (n : Z) : option (list uri_action * dest) :=
  match n with
  | 507 => Some ([MarkP; SaveHost], Goto 461)
  | 487 => Some ([SaveHost], Goto 461)
  | 491 => Some ([MarkP], Goto 462)
  | _ => None
  end.
(** Lines 912 to 1058. *)
Definition uri_cases_7 (cs c : Z) : option label :=
  match cs with
  | 466 => Some (
      switch c [(35, tr 485); (47, tr 486); (58, tr 487); (63, tr 488)] (if (48 <=? c) && (c <=? 53) then st 460 else st 0))
  | 23 => Some (if c =? 46 then st 20 else if (48 <=? c) && (c <=? 57) then st 24 else st 0)
  | 24 => Some (if c =? 46 then st 20 else if (48 <=? c) && (c <=? 57) then st 19 else st 0)
  | 25 => Some (switch c [(46, st 20); (53, st 26)] (if (48 <=? c) && (c <=? 57) then st 19 else st 0))
  | 26 => Some (if c =? 46 then st 20 else if (48 <=? c) && (c <=? 53) then st 19 else st 0)
  | 27 => Some (if c =? 46 then st 16 else if (48 <=? c) && (c <=? 57) then st 28 else st 0)
  | 28 => Some (if c =? 46 then st 16 else if (48 <=? c) && (c <=? 57) then st 15 else st 0)
  | 29 => Some (switch c [(46, st 16); (53, st 30)] (if (48 <=? c) && (c <=? 57) then st 15 else st 0))
  | 30 => Some (if c =? 46 then st 16 else if (48 <=? c) && (c <=? 53) then st 15 else st 0)
  | 467 => Some (
      switch c [(33, st 467); (35, tr 485); (37, st 31); (47, tr 486); (58, tr 499); (61, st 467); (63, tr 488);
      (64, tr 38); (95, st 467); (126, st 467)] (if c <? 65 then if (36 <=? c) && (c <=? 59) then st 467 else st 0
      else if c >? 90 then if (97 <=? c) && (c <=? 122) then st 467 else st 0 else st 467))
  | 31 => Some (
      if c <? 65 then if (48 <=? c) && (c <=? 57) then st 32 else st 0
      else if c >? 70 then if (97 <=? c) && (c <=? 102) then st 32 else st 0 else st 32)
  | 32 => Some (
      if c <? 65 then if (48 <=? c) && (c <=? 57) then st 467 else st 0
      else if c >? 70 then if (97 <=? c) && (c <=? 102) then st 467 else st 0 else st 467)
  | _ => None
  end.
Definition uri_trans_7 (n : Z) : option (list uri_action * dest) :=
  match n with
  | 473 => Some ([MarkP], Goto 467)
  | 475 => Some ([MarkP], Goto 31)
  | _ => None
  end.
(** Lines 1059 to 1184. *)
Definition uri_cases_8 (cs c : Z) : option label :=
  match cs with
  | 468 => Some (
      switch c [(33, st 33); (35, tr 489); (37, st 34); (47, tr 490); (61, st 33); (63, tr 492); (64, tr 38); (95, st 33);
      (126, st 33)] (if c <? 58 then if c >? 46 then if (48 <=? c) && (c <=? 57) then tr 500 else st 0
      else if c >=? 36 then st 33 else st 0 else if c >? 59 then if c >? 90 then if (97 <=? c) && (c <=? 122) then st 33
      else st 0 else if c >=? 65 then st 33 else st 0 else st 33))
  | 33 => Some (
      switch c [(33, st 33); (37, st 34); (61, st 33); (64, tr 38); (95, st 33); (126, st 33)]
      (if c <? 48 then if (36 <=? c) && (c <=? 46) then st 33 else st 0
      else if c >? 59 then if c >? 90 then if (97 <=? c) && (c <=? 122) then st 33 else st 0 else if c >=? 65 then st 33
      else st 0 else st 33))
  | 34 => Some (
      if c <? 65 then if (48 <=? c) && (c <=? 57) then st 35 else st 0
      else if c >? 70 then if (97 <=? c) && (c <=? 102) then st 35 else st 0 else st 35)
  | 35 => Some (
      if c <? 65 then if (48 <=? c) && (c <=? 57) then st 33 else st 0
      else if c >? 70 then if (97 <=? c) && (c <=? 102) then st 33 else st 0 else st 33)
  | _ => None
  end.
Definition uri_trans_8 (n : Z) : option (list uri_action * dest) :=
  match n with
  | 481 => Some ([MarkP; SaveHost], Goto 468)
  | 499 => Some ([SaveHost], Goto 468)
  | 38 => Some ([SaveUserinfo], Goto 469)
  | 483 => Some ([MarkP; SaveUserinfo], Goto 469)
  | _ => None
  end.
(** Lines 1185 to 1308. *)
Definition uri_cases_9 (cs c : Z) : option label :=
  match cs with
  | 469 => Some (
      switch c [(2, tr 472); (33, tr 501); (35, tr 474); (37, tr 502); (47, tr 476); (48, tr 503); (49, tr 504);
      (50, tr 505); (58, tr 507); (59, tr 501); (61, tr 501); (63, tr 482); (91, tr 484); (95, tr 501); (126, tr 501)]
      (if c <? 51 then if (36 <=? c) && (c <=? 46) then tr 501 else st 0
      else if c >? 57 then if c >? 90 then if (97 <=? c) && (c <=? 122) then tr 501 else st 0 else if c >=? 65 then tr 501
      else st 0 else tr 506))
  | 470 => Some (
      switch c [(33, st 470); (35, tr 485); (37, st 36); (47, tr 486); (58, tr 487); (61, st 470); (63, tr 488);
      (95, st 470); (126, st 470)] (if c <? 65 then if (36 <=? c) && (c <=? 59) then st 470 else st 0
      else if c >? 90 then if (97 <=? c) && (c <=? 122) then st 470 else st 0 else st 470))
  | 36 => Some (
      if c <? 65 then if (48 <=? c) && (c <=? 57) then st 37 else st 0
      else if c >? 70 then if (97 <=? c) && (c <=? 102) then st 37 else st 0 else st 37)
  | 37 => Some (
      if c <? 65 then if (48 <=? c) && (c <=? 57) then st 470 else st 0
      else if c >? 70 then if (97 <=? c) && (c <=? 102) then st 470 else st 0 else st 470)
  | 471 => Some (
      switch c [(33, st 470); (35, tr 485); (37, st 36); (46, st 472); (47, tr 486); (58, tr 487); (61, st 470);
      (63, tr 488); (95, st 470); (126, st 470)] (if c <? 65 then if (36 <=? c) && (c <=? 59) then st 470 else st 0
      else if c >? 90 then if (97 <=? c) && (c <=? 122) then st 470 else st 0 else st 470))
  | _ => None
  end.
Definition uri_trans_9 (n : Z) : option (list uri_action * dest) :=
  match n with
  | 501 => Some ([MarkP], Goto 470)
  | 502 => Some ([MarkP], Goto 36)
  | 503 => Some ([MarkP], Goto 471)
  | _ => None
  end.
(** Lines 1309 to 1447. *)
Definition uri_cases_10 (cs c : Z) : option label :=
  match cs with
  | 472 => Some (
      switch c [(2, st 13); (33, st 470); (35, tr 485); (37, st 36); (47, tr 486); (48, st 473); (49, st 481); (50, st 483);
      (58, tr 487); (59, st 470); (61, st 470); (63, tr 488); (95, st 470); (126, st 470)]
      (if c <? 51 then if (36 <=? c) && (c <=? 46) then st 470 else st 0
      else if c >? 57 then if c >? 90 then if (97 <=? c) && (c <=? 122) then st 470 else st 0 else if c >=? 65 then st 470
      else st 0 else st 482))
  | 473 => Some (
      switch c [(33, st 470); (35, tr 485); (37, st 36); (46, st 474); (47, tr 486); (58, tr 487); (61, st 470);
      (63, tr 488); (95, st 470); (126, st 470)] (if c <? 65 then if (36 <=? c) && (c <=? 59) then st 470 else st 0
      else if c >? 90 then if (97 <=? c) && (c <=? 122) then st 470 else st 0 else st 470))
  | 474 => Some (
      switch c [(2, st 17); (33, st 470); (35, tr 485); (37, st 36); (47, tr 486); (48, st 475); (49, st 477); (50, st 479);
      (58, tr 487); (59, st 470); (61, st 470); (63, tr 488); (95, st 470); (126, st 470)]
      (if c <? 51 then if (36 <=? c) && (c <=? 46) then st 470 else st 0
      else if c >? 57 then if c >? 90 then if (97 <=? c) && (c <=? 122) then st 470 else st 0 else if c >=? 65 then st 470
      else st 0 else st 478))
  | 475 => Some (
      switch c [(33, st 470); (35, tr 485); (37, st 36); (46, st 476); (47, tr 486); (58, tr 487); (61, st 470);
      (63, tr 488); (95, st 470); (126, st 470)] (if c <? 65 then if (36 <=? c) && (c <=? 59) then st 470 else st 0
      else if c >? 90 then if (97 <=? c) && (c <=? 122) then st 470 else st 0 else st 470))
  | 476 => Some (
      switch c [(2, st 21); (33, st 470); (35, tr 485); (37, st 36); (47, tr 486); (58, tr 487); (61, st 470); (63, tr 488);
      (95, st 470); (126, st 470)] (if c <? 65 then if (36 <=? c) && (c <=? 59) then st 470 else st 0
      else if c >? 90 then if (97 <=? c) && (c <=? 122) then st 470 else st 0 else st 470))
  | _ => None
  end.
(** Lines 1448 to 1595. *)
Definition uri_cases_11 (cs c : Z) : option label :=
  match cs with
  | 477 => Some (
      switch c [(33, st 470); (35, tr 485); (37, st 36); (46, st 476); (47, tr 486); (58, tr 487); (59, st 470);
      (61, st 470); (63, tr 488); (95, st 470); (126, st 470)] (if c <? 48 then if (36 <=? c) && (c <=? 45) then st 470
      else st 0 else if c >? 57 then if c >? 90 then if (97 <=? c) && (c <=? 122) then st 470 else st 0
      else if c >=? 65 then st 470 else st 0 else st 478))
  | 478 => Some (
      switch c [(33, st 470); (35, tr 485); (37, st 36); (46, st 476); (47, tr 486); (58, tr 487); (59, st 470);
      (61, st 470); (63, tr 488); (95, st 470); (126, st 470)] (if c <? 48 then if (36 <=? c) && (c <=? 45) then st 470
      else st 0 else if c >? 57 then if c >? 90 then if (97 <=? c) && (c <=? 122) then st 470 else st 0
      else if c >=? 65 then st 470 else st 0 else st 475))
  | 479 => Some (
      switch c [(33, st 470); (35, tr 485); (37, st 36); (46, st 476); (47, tr 486); (53, st 480); (58, tr 487);
      (59, st 470); (61, st 470); (63, tr 488); (95, st 470); (126, st 470)]
      (if c <? 48 then if (36 <=? c) && (c <=? 45) then st 470 else st 0
      else if c >? 57 then if c >? 90 then if (97 <=? c) && (c <=? 122) then st 470 else st 0 else if c >=? 65 then st 470
      else st 0 else st 475))
  | 480 => Some (
      switch c [(33, st 470); (35, tr 485); (37, st 36); (46, st 476); (47, tr 486); (58, tr 487); (61, st 470);
      (63, tr 488); (95, st 470); (126, st 470)] (if c <? 54 then if c >? 45 then if (48 <=? c) && (c <=? 53) then st 475
      else st 0 else if c >=? 36 then st 470 else st 0
      else if c >? 59 then if c >? 90 then if (97 <=? c) && (c <=? 122) then st 470 else st 0 else if c >=? 65 then st 470
      else st 0 else st 470))
  | 481 => Some (
      switch c [(33, st 470); (35, tr 485); (37, st 36); (46, st 474); (47, tr 486); (58, tr 487); (59, st 470);
      (61, st 470); (63, tr 488); (95, st 470); (126, st 470)] (if c <? 48 then if (36 <=? c) && (c <=? 45) then st 470
      else st 0 else if c >? 57 then if c >? 90 then if (97 <=? c) && (c <=? 122) then st 470 else st 0
      else if c >=? 65 then st 470 else st 0 else st 482))
  | _ => None
  end.
(** Lines 1596 to 1723. *)
Definition uri_cases_12 (cs c : Z) : option label :=
  match cs with
  | 482 => Some (
      switch c [(33, st 470); (35, tr 485); (37, st 36); (46, st 474); (47, tr 486); (58, tr 487); (59, st 470);
      (61, st 470); (63, tr 488); (95, st 470); (126, st 470)] (if c <? 48 then if (36 <=? c) && (c <=? 45) then st 470
      else st 0 else if c >? 57 then if c >? 90 then if (97 <=? c) && (c <=? 122) then st 470 else st 0
      else if c >=? 65 then st 470 else st 0 else st 473))
  | 483 => Some (
      switch c [(33, st 470); (35, tr 485); (37, st 36); (46, st 474); (47, tr 486); (53, st 484); (58, tr 487);
      (59, st 470); (61, st 470); (63, tr 488); (95, st 470); (126, st 470)]
      (if c <? 48 then if (36 <=? c) && (c <=? 45) then st 470 else st 0
      else if c >? 57 then if c >? 90 then if (97 <=? c) && (c <=? 122) then st 470 else st 0 else if c >=? 65 then st 470
      else st 0 else st 473))
  | 484 => Some (
      switch c [(33, st 470); (35, tr 485); (37, st 36); (46, st 474); (47, tr 486); (58, tr 487); (61, st 470);
      (63, tr 488); (95, st 470); (126, st 470)] (if c <? 54 then if c >? 45 then if (48 <=? c) && (c <=? 53) then st 473
      else st 0 else if c >=? 36 then st 470 else st 0
      else if c >? 59 then if c >? 90 then if (97 <=? c) && (c <=? 122) then st 470 else st 0 else if c >=? 65 then st 470
      else st 0 else st 470))
  | 485 => Some (
      switch c [(33, st 470); (35, tr 485); (37, st 36); (46, st 472); (47, tr 486); (58, tr 487); (59, st 470);
      (61, st 470); (63, tr 488); (95, st 470); (126, st 470)] (if c <? 48 then if (36 <=? c) && (c <=? 45) then st 470
      else st 0 else if c >? 57 then if c >? 90 then if (97 <=? c) && (c <=? 122) then st 470 else st 0
      else if c >=? 65 then st 470 else st 0 else st 486))
  | _ => None
  end.
Definition uri_trans_12 (n : Z) : option (list uri_action * dest) :=
  match n with
  | 504 => Some ([MarkP], Goto 485)
  | 506 => Some ([MarkP], Goto 486)
  | _ => None
  end.
(** Lines 1724 to 1871. *)
Definition uri_cases_13 (cs c : Z) : option label :=
  match cs with
  | 486 => Some (
      switch c [(33, st 470); (35, tr 485); (37, st 36); (46, st 472); (47, tr 486); (58, tr 487); (59, st 470);
      (61, st 470); (63, tr 488); (95, st 470); (126, st 470)] (if c <? 48 then if (36 <=? c) && (c <=? 45) then st 470
      else st 0 else if c >? 57 then if c >? 90 then if (97 <=? c) && (c <=? 122) then st 470 else st 0
      else if c >=? 65 then st 470 else st 0 else st 471))
  | 487 => Some (
      switch c [(33, st 470); (35, tr 485); (37, st 36); (46, st 472); (47, tr 486); (53, st 488); (58, tr 487);
      (59, st 470); (61, st 470); (63, tr 488); (95, st 470); (126, st 470)]
      (if c <? 48 then if (36 <=? c) && (c <=? 45) then st 470 else st 0
      else if c >? 57 then if c >? 90 then if (97 <=? c) && (c <=? 122) then st 470 else st 0 else if c >=? 65 then st 470
      else st 0 else st 471))
  | 488 => Some (
      switch c [(33, st 470); (35, tr 485); (37, st 36); (46, st 472); (47, tr 486); (58, tr 487); (61, st 470);
      (63, tr 488); (95, st 470); (126, st 470)] (if c <? 54 then if c >? 45 then if (48 <=? c) && (c <=? 53) then st 471
      else st 0 else if c >=? 36 then st 470 else st 0
      else if c >? 59 then if c >? 90 then if (97 <=? c) && (c <=? 122) then st 470 else st 0 else if c >=? 65 then st 470
      else st 0 else st 470))
  | 38 => Some (
      switch c [(58, st 146); (118, st 225)] (if c <? 65 then if (48 <=? c) && (c <=? 57) then st 39 else st 0
      else if c >? 70 then if (97 <=? c) && (c <=? 102) then st 39 else st 0 else st 39))
  | 39 => Some (
      if c =? 58 then st 43 else if c <? 65 then if (48 <=? c) && (c <=? 57) then st 40 else st 0
      else if c >? 70 then if (97 <=? c) && (c <=? 102) then st 40 else st 0 else st 40)
  | 40 => Some (
      if c =? 58 then st 43 else if c <? 65 then if (48 <=? c) && (c <=? 57) then st 41 else st 0
      else if c >? 70 then if (97 <=? c) && (c <=? 102) then st 41 else st 0 else st 41)
  | _ => None
  end.
Definition uri_trans_13 (n : Z) : option (list uri_action * dest) :=
  match n with
  | 505 => Some ([MarkP], Goto 487)
  | 484 => Some ([MarkP], Goto 38)
  | _ => None
  end.
(** Lines 1872 to 2020. *)
Definition uri_cases_14 (cs c : Z) : option label :=
  match cs with
  | 41 => Some (
      if c =? 58 then st 43 else if c <? 65 then if (48 <=? c) && (c <=? 57) then st 42 else st 0
      else if c >? 70 then if (97 <=? c) && (c <=? 102) then st 42 else st 0 else st 42)
  | 42 => Some (if c =? 58 then st 43 else st 0)
  | 43 => Some (
      if c =? 58 then st 141 else if c <? 65 then if (48 <=? c) && (c <=? 57) then st 44 else st 0
      else if c >? 70 then if (97 <=? c) && (c <=? 102) then st 44 else st 0 else st 44)
  | 44 => Some (
      if c =? 58 then st 48 else if c <? 65 then if (48 <=? c) && (c <=? 57) then st 45 else st 0
      else if c >? 70 then if (97 <=? c) && (c <=? 102) then st 45 else st 0 else st 45)
  | 45 => Some (
      if c =? 58 then st 48 else if c <? 65 then if (48 <=? c) && (c <=? 57) then st 46 else st 0
      else if c >? 70 then if (97 <=? c) && (c <=? 102) then st 46 else st 0 else st 46)
  | 46 => Some (
      if c =? 58 then st 48 else if c <? 65 then if (48 <=? c) && (c <=? 57) then st 47 else st 0
      else if c >? 70 then if (97 <=? c) && (c <=? 102) then st 47 else st 0 else st 47)
  | 47 => Some (if c =? 58 then st 48 else st 0)
  | 48 => Some (
      if c =? 58 then st 136 else if c <? 65 then if (48 <=? c) && (c <=? 57) then st 49 else st 0
      else if c >? 70 then if (97 <=? c) && (c <=? 102) then st 49 else st 0 else st 49)
  | 49 => Some (
      if c =? 58 then st 53 else if c <? 65 then if (48 <=? c) && (c <=? 57) then st 50 else st 0
      else if c >? 70 then if (97 <=? c) && (c <=? 102) then st 50 else st 0 else st 50)
  | 50 => Some (
      if c =? 58 then st 53 else if c <? 65 then if (48 <=? c) && (c <=? 57) then st 51 else st 0
      else if c >? 70 then if (97 <=? c) && (c <=? 102) then st 51 else st 0 else st 51)
  | 51 => Some (
      if c =? 58 then st 53 else if c <? 65 then if (48 <=? c) && (c <=? 57) then st 52 else st 0
      else if c >? 70 then if (97 <=? c) && (c <=? 102) then st 52 else st 0 else st 52)
  | _ => None
  end.
(** Lines 2021 to 2161. *)
Definition uri_cases_15 (cs c : Z) : option label :=
  match cs with
  | 52 => Some (if c =? 58 then st 53 else st 0)
  | 53 => Some (
      if c =? 58 then st 131 else if c <? 65 then if (48 <=? c) && (c <=? 57) then st 54 else st 0
      else if c >? 70 then if (97 <=? c) && (c <=? 102) then st 54 else st 0 else st 54)
  | 54 => Some (
      if c =? 58 then st 58 else if c <? 65 then if (48 <=? c) && (c <=? 57) then st 55 else st 0
      else if c >? 70 then if (97 <=? c) && (c <=? 102) then st 55 else st 0 else st 55)
  | 55 => Some (
      if c =? 58 then st 58 else if c <? 65 then if (48 <=? c) && (c <=? 57) then st 56 else st 0
      else if c >? 70 then if (97 <=? c) && (c <=? 102) then st 56 else st 0 else st 56)
  | 56 => Some (
      if c =? 58 then st 58 else if c <? 65 then if (48 <=? c) && (c <=? 57) then st 57 else st 0
      else if c >? 70 then if (97 <=? c) && (c <=? 102) then st 57 else st 0 else st 57)
  | 57 => Some (if c =? 58 then st 58 else st 0)
  | 58 => Some (
      if c =? 58 then st 126 else if c <? 65 then if (48 <=? c) && (c <=? 57) then st 59 else st 0
      else if c >? 70 then if (97 <=? c) && (c <=? 102) then st 59 else st 0 else st 59)
  | 59 => Some (
      if c =? 58 then st 63 else if c <? 65 then if (48 <=? c) && (c <=? 57) then st 60 else st 0
      else if c >? 70 then if (97 <=? c) && (c <=? 102) then st 60 else st 0 else st 60)
  | 60 => Some (
      if c =? 58 then st 63 else if c <? 65 then if (48 <=? c) && (c <=? 57) then st 61 else st 0
      else if c >? 70 then if (97 <=? c) && (c <=? 102) then st 61 else st 0 else st 61)
  | 61 => Some (
      if c =? 58 then st 63 else if c <? 65 then if (48 <=? c) && (c <=? 57) then st 62 else st 0
      else if c >? 70 then if (97 <=? c) && (c <=? 102) then st 62 else st 0 else st 62)
  | 62 => Some (if c =? 58 then st 63 else st 0)
  | _ => None
  end.
(** Lines 2162 to 2303. *)
Definition uri_cases_16 (cs c : Z) : option label :=
  match cs with
  | 63 => Some (
      if c =? 58 then st 113 else if c <? 65 then if (48 <=? c) && (c <=? 57) then st 64 else st 0
      else if c >? 70 then if (97 <=? c) && (c <=? 102) then st 64 else st 0 else st 64)
  | 64 => Some (
      if c =? 58 then st 68 else if c <? 65 then if (48 <=? c) && (c <=? 57) then st 65 else st 0
      else if c >? 70 then if (97 <=? c) && (c <=? 102) then st 65 else st 0 else st 65)
  | 65 => Some (
      if c =? 58 then st 68 else if c <? 65 then if (48 <=? c) && (c <=? 57) then st 66 else st 0
      else if c >? 70 then if (97 <=? c) && (c <=? 102) then st 66 else st 0 else st 66)
  | 66 => Some (
      if c =? 58 then st 68 else if c <? 65 then if (48 <=? c) && (c <=? 57) then st 67 else st 0
      else if c >? 70 then if (97 <=? c) && (c <=? 102) then st 67 else st 0 else st 67)
  | 67 => Some (if c =? 58 then st 68 else st 0)
  | 68 => Some (
      switch c [(2, st 69); (48, st 96); (49, st 104); (50, st 107); (58, st 111)]
      (if c <? 65 then if (51 <=? c) && (c <=? 57) then st 110 else st 0
      else if c >? 70 then if (97 <=? c) && (c <=? 102) then st 112 else st 0 else st 112))
  | 69 => Some (if (48 <=? c) && (c <=? 52) then st 70 else st 0)
  | 70 => Some (if (48 <=? c) && (c <=? 57) then st 71 else st 0)
  | 71 => Some (if c =? 46 then st 72 else st 0)
  | 72 => Some (
      switch c [(2, st 73); (48, st 75); (49, st 92); (50, st 94)] (if (51 <=? c) && (c <=? 57) then st 93 else st 0))
  | 73 => Some (if (48 <=? c) && (c <=? 52) then st 74 else st 0)
  | 74 => Some (if (48 <=? c) && (c <=? 57) then st 75 else st 0)
  | 75 => Some (if c =? 46 then st 76 else st 0)
  | _ => None
  end.
(** Lines 2304 to 2453. *)
Definition uri_cases_17 (cs c : Z) : option label :=
  match cs with
  | 76 => Some (
      switch c [(2, st 77); (48, st 79); (49, st 88); (50, st 90)] (if (51 <=? c) && (c <=? 57) then st 89 else st 0))
  | 77 => Some (if (48 <=? c) && (c <=? 52) then st 78 else st 0)
  | 78 => Some (if (48 <=? c) && (c <=? 57) then st 79 else st 0)
  | 79 => Some (if c =? 46 then st 80 else st 0)
  | 80 => Some (
      switch c [(2, st 81); (48, st 83); (49, st 84); (50, st 86)] (if (51 <=? c) && (c <=? 57) then st 85 else st 0))
  | 81 => Some (if (48 <=? c) && (c <=? 52) then st 82 else st 0)
  | 82 => Some (if (48 <=? c) && (c <=? 57) then st 83 else st 0)
  | 83 => Some (if c =? 93 then st 460 else st 0)
  | 84 => Some (if c =? 93 then st 460 else if (48 <=? c) && (c <=? 57) then st 85 else st 0)
  | 85 => Some (if c =? 93 then st 460 else if (48 <=? c) && (c <=? 57) then st 83 else st 0)
  | 86 => Some (switch c [(53, st 87); (93, st 460)] (if (48 <=? c) && (c <=? 57) then st 83 else st 0))
  | 87 => Some (if c =? 93 then st 460 else if (48 <=? c) && (c <=? 53) then st 83 else st 0)
  | 88 => Some (if c =? 46 then st 80 else if (48 <=? c) && (c <=? 57) then st 89 else st 0)
  | 89 => Some (if c =? 46 then st 80 else if (48 <=? c) && (c <=? 57) then st 79 else st 0)
  | 90 => Some (switch c [(46, st 80); (53, st 91)] (if (48 <=? c) && (c <=? 57) then st 79 else st 0))
  | 91 => Some (if c =? 46 then st 80 else if (48 <=? c) && (c <=? 53) then st 79 else st 0)
  | 92 => Some (if c =? 46 then st 76 else if (48 <=? c) && (c <=? 57) then st 93 else st 0)
  | _ => None
  end.
(** Lines 2454 to 2599. *)
Definition uri_cases_18 (cs c : Z) : option label :=
  match cs with
  | 93 => Some (if c =? 46 then st 76 else if (48 <=? c) && (c <=? 57) then st 75 else st 0)
  | 94 => Some (switch c [(46, st 76); (53, st 95)] (if (48 <=? c) && (c <=? 57) then st 75 else st 0))
  | 95 => Some (if c =? 46 then st 76 else if (48 <=? c) && (c <=? 53) then st 75 else st 0)
  | 96 => Some (
      switch c [(46, st 72); (58, st 100)] (if c <? 65 then if (48 <=? c) && (c <=? 57) then st 97 else st 0
      else if c >? 70 then if (97 <=? c) && (c <=? 102) then st 97 else st 0 else st 97))
  | 97 => Some (
      if c =? 58 then st 100 else if c <? 65 then if (48 <=? c) && (c <=? 57) then st 98 else st 0
      else if c >? 70 then if (97 <=? c) && (c <=? 102) then st 98 else st 0 else st 98)
  | 98 => Some (
      if c =? 58 then st 100 else if c <? 65 then if (48 <=? c) && (c <=? 57) then st 99 else st 0
      else if c >? 70 then if (97 <=? c) && (c <=? 102) then st 99 else st 0 else st 99)
  | 99 => Some (if c =? 58 then st 100 else st 0)
  | 100 => Some (
      if c =? 58 then st 83 else if c <? 65 then if (48 <=? c) && (c <=? 57) then st 101 else st 0
      else if c >? 70 then if (97 <=? c) && (c <=? 102) then st 101 else st 0 else st 101)
  | 101 => Some (
      if c =? 93 then st 460 else if c <? 65 then if (48 <=? c) && (c <=? 57) then st 102 else st 0
      else if c >? 70 then if (97 <=? c) && (c <=? 102) then st 102 else st 0 else st 102)
  | 102 => Some (
      if c =? 93 then st 460 else if c <? 65 then if (48 <=? c) && (c <=? 57) then st 103 else st 0
      else if c >? 70 then if (97 <=? c) && (c <=? 102) then st 103 else st 0 else st 103)
  | 103 => Some (
      if c =? 93 then st 460 else if c <? 65 then if (48 <=? c) && (c <=? 57) then st 83 else st 0
      else if c >? 70 then if (97 <=? c) && (c <=? 102) then st 83 else st 0 else st 83)
  | _ => None
  end.
(** Lines 2600 to 2747. *)
Definition uri_cases_19 (cs c : Z) : option label :=
  match cs with
  | 104 => Some (
      switch c [(46, st 72); (58, st 100)] (if c <? 65 then if (48 <=? c) && (c <=? 57) then st 105 else st 0
      else if c >? 70 then if (97 <=? c) && (c <=? 102) then st 97 else st 0 else st 97))
  | 105 => Some (
      switch c [(46, st 72); (58, st 100)] (if c <? 65 then if (48 <=? c) && (c <=? 57) then st 106 else st 0
      else if c >? 70 then if (97 <=? c) && (c <=? 102) then st 98 else st 0 else st 98))
  | 106 => Some (
      switch c [(46, st 72); (58, st 100)] (if c <? 65 then if (48 <=? c) && (c <=? 57) then st 99 else st 0
      else if c >? 70 then if (97 <=? c) && (c <=? 102) then st 99 else st 0 else st 99))
  | 107 => Some (
      switch c [(46, st 72); (53, st 109); (58, st 100)] (if c <? 65 then if (48 <=? c) && (c <=? 57) then st 108 else st 0
      else if c >? 70 then if (97 <=? c) && (c <=? 102) then st 97 else st 0 else st 97))
  | 108 => Some (
      switch c [(46, st 72); (58, st 100)] (if c <? 65 then if (48 <=? c) && (c <=? 57) then st 98 else st 0
      else if c >? 70 then if (97 <=? c) && (c <=? 102) then st 98 else st 0 else st 98))
  | 109 => Some (
      switch c [(46, st 72); (58, st 100)] (if c <? 54 then if (48 <=? c) && (c <=? 53) then st 106 else st 0
      else if c >? 57 then if c >? 70 then if (97 <=? c) && (c <=? 102) then st 98 else st 0 else if c >=? 65 then st 98
      else st 0 else st 98))
  | 110 => Some (
      switch c [(46, st 72); (58, st 100)] (if c <? 65 then if (48 <=? c) && (c <=? 57) then st 108 else st 0
      else if c >? 70 then if (97 <=? c) && (c <=? 102) then st 97 else st 0 else st 97))
  | 111 => Some (
      if c <? 65 then if (48 <=? c) && (c <=? 57) then st 101 else st 0
      else if c >? 70 then if (97 <=? c) && (c <=? 102) then st 101 else st 0 else st 101)
  | 112 => Some (
      if c =? 58 then st 100 else if c <? 65 then if (48 <=? c) && (c <=? 57) then st 97 else st 0
      else if c >? 70 then if (97 <=? c) && (c <=? 102) then st 97 else st 0 else st 97)
  | _ => None
  end.
(** Lines 2748 to 2892. *)
Definition uri_cases_20 (cs c : Z) : option label :=
  match cs with
  | 113 => Some (
      switch c [(2, st 69); (48, st 114); (49, st 118); (50, st 121)]
      (if c <? 65 then if (51 <=? c) && (c <=? 57) then st 124 else st 0
      else if c >? 70 then if (97 <=? c) && (c <=? 102) then st 125 else st 0 else st 125))
  | 114 => Some (
      switch c [(46, st 72); (58, st 111)] (if c <? 65 then if (48 <=? c) && (c <=? 57) then st 115 else st 0
      else if c >? 70 then if (97 <=? c) && (c <=? 102) then st 115 else st 0 else st 115))
  | 115 => Some (
      if c =? 58 then st 111 else if c <? 65 then if (48 <=? c) && (c <=? 57) then st 116 else st 0
      else if c >? 70 then if (97 <=? c) && (c <=? 102) then st 116 else st 0 else st 116)
  | 116 => Some (
      if c =? 58 then st 111 else if c <? 65 then if (48 <=? c) && (c <=? 57) then st 117 else st 0
      else if c >? 70 then if (97 <=? c) && (c <=? 102) then st 117 else st 0 else st 117)
  | 117 => Some (if c =? 58 then st 111 else st 0)
  | 118 => Some (
      switch c [(46, st 72); (58, st 111)] (if c <? 65 then if (48 <=? c) && (c <=? 57) then st 119 else st 0
      else if c >? 70 then if (97 <=? c) && (c <=? 102) then st 115 else st 0 else st 115))
  | 119 => Some (
      switch c [(46, st 72); (58, st 111)] (if c <? 65 then if (48 <=? c) && (c <=? 57) then st 120 else st 0
      else if c >? 70 then if (97 <=? c) && (c <=? 102) then st 116 else st 0 else st 116))
  | 120 => Some (
      switch c [(46, st 72); (58, st 111)] (if c <? 65 then if (48 <=? c) && (c <=? 57) then st 117 else st 0
      else if c >? 70 then if (97 <=? c) && (c <=? 102) then st 117 else st 0 else st 117))
  | 121 => Some (
      switch c [(46, st 72); (53, st 123); (58, st 111)] (if c <? 65 then if (48 <=? c) && (c <=? 57) then st 122 else st 0
      else if c >? 70 then if (97 <=? c) && (c <=? 102) then st 115 else st 0 else st 115))
  | _ => None
  end.
(** Lines 2893 to 3039. *)
Definition uri_cases_21 (cs c : Z) : option label :=
  match cs with
  | 122 => Some (
      switch c [(46, st 72); (58, st 111)] (if c <? 65 then if (48 <=? c) && (c <=? 57) then st 116 else st 0
      else if c >? 70 then if (97 <=? c) && (c <=? 102) then st 116 else st 0 else st 116))
  | 123 => Some (
      switch c [(46, st 72); (58, st 111)] (if c <? 54 then if (48 <=? c) && (c <=? 53) then st 120 else st 0
      else if c >? 57 then if c >? 70 then if (97 <=? c) && (c <=? 102) then st 116 else st 0 else if c >=? 65 then st 116
      else st 0 else st 116))
  | 124 => Some (
      switch c [(46, st 72); (58, st 111)] (if c <? 65 then if (48 <=? c) && (c <=? 57) then st 122 else st 0
      else if c >? 70 then if (97 <=? c) && (c <=? 102) then st 115 else st 0 else st 115))
  | 125 => Some (
      if c =? 58 then st 111 else if c <? 65 then if (48 <=? c) && (c <=? 57) then st 115 else st 0
      else if c >? 70 then if (97 <=? c) && (c <=? 102) then st 115 else st 0 else st 115)
  | 126 => Some (
      if c <? 65 then if (48 <=? c) && (c <=? 57) then st 127 else st 0
      else if c >? 70 then if (97 <=? c) && (c <=? 102) then st 127 else st 0 else st 127)
  | 127 => Some (
      if c =? 58 then st 113 else if c <? 65 then if (48 <=? c) && (c <=? 57) then st 128 else st 0
      else if c >? 70 then if (97 <=? c) && (c <=? 102) then st 128 else st 0 else st 128)
  | 128 => Some (
      if c =? 58 then st 113 else if c <? 65 then if (48 <=? c) && (c <=? 57) then st 129 else st 0
      else if c >? 70 then if (97 <=? c) && (c <=? 102) then st 129 else st 0 else st 129)
  | 129 => Some (
      if c =? 58 then st 113 else if c <? 65 then if (48 <=? c) && (c <=? 57) then st 130 else st 0
      else if c >? 70 then if (97 <=? c) && (c <=? 102) then st 130 else st 0 else st 130)
  | 130 => Some (if c =? 58 then st 113 else st 0)
  | 131 => Some (
      if c <? 65 then if (48 <=? c) && (c <=? 57) then st 132 else st 0
      else if c >? 70 then if (97 <=? c) && (c <=? 102) then st 132 else st 0 else st 132)
  | _ => None
  end.
(** Lines 3040 to 3184. *)
Definition uri_cases_22 (cs c : Z) : option label :=
  match cs with
  | 132 => Some (
      if c =? 58 then st 126 else if c <? 65 then if (48 <=? c) && (c <=? 57) then st 133 else st 0
      else if c >? 70 then if (97 <=? c) && (c <=? 102) then st 133 else st 0 else st 133)
  | 133 => Some (
      if c =? 58 then st 126 else if c <? 65 then if (48 <=? c) && (c <=? 57) then st 134 else st 0
      else if c >? 70 then if (97 <=? c) && (c <=? 102) then st 134 else st 0 else st 134)
  | 134 => Some (
      if c =? 58 then st 126 else if c <? 65 then if (48 <=? c) && (c <=? 57) then st 135 else st 0
      else if c >? 70 then if (97 <=? c) && (c <=? 102) then st 135 else st 0 else st 135)
  | 135 => Some (if c =? 58 then st 126 else st 0)
  | 136 => Some (
      if c <? 65 then if (48 <=? c) && (c <=? 57) then st 137 else st 0
      else if c >? 70 then if (97 <=? c) && (c <=? 102) then st 137 else st 0 else st 137)
  | 137 => Some (
      if c =? 58 then st 131 else if c <? 65 then if (48 <=? c) && (c <=? 57) then st 138 else st 0
      else if c >? 70 then if (97 <=? c) && (c <=? 102) then st 138 else st 0 else st 138)
  | 138 => Some (
      if c =? 58 then st 131 else if c <? 65 then if (48 <=? c) && (c <=? 57) then st 139 else st 0
      else if c >? 70 then if (97 <=? c) && (c <=? 102) then st 139 else st 0 else st 139)
  | 139 => Some (
      if c =? 58 then st 131 else if c <? 65 then if (48 <=? c) && (c <=? 57) then st 140 else st 0
      else if c >? 70 then if (97 <=? c) && (c <=? 102) then st 140 else st 0 else st 140)
  | 140 => Some (if c =? 58 then st 131 else st 0)
  | 141 => Some (
      if c <? 65 then if (48 <=? c) && (c <=? 57) then st 142 else st 0
      else if c >? 70 then if (97 <=? c) && (c <=? 102) then st 142 else st 0 else st 142)
  | 142 => Some (
      if c =? 58 then st 136 else if c <? 65 then if (48 <=? c) && (c <=? 57) then st 143 else st 0
      else if c >? 70 then if (97 <=? c) && (c <=? 102) then st 143 else st 0 else st 143)
  | _ => None
  end.
(** Lines 3185 to 3328. *)
Definition uri_cases_23 (cs c : Z) : option label :=
  match cs with
  | 143 => Some (
      if c =? 58 then st 136 else if c <? 65 then if (48 <=? c) && (c <=? 57) then st 144 else st 0
      else if c >? 70 then if (97 <=? c) && (c <=? 102) then st 144 else st 0 else st 144)
  | 144 => Some (
      if c =? 58 then st 136 else if c <? 65 then if (48 <=? c) && (c <=? 57) then st 145 else st 0
      else if c >? 70 then if (97 <=? c) && (c <=? 102) then st 145 else st 0 else st 145)
  | 145 => Some (if c =? 58 then st 136 else st 0)
  | 146 => Some (if c =? 58 then st 147 else st 0)
  | 147 => Some (
      switch c [(2, st 69); (48, st 148); (49, st 217); (50, st 220); (93, st 460)]
      (if c <? 65 then if (51 <=? c) && (c <=? 57) then st 223 else st 0
      else if c >? 70 then if (97 <=? c) && (c <=? 102) then st 224 else st 0 else st 224))
  | 148 => Some (
      switch c [(46, st 72); (58, st 152); (93, st 460)] (if c <? 65 then if (48 <=? c) && (c <=? 57) then st 149 else st 0
      else if c >? 70 then if (97 <=? c) && (c <=? 102) then st 149 else st 0 else st 149))
  | 149 => Some (
      switch c [(58, st 152); (93, st 460)] (if c <? 65 then if (48 <=? c) && (c <=? 57) then st 150 else st 0
      else if c >? 70 then if (97 <=? c) && (c <=? 102) then st 150 else st 0 else st 150))
  | 150 => Some (
      switch c [(58, st 152); (93, st 460)] (if c <? 65 then if (48 <=? c) && (c <=? 57) then st 151 else st 0
      else if c >? 70 then if (97 <=? c) && (c <=? 102) then st 151 else st 0 else st 151))
  | 151 => Some (switch c [(58, st 152); (93, st 460)] (st 0))
  | 152 => Some (
      switch c [(2, st 69); (48, st 153); (49, st 209); (50, st 212)]
      (if c <? 65 then if (51 <=? c) && (c <=? 57) then st 215 else st 0
      else if c >? 70 then if (97 <=? c) && (c <=? 102) then st 216 else st 0 else st 216))
  | _ => None
  end.
(** Lines 3329 to 3469. *)
Definition uri_cases_24 (cs c : Z) : option label :=
  match cs with
  | 153 => Some (
      switch c [(46, st 72); (58, st 157); (93, st 460)] (if c <? 65 then if (48 <=? c) && (c <=? 57) then st 154 else st 0
      else if c >? 70 then if (97 <=? c) && (c <=? 102) then st 154 else st 0 else st 154))
  | 154 => Some (
      switch c [(58, st 157); (93, st 460)] (if c <? 65 then if (48 <=? c) && (c <=? 57) then st 155 else st 0
      else if c >? 70 then if (97 <=? c) && (c <=? 102) then st 155 else st 0 else st 155))
  | 155 => Some (
      switch c [(58, st 157); (93, st 460)] (if c <? 65 then if (48 <=? c) && (c <=? 57) then st 156 else st 0
      else if c >? 70 then if (97 <=? c) && (c <=? 102) then st 156 else st 0 else st 156))
  | 156 => Some (switch c [(58, st 157); (93, st 460)] (st 0))
  | 157 => Some (
      switch c [(2, st 69); (48, st 158); (49, st 201); (50, st 204)]
      (if c <? 65 then if (51 <=? c) && (c <=? 57) then st 207 else st 0
      else if c >? 70 then if (97 <=? c) && (c <=? 102) then st 208 else st 0 else st 208))
  | 158 => Some (
      switch c [(46, st 72); (58, st 162); (93, st 460)] (if c <? 65 then if (48 <=? c) && (c <=? 57) then st 159 else st 0
      else if c >? 70 then if (97 <=? c) && (c <=? 102) then st 159 else st 0 else st 159))
  | 159 => Some (
      switch c [(58, st 162); (93, st 460)] (if c <? 65 then if (48 <=? c) && (c <=? 57) then st 160 else st 0
      else if c >? 70 then if (97 <=? c) && (c <=? 102) then st 160 else st 0 else st 160))
  | 160 => Some (
      switch c [(58, st 162); (93, st 460)] (if c <? 65 then if (48 <=? c) && (c <=? 57) then st 161 else st 0
      else if c >? 70 then if (97 <=? c) && (c <=? 102) then st 161 else st 0 else st 161))
  | 161 => Some (switch c [(58, st 162); (93, st 460)] (st 0))
  | _ => None
  end.
(** Lines 3470 to 3617. *)
Definition uri_cases_25 (cs c : Z) : option label :=
  match cs with
  | 162 => Some (
      switch c [(2, st 69); (48, st 163); (49, st 193); (50, st 196)]
      (if c <? 65 then if (51 <=? c) && (c <=? 57) then st 199 else st 0
      else if c >? 70 then if (97 <=? c) && (c <=? 102) then st 200 else st 0 else st 200))
  | 163 => Some (
      switch c [(46, st 72); (58, st 167); (93, st 460)] (if c <? 65 then if (48 <=? c) && (c <=? 57) then st 164 else st 0
      else if c >? 70 then if (97 <=? c) && (c <=? 102) then st 164 else st 0 else st 164))
  | 164 => Some (
      switch c [(58, st 167); (93, st 460)] (if c <? 65 then if (48 <=? c) && (c <=? 57) then st 165 else st 0
      else if c >? 70 then if (97 <=? c) && (c <=? 102) then st 165 else st 0 else st 165))
  | 165 => Some (
      switch c [(58, st 167); (93, st 460)] (if c <? 65 then if (48 <=? c) && (c <=? 57) then st 166 else st 0
      else if c >? 70 then if (97 <=? c) && (c <=? 102) then st 166 else st 0 else st 166))
  | 166 => Some (switch c [(58, st 167); (93, st 460)] (st 0))
  | 167 => Some (
      switch c [(2, st 69); (48, st 168); (49, st 185); (50, st 188)]
      (if c <? 65 then if (51 <=? c) && (c <=? 57) then st 191 else st 0
      else if c >? 70 then if (97 <=? c) && (c <=? 102) then st 192 else st 0 else st 192))
  | 168 => Some (
      switch c [(46, st 72); (58, st 172); (93, st 460)] (if c <? 65 then if (48 <=? c) && (c <=? 57) then st 169 else st 0
      else if c >? 70 then if (97 <=? c) && (c <=? 102) then st 169 else st 0 else st 169))
  | 169 => Some (
      switch c [(58, st 172); (93, st 460)] (if c <? 65 then if (48 <=? c) && (c <=? 57) then st 170 else st 0
      else if c >? 70 then if (97 <=? c) && (c <=? 102) then st 170 else st 0 else st 170))
  | 170 => Some (
      switch c [(58, st 172); (93, st 460)] (if c <? 65 then if (48 <=? c) && (c <=? 57) then st 171 else st 0
      else if c >? 70 then if (97 <=? c) && (c <=? 102) then st 171 else st 0 else st 171))
  | _ => None
  end.
(** Lines 3618 to 3763. *)
Definition uri_cases_26 (cs c : Z) : option label :=
  match cs with
  | 171 => Some (switch c [(58, st 172); (93, st 460)] (st 0))
  | 172 => Some (
      switch c [(2, st 69); (48, st 173); (49, st 177); (50, st 180)]
      (if c <? 65 then if (51 <=? c) && (c <=? 57) then st 183 else st 0
      else if c >? 70 then if (97 <=? c) && (c <=? 102) then st 184 else st 0 else st 184))
  | 173 => Some (
      switch c [(46, st 72); (58, st 111); (93, st 460)] (if c <? 65 then if (48 <=? c) && (c <=? 57) then st 174 else st 0
      else if c >? 70 then if (97 <=? c) && (c <=? 102) then st 174 else st 0 else st 174))
  | 174 => Some (
      switch c [(58, st 111); (93, st 460)] (if c <? 65 then if (48 <=? c) && (c <=? 57) then st 175 else st 0
      else if c >? 70 then if (97 <=? c) && (c <=? 102) then st 175 else st 0 else st 175))
  | 175 => Some (
      switch c [(58, st 111); (93, st 460)] (if c <? 65 then if (48 <=? c) && (c <=? 57) then st 176 else st 0
      else if c >? 70 then if (97 <=? c) && (c <=? 102) then st 176 else st 0 else st 176))
  | 176 => Some (switch c [(58, st 111); (93, st 460)] (st 0))
  | 177 => Some (
      switch c [(46, st 72); (58, st 111); (93, st 460)] (if c <? 65 then if (48 <=? c) && (c <=? 57) then st 178 else st 0
      else if c >? 70 then if (97 <=? c) && (c <=? 102) then st 174 else st 0 else st 174))
  | 178 => Some (
      switch c [(46, st 72); (58, st 111); (93, st 460)] (if c <? 65 then if (48 <=? c) && (c <=? 57) then st 179 else st 0
      else if c >? 70 then if (97 <=? c) && (c <=? 102) then st 175 else st 0 else st 175))
  | 179 => Some (
      switch c [(46, st 72); (58, st 111); (93, st 460)] (if c <? 65 then if (48 <=? c) && (c <=? 57) then st 176 else st 0
      else if c >? 70 then if (97 <=? c) && (c <=? 102) then st 176 else st 0 else st 176))
  | _ => None
  end.
(** Lines 3764 to 3910. *)
Definition uri_cases_27 (cs c : Z) : option label :=
  match cs with
  | 180 => Some (
      switch c [(46, st 72); (53, st 182); (58, st 111); (93, st 460)]
      (if c <? 65 then if (48 <=? c) && (c <=? 57) then st 181 else st 0
      else if c >? 70 then if (97 <=? c) && (c <=? 102) then st 174 else st 0 else st 174))
  | 181 => Some (
      switch c [(46, st 72); (58, st 111); (93, st 460)] (if c <? 65 then if (48 <=? c) && (c <=? 57) then st 175 else st 0
      else if c >? 70 then if (97 <=? c) && (c <=? 102) then st 175 else st 0 else st 175))
  | 182 => Some (
      switch c [(46, st 72); (58, st 111); (93, st 460)] (if c <? 54 then if (48 <=? c) && (c <=? 53) then st 179 else st 0
      else if c >? 57 then if c >? 70 then if (97 <=? c) && (c <=? 102) then st 175 else st 0 else if c >=? 65 then st 175
      else st 0 else st 175))
  | 183 => Some (
      switch c [(46, st 72); (58, st 111); (93, st 460)] (if c <? 65 then if (48 <=? c) && (c <=? 57) then st 181 else st 0
      else if c >? 70 then if (97 <=? c) && (c <=? 102) then st 174 else st 0 else st 174))
  | 184 => Some (
      switch c [(58, st 111); (93, st 460)] (if c <? 65 then if (48 <=? c) && (c <=? 57) then st 174 else st 0
      else if c >? 70 then if (97 <=? c) && (c <=? 102) then st 174 else st 0 else st 174))
  | 185 => Some (
      switch c [(46, st 72); (58, st 172); (93, st 460)] (if c <? 65 then if (48 <=? c) && (c <=? 57) then st 186 else st 0
      else if c >? 70 then if (97 <=? c) && (c <=? 102) then st 169 else st 0 else st 169))
  | 186 => Some (
      switch c [(46, st 72); (58, st 172); (93, st 460)] (if c <? 65 then if (48 <=? c) && (c <=? 57) then st 187 else st 0
      else if c >? 70 then if (97 <=? c) && (c <=? 102) then st 170 else st 0 else st 170))
  | 187 => Some (
      switch c [(46, st 72); (58, st 172); (93, st 460)] (if c <? 65 then if (48 <=? c) && (c <=? 57) then st 171 else st 0
      else if c >? 70 then if (97 <=? c) && (c <=? 102) then st 171 else st 0 else st 171))
  | _ => None
  end.
(** Lines 3911 to 4057. *)
Definition uri_cases_28 (cs c : Z) : option label :=
  match cs with
  | 188 => Some (
      switch c [(46, st 72); (53, st 190); (58, st 172); (93, st 460)]
      (if c <? 65 then if (48 <=? c) && (c <=? 57) then st 189 else st 0
      else if c >? 70 then if (97 <=? c) && (c <=? 102) then st 169 else st 0 else st 169))
  | 189 => Some (
      switch c [(46, st 72); (58, st 172); (93, st 460)] (if c <? 65 then if (48 <=? c) && (c <=? 57) then st 170 else st 0
      else if c >? 70 then if (97 <=? c) && (c <=? 102) then st 170 else st 0 else st 170))
  | 190 => Some (
      switch c [(46, st 72); (58, st 172); (93, st 460)] (if c <? 54 then if (48 <=? c) && (c <=? 53) then st 187 else st 0
      else if c >? 57 then if c >? 70 then if (97 <=? c) && (c <=? 102) then st 170 else st 0 else if c >=? 65 then st 170
      else st 0 else st 170))
  | 191 => Some (
      switch c [(46, st 72); (58, st 172); (93, st 460)] (if c <? 65 then if (48 <=? c) && (c <=? 57) then st 189 else st 0
      else if c >? 70 then if (97 <=? c) && (c <=? 102) then st 169 else st 0 else st 169))
  | 192 => Some (
      switch c [(58, st 172); (93, st 460)] (if c <? 65 then if (48 <=? c) && (c <=? 57) then st 169 else st 0
      else if c >? 70 then if (97 <=? c) && (c <=? 102) then st 169 else st 0 else st 169))
  | 193 => Some (
      switch c [(46, st 72); (58, st 167); (93, st 460)] (if c <? 65 then if (48 <=? c) && (c <=? 57) then st 194 else st 0
      else if c >? 70 then if (97 <=? c) && (c <=? 102) then st 164 else st 0 else st 164))
  | 194 => Some (
      switch c [(46, st 72); (58, st 167); (93, st 460)] (if c <? 65 then if (48 <=? c) && (c <=? 57) then st 195 else st 0
      else if c >? 70 then if (97 <=? c) && (c <=? 102) then st 165 else st 0 else st 165))
  | 195 => Some (
      switch c [(46, st 72); (58, st 167); (93, st 460)] (if c <? 65 then if (48 <=? c) && (c <=? 57) then st 166 else st 0
      else if c >? 70 then if (97 <=? c) && (c <=? 102) then st 166 else st 0 else st 166))
  | _ => None
  end.
(** Lines 4058 to 4204. *)
Definition uri_cases_29 (cs c : Z) : option label :=
  match cs with
  | 196 => Some (
      switch c [(46, st 72); (53, st 198); (58, st 167); (93, st 460)]
      (if c <? 65 then if (48 <=? c) && (c <=? 57) then st 197 else st 0
      else if c >? 70 then if (97 <=? c) && (c <=? 102) then st 164 else st 0 else st 164))
  | 197 => Some (
      switch c [(46, st 72); (58, st 167); (93, st 460)] (if c <? 65 then if (48 <=? c) && (c <=? 57) then st 165 else st 0
      else if c >? 70 then if (97 <=? c) && (c <=? 102) then st 165 else st 0 else st 165))
  | 198 => Some (
      switch c [(46, st 72); (58, st 167); (93, st 460)] (if c <? 54 then if (48 <=? c) && (c <=? 53) then st 195 else st 0
      else if c >? 57 then if c >? 70 then if (97 <=? c) && (c <=? 102) then st 165 else st 0 else if c >=? 65 then st 165
      else st 0 else st 165))
  | 199 => Some (
      switch c [(46, st 72); (58, st 167); (93, st 460)] (if c <? 65 then if (48 <=? c) && (c <=? 57) then st 197 else st 0
      else if c >? 70 then if (97 <=? c) && (c <=? 102) then st 164 else st 0 else st 164))
  | 200 => Some (
      switch c [(58, st 167); (93, st 460)] (if c <? 65 then if (48 <=? c) && (c <=? 57) then st 164 else st 0
      else if c >? 70 then if (97 <=? c) && (c <=? 102) then st 164 else st 0 else st 164))
  | 201 => Some (
      switch c [(46, st 72); (58, st 162); (93, st 460)] (if c <? 65 then if (48 <=? c) && (c <=? 57) then st 202 else st 0
      else if c >? 70 then if (97 <=? c) && (c <=? 102) then st 159 else st 0 else st 159))
  | 202 => Some (
      switch c [(46, st 72); (58, st 162); (93, st 460)] (if c <? 65 then if (48 <=? c) && (c <=? 57) then st 203 else st 0
      else if c >? 70 then if (97 <=? c) && (c <=? 102) then st 160 else st 0 else st 160))
  | 203 => Some (
      switch c [(46, st 72); (58, st 162); (93, st 460)] (if c <? 65 then if (48 <=? c) && (c <=? 57) then st 161 else st 0
      else if c >? 70 then if (97 <=? c) && (c <=? 102) then st 161 else st 0 else st 161))
  | _ => None
  end.
(** Lines 4205 to 4351. *)
Definition uri_cases_30 (cs c : Z) : option label :=
  match cs with
  | 204 => Some (
      switch c [(46, st 72); (53, st 206); (58, st 162); (93, st 460)]
      (if c <? 65 then if (48 <=? c) && (c <=? 57) then st 205 else st 0
      else if c >? 70 then if (97 <=? c) && (c <=? 102) then st 159 else st 0 else st 159))
  | 205 => Some (
      switch c [(46, st 72); (58, st 162); (93, st 460)] (if c <? 65 then if (48 <=? c) && (c <=? 57) then st 160 else st 0
      else if c >? 70 then if (97 <=? c) && (c <=? 102) then st 160 else st 0 else st 160))
  | 206 => Some (
      switch c [(46, st 72); (58, st 162); (93, st 460)] (if c <? 54 then if (48 <=? c) && (c <=? 53) then st 203 else st 0
      else if c >? 57 then if c >? 70 then if (97 <=? c) && (c <=? 102) then st 160 else st 0 else if c >=? 65 then st 160
      else st 0 else st 160))
  | 207 => Some (
      switch c [(46, st 72); (58, st 162); (93, st 460)] (if c <? 65 then if (48 <=? c) && (c <=? 57) then st 205 else st 0
      else if c >? 70 then if (97 <=? c) && (c <=? 102) then st 159 else st 0 else st 159))
  | 208 => Some (
      switch c [(58, st 162); (93, st 460)] (if c <? 65 then if (48 <=? c) && (c <=? 57) then st 159 else st 0
      else if c >? 70 then if (97 <=? c) && (c <=? 102) then st 159 else st 0 else st 159))
  | 209 => Some (
      switch c [(46, st 72); (58, st 157); (93, st 460)] (if c <? 65 then if (48 <=? c) && (c <=? 57) then st 210 else st 0
      else if c >? 70 then if (97 <=? c) && (c <=? 102) then st 154 else st 0 else st 154))
  | 210 => Some (
      switch c [(46, st 72); (58, st 157); (93, st 460)] (if c <? 65 then if (48 <=? c) && (c <=? 57) then st 211 else st 0
      else if c >? 70 then if (97 <=? c) && (c <=? 102) then st 155 else st 0 else st 155))
  | 211 => Some (
      switch c [(46, st 72); (58, st 157); (93, st 460)] (if c <? 65 then if (48 <=? c) && (c <=? 57) then st 156 else st 0
      else if c >? 70 then if (97 <=? c) && (c <=? 102) then st 156 else st 0 else st 156))
  | _ => None
  end.
(** Lines 4352 to 4498. *)
Definition uri_cases_31 (cs c : Z) : option label :=
  match cs with
  | 212 => Some (
      switch c [(46, st 72); (53, st 214); (58, st 157); (93, st 460)]
      (if c <? 65 then if (48 <=? c) && (c <=? 57) then st 213 else st 0
      else if c >? 70 then if (97 <=? c) && (c <=? 102) then st 154 else st 0 else st 154))
  | 213 => Some (
      switch c [(46, st 72); (58, st 157); (93, st 460)] (if c <? 65 then if (48 <=? c) && (c <=? 57) then st 155 else st 0
      else if c >? 70 then if (97 <=? c) && (c <=? 102) then st 155 else st 0 else st 155))
  | 214 => Some (
      switch c [(46, st 72); (58, st 157); (93, st 460)] (if c <? 54 then if (48 <=? c) && (c <=? 53) then st 211 else st 0
      else if c >? 57 then if c >? 70 then if (97 <=? c) && (c <=? 102) then st 155 else st 0 else if c >=? 65 then st 155
      else st 0 else st 155))
  | 215 => Some (
      switch c [(46, st 72); (58, st 157); (93, st 460)] (if c <? 65 then if (48 <=? c) && (c <=? 57) then st 213 else st 0
      else if c >? 70 then if (97 <=? c) && (c <=? 102) then st 154 else st 0 else st 154))
  | 216 => Some (
      switch c [(58, st 157); (93, st 460)] (if c <? 65 then if (48 <=? c) && (c <=? 57) then st 154 else st 0
      else if c >? 70 then if (97 <=? c) && (c <=? 102) then st 154 else st 0 else st 154))
  | 217 => Some (
      switch c [(46, st 72); (58, st 152); (93, st 460)] (if c <? 65 then if (48 <=? c) && (c <=? 57) then st 218 else st 0
      else if c >? 70 then if (97 <=? c) && (c <=? 102) then st 149 else st 0 else st 149))
  | 218 => Some (
      switch c [(46, st 72); (58, st 152); (93, st 460)] (if c <? 65 then if (48 <=? c) && (c <=? 57) then st 219 else st 0
      else if c >? 70 then if (97 <=? c) && (c <=? 102) then st 150 else st 0 else st 150))
  | 219 => Some (
      switch c [(46, st 72); (58, st 152); (93, st 460)] (if c <? 65 then if (48 <=? c) && (c <=? 57) then st 151 else st 0
      else if c >? 70 then if (97 <=? c) && (c <=? 102) then st 151 else st 0 else st 151))
  | _ => None
  end.
(** Lines 4499 to 4642. *)
Definition uri_cases_32 (cs c : Z) : option label :=
  match cs with
  | 220 => Some (
      switch c [(46, st 72); (53, st 222); (58, st 152); (93, st 460)]
      (if c <? 65 then if (48 <=? c) && (c <=? 57) then st 221 else st 0
      else if c >? 70 then if (97 <=? c) && (c <=? 102) then st 149 else st 0 else st 149))
  | 221 => Some (
      switch c [(46, st 72); (58, st 152); (93, st 460)] (if c <? 65 then if (48 <=? c) && (c <=? 57) then st 150 else st 0
      else if c >? 70 then if (97 <=? c) && (c <=? 102) then st 150 else st 0 else st 150))
  | 222 => Some (
      switch c [(46, st 72); (58, st 152); (93, st 460)] (if c <? 54 then if (48 <=? c) && (c <=? 53) then st 219 else st 0
      else if c >? 57 then if c >? 70 then if (97 <=? c) && (c <=? 102) then st 150 else st 0 else if c >=? 65 then st 150
      else st 0 else st 150))
  | 223 => Some (
      switch c [(46, st 72); (58, st 152); (93, st 460)] (if c <? 65 then if (48 <=? c) && (c <=? 57) then st 221 else st 0
      else if c >? 70 then if (97 <=? c) && (c <=? 102) then st 149 else st 0 else st 149))
  | 224 => Some (
      switch c [(58, st 152); (93, st 460)] (if c <? 65 then if (48 <=? c) && (c <=? 57) then st 149 else st 0
      else if c >? 70 then if (97 <=? c) && (c <=? 102) then st 149 else st 0 else st 149))
  | 225 => Some (
      if c <? 65 then if (48 <=? c) && (c <=? 57) then st 226 else st 0
      else if c >? 70 then if (97 <=? c) && (c <=? 102) then st 226 else st 0 else st 226)
  | 226 => Some (
      if c =? 46 then st 227 else if c <? 65 then if (48 <=? c) && (c <=? 57) then st 226 else st 0
      else if c >? 70 then if (97 <=? c) && (c <=? 102) then st 226 else st 0 else st 226)
  | 227 => Some (
      switch c [(33, st 228); (36, st 228); (61, st 228); (95, st 228); (126, st 228)]
      (if c <? 48 then if (38 <=? c) && (c <=? 46) then st 228 else st 0
      else if c >? 59 then if c >? 90 then if (97 <=? c) && (c <=? 122) then st 228 else st 0 else if c >=? 65 then st 228
      else st 0 else st 228))
  | _ => None
  end.
(** Lines 4643 to 4791. *)
Definition uri_cases_33 (cs c : Z) : option label :=
  match cs with
  | 228 => Some (
      switch c [(33, st 228); (36, st 228); (61, st 228); (93, st 460); (95, st 228); (126, st 228)]
      (if c <? 48 then if (38 <=? c) && (c <=? 46) then st 228 else st 0
      else if c >? 59 then if c >? 90 then if (97 <=? c) && (c <=? 122) then st 228 else st 0 else if c >=? 65 then st 228
      else st 0 else st 228))
  | 489 => Some (
      switch c [(33, st 33); (35, tr 493); (37, st 34); (47, tr 494); (61, st 33); (63, tr 496); (64, tr 38); (95, st 33);
      (126, st 33)] (if c <? 58 then if c >? 46 then if (48 <=? c) && (c <=? 57) then st 489 else st 0
      else if c >=? 36 then st 33 else st 0 else if c >? 59 then if c >? 90 then if (97 <=? c) && (c <=? 122) then st 33
      else st 0 else if c >=? 65 then st 33 else st 0 else st 33))
  | 490 => Some (
      switch c [(33, st 467); (35, tr 485); (37, st 31); (46, st 491); (47, tr 486); (58, tr 499); (61, st 467);
      (63, tr 488); (64, tr 38); (95, st 467); (126, st 467)] (if c <? 65 then if (36 <=? c) && (c <=? 59) then st 467
      else st 0 else if c >? 90 then if (97 <=? c) && (c <=? 122) then st 467 else st 0 else st 467))
  | 491 => Some (
      switch c [(2, st 13); (33, st 467); (35, tr 485); (37, st 31); (47, tr 486); (48, st 492); (49, st 500); (50, st 502);
      (58, tr 499); (59, st 467); (61, st 467); (63, tr 488); (64, tr 38); (95, st 467); (126, st 467)]
      (if c <? 51 then if (36 <=? c) && (c <=? 46) then st 467 else st 0
      else if c >? 57 then if c >? 90 then if (97 <=? c) && (c <=? 122) then st 467 else st 0 else if c >=? 65 then st 467
      else st 0 else st 501))
  | 492 => Some (
      switch c [(33, st 467); (35, tr 485); (37, st 31); (46, st 493); (47, tr 486); (58, tr 499); (61, st 467);
      (63, tr 488); (64, tr 38); (95, st 467); (126, st 467)] (if c <? 65 then if (36 <=? c) && (c <=? 59) then st 467
      else st 0 else if c >? 90 then if (97 <=? c) && (c <=? 122) then st 467 else st 0 else st 467))
  | _ => None
  end.
Definition uri_trans_33 (n : Z) : option (list uri_action * dest) :=
  match n with
  | 500 => Some ([MarkP], Goto 489)
  | 477 => Some ([MarkP], Goto 490)
  | _ => None
  end.
(** Lines 4792 to 4936. *)
Definition uri_cases_34 (cs c : Z) : option label :=
  match cs with
  | 493 => Some (
      switch c [(2, st 17); (33, st 467); (35, tr 485); (37, st 31); (47, tr 486); (48, st 494); (49, st 496); (50, st 498);
      (58, tr 499); (59, st 467); (61, st 467); (63, tr 488); (64, tr 38); (95, st 467); (126, st 467)]
      (if c <? 51 then if (36 <=? c) && (c <=? 46) then st 467 else st 0
      else if c >? 57 then if c >? 90 then if (97 <=? c) && (c <=? 122) then st 467 else st 0 else if c >=? 65 then st 467
      else st 0 else st 497))
  | 494 => Some (
      switch c [(33, st 467); (35, tr 485); (37, st 31); (46, st 495); (47, tr 486); (58, tr 499); (61, st 467);
      (63, tr 488); (64, tr 38); (95, st 467); (126, st 467)] (if c <? 65 then if (36 <=? c) && (c <=? 59) then st 467
      else st 0 else if c >? 90 then if (97 <=? c) && (c <=? 122) then st 467 else st 0 else st 467))
  | 495 => Some (
      switch c [(2, st 21); (33, st 467); (35, tr 485); (37, st 31); (47, tr 486); (58, tr 499); (61, st 467); (63, tr 488);
      (64, tr 38); (95, st 467); (126, st 467)] (if c <? 65 then if (36 <=? c) && (c <=? 59) then st 467 else st 0
      else if c >? 90 then if (97 <=? c) && (c <=? 122) then st 467 else st 0 else st 467))
  | 496 => Some (
      switch c [(33, st 467); (35, tr 485); (37, st 31); (46, st 495); (47, tr 486); (58, tr 499); (59, st 467);
      (61, st 467); (63, tr 488); (64, tr 38); (95, st 467); (126, st 467)]
      (if c <? 48 then if (36 <=? c) && (c <=? 45) then st 467 else st 0
      else if c >? 57 then if c >? 90 then if (97 <=? c) && (c <=? 122) then st 467 else st 0 else if c >=? 65 then st 467
      else st 0 else st 497))
  | 497 => Some (
      switch c [(33, st 467); (35, tr 485); (37, st 31); (46, st 495); (47, tr 486); (58, tr 499); (59, st 467);
      (61, st 467); (63, tr 488); (64, tr 38); (95, st 467); (126, st 467)]
      (if c <? 48 then if (36 <=? c) && (c <=? 45) then st 467 else st 0
      else if c >? 57 then if c >? 90 then if (97 <=? c) && (c <=? 122) then st 467 else st 0 else if c >=? 65 then st 467
      else st 0 else st 494))
  | _ => None
  end.
(** Lines 4937 to 5059. *)
Definition uri_cases_35 (cs c : Z) : option label :=
  match cs with
  | 498 => Some (
      switch c [(33, st 467); (35, tr 485); (37, st 31); (46, st 495); (47, tr 486); (53, st 499); (58, tr 499);
      (59, st 467); (61, st 467); (63, tr 488); (64, tr 38); (95, st 467); (126, st 467)]
      (if c <? 48 then if (36 <=? c) && (c <=? 45) then st 467 else st 0
      else if c >? 57 then if c >? 90 then if (97 <=? c) && (c <=? 122) then st 467 else st 0 else if c >=? 65 then st 467
      else st 0 else st 494))
  | 499 => Some (
      switch c [(33, st 467); (35, tr 485); (37, st 31); (46, st 495); (47, tr 486); (58, tr 499); (61, st 467);
      (63, tr 488); (64, tr 38); (95, st 467); (126, st 467)]
      (if c <? 54 then if c >? 45 then if (48 <=? c) && (c <=? 53) then st 494 else st 0 else if c >=? 36 then st 467
      else st 0 else if c >? 59 then if c >? 90 then if (97 <=? c) && (c <=? 122) then st 467 else st 0
      else if c >=? 65 then st 467 else st 0 else st 467))
  | 500 => Some (
      switch c [(33, st 467); (35, tr 485); (37, st 31); (46, st 493); (47, tr 486); (58, tr 499); (59, st 467);
      (61, st 467); (63, tr 488); (64, tr 38); (95, st 467); (126, st 467)]
      (if c <? 48 then if (36 <=? c) && (c <=? 45) then st 467 else st 0
      else if c >? 57 then if c >? 90 then if (97 <=? c) && (c <=? 122) then st 467 else st 0 else if c >=? 65 then st 467
      else st 0 else st 501))
  | 501 => Some (
      switch c [(33, st 467); (35, tr 485); (37, st 31); (46, st 493); (47, tr 486); (58, tr 499); (59, st 467);
      (61, st 467); (63, tr 488); (64, tr 38); (95, st 467); (126, st 467)]
      (if c <? 48 then if (36 <=? c) && (c <=? 45) then st 467 else st 0
      else if c >? 57 then if c >? 90 then if (97 <=? c) && (c <=? 122) then st 467 else st 0 else if c >=? 65 then st 467
      else st 0 else st 492))
  | _ => None
  end.
(** Lines 5060 to 5196. *)
Definition uri_cases_36 (cs c : Z) : option label :=
  match cs with
  | 502 => Some (
      switch c [(33, st 467); (35, tr 485); (37, st 31); (46, st 493); (47, tr 486); (53, st 503); (58, tr 499);
      (59, st 467); (61, st 467); (63, tr 488); (64, tr 38); (95, st 467); (126, st 467)]
      (if c <? 48 then if (36 <=? c) && (c <=? 45) then st 467 else st 0
      else if c >? 57 then if c >? 90 then if (97 <=? c) && (c <=? 122) then st 467 else st 0 else if c >=? 65 then st 467
      else st 0 else st 492))
  | 503 => Some (
      switch c [(33, st 467); (35, tr 485); (37, st 31); (46, st 493); (47, tr 486); (58, tr 499); (61, st 467);
      (63, tr 488); (64, tr 38); (95, st 467); (126, st 467)]
      (if c <? 54 then if c >? 45 then if (48 <=? c) && (c <=? 53) then st 492 else st 0 else if c >=? 36 then st 467
      else st 0 else if c >? 59 then if c >? 90 then if (97 <=? c) && (c <=? 122) then st 467 else st 0
      else if c >=? 65 then st 467 else st 0 else st 467))
  | 504 => Some (
      switch c [(33, st 467); (35, tr 485); (37, st 31); (46, st 491); (47, tr 486); (58, tr 499); (59, st 467);
      (61, st 467); (63, tr 488); (64, tr 38); (95, st 467); (126, st 467)]
      (if c <? 48 then if (36 <=? c) && (c <=? 45) then st 467 else st 0
      else if c >? 57 then if c >? 90 then if (97 <=? c) && (c <=? 122) then st 467 else st 0 else if c >=? 65 then st 467
      else st 0 else st 505))
  | 505 => Some (
      switch c [(33, st 467); (35, tr 485); (37, st 31); (46, st 491); (47, tr 486); (58, tr 499); (59, st 467);
      (61, st 467); (63, tr 488); (64, tr 38); (95, st 467); (126, st 467)]
      (if c <? 48 then if (36 <=? c) && (c <=? 45) then st 467 else st 0
      else if c >? 57 then if c >? 90 then if (97 <=? c) && (c <=? 122) then st 467 else st 0 else if c >=? 65 then st 467
      else st 0 else st 490))
  | _ => None
  end.
Definition uri_trans_36 (n : Z) : option (list uri_action * dest) :=
  match n with
  | 478 => Some ([MarkP], Goto 504)
  | 480 => Some ([MarkP], Goto 505)
  | 479 => Some ([MarkP], Goto 506)
  | _ => None
  end.
(** Lines 5197 to 5332. *)
Definition uri_cases_37 (cs c : Z) : option label :=
  match cs with
  | 506 => Some (
      switch c [(33, st 467); (35, tr 485); (37, st 31); (46, st 491); (47, tr 486); (53, st 507); (58, tr 499);
      (59, st 467); (61, st 467); (63, tr 488); (64, tr 38); (95, st 467); (126, st 467)]
      (if c <? 48 then if (36 <=? c) && (c <=? 45) then st 467 else st 0
      else if c >? 57 then if c >? 90 then if (97 <=? c) && (c <=? 122) then st 467 else st 0 else if c >=? 65 then st 467
      else st 0 else st 490))
  | 507 => Some (
      switch c [(33, st 467); (35, tr 485); (37, st 31); (46, st 491); (47, tr 486); (58, tr 499); (61, st 467);
      (63, tr 488); (64, tr 38); (95, st 467); (126, st 467)]
      (if c <? 54 then if c >? 45 then if (48 <=? c) && (c <=? 53) then st 490 else st 0 else if c >=? 36 then st 467
      else st 0 else if c >? 59 then if c >? 90 then if (97 <=? c) && (c <=? 122) then st 467 else st 0
      else if c >=? 65 then st 467 else st 0 else st 467))
  | 508 => Some (
      switch c [(34, st 0); (35, st 453); (37, st 3); (43, st 508); (47, st 455); (58, tr 543); (60, st 0); (62, st 0);
      (63, st 456); (96, st 0); (127, st 0)] (if c <? 65 then if c >? 32 then if (45 <=? c) && (c <=? 57) then st 508
      else st 452 else if c >=? 0 then st 0 else st 452
      else if c >? 90 then if c <? 97 then if (91 <=? c) && (c <=? 94) then st 0 else st 452
      else if c >? 122 then if (123 <=? c) && (c <=? 125) then st 0 else st 452 else st 508 else st 508))
  | 509 => Some (
      switch c [(34, st 0); (35, st 453); (37, st 5); (47, st 510); (60, st 0); (62, st 0); (63, st 456); (96, st 0);
      (127, st 0)] (if c <? 91 then if (0 <=? c) && (c <=? 32) then st 0 else st 455
      else if c >? 94 then if (123 <=? c) && (c <=? 125) then st 0 else st 455 else st 0))
  | _ => None
  end.
Definition uri_trans_37 (n : Z) : option (list uri_action * dest) :=
  match n with
  | 461 => Some ([MarkP], Goto 508)
  | 543 => Some ([SaveScheme], Goto 509)
  | _ => None
  end.
(** Lines 5333 to 5481. *)
Definition uri_cases_38 (cs c : Z) : option label :=
  match cs with
  | 510 => Some (
      switch c [(34, st 0); (35, st 453); (37, st 5); (47, st 511); (60, st 0); (62, st 0); (63, st 456); (96, st 0);
      (127, st 0)] (if c <? 91 then if (0 <=? c) && (c <=? 32) then st 0 else st 455
      else if c >? 94 then if (123 <=? c) && (c <=? 125) then st 0 else st 455 else st 0))
  | 511 => Some (
      switch c [(2, tr 546); (33, tr 547); (35, tr 548); (37, tr 549); (47, tr 550); (48, tr 551); (49, tr 552);
      (50, tr 553); (58, tr 555); (59, tr 547); (61, tr 547); (63, tr 556); (64, tr 557); (91, tr 558); (95, tr 547);
      (126, tr 547)] (if c <? 51 then if (36 <=? c) && (c <=? 46) then tr 547 else st 0
      else if c >? 57 then if c >? 90 then if (97 <=? c) && (c <=? 122) then tr 547 else st 0 else if c >=? 65 then tr 547
      else st 0 else tr 554))
  | 229 => Some (if (48 <=? c) && (c <=? 52) then st 230 else st 0)
  | 230 => Some (if (48 <=? c) && (c <=? 57) then st 231 else st 0)
  | 231 => Some (if c =? 46 then st 232 else st 0)
  | 232 => Some (
      switch c [(2, st 233); (48, st 235); (49, st 249); (50, st 251)] (if (51 <=? c) && (c <=? 57) then st 250 else st 0))
  | 233 => Some (if (48 <=? c) && (c <=? 52) then st 234 else st 0)
  | 234 => Some (if (48 <=? c) && (c <=? 57) then st 235 else st 0)
  | 235 => Some (if c =? 46 then st 236 else st 0)
  | 236 => Some (
      switch c [(2, st 237); (48, st 239); (49, st 245); (50, st 247)] (if (51 <=? c) && (c <=? 57) then st 246 else st 0))
  | 237 => Some (if (48 <=? c) && (c <=? 52) then st 238 else st 0)
  | 238 => Some (if (48 <=? c) && (c <=? 57) then st 239 else st 0)
  | 239 => Some (if c =? 46 then st 240 else st 0)
  | _ => None
  end.
Definition uri_trans_38 (n : Z) : option (list uri_action * dest) :=
  match n with
  | 546 => Some ([MarkP], Goto 229)
  | _ => None
  end.
(** Lines 5482 to 5624. *)
Definition uri_cases_39 (cs c : Z) : option label :=
  match cs with
  | 240 => Some (
      switch c [(2, st 241); (48, st 512); (49, st 516); (50, st 518)] (if (51 <=? c) && (c <=? 57) then st 517 else st 0))
  | 241 => Some (if (48 <=? c) && (c <=? 52) then st 242 else st 0)
  | 242 => Some (if (48 <=? c) && (c <=? 57) then st 512 else st 0)
  | 512 => Some (switch c [(35, tr 559); (47, tr 560); (58, tr 561); (63, tr 562)] (st 0))
  | 513 => Some (
      switch c [(34, st 0); (35, tr 563); (37, st 243); (60, st 0); (62, st 0); (63, tr 565); (96, st 0); (127, st 0)]
      (if c <? 91 then if (0 <=? c) && (c <=? 32) then st 0 else st 513
      else if c >? 94 then if (123 <=? c) && (c <=? 125) then st 0 else st 513 else st 0))
  | 243 => Some (
      if c <? 65 then if (48 <=? c) && (c <=? 57) then st 244 else st 0
      else if c >? 70 then if (97 <=? c) && (c <=? 102) then st 244 else st 0 else st 244)
  | 244 => Some (
      if c <? 65 then if (48 <=? c) && (c <=? 57) then st 513 else st 0
      else if c >? 70 then if (97 <=? c) && (c <=? 102) then st 513 else st 0 else st 513)
  | _ => None
  end.
Definition uri_trans_39 (n : Z) : option (list uri_action * dest) :=
  match n with
  | 550 => Some ([MarkP; SaveHost], Goto 513)
  | 567 => Some ([MarkP; SavePort], Goto 513)
  | 560 => Some ([SaveHost; MarkP], Goto 513)
  | 571 => Some ([SavePort; MarkP], Goto 513)
  | 584 => Some ([MarkP; SaveHost], Goto 514)
  | _ => None
  end.
(** Lines 5625 to 5772. *)
Definition uri_cases_40 (cs c : Z) : option label :=
  match cs with
  | 514 => Some (
      switch c [(35, tr 566); (47, tr 567); (63, tr 569)] (if (48 <=? c) && (c <=? 57) then tr 568 else st 0))
  | 515 => Some (
      switch c [(35, tr 570); (47, tr 571); (63, tr 573)] (if (48 <=? c) && (c <=? 57) then st 515 else st 0))
  | 516 => Some (
      switch c [(35, tr 559); (47, tr 560); (58, tr 561); (63, tr 562)] (if (48 <=? c) && (c <=? 57) then st 517 else st 0))
  | 517 => Some (
      switch c [(35, tr 559); (47, tr 560); (58, tr 561); (63, tr 562)] (if (48 <=? c) && (c <=? 57) then st 512 else st 0))
  | 518 => Some (
      switch c [(35, tr 559); (47, tr 560); (53, st 519); (58, tr 561); (63, tr 562)]
      (if (48 <=? c) && (c <=? 57) then st 512 else st 0))
  | 519 => Some (
      switch c [(35, tr 559); (47, tr 560); (58, tr 561); (63, tr 562)] (if (48 <=? c) && (c <=? 53) then st 512 else st 0))
  | 245 => Some (if c =? 46 then st 240 else if (48 <=? c) && (c <=? 57) then st 246 else st 0)
  | 246 => Some (if c =? 46 then st 240 else if (48 <=? c) && (c <=? 57) then st 239 else st 0)
  | 247 => Some (switch c [(46, st 240); (53, st 248)] (if (48 <=? c) && (c <=? 57) then st 239 else st 0))
  | 248 => Some (if c =? 46 then st 240 else if (48 <=? c) && (c <=? 53) then st 239 else st 0)
  | 249 => Some (if c =? 46 then st 236 else if (48 <=? c) && (c <=? 57) then st 250 else st 0)
  | 250 => Some (if c =? 46 then st 236 else if (48 <=? c) && (c <=? 57) then st 235 else st 0)
  | _ => None
  end.
Definition uri_trans_40 (n : Z) : option (list uri_action * dest) :=
  match n with
  | 561 => Some ([SaveHost], Goto 514)
  | 568 => Some ([MarkP], Goto 515)
  | _ => None
  end.
(** Lines 5773 to 5907. *)
Definition uri_cases_41 (cs c : Z) : option label :=
  match cs with
  | 251 => Some (switch c [(46, st 236); (53, st 252)] (if (48 <=? c) && (c <=? 57) then st 235 else st 0))
  | 252 => Some (if c =? 46 then st 236 else if (48 <=? c) && (c <=? 53) then st 235 else st 0)
  | 520 => Some (
      switch c [(33, st 520); (35, tr 559); (37, st 253); (47, tr 560); (58, tr 576); (61, st 520); (63, tr 562);
      (64, tr 263); (95, st 520); (126, st 520)] (if c <? 65 then if (36 <=? c) && (c <=? 59) then st 520 else st 0
      else if c >? 90 then if (97 <=? c) && (c <=? 122) then st 520 else st 0 else st 520))
  | 253 => Some (
      if c <? 65 then if (48 <=? c) && (c <=? 57) then st 254 else st 0
      else if c >? 70 then if (97 <=? c) && (c <=? 102) then st 254 else st 0 else st 254)
  | 254 => Some (
      if c <? 65 then if (48 <=? c) && (c <=? 57) then st 520 else st 0
      else if c >? 70 then if (97 <=? c) && (c <=? 102) then st 520 else st 0 else st 520)
  | 521 => Some (
      switch c [(33, st 255); (35, tr 566); (37, st 256); (47, tr 567); (61, st 255); (63, tr 569); (64, tr 263);
      (95, st 255); (126, st 255)] (if c <? 58 then if c >? 46 then if (48 <=? c) && (c <=? 57) then tr 577 else st 0
      else if c >=? 36 then st 255 else st 0 else if c >? 59 then if c >? 90 then if (97 <=? c) && (c <=? 122) then st 255
      else st 0 else if c >=? 65 then st 255 else st 0 else st 255))
  | _ => None
  end.
Definition uri_trans_41 (n : Z) : option (list uri_action * dest) :=
  match n with
  | 547 => Some ([MarkP], Goto 520)
  | 549 => Some ([MarkP], Goto 253)
  | 555 => Some ([MarkP; SaveHost], Goto 521)
  | 576 => Some ([SaveHost], Goto 521)
  | _ => None
  end.
(** Lines 5908 to 6057. *)
Definition uri_cases_42 (cs c : Z) : option label :=
  match cs with
  | 255 => Some (
      switch c [(33, st 255); (37, st 256); (61, st 255); (64, tr 263); (95, st 255); (126, st 255)]
      (if c <? 48 then if (36 <=? c) && (c <=? 46) then st 255 else st 0
      else if c >? 59 then if c >? 90 then if (97 <=? c) && (c <=? 122) then st 255 else st 0 else if c >=? 65 then st 255
      else st 0 else st 255))
  | 256 => Some (
      if c <? 65 then if (48 <=? c) && (c <=? 57) then st 257 else st 0
      else if c >? 70 then if (97 <=? c) && (c <=? 102) then st 257 else st 0 else st 257)
  | 257 => Some (
      if c <? 65 then if (48 <=? c) && (c <=? 57) then st 255 else st 0
      else if c >? 70 then if (97 <=? c) && (c <=? 102) then st 255 else st 0 else st 255)
  | 522 => Some (
      switch c [(2, tr 546); (33, tr 578); (35, tr 548); (37, tr 579); (47, tr 550); (48, tr 580); (49, tr 581);
      (50, tr 582); (58, tr 584); (59, tr 578); (61, tr 578); (63, tr 556); (91, tr 558); (95, tr 578); (126, tr 578)]
      (if c <? 51 then if (36 <=? c) && (c <=? 46) then tr 578 else st 0
      else if c >? 57 then if c >? 90 then if (97 <=? c) && (c <=? 122) then tr 578 else st 0 else if c >=? 65 then tr 578
      else st 0 else tr 583))
  | 523 => Some (
      switch c [(33, st 523); (35, tr 559); (37, st 258); (47, tr 560); (58, tr 561); (61, st 523); (63, tr 562);
      (95, st 523); (126, st 523)] (if c <? 65 then if (36 <=? c) && (c <=? 59) then st 523 else st 0
      else if c >? 90 then if (97 <=? c) && (c <=? 122) then st 523 else st 0 else st 523))
  | 258 => Some (
      if c <? 65 then if (48 <=? c) && (c <=? 57) then st 259 else st 0
      else if c >? 70 then if (97 <=? c) && (c <=? 102) then st 259 else st 0 else st 259)
  | _ => None
  end.
Definition uri_trans_42 (n : Z) : option (list uri_action * dest) :=
  match n with
  | 263 => Some ([SaveUserinfo], Goto 522)
  | 557 => Some ([MarkP; SaveUserinfo], Goto 522)
  | 578 => Some ([MarkP], Goto 523)
  | 579 => Some ([MarkP], Goto 258)
  | _ => None
  end.
(** Lines 6058 to 6192. *)
Definition uri_cases_43 (cs c : Z) : option label :=
  match cs with
  | 259 => Some (
      if c <? 65 then if (48 <=? c) && (c <=? 57) then st 523 else st 0
      else if c >? 70 then if (97 <=? c) && (c <=? 102) then st 523 else st 0 else st 523)
  | 524 => Some (
      switch c [(33, st 523); (35, tr 559); (37, st 258); (46, st 525); (47, tr 560); (58, tr 561); (61, st 523);
      (63, tr 562); (95, st 523); (126, st 523)] (if c <? 65 then if (36 <=? c) && (c <=? 59) then st 523 else st 0
      else if c >? 90 then if (97 <=? c) && (c <=? 122) then st 523 else st 0 else st 523))
  | 525 => Some (
      switch c [(2, st 233); (33, st 523); (35, tr 559); (37, st 258); (47, tr 560); (48, st 526); (49, st 534);
      (50, st 536); (58, tr 561); (59, st 523); (61, st 523); (63, tr 562); (95, st 523); (126, st 523)]
      (if c <? 51 then if (36 <=? c) && (c <=? 46) then st 523 else st 0
      else if c >? 57 then if c >? 90 then if (97 <=? c) && (c <=? 122) then st 523 else st 0 else if c >=? 65 then st 523
      else st 0 else st 535))
  | 526 => Some (
      switch c [(33, st 523); (35, tr 559); (37, st 258); (46, st 527); (47, tr 560); (58, tr 561); (61, st 523);
      (63, tr 562); (95, st 523); (126, st 523)] (if c <? 65 then if (36 <=? c) && (c <=? 59) then st 523 else st 0
      else if c >? 90 then if (97 <=? c) && (c <=? 122) then st 523 else st 0 else st 523))
  | 527 => Some (
      switch c [(2, st 237); (33, st 523); (35, tr 559); (37, st 258); (47, tr 560); (48, st 528); (49, st 530);
      (50, st 532); (58, tr 561); (59, st 523); (61, st 523); (63, tr 562); (95, st 523); (126, st 523)]
      (if c <? 51 then if (36 <=? c) && (c <=? 46) then st 523 else st 0
      else if c >? 57 then if c >? 90 then if (97 <=? c) && (c <=? 122) then st 523 else st 0 else if c >=? 65 then st 523
      else st 0 else st 531))
  | _ => None
  end.
Definition uri_trans_43 (n : Z) : option (list uri_action * dest) :=
  match n with
  | 580 => Some ([MarkP], Goto 524)
  | _ => None
  end.
(** Lines 6193 to 6330. *)
Definition uri_cases_44 (cs c : Z) : option label :=
  match cs with
  | 528 => Some (
      switch c [(33, st 523); (35, tr 559); (37, st 258); (46, st 529); (47, tr 560); (58, tr 561); (61, st 523);
      (63, tr 562); (95, st 523); (126, st 523)] (if c <? 65 then if (36 <=? c) && (c <=? 59) then st 523 else st 0
      else if c >? 90 then if (97 <=? c) && (c <=? 122) then st 523 else st 0 else st 523))
  | 529 => Some (
      switch c [(2, st 241); (33, st 523); (35, tr 559); (37, st 258); (47, tr 560); (58, tr 561); (61, st 523);
      (63, tr 562); (95, st 523); (126, st 523)] (if c <? 65 then if (36 <=? c) && (c <=? 59) then st 523 else st 0
      else if c >? 90 then if (97 <=? c) && (c <=? 122) then st 523 else st 0 else st 523))
  | 530 => Some (
      switch c [(33, st 523); (35, tr 559); (37, st 258); (46, st 529); (47, tr 560); (58, tr 561); (59, st 523);
      (61, st 523); (63, tr 562); (95, st 523); (126, st 523)] (if c <? 48 then if (36 <=? c) && (c <=? 45) then st 523
      else st 0 else if c >? 57 then if c >? 90 then if (97 <=? c) && (c <=? 122) then st 523 else st 0
      else if c >=? 65 then st 523 else st 0 else st 531))
  | 531 => Some (
      switch c [(33, st 523); (35, tr 559); (37, st 258); (46, st 529); (47, tr 560); (58, tr 561); (59, st 523);
      (61, st 523); (63, tr 562); (95, st 523); (126, st 523)] (if c <? 48 then if (36 <=? c) && (c <=? 45) then st 523
      else st 0 else if c >? 57 then if c >? 90 then if (97 <=? c) && (c <=? 122) then st 523 else st 0
      else if c >=? 65 then st 523 else st 0 else st 528))
  | 532 => Some (
      switch c [(33, st 523); (35, tr 559); (37, st 258); (46, st 529); (47, tr 560); (53, st 533); (58, tr 561);
      (59, st 523); (61, st 523); (63, tr 562); (95, st 523); (126, st 523)]
      (if c <? 48 then if (36 <=? c) && (c <=? 45) then st 523 else st 0
      else if c >? 57 then if c >? 90 then if (97 <=? c) && (c <=? 122) then st 523 else st 0 else if c >=? 65 then st 523
      else st 0 else st 528))
  | _ => None
  end.
(** Lines 6331 to 6477. *)
Definition uri_cases_45 (cs c : Z) : option label :=
  match cs with
  | 533 => Some (
      switch c [(33, st 523); (35, tr 559); (37, st 258); (46, st 529); (47, tr 560); (58, tr 561); (61, st 523);
      (63, tr 562); (95, st 523); (126, st 523)] (if c <? 54 then if c >? 45 then if (48 <=? c) && (c <=? 53) then st 528
      else st 0 else if c >=? 36 then st 523 else st 0
      else if c >? 59 then if c >? 90 then if (97 <=? c) && (c <=? 122) then st 523 else st 0 else if c >=? 65 then st 523
      else st 0 else st 523))
  | 534 => Some (
      switch c [(33, st 523); (35, tr 559); (37, st 258); (46, st 527); (47, tr 560); (58, tr 561); (59, st 523);
      (61, st 523); (63, tr 562); (95, st 523); (126, st 523)] (if c <? 48 then if (36 <=? c) && (c <=? 45) then st 523
      else st 0 else if c >? 57 then if c >? 90 then if (97 <=? c) && (c <=? 122) then st 523 else st 0
      else if c >=? 65 then st 523 else st 0 else st 535))
  | 535 => Some (
      switch c [(33, st 523); (35, tr 559); (37, st 258); (46, st 527); (47, tr 560); (58, tr 561); (59, st 523);
      (61, st 523); (63, tr 562); (95, st 523); (126, st 523)] (if c <? 48 then if (36 <=? c) && (c <=? 45) then st 523
      else st 0 else if c >? 57 then if c >? 90 then if (97 <=? c) && (c <=? 122) then st 523 else st 0
      else if c >=? 65 then st 523 else st 0 else st 526))
  | 536 => Some (
      switch c [(33, st 523); (35, tr 559); (37, st 258); (46, st 527); (47, tr 560); (53, st 537); (58, tr 561);
      (59, st 523); (61, st 523); (63, tr 562); (95, st 523); (126, st 523)]
      (if c <? 48 then if (36 <=? c) && (c <=? 45) then st 523 else st 0
      else if c >? 57 then if c >? 90 then if (97 <=? c) && (c <=? 122) then st 523 else st 0 else if c >=? 65 then st 523
      else st 0 else st 526))
  | 537 => Some (
      switch c [(33, st 523); (35, tr 559); (37, st 258); (46, st 527); (47, tr 560); (58, tr 561); (61, st 523);
      (63, tr 562); (95, st 523); (126, st 523)] (if c <? 54 then if c >? 45 then if (48 <=? c) && (c <=? 53) then st 526
      else st 0 else if c >=? 36 then st 523 else st 0
      else if c >? 59 then if c >? 90 then if (97 <=? c) && (c <=? 122) then st 523 else st 0 else if c >=? 65 then st 523
      else st 0 else st 523))
  | _ => None
  end.
(** Lines 6478 to 6618. *)
Definition uri_cases_46 (cs c : Z) : option label :=
  match cs with
  | 538 => Some (
      switch c [(33, st 523); (35, tr 559); (37, st 258); (46, st 525); (47, tr 560); (58, tr 561); (59, st 523);
      (61, st 523); (63, tr 562); (95, st 523); (126, st 523)] (if c <? 48 then if (36 <=? c) && (c <=? 45) then st 523
      else st 0 else if c >? 57 then if c >? 90 then if (97 <=? c) && (c <=? 122) then st 523 else st 0
      else if c >=? 65 then st 523 else st 0 else st 539))
  | 539 => Some (
      switch c [(33, st 523); (35, tr 559); (37, st 258); (46, st 525); (47, tr 560); (58, tr 561); (59, st 523);
      (61, st 523); (63, tr 562); (95, st 523); (126, st 523)] (if c <? 48 then if (36 <=? c) && (c <=? 45) then st 523
      else st 0 else if c >? 57 then if c >? 90 then if (97 <=? c) && (c <=? 122) then st 523 else st 0
      else if c >=? 65 then st 523 else st 0 else st 524))
  | 540 => Some (
      switch c [(33, st 523); (35, tr 559); (37, st 258); (46, st 525); (47, tr 560); (53, st 541); (58, tr 561);
      (59, st 523); (61, st 523); (63, tr 562); (95, st 523); (126, st 523)]
      (if c <? 48 then if (36 <=? c) && (c <=? 45) then st 523 else st 0
      else if c >? 57 then if c >? 90 then if (97 <=? c) && (c <=? 122) then st 523 else st 0 else if c >=? 65 then st 523
      else st 0 else st 524))
  | 541 => Some (
      switch c [(33, st 523); (35, tr 559); (37, st 258); (46, st 525); (47, tr 560); (58, tr 561); (61, st 523);
      (63, tr 562); (95, st 523); (126, st 523)] (if c <? 54 then if c >? 45 then if (48 <=? c) && (c <=? 53) then st 524
      else st 0 else if c >=? 36 then st 523 else st 0
      else if c >? 59 then if c >? 90 then if (97 <=? c) && (c <=? 122) then st 523 else st 0 else if c >=? 65 then st 523
      else st 0 else st 523))
  | _ => None
  end.
Definition uri_trans_46 (n : Z) : option (list uri_action * dest) :=
  match n with
  | 581 => Some ([MarkP], Goto 538)
  | 583 => Some ([MarkP], Goto 539)
  | 582 => Some ([MarkP], Goto 540)
  | 558 => Some ([MarkP], Goto 260)
  | _ => None
  end.
(** Lines 6619 to 6767. *)
Definition uri_cases_47 (cs c : Z) : option label :=
  match cs with
  | 260 => Some (
      switch c [(58, st 368); (118, st 447)] (if c <? 65 then if (48 <=? c) && (c <=? 57) then st 261 else st 0
      else if c >? 70 then if (97 <=? c) && (c <=? 102) then st 261 else st 0 else st 261))
  | 261 => Some (
      if c =? 58 then st 265 else if c <? 65 then if (48 <=? c) && (c <=? 57) then st 262 else st 0
      else if c >? 70 then if (97 <=? c) && (c <=? 102) then st 262 else st 0 else st 262)
  | 262 => Some (
      if c =? 58 then st 265 else if c <? 65 then if (48 <=? c) && (c <=? 57) then st 263 else st 0
      else if c >? 70 then if (97 <=? c) && (c <=? 102) then st 263 else st 0 else st 263)
  | 263 => Some (
      if c =? 58 then st 265 else if c <? 65 then if (48 <=? c) && (c <=? 57) then st 264 else st 0
      else if c >? 70 then if (97 <=? c) && (c <=? 102) then st 264 else st 0 else st 264)
  | 264 => Some (if c =? 58 then st 265 else st 0)
  | 265 => Some (
      if c =? 58 then st 363 else if c <? 65 then if (48 <=? c) && (c <=? 57) then st 266 else st 0
      else if c >? 70 then if (97 <=? c) && (c <=? 102) then st 266 else st 0 else st 266)
  | 266 => Some (
      if c =? 58 then st 270 else if c <? 65 then if (48 <=? c) && (c <=? 57) then st 267 else st 0
      else if c >? 70 then if (97 <=? c) && (c <=? 102) then st 267 else st 0 else st 267)
  | 267 => Some (
      if c =? 58 then st 270 else if c <? 65 then if (48 <=? c) && (c <=? 57) then st 268 else st 0
      else if c >? 70 then if (97 <=? c) && (c <=? 102) then st 268 else st 0 else st 268)
  | 268 => Some (
      if c =? 58 then st 270 else if c <? 65 then if (48 <=? c) && (c <=? 57) then st 269 else st 0
      else if c >? 70 then if (97 <=? c) && (c <=? 102) then st 269 else st 0 else st 269)
  | 269 => Some (if c =? 58 then st 270 else st 0)
  | 270 => Some (
      if c =? 58 then st 358 else if c <? 65 then if (48 <=? c) && (c <=? 57) then st 271 else st 0
      else if c >? 70 then if (97 <=? c) && (c <=? 102) then st 271 else st 0 else st 271)
  | _ => None
  end.
(** Lines 6768 to 6916. *)
Definition uri_cases_48 (cs c : Z) : option label :=
  match cs with
  | 271 => Some (
      if c =? 58 then st 275 else if c <? 65 then if (48 <=? c) && (c <=? 57) then st 272 else st 0
      else if c >? 70 then if (97 <=? c) && (c <=? 102) then st 272 else st 0 else st 272)
  | 272 => Some (
      if c =? 58 then st 275 else if c <? 65 then if (48 <=? c) && (c <=? 57) then st 273 else st 0
      else if c >? 70 then if (97 <=? c) && (c <=? 102) then st 273 else st 0 else st 273)
  | 273 => Some (
      if c =? 58 then st 275 else if c <? 65 then if (48 <=? c) && (c <=? 57) then st 274 else st 0
      else if c >? 70 then if (97 <=? c) && (c <=? 102) then st 274 else st 0 else st 274)
  | 274 => Some (if c =? 58 then st 275 else st 0)
  | 275 => Some (
      if c =? 58 then st 353 else if c <? 65 then if (48 <=? c) && (c <=? 57) then st 276 else st 0
      else if c >? 70 then if (97 <=? c) && (c <=? 102) then st 276 else st 0 else st 276)
  | 276 => Some (
      if c =? 58 then st 280 else if c <? 65 then if (48 <=? c) && (c <=? 57) then st 277 else st 0
      else if c >? 70 then if (97 <=? c) && (c <=? 102) then st 277 else st 0 else st 277)
  | 277 => Some (
      if c =? 58 then st 280 else if c <? 65 then if (48 <=? c) && (c <=? 57) then st 278 else st 0
      else if c >? 70 then if (97 <=? c) && (c <=? 102) then st 278 else st 0 else st 278)
  | 278 => Some (
      if c =? 58 then st 280 else if c <? 65 then if (48 <=? c) && (c <=? 57) then st 279 else st 0
      else if c >? 70 then if (97 <=? c) && (c <=? 102) then st 279 else st 0 else st 279)
  | 279 => Some (if c =? 58 then st 280 else st 0)
  | 280 => Some (
      if c =? 58 then st 348 else if c <? 65 then if (48 <=? c) && (c <=? 57) then st 281 else st 0
      else if c >? 70 then if (97 <=? c) && (c <=? 102) then st 281 else st 0 else st 281)
  | 281 => Some (
      if c =? 58 then st 285 else if c <? 65 then if (48 <=? c) && (c <=? 57) then st 282 else st 0
      else if c >? 70 then if (97 <=? c) && (c <=? 102) then st 282 else st 0 else st 282)
  | _ => None
  end.
(** Lines 6917 to 7064. *)
Definition uri_cases_49 (cs c : Z) : option label :=
  match cs with
  | 282 => Some (
      if c =? 58 then st 285 else if c <? 65 then if (48 <=? c) && (c <=? 57) then st 283 else st 0
      else if c >? 70 then if (97 <=? c) && (c <=? 102) then st 283 else st 0 else st 283)
  | 283 => Some (
      if c =? 58 then st 285 else if c <? 65 then if (48 <=? c) && (c <=? 57) then st 284 else st 0
      else if c >? 70 then if (97 <=? c) && (c <=? 102) then st 284 else st 0 else st 284)
  | 284 => Some (if c =? 58 then st 285 else st 0)
  | 285 => Some (
      if c =? 58 then st 335 else if c <? 65 then if (48 <=? c) && (c <=? 57) then st 286 else st 0
      else if c >? 70 then if (97 <=? c) && (c <=? 102) then st 286 else st 0 else st 286)
  | 286 => Some (
      if c =? 58 then st 290 else if c <? 65 then if (48 <=? c) && (c <=? 57) then st 287 else st 0
      else if c >? 70 then if (97 <=? c) && (c <=? 102) then st 287 else st 0 else st 287)
  | 287 => Some (
      if c =? 58 then st 290 else if c <? 65 then if (48 <=? c) && (c <=? 57) then st 288 else st 0
      else if c >? 70 then if (97 <=? c) && (c <=? 102) then st 288 else st 0 else st 288)
  | 288 => Some (
      if c =? 58 then st 290 else if c <? 65 then if (48 <=? c) && (c <=? 57) then st 289 else st 0
      else if c >? 70 then if (97 <=? c) && (c <=? 102) then st 289 else st 0 else st 289)
  | 289 => Some (if c =? 58 then st 290 else st 0)
  | 290 => Some (
      switch c [(2, st 291); (48, st 318); (49, st 326); (50, st 329); (58, st 333)]
      (if c <? 65 then if (51 <=? c) && (c <=? 57) then st 332 else st 0
      else if c >? 70 then if (97 <=? c) && (c <=? 102) then st 334 else st 0 else st 334))
  | 291 => Some (if (48 <=? c) && (c <=? 52) then st 292 else st 0)
  | 292 => Some (if (48 <=? c) && (c <=? 57) then st 293 else st 0)
  | 293 => Some (if c =? 46 then st 294 else st 0)
  | _ => None
  end.
(** Lines 7065 to 7213. *)
Definition uri_cases_50 (cs c : Z) : option label :=
  match cs with
  | 294 => Some (
      switch c [(2, st 295); (48, st 297); (49, st 314); (50, st 316)] (if (51 <=? c) && (c <=? 57) then st 315 else st 0))
  | 295 => Some (if (48 <=? c) && (c <=? 52) then st 296 else st 0)
  | 296 => Some (if (48 <=? c) && (c <=? 57) then st 297 else st 0)
  | 297 => Some (if c =? 46 then st 298 else st 0)
  | 298 => Some (
      switch c [(2, st 299); (48, st 301); (49, st 310); (50, st 312)] (if (51 <=? c) && (c <=? 57) then st 311 else st 0))
  | 299 => Some (if (48 <=? c) && (c <=? 52) then st 300 else st 0)
  | 300 => Some (if (48 <=? c) && (c <=? 57) then st 301 else st 0)
  | 301 => Some (if c =? 46 then st 302 else st 0)
  | 302 => Some (
      switch c [(2, st 303); (48, st 305); (49, st 306); (50, st 308)] (if (51 <=? c) && (c <=? 57) then st 307 else st 0))
  | 303 => Some (if (48 <=? c) && (c <=? 52) then st 304 else st 0)
  | 304 => Some (if (48 <=? c) && (c <=? 57) then st 305 else st 0)
  | 305 => Some (if c =? 93 then st 512 else st 0)
  | 306 => Some (if c =? 93 then st 512 else if (48 <=? c) && (c <=? 57) then st 307 else st 0)
  | 307 => Some (if c =? 93 then st 512 else if (48 <=? c) && (c <=? 57) then st 305 else st 0)
  | 308 => Some (switch c [(53, st 309); (93, st 512)] (if (48 <=? c) && (c <=? 57) then st 305 else st 0))
  | 309 => Some (if c =? 93 then st 512 else if (48 <=? c) && (c <=? 53) then st 305 else st 0)
  | 310 => Some (if c =? 46 then st 302 else if (48 <=? c) && (c <=? 57) then st 311 else st 0)
  | _ => None
  end.
(** Lines 7214 to 7361. *)
Definition uri_cases_51 (cs c : Z) : option label :=
  match cs with
  | 311 => Some (if c =? 46 then st 302 else if (48 <=? c) && (c <=? 57) then st 301 else st 0)
  | 312 => Some (switch c [(46, st 302); (53, st 313)] (if (48 <=? c) && (c <=? 57) then st 301 else st 0))
  | 313 => Some (if c =? 46 then st 302 else if (48 <=? c) && (c <=? 53) then st 301 else st 0)
  | 314 => Some (if c =? 46 then st 298 else if (48 <=? c) && (c <=? 57) then st 315 else st 0)
  | 315 => Some (if c =? 46 then st 298 else if (48 <=? c) && (c <=? 57) then st 297 else st 0)
  | 316 => Some (switch c [(46, st 298); (53, st 317)] (if (48 <=? c) && (c <=? 57) then st 297 else st 0))
  | 317 => Some (if c =? 46 then st 298 else if (48 <=? c) && (c <=? 53) then st 297 else st 0)
  | 318 => Some (
      switch c [(46, st 294); (58, st 322)] (if c <? 65 then if (48 <=? c) && (c <=? 57) then st 319 else st 0
      else if c >? 70 then if (97 <=? c) && (c <=? 102) then st 319 else st 0 else st 319))
  | 319 => Some (
      if c =? 58 then st 322 else if c <? 65 then if (48 <=? c) && (c <=? 57) then st 320 else st 0
      else if c >? 70 then if (97 <=? c) && (c <=? 102) then st 320 else st 0 else st 320)
  | 320 => Some (
      if c =? 58 then st 322 else if c <? 65 then if (48 <=? c) && (c <=? 57) then st 321 else st 0
      else if c >? 70 then if (97 <=? c) && (c <=? 102) then st 321 else st 0 else st 321)
  | 321 => Some (if c =? 58 then st 322 else st 0)
  | 322 => Some (
      if c =? 58 then st 305 else if c <? 65 then if (48 <=? c) && (c <=? 57) then st 323 else st 0
      else if c >? 70 then if (97 <=? c) && (c <=? 102) then st 323 else st 0 else st 323)
  | 323 => Some (
      if c =? 93 then st 512 else if c <? 65 then if (48 <=? c) && (c <=? 57) then st 324 else st 0
      else if c >? 70 then if (97 <=? c) && (c <=? 102) then st 324 else st 0 else st 324)
  | _ => None
  end.
(** Lines 7362 to 7500. *)
Definition uri_cases_52 (cs c : Z) : option label :=
  match cs with
  | 324 => Some (
      if c =? 93 then st 512 else if c <? 65 then if (48 <=? c) && (c <=? 57) then st 325 else st 0
      else if c >? 70 then if (97 <=? c) && (c <=? 102) then st 325 else st 0 else st 325)
  | 325 => Some (
      if c =? 93 then st 512 else if c <? 65 then if (48 <=? c) && (c <=? 57) then st 305 else st 0
      else if c >? 70 then if (97 <=? c) && (c <=? 102) then st 305 else st 0 else st 305)
  | 326 => Some (
      switch c [(46, st 294); (58, st 322)] (if c <? 65 then if (48 <=? c) && (c <=? 57) then st 327 else st 0
      else if c >? 70 then if (97 <=? c) && (c <=? 102) then st 319 else st 0 else st 319))
  | 327 => Some (
      switch c [(46, st 294); (58, st 322)] (if c <? 65 then if (48 <=? c) && (c <=? 57) then st 328 else st 0
      else if c >? 70 then if (97 <=? c) && (c <=? 102) then st 320 else st 0 else st 320))
  | 328 => Some (
      switch c [(46, st 294); (58, st 322)] (if c <? 65 then if (48 <=? c) && (c <=? 57) then st 321 else st 0
      else if c >? 70 then if (97 <=? c) && (c <=? 102) then st 321 else st 0 else st 321))
  | 329 => Some (
      switch c [(46, st 294); (53, st 331); (58, st 322)] (if c <? 65 then if (48 <=? c) && (c <=? 57) then st 330 else st 0
      else if c >? 70 then if (97 <=? c) && (c <=? 102) then st 319 else st 0 else st 319))
  | 330 => Some (
      switch c [(46, st 294); (58, st 322)] (if c <? 65 then if (48 <=? c) && (c <=? 57) then st 320 else st 0
      else if c >? 70 then if (97 <=? c) && (c <=? 102) then st 320 else st 0 else st 320))
  | 331 => Some (
      switch c [(46, st 294); (58, st 322)] (if c <? 54 then if (48 <=? c) && (c <=? 53) then st 328 else st 0
      else if c >? 57 then if c >? 70 then if (97 <=? c) && (c <=? 102) then st 320 else st 0 else if c >=? 65 then st 320
      else st 0 else st 320))
  | _ => None
  end.
(** Lines 7501 to 7649. *)
Definition uri_cases_53 (cs c : Z) : option label :=
  match cs with
  | 332 => Some (
      switch c [(46, st 294); (58, st 322)] (if c <? 65 then if (48 <=? c) && (c <=? 57) then st 330 else st 0
      else if c >? 70 then if (97 <=? c) && (c <=? 102) then st 319 else st 0 else st 319))
  | 333 => Some (
      if c <? 65 then if (48 <=? c) && (c <=? 57) then st 323 else st 0
      else if c >? 70 then if (97 <=? c) && (c <=? 102) then st 323 else st 0 else st 323)
  | 334 => Some (
      if c =? 58 then st 322 else if c <? 65 then if (48 <=? c) && (c <=? 57) then st 319 else st 0
      else if c >? 70 then if (97 <=? c) && (c <=? 102) then st 319 else st 0 else st 319)
  | 335 => Some (
      switch c [(2, st 291); (48, st 336); (49, st 340); (50, st 343)]
      (if c <? 65 then if (51 <=? c) && (c <=? 57) then st 346 else st 0
      else if c >? 70 then if (97 <=? c) && (c <=? 102) then st 347 else st 0 else st 347))
  | 336 => Some (
      switch c [(46, st 294); (58, st 333)] (if c <? 65 then if (48 <=? c) && (c <=? 57) then st 337 else st 0
      else if c >? 70 then if (97 <=? c) && (c <=? 102) then st 337 else st 0 else st 337))
  | 337 => Some (
      if c =? 58 then st 333 else if c <? 65 then if (48 <=? c) && (c <=? 57) then st 338 else st 0
      else if c >? 70 then if (97 <=? c) && (c <=? 102) then st 338 else st 0 else st 338)
  | 338 => Some (
      if c =? 58 then st 333 else if c <? 65 then if (48 <=? c) && (c <=? 57) then st 339 else st 0
      else if c >? 70 then if (97 <=? c) && (c <=? 102) then st 339 else st 0 else st 339)
  | 339 => Some (if c =? 58 then st 333 else st 0)
  | 340 => Some (
      switch c [(46, st 294); (58, st 333)] (if c <? 65 then if (48 <=? c) && (c <=? 57) then st 341 else st 0
      else if c >? 70 then if (97 <=? c) && (c <=? 102) then st 337 else st 0 else st 337))
  | 341 => Some (
      switch c [(46, st 294); (58, st 333)] (if c <? 65 then if (48 <=? c) && (c <=? 57) then st 342 else st 0
      else if c >? 70 then if (97 <=? c) && (c <=? 102) then st 338 else st 0 else st 338))
  | _ => None
  end.
(** Lines 7650 to 7799. *)
Definition uri_cases_54 (cs c : Z) : option label :=
  match cs with
  | 342 => Some (
      switch c [(46, st 294); (58, st 333)] (if c <? 65 then if (48 <=? c) && (c <=? 57) then st 339 else st 0
      else if c >? 70 then if (97 <=? c) && (c <=? 102) then st 339 else st 0 else st 339))
  | 343 => Some (
      switch c [(46, st 294); (53, st 345); (58, st 333)] (if c <? 65 then if (48 <=? c) && (c <=? 57) then st 344 else st 0
      else if c >? 70 then if (97 <=? c) && (c <=? 102) then st 337 else st 0 else st 337))
  | 344 => Some (
      switch c [(46, st 294); (58, st 333)] (if c <? 65 then if (48 <=? c) && (c <=? 57) then st 338 else st 0
      else if c >? 70 then if (97 <=? c) && (c <=? 102) then st 338 else st 0 else st 338))
  | 345 => Some (
      switch c [(46, st 294); (58, st 333)] (if c <? 54 then if (48 <=? c) && (c <=? 53) then st 342 else st 0
      else if c >? 57 then if c >? 70 then if (97 <=? c) && (c <=? 102) then st 338 else st 0 else if c >=? 65 then st 338
      else st 0 else st 338))
  | 346 => Some (
      switch c [(46, st 294); (58, st 333)] (if c <? 65 then if (48 <=? c) && (c <=? 57) then st 344 else st 0
      else if c >? 70 then if (97 <=? c) && (c <=? 102) then st 337 else st 0 else st 337))
  | 347 => Some (
      if c =? 58 then st 333 else if c <? 65 then if (48 <=? c) && (c <=? 57) then st 337 else st 0
      else if c >? 70 then if (97 <=? c) && (c <=? 102) then st 337 else st 0 else st 337)
  | 348 => Some (
      if c <? 65 then if (48 <=? c) && (c <=? 57) then st 349 else st 0
      else if c >? 70 then if (97 <=? c) && (c <=? 102) then st 349 else st 0 else st 349)
  | 349 => Some (
      if c =? 58 then st 335 else if c <? 65 then if (48 <=? c) && (c <=? 57) then st 350 else st 0
      else if c >? 70 then if (97 <=? c) && (c <=? 102) then st 350 else st 0 else st 350)
  | 350 => Some (
      if c =? 58 then st 335 else if c <? 65 then if (48 <=? c) && (c <=? 57) then st 351 else st 0
      else if c >? 70 then if (97 <=? c) && (c <=? 102) then st 351 else st 0 else st 351)
  | _ => None
  end.
(** Lines 7800 to 7948. *)
Definition uri_cases_55 (cs c : Z) : option label :=
  match cs with
  | 351 => Some (
      if c =? 58 then st 335 else if c <? 65 then if (48 <=? c) && (c <=? 57) then st 352 else st 0
      else if c >? 70 then if (97 <=? c) && (c <=? 102) then st 352 else st 0 else st 352)
  | 352 => Some (if c =? 58 then st 335 else st 0)
  | 353 => Some (
      if c <? 65 then if (48 <=? c) && (c <=? 57) then st 354 else st 0
      else if c >? 70 then if (97 <=? c) && (c <=? 102) then st 354 else st 0 else st 354)
  | 354 => Some (
      if c =? 58 then st 348 else if c <? 65 then if (48 <=? c) && (c <=? 57) then st 355 else st 0
      else if c >? 70 then if (97 <=? c) && (c <=? 102) then st 355 else st 0 else st 355)
  | 355 => Some (
      if c =? 58 then st 348 else if c <? 65 then if (48 <=? c) && (c <=? 57) then st 356 else st 0
      else if c >? 70 then if (97 <=? c) && (c <=? 102) then st 356 else st 0 else st 356)
  | 356 => Some (
      if c =? 58 then st 348 else if c <? 65 then if (48 <=? c) && (c <=? 57) then st 357 else st 0
      else if c >? 70 then if (97 <=? c) && (c <=? 102) then st 357 else st 0 else st 357)
  | 357 => Some (if c =? 58 then st 348 else st 0)
  | 358 => Some (
      if c <? 65 then if (48 <=? c) && (c <=? 57) then st 359 else st 0
      else if c >? 70 then if (97 <=? c) && (c <=? 102) then st 359 else st 0 else st 359)
  | 359 => Some (
      if c =? 58 then st 353 else if c <? 65 then if (48 <=? c) && (c <=? 57) then st 360 else st 0
      else if c >? 70 then if (97 <=? c) && (c <=? 102) then st 360 else st 0 else st 360)
  | 360 => Some (
      if c =? 58 then st 353 else if c <? 65 then if (48 <=? c) && (c <=? 57) then st 361 else st 0
      else if c >? 70 then if (97 <=? c) && (c <=? 102) then st 361 else st 0 else st 361)
  | 361 => Some (
      if c =? 58 then st 353 else if c <? 65 then if (48 <=? c) && (c <=? 57) then st 362 else st 0
      else if c >? 70 then if (97 <=? c) && (c <=? 102) then st 362 else st 0 else st 362)
  | 362 => Some (if c =? 58 then st 353 else st 0)
  | _ => None
  end.
(** Lines 7949 to 8095. *)
Definition uri_cases_56 (cs c : Z) : option label :=
  match cs with
  | 363 => Some (
      if c <? 65 then if (48 <=? c) && (c <=? 57) then st 364 else st 0
      else if c >? 70 then if (97 <=? c) && (c <=? 102) then st 364 else st 0 else st 364)
  | 364 => Some (
      if c =? 58 then st 358 else if c <? 65 then if (48 <=? c) && (c <=? 57) then st 365 else st 0
      else if c >? 70 then if (97 <=? c) && (c <=? 102) then st 365 else st 0 else st 365)
  | 365 => Some (
      if c =? 58 then st 358 else if c <? 65 then if (48 <=? c) && (c <=? 57) then st 366 else st 0
      else if c >? 70 then if (97 <=? c) && (c <=? 102) then st 366 else st 0 else st 366)
  | 366 => Some (
      if c =? 58 then st 358 else if c <? 65 then if (48 <=? c) && (c <=? 57) then st 367 else st 0
      else if c >? 70 then if (97 <=? c) && (c <=? 102) then st 367 else st 0 else st 367)
  | 367 => Some (if c =? 58 then st 358 else st 0)
  | 368 => Some (if c =? 58 then st 369 else st 0)
  | 369 => Some (
      switch c [(2, st 291); (48, st 370); (49, st 439); (50, st 442); (93, st 512)]
      (if c <? 65 then if (51 <=? c) && (c <=? 57) then st 445 else st 0
      else if c >? 70 then if (97 <=? c) && (c <=? 102) then st 446 else st 0 else st 446))
  | 370 => Some (
      switch c [(46, st 294); (58, st 374); (93, st 512)] (if c <? 65 then if (48 <=? c) && (c <=? 57) then st 371 else st 0
      else if c >? 70 then if (97 <=? c) && (c <=? 102) then st 371 else st 0 else st 371))
  | 371 => Some (
      switch c [(58, st 374); (93, st 512)] (if c <? 65 then if (48 <=? c) && (c <=? 57) then st 372 else st 0
      else if c >? 70 then if (97 <=? c) && (c <=? 102) then st 372 else st 0 else st 372))
  | 372 => Some (
      switch c [(58, st 374); (93, st 512)] (if c <? 65 then if (48 <=? c) && (c <=? 57) then st 373 else st 0
      else if c >? 70 then if (97 <=? c) && (c <=? 102) then st 373 else st 0 else st 373))
  | _ => None
  end.
(** Lines 8096 to 8238. *)
Definition uri_cases_57 (cs c : Z) : option label :=
  match cs with
  | 373 => Some (switch c [(58, st 374); (93, st 512)] (st 0))
  | 374 => Some (
      switch c [(2, st 291); (48, st 375); (49, st 431); (50, st 434)]
      (if c <? 65 then if (51 <=? c) && (c <=? 57) then st 437 else st 0
      else if c >? 70 then if (97 <=? c) && (c <=? 102) then st 438 else st 0 else st 438))
  | 375 => Some (
      switch c [(46, st 294); (58, st 379); (93, st 512)] (if c <? 65 then if (48 <=? c) && (c <=? 57) then st 376 else st 0
      else if c >? 70 then if (97 <=? c) && (c <=? 102) then st 376 else st 0 else st 376))
  | 376 => Some (
      switch c [(58, st 379); (93, st 512)] (if c <? 65 then if (48 <=? c) && (c <=? 57) then st 377 else st 0
      else if c >? 70 then if (97 <=? c) && (c <=? 102) then st 377 else st 0 else st 377))
  | 377 => Some (
      switch c [(58, st 379); (93, st 512)] (if c <? 65 then if (48 <=? c) && (c <=? 57) then st 378 else st 0
      else if c >? 70 then if (97 <=? c) && (c <=? 102) then st 378 else st 0 else st 378))
  | 378 => Some (switch c [(58, st 379); (93, st 512)] (st 0))
  | 379 => Some (
      switch c [(2, st 291); (48, st 380); (49, st 423); (50, st 426)]
      (if c <? 65 then if (51 <=? c) && (c <=? 57) then st 429 else st 0
      else if c >? 70 then if (97 <=? c) && (c <=? 102) then st 430 else st 0 else st 430))
  | 380 => Some (
      switch c [(46, st 294); (58, st 384); (93, st 512)] (if c <? 65 then if (48 <=? c) && (c <=? 57) then st 381 else st 0
      else if c >? 70 then if (97 <=? c) && (c <=? 102) then st 381 else st 0 else st 381))
  | 381 => Some (
      switch c [(58, st 384); (93, st 512)] (if c <? 65 then if (48 <=? c) && (c <=? 57) then st 382 else st 0
      else if c >? 70 then if (97 <=? c) && (c <=? 102) then st 382 else st 0 else st 382))
  | _ => None
  end.
(** Lines 8239 to 8381. *)
Definition uri_cases_58 (cs c : Z) : option label :=
  match cs with
  | 382 => Some (
      switch c [(58, st 384); (93, st 512)] (if c <? 65 then if (48 <=? c) && (c <=? 57) then st 383 else st 0
      else if c >? 70 then if (97 <=? c) && (c <=? 102) then st 383 else st 0 else st 383))
  | 383 => Some (switch c [(58, st 384); (93, st 512)] (st 0))
  | 384 => Some (
      switch c [(2, st 291); (48, st 385); (49, st 415); (50, st 418)]
      (if c <? 65 then if (51 <=? c) && (c <=? 57) then st 421 else st 0
      else if c >? 70 then if (97 <=? c) && (c <=? 102) then st 422 else st 0 else st 422))
  | 385 => Some (
      switch c [(46, st 294); (58, st 389); (93, st 512)] (if c <? 65 then if (48 <=? c) && (c <=? 57) then st 386 else st 0
      else if c >? 70 then if (97 <=? c) && (c <=? 102) then st 386 else st 0 else st 386))
  | 386 => Some (
      switch c [(58, st 389); (93, st 512)] (if c <? 65 then if (48 <=? c) && (c <=? 57) then st 387 else st 0
      else if c >? 70 then if (97 <=? c) && (c <=? 102) then st 387 else st 0 else st 387))
  | 387 => Some (
      switch c [(58, st 389); (93, st 512)] (if c <? 65 then if (48 <=? c) && (c <=? 57) then st 388 else st 0
      else if c >? 70 then if (97 <=? c) && (c <=? 102) then st 388 else st 0 else st 388))
  | 388 => Some (switch c [(58, st 389); (93, st 512)] (st 0))
  | 389 => Some (
      switch c [(2, st 291); (48, st 390); (49, st 407); (50, st 410)]
      (if c <? 65 then if (51 <=? c) && (c <=? 57) then st 413 else st 0
      else if c >? 70 then if (97 <=? c) && (c <=? 102) then st 414 else st 0 else st 414))
  | 390 => Some (
      switch c [(46, st 294); (58, st 394); (93, st 512)] (if c <? 65 then if (48 <=? c) && (c <=? 57) then st 391 else st 0
      else if c >? 70 then if (97 <=? c) && (c <=? 102) then st 391 else st 0 else st 391))
  | _ => None
  end.
(** Lines 8382 to 8522. *)
Definition uri_cases_59 (cs c : Z) : option label :=
  match cs with
  | 391 => Some (
      switch c [(58, st 394); (93, st 512)] (if c <? 65 then if (48 <=? c) && (c <=? 57) then st 392 else st 0
      else if c >? 70 then if (97 <=? c) && (c <=? 102) then st 392 else st 0 else st 392))
  | 392 => Some (
      switch c [(58, st 394); (93, st 512)] (if c <? 65 then if (48 <=? c) && (c <=? 57) then st 393 else st 0
      else if c >? 70 then if (97 <=? c) && (c <=? 102) then st 393 else st 0 else st 393))
  | 393 => Some (switch c [(58, st 394); (93, st 512)] (st 0))
  | 394 => Some (
      switch c [(2, st 291); (48, st 395); (49, st 399); (50, st 402)]
      (if c <? 65 then if (51 <=? c) && (c <=? 57) then st 405 else st 0
      else if c >? 70 then if (97 <=? c) && (c <=? 102) then st 406 else st 0 else st 406))
  | 395 => Some (
      switch c [(46, st 294); (58, st 333); (93, st 512)] (if c <? 65 then if (48 <=? c) && (c <=? 57) then st 396 else st 0
      else if c >? 70 then if (97 <=? c) && (c <=? 102) then st 396 else st 0 else st 396))
  | 396 => Some (
      switch c [(58, st 333); (93, st 512)] (if c <? 65 then if (48 <=? c) && (c <=? 57) then st 397 else st 0
      else if c >? 70 then if (97 <=? c) && (c <=? 102) then st 397 else st 0 else st 397))
  | 397 => Some (
      switch c [(58, st 333); (93, st 512)] (if c <? 65 then if (48 <=? c) && (c <=? 57) then st 398 else st 0
      else if c >? 70 then if (97 <=? c) && (c <=? 102) then st 398 else st 0 else st 398))
  | 398 => Some (switch c [(58, st 333); (93, st 512)] (st 0))
  | 399 => Some (
      switch c [(46, st 294); (58, st 333); (93, st 512)] (if c <? 65 then if (48 <=? c) && (c <=? 57) then st 400 else st 0
      else if c >? 70 then if (97 <=? c) && (c <=? 102) then st 396 else st 0 else st 396))
  | _ => None
  end.
(** Lines 8523 to 8669. *)
Definition uri_cases_60 (cs c : Z) : option label :=
  match cs with
  | 400 => Some (
      switch c [(46, st 294); (58, st 333); (93, st 512)] (if c <? 65 then if (48 <=? c) && (c <=? 57) then st 401 else st 0
      else if c >? 70 then if (97 <=? c) && (c <=? 102) then st 397 else st 0 else st 397))
  | 401 => Some (
      switch c [(46, st 294); (58, st 333); (93, st 512)] (if c <? 65 then if (48 <=? c) && (c <=? 57) then st 398 else st 0
      else if c >? 70 then if (97 <=? c) && (c <=? 102) then st 398 else st 0 else st 398))
  | 402 => Some (
      switch c [(46, st 294); (53, st 404); (58, st 333); (93, st 512)]
      (if c <? 65 then if (48 <=? c) && (c <=? 57) then st 403 else st 0
      else if c >? 70 then if (97 <=? c) && (c <=? 102) then st 396 else st 0 else st 396))
  | 403 => Some (
      switch c [(46, st 294); (58, st 333); (93, st 512)] (if c <? 65 then if (48 <=? c) && (c <=? 57) then st 397 else st 0
      else if c >? 70 then if (97 <=? c) && (c <=? 102) then st 397 else st 0 else st 397))
  | 404 => Some (
      switch c [(46, st 294); (58, st 333); (93, st 512)] (if c <? 54 then if (48 <=? c) && (c <=? 53) then st 401 else st 0
      else if c >? 57 then if c >? 70 then if (97 <=? c) && (c <=? 102) then st 397 else st 0 else if c >=? 65 then st 397
      else st 0 else st 397))
  | 405 => Some (
      switch c [(46, st 294); (58, st 333); (93, st 512)] (if c <? 65 then if (48 <=? c) && (c <=? 57) then st 403 else st 0
      else if c >? 70 then if (97 <=? c) && (c <=? 102) then st 396 else st 0 else st 396))
  | 406 => Some (
      switch c [(58, st 333); (93, st 512)] (if c <? 65 then if (48 <=? c) && (c <=? 57) then st 396 else st 0
      else if c >? 70 then if (97 <=? c) && (c <=? 102) then st 396 else st 0 else st 396))
  | 407 => Some (
      switch c [(46, st 294); (58, st 394); (93, st 512)] (if c <? 65 then if (48 <=? c) && (c <=? 57) then st 408 else st 0
      else if c >? 70 then if (97 <=? c) && (c <=? 102) then st 391 else st 0 else st 391))
  | _ => None
  end.
(** Lines 8670 to 8816. *)
Definition uri_cases_61 (cs c : Z) : option label :=
  match cs with
  | 408 => Some (
      switch c [(46, st 294); (58, st 394); (93, st 512)] (if c <? 65 then if (48 <=? c) && (c <=? 57) then st 409 else st 0
      else if c >? 70 then if (97 <=? c) && (c <=? 102) then st 392 else st 0 else st 392))
  | 409 => Some (
      switch c [(46, st 294); (58, st 394); (93, st 512)] (if c <? 65 then if (48 <=? c) && (c <=? 57) then st 393 else st 0
      else if c >? 70 then if (97 <=? c) && (c <=? 102) then st 393 else st 0 else st 393))
  | 410 => Some (
      switch c [(46, st 294); (53, st 412); (58, st 394); (93, st 512)]
      (if c <? 65 then if (48 <=? c) && (c <=? 57) then st 411 else st 0
      else if c >? 70 then if (97 <=? c) && (c <=? 102) then st 391 else st 0 else st 391))
  | 411 => Some (
      switch c [(46, st 294); (58, st 394); (93, st 512)] (if c <? 65 then if (48 <=? c) && (c <=? 57) then st 392 else st 0
      else if c >? 70 then if (97 <=? c) && (c <=? 102) then st 392 else st 0 else st 392))
  | 412 => Some (
      switch c [(46, st 294); (58, st 394); (93, st 512)] (if c <? 54 then if (48 <=? c) && (c <=? 53) then st 409 else st 0
      else if c >? 57 then if c >? 70 then if (97 <=? c) && (c <=? 102) then st 392 else st 0 else if c >=? 65 then st 392
      else st 0 else st 392))
  | 413 => Some (
      switch c [(46, st 294); (58, st 394); (93, st 512)] (if c <? 65 then if (48 <=? c) && (c <=? 57) then st 411 else st 0
      else if c >? 70 then if (97 <=? c) && (c <=? 102) then st 391 else st 0 else st 391))
  | 414 => Some (
      switch c [(58, st 394); (93, st 512)] (if c <? 65 then if (48 <=? c) && (c <=? 57) then st 391 else st 0
      else if c >? 70 then if (97 <=? c) && (c <=? 102) then st 391 else st 0 else st 391))
  | 415 => Some (
      switch c [(46, st 294); (58, st 389); (93, st 512)] (if c <? 65 then if (48 <=? c) && (c <=? 57) then st 416 else st 0
      else if c >? 70 then if (97 <=? c) && (c <=? 102) then st 386 else st 0 else st 386))
  | _ => None
  end.
(** Lines 8817 to 8963. *)
Definition uri_cases_62 (cs c : Z) : option label :=
  match cs with
  | 416 => Some (
      switch c [(46, st 294); (58, st 389); (93, st 512)] (if c <? 65 then if (48 <=? c) && (c <=? 57) then st 417 else st 0
      else if c >? 70 then if (97 <=? c) && (c <=? 102) then st 387 else st 0 else st 387))
  | 417 => Some (
      switch c [(46, st 294); (58, st 389); (93, st 512)] (if c <? 65 then if (48 <=? c) && (c <=? 57) then st 388 else st 0
      else if c >? 70 then if (97 <=? c) && (c <=? 102) then st 388 else st 0 else st 388))
  | 418 => Some (
      switch c [(46, st 294); (53, st 420); (58, st 389); (93, st 512)]
      (if c <? 65 then if (48 <=? c) && (c <=? 57) then st 419 else st 0
      else if c >? 70 then if (97 <=? c) && (c <=? 102) then st 386 else st 0 else st 386))
  | 419 => Some (
      switch c [(46, st 294); (58, st 389); (93, st 512)] (if c <? 65 then if (48 <=? c) && (c <=? 57) then st 387 else st 0
      else if c >? 70 then if (97 <=? c) && (c <=? 102) then st 387 else st 0 else st 387))
  | 420 => Some (
      switch c [(46, st 294); (58, st 389); (93, st 512)] (if c <? 54 then if (48 <=? c) && (c <=? 53) then st 417 else st 0
      else if c >? 57 then if c >? 70 then if (97 <=? c) && (c <=? 102) then st 387 else st 0 else if c >=? 65 then st 387
      else st 0 else st 387))
  | 421 => Some (
      switch c [(46, st 294); (58, st 389); (93, st 512)] (if c <? 65 then if (48 <=? c) && (c <=? 57) then st 419 else st 0
      else if c >? 70 then if (97 <=? c) && (c <=? 102) then st 386 else st 0 else st 386))
  | 422 => Some (
      switch c [(58, st 389); (93, st 512)] (if c <? 65 then if (48 <=? c) && (c <=? 57) then st 386 else st 0
      else if c >? 70 then if (97 <=? c) && (c <=? 102) then st 386 else st 0 else st 386))
  | 423 => Some (
      switch c [(46, st 294); (58, st 384); (93, st 512)] (if c <? 65 then if (48 <=? c) && (c <=? 57) then st 424 else st 0
      else if c >? 70 then if (97 <=? c) && (c <=? 102) then st 381 else st 0 else st 381))
  | _ => None
  end.
(** Lines 8964 to 9110. *)
Definition uri_cases_63 (cs c : Z) : option label :=
  match cs with
  | 424 => Some (
      switch c [(46, st 294); (58, st 384); (93, st 512)] (if c <? 65 then if (48 <=? c) && (c <=? 57) then st 425 else st 0
      else if c >? 70 then if (97 <=? c) && (c <=? 102) then st 382 else st 0 else st 382))
  | 425 => Some (
      switch c [(46, st 294); (58, st 384); (93, st 512)] (if c <? 65 then if (48 <=? c) && (c <=? 57) then st 383 else st 0
      else if c >? 70 then if (97 <=? c) && (c <=? 102) then st 383 else st 0 else st 383))
  | 426 => Some (
      switch c [(46, st 294); (53, st 428); (58, st 384); (93, st 512)]
      (if c <? 65 then if (48 <=? c) && (c <=? 57) then st 427 else st 0
      else if c >? 70 then if (97 <=? c) && (c <=? 102) then st 381 else st 0 else st 381))
  | 427 => Some (
      switch c [(46, st 294); (58, st 384); (93, st 512)] (if c <? 65 then if (48 <=? c) && (c <=? 57) then st 382 else st 0
      else if c >? 70 then if (97 <=? c) && (c <=? 102) then st 382 else st 0 else st 382))
  | 428 => Some (
      switch c [(46, st 294); (58, st 384); (93, st 512)] (if c <? 54 then if (48 <=? c) && (c <=? 53) then st 425 else st 0
      else if c >? 57 then if c >? 70 then if (97 <=? c) && (c <=? 102) then st 382 else st 0 else if c >=? 65 then st 382
      else st 0 else st 382))
  | 429 => Some (
      switch c [(46, st 294); (58, st 384); (93, st 512)] (if c <? 65 then if (48 <=? c) && (c <=? 57) then st 427 else st 0
      else if c >? 70 then if (97 <=? c) && (c <=? 102) then st 381 else st 0 else st 381))
  | 430 => Some (
      switch c [(58, st 384); (93, st 512)] (if c <? 65 then if (48 <=? c) && (c <=? 57) then st 381 else st 0
      else if c >? 70 then if (97 <=? c) && (c <=? 102) then st 381 else st 0 else st 381))
  | 431 => Some (
      switch c [(46, st 294); (58, st 379); (93, st 512)] (if c <? 65 then if (48 <=? c) && (c <=? 57) then st 432 else st 0
      else if c >? 70 then if (97 <=? c) && (c <=? 102) then st 376 else st 0 else st 376))
  | _ => None
  end.
(** Lines 9111 to 9257. *)
Definition uri_cases_64 (cs c : Z) : option label :=
  match cs with
  | 432 => Some (
      switch c [(46, st 294); (58, st 379); (93, st 512)] (if c <? 65 then if (48 <=? c) && (c <=? 57) then st 433 else st 0
      else if c >? 70 then if (97 <=? c) && (c <=? 102) then st 377 else st 0 else st 377))
  | 433 => Some (
      switch c [(46, st 294); (58, st 379); (93, st 512)] (if c <? 65 then if (48 <=? c) && (c <=? 57) then st 378 else st 0
      else if c >? 70 then if (97 <=? c) && (c <=? 102) then st 378 else st 0 else st 378))
  | 434 => Some (
      switch c [(46, st 294); (53, st 436); (58, st 379); (93, st 512)]
      (if c <? 65 then if (48 <=? c) && (c <=? 57) then st 435 else st 0
      else if c >? 70 then if (97 <=? c) && (c <=? 102) then st 376 else st 0 else st 376))
  | 435 => Some (
      switch c [(46, st 294); (58, st 379); (93, st 512)] (if c <? 65 then if (48 <=? c) && (c <=? 57) then st 377 else st 0
      else if c >? 70 then if (97 <=? c) && (c <=? 102) then st 377 else st 0 else st 377))
  | 436 => Some (
      switch c [(46, st 294); (58, st 379); (93, st 512)] (if c <? 54 then if (48 <=? c) && (c <=? 53) then st 433 else st 0
      else if c >? 57 then if c >? 70 then if (97 <=? c) && (c <=? 102) then st 377 else st 0 else if c >=? 65 then st 377
      else st 0 else st 377))
  | 437 => Some (
      switch c [(46, st 294); (58, st 379); (93, st 512)] (if c <? 65 then if (48 <=? c) && (c <=? 57) then st 435 else st 0
      else if c >? 70 then if (97 <=? c) && (c <=? 102) then st 376 else st 0 else st 376))
  | 438 => Some (
      switch c [(58, st 379); (93, st 512)] (if c <? 65 then if (48 <=? c) && (c <=? 57) then st 376 else st 0
      else if c >? 70 then if (97 <=? c) && (c <=? 102) then st 376 else st 0 else st 376))
  | 439 => Some (
      switch c [(46, st 294); (58, st 374); (93, st 512)] (if c <? 65 then if (48 <=? c) && (c <=? 57) then st 440 else st 0
      else if c >? 70 then if (97 <=? c) && (c <=? 102) then st 371 else st 0 else st 371))
  | _ => None
  end.
(** Lines 9258 to 9399. *)
Definition uri_cases_65 (cs c : Z) : option label :=
  match cs with
  | 440 => Some (
      switch c [(46, st 294); (58, st 374); (93, st 512)] (if c <? 65 then if (48 <=? c) && (c <=? 57) then st 441 else st 0
      else if c >? 70 then if (97 <=? c) && (c <=? 102) then st 372 else st 0 else st 372))
  | 441 => Some (
      switch c [(46, st 294); (58, st 374); (93, st 512)] (if c <? 65 then if (48 <=? c) && (c <=? 57) then st 373 else st 0
      else if c >? 70 then if (97 <=? c) && (c <=? 102) then st 373 else st 0 else st 373))
  | 442 => Some (
      switch c [(46, st 294); (53, st 444); (58, st 374); (93, st 512)]
      (if c <? 65 then if (48 <=? c) && (c <=? 57) then st 443 else st 0
      else if c >? 70 then if (97 <=? c) && (c <=? 102) then st 371 else st 0 else st 371))
  | 443 => Some (
      switch c [(46, st 294); (58, st 374); (93, st 512)] (if c <? 65 then if (48 <=? c) && (c <=? 57) then st 372 else st 0
      else if c >? 70 then if (97 <=? c) && (c <=? 102) then st 372 else st 0 else st 372))
  | 444 => Some (
      switch c [(46, st 294); (58, st 374); (93, st 512)] (if c <? 54 then if (48 <=? c) && (c <=? 53) then st 441 else st 0
      else if c >? 57 then if c >? 70 then if (97 <=? c) && (c <=? 102) then st 372 else st 0 else if c >=? 65 then st 372
      else st 0 else st 372))
  | 445 => Some (
      switch c [(46, st 294); (58, st 374); (93, st 512)] (if c <? 65 then if (48 <=? c) && (c <=? 57) then st 443 else st 0
      else if c >? 70 then if (97 <=? c) && (c <=? 102) then st 371 else st 0 else st 371))
  | 446 => Some (
      switch c [(58, st 374); (93, st 512)] (if c <? 65 then if (48 <=? c) && (c <=? 57) then st 371 else st 0
      else if c >? 70 then if (97 <=? c) && (c <=? 102) then st 371 else st 0 else st 371))
  | 447 => Some (
      if c <? 65 then if (48 <=? c) && (c <=? 57) then st 448 else st 0
      else if c >? 70 then if (97 <=? c) && (c <=? 102) then st 448 else st 0 else st 448)
  | _ => None
  end.
(** Lines 9400 to 9527. *)
Definition uri_cases_66 (cs c : Z) : option label :=
  match cs with
  | 448 => Some (
      if c =? 46 then st 449 else if c <? 65 then if (48 <=? c) && (c <=? 57) then st 448 else st 0
      else if c >? 70 then if (97 <=? c) && (c <=? 102) then st 448 else st 0 else st 448)
  | 449 => Some (
      switch c [(33, st 450); (36, st 450); (61, st 450); (95, st 450); (126, st 450)]
      (if c <? 48 then if (38 <=? c) && (c <=? 46) then st 450 else st 0
      else if c >? 59 then if c >? 90 then if (97 <=? c) && (c <=? 122) then st 450 else st 0 else if c >=? 65 then st 450
      else st 0 else st 450))
  | 450 => Some (
      switch c [(33, st 450); (36, st 450); (61, st 450); (93, st 512); (95, st 450); (126, st 450)]
      (if c <? 48 then if (38 <=? c) && (c <=? 46) then st 450 else st 0
      else if c >? 59 then if c >? 90 then if (97 <=? c) && (c <=? 122) then st 450 else st 0 else if c >=? 65 then st 450
      else st 0 else st 450))
  | 542 => Some (
      switch c [(33, st 255); (35, tr 570); (37, st 256); (47, tr 571); (61, st 255); (63, tr 573); (64, tr 263);
      (95, st 255); (126, st 255)] (if c <? 58 then if c >? 46 then if (48 <=? c) && (c <=? 57) then st 542 else st 0
      else if c >=? 36 then st 255 else st 0 else if c >? 59 then if c >? 90 then if (97 <=? c) && (c <=? 122) then st 255
      else st 0 else if c >=? 65 then st 255 else st 0 else st 255))
  | 543 => Some (
      switch c [(33, st 520); (35, tr 559); (37, st 253); (46, st 544); (47, tr 560); (58, tr 576); (61, st 520);
      (63, tr 562); (64, tr 263); (95, st 520); (126, st 520)] (if c <? 65 then if (36 <=? c) && (c <=? 59) then st 520
      else st 0 else if c >? 90 then if (97 <=? c) && (c <=? 122) then st 520 else st 0 else st 520))
  | _ => None
  end.
Definition uri_trans_66 (n : Z) : option (list uri_action * dest) :=
  match n with
  | 577 => Some ([MarkP], Goto 542)
  | 551 => Some ([MarkP], Goto 543)
  | _ => None
  end.
(** Lines 9528 to 9671. *)
Definition uri_cases_67 (cs c : Z) : option label :=
  match cs with
  | 544 => Some (
      switch c [(2, st 233); (33, st 520); (35, tr 559); (37, st 253); (47, tr 560); (48, st 545); (49, st 553);
      (50, st 555); (58, tr 576); (59, st 520); (61, st 520); (63, tr 562); (64, tr 263); (95, st 520); (126, st 520)]
      (if c <? 51 then if (36 <=? c) && (c <=? 46) then st 520 else st 0
      else if c >? 57 then if c >? 90 then if (97 <=? c) && (c <=? 122) then st 520 else st 0 else if c >=? 65 then st 520
      else st 0 else st 554))
  | 545 => Some (
      switch c [(33, st 520); (35, tr 559); (37, st 253); (46, st 546); (47, tr 560); (58, tr 576); (61, st 520);
      (63, tr 562); (64, tr 263); (95, st 520); (126, st 520)] (if c <? 65 then if (36 <=? c) && (c <=? 59) then st 520
      else st 0 else if c >? 90 then if (97 <=? c) && (c <=? 122) then st 520 else st 0 else st 520))
  | 546 => Some (
      switch c [(2, st 237); (33, st 520); (35, tr 559); (37, st 253); (47, tr 560); (48, st 547); (49, st 549);
      (50, st 551); (58, tr 576); (59, st 520); (61, st 520); (63, tr 562); (64, tr 263); (95, st 520); (126, st 520)]
      (if c <? 51 then if (36 <=? c) && (c <=? 46) then st 520 else st 0
      else if c >? 57 then if c >? 90 then if (97 <=? c) && (c <=? 122) then st 520 else st 0 else if c >=? 65 then st 520
      else st 0 else st 550))
  | 547 => Some (
      switch c [(33, st 520); (35, tr 559); (37, st 253); (46, st 548); (47, tr 560); (58, tr 576); (61, st 520);
      (63, tr 562); (64, tr 263); (95, st 520); (126, st 520)] (if c <? 65 then if (36 <=? c) && (c <=? 59) then st 520
      else st 0 else if c >? 90 then if (97 <=? c) && (c <=? 122) then st 520 else st 0 else st 520))
  | 548 => Some (
      switch c [(2, st 241); (33, st 520); (35, tr 559); (37, st 253); (47, tr 560); (58, tr 576); (61, st 520);
      (63, tr 562); (64, tr 263); (95, st 520); (126, st 520)] (if c <? 65 then if (36 <=? c) && (c <=? 59) then st 520
      else st 0 else if c >? 90 then if (97 <=? c) && (c <=? 122) then st 520 else st 0 else st 520))
  | _ => None
  end.
(** Lines 9672 to 9821. *)
Definition uri_cases_68 (cs c : Z) : option label :=
  match cs with
  | 549 => Some (
      switch c [(33, st 520); (35, tr 559); (37, st 253); (46, st 548); (47, tr 560); (58, tr 576); (59, st 520);
      (61, st 520); (63, tr 562); (64, tr 263); (95, st 520); (126, st 520)]
      (if c <? 48 then if (36 <=? c) && (c <=? 45) then st 520 else st 0
      else if c >? 57 then if c >? 90 then if (97 <=? c) && (c <=? 122) then st 520 else st 0 else if c >=? 65 then st 520
      else st 0 else st 550))
  | 550 => Some (
      switch c [(33, st 520); (35, tr 559); (37, st 253); (46, st 548); (47, tr 560); (58, tr 576); (59, st 520);
      (61, st 520); (63, tr 562); (64, tr 263); (95, st 520); (126, st 520)]
      (if c <? 48 then if (36 <=? c) && (c <=? 45) then st 520 else st 0
      else if c >? 57 then if c >? 90 then if (97 <=? c) && (c <=? 122) then st 520 else st 0 else if c >=? 65 then st 520
      else st 0 else st 547))
  | 551 => Some (
      switch c [(33, st 520); (35, tr 559); (37, st 253); (46, st 548); (47, tr 560); (53, st 552); (58, tr 576);
      (59, st 520); (61, st 520); (63, tr 562); (64, tr 263); (95, st 520); (126, st 520)]
      (if c <? 48 then if (36 <=? c) && (c <=? 45) then st 520 else st 0
      else if c >? 57 then if c >? 90 then if (97 <=? c) && (c <=? 122) then st 520 else st 0 else if c >=? 65 then st 520
      else st 0 else st 547))
  | 552 => Some (
      switch c [(33, st 520); (35, tr 559); (37, st 253); (46, st 548); (47, tr 560); (58, tr 576); (61, st 520);
      (63, tr 562); (64, tr 263); (95, st 520); (126, st 520)]
      (if c <? 54 then if c >? 45 then if (48 <=? c) && (c <=? 53) then st 547 else st 0 else if c >=? 36 then st 520
      else st 0 else if c >? 59 then if c >? 90 then if (97 <=? c) && (c <=? 122) then st 520 else st 0
      else if c >=? 65 then st 520 else st 0 else st 520))
  | 553 => Some (
      switch c [(33, st 520); (35, tr 559); (37, st 253); (46, st 546); (47, tr 560); (58, tr 576); (59, st 520);
      (61, st 520); (63, tr 562); (64, tr 263); (95, st 520); (126, st 520)]
      (if c <? 48 then if (36 <=? c) && (c <=? 45) then st 520 else st 0
      else if c >? 57 then if c >? 90 then if (97 <=? c) && (c <=? 122) then st 520 else st 0 else if c >=? 65 then st 520
      else st 0 else st 554))
  | _ => None
  end.
(** Lines 9822 to 9956. *)
Definition uri_cases_69 (cs c : Z) : option label :=
  match cs with
  | 554 => Some (
      switch c [(33, st 520); (35, tr 559); (37, st 253); (46, st 546); (47, tr 560); (58, tr 576); (59, st 520);
      (61, st 520); (63, tr 562); (64, tr 263); (95, st 520); (126, st 520)]
      (if c <? 48 then if (36 <=? c) && (c <=? 45) then st 520 else st 0
      else if c >? 57 then if c >? 90 then if (97 <=? c) && (c <=? 122) then st 520 else st 0 else if c >=? 65 then st 520
      else st 0 else st 545))
  | 555 => Some (
      switch c [(33, st 520); (35, tr 559); (37, st 253); (46, st 546); (47, tr 560); (53, st 556); (58, tr 576);
      (59, st 520); (61, st 520); (63, tr 562); (64, tr 263); (95, st 520); (126, st 520)]
      (if c <? 48 then if (36 <=? c) && (c <=? 45) then st 520 else st 0
      else if c >? 57 then if c >? 90 then if (97 <=? c) && (c <=? 122) then st 520 else st 0 else if c >=? 65 then st 520
      else st 0 else st 545))
  | 556 => Some (
      switch c [(33, st 520); (35, tr 559); (37, st 253); (46, st 546); (47, tr 560); (58, tr 576); (61, st 520);
      (63, tr 562); (64, tr 263); (95, st 520); (126, st 520)]
      (if c <? 54 then if c >? 45 then if (48 <=? c) && (c <=? 53) then st 545 else st 0 else if c >=? 36 then st 520
      else st 0 else if c >? 59 then if c >? 90 then if (97 <=? c) && (c <=? 122) then st 520 else st 0
      else if c >=? 65 then st 520 else st 0 else st 520))
  | 557 => Some (
      switch c [(33, st 520); (35, tr 559); (37, st 253); (46, st 544); (47, tr 560); (58, tr 576); (59, st 520);
      (61, st 520); (63, tr 562); (64, tr 263); (95, st 520); (126, st 520)]
      (if c <? 48 then if (36 <=? c) && (c <=? 45) then st 520 else st 0
      else if c >? 57 then if c >? 90 then if (97 <=? c) && (c <=? 122) then st 520 else st 0 else if c >=? 65 then st 520
      else st 0 else st 558))
  | _ => None
  end.
Definition uri_trans_69 (n : Z) : option (list uri_action * dest) :=
  match n with
  | 552 => Some ([MarkP], Goto 557)
  | 554 => Some ([MarkP], Goto 558)
  | _ => None
  end.
(** Lines 9957 to 10053. *)
Definition uri_cases_70 (cs c : Z) : option label :=
  match cs with
  | 558 => Some (
      switch c [(33, st 520); (35, tr 559); (37, st 253); (46, st 544); (47, tr 560); (58, tr 576); (59, st 520);
      (61, st 520); (63, tr 562); (64, tr 263); (95, st 520); (126, st 520)]
      (if c <? 48 then if (36 <=? c) && (c <=? 45) then st 520 else st 0
      else if c >? 57 then if c >? 90 then if (97 <=? c) && (c <=? 122) then st 520 else st 0 else if c >=? 65 then st 520
      else st 0 else st 543))
  | 559 => Some (
      switch c [(33, st 520); (35, tr 559); (37, st 253); (46, st 544); (47, tr 560); (53, st 560); (58, tr 576);
      (59, st 520); (61, st 520); (63, tr 562); (64, tr 263); (95, st 520); (126, st 520)]
      (if c <? 48 then if (36 <=? c) && (c <=? 45) then st 520 else st 0
      else if c >? 57 then if c >? 90 then if (97 <=? c) && (c <=? 122) then st 520 else st 0 else if c >=? 65 then st 520
      else st 0 else st 543))
  | 560 => Some (
      switch c [(33, st 520); (35, tr 559); (37, st 253); (46, st 544); (47, tr 560); (58, tr 576); (61, st 520);
      (63, tr 562); (64, tr 263); (95, st 520); (126, st 520)]
      (if c <? 54 then if c >? 45 then if (48 <=? c) && (c <=? 53) then st 543 else st 0 else if c >=? 36 then st 520
      else st 0 else if c >? 59 then if c >? 90 then if (97 <=? c) && (c <=? 122) then st 520 else st 0
      else if c >=? 65 then st 520 else st 0 else st 520))
  | _ => None
  end.
Definition uri_trans_70 (n : Z) : option (list uri_action * dest) :=
  match n with
  | 553 => Some ([MarkP], Goto 559)
  | _ => None
  end.
(** [switch( cs )]: the labels. *)
Definition uri_case (cs c : Z) : option label :=
  first_some (λ f, f cs c) [
    uri_cases_1; uri_cases_2; uri_cases_3; uri_cases_4; uri_cases_5; uri_cases_6; uri_cases_7; uri_cases_8;
    uri_cases_9; uri_cases_10; uri_cases_11; uri_cases_12; uri_cases_13; uri_cases_14; uri_cases_15;
    uri_cases_16; uri_cases_17; uri_cases_18; uri_cases_19; uri_cases_20; uri_cases_21; uri_cases_22;
    uri_cases_23; uri_cases_24; uri_cases_25; uri_cases_26; uri_cases_27; uri_cases_28; uri_cases_29;
    uri_cases_30; uri_cases_31; uri_cases_32; uri_cases_33; uri_cases_34; uri_cases_35; uri_cases_36;
    uri_cases_37; uri_cases_38; uri_cases_39; uri_cases_40; uri_cases_41; uri_cases_42; uri_cases_43;
    uri_cases_44; uri_cases_45; uri_cases_46; uri_cases_47; uri_cases_48; uri_cases_49; uri_cases_50;
    uri_cases_51; uri_cases_52; uri_cases_53; uri_cases_54; uri_cases_55; uri_cases_56; uri_cases_57;
    uri_cases_58; uri_cases_59; uri_cases_60; uri_cases_61; uri_cases_62; uri_cases_63; uri_cases_64;
    uri_cases_65; uri_cases_66; uri_cases_67; uri_cases_68; uri_cases_69; uri_cases_70].
Definition uri_trans (n : Z) : list uri_action * dest :=
  default ([], Goto 0) (first_some (λ f, f n) [
    uri_trans_1; uri_trans_2; uri_trans_3; uri_trans_4; uri_trans_5; uri_trans_6; uri_trans_7; uri_trans_8;
    uri_trans_9; uri_trans_12; uri_trans_13; uri_trans_33; uri_trans_36; uri_trans_37; uri_trans_38;
    uri_trans_39; uri_trans_40; uri_trans_41; uri_trans_42; uri_trans_43; uri_trans_46; uri_trans_66;
    uri_trans_69; uri_trans_70]).
Definition uri : Machine uri_action := {| case := uri_case; trans := uri_trans; first_test_eof := 452 |}.
