(* ===== verification/Uri.v ===== *)
(** * Uri ([webserve/uri.h], [uri.rl.cc]): URIs

    [Uri::Create] over the tables of UriTable, and the text of a URI. *)
From S2P Require Import Prelude Text Ragel UriTable.
Open Scope string_scope.
Open Scope Z_scope.

Record Uri := mkUri {
  u_scheme : string; u_userinfo : string; u_host : string; u_path : string; u_query : string; u_fragment : string; u_port : Z
}.
(** [Uri::Uri] *)
Definition Uri_new : Uri := mkUri "" "" "" "" "" "" 0.
Definition setScheme (v : string) (u : Uri) : Uri := mkUri v (u_userinfo u) (u_host u) (u_path u) (u_query u) (u_fragment u) (u_port u).
Definition setUserinfo (v : string) (u : Uri) : Uri := mkUri (u_scheme u) v (u_host u) (u_path u) (u_query u) (u_fragment u) (u_port u).
Definition setHost (v : string) (u : Uri) : Uri := mkUri (u_scheme u) (u_userinfo u) v (u_path u) (u_query u) (u_fragment u) (u_port u).
Definition setPath (v : string) (u : Uri) : Uri := mkUri (u_scheme u) (u_userinfo u) (u_host u) v (u_query u) (u_fragment u) (u_port u).
Definition setQuery (v : string) (u : Uri) : Uri := mkUri (u_scheme u) (u_userinfo u) (u_host u) (u_path u) v (u_fragment u) (u_port u).
Definition setFragment (v : string) (u : Uri) : Uri := mkUri (u_scheme u) (u_userinfo u) (u_host u) (u_path u) (u_query u) v (u_port u).
Definition setPort (v : Z) (u : Uri) : Uri := mkUri (u_scheme u) (u_userinfo u) (u_host u) (u_path u) (u_query u) (u_fragment u) v.

(** ** Parsing *)
(** The locals of [Create]: [mark] is an offset in the text, or null. *)
Definition create_state : Type := option Z * Uri.
Definition with_mark {A} (f : option Z → M create_state A) : M create_state A := λ s, f s.1 s.
Definition set_mark (m : option Z) : M create_state () := modify (λ s, (m, s.2)).
Definition on_uri (f : Uri → Uri) : M create_state () := modify (λ s, (s.1, f s.2)).

Section Create.
Context (uristr : string).
(** [std::string(mark, p - mark)]; from a null pointer it throws. *)
Definition marked_text (mark : option Z) (p : Z) : M create_state string :=
  match mark with
  | Some m => std_string (str_drop (Z.to_nat m) uristr) (u64 (p - m))
  | None => raise ExnLogicError
  end.
Definition save (f : string → Uri → Uri) (p : Z) : M create_state () :=
  with_mark (λ mark, s ← marked_text mark p; on_uri (f s)).
Definition uri_act (a : uri_action) (p : Z) : M create_state () :=
  match a with
  | MarkP => set_mark (Some p)
  | SaveScheme => save setScheme p ;; set_mark None
  | SaveUserinfo => with_mark (λ mark, if bool_decide (mark = None) then mret () else save setUserinfo p) ;; set_mark None
  | SaveHost => with_mark (λ mark, if bool_decide (mark = None) then mret () else save setHost p)
  | SavePort =>
      with_mark (λ mark,
        if bool_decide (mark = Some p) then mret () else
        match mark with
        | Some m => on_uri (setPort (atoi (str_drop (Z.to_nat m) uristr)))
        | None => undef NullDeref
        end) ;; set_mark None
  | SavePath => save setPath p ;; set_mark None
  | SaveQuery => save setQuery p ;; set_mark None
  | SaveFragment => save setFragment p ;; set_mark None
  end.
(** The actions at the end of the text, by the state it ends in. *)
Definition uri_eof_actions (cs : Z) : list uri_action :=
  match cs with
  | 462 | 489 => [SavePort]
  | 460 | 463 | 464 | 465 | 466 | 467 | 470 | 471 | 472 | 473 | 474 | 475 | 476 | 477 | 478 | 479 | 480 | 481 | 482
  | 483 | 484 | 485 | 486 | 487 | 488 | 490 | 491 | 492 | 493 | 494 | 495 | 496 | 497 | 498 | 499 | 500 | 501 | 502
  | 503 | 504 | 505 | 506 | 507 => [SaveHost]
  | 513 => [SavePath]
  | 457 => [SaveQuery]
  | 454 => [SaveFragment]
  | 456 => [MarkP; SaveQuery]
  | 453 => [MarkP; SaveFragment]
  | 461 | 468 => [MarkP; SavePort]
  | 459 | 469 => [MarkP; SaveHost]
  | 514 | 521 => [MarkP; SavePort; SavePath]
  | 511 | 522 => [MarkP; SaveHost; SavePath]
  | 515 | 542 => [SavePort; MarkP; SavePath]
  | 512 | 516 | 517 | 518 | 519 | 520 | 523 | 524 | 525 | 526 | 527 | 528 | 529 | 530 | 531 | 532 | 533 | 534 | 535
  | 536 | 537 | 538 | 539 | 540 | 541 | 543 | 544 | 545 | 546 | 547 | 548 | 549 | 550 | 551 | 552 | 553 | 554 | 555
  | 556 | 557 | 558 | 559 | 560 => [SaveHost; MarkP; SavePath]
  | _ => []
  end.
(** [Uri::Create]; null where the text is not a URI. *)
Definition parse_uri : M create_state (option Uri) :=
  '(cs, p) ← run (Machine0 := uri) uri_act 451 0 uristr;
  (if p =? str_len uristr then do_actions uri_act (uri_eof_actions cs) p else mret ()) ;;
  s ← Prelude.get;
  mret (if cs =? 0 then None else if cs >=? 451 then Some s.2 else None).
Definition Create : result create_state (option Uri) := parse_uri (None, Uri_new).
End Create.

(** ** Printing *)
Definition isDefaultPort (u : Uri) : bool :=
  if u_port u =? 0 then true
  else if String.eqb (u_scheme u) "http" || String.eqb (u_scheme u) "ws" then u_port u =? 80
  else if String.eqb (u_scheme u) "https" || String.eqb (u_scheme u) "wss" then u_port u =? 443
  else false.
Definition getPath (u : Uri) : string := if is_empty (u_path u) then "/" else u_path u.
Definition getPort (u : Uri) : Z :=
  if negb (u_port u =? 0) then u_port u
  else if String.eqb (u_scheme u) "http" || String.eqb (u_scheme u) "ws" then 80
  else if String.eqb (u_scheme u) "https" || String.eqb (u_scheme u) "wss" then 443
  else u_port u.
(** [Uri::dump] and [Uri::toString] *)
Definition uri_toString (u : Uri) : string :=
  u_scheme u ++ "://" ++ u_userinfo u ++ (if is_empty (u_userinfo u) then "" else "@") ++ u_host u ++
  (if isDefaultPort u then "" else ":" ++ dec (u_port u)) ++ getPath u ++
  (if is_empty (u_query u) then "" else "?") ++ u_query u ++ (if is_empty (u_fragment u) then "" else "#") ++ u_fragment u.
(** [Uri::createAddress]: [LookupAnyIPAddress] is given; the port of the URI is set. *)
Definition createAddress {A} (LookupAnyIPAddress : string → option A) (set_port : Z → A → A) (u : Uri) : option A :=
  set_port (getPort u) <$> LookupAnyIPAddress (u_host u).

(** What [Create] does with a plain URI, a reference without an authority, an empty
    port, and a port before the user name. *)
Definition created (r : result create_state (option Uri)) : option (option Uri) := match r with Done _ u => Some u | _ => None end.
Example Create_plain : created (Create "http://joe@h:8080/p?q#f") = Some (Some (mkUri "http" "joe" "h" "/p" "q" "f" 8080)).
Proof. vm_compute. reflexivity. Qed.
Example Create_path_lost : created (Create "/a/b?x") = Some (Some (mkUri "" "" "" "" "x" "" 0)) ∧
  created (Create "mailto:joe") = Some (Some (mkUri "mailto" "" "" "" "" "" 0)).
Proof. split; vm_compute; reflexivity. Qed.
Example Create_empty_port : Create "http://h:" = Raise (None, mkUri "http" "" "h" "" "" "" 0) ExnLogicError.
Proof. vm_compute. reflexivity. Qed.
Example Create_user_port : created (Create "http://a:80@b/c") = Some (Some (mkUri "http" "80" "b" "/c" "" "" 0)).
Proof. vm_compute. reflexivity. Qed.
Example Create_port_overflow : created (Create "http://h:99999999999/") = Some (Some (mkUri "http" "" "h" "/" "" "" 1215752191)).
Proof. vm_compute. reflexivity. Qed.
