(* ===== verification/UriFacts.v ===== *)
(** * UriFacts: what [uri_toString] prints, [Create] reads

    The pieces of a URI with an authority, one by one, over the generated machine. *)
From S2P Require Import Prelude Text HttpGrammar Ragel UriTable Uri.
Open Scope string_scope.
Open Scope Z_scope.

(** ** The machine follows the grammar *)
#[local] Existing Instance uri.
Definition above_scheme (first : bool) := if first then [] else [508].
(** User information or host behind the two slashes; host behind the at sign. *)
Definition above_user q := match q with
  | Root => [] | Hex1 => [253] | Hex2 => [254]
  | Text => 520 :: (Z.of_nat <$> seq 543 18) end.
Definition above_host q := match q with
  | Root => [] | Hex1 => [258] | Hex2 => [259]
  | Text => Z.of_nat <$> seq 523 19 end.
Definition above_port (p : Z) (_ : ()) := [p].
Definition above_path q := match q with Root => [] | Text => [513] | Hex1 => [243] | Hex2 => [244] end.
Definition above_query q := match q with Root => [] | Text => [457] | Hex1 => [7] | Hex2 => [8] end.
Definition above_fragment q := match q with Root => [] | Text => [454] | Hex1 => [1] | Hex2 => [2] end.

Lemma uri_scheme_simulates q : simulates scheme_spec above_scheme q = true.
Proof. destruct q; vm_compute; reflexivity. Qed.
Lemma uri_user_simulates q : simulates host_spec above_user q = true.
Proof. destruct q; vm_compute; reflexivity. Qed.
Lemma uri_host_simulates q : simulates host_spec above_host q = true.
Proof. destruct q; vm_compute; reflexivity. Qed.
Lemma uri_port_simulates p q : p = 515 ∨ p = 542 → simulates digits_spec (above_port p) q = true.
Proof. by intros [-> | ->]; vm_compute. Qed.
Lemma uri_path_simulates q : simulates path_spec above_path q = true.
Proof. destruct q; vm_compute; reflexivity. Qed.
Lemma uri_query_simulates q : simulates query_spec above_query q = true.
Proof. destruct q; vm_compute; reflexivity. Qed.
Lemma uri_fragment_simulates q : simulates query_spec above_fragment q = true.
Proof. destruct q; vm_compute; reflexivity. Qed.
Lemma uri_scheme_enters : enters scheme_spec above_scheme [MarkP] 451 true = true.
Proof. vm_compute; reflexivity. Qed.
Lemma uri_user_enters : enters host_spec above_user [MarkP] 511 Text = true.
Proof. vm_compute; reflexivity. Qed.
Lemma uri_host_enters : enters host_spec above_host [MarkP] 522 Text = true.
Proof. vm_compute; reflexivity. Qed.
Lemma uri_port_enters p : p = 514 ∨ p = 521 → enters digits_spec (above_port (if p =? 514 then 515 else 542)) [MarkP] p () = true.
Proof. by intros [-> | ->]; vm_compute. Qed.
Lemma uri_query_enters : enters query_spec above_query [MarkP] 456 Text = true.
Proof. vm_compute; reflexivity. Qed.
Lemma uri_fragment_enters : enters query_spec above_fragment [MarkP] 453 Text = true.
Proof. vm_compute; reflexivity. Qed.
Lemma user_exits : exits (above_user Text) 64 [SaveUserinfo] 522 = true ∧ exits (above_user Text) 58 [SaveHost] 521 = true ∧
  exits (above_user Text) 47 [SaveHost; MarkP] 513 = true.
Proof. repeat split; vm_compute; reflexivity. Qed.
Lemma host_exits : exits (above_host Text) 58 [SaveHost] 514 = true ∧ exits (above_host Text) 47 [SaveHost; MarkP] 513 = true.
Proof. repeat split; vm_compute; reflexivity. Qed.

(** ** The pieces *)
#[local] Notation parse := (Ragel.parse uri_act).
(** [std::string(mark, p - mark)] of a text between two marks. *)
Lemma marked_text_piece pre w s σ : fits (pre ++ w ++ s) → marked_text ((pre ++ w) ++ s) (Some (str_len pre)) (str_len (pre ++ w)) σ = Done σ w.
Proof.
  intros Hf. pose proof Hf as Hb. unfold fits in Hb. rewrite !str_len_app in Hb.
  pose proof (str_len_nonneg pre). pose proof (str_len_nonneg w). pose proof (str_len_nonneg s).
  cbn [marked_text]. rewrite str_len_app, u64_small by lia. unfold str_len at 1. rewrite Nat2Z.id, str_app_assoc, str_drop_app_exact.
  replace (str_len pre + str_len w - str_len pre) with (str_len w) by lia. apply std_string_piece, (fits_app_r pre), Hf.
Qed.
Lemma save_piece f pre w s u : fits (pre ++ w ++ s) →
  save ((pre ++ w) ++ s) f (str_len (pre ++ w)) (Some (str_len pre), u) = Done (Some (str_len pre), f w u) ().
Proof. intros Hf. unfold save, with_mark. cbn [fst]. by rewrite (bind_done _ _ _ _ _ (marked_text_piece pre w s _ Hf)). Qed.
Lemma do_marked f pre w s u l : fits (pre ++ w ++ s) → ∀ a, a = SaveScheme ∧ f = setScheme ∨ a = SaveUserinfo ∧ f = setUserinfo ∨
    a = SavePath ∧ f = setPath ∨ a = SaveQuery ∧ f = setQuery ∨ a = SaveFragment ∧ f = setFragment →
  do_actions (uri_act ((pre ++ w) ++ s)) (a :: l) (str_len (pre ++ w)) (Some (str_len pre), u)
    = do_actions (uri_act ((pre ++ w) ++ s)) l (str_len (pre ++ w)) (None, f w u).
Proof.
  intros Hf a Ha. apply do_action. pose proof (save_piece f pre w s u Hf) as Hs.
  by destruct Ha as [[-> ->]|[[-> ->]|[[-> ->]|[[-> ->]|[-> ->]]]]]; cbn [uri_act];
    (etransitivity; [eapply bind_done; exact Hs|]).
Qed.
Lemma do_host pre w s u l : fits (pre ++ w ++ s) →
  do_actions (uri_act ((pre ++ w) ++ s)) (SaveHost :: l) (str_len (pre ++ w)) (Some (str_len pre), u)
    = do_actions (uri_act ((pre ++ w) ++ s)) l (str_len (pre ++ w)) (Some (str_len pre), setHost w u).
Proof.
  intros Hf. apply do_action. cbn [uri_act]; unfold with_mark. cbn [fst]. rewrite bool_decide_eq_false_2 by done. by apply save_piece.
Qed.

(** A token of a grammar, marked at its first character, up to where [exits] leads. *)
Lemma parse_marked {Q} (spec : Q → Z → option Q) above cs0 z0 zf pre w c s acts n m u σ :
  (∀ z, simulates spec above z = true) → enters spec above [MarkP] cs0 z0 = true → w ≠ "" → accepts spec z0 w = Some zf →
  exits (above zf) (char_value c) acts n = true →
  do_actions (uri_act ((pre ++ w) ++ String c s)) acts (str_len (pre ++ w)) (Some (str_len pre), u) = Done σ () →
  parse pre cs0 (w ++ String c s) (m, u) = parse (pre ++ w ++ String c "") n s σ.
Proof.
  intros Hsim Hent Hne Ha Hx Hd.
  destruct (parse_token uri_act spec above MarkP (λ z, (Some z, u)) cs0 z0 zf pre w (String c s) (m, u) Hsim Hent (λ _ _, eq_refl) Hne Ha)
    as (cs' & Hin & ->).
  destruct (exits_ok _ _ _ _ _ Hx Hin) as [Hn He]. rewrite (parse_edge uri_act _ _ _ _ _ _ _ _ He Hn Hd). by rewrite str_app_assoc.
Qed.
(** At the end of the text the machine rests. *)
Lemma parse_marked_end {Q} (spec : Q → Z → option Q) above cs0 z0 zf pre w m u f :
  (∀ z, simulates spec above z = true) → enters spec above [MarkP] cs0 z0 = true → w ≠ "" → accepts spec z0 w = Some zf → above zf = [f] →
  parse pre cs0 w (m, u) = Done (Some (str_len pre), u) (f, str_len (pre ++ w)).
Proof.
  intros Hsim Hent Hne Ha Hf. rewrite <-(str_app_nil_r w) at 1.
  destruct (parse_token uri_act spec above MarkP (λ z, (Some z, u)) cs0 z0 zf pre w "" (m, u) Hsim Hent (λ _ _, eq_refl) Hne Ha)
    as (cs' & Hin & ->).
  rewrite Hf in Hin. destruct Hin as [<-|[]]. reflexivity.
Qed.

(** What the predicates of the grammar say. *)
Lemma host_ok_accepts w : host_ok w = true → w ≠ "" ∧ accepts host_spec Text w = Some Text.
Proof.
  unfold host_ok. intros [Hne Ha]%andb_true_iff. split; [by intros ->|]. destruct (accepts host_spec Text w) as [[]|]; done.
Qed.
Lemma query_ok_accepts w : query_ok w = true → accepts query_spec Text w = Some Text.
Proof. unfold query_ok. destruct (accepts query_spec Text w) as [[]|]; done. Qed.
Lemma abs_path_accepts w : abs_path_ok w = true → ∃ v, w = String "/" v ∧ accepts path_spec Text v = Some Text.
Proof.
  unfold abs_path_ok. destruct w as [|c v]; [done|]. destruct c as [[] [] [] [] [] [] [] []]; try done.
  intros H. exists v. split; [done|]. cbn [accepts] in H. change (path_spec Text (char_value "/")) with (Some Text) in H.
  cbn in H. destruct (accepts path_spec Text v) as [[]|]; done.
Qed.
Lemma scheme_ok_accepts w : scheme_ok w = true → w ≠ "" ∧ accepts scheme_spec true w = Some false.
Proof.
  unfold scheme_ok. intros [Hne Ha]%andb_true_iff. split; [by intros ->|].
  assert (Hg : ∀ v b z, accepts scheme_spec b v = Some z → v ≠ "" ∨ b = false → z = false).
  { induction v as [|c v IH]; cbn; intros b z; [intros [= ->] [|]; done|]. unfold scheme_spec at 1. destruct (_ || _); [|done].
    intros H _. eapply IH; [exact H|by right]. }
  destruct (accepts scheme_spec true w) as [z|] eqn:E; [|done]. f_equal. eapply Hg; [exact E|]. left. by intros ->.
Qed.


Lemma parse_scheme w s u : scheme_ok w = true → fits (w ++ "://" ++ s) →
  parse "" 451 (w ++ "://" ++ s) (None, u) = parse (w ++ "://") 511 s (None, setScheme w u).
Proof.
  intros [Hne Ha]%scheme_ok_accepts Hf. change ("://" ++ s) with (String ":" ("//" ++ s)) in *.
  rewrite (parse_marked scheme_spec above_scheme 451 true false "" w ":" ("//" ++ s) [SaveScheme] 509 None u (None, setScheme w u)
    uri_scheme_simulates uri_scheme_enters Hne Ha); [|by vm_compute|by rewrite (do_marked setScheme "" w) by tauto].
  rewrite (parse_quiet uri_act _ 509 "//" 511) by (apply quiet_to_ok; by vm_compute). cbn [append]. by rewrite str_app_assoc.
Qed.
Lemma parse_userinfo pre w s u : host_ok w = true → fits (pre ++ w ++ "@" ++ s) →
  parse pre 511 (w ++ "@" ++ s) (None, u) = parse (pre ++ w ++ "@") 522 s (None, setUserinfo w u).
Proof.
  intros [Hne Ha]%host_ok_accepts Hf. cbn [append] in *.
  refine (parse_marked host_spec above_user 511 Text Text pre w "@" s [SaveUserinfo] 522 _ _ _ uri_user_simulates uri_user_enters Hne Ha _ _).
  - apply user_exits.
  - by rewrite (do_marked setUserinfo) by tauto.
Qed.
(** The host, up to the path or to the port. *)
Lemma parse_host pre w s u m cs0 : host_ok w = true → cs0 = 511 ∨ cs0 = 522 → fits (pre ++ w ++ "/" ++ s) →
  parse pre cs0 (w ++ "/" ++ s) (m, u) = parse (pre ++ w ++ "/") 513 s (Some (str_len (pre ++ w)), setHost w u).
Proof.
  intros [Hne Ha]%host_ok_accepts Hcs Hf. cbn [append] in *.
  assert (Hd : do_actions (uri_act ((pre ++ w) ++ String "/" s)) [SaveHost; MarkP] (str_len (pre ++ w)) (Some (str_len pre), u)
    = Done (Some (str_len (pre ++ w)), setHost w u) ()) by by rewrite do_host.
  destruct Hcs as [-> | ->].
  - refine (parse_marked host_spec above_user 511 Text Text pre w "/" s _ _ _ _ _ uri_user_simulates uri_user_enters Hne Ha _ Hd). apply user_exits.
  - refine (parse_marked host_spec above_host 522 Text Text pre w "/" s _ _ _ _ _ uri_host_simulates uri_host_enters Hne Ha _ Hd). apply host_exits.
Qed.
Lemma parse_host_port pre w n s u m cs0 : host_ok w = true → cs0 = 511 ∨ cs0 = 522 → 0 ≤ n < 2 ^ 31 → fits (pre ++ w ++ ":" ++ dec n ++ "/" ++ s) →
  parse pre cs0 (w ++ ":" ++ dec n ++ "/" ++ s) (m, u)
    = parse (pre ++ w ++ ":" ++ dec n ++ "/") 513 s (Some (str_len (pre ++ w ++ ":" ++ dec n)), setPort n (setHost w u)).
Proof.
  intros [Hne Ha]%host_ok_accepts Hcs Hn Hf. set (t := dec n ++ "/" ++ s) in *. cbn [append] in Hf |- *.
  set (n1 := if cs0 =? 511 then 521 else 514). set (n2 := if n1 =? 514 then 515 else 542).
  assert (Hh : parse pre cs0 (w ++ String ":" t) (m, u) = parse (pre ++ w ++ ":") n1 t (Some (str_len pre), setHost w u)).
  { assert (Hd : do_actions (uri_act ((pre ++ w) ++ String ":" t)) [SaveHost] (str_len (pre ++ w)) (Some (str_len pre), u)
      = Done (Some (str_len pre), setHost w u) ()) by by rewrite do_host.
    destruct Hcs as [-> | ->].
    - refine (parse_marked host_spec above_user 511 Text Text pre w ":" t _ _ _ _ _ uri_user_simulates uri_user_enters Hne Ha _ Hd). apply user_exits.
    - refine (parse_marked host_spec above_host 522 Text Text pre w ":" t _ _ _ _ _ uri_host_simulates uri_host_enters Hne Ha _ Hd). apply host_exits. }
  rewrite Hh. unfold t. set (P := pre ++ w ++ ":"). cbn [append].
  rewrite (parse_marked digits_spec (above_port n2) n1 () () P (dec n) "/" s [SavePort; MarkP] 513 _ _ (Some (str_len (P ++ dec n)), setPort n (setHost w u))).
  - unfold P. by rewrite !str_app_assoc.
  - intros []. apply uri_port_simulates. subst n2 n1. destruct Hcs as [-> | ->]; vm_compute; auto.
  - apply uri_port_enters. subst n1. destruct Hcs as [-> | ->]; vm_compute; auto.
  - apply dec_nonempty.
  - apply accepts_digits, dec_digits. lia.
  - subst n2 n1. destruct Hcs as [-> | ->]; vm_compute; reflexivity.
  - rewrite (do_action uri_act _ _ _ _ _ (None, setPort n (setHost w u))); [done|]. cbn [uri_act].
    etransitivity; [eapply (bind_done _ _ _ (Some (str_len P), setPort n (setHost w u)))|done]. unfold with_mark. cbn [fst]. rewrite bool_decide_eq_false_2.
    + rewrite str_app_assoc. unfold str_len at 1. rewrite Nat2Z.id, str_drop_app_exact. cbn [append]. by rewrite atoi_dec.
    + intros [= H]. rewrite str_len_app in H. pose proof (dec_nonempty n) as Hz. apply Hz, str_len_0. lia.
Qed.
(** ** Behind the host *)
(** The path, its slash already consumed and marked. *)
Lemma parse_path_text pre v s u : accepts path_spec Text v = Some Text →
  parse (pre ++ "/") 513 (v ++ s) (Some (str_len pre), u) = parse (pre ++ String "/" v) 513 s (Some (str_len pre), u).
Proof.
  intros Ha. destruct (simulates_quiet path_spec above_path uri_path_simulates v Text Text 513 ltac:(by left) Ha) as (cs' & [<-|[]] & Hq).
  rewrite (parse_quiet uri_act _ _ _ _ _ _ Hq). by rewrite str_app_assoc.
Qed.
Lemma parse_path_to pre v c n s u : accepts path_spec Text v = Some Text → In (c, n) [("?"%char, 456); ("#"%char, 453)] →
  fits (pre ++ String "/" v ++ String c s) →
  parse (pre ++ "/") 513 (v ++ String c s) (Some (str_len pre), u) = parse (pre ++ String "/" v ++ String c "") n s (None, setPath (String "/" v) u).
Proof.
  intros Ha Hin Hf. rewrite (parse_path_text _ _ _ _ Ha).
  rewrite (parse_edge uri_act _ _ _ _ [SavePath] n _ (None, setPath (String "/" v) u)).
  - by rewrite str_app_assoc.
  - by destruct Hin as [[= <- <-]|[[= <- <-]|[]]]; vm_compute.
  - by destruct Hin as [[= <- <-]|[[= <- <-]|[]]].
  - by rewrite (do_marked setPath) by tauto.
Qed.
Lemma parse_query_to pre w s u : query_ok w = true → w ≠ "" → fits (pre ++ w ++ "#" ++ s) →
  parse pre 456 (w ++ "#" ++ s) (None, u) = parse (pre ++ w ++ "#") 453 s (None, setQuery w u).
Proof.
  intros Ha%query_ok_accepts Hne Hf. cbn [append] in *.
  refine (parse_marked query_spec above_query 456 Text Text pre w "#" s [SaveQuery] 453 _ _ _ uri_query_simulates uri_query_enters Hne Ha _ _).
  - by vm_compute.
  - by rewrite (do_marked setQuery) by tauto.
Qed.

(** A run to the end of the text, and the actions there. *)
Definition finishes (pre : string) (cs : Z) (s : string) (σ : create_state) (u : Uri) : Prop :=
  ∃ σ' f, parse pre cs s σ = Done σ' (f, str_len (pre ++ s)) ∧ 451 ≤ f ∧
    do_actions (uri_act (pre ++ s)) (uri_eof_actions f) (str_len (pre ++ s)) σ' = Done (None, u) ().
Lemma finishes_step pre cs s σ pre' cs' s' σ' u : parse pre cs s σ = parse pre' cs' s' σ' → pre ++ s = pre' ++ s' →
  finishes pre' cs' s' σ' u → finishes pre cs s σ u.
Proof. intros Hp Ht (σ1 & f & Hr & Hf & Ha). exists σ1, f. by rewrite Hp, Ht. Qed.
Lemma do_marked_end f pre w u a : fits (pre ++ w) → a = SavePath ∧ f = setPath ∨ a = SaveQuery ∧ f = setQuery ∨ a = SaveFragment ∧ f = setFragment →
  do_actions (uri_act (pre ++ w)) [a] (str_len (pre ++ w)) (Some (str_len pre), u) = Done (None, f w u) ().
Proof.
  intros Hf Ha. pose proof (do_marked f pre w "" u []) as H. rewrite !str_app_nil_r in H. rewrite H; [done|done|tauto].
Qed.
Lemma finish_path pre v u : accepts path_spec Text v = Some Text → fits (pre ++ String "/" v) →
  finishes (pre ++ "/") 513 v (Some (str_len pre), u) (setPath (String "/" v) u).
Proof.
  intros Ha Hf. exists (Some (str_len pre), u), 513. rewrite !str_app_assoc. split; [|split; [done|]].
  - rewrite <-(str_app_nil_r v) at 1. by rewrite (parse_path_text _ _ _ _ Ha).
  - apply do_marked_end; tauto.
Qed.
Lemma finish_query pre w u : query_ok w = true → w ≠ "" → fits (pre ++ w) → finishes pre 456 w (None, u) (setQuery w u).
Proof.
  intros Ha%query_ok_accepts Hne Hf. exists (Some (str_len pre), u), 457. split; [|split; [done|]].
  - exact (parse_marked_end query_spec above_query 456 Text Text pre w None u 457 uri_query_simulates uri_query_enters Hne Ha eq_refl).
  - apply do_marked_end; tauto.
Qed.
Lemma finish_fragment pre w u : query_ok w = true → w ≠ "" → fits (pre ++ w) → finishes pre 453 w (None, u) (setFragment w u).
Proof.
  intros Ha%query_ok_accepts Hne Hf. exists (Some (str_len pre), u), 454. split; [|split; [done|]].
  - exact (parse_marked_end query_spec above_fragment 453 Text Text pre w None u 454 uri_fragment_simulates uri_fragment_enters Hne Ha eq_refl).
  - apply do_marked_end; tauto.
Qed.

Definition opt (c : ascii) (s : string) : string := if is_empty s then "" else String c s.
Definition setOpt (f : string → Uri → Uri) (s : string) (u : Uri) : Uri := if is_empty s then u else f s u.
Lemma finish_tail pre v q f u : accepts path_spec Text v = Some Text → query_ok q = true → query_ok f = true →
  fits (pre ++ String "/" v ++ opt "?" q ++ opt "#" f) →
  finishes (pre ++ "/") 513 (v ++ opt "?" q ++ opt "#" f) (Some (str_len pre), u) (setOpt setFragment f (setOpt setQuery q (setPath (String "/" v) u))).
Proof.
  intros Ha Hq Hf Hfit. unfold setOpt.
  destruct q as [|qc q], f as [|fc f]; cbn [is_empty opt append] in *; rewrite ?str_app_nil_r in *.
  - by apply finish_path.
  - eapply finishes_step; [by apply (parse_path_to _ _ "#" 453); auto; cbn; tauto|by rewrite !str_app_assoc|].
    apply finish_fragment; [done..|by rewrite !str_app_assoc].
  - eapply finishes_step; [by apply (parse_path_to _ _ "?" 456); auto; cbn; tauto|by rewrite !str_app_assoc|].
    apply finish_query; [done..|by rewrite !str_app_assoc].
  - eapply finishes_step; [by apply (parse_path_to _ _ "?" 456); auto; cbn; tauto|by rewrite !str_app_assoc|].
    change (String qc (q ++ String "#" (String fc f))) with (String qc q ++ "#" ++ String fc f).
    eapply finishes_step; [apply parse_query_to; [done..|by rewrite !str_app_assoc]|by rewrite !str_app_assoc|].
    apply finish_fragment; [done..|by rewrite !str_app_assoc].
Qed.

(** ** The whole text *)
Definition uri_ok (u : Uri) : bool :=
  scheme_ok (u_scheme u) && (is_empty (u_userinfo u) || host_ok (u_userinfo u)) && host_ok (u_host u) &&
  (is_empty (u_path u) || abs_path_ok (u_path u)) && query_ok (u_query u) && query_ok (u_fragment u) && (0 <=? u_port u) && (u_port u <? 2 ^ 31).
(** What reading a printed URI gives: the empty path is the root, a default port is not printed. *)
Definition reread (u : Uri) : Uri :=
  mkUri (u_scheme u) (u_userinfo u) (u_host u) (getPath u) (u_query u) (u_fragment u) (if isDefaultPort u then 0 else u_port u).
Lemma uri_toString_opt u : uri_toString u = u_scheme u ++ "://" ++ (if is_empty (u_userinfo u) then "" else u_userinfo u ++ "@") ++ u_host u ++
  (if isDefaultPort u then "" else ":" ++ dec (u_port u)) ++ getPath u ++ opt "?" (u_query u) ++ opt "#" (u_fragment u).
Proof.
  unfold uri_toString. destruct (u_userinfo u) as [|a b], (u_query u) as [|qc q], (u_fragment u) as [|fc f]; cbn [is_empty opt append];
    rewrite ?str_app_nil_r, ?str_app_assoc; reflexivity.
Qed.
(** Both sides as one right-nested text. *)
Ltac str_norm := cbn [append] in *; repeat (rewrite str_app_assoc; cbn [append]); try done.
Lemma finish_authority pre cs0 m h port path q f u : host_ok h = true → cs0 = 511 ∨ cs0 = 522 → (∀ n, port = Some n → 0 ≤ n < 2 ^ 31) →
  abs_path_ok path = true → query_ok q = true → query_ok f = true →
  let text := h ++ match port with None => "" | Some n => ":" ++ dec n end ++ path ++ opt "?" q ++ opt "#" f in
  fits (pre ++ text) → finishes pre cs0 text (m, u)
    (setOpt setFragment f (setOpt setQuery q (setPath path (match port with None => id | Some n => setPort n end (setHost h u))))).
Proof.
  intros Hh Hcs Hp (v & -> & Ha)%abs_path_accepts Hq Hf text Hfit. subst text. destruct port as [n|]; cbn [append] in *.
  - eapply finishes_step; [apply (parse_host_port pre h n (v ++ opt "?" q ++ opt "#" f)); [done|done|by apply Hp|done]|by str_norm|].
    replace (pre ++ h ++ ":" ++ dec n ++ "/") with ((pre ++ h ++ ":" ++ dec n) ++ "/") by str_norm.
    apply finish_tail; str_norm.
  - eapply finishes_step; [apply (parse_host pre h (v ++ opt "?" q ++ opt "#" f)); done|by str_norm|].
    replace (pre ++ h ++ "/") with ((pre ++ h) ++ "/") by str_norm.
    apply finish_tail; str_norm.
Qed.
Lemma reread_same u : getPath (reread u) = getPath u ∧ getPort (reread u) = getPort u ∧ uri_toString (reread u) = uri_toString u.
Proof.
  assert (Hpath : getPath (reread u) = getPath u) by (unfold reread, getPath; cbn [u_path]; by destruct (u_path u)).
  assert (Hport : getPort (reread u) = getPort u ∧ isDefaultPort (reread u) = isDefaultPort u ∧ (isDefaultPort u = false → u_port (reread u) = u_port u)).
  { unfold getPort, isDefaultPort, reread. cbn [u_scheme u_port]. destruct (isDefaultPort u) eqn:E; unfold isDefaultPort in E; rewrite ?E; [|done].
    revert E. destruct (u_port u =? 0) eqn:E0; cbn; [apply Z.eqb_eq in E0 as ->; done|].
    destruct (_ || _); [intros ->%Z.eqb_eq; done|]. destruct (_ || _); [intros ->%Z.eqb_eq; done|done]. }
  split; [done|]. destruct Hport as (-> & Hd & Hp). split; [done|]. unfold uri_toString. rewrite Hpath, Hd.
  destruct (isDefaultPort u); [done|]. by rewrite Hp.
Qed.
(** From the end of the run to the result of [Create]. *)
Lemma Create_finishes s u : finishes "" 451 s (None, Uri_new) u → Create s = Done (None, u) (Some u).
Proof.
  intros (σ & f & Hr & Hf & Ha). cbn [append] in *. unfold Create, parse_uri.
  unfold Ragel.parse in Hr. cbn [append] in Hr. change (str_len "") with 0 in Hr. rewrite (bind_done _ _ _ _ _ Hr), Z.eqb_refl.
  rewrite (bind_done _ _ _ _ _ Ha). unfold Prelude.get, mbind, M_bind, mret, M_ret. cbn [snd].
  replace (f =? 0) with false by lia. by replace (f >=? 451) with true by lia.
Qed.

(** C24: [Uri::Create] reads back what [Uri::toString] prints, for a URI with a scheme, a
    host that is a registered name or an IPv4 address (not empty, not an address in
    brackets), user information without a colon, or none, an empty or absolute path, a query
    and a fragment, each of the characters and percent escapes of the grammar, and a port
    from 0 to 2^31-1: every component is found again; an empty path comes back as the root
    and the default port of the scheme as no port, so [getPath], [getPort] and the text of
    the new URI are those of the old one.  (User information with a colon, which the grammar
    allows, is not read back: see Example [Create_user_port].) *)
Theorem uri_roundtrip u : uri_ok u = true → fits (uri_toString u) →
  Create (uri_toString u) = Done (None, reread u) (Some (reread u)) ∧
  getPath (reread u) = getPath u ∧ getPort (reread u) = getPort u ∧ uri_toString (reread u) = uri_toString u.
Proof.
  unfold uri_ok. rewrite !andb_true_iff. intros (((((((Hs & Hu) & Hh) & Hp) & Hq) & Hf) & Hlo) & Hhi) Hfit.
  assert (Hpath : abs_path_ok (getPath u) = true). { unfold getPath. by destruct (u_path u); [reflexivity|]. }
  split; [|apply reread_same].
  apply Create_finishes. rewrite uri_toString_opt in *.
  set (port := if isDefaultPort u then None else Some (u_port u)).
  assert (Hport : ∀ n, port = Some n → 0 ≤ n < 2 ^ 31) by (unfold port; intros n; destruct (isDefaultPort u); [done|intros [= <-]; lia]).
  replace (if isDefaultPort u then "" else ":" ++ dec (u_port u)) with (match port with None => "" | Some n => ":" ++ dec n end) in *
    by (unfold port; by destruct (isDefaultPort u)).
  eapply finishes_step; [by apply parse_scheme|by cbn [append]; rewrite !str_app_assoc|].
  assert (Hend : reread u = setOpt setFragment (u_fragment u) (setOpt setQuery (u_query u) (setPath (getPath u)
    (match port with None => id | Some n => setPort n end (setHost (u_host u) (setOpt setUserinfo (u_userinfo u) (setScheme (u_scheme u) Uri_new))))))).
  { unfold reread, port, setOpt. by destruct (u_fragment u), (u_query u), (u_userinfo u), (isDefaultPort u). }
  rewrite Hend. clear Hend. unfold setOpt at 3. destruct (u_userinfo u) as [|a b]; cbn [is_empty] in *.
  - apply finish_authority; auto; by rewrite ?str_app_assoc in *.
  - rewrite !str_app_assoc in *. eapply finishes_step; [by apply parse_userinfo; rewrite ?str_app_assoc|by rewrite !str_app_assoc|].
    apply finish_authority; auto; by rewrite ?str_app_assoc in *.
Qed.
Lemma uri_roundtrip_witness :
  let u := mkUri "https" "joe" "example.com" "/a/b" "x=1" "top" 8020 in
  Create "https://joe@example.com:8020/a/b?x=1#top" = Done (None, u) (Some (u)).
Proof.
  intros u. assert (H1 : uri_ok (u) = true) by (vm_compute; reflexivity).
  assert (H2 : fits (uri_toString (u))) by (vm_compute; reflexivity).
  exact (proj1 (uri_roundtrip (u) H1 H2)).
Defined.
