(* ===== verification/HttpClientTable.v ===== *)
(** * HttpClientTable ([webserve/http/httpclient_parser.cc]): the tables of the response parser

    One row per label of the generated code, in its order, as in Http11Table. *)
From S2P Require Import Prelude Ragel.
Open Scope Z_scope.

(** The actions of the grammar (httpclient_parser.rl). *)
Inductive httpclient_action :=
| Mark | StartField | WriteField | WriteValue | HttpVersion | StatusCode | ReasonPhrase | ChunkSize | TransChunked | ConnectionClose
| ContentLen | HeadDone.
#[export] Instance httpclient_action_eq_dec : EqDecision httpclient_action.
Proof. solve_decision. Defined.

(** Lines 88 to 224. *)
Definition httpclient_cases_1 (cs c : Z) : option label :=
  match cs with
  | 1 => Some (
      if c =? 72 then tr 2 else if c <? 65 then if (48 <=? c) && (c <=? 57) then tr 0 else st 0
      else if c >? 70 then if (97 <=? c) && (c <=? 102) then tr 0 else st 0 else tr 0)
  | 2 => Some (
      switch c [(10, tr 3); (13, tr 4); (59, tr 6)] (if c <? 65 then if (48 <=? c) && (c <=? 57) then st 2 else st 0
      else if c >? 70 then if (97 <=? c) && (c <=? 102) then st 2 else st 0 else st 2))
  | 120 => Some (st 0)
  | _ => None
  end.
Definition httpclient_trans_1 (n : Z) : option (list httpclient_action * dest) :=
  match n with
  | 0 => Some ([Mark], Goto 2)
  | 3 => Some ([ChunkSize; HeadDone], Break 120)
  | 7 => Some ([HeadDone], Break 120)
  | 9 => Some ([WriteField; Mark; WriteValue; HeadDone], Break 120)
  | 15 => Some ([WriteValue; HeadDone], Break 120)
  | 74 => Some ([ConnectionClose; HeadDone], Break 120)
  | 4 => Some ([ChunkSize], Goto 3)
  | _ => None
  end.
(** Lines 225 to 371. *)
Definition httpclient_cases_2 (cs c : Z) : option label :=
  match cs with
  | 3 => Some (if c =? 10 then tr 7 else st 0)
  | 4 => Some (
      switch c [(33, tr 8); (124, tr 8); (126, tr 8)] (if c <? 45 then if c >? 39 then if (42 <=? c) && (c <=? 43) then tr 8
      else st 0 else if c >=? 35 then tr 8 else st 0
      else if c >? 46 then if c <? 65 then if (48 <=? c) && (c <=? 57) then tr 8 else st 0
      else if c >? 90 then if (94 <=? c) && (c <=? 122) then tr 8 else st 0 else tr 8 else tr 8))
  | 5 => Some (
      switch c [(10, tr 9); (13, tr 10); (33, st 5); (59, tr 12); (61, tr 13); (124, st 5); (126, st 5)]
      (if c <? 45 then if c >? 39 then if (42 <=? c) && (c <=? 43) then st 5 else st 0 else if c >=? 35 then st 5 else st 0
      else if c >? 46 then if c <? 65 then if (48 <=? c) && (c <=? 57) then st 5 else st 0
      else if c >? 90 then if (94 <=? c) && (c <=? 122) then st 5 else st 0 else st 5 else st 5))
  | _ => None
  end.
Definition httpclient_trans_2 (n : Z) : option (list httpclient_action * dest) :=
  match n with
  | 10 => Some ([WriteField; Mark; WriteValue], Goto 3)
  | 16 => Some ([WriteValue], Goto 3)
  | 75 => Some ([ConnectionClose], Goto 3)
  | 6 => Some ([ChunkSize], Goto 4)
  | 12 => Some ([WriteField; Mark; WriteValue], Goto 4)
  | 18 => Some ([WriteValue], Goto 4)
  | 8 => Some ([StartField], Goto 5)
  | 13 => Some ([WriteField; Mark], Goto 6)
  | _ => None
  end.
(** Lines 372 to 518. *)
Definition httpclient_cases_3 (cs c : Z) : option label :=
  match cs with
  | 6 => Some (
      switch c [(33, tr 14); (124, tr 14); (126, tr 14)]
      (if c <? 45 then if c >? 39 then if (42 <=? c) && (c <=? 43) then tr 14 else st 0 else if c >=? 35 then tr 14
      else st 0 else if c >? 46 then if c <? 65 then if (48 <=? c) && (c <=? 57) then tr 14 else st 0
      else if c >? 90 then if (94 <=? c) && (c <=? 122) then tr 14 else st 0 else tr 14 else tr 14))
  | 7 => Some (
      switch c [(10, tr 15); (13, tr 16); (33, st 7); (59, tr 18); (124, st 7); (126, st 7)]
      (if c <? 45 then if c >? 39 then if (42 <=? c) && (c <=? 43) then st 7 else st 0 else if c >=? 35 then st 7 else st 0
      else if c >? 46 then if c <? 65 then if (48 <=? c) && (c <=? 57) then st 7 else st 0
      else if c >? 90 then if (94 <=? c) && (c <=? 122) then st 7 else st 0 else st 7 else st 7))
  | 8 => Some (if c =? 84 then st 9 else st 0)
  | 9 => Some (if c =? 84 then st 10 else st 0)
  | 10 => Some (if c =? 80 then st 11 else st 0)
  | 11 => Some (if c =? 47 then st 12 else st 0)
  | 12 => Some (if (48 <=? c) && (c <=? 57) then st 13 else st 0)
  | 13 => Some (if c =? 46 then st 14 else if (48 <=? c) && (c <=? 57) then st 13 else st 0)
  | 14 => Some (if (48 <=? c) && (c <=? 57) then st 15 else st 0)
  | 15 => Some (if c =? 32 then tr 26 else if (48 <=? c) && (c <=? 57) then st 15 else st 0)
  | 16 => Some (if (48 <=? c) && (c <=? 57) then tr 27 else st 0)
  | _ => None
  end.
Definition httpclient_trans_3 (n : Z) : option (list httpclient_action * dest) :=
  match n with
  | 14 => Some ([Mark], Goto 7)
  | 2 => Some ([Mark], Goto 8)
  | 26 => Some ([HttpVersion], Goto 16)
  | 27 => Some ([Mark], Goto 17)
  | _ => None
  end.
(** Lines 519 to 660. *)
Definition httpclient_cases_4 (cs c : Z) : option label :=
  match cs with
  | 17 => Some (if c =? 32 then tr 28 else if (48 <=? c) && (c <=? 57) then st 17 else st 0)
  | 18 => Some (if c =? 10 then st 0 else tr 30)
  | 19 => Some (switch c [(10, tr 32); (13, tr 33)] (st 19))
  | 20 => Some (
      switch c [(10, tr 7); (13, st 3); (33, tr 35); (67, tr 36); (84, tr 37); (99, tr 36); (116, tr 37); (124, tr 35);
      (126, tr 35)] (if c <? 45 then if c >? 39 then if (42 <=? c) && (c <=? 43) then tr 35 else st 0
      else if c >=? 35 then tr 35 else st 0 else if c >? 46 then if c <? 65 then if (48 <=? c) && (c <=? 57) then tr 35
      else st 0 else if c >? 90 then if (94 <=? c) && (c <=? 122) then tr 35 else st 0 else tr 35 else tr 35))
  | _ => None
  end.
Definition httpclient_trans_4 (n : Z) : option (list httpclient_action * dest) :=
  match n with
  | 28 => Some ([StatusCode], Goto 18)
  | 30 => Some ([Mark], Goto 19)
  | 45 => Some ([WriteValue], Goto 20)
  | 32 => Some ([ReasonPhrase], Goto 20)
  | 42 => Some ([Mark; WriteValue], Goto 20)
  | 111 => Some ([WriteValue; TransChunked], Goto 20)
  | 113 => Some ([TransChunked], Goto 20)
  | 158 => Some ([ContentLen; WriteValue], Goto 20)
  | 35 => Some ([StartField], Goto 21)
  | 76 => Some ([ConnectionClose; StartField], Goto 21)
  | _ => None
  end.
(** Lines 661 to 783. *)
Definition httpclient_cases_5 (cs c : Z) : option label :=
  match cs with
  | 21 => Some (
      switch c [(33, st 21); (58, tr 39); (124, st 21); (126, st 21)]
      (if c <? 45 then if c >? 39 then if (42 <=? c) && (c <=? 43) then st 21 else st 0 else if c >=? 35 then st 21
      else st 0 else if c >? 46 then if c <? 65 then if (48 <=? c) && (c <=? 57) then st 21 else st 0
      else if c >? 90 then if (94 <=? c) && (c <=? 122) then st 21 else st 0 else st 21 else st 21))
  | 22 => Some (switch c [(10, tr 42); (13, tr 43); (32, tr 41)] (if (9 <=? c) && (c <=? 12) then tr 41 else tr 40))
  | 23 => Some (switch c [(10, tr 45); (13, tr 46)] (st 23))
  | 24 => Some (if c =? 10 then st 20 else st 0)
  | _ => None
  end.
Definition httpclient_trans_5 (n : Z) : option (list httpclient_action * dest) :=
  match n with
  | 41 => Some ([Mark], Goto 22)
  | 39 => Some ([WriteField], Goto 22)
  | 40 => Some ([Mark], Goto 23)
  | 46 => Some ([WriteValue], Goto 24)
  | 33 => Some ([ReasonPhrase], Goto 24)
  | 43 => Some ([Mark; WriteValue], Goto 24)
  | 159 => Some ([ContentLen; WriteValue], Goto 24)
  | 36 => Some ([StartField], Goto 25)
  | 77 => Some ([ConnectionClose; StartField], Goto 25)
  | _ => None
  end.
(** Lines 784 to 933. *)
Definition httpclient_cases_6 (cs c : Z) : option label :=
  match cs with
  | 25 => Some (
      switch c [(33, st 21); (58, tr 39); (79, st 26); (111, st 26); (124, st 21); (126, st 21)]
      (if c <? 45 then if c >? 39 then if (42 <=? c) && (c <=? 43) then st 21 else st 0 else if c >=? 35 then st 21
      else st 0 else if c >? 46 then if c <? 65 then if (48 <=? c) && (c <=? 57) then st 21 else st 0
      else if c >? 90 then if (94 <=? c) && (c <=? 122) then st 21 else st 0 else st 21 else st 21))
  | 26 => Some (
      switch c [(33, st 21); (58, tr 39); (78, st 27); (110, st 27); (124, st 21); (126, st 21)]
      (if c <? 45 then if c >? 39 then if (42 <=? c) && (c <=? 43) then st 21 else st 0 else if c >=? 35 then st 21
      else st 0 else if c >? 46 then if c <? 65 then if (48 <=? c) && (c <=? 57) then st 21 else st 0
      else if c >? 90 then if (94 <=? c) && (c <=? 122) then st 21 else st 0 else st 21 else st 21))
  | 27 => Some (
      switch c [(33, st 21); (58, tr 39); (78, st 28); (84, st 101); (110, st 28); (116, st 101); (124, st 21);
      (126, st 21)] (if c <? 45 then if c >? 39 then if (42 <=? c) && (c <=? 43) then st 21 else st 0
      else if c >=? 35 then st 21 else st 0 else if c >? 46 then if c <? 65 then if (48 <=? c) && (c <=? 57) then st 21
      else st 0 else if c >? 90 then if (94 <=? c) && (c <=? 122) then st 21 else st 0 else st 21 else st 21))
  | 28 => Some (
      switch c [(33, st 21); (58, tr 39); (69, st 29); (101, st 29); (124, st 21); (126, st 21)]
      (if c <? 45 then if c >? 39 then if (42 <=? c) && (c <=? 43) then st 21 else st 0 else if c >=? 35 then st 21
      else st 0 else if c >? 46 then if c <? 65 then if (48 <=? c) && (c <=? 57) then st 21 else st 0
      else if c >? 90 then if (94 <=? c) && (c <=? 122) then st 21 else st 0 else st 21 else st 21))
  | 29 => Some (
      switch c [(33, st 21); (58, tr 39); (67, st 30); (99, st 30); (124, st 21); (126, st 21)]
      (if c <? 45 then if c >? 39 then if (42 <=? c) && (c <=? 43) then st 21 else st 0 else if c >=? 35 then st 21
      else st 0 else if c >? 46 then if c <? 65 then if (48 <=? c) && (c <=? 57) then st 21 else st 0
      else if c >? 90 then if (94 <=? c) && (c <=? 122) then st 21 else st 0 else st 21 else st 21))
  | _ => None
  end.
(** Lines 934 to 1081. *)
Definition httpclient_cases_7 (cs c : Z) : option label :=
  match cs with
  | 30 => Some (
      switch c [(33, st 21); (58, tr 39); (84, st 31); (116, st 31); (124, st 21); (126, st 21)]
      (if c <? 45 then if c >? 39 then if (42 <=? c) && (c <=? 43) then st 21 else st 0 else if c >=? 35 then st 21
      else st 0 else if c >? 46 then if c <? 65 then if (48 <=? c) && (c <=? 57) then st 21 else st 0
      else if c >? 90 then if (94 <=? c) && (c <=? 122) then st 21 else st 0 else st 21 else st 21))
  | 31 => Some (
      switch c [(33, st 21); (58, tr 39); (73, st 32); (105, st 32); (124, st 21); (126, st 21)]
      (if c <? 45 then if c >? 39 then if (42 <=? c) && (c <=? 43) then st 21 else st 0 else if c >=? 35 then st 21
      else st 0 else if c >? 46 then if c <? 65 then if (48 <=? c) && (c <=? 57) then st 21 else st 0
      else if c >? 90 then if (94 <=? c) && (c <=? 122) then st 21 else st 0 else st 21 else st 21))
  | 32 => Some (
      switch c [(33, st 21); (58, tr 39); (79, st 33); (111, st 33); (124, st 21); (126, st 21)]
      (if c <? 45 then if c >? 39 then if (42 <=? c) && (c <=? 43) then st 21 else st 0 else if c >=? 35 then st 21
      else st 0 else if c >? 46 then if c <? 65 then if (48 <=? c) && (c <=? 57) then st 21 else st 0
      else if c >? 90 then if (94 <=? c) && (c <=? 122) then st 21 else st 0 else st 21 else st 21))
  | 33 => Some (
      switch c [(33, st 21); (58, tr 39); (78, st 34); (110, st 34); (124, st 21); (126, st 21)]
      (if c <? 45 then if c >? 39 then if (42 <=? c) && (c <=? 43) then st 21 else st 0 else if c >=? 35 then st 21
      else st 0 else if c >? 46 then if c <? 65 then if (48 <=? c) && (c <=? 57) then st 21 else st 0
      else if c >? 90 then if (94 <=? c) && (c <=? 122) then st 21 else st 0 else st 21 else st 21))
  | 34 => Some (
      switch c [(33, st 21); (58, tr 58); (124, st 21); (126, st 21)]
      (if c <? 45 then if c >? 39 then if (42 <=? c) && (c <=? 43) then st 21 else st 0 else if c >=? 35 then st 21
      else st 0 else if c >? 46 then if c <? 65 then if (48 <=? c) && (c <=? 57) then st 21 else st 0
      else if c >? 90 then if (94 <=? c) && (c <=? 122) then st 21 else st 0 else st 21 else st 21))
  | _ => None
  end.
(** Lines 1082 to 1222. *)
Definition httpclient_cases_8 (cs c : Z) : option label :=
  match cs with
  | 35 => Some (
      switch c [(10, tr 60); (13, tr 61); (32, tr 59); (67, tr 62); (99, tr 62)] (if (9 <=? c) && (c <=? 12) then tr 59
      else tr 40))
  | 36 => Some (
      switch c [(10, tr 64); (13, st 89); (32, st 37); (33, tr 35); (67, tr 66); (84, tr 37); (99, tr 66); (116, tr 37);
      (124, tr 35); (126, tr 35)] (if c <? 45 then if c <? 35 then if (9 <=? c) && (c <=? 12) then st 37 else st 0
      else if c >? 39 then if (42 <=? c) && (c <=? 43) then tr 35 else st 0 else tr 35
      else if c >? 46 then if c <? 65 then if (48 <=? c) && (c <=? 57) then tr 35 else st 0
      else if c >? 90 then if (94 <=? c) && (c <=? 122) then tr 35 else st 0 else tr 35 else tr 35))
  | 37 => Some (switch c [(32, st 37); (67, st 38); (99, st 38)] (if (9 <=? c) && (c <=? 13) then st 37 else st 0))
  | 38 => Some (switch c [(76, st 39); (108, st 39)] (st 0))
  | 39 => Some (switch c [(79, st 40); (111, st 40)] (st 0))
  | 40 => Some (switch c [(83, st 41); (115, st 41)] (st 0))
  | 41 => Some (switch c [(69, st 42); (101, st 42)] (st 0))
  | 42 => Some (switch c [(10, st 43); (13, st 88)] (st 0))
  | _ => None
  end.
Definition httpclient_trans_8 (n : Z) : option (list httpclient_action * dest) :=
  match n with
  | 59 => Some ([Mark], Goto 35)
  | 58 => Some ([WriteField], Goto 35)
  | 60 => Some ([Mark; WriteValue], Goto 36)
  | 136 => Some ([WriteValue], Goto 43)
  | _ => None
  end.
(** Lines 1223 to 1359. *)
Definition httpclient_cases_9 (cs c : Z) : option label :=
  match cs with
  | 43 => Some (
      switch c [(10, tr 74); (13, tr 75); (33, tr 76); (67, tr 77); (84, tr 78); (99, tr 77); (116, tr 78); (124, tr 76);
      (126, tr 76)] (if c <? 45 then if c >? 39 then if (42 <=? c) && (c <=? 43) then tr 76 else st 0
      else if c >=? 35 then tr 76 else st 0 else if c >? 46 then if c <? 65 then if (48 <=? c) && (c <=? 57) then tr 76
      else st 0 else if c >? 90 then if (94 <=? c) && (c <=? 122) then tr 76 else st 0 else tr 76 else tr 76))
  | 44 => Some (
      switch c [(33, st 21); (58, tr 39); (82, st 45); (114, st 45); (124, st 21); (126, st 21)]
      (if c <? 45 then if c >? 39 then if (42 <=? c) && (c <=? 43) then st 21 else st 0 else if c >=? 35 then st 21
      else st 0 else if c >? 46 then if c <? 65 then if (48 <=? c) && (c <=? 57) then st 21 else st 0
      else if c >? 90 then if (94 <=? c) && (c <=? 122) then st 21 else st 0 else st 21 else st 21))
  | 45 => Some (
      switch c [(33, st 21); (58, tr 39); (65, st 46); (97, st 46); (124, st 21); (126, st 21)]
      (if c <? 45 then if c >? 39 then if (42 <=? c) && (c <=? 43) then st 21 else st 0 else if c >=? 35 then st 21
      else st 0 else if c >? 46 then if c <? 66 then if (48 <=? c) && (c <=? 57) then st 21 else st 0
      else if c >? 90 then if (94 <=? c) && (c <=? 122) then st 21 else st 0 else st 21 else st 21))
  | 46 => Some (
      switch c [(33, st 21); (58, tr 39); (78, st 47); (110, st 47); (124, st 21); (126, st 21)]
      (if c <? 45 then if c >? 39 then if (42 <=? c) && (c <=? 43) then st 21 else st 0 else if c >=? 35 then st 21
      else st 0 else if c >? 46 then if c <? 65 then if (48 <=? c) && (c <=? 57) then st 21 else st 0
      else if c >? 90 then if (94 <=? c) && (c <=? 122) then st 21 else st 0 else st 21 else st 21))
  | _ => None
  end.
Definition httpclient_trans_9 (n : Z) : option (list httpclient_action * dest) :=
  match n with
  | 37 => Some ([StartField], Goto 44)
  | 78 => Some ([ConnectionClose; StartField], Goto 44)
  | _ => None
  end.
(** Lines 1360 to 1506. *)
Definition httpclient_cases_10 (cs c : Z) : option label :=
  match cs with
  | 47 => Some (
      switch c [(33, st 21); (58, tr 39); (83, st 48); (115, st 48); (124, st 21); (126, st 21)]
      (if c <? 45 then if c >? 39 then if (42 <=? c) && (c <=? 43) then st 21 else st 0 else if c >=? 35 then st 21
      else st 0 else if c >? 46 then if c <? 65 then if (48 <=? c) && (c <=? 57) then st 21 else st 0
      else if c >? 90 then if (94 <=? c) && (c <=? 122) then st 21 else st 0 else st 21 else st 21))
  | 48 => Some (
      switch c [(33, st 21); (58, tr 39); (70, st 49); (102, st 49); (124, st 21); (126, st 21)]
      (if c <? 45 then if c >? 39 then if (42 <=? c) && (c <=? 43) then st 21 else st 0 else if c >=? 35 then st 21
      else st 0 else if c >? 46 then if c <? 65 then if (48 <=? c) && (c <=? 57) then st 21 else st 0
      else if c >? 90 then if (94 <=? c) && (c <=? 122) then st 21 else st 0 else st 21 else st 21))
  | 49 => Some (
      switch c [(33, st 21); (58, tr 39); (69, st 50); (101, st 50); (124, st 21); (126, st 21)]
      (if c <? 45 then if c >? 39 then if (42 <=? c) && (c <=? 43) then st 21 else st 0 else if c >=? 35 then st 21
      else st 0 else if c >? 46 then if c <? 65 then if (48 <=? c) && (c <=? 57) then st 21 else st 0
      else if c >? 90 then if (94 <=? c) && (c <=? 122) then st 21 else st 0 else st 21 else st 21))
  | 50 => Some (
      switch c [(33, st 21); (58, tr 39); (82, st 51); (114, st 51); (124, st 21); (126, st 21)]
      (if c <? 45 then if c >? 39 then if (42 <=? c) && (c <=? 43) then st 21 else st 0 else if c >=? 35 then st 21
      else st 0 else if c >? 46 then if c <? 65 then if (48 <=? c) && (c <=? 57) then st 21 else st 0
      else if c >? 90 then if (94 <=? c) && (c <=? 122) then st 21 else st 0 else st 21 else st 21))
  | 51 => Some (
      switch c [(33, st 21); (45, st 52); (46, st 21); (58, tr 39); (124, st 21); (126, st 21)]
      (if c <? 48 then if c >? 39 then if (42 <=? c) && (c <=? 43) then st 21 else st 0 else if c >=? 35 then st 21
      else st 0 else if c >? 57 then if c >? 90 then if (94 <=? c) && (c <=? 122) then st 21 else st 0
      else if c >=? 65 then st 21 else st 0 else st 21))
  | _ => None
  end.
(** Lines 1507 to 1656. *)
Definition httpclient_cases_11 (cs c : Z) : option label :=
  match cs with
  | 52 => Some (
      switch c [(33, st 21); (58, tr 39); (69, st 53); (101, st 53); (124, st 21); (126, st 21)]
      (if c <? 45 then if c >? 39 then if (42 <=? c) && (c <=? 43) then st 21 else st 0 else if c >=? 35 then st 21
      else st 0 else if c >? 46 then if c <? 65 then if (48 <=? c) && (c <=? 57) then st 21 else st 0
      else if c >? 90 then if (94 <=? c) && (c <=? 122) then st 21 else st 0 else st 21 else st 21))
  | 53 => Some (
      switch c [(33, st 21); (58, tr 39); (78, st 54); (110, st 54); (124, st 21); (126, st 21)]
      (if c <? 45 then if c >? 39 then if (42 <=? c) && (c <=? 43) then st 21 else st 0 else if c >=? 35 then st 21
      else st 0 else if c >? 46 then if c <? 65 then if (48 <=? c) && (c <=? 57) then st 21 else st 0
      else if c >? 90 then if (94 <=? c) && (c <=? 122) then st 21 else st 0 else st 21 else st 21))
  | 54 => Some (
      switch c [(33, st 21); (58, tr 39); (67, st 55); (99, st 55); (124, st 21); (126, st 21)]
      (if c <? 45 then if c >? 39 then if (42 <=? c) && (c <=? 43) then st 21 else st 0 else if c >=? 35 then st 21
      else st 0 else if c >? 46 then if c <? 65 then if (48 <=? c) && (c <=? 57) then st 21 else st 0
      else if c >? 90 then if (94 <=? c) && (c <=? 122) then st 21 else st 0 else st 21 else st 21))
  | 55 => Some (
      switch c [(33, st 21); (58, tr 39); (79, st 56); (111, st 56); (124, st 21); (126, st 21)]
      (if c <? 45 then if c >? 39 then if (42 <=? c) && (c <=? 43) then st 21 else st 0 else if c >=? 35 then st 21
      else st 0 else if c >? 46 then if c <? 65 then if (48 <=? c) && (c <=? 57) then st 21 else st 0
      else if c >? 90 then if (94 <=? c) && (c <=? 122) then st 21 else st 0 else st 21 else st 21))
  | 56 => Some (
      switch c [(33, st 21); (58, tr 39); (68, st 57); (100, st 57); (124, st 21); (126, st 21)]
      (if c <? 45 then if c >? 39 then if (42 <=? c) && (c <=? 43) then st 21 else st 0 else if c >=? 35 then st 21
      else st 0 else if c >? 46 then if c <? 65 then if (48 <=? c) && (c <=? 57) then st 21 else st 0
      else if c >? 90 then if (94 <=? c) && (c <=? 122) then st 21 else st 0 else st 21 else st 21))
  | _ => None
  end.
(** Lines 1657 to 1806. *)
Definition httpclient_cases_12 (cs c : Z) : option label :=
  match cs with
  | 57 => Some (
      switch c [(33, st 21); (58, tr 39); (73, st 58); (105, st 58); (124, st 21); (126, st 21)]
      (if c <? 45 then if c >? 39 then if (42 <=? c) && (c <=? 43) then st 21 else st 0 else if c >=? 35 then st 21
      else st 0 else if c >? 46 then if c <? 65 then if (48 <=? c) && (c <=? 57) then st 21 else st 0
      else if c >? 90 then if (94 <=? c) && (c <=? 122) then st 21 else st 0 else st 21 else st 21))
  | 58 => Some (
      switch c [(33, st 21); (58, tr 39); (78, st 59); (110, st 59); (124, st 21); (126, st 21)]
      (if c <? 45 then if c >? 39 then if (42 <=? c) && (c <=? 43) then st 21 else st 0 else if c >=? 35 then st 21
      else st 0 else if c >? 46 then if c <? 65 then if (48 <=? c) && (c <=? 57) then st 21 else st 0
      else if c >? 90 then if (94 <=? c) && (c <=? 122) then st 21 else st 0 else st 21 else st 21))
  | 59 => Some (
      switch c [(33, st 21); (58, tr 39); (71, st 60); (103, st 60); (124, st 21); (126, st 21)]
      (if c <? 45 then if c >? 39 then if (42 <=? c) && (c <=? 43) then st 21 else st 0 else if c >=? 35 then st 21
      else st 0 else if c >? 46 then if c <? 65 then if (48 <=? c) && (c <=? 57) then st 21 else st 0
      else if c >? 90 then if (94 <=? c) && (c <=? 122) then st 21 else st 0 else st 21 else st 21))
  | 60 => Some (
      switch c [(33, st 21); (58, tr 95); (124, st 21); (126, st 21)]
      (if c <? 45 then if c >? 39 then if (42 <=? c) && (c <=? 43) then st 21 else st 0 else if c >=? 35 then st 21
      else st 0 else if c >? 46 then if c <? 65 then if (48 <=? c) && (c <=? 57) then st 21 else st 0
      else if c >? 90 then if (94 <=? c) && (c <=? 122) then st 21 else st 0 else st 21 else st 21))
  | 61 => Some (
      switch c [(10, tr 97); (13, tr 98); (32, tr 96); (67, tr 99); (99, tr 99)] (if (9 <=? c) && (c <=? 12) then tr 96
      else tr 40))
  | _ => None
  end.
Definition httpclient_trans_12 (n : Z) : option (list httpclient_action * dest) :=
  match n with
  | 96 => Some ([Mark], Goto 61)
  | 95 => Some ([WriteField], Goto 61)
  | 97 => Some ([Mark; WriteValue], Goto 62)
  | _ => None
  end.
(** Lines 1807 to 1952. *)
Definition httpclient_cases_13 (cs c : Z) : option label :=
  match cs with
  | 62 => Some (
      switch c [(10, tr 101); (13, st 72); (32, st 63); (33, tr 35); (67, tr 103); (84, tr 37); (99, tr 103); (116, tr 37);
      (124, tr 35); (126, tr 35)] (if c <? 45 then if c <? 35 then if (9 <=? c) && (c <=? 12) then st 63 else st 0
      else if c >? 39 then if (42 <=? c) && (c <=? 43) then tr 35 else st 0 else tr 35
      else if c >? 46 then if c <? 65 then if (48 <=? c) && (c <=? 57) then tr 35 else st 0
      else if c >? 90 then if (94 <=? c) && (c <=? 122) then tr 35 else st 0 else tr 35 else tr 35))
  | 63 => Some (
      switch c [(32, st 63); (67, tr 104); (99, tr 104)] (if (9 <=? c) && (c <=? 13) then st 63 else st 0))
  | 64 => Some (switch c [(72, st 65); (104, st 65)] (st 0))
  | 65 => Some (switch c [(85, st 66); (117, st 66)] (st 0))
  | 66 => Some (switch c [(78, st 67); (110, st 67)] (st 0))
  | 67 => Some (switch c [(75, st 68); (107, st 68)] (st 0))
  | 68 => Some (switch c [(69, st 69); (101, st 69)] (st 0))
  | 69 => Some (switch c [(68, st 70); (100, st 70)] (st 0))
  | 70 => Some (switch c [(10, tr 111); (13, tr 112)] (st 0))
  | 71 => Some (if c =? 10 then tr 113 else st 0)
  | _ => None
  end.
Definition httpclient_trans_13 (n : Z) : option (list httpclient_action * dest) :=
  match n with
  | 104 => Some ([Mark], Goto 64)
  | 112 => Some ([WriteValue], Goto 71)
  | 101 => Some ([HeadDone], Break 121)
  | _ => None
  end.
(** Lines 1953 to 2077. *)
Definition httpclient_cases_14 (cs c : Z) : option label :=
  match cs with
  | 121 => Some (
      switch c [(32, st 63); (67, tr 104); (99, tr 104)] (if (9 <=? c) && (c <=? 13) then st 63 else st 0))
  | 72 => Some (
      switch c [(10, tr 101); (32, st 63); (67, tr 104); (99, tr 104)] (if (9 <=? c) && (c <=? 13) then st 63 else st 0))
  | 73 => Some (
      switch c [(33, st 21); (58, tr 39); (72, st 74); (79, st 26); (104, st 74); (111, st 26); (124, st 21); (126, st 21)]
      (if c <? 45 then if c >? 39 then if (42 <=? c) && (c <=? 43) then st 21 else st 0 else if c >=? 35 then st 21
      else st 0 else if c >? 46 then if c <? 65 then if (48 <=? c) && (c <=? 57) then st 21 else st 0
      else if c >? 90 then if (94 <=? c) && (c <=? 122) then st 21 else st 0 else st 21 else st 21))
  | 74 => Some (
      switch c [(33, st 21); (58, tr 39); (85, st 75); (117, st 75); (124, st 21); (126, st 21)]
      (if c <? 45 then if c >? 39 then if (42 <=? c) && (c <=? 43) then st 21 else st 0 else if c >=? 35 then st 21
      else st 0 else if c >? 46 then if c <? 65 then if (48 <=? c) && (c <=? 57) then st 21 else st 0
      else if c >? 90 then if (94 <=? c) && (c <=? 122) then st 21 else st 0 else st 21 else st 21))
  | 75 => Some (
      switch c [(33, st 21); (58, tr 39); (78, st 76); (110, st 76); (124, st 21); (126, st 21)]
      (if c <? 45 then if c >? 39 then if (42 <=? c) && (c <=? 43) then st 21 else st 0 else if c >=? 35 then st 21
      else st 0 else if c >? 46 then if c <? 65 then if (48 <=? c) && (c <=? 57) then st 21 else st 0
      else if c >? 90 then if (94 <=? c) && (c <=? 122) then st 21 else st 0 else st 21 else st 21))
  | _ => None
  end.
Definition httpclient_trans_14 (n : Z) : option (list httpclient_action * dest) :=
  match n with
  | 103 => Some ([Mark; StartField], Goto 73)
  | _ => None
  end.
(** Lines 2078 to 2225. *)
Definition httpclient_cases_15 (cs c : Z) : option label :=
  match cs with
  | 76 => Some (
      switch c [(33, st 21); (58, tr 39); (75, st 77); (107, st 77); (124, st 21); (126, st 21)]
      (if c <? 45 then if c >? 39 then if (42 <=? c) && (c <=? 43) then st 21 else st 0 else if c >=? 35 then st 21
      else st 0 else if c >? 46 then if c <? 65 then if (48 <=? c) && (c <=? 57) then st 21 else st 0
      else if c >? 90 then if (94 <=? c) && (c <=? 122) then st 21 else st 0 else st 21 else st 21))
  | 77 => Some (
      switch c [(33, st 21); (58, tr 39); (69, st 78); (101, st 78); (124, st 21); (126, st 21)]
      (if c <? 45 then if c >? 39 then if (42 <=? c) && (c <=? 43) then st 21 else st 0 else if c >=? 35 then st 21
      else st 0 else if c >? 46 then if c <? 65 then if (48 <=? c) && (c <=? 57) then st 21 else st 0
      else if c >? 90 then if (94 <=? c) && (c <=? 122) then st 21 else st 0 else st 21 else st 21))
  | 78 => Some (
      switch c [(33, st 21); (58, tr 39); (68, st 79); (100, st 79); (124, st 21); (126, st 21)]
      (if c <? 45 then if c >? 39 then if (42 <=? c) && (c <=? 43) then st 21 else st 0 else if c >=? 35 then st 21
      else st 0 else if c >? 46 then if c <? 65 then if (48 <=? c) && (c <=? 57) then st 21 else st 0
      else if c >? 90 then if (94 <=? c) && (c <=? 122) then st 21 else st 0 else st 21 else st 21))
  | 79 => Some (
      switch c [(10, tr 111); (13, tr 112); (33, st 21); (58, tr 39); (124, st 21); (126, st 21)]
      (if c <? 45 then if c >? 39 then if (42 <=? c) && (c <=? 43) then st 21 else st 0 else if c >=? 35 then st 21
      else st 0 else if c >? 46 then if c <? 65 then if (48 <=? c) && (c <=? 57) then st 21 else st 0
      else if c >? 90 then if (94 <=? c) && (c <=? 122) then st 21 else st 0 else st 21 else st 21))
  | 80 => Some (
      switch c [(10, st 62); (32, st 63); (67, tr 104); (99, tr 104)] (if (9 <=? c) && (c <=? 13) then st 63 else st 0))
  | _ => None
  end.
Definition httpclient_trans_15 (n : Z) : option (list httpclient_action * dest) :=
  match n with
  | 98 => Some ([Mark; WriteValue], Goto 80)
  | 99 => Some ([Mark], Goto 81)
  | _ => None
  end.
(** Lines 2226 to 2356. *)
Definition httpclient_cases_16 (cs c : Z) : option label :=
  match cs with
  | 81 => Some (switch c [(10, tr 45); (13, tr 46); (72, st 82); (104, st 82)] (st 23))
  | 82 => Some (switch c [(10, tr 45); (13, tr 46); (85, st 83); (117, st 83)] (st 23))
  | 83 => Some (switch c [(10, tr 45); (13, tr 46); (78, st 84); (110, st 84)] (st 23))
  | 84 => Some (switch c [(10, tr 45); (13, tr 46); (75, st 85); (107, st 85)] (st 23))
  | 85 => Some (switch c [(10, tr 45); (13, tr 46); (69, st 86); (101, st 86)] (st 23))
  | 86 => Some (switch c [(10, tr 45); (13, tr 46); (68, st 87); (100, st 87)] (st 23))
  | 87 => Some (switch c [(10, tr 111); (13, tr 112)] (st 23))
  | 88 => Some (if c =? 10 then st 43 else st 0)
  | 122 => Some (switch c [(32, st 37); (67, st 38); (99, st 38)] (if (9 <=? c) && (c <=? 13) then st 37 else st 0))
  | 89 => Some (
      switch c [(10, tr 64); (32, st 37); (67, st 38); (99, st 38)] (if (9 <=? c) && (c <=? 13) then st 37 else st 0))
  | _ => None
  end.
Definition httpclient_trans_16 (n : Z) : option (list httpclient_action * dest) :=
  match n with
  | 137 => Some ([WriteValue], Goto 88)
  | 64 => Some ([HeadDone], Break 122)
  | 66 => Some ([StartField], Goto 90)
  | _ => None
  end.
(** Lines 2357 to 2506. *)
Definition httpclient_cases_17 (cs c : Z) : option label :=
  match cs with
  | 90 => Some (
      switch c [(33, st 21); (58, tr 39); (76, st 91); (79, st 26); (108, st 91); (111, st 26); (124, st 21); (126, st 21)]
      (if c <? 45 then if c >? 39 then if (42 <=? c) && (c <=? 43) then st 21 else st 0 else if c >=? 35 then st 21
      else st 0 else if c >? 46 then if c <? 65 then if (48 <=? c) && (c <=? 57) then st 21 else st 0
      else if c >? 90 then if (94 <=? c) && (c <=? 122) then st 21 else st 0 else st 21 else st 21))
  | 91 => Some (
      switch c [(33, st 21); (58, tr 39); (79, st 92); (111, st 92); (124, st 21); (126, st 21)]
      (if c <? 45 then if c >? 39 then if (42 <=? c) && (c <=? 43) then st 21 else st 0 else if c >=? 35 then st 21
      else st 0 else if c >? 46 then if c <? 65 then if (48 <=? c) && (c <=? 57) then st 21 else st 0
      else if c >? 90 then if (94 <=? c) && (c <=? 122) then st 21 else st 0 else st 21 else st 21))
  | 92 => Some (
      switch c [(33, st 21); (58, tr 39); (83, st 93); (115, st 93); (124, st 21); (126, st 21)]
      (if c <? 45 then if c >? 39 then if (42 <=? c) && (c <=? 43) then st 21 else st 0 else if c >=? 35 then st 21
      else st 0 else if c >? 46 then if c <? 65 then if (48 <=? c) && (c <=? 57) then st 21 else st 0
      else if c >? 90 then if (94 <=? c) && (c <=? 122) then st 21 else st 0 else st 21 else st 21))
  | 93 => Some (
      switch c [(33, st 21); (58, tr 39); (69, st 94); (101, st 94); (124, st 21); (126, st 21)]
      (if c <? 45 then if c >? 39 then if (42 <=? c) && (c <=? 43) then st 21 else st 0 else if c >=? 35 then st 21
      else st 0 else if c >? 46 then if c <? 65 then if (48 <=? c) && (c <=? 57) then st 21 else st 0
      else if c >? 90 then if (94 <=? c) && (c <=? 122) then st 21 else st 0 else st 21 else st 21))
  | 94 => Some (
      switch c [(10, st 43); (13, st 88); (33, st 21); (58, tr 39); (124, st 21); (126, st 21)]
      (if c <? 45 then if c >? 39 then if (42 <=? c) && (c <=? 43) then st 21 else st 0 else if c >=? 35 then st 21
      else st 0 else if c >? 46 then if c <? 65 then if (48 <=? c) && (c <=? 57) then st 21 else st 0
      else if c >? 90 then if (94 <=? c) && (c <=? 122) then st 21 else st 0 else st 21 else st 21))
  | _ => None
  end.
(** Lines 2507 to 2651. *)
Definition httpclient_cases_18 (cs c : Z) : option label :=
  match cs with
  | 95 => Some (
      switch c [(10, st 36); (32, st 37); (67, st 38); (99, st 38)] (if (9 <=? c) && (c <=? 13) then st 37 else st 0))
  | 96 => Some (switch c [(10, tr 45); (13, tr 46); (76, st 97); (108, st 97)] (st 23))
  | 97 => Some (switch c [(10, tr 45); (13, tr 46); (79, st 98); (111, st 98)] (st 23))
  | 98 => Some (switch c [(10, tr 45); (13, tr 46); (83, st 99); (115, st 99)] (st 23))
  | 99 => Some (switch c [(10, tr 45); (13, tr 46); (69, st 100); (101, st 100)] (st 23))
  | 100 => Some (switch c [(10, tr 136); (13, tr 137)] (st 23))
  | 101 => Some (
      switch c [(33, st 21); (58, tr 39); (69, st 102); (101, st 102); (124, st 21); (126, st 21)]
      (if c <? 45 then if c >? 39 then if (42 <=? c) && (c <=? 43) then st 21 else st 0 else if c >=? 35 then st 21
      else st 0 else if c >? 46 then if c <? 65 then if (48 <=? c) && (c <=? 57) then st 21 else st 0
      else if c >? 90 then if (94 <=? c) && (c <=? 122) then st 21 else st 0 else st 21 else st 21))
  | 102 => Some (
      switch c [(33, st 21); (58, tr 39); (78, st 103); (110, st 103); (124, st 21); (126, st 21)]
      (if c <? 45 then if c >? 39 then if (42 <=? c) && (c <=? 43) then st 21 else st 0 else if c >=? 35 then st 21
      else st 0 else if c >? 46 then if c <? 65 then if (48 <=? c) && (c <=? 57) then st 21 else st 0
      else if c >? 90 then if (94 <=? c) && (c <=? 122) then st 21 else st 0 else st 21 else st 21))
  | _ => None
  end.
Definition httpclient_trans_18 (n : Z) : option (list httpclient_action * dest) :=
  match n with
  | 61 => Some ([Mark; WriteValue], Goto 95)
  | 62 => Some ([Mark], Goto 96)
  | _ => None
  end.
(** Lines 2652 to 2798. *)
Definition httpclient_cases_19 (cs c : Z) : option label :=
  match cs with
  | 103 => Some (
      switch c [(33, st 21); (58, tr 39); (84, st 104); (116, st 104); (124, st 21); (126, st 21)]
      (if c <? 45 then if c >? 39 then if (42 <=? c) && (c <=? 43) then st 21 else st 0 else if c >=? 35 then st 21
      else st 0 else if c >? 46 then if c <? 65 then if (48 <=? c) && (c <=? 57) then st 21 else st 0
      else if c >? 90 then if (94 <=? c) && (c <=? 122) then st 21 else st 0 else st 21 else st 21))
  | 104 => Some (
      switch c [(33, st 21); (45, st 105); (46, st 21); (58, tr 39); (124, st 21); (126, st 21)]
      (if c <? 48 then if c >? 39 then if (42 <=? c) && (c <=? 43) then st 21 else st 0 else if c >=? 35 then st 21
      else st 0 else if c >? 57 then if c >? 90 then if (94 <=? c) && (c <=? 122) then st 21 else st 0
      else if c >=? 65 then st 21 else st 0 else st 21))
  | 105 => Some (
      switch c [(33, st 21); (58, tr 39); (76, st 106); (108, st 106); (124, st 21); (126, st 21)]
      (if c <? 45 then if c >? 39 then if (42 <=? c) && (c <=? 43) then st 21 else st 0 else if c >=? 35 then st 21
      else st 0 else if c >? 46 then if c <? 65 then if (48 <=? c) && (c <=? 57) then st 21 else st 0
      else if c >? 90 then if (94 <=? c) && (c <=? 122) then st 21 else st 0 else st 21 else st 21))
  | 106 => Some (
      switch c [(33, st 21); (58, tr 39); (69, st 107); (101, st 107); (124, st 21); (126, st 21)]
      (if c <? 45 then if c >? 39 then if (42 <=? c) && (c <=? 43) then st 21 else st 0 else if c >=? 35 then st 21
      else st 0 else if c >? 46 then if c <? 65 then if (48 <=? c) && (c <=? 57) then st 21 else st 0
      else if c >? 90 then if (94 <=? c) && (c <=? 122) then st 21 else st 0 else st 21 else st 21))
  | 107 => Some (
      switch c [(33, st 21); (58, tr 39); (78, st 108); (110, st 108); (124, st 21); (126, st 21)]
      (if c <? 45 then if c >? 39 then if (42 <=? c) && (c <=? 43) then st 21 else st 0 else if c >=? 35 then st 21
      else st 0 else if c >? 46 then if c <? 65 then if (48 <=? c) && (c <=? 57) then st 21 else st 0
      else if c >? 90 then if (94 <=? c) && (c <=? 122) then st 21 else st 0 else st 21 else st 21))
  | _ => None
  end.
(** Lines 2799 to 2939. *)
Definition httpclient_cases_20 (cs c : Z) : option label :=
  match cs with
  | 108 => Some (
      switch c [(33, st 21); (58, tr 39); (71, st 109); (103, st 109); (124, st 21); (126, st 21)]
      (if c <? 45 then if c >? 39 then if (42 <=? c) && (c <=? 43) then st 21 else st 0 else if c >=? 35 then st 21
      else st 0 else if c >? 46 then if c <? 65 then if (48 <=? c) && (c <=? 57) then st 21 else st 0
      else if c >? 90 then if (94 <=? c) && (c <=? 122) then st 21 else st 0 else st 21 else st 21))
  | 109 => Some (
      switch c [(33, st 21); (58, tr 39); (84, st 110); (116, st 110); (124, st 21); (126, st 21)]
      (if c <? 45 then if c >? 39 then if (42 <=? c) && (c <=? 43) then st 21 else st 0 else if c >=? 35 then st 21
      else st 0 else if c >? 46 then if c <? 65 then if (48 <=? c) && (c <=? 57) then st 21 else st 0
      else if c >? 90 then if (94 <=? c) && (c <=? 122) then st 21 else st 0 else st 21 else st 21))
  | 110 => Some (
      switch c [(33, st 21); (58, tr 39); (72, st 111); (104, st 111); (124, st 21); (126, st 21)]
      (if c <? 45 then if c >? 39 then if (42 <=? c) && (c <=? 43) then st 21 else st 0 else if c >=? 35 then st 21
      else st 0 else if c >? 46 then if c <? 65 then if (48 <=? c) && (c <=? 57) then st 21 else st 0
      else if c >? 90 then if (94 <=? c) && (c <=? 122) then st 21 else st 0 else st 21 else st 21))
  | 111 => Some (
      switch c [(33, st 21); (58, tr 148); (124, st 21); (126, st 21)]
      (if c <? 45 then if c >? 39 then if (42 <=? c) && (c <=? 43) then st 21 else st 0 else if c >=? 35 then st 21
      else st 0 else if c >? 46 then if c <? 65 then if (48 <=? c) && (c <=? 57) then st 21 else st 0
      else if c >? 90 then if (94 <=? c) && (c <=? 122) then st 21 else st 0 else st 21 else st 21))
  | 112 => Some (
      switch c [(10, tr 150); (13, tr 151); (32, tr 149)] (if c >? 12 then if (48 <=? c) && (c <=? 57) then tr 152
      else tr 40 else if c >=? 9 then tr 149 else tr 40))
  | _ => None
  end.
Definition httpclient_trans_20 (n : Z) : option (list httpclient_action * dest) :=
  match n with
  | 149 => Some ([Mark], Goto 112)
  | 148 => Some ([WriteField], Goto 112)
  | _ => None
  end.
(** Lines 2940 to 3088. *)
Definition httpclient_cases_21 (cs c : Z) : option label :=
  match cs with
  | 113 => Some (
      switch c [(10, tr 154); (13, st 116); (32, st 114); (33, tr 35); (67, tr 36); (84, tr 37); (99, tr 36); (116, tr 37);
      (124, tr 35); (126, tr 35)] (if c <? 45 then if c <? 35 then if (9 <=? c) && (c <=? 12) then st 114 else st 0
      else if c >? 39 then if (42 <=? c) && (c <=? 43) then tr 35 else st 0 else tr 35
      else if c >? 46 then if c <? 65 then if (48 <=? c) && (c <=? 57) then tr 156 else st 0
      else if c >? 90 then if (94 <=? c) && (c <=? 122) then tr 35 else st 0 else tr 35 else tr 35))
  | 114 => Some (
      if c =? 32 then st 114 else if c >? 13 then if (48 <=? c) && (c <=? 57) then tr 157 else st 0
      else if c >=? 9 then st 114 else st 0)
  | 115 => Some (switch c [(10, tr 158); (13, tr 159)] (if (48 <=? c) && (c <=? 57) then st 115 else st 0))
  | 123 => Some (
      if c =? 32 then st 114 else if c >? 13 then if (48 <=? c) && (c <=? 57) then tr 157 else st 0
      else if c >=? 9 then st 114 else st 0)
  | 116 => Some (
      switch c [(10, tr 154); (32, st 114)] (if c >? 13 then if (48 <=? c) && (c <=? 57) then tr 157 else st 0
      else if c >=? 9 then st 114 else st 0))
  | 117 => Some (
      switch c [(10, tr 158); (13, tr 159); (33, st 21); (58, tr 39); (124, st 21); (126, st 21)]
      (if c <? 45 then if c >? 39 then if (42 <=? c) && (c <=? 43) then st 21 else st 0 else if c >=? 35 then st 21
      else st 0 else if c >? 46 then if c <? 65 then if (48 <=? c) && (c <=? 57) then st 117 else st 0
      else if c >? 90 then if (94 <=? c) && (c <=? 122) then st 21 else st 0 else st 21 else st 21))
  | _ => None
  end.
Definition httpclient_trans_21 (n : Z) : option (list httpclient_action * dest) :=
  match n with
  | 150 => Some ([Mark; WriteValue], Goto 113)
  | 157 => Some ([Mark], Goto 115)
  | 154 => Some ([HeadDone], Break 123)
  | 156 => Some ([Mark; StartField], Goto 117)
  | _ => None
  end.
(** Lines 3089 to 3130. *)
Definition httpclient_cases_22 (cs c : Z) : option label :=
  match cs with
  | 118 => Some (
      switch c [(10, st 113); (32, st 114)] (if c >? 13 then if (48 <=? c) && (c <=? 57) then tr 157 else st 0
      else if c >=? 9 then st 114 else st 0))
  | 119 => Some (switch c [(10, tr 158); (13, tr 159)] (if (48 <=? c) && (c <=? 57) then st 119 else st 23))
  | _ => None
  end.
Definition httpclient_trans_22 (n : Z) : option (list httpclient_action * dest) :=
  match n with
  | 151 => Some ([Mark; WriteValue], Goto 118)
  | 152 => Some ([Mark], Goto 119)
  | _ => None
  end.
(** [switch( cs )]: the labels. *)
Definition httpclient_case (cs c : Z) : option label :=
  first_some (λ f, f cs c) [
    httpclient_cases_1; httpclient_cases_2; httpclient_cases_3; httpclient_cases_4; httpclient_cases_5;
    httpclient_cases_6; httpclient_cases_7; httpclient_cases_8; httpclient_cases_9; httpclient_cases_10;
    httpclient_cases_11; httpclient_cases_12; httpclient_cases_13; httpclient_cases_14; httpclient_cases_15;
    httpclient_cases_16; httpclient_cases_17; httpclient_cases_18; httpclient_cases_19; httpclient_cases_20;
    httpclient_cases_21; httpclient_cases_22].
Definition httpclient_trans (n : Z) : list httpclient_action * dest :=
  default ([], Goto 0) (first_some (λ f, f n) [
    httpclient_trans_1; httpclient_trans_2; httpclient_trans_3; httpclient_trans_4; httpclient_trans_5;
    httpclient_trans_8; httpclient_trans_9; httpclient_trans_12; httpclient_trans_13; httpclient_trans_14;
    httpclient_trans_15; httpclient_trans_16; httpclient_trans_18; httpclient_trans_20; httpclient_trans_21;
    httpclient_trans_22]).
Definition httpclient : Machine httpclient_action := {| case := httpclient_case; trans := httpclient_trans; first_test_eof := 2 |}.
