(* ===== verification/HttpClient.v ===== *)
(** * HttpClient ([webserve/http/httpclient_parser.cc], [httpclient_parser.h]): the response parser

    The code around the tables of HttpClientTable, as in Http11 for the request parser:
    the head of a response, or the line before a chunk of its body. *)
From S2P Require Import Prelude Text Callbacks Ragel HttpClientTable.
Open Scope string_scope.
Open Scope Z_scope.

(** [struct httpclient_parser], without [data] and the callbacks. *)
Record httpclient_parser := mkClientParser {
  c_cs : Z; c_body_start : Z; c_content_len : Z; c_status : Z; c_chunked : Z; c_chunks_done : Z; c_close : Z; c_nread : Z; c_mark : Z; c_field_start : Z; c_field_len : Z
}.
Definition c_set_cs v q := mkClientParser v (c_body_start q) (c_content_len q) (c_status q) (c_chunked q) (c_chunks_done q) (c_close q) (c_nread q) (c_mark q) (c_field_start q) (c_field_len q).
Definition c_set_body_start v q := mkClientParser (c_cs q) v (c_content_len q) (c_status q) (c_chunked q) (c_chunks_done q) (c_close q) (c_nread q) (c_mark q) (c_field_start q) (c_field_len q).
Definition c_set_content_len v q := mkClientParser (c_cs q) (c_body_start q) v (c_status q) (c_chunked q) (c_chunks_done q) (c_close q) (c_nread q) (c_mark q) (c_field_start q) (c_field_len q).
Definition c_set_status v q := mkClientParser (c_cs q) (c_body_start q) (c_content_len q) v (c_chunked q) (c_chunks_done q) (c_close q) (c_nread q) (c_mark q) (c_field_start q) (c_field_len q).
Definition c_set_chunked v q := mkClientParser (c_cs q) (c_body_start q) (c_content_len q) (c_status q) v (c_chunks_done q) (c_close q) (c_nread q) (c_mark q) (c_field_start q) (c_field_len q).
Definition c_set_chunks_done v q := mkClientParser (c_cs q) (c_body_start q) (c_content_len q) (c_status q) (c_chunked q) v (c_close q) (c_nread q) (c_mark q) (c_field_start q) (c_field_len q).
Definition c_set_close v q := mkClientParser (c_cs q) (c_body_start q) (c_content_len q) (c_status q) (c_chunked q) (c_chunks_done q) v (c_nread q) (c_mark q) (c_field_start q) (c_field_len q).
Definition c_set_nread v q := mkClientParser (c_cs q) (c_body_start q) (c_content_len q) (c_status q) (c_chunked q) (c_chunks_done q) (c_close q) v (c_mark q) (c_field_start q) (c_field_len q).
Definition c_set_mark v q := mkClientParser (c_cs q) (c_body_start q) (c_content_len q) (c_status q) (c_chunked q) (c_chunks_done q) (c_close q) (c_nread q) v (c_field_start q) (c_field_len q).
Definition c_set_field_start v q := mkClientParser (c_cs q) (c_body_start q) (c_content_len q) (c_status q) (c_chunked q) (c_chunks_done q) (c_close q) (c_nread q) (c_mark q) v (c_field_len q).
Definition c_set_field_len v q := mkClientParser (c_cs q) (c_body_start q) (c_content_len q) (c_status q) (c_chunked q) (c_chunks_done q) (c_close q) (c_nread q) (c_mark q) (c_field_start q) v.

(** [httpclient_parser_init]: [status] keeps its value. *)
Definition httpclient_parser_init (q : httpclient_parser) : httpclient_parser := mkClientParser 1 0 (-1) (c_status q) 0 0 0 0 0 0 0.
Definition httpclient_parser_has_error (q : httpclient_parser) : bool := c_cs q =? 0.
Definition httpclient_parser_is_finished (q : httpclient_parser) : bool := c_cs q =? 120.
Definition httpclient_parser_finish (q : httpclient_parser) : Z :=
  if httpclient_parser_has_error q then -1 else if httpclient_parser_is_finished q then 1 else 0.

(** The callbacks. *)
Record client_callbacks (D : Type) := mkClientCallbacks {
  c_http_field : option (field_cb D);
  c_reason_phrase : option (element_cb D); c_status_code : option (element_cb D); c_chunk_size : option (element_cb D);
  c_http_version : option (element_cb D); c_header_done : option (element_cb D); c_last_chunk : option (element_cb D)
}.
Arguments c_http_field {D} _.
Arguments c_reason_phrase {D} _.
Arguments c_status_code {D} _.
Arguments c_chunk_size {D} _.
Arguments c_http_version {D} _.
Arguments c_header_done {D} _.
Arguments c_last_chunk {D} _.

Section execute.
Context {D : Type} (cb : client_callbacks D) (buffer : string).

(** [strtol(PTR_TO(mark), NULL, base)], stored in an [int]. *)
Definition number_at (base : Z) (q : httpclient_parser) : Z := s32 (strtol base (PTR_TO buffer (c_mark q))).
(** The actions of the grammar; [HeadDone] is [done] without its [fbreak]. *)
Definition client_act (a : httpclient_action) (p : Z) : M (httpclient_parser * D) () :=
  q ← parser;
  match a with
  | Mark => update (c_set_mark p)
  | StartField => update (c_set_field_start p)
  | WriteField => update (c_set_field_len (LEN (c_field_start q) p))
  | WriteValue =>
      match c_http_field cb with
      | Some f => on_data (f (PTR_TO buffer (c_field_start q)) (c_field_len q) (PTR_TO buffer (c_mark q)) (LEN (c_mark q) p))
      | None => mret ()
      end
  | HttpVersion => call buffer (c_http_version cb) (c_mark q) p
  | ReasonPhrase => call buffer (c_reason_phrase cb) (c_mark q) p
  | StatusCode => update (c_set_status (number_at 10 q)) ;; call buffer (c_status_code cb) (c_mark q) p
  | ChunkSize =>
      let n := number_at 16 q in
      update (λ q, c_set_chunks_done (if n <=? 0 then 1 else 0) (c_set_content_len n (c_set_chunked 1 q))) ;;
      if (n <=? 0) && bool_decide (is_Some (c_last_chunk cb)) then call buffer (c_last_chunk cb) (c_mark q) p
      else call buffer (c_chunk_size cb) (c_mark q) p
  | TransChunked => update (c_set_chunked 1)
  | ConnectionClose => update (c_set_close 1)
  | ContentLen => update (c_set_content_len (number_at 10 q))
  | HeadDone =>
      update (c_set_body_start (p + 1)) ;;
      match c_header_done cb with
      | Some f => on_data (f (PTR_TO buffer (p + 1)) (str_len buffer - p - 1))
      | None => mret ()
      end
  end.

(** The beginning of a call, and what follows [_out]; a failed [check] is -1. *)
Definition client_reset (q : httpclient_parser) : httpclient_parser :=
  c_set_field_start 0 (c_set_field_len 0 (c_set_mark 0 (c_set_nread 0 q))).
Definition client_end (off cs' p : Z) : M (httpclient_parser * D) Z :=
  let len := str_len buffer in
  update (c_set_cs cs') ;;
  update (λ q, c_set_nread (u64 (c_nread q + (p - off))) q) ;;
  q ← parser;
  assert_ (p <=? len) ;;
  assert_ (c_nread q <=? len) ;;
  assert_ (c_body_start q <=? len) ;;
  mret (if (c_mark q <? len) && (c_field_len q <=? len) && (c_field_start q <? len) then s32 (c_nread q) else -1).
(** [httpclient_parser_execute(parser, buffer, len, off)], [len] the length of [buffer]. *)
Definition httpclient_parser_execute (off : Z) : M (httpclient_parser * D) Z :=
  let len := str_len buffer in
  update client_reset ;;
  q ← parser;
  assert_ (off <=? len) ;;
  assert_ (len - off =? s32 len - s32 off) ;;
  '(cs', p) ← run (Machine0 := httpclient) client_act (c_cs q) off (str_drop (Z.to_nat off) buffer);
  client_end off cs' p.
End execute.
