(* ===== verification/HttpClientFacts.v ===== *)
(** * HttpClientFacts: what can happen when the response parser reads a buffer

    The marks stay inside the buffer, a call makes progress, and only two things can go
    wrong: a field whose name is taken to reach behind the buffer, and a buffer shorter
    than the head that an earlier call has finished. *)
From S2P Require Import Prelude Text Callbacks Ragel HttpClientTable HttpClient.
Open Scope string_scope.
Open Scope Z_scope.

(** The length of a field name is not bounded by the buffer. *)
Definition outcome_oob {S A} (P : S → A → Prop) (r : result S A) : Prop :=
  match r with Done s a => P s a | Raise _ _ => True | Undef c => c = OutOfBounds | NoFuel => False end.
Definition field_safe_oob {D} (I : D → Prop) (f : field_cb D) : Prop :=
  ∀ at1 l1 at2 l2 d, I d → 0 ≤ l1 → 0 ≤ l2 ≤ str_len at2 → outcome_oob (λ d _, I d) (f at1 l1 at2 l2 d).
Definition all_safe_oob {D} (I : D → Prop) (cb : client_callbacks D) : Prop :=
  from_option (field_safe_oob I) True (c_http_field cb) ∧
  Forall (from_option (element_safe I) True)
    [c_reason_phrase cb; c_status_code cb; c_chunk_size cb; c_http_version cb; c_header_done cb; c_last_chunk cb].

(** ** What the tables guarantee *)
Definition states : list Z := Z.of_nat <$> seq 1 123.
Lemma states_all (f : Z → bool) cs : forallb f states = true → 1 ≤ cs ≤ 123 → f cs = true.
Proof.
  rewrite forallb_forall. intros H Hcs. apply H. unfold states. rewrite <-list_elem_of_In. apply list_elem_of_fmap.
  exists (Z.to_nat cs). split; [lia|]. apply elem_of_seq. lia.
Qed.
(** The head is done only by a transition that ends the run in a final state. *)
Definition orderly (t : option (list httpclient_action * dest)) : bool :=
  match t with
  | Some (acts, Goto n) => (0 <=? n) && (n <=? 123) && forallb (λ a, match a with HeadDone => false | _ => true end) acts
  | Some (acts, Break n) => (120 <=? n) && (n <=? 123)
  | None => false
  end.
Lemma all_orderly : forallb (λ cs, forallb (λ c, orderly (edge (Machine0 := httpclient) cs c)) chars) states = true.
Proof. vm_compute. reflexivity. Qed.
Lemma client_edge cs c : 1 ≤ cs ≤ 123 → orderly (edge (Machine0 := httpclient) cs (char_value c)) = true.
Proof.
  intros Hcs. pose proof (states_all _ cs all_orderly Hcs) as H. cbv beta in H. by apply (chars_all _ c) in H.
Qed.

(** ** A call *)
Section safety.
Context {D : Type} (I : D → Prop) (cb : client_callbacks D) (buffer : string).
Hypothesis Hcb : all_safe_oob I cb.
Hypothesis Hlen : str_len buffer < 2 ^ 31.
#[local] Set Default Proof Using "All".

(** The marks lie before the position [p] and inside the buffer. *)
Record client_marks (p : Z) (q : httpclient_parser) : Prop := {
  ok_mark : 0 ≤ c_mark q ≤ p; ok_mark_in : c_mark q < str_len buffer;
  ok_field : 0 ≤ c_field_start q ≤ p; ok_field_in : c_field_start q < str_len buffer; ok_flen : 0 ≤ c_field_len q ≤ p;
  ok_body : 0 ≤ c_body_start q; ok_clen : - 2 ^ 31 ≤ c_content_len q; ok_nread : c_nread q = 0
}.
Lemma number_range base q : - 2 ^ 31 ≤ number_at buffer base q.
Proof. unfold number_at, s32. pose proof (Z.mod_pos_bound (strtol base (PTR_TO buffer (c_mark q)) + 2 ^ 31) (2 ^ 32)). lia. Qed.
Lemma client_marks_later p p' q : client_marks p q → p ≤ p' → client_marks p' q.
Proof. intros []. split; lia. Qed.

(** The outcome of actions at [p] from [q]. *)
Definition acted (p : Z) (q : httpclient_parser) (done_ : Prop) (s : httpclient_parser * D) : Prop :=
  I s.2 ∧ client_marks p s.1 ∧ c_cs s.1 = c_cs q ∧ (done_ ∧ c_body_start s.1 = p + 1 ∨ c_body_start s.1 = c_body_start q).
Lemma call_acted f m p q d P : from_option (element_safe I) True f → 0 ≤ p < str_len buffer → 0 ≤ m < 2 ^ 63 → client_marks p q → I d →
  outcome_oob (λ s _, acted p q P s) (call buffer f m p (q, d)).
Proof.
  intros Hf Hp Hm Hq HI. pose proof (call_safe I buffer f m p q d Hlen Hf Hp Hm HI) as Hc.
  destruct (call buffer f m p (q, d)) as [[q' d'] ?|[q' d'] ?| |]; try done. destruct Hc as [Hq' HI']. cbn in *. subst q'. split_and!; auto.
Qed.
Ltac marks_done := split_and!; cbn; try (split; cbn); try apply number_range; first [lia | by left | by right | done].
Lemma client_act_safe a p q d : 0 ≤ p < str_len buffer → client_marks p q → I d →
  outcome_oob (λ s _, acted p q (a = HeadDone) s) (client_act cb buffer a p (q, d)).
Proof.
  intros Hp Hm HI. pose proof Hcb as [Hfield Hel]. rewrite !Forall_cons in Hel. destruct Hel as (? & ? & ? & ? & ? & ? & _).
  pose proof Hm as [Hm1 Hm2 Hf1 Hf2 Hl Hb Hk Hn].
  unfold client_act. rewrite parser_bind. destruct a; try (apply call_acted; done || lia); try (cbn; marks_done).
  - cbn. split_and!; cbn; try (split; cbn); rewrite ?LEN_back by lia; auto; lia.
  - destruct (c_http_field cb) as [f|]; [|cbn; marks_done]. unfold on_data.
    specialize (Hfield (PTR_TO buffer (c_field_start q)) (c_field_len q) (PTR_TO buffer (c_mark q)) (LEN (c_mark q) p) d HI).
    rewrite LEN_back, (PTR_TO_len _ (c_mark q)) in Hfield by lia. rewrite LEN_back in * by lia.
    destruct (f _ _ _ _ d); cbn in *; try (apply Hfield; lia). split_and!; auto. apply Hfield; lia.
  - rewrite update_bind. eapply (call_acted _ _ _ (c_set_status (number_at buffer 10 q) q)); try done; try lia; by split.
  - rewrite update_bind. set (q' := c_set_chunks_done _ _).
    assert (Hq' : client_marks p q') by (split; try done; apply number_range).
    destruct (_ && _); (eapply (call_acted _ _ _ q'); [done|done|lia|done|done]).
  - rewrite update_bind. destruct (c_header_done cb) as [f|]; [|cbn; marks_done].
    unfold on_data. match goal with H : from_option (element_safe I) True (Some f) |- _ =>
      specialize (H (PTR_TO buffer (p + 1)) (str_len buffer - p - 1) d HI) as Hs end. rewrite PTR_TO_len in Hs by lia.
    destruct (f _ _ d); cbn in *; try (apply Hs; lia); [|by destruct Hs; [left; lia|..]..].
    split_and!; cbn; try (split; cbn); auto; try lia. apply Hs; lia.
Qed.

Lemma client_actions_safe acts : ∀ p q d, 0 ≤ p < str_len buffer → client_marks p q → I d →
  outcome_oob (λ s _, acted p q (In HeadDone acts) s) (do_actions (client_act cb buffer) acts p (q, d)).
Proof.
  induction acts as [|a acts IH]; intros p q d Hp Hm HI; cbn [do_actions].
  { cbn. split_and!; auto. }
  pose proof (client_act_safe a p q d Hp Hm HI) as Ha.
  destruct (client_act cb buffer a p (q, d)) as [[q1 d1] []|[q1 d1] e|c|] eqn:E; try done.
  - rewrite (bind_done _ _ _ _ _ E). destruct Ha as (HI1 & Hm1 & Hc1 & Hb1). cbn in HI1, Hm1, Hc1, Hb1.
    specialize (IH p q1 d1 Hp Hm1 HI1). destruct (do_actions (client_act cb buffer) acts p (q1, d1)) as [[q2 d2] ?|[q2 d2] ?| |]; try done.
    destruct IH as (HI2 & Hm2 & Hc2 & Hb2). unfold acted. cbn in *. split; [done|]. split; [done|]. split; [congruence|].
    destruct Hb2 as [[? ?]|Hb2]; [left; auto|]. rewrite Hb2. destruct Hb1 as [[-> ?]|]; [left; auto|by right].
  - by rewrite (bind_raise _ _ _ _ _ E).
  - rewrite (bind_undef _ _ _ _ E). done.
Qed.

(** A whole run: it ends behind the buffer, in the error state, or in a final state. *)
Definition ran (cs0 p p' cs' : Z) (q q' : httpclient_parser) : Prop :=
  p ≤ p' ≤ str_len buffer ∧ 0 ≤ cs' ≤ 123 ∧ (cs' = 0 ∨ p < p' ∨ cs' = cs0 ∧ p' = str_len buffer) ∧ c_cs q' = c_cs q ∧
  (cs' = 0 ∨ p' = str_len buffer ∨ 120 ≤ cs') ∧ (120 ≤ cs' ∧ 0 ≤ c_body_start q' ≤ p' ∨ c_body_start q' = c_body_start q).
Lemma client_run_safe s : ∀ cs0 p q d, 0 ≤ p → p + str_len s = str_len buffer → client_marks p q → 1 ≤ cs0 ≤ 123 → I d →
  outcome_oob (λ '(q', d') '(cs', p'), I d' ∧ client_marks p' q' ∧ ran cs0 p p' cs' q q') (run (Machine0 := httpclient) (client_act cb buffer) cs0 p s (q, d)).
Proof.
  induction s as [|c s IH]; intros cs0 p q d Hp Hs Hm Hcs HI; cbn [run].
  { unfold str_len in Hs at 1. cbn in Hs. cbn. unfold ran. split; [done|]. split; [done|]. split_and!; auto; lia. }
  assert (Hs' : p + 1 + str_len s = str_len buffer) by (unfold str_len in Hs at 1; cbn [String.length] in Hs; unfold str_len at 1; lia).
  pose proof (str_len_nonneg s). pose proof (client_edge cs0 c Hcs) as He. unfold orderly in He.
  destruct (edge cs0 (char_value c)) as [[acts dst]|]; [|done].
  pose proof (client_actions_safe acts p q d ltac:(lia) Hm HI) as Ha.
  destruct (do_actions (client_act cb buffer) acts p (q, d)) as [[q1 d1] []|? ?|?|] eqn:E; try done.
  2:{ by rewrite (bind_raise _ _ _ _ _ E). }
  2:{ by rewrite (bind_undef _ _ _ _ E). }
  rewrite (bind_done _ _ _ _ _ E). destruct Ha as (HI1 & Hm1 & Hc1 & Hb1). cbn in HI1, Hm1, Hc1, Hb1.
  destruct dst as [n|n].
  - apply andb_true_iff in He as [He Hhd].
    assert (Hb1' : c_body_start q1 = c_body_start q).
    { destruct Hb1 as [[Hin _]|]; [|done]. rewrite forallb_forall in Hhd. by specialize (Hhd _ Hin). }
    destruct (n =? 0) eqn:Hn.
    { cbn. unfold ran. split; [done|]. split; [done|]. split_and!; auto; lia. }
    specialize (IH n (p + 1) q1 d1 ltac:(lia) Hs' (client_marks_later p (p + 1) _ Hm1 ltac:(lia)) ltac:(lia) HI1). revert IH.
    destruct (run _ n (p + 1) s (q1, d1)) as [[q2 d2] [cs2 p2]|? ?|?|]; try done. cbn. unfold ran. intros (? & ? & ? & ? & Hpr & ? & ? & Hb).
    split; [done|]. split; [done|]. split_and!; try lia; try congruence; destruct Hb as [|Hb]; try lia; right; congruence.
  - cbn. unfold ran. split; [done|]. split; [by apply (client_marks_later p); [|lia]|]. split_and!; auto; try lia;
    destruct Hb1 as [[_ ->]|]; lia.
Qed.

Lemma client_end_eq cs' p q d : client_marks p q → 0 ≤ p ≤ str_len buffer → c_body_start q ≤ str_len buffer →
  client_end (D := D) buffer 0 cs' p (q, d) = Done (c_set_nread p (c_set_cs cs' q), d) p.
Proof.
  intros [] Hp Hb. unfold client_end. rewrite !update_bind, parser_bind.
  cbn [c_nread c_set_nread c_set_cs c_body_start c_mark c_field_len c_field_start c_cs]. cbv beta.
  rewrite ok_nread0, Z.sub_0_r, Z.add_0_l, u64_small by lia. rewrite !assert_bind by lia.
  replace (c_mark q <? str_len buffer) with true by lia. replace (c_field_len q <=? str_len buffer) with true by lia.
  replace (c_field_start q <? str_len buffer) with true by lia. cbn. by rewrite s32_small by lia.
Qed.
(** A call on a buffer that is not empty, run by run. *)
Lemma client_execute_run q d : 0 < str_len buffer → httpclient_parser_execute cb buffer 0 (q, d) =
  (run (Machine0 := httpclient) (client_act cb buffer) (c_cs q) 0 buffer ≫= λ '(cs', p), client_end (D := D) buffer 0 cs' p) (client_reset q, d).
Proof.
  intros H0. unfold httpclient_parser_execute.
  rewrite update_bind, parser_bind, !assert_bind; [done|rewrite (s32_small (str_len buffer)) by lia; apply Z.eqb_refl|lia].
Qed.
(** [httpclient_parser_execute] on a buffer that is not empty: no assertion fails but the
    one about a head that is longer than the buffer, the checks never fail, and the call
    consumes the buffer, fails, or stands behind the end of a head. *)
Lemma httpclient_parser_execute_safe q d : 0 < str_len buffer → 1 ≤ c_cs q ≤ 123 → 0 ≤ c_body_start q → - 2 ^ 31 ≤ c_content_len q → I d →
  match httpclient_parser_execute cb buffer 0 (q, d) with
  | Done (q', d') n => I d' ∧ 0 ≤ n ≤ str_len buffer ∧ 0 ≤ c_cs q' ≤ 123 ∧ 0 ≤ c_body_start q' ≤ str_len buffer ∧ - 2 ^ 31 ≤ c_content_len q' ∧
      (c_cs q' = 0 ∨ 0 < n ∧ (n = str_len buffer ∨ 120 ≤ c_cs q')) ∧ (120 ≤ c_cs q' ∨ c_body_start q' = c_body_start q)
  | Raise _ _ => True
  | Undef c => c = OutOfBounds ∨ c = AssertFail ∧ str_len buffer < c_body_start q
  | NoFuel => False
  end.
Proof.
  intros H0 Hcs Hb Hk HI. rewrite (client_execute_run q d H0).
  assert (Hm : client_marks 0 (client_reset q)) by (split; cbn; lia).
  pose proof (client_run_safe buffer (c_cs q) 0 _ d ltac:(lia) ltac:(lia) Hm Hcs HI) as Hr.
  destruct (run _ (c_cs q) 0 buffer (client_reset q, d)) as [[q1 d1] [cs1 p1]|? ?|?|] eqn:E; try done.
  2:{ by rewrite (bind_raise _ _ _ _ _ E). }
  2:{ rewrite (bind_undef _ _ _ _ E). by left. }
  rewrite (bind_done _ _ _ _ _ E). destruct Hr as (HI1 & Hm1 & Hp1 & Hc1 & Hpr & Hq1 & Hend & Hb1).
  change (c_body_start (client_reset q)) with (c_body_start q) in Hb1. destruct (decide (c_body_start q1 ≤ str_len buffer)) as [Hbs|Hbs].
  - rewrite client_end_eq by (done || lia). destruct Hm1. cbn. split_and!; auto; try lia.
  - assert (Ha : client_end (D := D) buffer 0 cs1 p1 (q1, d1) = Undef AssertFail).
    { unfold client_end. rewrite !update_bind, parser_bind. destruct Hm1.
      cbn [c_nread c_set_nread c_set_cs c_body_start]. cbv beta. rewrite ok_nread0, Z.sub_0_r, Z.add_0_l, u64_small, !(assert_bind (p1 <=? _)) by lia.
      by replace (c_body_start q1 <=? str_len buffer) with false by lia. }
    rewrite Ha. right. split; [done|lia].
Qed.
End safety.
