(* ===== verification/HttpResponseParser.v ===== *)
(** * HttpResponseParser ([webserve/http/http_parser.h], [http_parser.cc])

    The object behind the callbacks of the response parser, as in HttpParser.  The log
    lines of the callbacks have no other effect and are left out. *)
From S2P Require Import Prelude Text Http Callbacks Ragel HttpClientTable HttpClient HttpClientFacts.
Open Scope string_scope.
Open Scope Z_scope.

(** [HttpResponseParser] is [m_parser] with what its callbacks write. *)
Record response_data := mkResponseData { r_data : HttpResponse; r_error : Z }.
Definition HttpResponseParser : Type := httpclient_parser * response_data.
Definition setError (v : Z) : M response_data () := modify (λ d, mkResponseData (r_data d) v).
(** [parser->getData()->...] *)
Definition on_response (f : HttpResponse → HttpResponse) : M response_data () :=
  modify (λ d, mkResponseData (f (r_data d)) (r_error d)).

Definition on_response_reason : element_cb response_data := λ at_ length,
  s ← std_string at_ length; on_response (rsp_setReason s).
Definition on_response_status : element_cb response_data := λ at_ length,
  on_response (rsp_setStatus (status_of_code (atoi at_))).
Definition on_response_chunk : element_cb response_data := λ at_ length, mret ().
Definition on_response_version : element_cb response_data := λ at_ length,
  match parse_version at_ length with
  | Some v => on_response (rsp_setVersion v)
  | None => setError 1001
  end.
Definition on_response_header_done : element_cb response_data := λ at_ length, mret ().
Definition on_response_last_chunk : element_cb response_data := λ at_ length, mret ().
Definition on_response_http_field : field_cb response_data := λ field flen value vlen,
  if flen =? 0 then mret () else
  k ← std_string field flen; v ← std_string value vlen; on_response (rsp_setHeader k v).

Definition response_callbacks : client_callbacks response_data :=
  {| c_reason_phrase := Some on_response_reason; c_status_code := Some on_response_status; c_chunk_size := Some on_response_chunk;
     c_http_version := Some on_response_version; c_header_done := Some on_response_header_done;
     c_last_chunk := Some on_response_last_chunk; c_http_field := Some on_response_http_field |}.
(** [HttpResponseParser::HttpResponseParser]; [mem] is what the memory of [m_parser] holds. *)
Definition HttpResponseParser_new (mem : httpclient_parser) : HttpResponseParser :=
  (httpclient_parser_init mem, mkResponseData (HttpResponse_new 0x11 true) 0).

(** [HttpResponseParser::execute]: the result, and the data after the [memmove]. *)
Definition execute (data : string) (chunck : bool) : M HttpResponseParser (Z * string) :=
  (if chunck then update httpclient_parser_init else mret ()) ;;
  r ← httpclient_parser_execute response_callbacks data 0;
  let offset := u64 r in
  if offset <=? str_len data then mret (offset, str_drop (Z.to_nat offset) data) else undef OutOfBounds.
Definition isFinished (prs : HttpResponseParser) : Z := httpclient_parser_finish prs.1.
Definition hasError (prs : HttpResponseParser) : bool := negb (r_error prs.2 =? 0) || httpclient_parser_has_error prs.1.
(** [HttpResponseParser::getContentLength], with Boost's conversion to [uint64_t]. *)
Definition getContentLength (lexical_cast : string → option Z) (prs : HttpResponseParser) : Z :=
  getAs lexical_cast (p_headers (r_data prs.2)) "content-length" 0.

(** The callbacks write no body. *)
Definition no_body (d : response_data) : Prop := p_body (r_data d) = "".
Lemma std_string_oob {S} (I : S → Prop) at_ n s (k : string → M S ()) : I s → 0 ≤ n →
  (∀ t, outcome_oob (λ s _, I s) (k t s)) → outcome_oob (λ s _, I s) ((std_string at_ n ≫= k) s).
Proof.
  intros HI Hn Hk. unfold std_string. destruct (n >? str_max); [done|]. destruct (n <=? str_len at_); [apply Hk|done].
Qed.
Lemma response_callbacks_safe : all_safe_oob no_body response_callbacks.
Proof.
  split.
  - intros at1 l1 at2 l2 d HI H1 H2. unfold on_response_http_field. destruct (l1 =? 0); [done|].
    apply std_string_oob; [done|done|]. intros. apply std_string_oob; [done|lia|]. done.
  - rewrite !Forall_cons. cbn. split_and!; try done; intros at_ len d HI Hl; try done; try by apply std_string_safe.
    unfold on_response_version. by destruct (parse_version at_ len).
Qed.
