(* ===== verification/HttpResponseFacts.v ===== *)
(** * HttpResponseFacts: the response parser reads every head a server may write

    The machine follows the automata of HttpGrammar and two of its own, for a reason and
    for the name of a field that is not "transfer-encoding"; then the pieces of the text,
    and the head, as HttpParserFacts has them for requests. *)
From S2P Require Import Prelude Text Http HttpFacts HttpGrammar HttpFields Callbacks Ragel HttpClientTable HttpClient HttpClientFacts HttpResponseParser.
Open Scope string_scope.
Open Scope Z_scope.

(** ** The machine follows the grammar *)
#[local] Existing Instance httpclient.
(** A reason has no line end. *)
Definition reason_spec (_ : ()) (c : Z) : option () := if one_of [10; 13] c then None else Some ().
Definition reason_ok (s : string) : bool := negb (is_empty s) && match accepts reason_spec () s with Some _ => true | None => false end.
Definition status_spec := digits_spec.
(** A field name against "transfer-encoding": the rest that has not been matched, or
    nothing behind the first difference. *)
Definition transfer_encoding : string := "transfer-encoding".
Definition lower_value (c : Z) : Z := if (65 <=? c) && (c <=? 90) then c + 32 else c.
Definition te_spec (q : option string) (c : Z) : option (option string) :=
  if is_tchar c then
    Some (match q with Some (String x r) => if lower_value c =? char_value x then Some r else None | _ => None end)
  else None.
Fixpoint suffixes (s : string) (l : list Z) : list (string * Z) :=
  match s, l with String _ r, n :: l => (r, n) :: suffixes r l | _, _ => [] end.
(** The states of a name, by what is left of "transfer-encoding". *)
Definition te_states : list (string * Z) := suffixes transfer_encoding (44 :: (Z.of_nat <$> seq 45 16)).
Definition other_states : list Z := 21 :: (Z.of_nat <$> seq 25 10) ++ (Z.of_nat <$> seq 101 11).
Definition name_states : list Z := other_states ++ (Z.of_nat <$> seq 44 16).
Definition above_name (q : option string) : list Z :=
  match q with
  | None => other_states
  | Some r => snd <$> List.filter (λ e, String.eqb e.1 r) te_states
  end.
Definition above_reason (_ : ()) := [19].
Definition above_status (_ : ()) := [17].
Definition above_value (first : bool) := if first then [] else [23; 96; 97; 98; 99; 100; 119].

Lemma reason_simulates q : simulates reason_spec above_reason q = true.
Proof. destruct q. vm_compute. reflexivity. Qed.
Lemma status_simulates q : simulates digits_spec above_status q = true.
Proof. destruct q. vm_compute. reflexivity. Qed.
Lemma response_value_simulates q : simulates value_spec above_value q = true.
Proof. destruct q; vm_compute; reflexivity. Qed.
Lemma te_simulates q : simulates te_spec above_name q = true.
Proof.
  destruct q as [r|]; [|vm_compute; reflexivity].
  destruct (decide (r ∈ te_states.*1)) as [Hin|Hout].
  - unfold te_states, transfer_encoding in Hin. cbn in Hin.
    repeat (apply elem_of_cons in Hin as [->|Hin]; [vm_compute; reflexivity|]). by apply elem_of_nil in Hin.
  - unfold simulates. replace (above_name (Some r)) with (@nil Z); [done|]. cbn [above_name]. revert Hout. generalize te_states.
    induction l as [|[r' n] l IH]; cbn; [done|]. intros [Hne Hout]%not_elem_of_cons.
    destruct (String.eqb_spec r' r) as [->|]; [done|]. by apply IH.
Qed.
Lemma reason_enters : enters reason_spec above_reason [Mark] 18 () = true.
Proof. vm_compute. reflexivity. Qed.
Lemma status_enters : enters digits_spec above_status [Mark] 16 () = true.
Proof. vm_compute. reflexivity. Qed.
(** The states before a field: 43 behind "connection: close". *)
Definition before_field (cs : Z) : Prop := cs = 20 ∨ cs = 43.
Definition first_acts (cs : Z) : list httpclient_action := if cs =? 43 then [ConnectionClose; StartField] else [StartField].
Lemma name_enters cs : before_field cs → enters te_spec above_name (first_acts cs) cs (Some transfer_encoding) = true.
Proof. intros [-> | ->]; vm_compute; reflexivity. Qed.
(** The states behind the colon. *)
Definition value_starts : list Z := [22; 35; 112].
Lemma name_exits : forallb (λ cs, steps_in [WriteField] cs 58 value_starts) name_states = true.
Proof. vm_compute. reflexivity. Qed.
Lemma response_value_enters cs : In cs value_starts → enters value_spec above_value [Mark] cs true = true.
Proof. intros [<-|[<-|[<-|[]]]]; vm_compute; reflexivity. Qed.

(** ** The pieces of a text *)
#[local] Notation parse := (Ragel.parse (client_act response_callbacks)).
Definition upd (f : HttpResponse → HttpResponse) (d : response_data) : response_data := mkResponseData (f (r_data d)) (r_error d).
(** What a piece leaves of the parser: only whether chunks follow matters later. *)
Definition plain (q : httpclient_parser) : Prop := c_chunked q = 0.

(** The callbacks that copy a marked text. *)
Lemma response_text pre w s f at_ (q : httpclient_parser) d : at_ = str_len pre → fits (pre ++ w ++ s) →
  call ((pre ++ w) ++ s) (Some (λ a n, t ← std_string a n; on_response (f t))) at_ (str_len (pre ++ w)) (q, d) = Done (q, upd (f w) d) ().
Proof.
  intros -> Hf. unfold call, on_data. destruct (marked pre w s Hf) as [-> ->].
  by rewrite (bind_done _ _ _ _ _ (std_string_piece w s d (fits_app_r _ _ Hf))).
Qed.
Lemma act_reason pre w s q d : c_mark q = str_len pre → fits (pre ++ w ++ s) →
  client_act response_callbacks ((pre ++ w) ++ s) ReasonPhrase (str_len (pre ++ w)) (q, d) = Done (q, upd (rsp_setReason w) d) ().
Proof. apply response_text. Qed.
Lemma parse_reason pre w s q d : plain q → reason_ok w = true → fits (pre ++ w ++ CRLF ++ s) →
  ∃ q', plain q' ∧ parse pre 18 (w ++ CRLF ++ s) (q, d) = parse (pre ++ w ++ CRLF) 20 s (q', upd (rsp_setReason w) d).
Proof.
  intros Hq [Hne Ha]%andb_true_iff Hf. destruct (accepts reason_spec () w) as [[]|] eqn:Hacc; [|done].
  assert (Hne' : w ≠ "") by by intros ->.
  destruct (parse_token (client_act response_callbacks) reason_spec above_reason Mark (λ p, (c_set_mark p q, d)) 18 () () pre w (CRLF ++ s) (q, d)
    reason_simulates reason_enters (λ _ _, eq_refl) Hne' Hacc) as (cs' & [<-|[]] & ->).
  exists (c_set_mark (str_len pre) q). split; [done|]. unfold CRLF in Hf |- * at 1. cbn [append] in Hf |- *.
  pose proof (act_reason pre w (String "013" (String "010" s)) (c_set_mark (str_len pre) q) d eq_refl Hf) as Hact.
  rewrite (parse_edge (client_act response_callbacks) _ 19 "013" _ [ReasonPhrase] 24 _ (c_set_mark (str_len pre) q, upd (rsp_setReason w) d)); [|done|done|].
  - change (String "010" s) with (String "010" "" ++ s). rewrite (parse_quiet _ _ 24 _ 20) by (apply quiet_to_ok; done).
    by rewrite !str_app_assoc.
  - by rewrite (do_action (client_act response_callbacks) _ _ _ _ _ _ Hact).
Qed.
(** The status: the digits and the space behind them. *)
Definition status_ok (st : HttpStatus) : Prop := 0 ≤ status_code st < 2 ^ 31 ∧ status_of_code (status_code st) = st.
Lemma parse_status pre st s q d : plain q → status_ok st → fits (pre ++ dec (status_code st) ++ " " ++ s) →
  ∃ q', plain q' ∧ parse pre 16 (dec (status_code st) ++ " " ++ s) (q, d) = parse (pre ++ dec (status_code st) ++ " ") 18 s (q', upd (rsp_setStatus st) d).
Proof.
  intros Hq [Hc Hst] Hf. set (w := dec (status_code st)) in *.
  destruct (parse_token (client_act response_callbacks) digits_spec above_status Mark (λ p, (c_set_mark p q, d)) 16 () () pre w (" " ++ s) (q, d)
    status_simulates status_enters (λ _ _, eq_refl) (dec_nonempty _)) as (cs' & [<-|[]] & ->).
  { apply accepts_digits, dec_digits. lia. }
  set (q1 := c_set_mark (str_len pre) q). exists (c_set_status (status_code st) q1). split; [done|]. cbn [append].
  rewrite (parse_edge (client_act response_callbacks) _ 17 " " _ [StatusCode] 18 _ (c_set_status (status_code st) q1, upd (rsp_setStatus st) d)); [|done|done|].
  - by rewrite !str_app_assoc.
  - rewrite (do_action (client_act response_callbacks) _ _ _ _ _ (c_set_status (status_code st) q1, upd (rsp_setStatus st) d)); [done|].
    destruct (marked pre w (" " ++ s) Hf) as [_ HP]. cbn [append] in HP.
    assert (Hn : atoi (w ++ String " " s) = status_code st) by by apply atoi_dec.
    unfold client_act. rewrite parser_bind. unfold number_at. cbn [c_mark c_set_mark q1]. rewrite update_bind, HP.
    change (s32 (strtol 10 (w ++ String " " s))) with (atoi (w ++ String " " s)). rewrite Hn.
    unfold call, on_data. cbn [c_status_code response_callbacks]. rewrite HP. unfold on_response_status. by rewrite Hn, Hst.
Qed.
Lemma response_version v : v = 0x10 ∨ v = 0x11 → ∃ w, dump_version v = String "H" w ∧ edge 1 (char_value "H") = Some ([Mark], Goto 8) ∧ quiet 8 w 15.
Proof. intros [-> | ->]; eexists; (split; [vm_compute; reflexivity|]); (split; [done|]); apply quiet_to_ok; vm_compute; reflexivity. Qed.
Lemma parse_version_start pre v s q d : plain q → v = 0x10 ∨ v = 0x11 → fits (pre ++ dump_version v ++ " " ++ s) →
  ∃ q', plain q' ∧ parse pre 1 (dump_version v ++ " " ++ s) (q, d) = parse (pre ++ dump_version v ++ " ") 16 s (q', upd (rsp_setVersion v) d).
Proof.
  intros Hp Hv Hf. destruct (response_version v Hv) as (w & Hw & He & Hq). pose proof (parse_version_ok v (" " ++ s) Hv) as Hc.
  exists (c_set_mark (str_len pre) q). split; [done|]. rewrite Hw in *. cbn [append] in *.
  rewrite (parse_edge (client_act response_callbacks) pre 1 "H" _ [Mark] 8 _ (c_set_mark (str_len pre) q, d)); [|done|done|done].
  rewrite (parse_quiet (client_act response_callbacks) _ _ _ _ _ _ Hq), (str_app_assoc pre (String "H" "") w). change (String "H" "" ++ w) with (String "H" w).
  rewrite (parse_edge (client_act response_callbacks) _ 15 " " _ [HttpVersion] 16 _ (c_set_mark (str_len pre) q, upd (rsp_setVersion v) d)); [|done|done|].
  - by rewrite !str_app_assoc.
  - rewrite (do_action (client_act response_callbacks) _ _ _ _ _ (c_set_mark (str_len pre) q, upd (rsp_setVersion v) d)); [done|].
    unfold client_act. rewrite parser_bind. unfold call. cbn [c_http_version response_callbacks c_mark c_set_mark]. unfold on_data.
    destruct (marked pre (String "H" w) (" " ++ s) Hf) as [HL HP]. cbn [append] in HP. rewrite HL, HP.
    unfold on_response_version. cbn [append] in Hc. by rewrite Hc.
Qed.

(** ** One field *)
Lemma char_value_lower c : char_value (ascii_lower c) = lower_value (char_value c).
Proof. by destruct c as [[] [] [] [] [] [] [] []]. Qed.
Lemma char_value_inj a b : char_value a = char_value b → a = b.
Proof.
  intros H. rewrite <-(ascii_N_embedding a), <-(ascii_N_embedding b). f_equal. unfold char_value in H.
  pose proof (N_ascii_bounded a). pose proof (N_ascii_bounded b).
  apply N2Z.inj. unfold s8 in H. pose proof (Z.div_mod (Z.of_N (N_of_ascii a) + 2 ^ 7) (2 ^ 8)). pose proof (Z.div_mod (Z.of_N (N_of_ascii b) + 2 ^ 7) (2 ^ 8)).
  pose proof (Z.mod_pos_bound (Z.of_N (N_of_ascii a) + 2 ^ 7) (2 ^ 8)). pose proof (Z.mod_pos_bound (Z.of_N (N_of_ascii b) + 2 ^ 7) (2 ^ 8)). lia.
Qed.
(** What has been matched is a prefix of the folded name. *)
Lemma te_spec_rest w : ∀ r r', accepts te_spec (Some r) w = Some (Some r') → r = lower w ++ r'.
Proof.
  assert (Hnone : ∀ w r', accepts te_spec None w = Some (Some r') → False).
  { clear. induction w as [|c w IH]; cbn; [done|]. intros r'. unfold te_spec at 1. destruct (is_tchar _); [apply IH|done]. }
  induction w as [|c w IH]; intros r r'; cbn; [by intros [= ->]|]. unfold te_spec at 1. destruct (is_tchar (char_value c)) eqn:Ht; [|done].
  destruct r as [|x r]; [intros H; by apply Hnone in H|]. destruct (lower_value _ =? _) eqn:E; [|intros H; by apply Hnone in H].
  apply Z.eqb_eq in E. rewrite <-char_value_lower in E. apply char_value_inj in E. subst x. intros H. by rewrite (IH _ _ H).
Qed.
(** A name is accepted; it ends behind all of "transfer-encoding" only if it is that. *)
Lemma te_accepts w : name_ok w = true → lower w ≠ transfer_encoding →
  ∃ q, accepts te_spec (Some transfer_encoding) w = Some q ∧ ∀ cs, In cs (above_name q) → In cs name_states.
Proof.
  intros [Hne Ha]%andb_true_iff Hte. assert (Hacc : ∀ v q, accepts token_spec () v = Some () → ∃ q', accepts te_spec q v = Some q').
  { clear. induction v as [|c v IH]; intros q; cbn; [eauto|]. unfold token_spec at 1, te_spec at 1. destruct (is_tchar _); [|done]. apply IH. }
  destruct (accepts token_spec () w) as [[]|] eqn:Ht; [|done]. destruct (Hacc w (Some transfer_encoding) Ht) as [q Hq]. exists q. split; [done|].
  destruct q as [r|]; [|intros cs Hin; apply in_or_app; by left].
  pose proof (te_spec_rest _ _ _ Hq) as Hr. assert (r ≠ "").
  { intros ->. apply Hte. by rewrite str_app_nil_r in Hr. }
  intros cs. cbn [above_name]. rewrite in_map_iff. intros (e & <- & [He Hr'%String.eqb_eq]%filter_In).
  unfold te_states, transfer_encoding in He. cbn in He. cbn.
  repeat destruct He as [<-|He]; cbn in *; try (subst; done); try tauto. 
Qed.
Lemma name_fold w : name_ok w = true → fold_case w = lower w.
Proof.
  intros [_ Ha]%andb_true_iff. unfold fold_case. f_equal. destruct (accepts token_spec () w) as [[]|] eqn:E; [|done]. clear Ha. revert E.
  induction w as [|c w IH]; [done|]. cbn. unfold token_spec at 1. destruct (is_tchar (char_value c)) eqn:Ht; [|done]. intros H.
  rewrite (IH H). destruct (Ascii.eqb_spec c NUL) as [->|]; [done|done].
Qed.

(** The step behind a value, and the one behind the line. *)
Lemma value_ends : forallb (λ cs, bool_decide (edge cs 13 = Some ([WriteValue], Goto 24)) || bool_decide (edge cs 13 = Some ([WriteValue], Goto 88))
  || bool_decide (edge cs 13 = Some ([ContentLen; WriteValue], Goto 24))) (above_value false) = true.
Proof. vm_compute. reflexivity. Qed.
Lemma response_write_value pre k v s q d : c_field_start q = str_len pre → c_field_len q = str_len k → c_mark q = str_len (pre ++ k ++ ": ") →
  k ≠ "" → fits ((pre ++ k ++ ": ") ++ v ++ s) →
  client_act response_callbacks (((pre ++ k ++ ": ") ++ v) ++ s) WriteValue (str_len ((pre ++ k ++ ": ") ++ v)) (q, d)
    = Done (q, upd (rsp_setHeader k v) d) ().
Proof.
  intros H1 H2 H3 Hk Hf. unfold client_act. rewrite parser_bind. cbn [c_http_field response_callbacks]. rewrite H1, H2, H3. unfold on_data.
  destruct (marked (pre ++ k ++ ": ") v s Hf) as [HL HP]. rewrite HL, HP.
  assert (Hf' : fits (pre ++ k ++ (": " ++ v ++ s))) by (revert Hf; by rewrite !str_app_assoc).
  assert (HP' : PTR_TO (((pre ++ k ++ ": ") ++ v) ++ s) (str_len pre) = k ++ (": " ++ v ++ s)).
  { rewrite <-(proj2 (marked pre k _ Hf')). f_equal. by rewrite !str_app_assoc. }
  rewrite HP'. unfold on_response_http_field. destruct k as [|kc k]; [done|].
  replace (str_len (String kc k) =? 0) with false by (symmetry; apply Z.eqb_neq; unfold str_len; cbn [String.length]; lia).
  rewrite (bind_done _ _ _ _ _ (std_string_piece _ _ _ (fits_app_r _ _ Hf'))).
  by rewrite (bind_done _ _ _ _ _ (std_string_piece _ _ _ (fits_app_r _ _ Hf))).
Qed.
(** The line end behind a value, which also writes the field. *)
Lemma parse_value_end pre k v s q d cs : In cs (above_value false) → plain q →
  c_field_start q = str_len pre → c_field_len q = str_len k → c_mark q = str_len (pre ++ k ++ ": ") →
  k ≠ "" → fits ((pre ++ k ++ ": ") ++ v ++ CRLF ++ s) →
  ∃ q' cs', plain q' ∧ before_field cs' ∧
    parse ((pre ++ k ++ ": ") ++ v) cs (CRLF ++ s) (q, d) = parse (((pre ++ k ++ ": ") ++ v) ++ CRLF) cs' s (q', upd (rsp_setHeader k v) d).
Proof.
  intros Hin Hq H1 H2 H3 Hk Hf. pose proof value_ends as He. rewrite forallb_forall in He. specialize (He cs Hin).
  assert (Hw : ∀ q, c_field_start q = str_len pre → c_field_len q = str_len k → c_mark q = str_len (pre ++ k ++ ": ") →
    do_actions (client_act response_callbacks (((pre ++ k ++ ": ") ++ v) ++ CRLF ++ s)) [WriteValue] (str_len ((pre ++ k ++ ": ") ++ v)) (q, d)
    = Done (q, upd (rsp_setHeader k v) d) ()).
  { intros q1 ? ? ?. by rewrite (do_action (client_act response_callbacks) _ _ _ _ _ _ (response_write_value pre k v _ q1 d ltac:(done) ltac:(done) ltac:(done) Hk Hf)). }
  assert (Hline : ∀ n cs' σ, edge n 10 = Some ([], Goto cs') → cs' ≠ 0 →
    parse (((pre ++ k ++ ": ") ++ v) ++ String "013" "") n (String "010" s) σ = parse (((pre ++ k ++ ": ") ++ v) ++ CRLF) cs' s σ).
  { intros n cs' σ Hn Hc. change (String "010" s) with (String "010" "" ++ s). rewrite (parse_quiet (client_act response_callbacks) _ n (String "010" "") cs').
    - by rewrite !str_app_assoc.
    - eapply quiet_cons; [exact Hn|done|constructor]. }
  unfold CRLF at 1. cbn [append]. change (String "013" (String "010" s)) with (CRLF ++ s) in Hw |- *.
  apply orb_true_iff in He as [[He|He]%orb_true_iff|He]; apply bool_decide_eq_true_1 in He.
  - exists q, 20. split; [done|]. split; [by left|].
    rewrite (parse_edge (client_act response_callbacks) _ cs "013" (String "010" s) [WriteValue] 24 _ (q, upd (rsp_setHeader k v) d) He); [|done|by apply Hw].
    by apply Hline.
  - exists q, 43. split; [done|]. split; [by right|].
    rewrite (parse_edge (client_act response_callbacks) _ cs "013" (String "010" s) [WriteValue] 88 _ (q, upd (rsp_setHeader k v) d) He); [|done|by apply Hw].
    by apply Hline.
  - set (n := number_at (((pre ++ k ++ ": ") ++ v) ++ CRLF ++ s) 10 q). set (q1 := c_set_content_len n q).
    exists q1, 20. split; [done|]. split; [by left|].
    rewrite (parse_edge (client_act response_callbacks) _ cs "013" (String "010" s) [ContentLen; WriteValue] 24 _ (q1, upd (rsp_setHeader k v) d) He); [|done|].
    + by apply Hline.
    + rewrite (do_action (client_act response_callbacks) _ _ _ _ _ (q1, d)); [by apply (Hw q1)|done].
Qed.
(** A field with a value, but not the one that announces chunks. *)
Definition field_ok (e : string * string) : Prop :=
  name_ok e.1 = true ∧ value_ok e.2 = true ∧ e.2 ≠ "" ∧ fold_case e.1 ≠ transfer_encoding.
Lemma value_accepts v : value_ok v = true → v ≠ "" → accepts value_spec true v = Some false.
Proof.
  assert (Hg : ∀ w z b, accepts value_spec b w = Some z → w ≠ "" ∨ b = false → z = false).
  { induction w as [|c w IH]; cbn; intros z0 b; [intros [= ->] [|]; done|]. unfold value_spec at 1. destruct (_ || _); [|done].
    intros H _. eapply IH; [exact H|by right]. }
  unfold value_ok. destruct (accepts value_spec true v) as [z|] eqn:E; [|done]. intros _ Hne. f_equal. eapply Hg; [exact E|by left].
Qed.
Lemma name_colon cs : In cs name_states → ∃ n, edge cs (char_value ":") = Some ([WriteField], Goto n) ∧ n ≠ 0 ∧ In n value_starts.
Proof.
  intros Hin. pose proof name_exits as H. rewrite forallb_forall in H. specialize (H cs Hin). unfold steps_in in H.
  change (char_value ":") with 58. destruct (edge cs 58) as [[acts [n|n]]|]; try done.
  apply andb_true_iff in H as [[Ha%bool_decide_eq_true_1 Hn]%andb_true_iff Hin']. apply existsb_exists in Hin' as (n' & Hin' & ->%Z.eqb_eq).
  subst acts. exists n'. split; [done|]. split; [by intros ->|done].
Qed.
Lemma parse_response_field pre k v s q d cs : before_field cs → plain q → field_ok (k, v) → fits (pre ++ k ++ ": " ++ v ++ CRLF ++ s) →
  ∃ q' cs', plain q' ∧ before_field cs' ∧
    parse pre cs (k ++ ": " ++ v ++ CRLF ++ s) (q, d) = parse (pre ++ k ++ ": " ++ v ++ CRLF) cs' s (q', upd (rsp_setHeader k v) d).
Proof.
  intros Hcs Hq (Hk & Hv & Hvne & Hte) Hf. cbn [fst snd] in *. rewrite (name_fold k Hk) in Hte.
  destruct (te_accepts k Hk Hte) as (z & Ha & Hstates). assert (Hne : k ≠ "") by (intros ->; done).
  set (q0 := if cs =? 43 then c_set_close 1 q else q).
  destruct (parse_token_acts (client_act response_callbacks) te_spec above_name (first_acts cs) (λ p, (c_set_field_start p q0, d)) cs (Some transfer_encoding) z
    pre k (": " ++ v ++ CRLF ++ s) (q, d) te_simulates (name_enters cs Hcs)) as (cs1 & Hin1 & ->); [|done|done|].
  { intros b p. unfold q0. by destruct Hcs as [-> | ->]. }
  assert (Hq0 : plain q0) by (unfold q0; by destruct (cs =? 43)). clearbody q0.
  set (q1 := c_set_field_start (str_len pre) q0). set (q2 := c_set_field_len (str_len k) q1). set (q3 := c_set_mark (str_len ((pre ++ k) ++ ":")) q2).
  destruct (marked pre k (": " ++ v ++ CRLF ++ s) Hf) as [HL _]. change (": " ++ v ++ CRLF ++ s) with (String ":" (String " " (v ++ CRLF ++ s))).
  destruct (name_colon cs1 (Hstates _ Hin1)) as (n & He & Hn & Hvs).
  rewrite (parse_edge (client_act response_callbacks) (pre ++ k) cs1 ":" _ [WriteField] n _ (q2, d) He Hn).
  2:{ rewrite (do_action (client_act response_callbacks) _ _ _ _ _ (q2, d)); [done|]. unfold client_act. rewrite parser_bind. unfold q1 at 1. cbn [c_field_start c_set_field_start]. by rewrite HL. }
  assert (Hsp : edge n (char_value " ") = Some ([Mark], Goto n)) by (by destruct Hvs as [<-|[<-|[<-|[]]]]; vm_compute).
  rewrite (parse_edge (client_act response_callbacks) ((pre ++ k) ++ ":") n " " _ [Mark] n _ (q3, d) Hsp Hn); [|done].
  assert (Hpre : ((pre ++ k) ++ ":") ++ " " = pre ++ k ++ ": ") by by rewrite !str_app_assoc.
  rewrite Hpre. set (q4 := c_set_mark (str_len (pre ++ k ++ ": ")) q3).
  destruct (parse_token (client_act response_callbacks) value_spec above_value Mark (λ p, (c_set_mark p q3, d)) n true false (pre ++ k ++ ": ") v (CRLF ++ s) (q3, d)
    response_value_simulates (response_value_enters n Hvs) (λ _ _, eq_refl) Hvne (value_accepts v Hv Hvne)) as (cs2 & Hin2 & ->).
  assert (Hf' : fits ((pre ++ k ++ ": ") ++ v ++ CRLF ++ s)) by (revert Hf; by rewrite !str_app_assoc).
  destruct (parse_value_end pre k v s q4 d cs2 Hin2 Hq0 eq_refl eq_refl eq_refl Hne Hf') as (q' & cs' & Hq' & Hcs' & Hp).
  exists q', cs'. split; [done|]. split; [done|]. etransitivity; [exact Hp|]. by rewrite !str_app_assoc.
Qed.

Definition set_fields (hs : MapType) (rsp : HttpResponse) : HttpResponse := foldl (λ rsp e, rsp_setHeader e.1 e.2 rsp) rsp hs.
Lemma parse_response_fields hs : Forall field_ok hs → ∀ pre s q d cs, before_field cs → plain q → fits (pre ++ fields_text hs ++ s) →
  ∃ q' cs', plain q' ∧ before_field cs' ∧
    parse pre cs (fields_text hs ++ s) (q, d) = parse (pre ++ fields_text hs) cs' s (q', upd (set_fields hs) d).
Proof.
  induction 1 as [|[k v] hs Hkv _ IH]; intros pre s q d cs Hcs Hq Hf.
  { exists q, cs. cbn. rewrite str_app_nil_r. by destruct d. }
  cbn [fields_text fmap list_fmap lines_text foldr] in *. fold (lines_text (field_line <$> hs)) in *. fold (fields_text hs) in *.
  unfold field_line in *. cbn [fst snd] in *. rewrite !str_app_assoc in *.
  destruct (parse_response_field pre k v (fields_text hs ++ s) q d cs Hcs Hq Hkv Hf) as (q1 & cs1 & Hq1 & Hcs1 & ->).
  destruct (IH (pre ++ k ++ ": " ++ v ++ CRLF) s q1 (upd (rsp_setHeader k v) d) cs1 Hcs1 Hq1) as (q2 & cs2 & Hq2 & Hcs2 & ->); [by rewrite !str_app_assoc|].
  exists q2, cs2. split; [done|]. split; [done|]. rewrite !str_app_assoc. reflexivity.
Qed.
(** The empty line ends the run in state 120. *)
Lemma parse_response_end pre s q d cs : before_field cs → plain q →
  ∃ q', plain q' ∧ c_cs q' = c_cs q ∧ parse pre cs (CRLF ++ s) (q, d) = Done (q', d) (120, str_len (pre ++ CRLF)).
Proof.
  intros Hcs Hq. unfold CRLF at 1. cbn [append]. set (q1 := if cs =? 43 then c_set_close 1 q else q).
  assert (Hq1 : plain q1 ∧ c_cs q1 = c_cs q) by (unfold q1; by destruct (cs =? 43)).
  assert (Hcr : parse pre cs (String "013" (String "010" s)) (q, d) = parse (pre ++ String "013" "") 3 (String "010" s) (q1, d)).
  { unfold q1. destruct Hcs as [-> | ->].
    - by rewrite (parse_edge (client_act response_callbacks) pre 20 "013" _ [] 3 _ (q, d)).
    - by rewrite (parse_edge (client_act response_callbacks) pre 43 "013" _ [ConnectionClose] 3 _ (c_set_close 1 q, d)). }
  rewrite Hcr. clearbody q1. set (p := str_len (pre ++ String "013" "")).
  exists (c_set_body_start (p + 1) q1). destruct Hq1 as [Hq1 Hc1]. split; [done|]. split; [done|].
  unfold Ragel.parse. fold p. rewrite (run_break _ 3 _ "010" s [HeadDone] 120 _ (c_set_body_start (p + 1) q1, d)); [|done|done].
  unfold p. rewrite !str_len_app, <-Z.add_assoc. reflexivity.
Qed.

(** ** The head of a response *)
Definition response_head (v : Z) (st : HttpStatus) (reason : string) (hs : MapType) : string :=
  dump_version v ++ " " ++ dec (status_code st) ++ " " ++ reason ++ CRLF ++ fields_text hs ++ CRLF.
Definition response_head_ok (v : Z) (st : HttpStatus) (reason : string) (hs : MapType) : Prop :=
  (v = 0x10 ∨ v = 0x11) ∧ status_ok st ∧ reason_ok reason = true ∧ Forall field_ok hs.
Definition response_read (v : Z) (st : HttpStatus) (reason : string) (hs : MapType) (rsp : HttpResponse) : HttpResponse :=
  set_fields hs (rsp_setReason reason (rsp_setStatus st (rsp_setVersion v rsp))).
Lemma parse_response_head v st reason hs rest q d : plain q → response_head_ok v st reason hs → fits (response_head v st reason hs ++ rest) →
  ∃ q', plain q' ∧ parse "" 1 (response_head v st reason hs ++ rest) (q, d) =
    Done (q', upd (response_read v st reason hs) d) (120, str_len (response_head v st reason hs)).
Proof.
  intros Hq (Hv & Hst & Hr & Hhs) Hf. unfold response_head in *. rewrite !str_app_assoc in *.
  destruct (parse_version_start "" v (dec (status_code st) ++ " " ++ reason ++ CRLF ++ fields_text hs ++ CRLF ++ rest) q d Hq Hv) as (q1 & Hq1 & ->); [done|].
  edestruct (parse_status ("" ++ dump_version v ++ " ") st) as (q2 & Hq2 & ->); [done|done|by cbn [append]; rewrite !str_app_assoc|].
  edestruct (parse_reason (("" ++ dump_version v ++ " ") ++ dec (status_code st) ++ " ") reason) as (q3 & Hq3 & ->); [done|done|by cbn [append]; rewrite !str_app_assoc|].
  edestruct (parse_response_fields hs Hhs ((("" ++ dump_version v ++ " ") ++ dec (status_code st) ++ " ") ++ reason ++ CRLF)) as (q4 & cs4 & Hq4 & Hc4 & ->);
    [by left|done|by cbn [append]; rewrite !str_app_assoc|].
  edestruct parse_response_end as (q5 & Hq5 & _ & ->); [done|done|]. exists q5. split; [done|]. cbn [append]. rewrite !str_app_assoc. reflexivity.
Qed.
Lemma response_head_pos v st reason hs : 0 < str_len (response_head v st reason hs).
Proof. unfold response_head. rewrite (str_len_app (dump_version v)), (str_len_app " "). change (str_len " ") with 1. by repeat match goal with |- context [str_len ?x] => pose proof (str_len_nonneg x); generalize dependent (str_len x); intros end; lia. Qed.
(** What the fields make of a response: only its headers. *)
Lemma response_fields_rest hs rsp : set_fields hs rsp = rsp_setHeaders (foldl put (p_headers rsp) hs) rsp.
Proof. revert rsp. induction hs as [|e hs IH]; intros rsp; cbn; [by destruct rsp|]. fold (set_fields hs (rsp_setHeader e.1 e.2 rsp)). by rewrite IH. Qed.
Lemma response_read_eq v st reason hs : response_read v st reason hs (HttpResponse_new 0x11 true) =
  mkHttpResponse st v true false "" reason (foldl put [] hs) [].
Proof. unfold response_read. by rewrite response_fields_rest. Qed.

(** [execute] on a text that begins with the head of a response reads exactly the head. *)
Lemma fresh_marks b mem : 0 < str_len b → client_marks b 0 (client_reset (httpclient_parser_init mem)).
Proof. intros. split; cbn -[str_len]; lia. Qed.
Lemma execute_response_head v st reason hs rest mem : response_head_ok v st reason hs → fits (response_head v st reason hs ++ rest) →
  ∃ prs, execute (response_head v st reason hs ++ rest) false (HttpResponseParser_new mem) = Done prs (str_len (response_head v st reason hs), rest) ∧
    hasError prs = false ∧ isFinished prs = 1 ∧ plain prs.1 ∧ r_data prs.2 = response_read v st reason hs (HttpResponse_new 0x11 true).
Proof.
  intros Hok Hf. set (t := response_head v st reason hs) in *. unfold HttpResponseParser_new.
  set (q := httpclient_parser_init mem). set (d := mkResponseData _ 0).
  pose proof (response_head_pos v st reason hs : 0 < str_len t). pose proof (str_len_nonneg rest).
  assert (Hpos : 0 < str_len (t ++ rest)) by (rewrite str_len_app; lia).
  pose proof (client_execute_run no_body response_callbacks (t ++ rest) response_callbacks_safe Hf q d Hpos) as He.
  destruct (parse_response_head v st reason hs rest (client_reset q) d eq_refl Hok Hf) as (q' & Hq' & Hp). fold t in Hp.
  pose proof (client_run_safe no_body response_callbacks (t ++ rest) response_callbacks_safe Hf (t ++ rest) 1 0
    (client_reset q) d ltac:(lia) ltac:(lia)) as Hs.
  unfold Ragel.parse in Hp. cbn [append] in Hp. change (str_len "") with 0 in Hp. change (c_cs q) with 1 in He. rewrite Hp in Hs.
  pose proof (fresh_marks (t ++ rest) mem Hpos) as Hm0.
  specialize (Hs Hm0 ltac:(lia) ltac:(done)). destruct Hs as (_ & Hmk & Hle & _ & _ & _ & _ & Hb).
  assert (Hb' : c_body_start q' ≤ str_len (t ++ rest)) by (destruct Hb as [|Hb]; [lia|rewrite Hb; change (0 ≤ str_len (t ++ rest)); lia]).
  rewrite (bind_done _ _ _ _ _ Hp), (client_end_eq no_body response_callbacks _ response_callbacks_safe Hf) in He by (done || lia).
  eexists. split.
  { unfold execute. cbn [mbind]. rewrite (bind_done _ _ (q, d) (q, d) ()) by done. rewrite (bind_done _ _ _ _ _ He).
    rewrite u64_small by (unfold fits in Hf; lia). replace (_ <=? _) with true by lia. unfold str_len at 2. rewrite Nat2Z.id, str_drop_app_exact. reflexivity. }
  unfold hasError, isFinished, httpclient_parser_finish, httpclient_parser_has_error, httpclient_parser_is_finished. cbn. done.
Qed.
