(* ===== verification/HttpConnection.v ===== *)
(** * HttpConnection ([webserve/http/http_connection.h], [http_connection.cc])

    Sending requests and receiving responses over a [Stream], which stands for the
    SocketStream the connection is, and the requests of the static functions. *)
From S2P Require Import Prelude Text Http Uri Callbacks Ragel HttpClientTable HttpClient HttpResponseParser Stream.
Open Scope string_scope.
Open Scope Z_scope.

Section connection.
Context {S : Type} `{!Stream S}.
(** Boost's conversion to [uint64_t]; [GetHttpRequestBufferSize()]; the memory of the
    new parser. *)
Context (lexical_cast : string → option Z) (buff_size : Z) (mem : httpclient_parser).

(** The first loop of [recvResponse]: [data] are the first [offset] bytes of the buffer. *)
Fixpoint response_loop (fuel : nat) (parser : HttpResponseParser) (data : string) (offset : Z)
  : M S (option (HttpResponseParser * string * Z)) :=
  match fuel with
  | O => nofuel
  | Datatypes.S fuel =>
      '(len, d) ← read (u64 (buff_size - offset));
      if len <=? 0 then close ;; mret None else
      stored buff_size offset d ;;                  (* buff_size + 1 bytes, with the NUL behind *)
      let len := s32 (len + offset) in
      '(parser, (nparse, data)) ← local (execute (data ++ text_of d) false) parser;
      if hasError parser then close ;; mret None else
      let offset := s32 (len - nparse) in
      if offset =? s32 buff_size then close ;; mret None else
      if negb (isFinished parser =? 0) then mret (Some (parser, data, offset))
      else response_loop fuel parser data offset
  end.

(** The line before a chunk: the loop over [execute(data, len, true)]. *)
Fixpoint chunk_head_loop (fuel : nat) (parser : HttpResponseParser) (data : string) (len : Z) (begin : bool)
  : M S (option (HttpResponseParser * string * Z)) :=
  match fuel with
  | O => nofuel
  | Datatypes.S fuel =>
      more ← (if negb begin || (len =? 0) then
                '(rt, d) ← read (u64 (buff_size - len));
                if rt <=? 0 then close ;; mret None
                else stored buff_size len d ;; mret (Some (data ++ text_of d, s32 (len + rt)))
              else mret (Some (data, len)));
      match more with
      | None => mret None
      | Some (data, len) =>
          '(parser, (nparse, data)) ← local (execute data true) parser;
          if hasError parser then close ;; mret None else
          let len := s32 (len - nparse) in
          if len =? s32 buff_size then close ;; mret None else
          if negb (isFinished parser =? 0) then mret (Some (parser, data, len))
          else chunk_head_loop fuel parser data len false
      end
  end.
(** The rest of a chunk that is not in the buffer, with the line end behind it. *)
Fixpoint left_loop (fuel : nat) (body : string) (left : Z) : M S (option string) :=
  if left >? 0 then
    match fuel with
    | O => nofuel
    | Datatypes.S fuel =>
        '(rt, d) ← read (if left >? s32 buff_size then s32 buff_size else left);
        if rt <=? 0 then close ;; mret None
        else stored (buff_size + 1) 0 d ;; left_loop fuel (body ++ text_of d) (left - rt)
    end
  else mret (Some body).
(** [body.resize(body.size() - 2)] *)
Definition resize_2 (body : string) : M S string :=
  if str_len body <? 2 then raise ExnLengthError else mret (str_take (Z.to_nat (str_len body - 2)) body).
(** The data of a chunk of [content_len] bytes: the body, and what is left in the buffer. *)
Definition chunk_data (fuel : nat) (content_len : Z) (data : string) (len : Z) (body : string) : M S (option (string * string * Z)) :=
  if content_len + 2 >=? 2 ^ 31 then undef Overflow else
  if content_len + 2 <=? len then
    part ← std_string data (u64 content_len);
    mret (Some (body ++ part, str_drop (Z.to_nat (content_len + 2)) data, len - (content_len + 2)))
  else
    r ← left_loop fuel (body ++ data) (content_len - len + 2);
    match r with
    | None => mret None
    | Some body => body ← resize_2 body; mret (Some (body, "", 0))
    end.
(** The chunks: [fuel] bounds their number, [n] the reads for each. *)
Fixpoint chunks_loop (n fuel : nat) (parser : HttpResponseParser) (data : string) (len : Z) (body : string)
  : M S (option (HttpResponseParser * string)) :=
  match fuel with
  | O => nofuel
  | Datatypes.S fuel =>
      head ← chunk_head_loop n parser data len true;
      match head with
      | None => mret None
      | Some (parser, data, len) =>
          r ← chunk_data n (c_content_len parser.1) data len body;
          match r with
          | None => mret None
          | Some (body, data, len) =>
              if c_chunks_done parser.1 =? 0 then chunks_loop n fuel parser data len body else mret (Some (parser, body))
          end
      end
  end.
(** A body whose length is known; [body.resize(length)] throws beyond [max_size]. *)
Definition plain_body (parser : HttpResponseParser) (data : string) (offset : Z) : M S (option string) :=
  let length := s64 (getContentLength lexical_cast parser) in
  if length >? 0 then
    if length >? str_max then raise ExnLengthError else
    let body := str_ztake (if length >=? offset then offset else length) data in
    let length := s64 (length - offset) in
    if length >? 0 then
      '(r, d) ← readFixSize length;
      if r <=? 0 then close ;; mret None else
      mret (Some (body ++ text_of d ++ str_repeat (Z.to_nat (length - zlen d)) NUL))
    else mret (Some body)
  else mret (Some "").
(** What follows the head: the parser and the body, which the code then forgets. *)
Definition response_body (fuel : nat) (parser : HttpResponseParser) (data : string) (offset : Z) : M S (option (HttpResponseParser * string)) :=
  if negb (c_chunked parser.1 =? 0) then chunks_loop fuel fuel parser data offset ""
  else body ← plain_body parser data offset; mret ((λ body, (parser, body)) <$> body).
(** [HttpConnection::recvResponse] *)
Definition recvResponse (fuel : nat) : M S (option HttpResponse) :=
  head ← response_loop fuel (HttpResponseParser_new mem) "" 0;
  match head with
  | None => mret None
  | Some (parser, data, offset) =>
      r ← response_body fuel parser data offset;
      mret ((λ '(parser, body), r_data parser.2) <$> r)
  end.
(** [HttpConnection::sendRequest] *)
Definition sendRequest (req : HttpRequest) : M S Z := writeFixSize (bytes_of (HttpRequest_dump req)).
End connection.
