(* ===== verification/HttpConnectionFacts.v ===== *)
(** * HttpConnectionFacts: receiving a response from any stream *)
From S2P Require Import Prelude Text Http HttpFacts Uri Callbacks Ragel HttpClientTable HttpClient HttpClientFacts HttpResponseParser Stream Segments HttpConnection.
Open Scope string_scope.
Open Scope Z_scope.

(** A call of [execute] that neither fails nor finishes leaves such an object. *)
Definition response_ok (prs : HttpResponseParser) : Prop := 1 ≤ c_cs prs.1 ≤ 123 ∧ 0 ≤ c_body_start prs.1 ∧ - 2 ^ 31 ≤ c_content_len prs.1 ∧ no_body prs.2.
(** The accesses that the code does not guard. *)
Definition unguarded (c : crash) : Prop := c = OutOfBounds ∨ c = AssertFail.
Lemma response_execute_ok data chunck prs : 0 < str_len data < 2 ^ 31 → response_ok prs →
  match execute data chunck prs with
  | Done prs' (n, rest) => 0 ≤ n ≤ str_len data ∧ str_len rest = str_len data - n ∧ no_body prs'.2 ∧
      (hasError prs' = false → response_ok prs' ∧ 0 < n)
  | Raise _ _ => True
  | Undef c => unguarded c
  | NoFuel => False
  end.
Proof.
  destruct prs as [q d]. intros Hl (Hc & Hb & Hk & Hn). cbn [fst snd] in *. unfold execute.
  set (q0 := if chunck then httpclient_parser_init q else q).
  assert (Hq0 : (if chunck then update httpclient_parser_init else mret () : M HttpResponseParser ()) (q, d) = Done (q0, d) ()) by (unfold q0; by destruct chunck).
  rewrite (bind_done _ _ _ _ _ Hq0).
  assert (Hc0 : 1 ≤ c_cs q0 ≤ 123 ∧ 0 ≤ c_body_start q0 ∧ - 2 ^ 31 ≤ c_content_len q0) by (unfold q0; destruct chunck; cbn; lia).
  pose proof (httpclient_parser_execute_safe no_body response_callbacks data response_callbacks_safe ltac:(lia) q0 d ltac:(lia) ltac:(lia) ltac:(lia) ltac:(lia) Hn) as Hs.
  destruct (httpclient_parser_execute response_callbacks data 0 (q0, d)) as [[q' d'] n|? ?|c|] eqn:E; try done.
  2:{ by rewrite (bind_raise _ _ _ _ _ E). }
  2:{ rewrite (bind_undef _ _ _ _ E). unfold unguarded. destruct Hs as [|[? _]]; auto. }
  destruct Hs as (Hn' & Hn0 & Hcs & Hbs & Hkl & Hpr & _). rewrite (bind_done _ _ _ _ _ E), u64_small by lia. replace (n <=? str_len data) with true by lia.
  cbn. split; [done|]. split; [rewrite str_len_drop; lia|]. split; [done|]. unfold hasError, httpclient_parser_has_error. cbn [fst snd].
  intros [_ He]%orb_false_iff. unfold response_ok. cbn. split_and!; try done; lia.
Qed.

Section laws.
Context {S : Type} `{!Stream S, !StreamLaws S} (lexical_cast : string → option Z) (buff_size : Z) (mem : httpclient_parser).
#[local] Set Default Proof Using "All".
Hypothesis Hbuff : 0 < buff_size < 2 ^ 31.

(** The ends of an operation that waits for the peer: it gives up with the stream closed,
    returns, throws, or makes one of the unguarded accesses.  It sends nothing. *)
Definition ends {A} (P : S → A → Prop) (s : S) (r : result S (option A)) : Prop :=
  match r with
  | Done s' None => stream_closed s' = true ∧ outgoing s' = outgoing s
  | Done s' (Some a) => outgoing s' = outgoing s ∧ P s' a
  | Raise s' _ => outgoing s' = outgoing s
  | Undef c => unguarded c ∨ c = Overflow
  | NoFuel => False
  end.
Lemma ends_close {A} (P : S → A → Prop) s0 s : outgoing s = outgoing s0 → ends P s0 ((close ;; mret None) s).
Proof. intros Ho. destruct (close_law s) as (s' & Hc & Hcl & Ho'). rewrite (bind_done _ _ _ _ _ Hc). cbn. split; [done|congruence]. Qed.
Lemma ends_bind {A B} (P : S → A → Prop) (Q : S → B → Prop) (m : M S (option A)) (k : A → M S (option B)) s :
  ends P s (m s) → (∀ s' a, outgoing s' = outgoing s → P s' a → ends Q s' (k a s')) →
  ends Q s ((m ≫= λ r, match r with None => mret None | Some a => k a end) s).
Proof.
  intros Hm Hk. destruct (m s) as [s' [a|]|s' e|c|] eqn:E; cbn in Hm; try done.
  - rewrite (bind_done _ _ _ _ _ E). destruct Hm as [Ho HP]. specialize (Hk s' a Ho HP). unfold ends in *.
    destruct (k a s') as [s2 [b|]|s2 ?|?|]; rewrite <-?Ho; auto.
  - by rewrite (bind_done _ _ _ _ _ E).
  - by rewrite (bind_raise _ _ _ _ _ E).
  - by rewrite (bind_undef _ _ _ _ E).
Qed.
(** What is still to come: the bytes that arrive and those in the buffer. *)
Definition to_come (s : S) (len : Z) : Z := zlen (incoming s) + len.

(** After a call of the parser: the data in hand. *)
Definition in_hand (n0 : Z) (s : S) : HttpResponseParser * string * Z → Prop := λ '(prs, data, len),
  no_body prs.2 ∧ response_ok prs ∧ len = str_len data ∧ 0 ≤ len < buff_size ∧ to_come s len < n0.
Lemma response_loop_ends fuel : ∀ prs data offset s, zlen (incoming s) < Z.of_nat fuel → response_ok prs →
  offset = str_len data → offset < buff_size →
  ends (in_hand (to_come s offset)) s (response_loop buff_size fuel prs data offset s).
Proof.
  induction fuel as [|fuel IH]; intros prs data offset s Hf Hp Ho Hob; [pose proof (zlen_nonneg (incoming s)); lia|].
  cbn [response_loop]. pose proof (str_len_nonneg data).
  rewrite u64_small by lia. destruct (read_law (buff_size - offset) s ltac:(lia)) as (s1 & len & d & Hr & Hle & Hge & Hout & Hin).
  rewrite (bind_done _ _ _ _ _ Hr). cbn beta iota. destruct (len <=? 0) eqn:Hlen; [by apply ends_close|].
  replace (0 <? len) with true in Hin by lia. destruct Hin as [Hd Hin]. rewrite stored_bind, (s32_small (len + offset)) by lia.
  assert (Htl : str_len (data ++ text_of d) = len + offset) by (rewrite str_len_app, str_len_text_of; lia).
  pose proof (response_execute_ok (data ++ text_of d) false prs ltac:(lia) Hp) as He. unfold local.
  destruct (execute (data ++ text_of d) false prs) as [prs' [n rest]|? ?|c|] eqn:E; try done.
  2:{ by left. }
  erewrite bind_done; [|reflexivity]. cbv beta iota. destruct He as (Hn & Hrest & Hu & Hok).
  destruct (hasError prs') eqn:Herr; [by apply ends_close|]. destruct (Hok eq_refl) as [Hok' Hn0].
  rewrite !s32_small by lia. destruct (_ =? buff_size) eqn:Hfull; [by apply ends_close|].
  rewrite Hin in *. rewrite zlen_app in *. unfold to_come in *. rewrite Hin, zlen_app.
  destruct (isFinished prs' =? 0) eqn:Hfin; cbn [negb].
  - specialize (IH prs' rest (len + offset - n) s1 ltac:(lia) Hok' ltac:(lia) ltac:(lia)). unfold ends in *. revert IH.
    destruct (response_loop buff_size fuel prs' rest _ s1) as [s2 [[[prs2 data2] len2]|]|s2 ?|?|]; rewrite <-?Hout; try done.
    unfold in_hand, to_come. intros (? & ? & ? & ? & ? & ?). split_and!; auto; lia.
  - cbn. unfold to_come. split_and!; try done; try apply Hok'; lia.
Qed.

Lemma chunk_head_loop_ends fuel : ∀ prs data len begin s, to_come s len < Z.of_nat fuel → response_ok prs →
  len = str_len data → len < buff_size →
  ends (in_hand (to_come s len)) s (chunk_head_loop buff_size fuel prs data len begin s).
Proof.
  induction fuel as [|fuel IH]; intros prs data len begin s Hf Hp Ho Hob; pose proof (str_len_nonneg data);
    pose proof (zlen_nonneg (incoming s)); unfold to_come in Hf; [lia|]. cbn [chunk_head_loop].
  apply (ends_bind (λ s1 '(data1, len1), len1 = str_len data1 ∧ 0 < len1 ≤ buff_size ∧ to_come s1 len1 = to_come s len)).
  - destruct (negb begin || (len =? 0)) eqn:Hread.
    + rewrite u64_small by lia. destruct (read_law (buff_size - len) s ltac:(lia)) as (s1 & rt & d & Hr & Hle & Hge & Hout & Hin).
      rewrite (bind_done _ _ _ _ _ Hr). cbn beta iota. destruct (rt <=? 0) eqn:Hrt; [by apply ends_close|].
      replace (0 <? rt) with true in Hin by lia. destruct Hin as [Hd Hin]. rewrite stored_bind by lia. cbn. rewrite s32_small by lia.
      split; [done|]. unfold to_come. rewrite Hin, zlen_app, str_len_app, str_len_text_of. lia.
    + cbn. apply orb_false_iff in Hread as [_ ?]. split; [done|]. split; [done|]. lia.
  - intros s1 [data1 len1] Ho1 (-> & Hl1 & Hc1).
    pose proof (response_execute_ok data1 true prs ltac:(lia) Hp) as He. unfold local.
    destruct (execute data1 true prs) as [prs' [n rest]|? ?|c|] eqn:E; try done.
    2:{ by left. }
    erewrite bind_done; [|reflexivity]. cbv beta iota. destruct He as (Hn & Hrest & Hu & Hok).
    destruct (hasError prs') eqn:Herr; [by apply ends_close|]. destruct (Hok eq_refl) as [Hok' Hn0].
    rewrite !s32_small by lia. destruct (_ =? buff_size) eqn:Hfull; [by apply ends_close|]. unfold to_come in *.
    destruct (isFinished prs' =? 0) eqn:Hfin; cbn [negb].
    + specialize (IH prs' rest (str_len data1 - n) false s1 ltac:(unfold to_come; lia) Hok' ltac:(lia) ltac:(lia)). unfold ends in *. revert IH.
      destruct (chunk_head_loop buff_size fuel prs' rest _ _ s1) as [s2 [[[prs2 data2] len2]|]|s2 ?|?|]; try done.
      unfold in_hand, to_come. intros (? & ? & ? & ? & ? & ?). split_and!; auto; lia.
    + cbn. unfold to_come. split_and!; try done; try apply Hok'; lia.
Qed.
Lemma left_loop_ends fuel : ∀ body left s, zlen (incoming s) < Z.of_nat fuel → left < 2 ^ 31 →
  ends (λ s' _, zlen (incoming s') ≤ zlen (incoming s)) s (left_loop buff_size fuel body left s).
Proof.
  induction fuel as [|fuel IH]; intros body left s Hf Hl; [pose proof (zlen_nonneg (incoming s)); lia|]. cbn [left_loop].
  destruct (left >? 0) eqn:Hpos; [|cbn; split; [done|lia]]. rewrite (s32_small buff_size) by lia.
  set (n := if left >? buff_size then buff_size else left). assert (Hn : 0 < n ≤ left) by (unfold n; destruct (left >? buff_size) eqn:?; lia).
  destruct (read_law n s ltac:(lia)) as (s1 & rt & d & Hr & Hle & Hge & Hout & Hin).
  rewrite (bind_done _ _ _ _ _ Hr). cbn beta iota. destruct (rt <=? 0) eqn:Hrt; [by apply ends_close|].
  replace (0 <? rt) with true in Hin by lia. destruct Hin as [Hd Hin]. rewrite stored_bind by (unfold n in *; destruct (left >? buff_size) eqn:?; lia). rewrite Hin, zlen_app in *.
  specialize (IH (body ++ text_of d) (left - rt) s1 ltac:(lia) ltac:(lia)). unfold ends in *. revert IH.
  destruct (left_loop buff_size fuel _ _ s1) as [s2 [?|]|s2 ?|?|]; rewrite <-?Hout; try done. intros [? ?]. split; [done|lia].
Qed.
Lemma chunk_data_ends fuel content_len data len body s : - 2 ^ 31 ≤ content_len → zlen (incoming s) < Z.of_nat fuel → len = str_len data → len < 2 ^ 31 →
  ends (λ s' '(_, data', len'), len' = str_len data' ∧ len' ≤ len ∧ to_come s' len' ≤ to_come s len) s
    (chunk_data buff_size fuel content_len data len body s).
Proof.
  intros Hc Hf Hl Hl'. unfold chunk_data. pose proof (str_len_nonneg data).
  destruct (content_len + 2 >=? 2 ^ 31) eqn:Hov; [cbn; by right|]. destruct (content_len + 2 <=? len) eqn:Hin.
  - destruct (decide (content_len < 0)) as [Hneg|Hpos].
    + rewrite (bind_raise _ _ _ _ _ (std_string_long data (u64 content_len) s ltac:(unfold u64; replace content_len with (content_len + 2 ^ 64 + -1 * 2 ^ 64) by lia; rewrite Z.mod_add, Z.mod_small; lia))).
      done.
    + rewrite (bind_done _ _ _ _ _ (std_string_ok data (u64 content_len) s ltac:(rewrite u64_small; lia) ltac:(lia))). cbn. split; [done|].
      rewrite str_len_drop by lia. unfold to_come. lia.
  - apply (ends_bind (λ s' _, zlen (incoming s') ≤ zlen (incoming s))); [by apply left_loop_ends; lia|]. intros s1 body' Ho1 Hs1.
    unfold resize_2. destruct (str_len body' <? 2); [done|]. cbn. split; [done|]. unfold to_come. change (str_len "") with 0. lia.
Qed.
Lemma chunks_loop_ends n fuel : ∀ prs data len body s, to_come s len < Z.of_nat n → to_come s len < Z.of_nat fuel → response_ok prs →
  len = str_len data → len < buff_size →
  ends (λ _ '(prs', _), no_body prs'.2) s (chunks_loop buff_size n fuel prs data len body s).
Proof.
  induction fuel as [|fuel IH]; intros prs data len body s Hn Hf Hp Hl Hlb.
  { unfold to_come in Hf. pose proof (zlen_nonneg (incoming s)). pose proof (str_len_nonneg data). lia. }
  cbn [chunks_loop]. eapply (ends_bind (in_hand (to_come s len))); [by apply chunk_head_loop_ends|].
  intros s1 [[prs1 data1] len1] Ho1 (Hb1 & Hok1 & Hl1 & Hlen1 & Hc1). pose proof Hok1 as (_ & _ & Hk1 & _).
  eapply (ends_bind (λ s' '(_, data', len'), len' = str_len data' ∧ len' ≤ len1 ∧ to_come s' len' ≤ to_come s1 len1)).
  { apply chunk_data_ends; [done| |done|lia]. unfold to_come in *. lia. }
  intros s2 [[body2 data2] len2] Ho2 (Hl2 & Hle2 & Hc2). destruct (c_chunks_done prs1.1 =? 0); [|by split].
  apply IH; lia || done.
Qed.
Lemma plain_body_ends prs data offset s : offset = str_len data → offset < 2 ^ 31 →
  ends (λ _ _, True) s (plain_body lexical_cast prs data offset s).
Proof.
  intros Ho Hob. pose proof (str_len_nonneg data). unfold plain_body. set (n := s64 (getContentLength lexical_cast prs)).
  assert (Hn : n < 2 ^ 63) by (unfold n, s64; pose proof (Z.mod_pos_bound (getContentLength lexical_cast prs + 2 ^ 63) (2 ^ 64)); lia).
  destruct (n >? 0) eqn:Hpos; [|done]. destruct (n >? str_max); [done|]. rewrite s64_small by lia. destruct (n - offset >? 0) eqn:Hrest; [|done].
  destruct (readFixSize_ok (S := S) (n - offset) s ltac:(lia)) as (s1 & r & d & Hr & _ & Hout & Hd).
  rewrite (bind_done _ _ _ _ _ Hr). cbv beta iota. destruct (r <=? 0); [by apply ends_close|done].
Qed.

(** ** What receiving a response means
    Call by call: what the peer sends is read into the buffer and given to the parser until
    it has finished; then the chunks, or the body with a length.  [reads_head] with [true]
    is about to read, with [false] it has data in hand; [chunck] is the parser's mode. *)
Definition gives_up {A} (s : S) (r : result S (option A)) : Prop := ∃ s', close s = Done s' () ∧ r = Done s' None.
Inductive reads_head (chunck : bool) : bool → HttpResponseParser → string → S → result S (option (HttpResponseParser * string * Z)) → Prop :=
  | rh_eof prs data s s1 len d r : read (buff_size - str_len data) s = Done s1 (len, d) → len ≤ 0 → gives_up s1 r →
      reads_head chunck true prs data s r
  | rh_read prs data s s1 len d r : read (buff_size - str_len data) s = Done s1 (len, d) → 0 < len →
      reads_head chunck false prs (data ++ text_of d) s1 r → reads_head chunck true prs data s r
  | rh_throws prs data s prs' e : execute data chunck prs = Raise prs' e → reads_head chunck false prs data s (Raise s e)
  | rh_crash prs data s c : execute data chunck prs = Undef c → unguarded c → reads_head chunck false prs data s (Undef c)
  | rh_bad prs data s prs' n rest r : execute data chunck prs = Done prs' (n, rest) → hasError prs' = true ∨ str_len rest = buff_size →
      gives_up s r → reads_head chunck false prs data s r
  | rh_done prs data s prs' n rest : execute data chunck prs = Done prs' (n, rest) → hasError prs' = false → str_len rest ≠ buff_size →
      isFinished prs' ≠ 0 → reads_head chunck false prs data s (Done s (Some (prs', rest, str_len rest)))
  | rh_more prs data s prs' n rest r : execute data chunck prs = Done prs' (n, rest) → hasError prs' = false → str_len rest ≠ buff_size →
      isFinished prs' = 0 → reads_head chunck true prs' rest s r → reads_head chunck false prs data s r.
(** The rest of a chunk with its line end, [left] bytes, read in pieces. *)
Inductive takes_rest : Z → string → S → result S (option string) → Prop :=
  | tr_none left body s : left ≤ 0 → takes_rest left body s (Done s (Some body))
  | tr_eof left body s s1 rt d r : 0 < left → read (Z.min left buff_size) s = Done s1 (rt, d) → rt ≤ 0 → gives_up s1 r → takes_rest left body s r
  | tr_more left body s s1 rt d r : 0 < left → read (Z.min left buff_size) s = Done s1 (rt, d) → 0 < rt →
      takes_rest (left - rt) (body ++ text_of d) s1 r → takes_rest left body s r.
Definition failed {A} (r : result S (option A)) : Prop := match r with Done _ (Some _) | NoFuel => False | _ => True end.
Definition pass {A B} (r : result S (option A)) : result S (option B) :=
  match r with Done s _ => Done s None | Raise s e => Raise s e | Undef c => Undef c | NoFuel => NoFuel end.
(** A chunk of [k] bytes, [data] in hand, behind [body]. *)
Inductive takes_chunk (k : Z) (data body : string) (s : S) : result S (option (string * string * Z)) → Prop :=
  | tk_overflow : 2 ^ 31 ≤ k + 2 → takes_chunk k data body s (Undef Overflow)
  | tk_negative : k + 2 ≤ str_len data → k < 0 → takes_chunk k data body s (Raise s ExnLengthError)
  | tk_here : k + 2 ≤ str_len data → 0 ≤ k →
      takes_chunk k data body s (Done s (Some (body ++ str_take (Z.to_nat k) data, str_drop (Z.to_nat (k + 2)) data, str_len data - (k + 2))))
  | tk_fails r : str_len data < k + 2 < 2 ^ 31 → takes_rest (k + 2 - str_len data) (body ++ data) s r → failed r → takes_chunk k data body s (pass r)
  | tk_short s' b : str_len data < k + 2 < 2 ^ 31 → takes_rest (k + 2 - str_len data) (body ++ data) s (Done s' (Some b)) → str_len b < 2 →
      takes_chunk k data body s (Raise s' ExnLengthError)
  | tk_rest s' b : str_len data < k + 2 < 2 ^ 31 → takes_rest (k + 2 - str_len data) (body ++ data) s (Done s' (Some b)) → 2 ≤ str_len b →
      takes_chunk k data body s (Done s' (Some (str_take (Z.to_nat (str_len b - 2)) b, "", 0))).
Inductive takes_chunks : HttpResponseParser → string → string → S → result S (option (HttpResponseParser * string)) → Prop :=
  | tc_head prs data body s r : reads_head true (str_len data =? 0) prs data s r → failed r → takes_chunks prs data body s (pass r)
  | tc_data prs data body s s1 prs1 data1 n r : reads_head true (str_len data =? 0) prs data s (Done s1 (Some (prs1, data1, n))) →
      takes_chunk (c_content_len prs1.1) data1 body s1 r → failed r → takes_chunks prs data body s (pass r)
  | tc_last prs data body s s1 prs1 data1 n s2 body2 data2 n2 : reads_head true (str_len data =? 0) prs data s (Done s1 (Some (prs1, data1, n))) →
      takes_chunk (c_content_len prs1.1) data1 body s1 (Done s2 (Some (body2, data2, n2))) → c_chunks_done prs1.1 ≠ 0 →
      takes_chunks prs data body s (Done s2 (Some (prs1, body2)))
  | tc_next prs data body s s1 prs1 data1 n s2 body2 data2 n2 r : reads_head true (str_len data =? 0) prs data s (Done s1 (Some (prs1, data1, n))) →
      takes_chunk (c_content_len prs1.1) data1 body s1 (Done s2 (Some (body2, data2, n2))) → c_chunks_done prs1.1 = 0 →
      takes_chunks prs1 data2 body2 s2 r → takes_chunks prs data body s r.
(** A body of [k] bytes, read and dropped. *)
Inductive takes_plain (k : Z) (data : string) (s : S) (rsp : HttpResponse) : result S (option HttpResponse) → Prop :=
  | tp_here : k ≤ str_len data → takes_plain k data s rsp (Done s (Some rsp))
  | tp_long : str_max < k → takes_plain k data s rsp (Raise s ExnLengthError)
  | tp_fails s1 r d r' : str_len data < k ≤ str_max → readFixSize (k - str_len data) s = Done s1 (r, d) → r ≤ 0 → gives_up s1 r' → takes_plain k data s rsp r'
  | tp_reads s1 r d : str_len data < k ≤ str_max → readFixSize (k - str_len data) s = Done s1 (r, d) → 0 < r → takes_plain k data s rsp (Done s1 (Some rsp)).
Inductive receives (s : S) : result S (option HttpResponse) → Prop :=
  | rv_head r : reads_head false true (HttpResponseParser_new mem) "" s r → failed r → receives s (pass r)
  | rv_plain s1 prs data n r : reads_head false true (HttpResponseParser_new mem) "" s (Done s1 (Some (prs, data, n))) → c_chunked prs.1 = 0 →
      takes_plain (s64 (getContentLength lexical_cast prs)) data s1 (r_data prs.2) r → receives s r
  | rv_fails s1 prs data n r : reads_head false true (HttpResponseParser_new mem) "" s (Done s1 (Some (prs, data, n))) → c_chunked prs.1 ≠ 0 →
      takes_chunks prs data "" s1 r → failed r → receives s (pass r)
  | rv_chunks s1 prs data n s2 prs2 body : reads_head false true (HttpResponseParser_new mem) "" s (Done s1 (Some (prs, data, n))) → c_chunked prs.1 ≠ 0 →
      takes_chunks prs data "" s1 (Done s2 (Some (prs2, body))) → receives s (Done s2 (Some (r_data prs2.2))).

Lemma gives_up_close {A} s : gives_up s ((close ;; mret (None : option A)) s).
Proof. destruct (close_law s) as (s' & Hc & _). exists s'. split; [done|]. by rewrite (bind_done _ _ _ _ _ Hc). Qed.
(** A call of the parser, as both loops make it. *)
Lemma turn_reads chunck prs data s (more : HttpResponseParser → string → Z → M S (option (HttpResponseParser * string * Z))) :
  0 < str_len data ≤ buff_size → response_ok prs →
  (∀ prs' n rest, hasError prs' = false → response_ok prs' → 0 < n → str_len rest = str_len data - n → isFinished prs' = 0 →
    reads_head chunck true prs' rest s (more prs' rest (str_len rest) s)) →
  reads_head chunck false prs data s (('(parser, (nparse, data')) ← local (execute data chunck) prs;
    if hasError parser then close ;; mret None else
    let len := s32 (str_len data - nparse) in
    if len =? s32 buff_size then close ;; mret None else
    if negb (isFinished parser =? 0) then mret (Some (parser, data', len)) else more parser data' len) s).
Proof.
  intros Hl Hp Hmore. pose proof (response_execute_ok data chunck prs ltac:(lia) Hp) as He. unfold local.
  destruct (execute data chunck prs) as [prs' [n rest]|prs' e|c|] eqn:E; [| | |done].
  - erewrite bind_done; [|reflexivity]. cbv beta iota. destruct He as (Hn & Hrest & _ & Hok).
    destruct (hasError prs') eqn:Herr; [eapply rh_bad; eauto using gives_up_close|]. destruct (Hok eq_refl) as [Hok' Hn0]. cbv zeta.
    rewrite !s32_small, <-Hrest by lia. destruct (Z.eqb_spec (str_len rest) buff_size) as [Hf|Hf]; [eapply rh_bad; eauto using gives_up_close|].
    destruct (Z.eqb_spec (isFinished prs') 0) as [Hfin|Hfin]; cbn [negb]; [|by eapply rh_done].
    eapply rh_more; eauto.
  - unfold mbind, M_bind. cbn. by eapply rh_throws.
  - unfold mbind, M_bind. cbn. by apply rh_crash.
Qed.
Lemma response_loop_reads fuel : ∀ prs data offset s, zlen (incoming s) < Z.of_nat fuel → response_ok prs →
  offset = str_len data → offset < buff_size → reads_head false true prs data s (response_loop buff_size fuel prs data offset s).
Proof.
  induction fuel as [|fuel IH]; intros prs data offset s Hf Hp Ho Hob; [pose proof (zlen_nonneg (incoming s)); lia|].
  cbn [response_loop]. pose proof (str_len_nonneg data). subst offset.
  rewrite u64_small by lia. destruct (read_law (buff_size - str_len data) s ltac:(lia)) as (s1 & len & d & Hr & Hle & Hge & Hout & Hin).
  rewrite (bind_done _ _ _ _ _ Hr). cbn beta iota. destruct (len <=? 0) eqn:Hlen; [eapply rh_eof; [exact Hr|lia|apply gives_up_close]|].
  replace (0 <? len) with true in Hin by lia. destruct Hin as [Hd Hin]. rewrite stored_bind by lia. cbv zeta.
  assert (Htl : s32 (len + str_len data) = str_len (data ++ text_of d)) by (rewrite s32_small, str_len_app, str_len_text_of by lia; lia).
  eapply rh_read; [exact Hr|lia|]. rewrite Htl. apply (turn_reads false prs (data ++ text_of d) s1 (response_loop buff_size fuel)); [|done|].
  { rewrite str_len_app, str_len_text_of. lia. }
  intros prs' n rest Herr Hok' Hn Hrest Hfin. rewrite str_len_app, str_len_text_of in Hrest. apply IH; [|done|done|lia].
  rewrite Hin, zlen_app in Hf. lia.
Qed.
Lemma chunk_head_loop_reads fuel : ∀ prs data len begin s, to_come s len < Z.of_nat fuel → response_ok prs →
  len = str_len data → len < buff_size →
  reads_head true (negb begin || (len =? 0)) prs data s (chunk_head_loop buff_size fuel prs data len begin s).
Proof.
  induction fuel as [|fuel IH]; intros prs data len begin s Hf Hp Ho Hob; pose proof (str_len_nonneg data);
    pose proof (zlen_nonneg (incoming s)); unfold to_come in Hf; [lia|]. cbn [chunk_head_loop]. subst len.
  assert (Hturn : ∀ data1 s1, 0 < str_len data1 ≤ buff_size → to_come s1 (str_len data1) = to_come s (str_len data) →
    reads_head true false prs data1 s1 (('(parser, (nparse, data)) ← local (execute data1 true) prs;
      if hasError parser then close ;; mret None else
      let len := s32 (str_len data1 - nparse) in
      if len =? s32 buff_size then close ;; mret None else
      if negb (isFinished parser =? 0) then mret (Some (parser, data, len)) else chunk_head_loop buff_size fuel parser data len false) s1)).
  { intros data1 s1 Hl1 Hc1. apply (turn_reads true prs data1 s1 (λ p d l, chunk_head_loop buff_size fuel p d l false)); [done|done|].
    intros prs' n rest Herr Hok' Hn Hrest Hfin. unfold to_come in *. apply (IH prs' rest (str_len rest) false s1); [unfold to_come; lia|done|done|lia]. }
  destruct (negb begin || (str_len data =? 0)) eqn:Hread.
  - rewrite u64_small by lia. destruct (read_law (buff_size - str_len data) s ltac:(lia)) as (s1 & rt & d & Hr & Hle & Hge & Hout & Hin).
    destruct (rt <=? 0) eqn:Hrt.
    + destruct (close_law s1) as (s2 & Hc & _).
      erewrite bind_done; [|rewrite (bind_done _ _ _ _ _ Hr); cbv beta iota; rewrite Hrt, (bind_done _ _ _ _ _ Hc); reflexivity].
      eapply rh_eof; [exact Hr|lia|by exists s2].
    + replace (0 <? rt) with true in Hin by lia. destruct Hin as [Hd Hin].
      erewrite bind_done; [|rewrite (bind_done _ _ _ _ _ Hr); cbv beta iota; rewrite Hrt, stored_bind by lia; reflexivity].
      assert (Htl : s32 (str_len data + rt) = str_len (data ++ text_of d)) by (rewrite s32_small, str_len_app, str_len_text_of by lia; lia).
      cbv beta iota. rewrite Htl. eapply rh_read; [exact Hr|lia|]. apply Hturn; [rewrite str_len_app, str_len_text_of; lia|].
      unfold to_come. rewrite Hin, zlen_app, str_len_app, str_len_text_of. lia.
  - erewrite bind_done; [|reflexivity]. cbv beta iota. apply orb_false_iff in Hread as [_ ?]. apply Hturn; [lia|done].
Qed.
Lemma left_loop_takes fuel : ∀ body left s, zlen (incoming s) < Z.of_nat fuel → left < 2 ^ 31 →
  takes_rest left body s (left_loop buff_size fuel body left s).
Proof.
  induction fuel as [|fuel IH]; intros body left s Hf Hl; [pose proof (zlen_nonneg (incoming s)); lia|]. cbn [left_loop].
  destruct (left >? 0) eqn:Hpos; [|apply tr_none; lia]. rewrite (s32_small buff_size) by lia.
  replace (if left >? buff_size then buff_size else left) with (Z.min left buff_size) by (destruct (left >? buff_size) eqn:?; lia).
  destruct (read_law (Z.min left buff_size) s ltac:(lia)) as (s1 & rt & d & Hr & Hle & Hge & Hout & Hin).
  rewrite (bind_done _ _ _ _ _ Hr). cbn beta iota. destruct (rt <=? 0) eqn:Hrt; [eapply tr_eof; [lia|exact Hr|lia|apply gives_up_close]|].
  replace (0 <? rt) with true in Hin by lia. destruct Hin as [Hd Hin]. rewrite stored_bind by lia.
  eapply tr_more; [lia|exact Hr|lia|]. apply IH; [|lia]. rewrite Hin, zlen_app in Hf. lia.
Qed.
Lemma chunk_data_takes fuel k data body s : - 2 ^ 31 ≤ k → zlen (incoming s) < Z.of_nat fuel → str_len data < 2 ^ 31 →
  takes_chunk k data body s (chunk_data buff_size fuel k data (str_len data) body s).
Proof.
  intros Hk Hf Hl. unfold chunk_data. pose proof (str_len_nonneg data).
  destruct (k + 2 >=? 2 ^ 31) eqn:Hov; [apply tk_overflow; lia|]. destruct (k + 2 <=? str_len data) eqn:Hin.
  - destruct (decide (k < 0)) as [Hneg|Hpos].
    + rewrite (bind_raise _ _ _ _ _ (std_string_long data (u64 k) s ltac:(unfold u64; replace k with (k + 2 ^ 64 + -1 * 2 ^ 64) by lia; rewrite Z.mod_add, Z.mod_small; lia))).
      apply tk_negative; lia.
    + rewrite (bind_done _ _ _ _ _ (std_string_ok data (u64 k) s ltac:(rewrite u64_small; lia) ltac:(lia))), u64_small by lia. apply tk_here; lia.
  - replace (k - str_len data + 2) with (k + 2 - str_len data) by lia.
    pose proof (left_loop_takes fuel (body ++ data) (k + 2 - str_len data) s Hf ltac:(lia)) as Ht.
    pose proof (left_loop_ends fuel (body ++ data) (k + 2 - str_len data) s Hf ltac:(lia)) as He.
    destruct (left_loop buff_size fuel (body ++ data) _ s) as [s1 [b|]|s1 e|c|] eqn:E; [| | | |done].
    + rewrite (bind_done _ _ _ _ _ E). cbv beta iota. unfold resize_2. destruct (str_len b <? 2) eqn:Hb; cbn.
      * eapply tk_short; [lia|exact Ht|lia].
      * eapply tk_rest; [lia|exact Ht|lia].
    + rewrite (bind_done _ _ _ _ _ E). apply (tk_fails _ _ _ _ (Done s1 None)); [lia|exact Ht|done].
    + rewrite (bind_raise _ _ _ _ _ E). apply (tk_fails _ _ _ _ (Raise s1 e)); [lia|exact Ht|done].
    + rewrite (bind_undef _ _ _ _ E). apply (tk_fails _ _ _ _ (Undef c)); [lia|exact Ht|done].
Qed.
Lemma chunks_loop_takes n fuel : ∀ prs data len body s, to_come s len < Z.of_nat n → to_come s len < Z.of_nat fuel → response_ok prs →
  len = str_len data → len < buff_size → takes_chunks prs data body s (chunks_loop buff_size n fuel prs data len body s).
Proof.
  induction fuel as [|fuel IH]; intros prs data len body s Hn Hf Hp Hl Hlb; pose proof (str_len_nonneg data); pose proof (zlen_nonneg (incoming s)).
  { unfold to_come in Hf. lia. }
  cbn [chunks_loop]. subst len. pose proof (chunk_head_loop_reads n prs data (str_len data) true s Hn Hp eq_refl Hlb) as Hh. cbn [negb orb] in Hh.
  pose proof (chunk_head_loop_ends n prs data (str_len data) true s Hn Hp eq_refl Hlb) as He.
  destruct (chunk_head_loop buff_size n prs data (str_len data) true s) as [s1 [[[prs1 data1] len1]|]|s1 e|c|] eqn:E; [| | | |done].
  2:{ rewrite (bind_done _ _ _ _ _ E). by apply (tc_head _ _ _ _ (Done s1 None)). }
  2:{ rewrite (bind_raise _ _ _ _ _ E). by apply (tc_head _ _ _ _ (Raise s1 e)). }
  2:{ rewrite (bind_undef _ _ _ _ E). by apply (tc_head _ _ _ _ (Undef c)). }
  rewrite (bind_done _ _ _ _ _ E). cbv beta iota. destruct He as [_ (_ & Hok1 & -> & Hlen1 & Hc1)]. pose proof Hok1 as (_ & _ & Hk1 & _).
  assert (Hin1 : zlen (incoming s1) < Z.of_nat n) by (unfold to_come in *; lia).
  pose proof (chunk_data_takes n (c_content_len prs1.1) data1 body s1 Hk1 Hin1 ltac:(lia)) as Hd.
  pose proof (chunk_data_ends n (c_content_len prs1.1) data1 (str_len data1) body s1 Hk1 Hin1 eq_refl ltac:(lia)) as Hde.
  destruct (chunk_data buff_size n (c_content_len prs1.1) data1 (str_len data1) body s1) as [s2 [[[body2 data2] len2]|]|s2 e|c|] eqn:E2; [| | | |done].
  2:{ rewrite (bind_done _ _ _ _ _ E2). by eapply (tc_data _ _ _ _ _ _ _ _ (Done s2 None)). }
  2:{ rewrite (bind_raise _ _ _ _ _ E2). by eapply (tc_data _ _ _ _ _ _ _ _ (Raise s2 e)). }
  2:{ rewrite (bind_undef _ _ _ _ E2). by eapply (tc_data _ _ _ _ _ _ _ _ (Undef c)). }
  rewrite (bind_done _ _ _ _ _ E2). cbv beta iota. destruct Hde as [_ (Hl2 & Hle2 & Hc2)].
  destruct (Z.eqb_spec (c_chunks_done prs1.1) 0) as [Hz|Hz]; [|by eapply tc_last].
  eapply tc_next; [exact Hh|exact Hd|done|]. apply IH; lia || done.
Qed.
Lemma plain_body_takes prs data s : str_len data < 2 ^ 31 →
  takes_plain (s64 (getContentLength lexical_cast prs)) data s (r_data prs.2)
    ((body ← plain_body lexical_cast prs data (str_len data); mret ((λ _, r_data prs.2) <$> body)) s).
Proof.
  intros Hob. pose proof (str_len_nonneg data). unfold plain_body. set (n := s64 (getContentLength lexical_cast prs)).
  destruct (n >? 0) eqn:Hpos; [|erewrite bind_done by reflexivity; apply tp_here; lia].
  destruct (n >? str_max) eqn:Hmax; [unfold mbind, M_bind; cbn; apply tp_long; lia|]. unfold str_max in *.
  rewrite s64_small by lia. destruct (n - str_len data >? 0) eqn:Hrest; [|erewrite bind_done by reflexivity; apply tp_here; lia].
  destruct (readFixSize_ok (S := S) (n - str_len data) s ltac:(lia)) as (s1 & r & d & Hr & _ & Hout & Hd).
  destruct (r <=? 0) eqn:Hr0.
  - destruct (close_law s1) as (s2 & Hc & _).
    erewrite bind_done; [|rewrite (bind_done _ _ _ _ _ Hr); cbv beta iota; rewrite Hr0, (bind_done _ _ _ _ _ Hc); reflexivity].
    eapply tp_fails; [unfold str_max; lia|exact Hr|lia|by exists s2].
  - erewrite bind_done; [|rewrite (bind_done _ _ _ _ _ Hr); cbv beta iota; rewrite Hr0; reflexivity].
    eapply tp_reads; [unfold str_max; lia|exact Hr|lia].
Qed.

Lemma recvResponse_returns fuel s : zlen (incoming s) < Z.of_nat fuel →
  ends (λ _ rsp, p_body rsp = "") s (recvResponse lexical_cast buff_size mem fuel s).
Proof.
  intros Hf. unfold recvResponse.
  eapply (ends_bind (A := HttpResponseParser * string * Z) (in_hand (to_come s 0)) _ _ (λ '(prs, data, offset), _)).
  { apply response_loop_ends; [done| |done|lia]. unfold response_ok, no_body. cbn. lia || split_and!; done || lia. }
  intros s1 [[prs1 data1] len1] Ho1 (Hb1 & Hok1 & Hl1 & Hlen1 & Hc1). unfold to_come in Hc1.
  assert (Hbody : ends (λ _ '(prs', _), no_body prs'.2) s1 (response_body lexical_cast buff_size fuel prs1 data1 len1 s1)).
  { unfold response_body. destruct (negb _).
    - apply chunks_loop_ends; try done; try lia; unfold to_come; lia.
    - pose proof (plain_body_ends prs1 data1 len1 s1 Hl1 ltac:(lia)) as Hp. unfold ends in *.
      destruct (plain_body lexical_cast prs1 data1 len1 s1) as [s2 [b|]|s2 ?|?|] eqn:E; try done.
      + rewrite (bind_done _ _ _ _ _ E). cbn. split; [apply Hp|done].
      + rewrite (bind_done _ _ _ _ _ E). done.
      + by rewrite (bind_raise _ _ _ _ _ E).
      + by rewrite (bind_undef _ _ _ _ E). }
  unfold ends in *. destruct (response_body _ _ _ _ _ _ s1) as [s2 [[prs2 b]|]|s2 ?|?|] eqn:E; try done.
  - rewrite (bind_done _ _ _ _ _ E). done.
  - rewrite (bind_done _ _ _ _ _ E). done.
  - by rewrite (bind_raise _ _ _ _ _ E).
  - by rewrite (bind_undef _ _ _ _ E).
Qed.
Lemma recvResponse_receives fuel s : zlen (incoming s) < Z.of_nat fuel → receives s (recvResponse lexical_cast buff_size mem fuel s).
Proof.
  intros Hf. assert (Hp : response_ok (HttpResponseParser_new mem)) by (unfold response_ok, no_body; cbn; lia || split_and!; done || lia).
  pose proof (response_loop_reads fuel (HttpResponseParser_new mem) "" 0 s Hf Hp eq_refl ltac:(lia)) as Hh.
  pose proof (response_loop_ends fuel (HttpResponseParser_new mem) "" 0 s Hf Hp eq_refl ltac:(lia)) as He. unfold recvResponse.
  destruct (response_loop buff_size fuel (HttpResponseParser_new mem) "" 0 s) as [s1 [[[prs1 data1] len1]|]|s1 e|c|] eqn:E; [| | | |done].
  2:{ rewrite (bind_done _ _ _ _ _ E). by apply (rv_head _ (Done s1 None)). }
  2:{ rewrite (bind_raise _ _ _ _ _ E). by apply (rv_head _ (Raise s1 e)). }
  2:{ rewrite (bind_undef _ _ _ _ E). by apply (rv_head _ (Undef c)). }
  rewrite (bind_done _ _ _ _ _ E). cbv beta iota. destruct He as [_ (_ & Hok1 & -> & Hlen1 & Hc1)]. unfold to_come in Hc1.
  pose proof (str_len_nonneg data1). pose proof (zlen_nonneg (incoming s1)).
  unfold response_body. destruct (Z.eqb_spec (c_chunked prs1.1) 0) as [Hz|Hz]; cbn [negb].
  - eapply rv_plain; [exact Hh|exact Hz|]. pose proof (plain_body_takes prs1 data1 s1 ltac:(lia)) as Ht. revert Ht.
    destruct (plain_body lexical_cast prs1 data1 (str_len data1) s1) as [s2 [b|]|s2 e|c|] eqn:E2;
      unfold mbind, M_bind; rewrite E2; by intros Ht.
  - pose proof (chunks_loop_takes fuel fuel prs1 data1 (str_len data1) "" s1 ltac:(unfold to_come; lia) ltac:(unfold to_come; lia) Hok1 eq_refl ltac:(lia)) as Ht.
    pose proof (chunks_loop_ends fuel fuel prs1 data1 (str_len data1) "" s1 ltac:(unfold to_come; lia) ltac:(unfold to_come; lia) Hok1 eq_refl ltac:(lia)) as Hte.
    destruct (chunks_loop buff_size fuel fuel prs1 data1 (str_len data1) "" s1) as [s2 [[prs2 b]|]|s2 e|c|] eqn:E2; [| | | |done].
    + rewrite (bind_done _ _ _ _ _ E2). by eapply rv_chunks.
    + rewrite (bind_done _ _ _ _ _ E2). by eapply (rv_fails _ _ _ _ _ (Done s2 None)).
    + rewrite (bind_raise _ _ _ _ _ E2). by eapply (rv_fails _ _ _ _ _ (Raise s2 e)).
    + rewrite (bind_undef _ _ _ _ E2). by eapply (rv_fails _ _ _ _ _ (Undef c)).
Qed.

(** C25: [recvResponse] on any stream does what [receives] says, call by call: it reads
    what fits behind the bytes in hand and gives them to the parser, gives up with the
    stream closed when a read fails, the parser reports an error or the buffer is full, and
    goes on until the parser has finished; then come the chunks, each behind a line of its
    own, or a body with a length.  It returns, having sent nothing, with a response - whose
    body is empty, for the body that it has read is dropped -, or with nothing and the
    stream closed, or by an exception: one of a callback of the parser, or the
    [length_error] of a content-length beyond any string, of a negative chunk size, or of a
    body shorter than the two bytes that are cut off.  The accesses it does not guard are in
    the parser - a field name read behind the buffer, the assertion about a head that an
    earlier call has finished - and the overflow of a chunk size; a peer can reach each
    of them ([response_receive_crashes]). *)
Theorem recvResponse_ends fuel s : zlen (incoming s) < Z.of_nat fuel →
  receives s (recvResponse lexical_cast buff_size mem fuel s) ∧
  ends (λ _ rsp, p_body rsp = "") s (recvResponse lexical_cast buff_size mem fuel s).
Proof. intros Hf. split; [by apply recvResponse_receives|by apply recvResponse_returns]. Qed.
End laws.

(** ** What a peer can do *)
Definition no_client : httpclient_parser := mkClientParser 0 0 0 0 0 0 0 0 0 0 0.
Definition recv (l : list string) : result chunked (option HttpResponse) := recvResponse undec 4096 no_client 200 (chunks l).
Definition ok_line : string := "HTTP/1.1 200 OK" ++ CRLF.
Definition chunked_head : string := ok_line ++ "transfer-encoding: chunked" ++ CRLF ++ CRLF.
Definition response_of (r : result chunked (option HttpResponse)) : option HttpResponse := match r with Done _ (Some rsp) => Some rsp | _ => None end.

Definition short_body : list string := [ok_line ++ "content-length: 2" ++ CRLF ++ CRLF ++ "a"; "b"].
Lemma recvResponse_ends_witness : ∃ s rsp, recv short_body = Done s (Some rsp) ∧ p_body rsp = "" ∧ outgoing s = [].
Proof.
  pose proof (proj2 (recvResponse_ends (S := chunked) undec 4096 no_client ltac:(lia) 200 (chunks short_body) ltac:(apply Z.ltb_lt; vm_compute; reflexivity))
    : ends _ _ (recv short_body)) as H.
  destruct (recv short_body) as [s [rsp|]|s e|c|] eqn:E; [|vm_compute in E; discriminate E..].
  exists s, rsp. split; [reflexivity|]. exact (conj (proj2 H) (proj1 H)).
Defined.

(** What the ends of [recvResponse_ends] look like.  A response in chunks is read, but
    its body is dropped, as is a body with a length; the same response with the line
    before a chunk cut by a read is refused, for every call starts the parser anew.  A
    last header field "Connection:" without a value leaves the parser in a final state
    that [is_finished] does not know: the client reads on, and the next, shorter buffer
    fails an assertion.  A content-length on the line behind its name makes the parser
    take the number for a field name, as long as the one before, and read behind the
    buffer.  A chunk size of 2^32 - 1 becomes -1 and an exception; one of 2^31 - 1
    overflows. *)
Theorem response_receive_crashes :
  response_of (recv [chunked_head ++ "2" ++ CRLF ++ "ab" ++ CRLF ++ "0" ++ CRLF ++ CRLF])
    = Some (mkHttpResponse OK 0x11 true false "" "OK" [("transfer-encoding", "chunked")] []) ∧
  response_of (recv [ok_line ++ "content-length: 2" ++ CRLF ++ CRLF ++ "ab"])
    = Some (mkHttpResponse OK 0x11 true false "" "OK" [("content-length", "2")] []) ∧
  (∃ s, recv [chunked_head ++ "2"; CRLF ++ "ab" ++ CRLF ++ "0" ++ CRLF ++ CRLF] = Done s None ∧ ch_closed s = true) ∧
  recv [ok_line ++ "connection:" ++ CRLF ++ CRLF; "ab"] = Undef AssertFail ∧
  recv [ok_line ++ "content-length:" ++ CRLF ++ "5" ++ CRLF] = Undef OutOfBounds ∧
  (∃ s, recv [chunked_head ++ "ffffffff" ++ CRLF ++ "ab"] = Raise s ExnLengthError) ∧
  recv [chunked_head ++ "7fffffff" ++ CRLF ++ "ab"] = Undef Overflow.
Proof.
  split; [vm_compute; reflexivity|]. split; [vm_compute; reflexivity|].
  split; [eexists; split; [vm_compute; reflexivity|reflexivity]|].
  split; [vm_compute; reflexivity|]. split; [vm_compute; reflexivity|].
  split; [eexists; vm_compute; reflexivity|vm_compute; reflexivity].
Qed.
