(* ===== verification/HttpResponseRoundTrip.v ===== *)
(** * HttpResponseRoundTrip: what a server writes, the client receives - but for the body

    The text of [HttpResponse::dump] through [HttpConnection::recvResponse]. *)
From S2P Require Import Prelude Text Http HttpFacts HttpGrammar HttpFields Callbacks Ragel HttpClientTable HttpClient HttpClientFacts HttpResponseParser HttpResponseFacts Uri Stream Segments HttpConnection.
Open Scope string_scope.
Open Scope Z_scope.

(** The fields of a dumped response. *)
Definition cookie_fields (l : list string) : MapType := (λ c, ("Set-Cookie", c)) <$> l.
Definition response_fields (r : HttpResponse) : MapType :=
  (filter not_connection (p_headers r) ++ cookie_fields (p_cookies r) ++ [("connection", if p_close r then "close" else "keep-alive")] ++
    (if is_empty (p_body r) then [] else [("content-length", dec (str_len (p_body r)))]))%list.
Definition reason_text (r : HttpResponse) : string := if is_empty (p_reason r) then HttpStatusToString (p_status r) else p_reason r.
Definition answer_head (r : HttpResponse) : string := response_head (p_version r) (p_status r) (reason_text r) (response_fields r).
(** A response a server can write so that it is read back. *)
Definition answerable (r : HttpResponse) : Prop :=
  response_head_ok (p_version r) (p_status r) (reason_text r) (p_headers r) ∧ p_websocket r = false ∧
  Forall (λ c, value_ok c = true ∧ c ≠ "") (p_cookies r) ∧
  map_ok (p_headers r) ∧ to_gmap (p_headers r) !! "content-length" = None ∧ str_len (p_body r) < 2 ^ 31.

Lemma dump_response r : answerable r → HttpResponse_dump r = answer_head r ++ p_body r.
Proof.
  intros ((_ & [Hst _] & _) & Hw & _). unfold HttpResponse_dump, answer_head, response_head, reason_text, response_fields.
  rewrite Hw, dump_connection_lines, dump_headers_lines, dump_body_lines, dump_cookies_lines, u32_small by lia.
  rewrite !fields_text_app, !str_app_assoc. do 7 f_equal.
  assert (Hc : lines_text ((λ c, "Set-Cookie: " ++ c) <$> p_cookies r) = fields_text (cookie_fields (p_cookies r))).
  { unfold fields_text, cookie_fields. by rewrite <-list_fmap_compose. }
  rewrite Hc. do 3 f_equal. unfold length_lines. by destruct (is_empty (p_body r)).
Qed.
Lemma response_fields_ok r : answerable r → Forall field_ok (response_fields r).
Proof.
  intros ((_ & _ & _ & Hf) & _ & Hc & _). unfold response_fields. rewrite !Forall_app. split_and!.
  - apply Forall_forall. intros e He. apply list_elem_of_filter in He as [_ He]. rewrite Forall_forall in Hf. by apply Hf.
  - apply Forall_fmap. eapply Forall_impl; [exact Hc|]. intros c [H1 H2]. by split_and!.
  - repeat constructor; by destruct (p_close r).
  - destruct (is_empty (p_body r)); repeat constructor; cbn [fst snd]; try done; [apply dec_value, str_len_nonneg|apply dec_nonempty].
Qed.

(** The header map that the client builds. *)
Lemma put_cookies l : ∀ (g : gmap string string) x, foldl (λ g e, <[fold_case e.1 := e.2]> g) g (cookie_fields l) !! x =
  if bool_decide (x = "set-cookie") then match last l with Some c => Some c | None => g !! x end else g !! x.
Proof.
  induction l as [|c l IH]; intros g x; [by case_bool_decide|]. cbn [cookie_fields fmap list_fmap foldl fst snd]. fold (cookie_fields l).
  rewrite IH, last_cons. change (fold_case "Set-Cookie") with "set-cookie". case_bool_decide as Hx.
  - subst x. rewrite lookup_insert_eq. by destruct (last l).
  - by rewrite lookup_insert_ne.
Qed.
Definition header_of (r : HttpResponse) (x : string) : option string :=
  if bool_decide (x = "content-length") then (if is_empty (p_body r) then None else Some (dec (str_len (p_body r))))
  else if bool_decide (x = "connection") then Some (if p_close r then "close" else "keep-alive")
  else if bool_decide (x = "set-cookie") then match last (p_cookies r) with Some c => Some c | None => to_gmap (p_headers r) !! x end
  else to_gmap (p_headers r) !! x.
Lemma answer_headers r x : answerable r → to_gmap (foldl put [] (response_fields r)) !! x = header_of r x.
Proof.
  intros (_ & _ & _ & Hmap & Hcl & _). rewrite (proj2 (put_gmap (response_fields r) [] ltac:(constructor))). unfold response_fields, header_of.
  rewrite !foldl_app. cbn [foldl fst snd]. change (fold_case "connection") with "connection".
  assert (Hbase : ∀ x, foldl (λ g e, <[fold_case e.1 := e.2]> g) (to_gmap []) (filter not_connection (p_headers r)) !! x =
    if bool_decide (x = "connection") then None else to_gmap (p_headers r) !! x).
  { intros y. rewrite put_filter by done. case_bool_decide; [done|]. by destruct (to_gmap (p_headers r) !! y). }
  assert (Hlast : ∀ g : gmap string string, foldl (λ g e, <[fold_case e.1 := e.2]> g) g
      (if is_empty (p_body r) then [] else [("content-length", dec (str_len (p_body r)))]) !! x =
    if bool_decide (x = "content-length") && negb (is_empty (p_body r)) then Some (dec (str_len (p_body r))) else g !! x).
  { intros g. destruct (is_empty (p_body r)); [by rewrite andb_false_r|]. cbn. case_bool_decide as Hx; [subst; by rewrite lookup_insert_eq|].
    by rewrite lookup_insert_ne. }
  rewrite Hlast. clear Hlast. case_bool_decide as Hx; [subst x|cbn [andb]].
  - destruct (is_empty (p_body r)); cbn [negb andb]; [|done]. rewrite lookup_insert_ne, put_cookies, Hbase by done. by rewrite !bool_decide_eq_false_2, Hcl by done.
  - case_bool_decide as Hx'; [subst x; by rewrite lookup_insert_eq|]. rewrite lookup_insert_ne, put_cookies, Hbase by done.
    by rewrite (bool_decide_eq_false_2 (x = "connection")) by done.
Qed.
Definition answered (r : HttpResponse) : HttpResponse :=
  response_read (p_version r) (p_status r) (reason_text r) (response_fields r) (HttpResponse_new 0x11 true).
Lemma answer_find r k : answerable r → map_find k (p_headers (answered r)) = header_of r (fold_case k).
Proof.
  intros Hr. unfold answered. rewrite response_read_eq. cbn [p_headers]. rewrite map_find_gmap by (apply (put_gmap (response_fields r) []); constructor).
  by apply answer_headers.
Qed.

Section receive.
Context {S : Type} `{!Stream S, !StreamLaws S} (lexical_cast : string → option Z) (buff_size : Z) (mem : httpclient_parser).
#[local] Set Default Proof Using "All".
Hypothesis Hbuff : 0 < buff_size < 2 ^ 31.

(** A head that the first read delivers. *)
Lemma response_loop_head fuel v st reason hs b1 s s1 len d : response_head_ok v st reason hs →
  read buff_size s = Done s1 (len, d) → zlen d = len → len ≤ buff_size → text_of d = response_head v st reason hs ++ b1 →
  ∃ prs, response_loop buff_size (Datatypes.S fuel) (HttpResponseParser_new mem) "" 0 s = Done s1 (Some (prs, b1, str_len b1)) ∧
    plain prs.1 ∧ r_data prs.2 = response_read v st reason hs (HttpResponse_new 0x11 true).
Proof.
  intros Hok Hr Hd Hle Ht. cbn [response_loop]. rewrite Z.sub_0_r, u64_small by lia.
  pose proof (response_head_pos v st reason hs) as Hpos. pose proof (str_len_nonneg b1) as Hb1.
  assert (Htl : str_len (response_head v st reason hs) + str_len b1 = len) by (rewrite <-str_len_app, <-Ht, str_len_text_of; lia).
  rewrite (bind_done _ _ _ _ _ Hr). cbv beta iota. replace (len <=? 0) with false by lia. rewrite stored_bind by lia. cbn [append]. rewrite Ht.
  destruct (execute_response_head v st reason hs b1 mem Hok) as (prs & He & Herr & Hfin & Hplain & Hdata); [unfold fits; rewrite str_len_app; lia|].
  unfold local. rewrite He. erewrite bind_done; [|reflexivity]. cbv beta iota. rewrite Herr, Hfin. cbn [negb Z.eqb].
  rewrite Z.add_0_r, !s32_small by (rewrite ?s32_small; lia). replace (len - str_len (response_head v st reason hs)) with (str_len b1) by lia.
  replace (str_len b1 =? buff_size) with false by lia. exists prs. done.
Qed.
(** The body behind it: all of it is taken from the stream, or the stream is closed. *)
Lemma plain_body_reads prs b1 b2 rest s : getContentLength lexical_cast prs = str_len (b1 ++ b2) → str_len (b1 ++ b2) < 2 ^ 31 →
  incoming s = (bytes_of b2 ++ rest)%list →
  ∃ s' res, plain_body lexical_cast prs b1 (str_len b1) s = Done s' res ∧ outgoing s' = outgoing s ∧
    (res = Some (b1 ++ b2) ∧ incoming s' = rest ∨ res = None ∧ stream_closed s' = true ∧ b2 ≠ "").
Proof.
  intros Hcl Hbl Hin. unfold plain_body. rewrite Hcl. rewrite str_len_app in *. pose proof (str_len_nonneg b1). pose proof (str_len_nonneg b2).
  rewrite s64_small by lia. assert (Hb1 : str_ztake (str_len b1) b1 = b1) by (rewrite <-(str_app_nil_r b1) at 2; apply str_ztake_exact).
  destruct (str_len b1 + str_len b2 >? 0) eqn:Hpos.
  2:{ rewrite (str_len_0 b1), (str_len_0 b2) by lia. rewrite (str_len_0 b2) in Hin by lia. eexists _, _. split; [reflexivity|]. split; [done|by left]. }
  replace (str_len b1 + str_len b2 >? str_max) with false by (unfold str_max; lia).
  replace (str_len b1 + str_len b2 >=? str_len b1) with true by lia. rewrite Hb1, Z.add_simpl_l, s64_small by lia.
  destruct (str_len b2 >? 0) eqn:Hpos2.
  2:{ pose proof (str_len_0 b2 ltac:(lia)) as ->. rewrite str_app_nil_r. eexists _, _. split; [reflexivity|]. split; [done|by left]. }
  destruct (readFixSize_text b2 rest s ltac:(lia) Hin) as (s2 & r & d2 & Hr2 & Hout2 & Hd2).
  rewrite (bind_done _ _ _ _ _ Hr2). cbv beta iota. destruct (r <=? 0) eqn:Hr0.
  - destruct (close_law s2) as (s3 & Hc & Hcl3 & Ho3). rewrite (bind_done _ _ _ _ _ Hc). eexists _, _. split; [reflexivity|].
    split; [congruence|]. right. split; [done|]. split; [done|]. intros ->. done.
  - destruct Hd2 as [(_ & -> & -> & Hrest)|]; [|lia]. rewrite Z.sub_diag. change (str_repeat (Z.to_nat 0) NUL) with "". rewrite str_app_nil_r.
    eexists _, _. split; [reflexivity|]. split; [congruence|]. by left.
Qed.

(** The bytes of a response, the head in the first read: the response is received. *)
Lemma recv_dumped_response fuel r rest s s1 len d :
  answerable r → lexical_cast (dec (str_len (p_body r))) = Some (str_len (p_body r)) →
  incoming s = (bytes_of (HttpResponse_dump r) ++ rest)%list →
  read buff_size s = Done s1 (len, d) → str_len (answer_head r) ≤ len ≤ str_len (HttpResponse_dump r) →
  ∃ s' res, recvResponse lexical_cast buff_size mem (Datatypes.S fuel) s = Done s' res ∧ outgoing s' = outgoing s ∧
    (res = Some (answered r) ∧ incoming s' = rest ∨ res = None ∧ stream_closed s' = true ∧ len < str_len (HttpResponse_dump r)).
Proof.
  intros Hr Hlc Hin Hread Hlen. destruct (read_law buff_size s ltac:(lia)) as (s1' & len' & d' & Hread' & Hle & Hge & Hout & Hd).
  rewrite Hread in Hread'. injection Hread' as <- <- <-.
  assert (Hpos : 0 < str_len (answer_head r)) by apply response_head_pos. replace (0 <? len) with true in Hd by lia. destruct Hd as [Hzd Hin1].
  pose proof Hr as ((Hv & Hst & Hre & _) & _ & _ & _ & _ & Hbody). rewrite (dump_response r Hr) in *. rewrite str_len_app in Hlen.
  set (n := Z.to_nat (len - str_len (answer_head r))). set (b1 := str_take n (p_body r)). set (b2 := str_drop n (p_body r)).
  assert (Hsplit : p_body r = b1 ++ b2) by (unfold b1, b2; by rewrite str_take_drop).
  assert (Hb1 : str_len b1 = len - str_len (answer_head r)) by (unfold b1; rewrite str_len_take; unfold n; lia).
  rewrite Hin1, bytes_of_app, Hsplit, bytes_of_app, <-!app_assoc, app_assoc, <-bytes_of_app in Hin.
  apply app_inj_1 in Hin as [Hd Hin]; [|pose proof (zlen_bytes_of (answer_head r ++ b1)) as Hz; rewrite str_len_app in Hz; unfold zlen in *; lia].
  destruct (response_loop_head fuel (p_version r) (p_status r) (reason_text r) (response_fields r) b1 s s1 len d) as (prs & Hl & Hplain & Hdata); try done.
  { split_and!; try done. by apply response_fields_ok. }
  { by rewrite Hd, text_of_bytes_of. }
  fold (answered r) in Hdata. unfold recvResponse. rewrite (bind_done _ _ _ _ _ Hl). cbv beta iota. unfold response_body. rewrite Hplain. cbn [negb Z.eqb].
  destruct (plain_body_reads prs b1 b2 rest s1) as (s' & res & Hp & Hout' & Hres); [|by rewrite <-Hsplit|done|].
  { unfold getContentLength, getAs. rewrite Hdata, answer_find by done. unfold header_of. rewrite bool_decide_eq_true_2 by done. rewrite <-Hsplit.
    destruct (is_empty (p_body r)) eqn:E; [by destruct (p_body r)|by rewrite Hlc]. }
  eexists s', _. split.
  { rewrite (bind_done _ _ s1 s' ((λ body, (prs, body)) <$> res)); [reflexivity|]. by rewrite (bind_done _ _ _ _ _ Hp). }
  split; [congruence|]. destruct Hres as [[-> Hrest]|(-> & Hcl' & Hne)].
  - left. cbn [fmap option_fmap option_map]. by rewrite Hdata.
  - right. split; [done|]. split; [done|]. rewrite !str_len_app, Hsplit, str_len_app.
    assert (0 < str_len b2) by (destruct b2; [done|unfold str_len; cbn [String.length]; lia]). lia.
Qed.

(** C19: a response written with [dump] and answered with [recvResponse] has the same
    status, version and reason and every header field but the ones that [dump] writes
    itself - of several cookies only the last is left -, and exactly its bytes are taken
    from the stream; but its body is lost.  This is so if the first read delivers the
    whole head, with any part of the body.  Otherwise the stream ended within the body,
    and the connection is closed. *)
Theorem response_roundtrip fuel r rest s s1 len d :
  answerable r → lexical_cast (dec (str_len (p_body r))) = Some (str_len (p_body r)) →
  incoming s = (bytes_of (HttpResponse_dump r) ++ rest)%list →
  read buff_size s = Done s1 (len, d) → str_len (answer_head r) ≤ len ≤ str_len (HttpResponse_dump r) →
  ∃ s' res, recvResponse lexical_cast buff_size mem (Datatypes.S fuel) s = Done s' res ∧ outgoing s' = outgoing s ∧
    ((∃ r', res = Some r' ∧ incoming s' = rest ∧
        p_status r' = p_status r ∧ p_version r' = p_version r ∧ p_reason r' = reason_text r ∧ p_body r' = "" ∧
        ∀ k, map_find k (p_headers r') = header_of r (fold_case k)) ∨
     res = None ∧ stream_closed s' = true ∧ len < str_len (HttpResponse_dump r)).
Proof.
  intros Hr Hlc Hin Hread Hlen. destruct (recv_dumped_response fuel r rest s s1 len d Hr Hlc Hin Hread Hlen)
    as (s' & res & Hrecv & Hout & Hres). exists s', res. split; [done|]. split; [done|]. destruct Hres as [[-> Hrest]|]; [left|by right].
  exists (answered r). split; [done|]. split; [done|].
  split_and!; try (unfold answered; rewrite response_read_eq; done). intros k. by apply answer_find.
Qed.
End receive.

(** ** A witness: the body in two pieces *)
Definition sample_response : HttpResponse :=
  mkHttpResponse NOT_FOUND 0x11 false false "hello" "" [("Content-Type", "text/html"); ("server", "sylar/1.0.0")] ["a=1"; "b=2"].
Definition sample_answer : chunked :=
  chunks [answer_head sample_response ++ "he"; "llo"; "rest"].
Definition no_client : httpclient_parser := mkClientParser 0 0 0 0 0 0 0 0 0 0 0.
Lemma sample_answerable : answerable sample_response.
Proof.
  split; [|split_and!; try done; try (repeat constructor; done)].
  split; [by right|]. split; [by split|]. split; [by vm_compute|]. repeat (apply List.Forall_cons; [by split_and!; vm_compute|]). constructor.
Qed.
Lemma response_roundtrip_witness : ∃ s' r', recvResponse undec 4096 no_client 2 sample_answer = Done s' (Some r') ∧
  incoming s' = bytes_of "rest" ∧ p_status r' = NOT_FOUND ∧ p_reason r' = "Not Found" ∧ p_body r' = "" ∧
  map_find "SERVER" (p_headers r') = Some "sylar/1.0.0" ∧ map_find "set-cookie" (p_headers r') = Some "b=2".
Proof.
  destruct (response_roundtrip (S := chunked) undec 4096 no_client ltac:(lia) 1 sample_response (bytes_of "rest") sample_answer
    (chunks ["llo"; "rest"]) (str_len (answer_head sample_response ++ "he")) (bytes_of (answer_head sample_response ++ "he")))
    as (s' & res & Hrecv & _ & [(r' & -> & Hin & Hst & _ & Hre & Hb & Hh)|(-> & _ & Hlt)]).
  - exact sample_answerable.
  - vm_compute. reflexivity.
  - vm_compute. reflexivity.
  - vm_compute. reflexivity.
  - split; vm_compute; discriminate.
  - exists s', r'. split; [exact Hrecv|]. split; [exact Hin|]. split; [exact Hst|]. split; [rewrite Hre; reflexivity|]. split; [exact Hb|].
    split; rewrite Hh; vm_compute; reflexivity.
  - exfalso. assert (Hd : recvResponse undec 4096 no_client 2 sample_answer ≠ Done s' None) by (vm_compute; discriminate). exact (Hd Hrecv).
Defined.
