(* ===== verification/HttpRequests.v ===== *)
(** * HttpRequests ([webserve/http/http_connection.cc]): the requests of HttpConnection

    [DoGet], [DoPost] and [DoRequest]: from a URL to a response or one of the errors of
    [HttpResult].  Resolving, connecting and the text of errno are parameters. *)
From S2P Require Import Prelude Text UriTable Uri Http Callbacks HttpClient Stream HttpConnection.
Open Scope string_scope.
Open Scope Z_scope.

(** [HttpResult] and its errors. *)
Inductive Error :=
| Error_OK | INVALID_URL | INVALID_HOST | CONNECT_FAIL | SEND_CLOSE_BY_PEER | SEND_SOCKET_ERROR | TIMEOUT | CREATE_SOCKET_ERROR
| POOL_GET_CONNECTION | POOL_INVALID_CONNECTION.
Record HttpResult := mkHttpResult { res_result : Error; res_response : option HttpResponse; res_error : string }.
Definition failed (e : Error) (text : string) : HttpResult := mkHttpResult e None text.
Definition error_code (e : Error) : Z :=
  match e with
  | Error_OK => 0 | INVALID_URL => 1 | INVALID_HOST => 2 | CONNECT_FAIL => 3 | SEND_CLOSE_BY_PEER => 4 | SEND_SOCKET_ERROR => 5
  | TIMEOUT => 6 | CREATE_SOCKET_ERROR => 7 | POOL_GET_CONNECTION => 8 | POOL_INVALID_CONNECTION => 9
  end.
(** [HttpResult::toString] *)
Definition HttpResult_toString (r : HttpResult) : string :=
  "[HttpResult result=" ++ dec (error_code (res_result r)) ++ " error=" ++ res_error r ++ " response=" ++
  (match res_response r with Some rsp => HttpResponse_dump rsp | None => "nullptr" end) ++ "]".

(** ** The request *)
(** One entry of [headers], with [has_host]. *)
Definition add_header (st : HttpRequest * bool) (i : string * string) : HttpRequest * bool :=
  let '(req, has_host) := st in
  if cmp_eq (strcasecmp i.1 "connection") then
    (if cmp_eq (strcasecmp i.2 "keep-alive") then setClose false req else req, has_host)
  else
    (setHeader i.1 i.2 req,
     if negb has_host && cmp_eq (strcasecmp i.1 "host") then negb (is_empty i.2) else has_host).
Definition add_headers (headers : list (string * string)) (host body : string) (req : HttpRequest) : HttpRequest :=
  let '(req, has_host) := foldl add_header (req, false) headers in
  setBody body (if has_host then req else setHeader "Host" host req).
(** The request of [DoRequest(method, uri, ...)]. *)
Definition uri_request (method : HttpMethod) (uri : Uri) (headers : list (string * string)) (body : string) : HttpRequest :=
  add_headers headers (u_host uri) body
    (setMethod method (setFragment (u_fragment uri) (setQuery (u_query uri) (setPath (Uri.getPath uri) (HttpRequest_new 0x11 true))))).
(** The text of the target that the pool sends for a URI. *)
Definition uri_target (uri : Uri) : string :=
  Uri.getPath uri ++ (if is_empty (u_query uri) then "" else "?") ++ u_query uri ++ (if is_empty (u_fragment uri) then "" else "#") ++ u_fragment uri.

(** ** The exchange *)
Section requests.
Context {S : Type} `{!Stream S}.
Context (lexical_cast : string → option Z) (buff_size : Z) (mem : httpclient_parser) (fuel : nat).
Context {A : Type} (LookupAnyIPAddress : string → option A) (set_port : Z → A → A) (CreateTCP connect : A → M S bool)
  (setRecvTimeout : Z → M S ()) (addr_text : A → string) (errno_text : M S string).

(** The socket is closed with the last pointer to it. *)
Definition scoped {B} (m : M S B) : M S B := λ s,
  match m s with
  | Done s b => (close ;; mret b) s
  | Raise s e => (close ;; raise e) s
  | r => r
  end.
(** From [sendRequest] on, which the requests of the pool share; [peer] gives the text
    of the address. *)
Definition exchange (req : HttpRequest) (timeout_ms : Z) (peer : M S string) : M S HttpResult :=
  setRecvTimeout timeout_ms ;;
  rt ← sendRequest req;
  if rt =? 0 then a ← peer; mret (failed SEND_CLOSE_BY_PEER ("send request closed by peer: " ++ a)) else
  if rt <? 0 then e ← errno_text; mret (failed SEND_SOCKET_ERROR ("send request socket error" ++ e)) else
  rsp ← recvResponse lexical_cast buff_size mem fuel;
  match rsp with
  | None => a ← peer; mret (failed TIMEOUT ("recv response timeout: " ++ a ++ " timeout_ms:" ++ dec timeout_ms))
  | Some rsp => mret (mkHttpResult Error_OK (Some rsp) "ok")
  end.
(** [DoRequest(HttpRequest::ptr, Uri::ptr, uint64_t)] *)
Definition DoRequest (req : HttpRequest) (uri : Uri) (timeout_ms : Z) : M S HttpResult :=
  match createAddress LookupAnyIPAddress set_port uri with
  | None => mret (failed INVALID_HOST ("invalid host: " ++ u_host uri))
  | Some addr =>
      sock ← CreateTCP addr;
      if negb sock then e ← errno_text; mret (failed CREATE_SOCKET_ERROR ("create socket fail: " ++ addr_text addr ++ e)) else
      scoped (
        ok ← connect addr;
        if negb ok then mret (failed CONNECT_FAIL ("connect fail: " ++ addr_text addr)) else
        exchange req timeout_ms (mret (addr_text addr)))
  end.
(** [DoRequest(HttpMethod, Uri::ptr, ...)] *)
Definition DoRequest_uri (method : HttpMethod) (uri : Uri) (timeout_ms : Z) (headers : list (string * string)) (body : string) : M S HttpResult :=
  DoRequest (uri_request method uri headers body) uri timeout_ms.
(** [DoRequest(HttpMethod, const std::string&, ...)] *)
Definition DoRequest_url (method : HttpMethod) (url : string) (timeout_ms : Z) (headers : list (string * string)) (body : string) : M S HttpResult :=
  '(_, uri) ← local (parse_uri url) (None, Uri_new);
  match uri with
  | None => mret (failed INVALID_URL ("invalid url: " ++ url))
  | Some uri => DoRequest_uri method uri timeout_ms headers body
  end.
Definition DoGet := DoRequest_url GET.
Definition DoPost := DoRequest_url POST.
Definition DoGet_uri := DoRequest_uri GET.
Definition DoPost_uri := DoRequest_uri POST.
End requests.
