(* ===== verification/HttpRequestsFacts.v ===== *)
(** * HttpRequestsFacts: the requests of the client, as a server receives them *)
From S2P Require Import Prelude Text HttpGrammar UriTable Uri Http HttpFacts HttpFields Callbacks Ragel Http11 HttpParserFacts Stream Segments HttpSession HttpSessionFacts HttpRoundTrip HttpClient HttpConnection HttpRequests.
Open Scope string_scope.
Open Scope Z_scope.

(** ** What the loop over the headers does *)
Definition is_key (k : string) (i : string * string) : bool := cmp_eq (strcasecmp i.1 k).
Definition keeps_alive (headers : list (string * string)) : bool :=
  existsb (λ i, is_key "connection" i && cmp_eq (strcasecmp i.2 "keep-alive")) headers.
Definition has_host (headers : list (string * string)) : bool := existsb (λ i, is_key "host" i && negb (is_empty i.2)) headers.
(** The fields of the request, later ones replacing earlier ones. *)
Definition uri_fields (host : string) (headers : list (string * string)) : list (string * string) :=
  (filter not_connection headers ++ if has_host headers then [] else [("Host", host)])%list.

Lemma is_key_iff k i : is_key k i = true ↔ fold_case i.1 = fold_case k.
Proof.
  unfold is_key, strcasecmp. destruct (String.compare (fold_case i.1) (fold_case k)) eqn:E; cbn; (split; [intros H|intros H; try done]).
  - by apply str_compare_eq in E.
  - done.
  - rewrite H, str_compare_refl in E. done.
  - done.
  - rewrite H, str_compare_refl in E. done.
Qed.
Lemma add_header_fold headers : ∀ req b, foldl add_header (req, b) headers =
  (setHeaders (foldl put (m_headers req) (filter not_connection headers)) (if keeps_alive headers then setClose false req else req), b || has_host headers).
Proof.
  induction headers as [|i headers IH]; intros req b.
  { cbn. rewrite orb_false_r. by destruct req. }
  cbn [foldl]. unfold add_header at 2. unfold keeps_alive, has_host. cbn [existsb]. fold (keeps_alive headers) (has_host headers).
  change (cmp_eq (strcasecmp i.1 "connection")) with (is_key "connection" i). change (cmp_eq (strcasecmp i.1 "host")) with (is_key "host" i).
  rewrite filter_cons. destruct (is_key "connection" i) eqn:Ec.
  - rewrite decide_False by (unfold not_connection; unfold is_key in Ec; by rewrite Ec).
    assert (Eh : is_key "host" i = false).
    { apply is_key_iff in Ec. destruct (is_key "host" i) eqn:Eh; [|done]. apply is_key_iff in Eh. rewrite Ec in Eh. done. }
    rewrite Eh, IH. cbn [andb orb]. destruct (cmp_eq (strcasecmp i.2 "keep-alive")); cbn [orb]; [|done].
    by destruct req, (keeps_alive headers).
  - rewrite decide_True by exact Ec. cbn [andb orb foldl]. rewrite IH. f_equal.
    + by destruct req, (keeps_alive headers).
    + destruct b, (is_key "host" i), (is_empty i.2), (has_host headers); done.
Qed.
Lemma uri_request_eq method u headers body : uri_request method u headers body =
  mkHttpRequest method 0x11 (negb (keeps_alive headers)) false 0 (Uri.getPath u) (u_query u) (u_fragment u) body
    (foldl put [] (uri_fields (u_host u) headers)) [] [].
Proof.
  unfold uri_request, add_headers. rewrite add_header_fold. cbn [orb]. unfold uri_fields. rewrite foldl_app.
  by destruct (has_host headers), (keeps_alive headers).
Qed.

(** ** The server receives it *)
(** The entries of a map that is built by [put] come from the fields put. *)
Lemma map_set_Forall (P Q : string → Prop) k v (m : MapType) : P k → Q v → Forall (λ e, P e.1 ∧ Q e.2) m → Forall (λ e, P e.1 ∧ Q e.2) (map_set k v m).
Proof.
  intros Hk Hv. induction 1 as [|[k' v'] m [H1 H2] Hm IH]; cbn [map_set]; [by repeat constructor|].
  destruct (CaseInsensitiveLess k' k); [constructor; [done|exact IH]|]. destruct (CaseInsensitiveLess k k'); repeat constructor; done.
Qed.
Lemma put_Forall (P Q : string → Prop) hs : Forall (λ e, P e.1 ∧ Q e.2) hs → ∀ m : MapType, Forall (λ e, P e.1 ∧ Q e.2) m → Forall (λ e, P e.1 ∧ Q e.2) (foldl put m hs).
Proof. induction 1 as [|e hs [H1 H2] _ IH]; intros m Hm; [done|]. cbn. apply IH. by apply map_set_Forall. Qed.
(** A URI and headers that make a request. *)
Definition requestable (method : HttpMethod) (u : Uri) (headers : list (string * string)) (body : string) : Prop :=
  method ≠ INVALID_METHOD ∧ method ≠ MSEARCH ∧ path_ok (Uri.getPath u) = true ∧ query_ok (u_query u) = true ∧ query_ok (u_fragment u) = true ∧
  value_ok (u_host u) = true ∧ fields_ok headers ∧ Forall (λ i, fold_case i.1 ≠ "content-length") headers ∧ str_len body < 2 ^ 31.
Definition fields_map (hs : list (string * string)) : gmap string string := foldl (λ g e, <[fold_case e.1 := e.2]> g) ∅ hs.
Lemma uri_fields_good method u headers body : requestable method u headers body →
  Forall (λ i, name_ok i.1 = true ∧ value_ok i.2 = true) (uri_fields (u_host u) headers) ∧
  Forall (λ i, fold_case i.1 ≠ "content-length") (uri_fields (u_host u) headers).
Proof.
  intros (_ & _ & _ & _ & _ & Hh & Hf & Hc & _). unfold uri_fields. rewrite !Forall_app.
  split; (split; [apply Forall_forall; intros i Hi; apply list_elem_of_filter in Hi as [_ Hi]|destruct (has_host headers); repeat constructor; done]).
  - unfold fields_ok in Hf. rewrite Forall_forall in Hf. by apply Hf.
  - rewrite Forall_forall in Hc. by apply Hc.
Qed.
Lemma fold_other hs x : Forall (λ i : string * string, fold_case i.1 ≠ x) hs → ∀ g : gmap string string,
  foldl (λ g e, <[fold_case e.1 := e.2]> g) g hs !! x = g !! x.
Proof. induction 1 as [|i hs Hi _ IH]; intros g; [done|]. cbn. by rewrite IH, lookup_insert_ne. Qed.
Lemma uri_request_sendable method u headers body : requestable method u headers body → sendable (uri_request method u headers body).
Proof.
  intros Hr. destruct (uri_fields_good _ _ _ _ Hr) as [Hgood Hcl]. destruct Hr as (? & ? & ? & ? & ? & _ & _ & _ & ?).
  rewrite uri_request_eq. destruct (put_gmap (uri_fields (u_host u) headers) [] ltac:(constructor)) as [Hmap Hg].
  split; [|split; [done|split; [exact Hmap|split; [|done]]]].
  - unfold head_ok. cbn. split_and!; try done; [by right|].
    apply (put_Forall (λ k, name_ok k = true) (λ v, value_ok v = true)); [exact Hgood|constructor].
  - cbn [m_headers]. by rewrite Hg, fold_other.
Qed.

(** C27: the request that [DoRequest] builds from a URI and headers, written by the
    client, reaches a server that reads its head at once as that request: the method, the
    path of the URI or the root, its query and fragment, the body; it asks to keep the
    connection open only where a header says so; and its fields are the headers, but for
    those named connection, with the host of the URI where no header names one.  Else the
    stream ended within the body, and the session is closed. *)
Theorem uri_request_received {S} `{!Stream S, !StreamLaws S} lexical_cast buff_size mem fuel method u headers body rest s s1 len d :
  let req := uri_request method u headers body in
  requestable method u headers body → 0 < buff_size < 2 ^ 31 → 0 ≤ query_start mem < 2 ^ 63 →
  lexical_cast (dec (str_len body)) = Some (str_len body) →
  incoming s = (bytes_of (HttpRequest_dump req) ++ rest)%list →
  read buff_size s = Done s1 (len, d) → str_len (dumped_head req) ≤ len ≤ str_len (HttpRequest_dump req) →
  ∃ s' res, recvRequest lexical_cast buff_size mem (Datatypes.S fuel) s = Done s' res ∧
    ((∃ r, res = Some r ∧ incoming s' = rest ∧
        m_method r = method ∧ m_path r = Uri.getPath u ∧ m_query r = u_query u ∧ m_fragment r = u_fragment u ∧ m_body r = body ∧
        m_close r = negb (keeps_alive headers) ∧
        (∀ k, fold_case k ≠ "connection" → fold_case k ≠ "content-length" →
          hasHeader k r = fields_map (uri_fields (u_host u) headers) !! fold_case k) ∧
        (has_host headers = false → hasHeader "host" r = Some (u_host u))) ∨
     res = None ∧ stream_closed s' = true ∧ len < str_len (HttpRequest_dump req)).
Proof.
  intros req Hr Hb Hm Hlc Hin Hread Hlen. pose proof (uri_request_sendable _ _ _ _ Hr) as Hs. fold req in Hs.
  assert (Hbody : m_body req = body) by (unfold req; by rewrite uri_request_eq).
  destruct (recv_dumped lexical_cast buff_size mem fuel req rest s s1 len d Hs Hb Hm ltac:(by rewrite Hbody) Hin Hread Hlen)
    as (s' & res & Hrecv & _ & Hres). exists s', res. split; [done|]. destruct Hres as [[-> Hrest]|]; [left|by right].
  exists (HttpRoundTrip.received req). destruct (received_ok req Hs) as (H1 & _ & H3 & H4 & H5 & H6 & H7 & _ & Hh).
  assert (Hfields : ∀ k, fold_case k ≠ "connection" → fold_case k ≠ "content-length" →
    hasHeader k (HttpRoundTrip.received req) = fields_map (uri_fields (u_host u) headers) !! fold_case k).
  { intros k Hk1 Hk2. rewrite Hh by done. unfold req. rewrite uri_request_eq. unfold hasHeader. cbn [m_headers].
    destruct (put_gmap (uri_fields (u_host u) headers) [] ltac:(constructor)) as [Hmap Hg].
    rewrite (proj1 (map_find_gmap k _ Hmap)) || rewrite map_find_gmap by done. by rewrite Hg. }
  split; [done|]. split; [done|]. rewrite H1, H3, H4, H5, H6, H7. unfold req at 1 2 3 4 5 6. rewrite uri_request_eq. split_and!; try done.
  intros Hhost. rewrite Hfields by done. unfold uri_fields, fields_map. rewrite Hhost, foldl_app. cbn [foldl fst snd]. by rewrite lookup_insert_eq.
Qed.

(** ** A witness *)
Definition sample_uri : Uri := mkUri "http" "" "a.b" "/p" "x=1" "" 0.
Definition sample_headers : list (string * string) := [("Accept", "*/*"); ("Connection", "keep-alive")].
Definition sample_wire : chunked := chunks [HttpRequest_dump (uri_request POST sample_uri sample_headers "hi")].
Lemma uri_request_received_witness : ∃ s' r, recvRequest undec 4096 no_parser 1 sample_wire = Done s' (Some r) ∧
  m_method r = POST ∧ m_path r = "/p" ∧ m_query r = "x=1" ∧ m_body r = "hi" ∧ m_close r = false ∧ hasHeader "host" r = Some "a.b" ∧ hasHeader "accept" r = Some "*/*".
Proof.
  destruct (uri_request_received (S := chunked) undec 4096 no_parser 0 POST sample_uri sample_headers "hi" [] sample_wire
    (chunks []) (str_len (HttpRequest_dump (uri_request POST sample_uri sample_headers "hi")))
    (bytes_of (HttpRequest_dump (uri_request POST sample_uri sample_headers "hi"))))
    as (s' & res & Hrecv & [(r & -> & _ & Hm & Hp & Hq & _ & Hb & Hc & Hh & Hhost)|(-> & _ & Hlt)]).
  - split_and!; try (vm_compute; reflexivity); try done; repeat constructor; done.
  - lia.
  - cbn; lia.
  - vm_compute. reflexivity.
  - vm_compute. reflexivity.
  - vm_compute. reflexivity.
  - split; vm_compute; discriminate.
  - exists s', r. split; [exact Hrecv|]. split; [exact Hm|]. split; [rewrite Hp; reflexivity|]. split; [rewrite Hq; reflexivity|].
    split; [exact Hb|]. split; [rewrite Hc; reflexivity|]. split; [apply Hhost; reflexivity|]. rewrite Hh by (vm_compute; discriminate). vm_compute. reflexivity.
  - exfalso. revert Hlt. vm_compute. discriminate.
Defined.
