(* ===== verification/HttpExchange.v ===== *)
(** * HttpExchange: a request of the client from its URL to its result

    [HttpConnection::DoRequest] with a peer that answers with a response it dumps. *)
From S2P Require Import Prelude Text UriTable Uri Http HttpFacts HttpGrammar HttpFields Callbacks HttpClient HttpResponseFacts Stream Segments HttpConnection HttpResponseRoundTrip HttpRequests.
Open Scope string_scope.
Open Scope Z_scope.

(** A call that returns and moves no bytes of the stream. *)
Definition silent {S A} `{!Stream S, !StreamLaws S} (m : M S A) : Prop :=
  ∀ s, ∃ s' a, m s = Done s' a ∧ incoming s' = incoming s ∧ outgoing s' = outgoing s.

Section exchange.
Context {S : Type} `{!Stream S, !StreamLaws S}.
Context (lexical_cast : string → option Z) (buff_size : Z) (mem : httpclient_parser) (fuel : nat).
Context {A : Type} (LookupAnyIPAddress : string → option A) (set_port : Z → A → A) (CreateTCP connect : A → M S bool)
  (setRecvTimeout : Z → M S ()) (addr_text : A → string) (errno_text : M S string).
Hypothesis Hbuff : 0 < buff_size < 2 ^ 31.
Hypothesis HTCP : ∀ a, silent (CreateTCP a).
Hypothesis Hconnect : ∀ a, silent (connect a).
Hypothesis Htimeout : ∀ t, silent (setRecvTimeout t).
Hypothesis Herrno : silent errno_text.
#[local] Set Default Proof Using "All".

(** What a result says about the bytes sent since [s]: [text] is the request. *)
Definition result_means (r : HttpResponse) (text : string) (s s' : S) (res : HttpResult) : Prop :=
  match res_result res with
  | Error_OK => res_response res = Some (answered r) ∧ outgoing s' = (outgoing s ++ bytes_of text)%list
  | TIMEOUT => res_response res = None ∧ outgoing s' = (outgoing s ++ bytes_of text)%list
  | SEND_CLOSE_BY_PEER | SEND_SOCKET_ERROR =>
      res_response res = None ∧ ∃ n, 0 ≤ n < str_len text ∧ outgoing s' = (outgoing s ++ ztake n (bytes_of text))%list
  | CONNECT_FAIL | CREATE_SOCKET_ERROR | INVALID_HOST | INVALID_URL => res_response res = None ∧ outgoing s' = outgoing s
  | _ => False
  end.
(** The first read after [m] delivers the head of the response. *)
Definition answers (r : HttpResponse) {B} (m : M S B) (s : S) : Prop :=
  ∀ s1 b, m s = Done s1 b → ∃ s2 len d, read buff_size s1 = Done s2 (len, d) ∧ str_len (answer_head r) ≤ len ≤ str_len (HttpResponse_dump r).

Lemma exchange_ok req timeout_ms peer r rest s : silent peer →
  answerable r → lexical_cast (dec (str_len (p_body r))) = Some (str_len (p_body r)) → 0 < str_len (HttpRequest_dump req) < 2 ^ 31 →
  incoming s = (bytes_of (HttpResponse_dump r) ++ rest)%list → answers r (setRecvTimeout timeout_ms ;; sendRequest req) s →
  ∃ s' res, exchange lexical_cast buff_size mem (Datatypes.S fuel) setRecvTimeout errno_text req timeout_ms peer s = Done s' res ∧
    result_means r (HttpRequest_dump req) s s' res ∧
    match res_result res with Error_OK | TIMEOUT | SEND_CLOSE_BY_PEER | SEND_SOCKET_ERROR => True | _ => False end.
Proof using Type Hbuff Htimeout Herrno.
  intros Hpeer Hr Hlc Hlen Hin Hans. unfold exchange. destruct (Htimeout timeout_ms s) as (s1 & [] & Ht & Hin1 & Hout1).
  rewrite (bind_done _ _ _ _ _ Ht). destruct (writeFixSize_ok (bytes_of (HttpRequest_dump req)) s1) as (s2 & rt & n & Hw & Hin2 & Hout2 & Hrt).
  { rewrite zlen_bytes_of. lia. }
  rewrite zlen_bytes_of in Hrt. unfold sendRequest in *. rewrite (bind_done _ _ _ _ _ Hw). destruct Hrt as [[-> ->]|[Hn Hrt]].
  - rewrite s32_small by lia. replace (str_len (HttpRequest_dump req) =? 0) with false by lia. replace (str_len (HttpRequest_dump req) <? 0) with false by lia.
    rewrite <-zlen_bytes_of in Hout2. unfold ztake, zlen in Hout2. rewrite Nat2Z.id, firstn_all in Hout2.
    destruct (Hans s2 (s32 (str_len (HttpRequest_dump req)))) as (s3 & len & d & Hread & Hle). { by rewrite (bind_done _ _ _ _ _ Ht). }
    destruct (recv_dumped_response lexical_cast buff_size mem Hbuff fuel r rest s2 s3 len d Hr Hlc ltac:(by rewrite Hin2, Hin1) Hread Hle)
      as (s' & res & Hrecv & Hout & Hres). rewrite (bind_done _ _ _ _ _ Hrecv).
    destruct Hres as [[-> _]|(-> & _)].
    2: destruct (Hpeer s') as (s4 & a & Ha & Hin4 & Hout4); rewrite (bind_done _ _ _ _ _ Ha).
    all: eexists _, _; (split; [reflexivity|]); unfold result_means; cbn; (split; [split; [done|congruence]|done]).
  - destruct (rt =? 0) eqn:E0; [destruct (Hpeer s2) as (s3 & e & He & Hin3 & Hout3)
      |replace (rt <? 0) with true by lia; destruct (Herrno s2) as (s3 & e & He & Hin3 & Hout3)].
    all: rewrite (bind_done _ _ _ _ _ He); eexists _, _; (split; [reflexivity|]); unfold result_means; cbn; (split; [split; [done|exists n; split; [done|congruence]]|done]).
Qed.
Lemma scoped_done {B} (m : M S B) s s' b : m s = Done s' b → ∃ s'', scoped m s = Done s'' b ∧ outgoing s'' = outgoing s' ∧ stream_closed s'' = true.
Proof.
  intros Hm. unfold scoped. rewrite Hm. destruct (close_law s') as (s'' & Hc & Hcl & Ho). rewrite (bind_done _ _ _ _ _ Hc). by exists s''.
Qed.

(** C20: a request to a peer that behaves: its bytes begin with the text of a response that
    [HttpResponse::dump] wrote, and once the request is sent the first read delivers the
    whole head of that response ([answers]).  (The parser resets its marks at every call,
    so with a head in several reads [OK] may come with another response.)  Then, whatever
    resolving, connecting and sending do, [DoRequest] returns, and its result tells how far
    it came.  Without an address, or a socket, nothing was sent; [SEND_CLOSE_BY_PEER] and
    [SEND_SOCKET_ERROR] mean that a proper part of the request was; [TIMEOUT] and [OK] that
    all of it was, and with [OK] comes the response of the peer, without its body.  A URL or
    host that is refused is the one reason for [INVALID_URL] and [INVALID_HOST], and a socket
    that was created is closed. *)
Theorem client_request_spec method url timeout_ms headers body r rest st uri s :
  parse_uri url (None, Uri_new) = Done st uri →
  (∀ u, uri = Some u → 0 < str_len (HttpRequest_dump (uri_request method u headers body)) < 2 ^ 31) →
  answerable r → lexical_cast (dec (str_len (p_body r))) = Some (str_len (p_body r)) →
  incoming s = (bytes_of (HttpResponse_dump r) ++ rest)%list →
  (∀ u a, uri = Some u → createAddress LookupAnyIPAddress set_port u = Some a →
    answers r (CreateTCP a ;; connect a ;; setRecvTimeout timeout_ms ;; sendRequest (uri_request method u headers body)) s) →
  ∃ s' res,
    DoRequest_url lexical_cast buff_size mem (Datatypes.S fuel) LookupAnyIPAddress set_port CreateTCP connect setRecvTimeout addr_text errno_text
      method url timeout_ms headers body s = Done s' res ∧
    result_means r (match uri with Some u => HttpRequest_dump (uri_request method u headers body) | None => "" end) s s' res ∧
    (res_result res = INVALID_URL ↔ uri = None) ∧
    (res_result res = INVALID_HOST ↔ ∃ u, uri = Some u ∧ LookupAnyIPAddress (u_host u) = None) ∧
    (match res_result res with INVALID_URL | INVALID_HOST | CREATE_SOCKET_ERROR => True | _ => stream_closed s' = true end).
Proof.
  intros Hp Hlen Hr Hlc Hin Hans. unfold DoRequest_url, local. rewrite Hp. rewrite (bind_done _ _ s s (st, uri)) by done. cbv beta iota.
  destruct uri as [u|].
  2:{ eexists _, _. split; [reflexivity|]. unfold result_means. cbn. split_and!; try done. by split; [|intros (? & ? & _)]. }
  unfold DoRequest_uri, DoRequest. destruct (createAddress LookupAnyIPAddress set_port u) as [a|] eqn:Ha; pose proof Ha as Ha0; unfold createAddress in Ha0.
  2:{ apply fmap_None in Ha0. eexists _, _. split; [reflexivity|]. unfold result_means. cbn. split_and!; try done. split; [by exists u|done]. }
  destruct (LookupAnyIPAddress (u_host u)) as [a'|] eqn:Hl; [clear Ha0|done].
  assert (Hne : ∀ e, e ≠ INVALID_URL → e ≠ INVALID_HOST → (e = INVALID_URL ↔ Some u = None) ∧ (e = INVALID_HOST ↔ ∃ u', Some u = Some u' ∧ LookupAnyIPAddress (u_host u') = None)).
  { intros e H1 H2. split; [done|]. split; [done|]. intros (u' & [= <-] & H). congruence. }
  destruct (HTCP a s) as (s1 & b & Htcp & Hin1 & Hout1). rewrite (bind_done _ _ _ _ _ Htcp). destruct b; cbn [negb].
  2:{ destruct (Herrno s1) as (s2 & e & He & Hin2 & Hout2). rewrite (bind_done _ _ _ _ _ He). eexists _, _. split; [reflexivity|].
      split; [split; [done|cbn; congruence]|]. cbn. destruct (Hne CREATE_SOCKET_ERROR) as [??]; [done|done|by split_and!]. }
  destruct (Hconnect a s1) as (s2 & ok & Hc & Hin2 & Hout2).
  set (m := ok ← connect a; _). assert (Hm : ∃ s' res, m s1 = Done s' res ∧ result_means r (HttpRequest_dump (uri_request method u headers body)) s s' res ∧
    match res_result res with Error_OK | TIMEOUT | SEND_CLOSE_BY_PEER | SEND_SOCKET_ERROR | CONNECT_FAIL => True | _ => False end).
  { unfold m. rewrite (bind_done _ _ _ _ _ Hc). destruct ok; cbn [negb].
    2:{ eexists _, _. split; [reflexivity|]. split; [split; [done|cbn; congruence]|done]. }
    destruct (exchange_ok (uri_request method u headers body) timeout_ms (mret (addr_text a)) r rest s2 ltac:(intros s3; by eexists s3, _) Hr Hlc (Hlen u eq_refl)) as (s' & res & He & Hres & Hcode).
    - congruence.
    - intros s3 n H3. apply (Hans u a eq_refl Ha s3 n). by rewrite (bind_done _ _ _ _ _ Htcp), (bind_done _ _ _ _ _ Hc).
    - exists s', res. split; [done|]. split; [|by destruct (res_result res)].
      unfold result_means in *. by rewrite Hout2, Hout1 in Hres. }
  destruct Hm as (s' & res & Hm & Hres & Hcode). destruct (scoped_done m s1 s' res Hm) as (s'' & -> & Ho & Hcl).
  exists s'', res. split; [done|]. split; [unfold result_means in *; by rewrite Ho|].
  destruct (Hne (res_result res)) as [H1 H2]; [intros He; by rewrite He in Hcode..|]. split; [done|]. split; [done|]. by destruct (res_result res).
Qed.
End exchange.

(** ** A witness: the peer takes the request in two pieces and answers *)
Definition sample_client : chunked := mkChunked [bytes_of (answer_head sample_response ++ "he"); bytes_of "llo"] [10] [] false.
Definition sample_result : M chunked HttpResult :=
  DoRequest_url undec 4096 no_client 2 (λ h, if String.eqb h "a.b" then Some h else None) (λ _ a, a) (λ _, mret true) (λ _, mret true) (λ _, mret ()) (λ a, a) (mret "")
    GET "http://a.b/p?x=1" 1000 [("Accept", "*/*")] "".
Lemma client_request_spec_witness : ∃ s' res, sample_result sample_client = Done s' res ∧ res_result res = Error_OK ∧
  res_response res = Some (answered sample_response) ∧ stream_closed s' = true ∧
  outgoing s' = bytes_of ("GET /p?x=1 HTTP/1.1" ++ CRLF ++ "connection: close" ++ CRLF ++ "Accept: */*" ++ CRLF ++ "Host: a.b" ++ CRLF ++ CRLF).
Proof.
  assert (Hsil : ∀ A (a : A), silent (S := chunked) (mret a)) by (intros A a s; by exists s, a).
  destruct (client_request_spec (S := chunked) undec 4096 no_client 1 (λ h, if String.eqb h "a.b" then Some h else None) (λ _ a, a) (λ _, mret true) (λ _, mret true)
    (λ _, mret ()) (λ a, a) (mret "") ltac:(lia) (λ _, Hsil _ _) (λ _, Hsil _ _) (λ _, Hsil _ _) (Hsil _ _)
    GET "http://a.b/p?x=1" 1000 [("Accept", "*/*")] "" sample_response [] (None, mkUri "http" "" "a.b" "/p" "x=1" "" 0)
    (Some (mkUri "http" "" "a.b" "/p" "x=1" "" 0)) sample_client) as (s' & res & Hd & Hres & _ & _ & Hcl).
  - vm_compute. reflexivity.
  - intros u [= <-]. split; vm_compute; reflexivity.
  - exact sample_answerable.
  - vm_compute. reflexivity.
  - vm_compute. reflexivity.
  - intros u a [= <-] [= <-] s1 b Hs. vm_compute in Hs. injection Hs as <- _. eexists _, _, _. split; [reflexivity|]. split; vm_compute; discriminate.
  - assert (Hd' := Hd). vm_compute in Hd'. injection Hd' as <- <-. eexists _, _. split; [exact Hd|]. destruct Hres as [Hr Ho]. cbn in Hr, Hcl.
    split; [reflexivity|]. split; [exact Hr|]. split; [exact Hcl|]. vm_compute. reflexivity.
Defined.
