(* ===== verification/HttpConnectionPool.v ===== *)
(** * HttpConnectionPool ([webserve/http/http_connection.h], [http_connection.cc])

    The connections that are kept open between requests.  Connections are objects in a
    store by address, with the stream of their socket; the critical sections of
    [getConnection] and [ReleasePtr] are functions of their own, for threads that share
    the pool.  The log lines are left out. *)
From S2P Require Import Prelude Text UriTable Uri Http Callbacks HttpClient Stream HttpConnection HttpRequests.
Open Scope string_scope.
Open Scope Z_scope.

(** The fields of HttpConnection that the pool uses; [m_socket] is that of SocketStream. *)
Record HttpConnection (S : Type) := mkConn { m_createTime : Z; m_request : Z; m_socket : option S }.
Arguments mkConn {S} _ _ _.
Arguments m_createTime {S} _.
Arguments m_request {S} _.
Arguments m_socket {S} _.
Definition conn_new {S} (sock : S) : HttpConnection S := mkConn 0 0 (Some sock).
Definition with_socket {S} (s : S) (c : HttpConnection S) : HttpConnection S := mkConn (m_createTime c) (m_request c) (Some s).
Definition count_request {S} (c : HttpConnection S) : HttpConnection S := mkConn (m_createTime c) (u64 (m_request c + 1)) (m_socket c).

Definition ptr : Type := nat.
Record HttpConnectionPool := mkPool {
  m_host : string; m_vhost : string; m_port : Z; m_maxSize : Z; m_maxAliveTime : Z; m_maxRequest : Z; m_isHttps : bool;
  m_conns : list ptr; m_total : Z
}.
Definition set_conns (l : list ptr) (p : HttpConnectionPool) : HttpConnectionPool :=
  mkPool (m_host p) (m_vhost p) (m_port p) (m_maxSize p) (m_maxAliveTime p) (m_maxRequest p) (m_isHttps p) l (m_total p).
Definition set_total (n : Z) (p : HttpConnectionPool) : HttpConnectionPool :=
  mkPool (m_host p) (m_vhost p) (m_port p) (m_maxSize p) (m_maxAliveTime p) (m_maxRequest p) (m_isHttps p) (m_conns p) n.
(** [HttpConnectionPool::HttpConnectionPool] *)
Definition HttpConnectionPool_new (host vhost : string) (port : Z) (is_https : bool) (max_size max_alive_time max_request : Z) : HttpConnectionPool :=
  mkPool host vhost (if negb (port =? 0) then port else if is_https then 443 else 80) max_size max_alive_time max_request is_https [] 0.
(** [HttpConnectionPool::Create]: an invalid URI is logged, then dereferenced. *)
Definition Create_pool {S} (uri vhost : string) (max_size max_alive_time max_request : Z) : M S HttpConnectionPool :=
  '(_, turi) ← local (parse_uri uri) (None, Uri_new);
  turi ← deref turi;
  mret (HttpConnectionPool_new (u_host turi) vhost (u32 (getPort turi)) (String.eqb (u_scheme turi) "https") max_size max_alive_time max_request).

(** A pool with the store of the connections. *)
Record world (S : Type) := mkWorld { w_pool : HttpConnectionPool; w_heap : gmap ptr (HttpConnection S) }.
Arguments mkWorld {S} _ _.
Arguments w_pool {S} _.
Arguments w_heap {S} _.
(** What the surroundings do at one point: the clock in milliseconds, whether a socket is
    still connected, resolving, creating and connecting a socket. *)
Record env (S A : Type) := mkEnv {
  GetCurrentMS : Z; isConnected_ : S → bool; LookupAny : string → option A; set_port_ : Z → A → A;
  CreateTCP_ : A → option S; connect_ : A → S → option S
}.
Arguments GetCurrentMS {S A} _.
Arguments isConnected_ {S A} _.
Arguments LookupAny {S A} _.
Arguments set_port_ {S A} _.
Arguments CreateTCP_ {S A} _.
Arguments connect_ {S A} _.

Section pool.
Context {S A : Type}.
Implicit Type e : env S A.

Definition on_pool (f : HttpConnectionPool → HttpConnectionPool) : M (world S) () := modify (λ w, mkWorld (f (w_pool w)) (w_heap w)).
Definition load (p : ptr) : M (world S) (HttpConnection S) := λ w,
  match w_heap w !! p with Some c => Done w c | None => Undef OutOfBounds end.
Definition store (p : ptr) (c : HttpConnection S) : M (world S) () := modify (λ w, mkWorld (w_pool w) (<[p := c]> (w_heap w))).
Definition new_conn (c : HttpConnection S) : M (world S) ptr := λ w,
  let p := fresh (dom (w_heap w)) in Done (mkWorld (w_pool w) (<[p := c]> (w_heap w))) p.
Definition delete_conn (p : ptr) : M (world S) () := λ w,
  match w_heap w !! p with Some _ => Done (mkWorld (w_pool w) (delete p (w_heap w))) () | None => Undef BadFree end.
(** [SocketStream::isConnected] *)
Definition isConnected e (c : HttpConnection S) : bool := match m_socket c with Some s => isConnected_ e s | None => false end.

(** [getConnection], under the lock: the connection found and the invalid ones. *)
Fixpoint take_loop e (conns invalid : list ptr) : M (world S) (option ptr * list ptr) :=
  match conns with
  | [] => mret (None, invalid)
  | p :: conns =>
      on_pool (set_conns conns) ;;
      c ← load p;
      if negb (isConnected e c) then take_loop e conns (invalid ++ [p])%list else
      pool ← gets w_pool;
      if u64 (m_createTime c + m_maxAliveTime pool) >? GetCurrentMS e then take_loop e conns (invalid ++ [p])%list else
      mret (Some p, invalid)
  end.
Definition take_conn e : M (world S) (option ptr * list ptr) :=
  pool ← gets w_pool; take_loop e (m_conns pool) [].
(** Behind it: the invalid connections are deleted. *)
Fixpoint delete_all (l : list ptr) : M (world S) () :=
  match l with [] => mret () | p :: l => delete_conn p ;; delete_all l end.
Definition drop_invalid (invalid : list ptr) : M (world S) () :=
  delete_all invalid ;; on_pool (λ pool, set_total (s32 (m_total pool - zlen invalid)) pool).
(** Without one, a connection is opened. *)
Definition open_conn e : M (world S) (option ptr) :=
  pool ← gets w_pool;
  match LookupAny e (m_host pool) with
  | None => mret None
  | Some addr =>
      let addr := set_port_ e (m_port pool) addr in
      match CreateTCP_ e addr with
      | None => mret None
      | Some sock =>
          match connect_ e addr sock with
          | None => mret None
          | Some sock =>
              p ← new_conn (conn_new sock);
              on_pool (λ pool, set_total (s32 (m_total pool + 1)) pool) ;;
              mret (Some p)
          end
      end
  end.
(** [HttpConnectionPool::getConnection] *)
Definition getConnection e : M (world S) (option ptr) :=
  '(found, invalid) ← take_conn e;
  drop_invalid invalid ;;
  match found with Some p => mret (Some p) | None => open_conn e end.

(** [ReleasePtr], up to the lock: whether the connection was deleted. *)
Definition release_check e (p : ptr) : M (world S) bool :=
  c ← load p;
  store p (count_request c) ;;
  c ← load p;
  pool ← gets w_pool;
  if negb (isConnected e c) || (u64 (m_createTime c + m_maxAliveTime pool) >=? GetCurrentMS e) || (m_request c >=? m_maxRequest pool) then
    delete_conn p ;; on_pool (λ pool, set_total (s32 (m_total pool - 1)) pool) ;; mret true
  else mret false.
Definition push_conn (p : ptr) : M (world S) () := on_pool (λ pool, set_conns (m_conns pool ++ [p])%list pool).
(** [HttpConnectionPool::ReleasePtr] *)
Definition ReleasePtr e (p : ptr) : M (world S) () :=
  deleted ← release_check e p;
  if (deleted : bool) then mret () else push_conn p.

(** ** Requests *)
Context `{!Stream S} (lexical_cast : string → option Z) (buff_size : Z) (mem : httpclient_parser) (fuel : nat)
  (setRecvTimeout : Z → M S ()) (peer_text errno_text : M S string).

(** An operation on the stream of a connection. *)
Definition on_socket {B} (p : ptr) (sock : S) (m : M S B) : M (world S) B := λ w,
  let put s := mkWorld (w_pool w) (alter (with_socket s) p (w_heap w)) in
  match m sock with
  | Done s b => Done (put s) b
  | Raise s x => Raise (put s) x
  | Undef c => Undef c
  | NoFuel => NoFuel
  end.
(** The last pointer to the connection goes: [m] is what it is used for. *)
Definition released {B} e (p : ptr) (m : M (world S) B) : M (world S) B := λ w,
  match m w with
  | Done w b => (ReleasePtr e p ;; mret b) w
  | Raise w x => (ReleasePtr e p ;; raise x) w
  | r => r
  end.
Definition pool_error (c : Error) : M (world S) HttpResult :=
  pool ← gets w_pool; mret (failed c ("pool host:" ++ m_host pool ++ " port:" ++ dec (m_port pool))).
(** [doRequest(HttpRequest::ptr, uint64_t)]: [e] when the connection is asked for, [e']
    when it is given back. *)
Definition doRequest e e' (req : HttpRequest) (timeout_ms : Z) : M (world S) HttpResult :=
  conn ← getConnection e;
  match conn with
  | None => pool_error POOL_GET_CONNECTION
  | Some p =>
      released e' p (
        c ← load p;
        match m_socket c with
        | None => pool_error POOL_INVALID_CONNECTION
        | Some sock => on_socket p sock (exchange lexical_cast buff_size mem fuel setRecvTimeout errno_text req timeout_ms peer_text)
        end)
  end.
(** The request of [doRequest(HttpMethod, const std::string&, ...)]. *)
Definition pool_request (pool : HttpConnectionPool) (method : HttpMethod) (url : string) (headers : list (string * string)) (body : string) : HttpRequest :=
  add_headers headers (if is_empty (m_vhost pool) then m_host pool else m_vhost pool) body
    (setClose false (setMethod method (setPath url (HttpRequest_new 0x11 true)))).
Definition doRequest_url e e' (method : HttpMethod) (url : string) (timeout_ms : Z) (headers : list (string * string)) (body : string) : M (world S) HttpResult :=
  pool ← gets w_pool;
  doRequest e e' (pool_request pool method url headers body) timeout_ms.
(** [doRequest(HttpMethod, Uri::ptr, ...)] *)
Definition doRequest_uri e e' (method : HttpMethod) (uri : Uri) (timeout_ms : Z) (headers : list (string * string)) (body : string) : M (world S) HttpResult :=
  doRequest_url e e' method (uri_target uri) timeout_ms headers body.
Definition doGet e e' := doRequest_url e e' GET.
Definition doPost e e' := doRequest_url e e' POST.
Definition doGet_uri e e' (uri : Uri) (timeout_ms : Z) (headers : list (string * string)) (body : string) : M (world S) HttpResult :=
  doGet e e' (uri_target uri) timeout_ms headers body.
Definition doPost_uri e e' (uri : Uri) (timeout_ms : Z) (headers : list (string * string)) (body : string) : M (world S) HttpResult :=
  doPost e e' (uri_target uri) timeout_ms headers body.
End pool.
