(* ===== verification/HttpConnectionPoolFacts.v ===== *)
(** * HttpConnectionPoolFacts: threads that share a pool, and what a request does to it *)
From S2P Require Import Prelude Text UriTable Uri Http HttpFacts HttpGrammar HttpFields Callbacks HttpClient HttpResponseFacts Stream Segments HttpConnection HttpResponseRoundTrip HttpRequests HttpExchange HttpConnectionPool.
Open Scope string_scope.
Open Scope Z_scope.

(** ** Threads *)
(** Where a thread is: outside, behind the lock of [getConnection], about to open a
    connection, using one, and between the test and the lock of [ReleasePtr]. *)
Inductive phase := Outside | Taken (found : option ptr) (invalid : list ptr) | Opening | Using (p : ptr) | Releasing (p : ptr).
Definition owned (ph : phase) : list ptr :=
  match ph with
  | Taken found invalid => (option_list found ++ invalid)%list
  | Using p | Releasing p => [p]
  | Outside | Opening => []
  end.
Definition holding (found : option ptr) : phase := match found with Some p => Using p | None => Outside end.

Section threads.
Context {S A : Type}.
Implicit Types (w : world S) (e : env S A) (ths : list phase).

(** A thread passes one section; or traffic changes the stream of a connection. *)
Inductive section : world S * phase → world S * phase → Prop :=
| section_take e w w' found invalid : take_conn e w = Done w' (found, invalid) → section (w, Outside) (w', Taken found invalid)
| section_drop w w' found invalid : drop_invalid invalid w = Done w' () →
    section (w, Taken found invalid) (w', match found with Some p => Using p | None => Opening end)
| section_open e w w' found : open_conn e w = Done w' found → section (w, Opening) (w', holding found)
| section_check e w w' p deleted : release_check e p w = Done w' deleted → section (w, Using p) (w', if (deleted : bool) then Outside else Releasing p)
| section_push w w' p : push_conn p w = Done w' () → section (w, Releasing p) (w', Outside).
Inductive pool_step : world S * list phase → world S * list phase → Prop :=
| step_section w w' ph ph' l1 l2 : section (w, ph) (w', ph') → pool_step (w, (l1 ++ ph :: l2)%list) (w', (l1 ++ ph' :: l2)%list)
| step_traffic w p c s ths : w_heap w !! p = Some c → pool_step (w, ths) (mkWorld (w_pool w) (<[p := with_socket s c]> (w_heap w)), ths).

(** The connections in somebody's hands: the pool's and the threads'. *)
Definition held w ths : list ptr := (m_conns (w_pool w) ++ List.concat (owned <$> ths))%list.
Definition good_conn (c : HttpConnection S) : Prop := m_createTime c = 0 ∧ is_Some (m_socket c).
(** A connection that may be pooled. *)
Definition fresh_enough w p : Prop := ∃ c, w_heap w !! p = Some c ∧ m_request c < m_maxRequest (w_pool w).
(** What everyone but the holder of [mine] holds is [others]. *)
Record balanced w (mine others : list ptr) : Prop := {
  ok_held : (m_conns (w_pool w) ++ mine ++ others)%list ≡ₚ elements (dom (w_heap w));
  ok_total : m_total (w_pool w) = s32 (zlen (m_conns (w_pool w) ++ mine ++ others)%list);
  ok_good : map_Forall (λ _ c, good_conn c) (w_heap w);
  ok_pooled : Forall (fresh_enough w) (m_conns (w_pool w))
}.
Definition tested w (ph : phase) : Prop := match ph with Releasing p => fresh_enough w p | _ => True end.
(** Every connection is in one pair of hands, [m_total] counts them, and the pooled ones
    have requests left. *)
Definition pool_ok w ths : Prop := balanced w [] (List.concat (owned <$> ths)) ∧ Forall (tested w) ths.
(** The next section of a thread neither crashes nor throws. *)
Definition can_go w (ph : phase) : Prop :=
  match ph with
  | Outside => ∀ e, ∃ w' r, take_conn e w = Done w' r
  | Taken _ invalid => ∃ w', drop_invalid invalid w = Done w' ()
  | Opening => ∀ e, ∃ w' r, open_conn e w = Done w' r
  | Using p => ∀ e, ∃ w' r, release_check e p w = Done w' r
  | Releasing p => ∃ w', push_conn p w = Done w' ()
  end.

(** ** Lemmas on the store *)
Lemma dom_delete_perm (h : gmap ptr (HttpConnection S)) p l : p :: l ≡ₚ elements (dom h) → l ≡ₚ elements (dom (delete p h)) ∧ is_Some (h !! p).
Proof.
  intros Hp. assert (Hnd : NoDup (p :: l)) by (rewrite Hp; apply NoDup_elements). apply NoDup_cons in Hnd as [Hni Hnd]. split.
  - apply NoDup_Permutation; [done|apply NoDup_elements|]. intros x. rewrite elem_of_elements, dom_delete, elem_of_difference, elem_of_singleton.
    rewrite <-elem_of_elements, <-Hp, elem_of_cons. set_solver.
  - apply elem_of_dom. rewrite <-elem_of_elements, <-Hp. set_solver.
Qed.
Lemma dom_insert_perm (h : gmap ptr (HttpConnection S)) p c : h !! p = None → elements (dom (<[p := c]> h)) ≡ₚ p :: elements (dom h).
Proof. intros Hp. rewrite dom_insert, elements_union_singleton; [done|]. by apply not_elem_of_dom. Qed.
Lemma fresh_enough_other w w' p : w_heap w' !! p = w_heap w !! p → m_maxRequest (w_pool w') = m_maxRequest (w_pool w) → fresh_enough w p → fresh_enough w' p.
Proof. unfold fresh_enough. by intros -> ->. Qed.

(** ** The sections *)
(** A connection that [getConnection] takes. *)
Definition usable e w p : Prop := ∃ c, w_heap w !! p = Some c ∧ isConnected e c = true ∧ u64 (m_createTime c + m_maxAliveTime (w_pool w)) ≤ GetCurrentMS e.
Lemma take_loop_ok e conns : ∀ invalid w, m_conns (w_pool w) = conns → Forall (λ p, is_Some (w_heap w !! p)) conns →
  ∃ pre found rest, take_loop e conns invalid w = Done (mkWorld (set_conns rest (w_pool w)) (w_heap w)) (found, (invalid ++ pre)%list) ∧
    conns = (pre ++ option_list found ++ rest)%list ∧ Forall (λ p, ¬ usable e w p) pre ∧
    match found with Some p => usable e w p | None => rest = [] end.
Proof.
  induction conns as [|p conns IH]; intros invalid w Hc Hin; cbn [take_loop].
  { exists [], None, []. rewrite app_nil_r. split_and!; try done. destruct w as [[] h]. cbn in *. by subst. }
  apply Forall_cons in Hin as [[c Hp] Hin].
  set (w1 := mkWorld (set_conns conns (w_pool w)) (w_heap w)).
  assert (Hskip : ¬ usable e w p → ∃ pre found rest, take_loop e conns (invalid ++ [p])%list w1 = Done (mkWorld (set_conns rest (w_pool w)) (w_heap w)) (found, (invalid ++ pre)%list) ∧
    p :: conns = (pre ++ option_list found ++ rest)%list ∧ Forall (λ p, ¬ usable e w p) pre ∧ match found with Some p => usable e w p | None => rest = [] end).
  { intros Hnu. destruct (IH (invalid ++ [p])%list w1 eq_refl Hin) as (pre & found & rest & Hl & -> & Hpre & Hf). exists (p :: pre), found, rest.
    split; [rewrite Hl, <-app_assoc; done|]. split_and!; [done|by constructor|done]. }
  rewrite (bind_done _ _ w w1 ()) by done. rewrite (bind_done _ _ w1 w1 c) by (unfold load; cbn; by rewrite Hp).
  destruct (isConnected e c) eqn:Hi; cbn [negb]; [|apply Hskip; intros (c' & Hc' & ? & _); congruence].
  rewrite (bind_done _ _ w1 w1 (w_pool w1)) by done. change (m_maxAliveTime (w_pool w1)) with (m_maxAliveTime (w_pool w)).
  case_bool; [apply Hskip; intros (c' & Hc' & _ & ?); replace c' with c in * by congruence; lia|].
  exists [], (Some p), conns. rewrite app_nil_r. split; [done|]. split; [done|]. split; [constructor|]. exists c. split_and!; [done|done|lia].
Qed.
Lemma delete_all_ok l : ∀ w k, (l ++ k)%list ≡ₚ elements (dom (w_heap w)) → ∃ h, delete_all l w = Done (mkWorld (w_pool w) h) () ∧
  k ≡ₚ elements (dom h) ∧ (∀ p, p ∉ l → h !! p = w_heap w !! p) ∧ h ⊆ w_heap w.
Proof.
  induction l as [|p l IH]; intros w k Hk; cbn [delete_all]; [by exists (w_heap w); destruct w|].
  destruct (dom_delete_perm (w_heap w) p (l ++ k)%list Hk) as [Hk' [c Hp]].
  rewrite (bind_done _ _ w (mkWorld (w_pool w) (delete p (w_heap w))) ()) by (unfold delete_conn; by rewrite Hp).
  destruct (IH (mkWorld (w_pool w) (delete p (w_heap w))) k Hk') as (h & -> & Hh & Hl & Hs). exists h. split; [done|]. split; [done|]. split.
  - intros q Hq. rewrite Hl by set_solver. cbn. apply lookup_delete_ne. set_solver.
  - etransitivity; [exact Hs|]. cbn. apply delete_subseteq.
Qed.

(** What a section does to the connections of the others. *)
Definition untouched (others : list ptr) w w' : Prop := ∀ p, p ∈ others → fresh_enough w p → fresh_enough w' p.
Definition handed (others : list ptr) w w' (ph' : phase) : Prop := balanced w' (owned ph') others ∧ tested w' ph' ∧ untouched others w w'.

Lemma take_section e others w : balanced w [] others → ∃ w' found invalid, take_conn e w = Done w' (found, invalid) ∧ handed others w w' (Taken found invalid).
Proof.
  intros [Hh Ht Hg Hp]. destruct (take_loop_ok e (m_conns (w_pool w)) [] w eq_refl) as (pre & found & rest & Hl & Hc & _ & _).
  { eapply Forall_impl; [exact Hp|]. intros p (c & -> & _). by eexists. }
  eexists _, found, pre. split; [exact Hl|]. assert (Hperm : (rest ++ owned (Taken found pre) ++ others)%list ≡ₚ (m_conns (w_pool w) ++ [] ++ others)%list).
  { rewrite Hc. cbn. solve_Permutation. }
  split; [|split; [done|by intros p _]]. split; cbn [w_pool w_heap set_conns m_conns m_total].
  - by rewrite Hperm.
  - rewrite Ht. unfold zlen. by rewrite Hperm.
  - done.
  - rewrite Hc, !Forall_app in Hp. apply Hp.
Qed.
Lemma drop_section found invalid others w : balanced w (owned (Taken found invalid)) others →
  ∃ w', drop_invalid invalid w = Done w' () ∧ handed others w w' (match found with Some p => Using p | None => Opening end).
Proof.
  intros [Hh Ht Hg Hp]. set (k := (m_conns (w_pool w) ++ option_list found ++ others)%list).
  assert (Hperm : (m_conns (w_pool w) ++ owned (Taken found invalid) ++ others)%list ≡ₚ (invalid ++ k)%list) by (unfold k; cbn; solve_Permutation).
  rewrite Hperm in Hh. destruct (delete_all_ok invalid w k Hh) as (h & Hd & Hk & Hl & Hs). unfold drop_invalid. rewrite (bind_done _ _ _ _ _ Hd).
  assert (Hnd : NoDup (invalid ++ k)%list) by (rewrite Hh; apply NoDup_elements). apply NoDup_app in Hnd as (_ & Hdis & _).
  assert (Hother : ∀ p, p ∈ k → h !! p = w_heap w !! p) by (intros p Hpk; apply Hl; intros Hpi; by apply (Hdis p Hpi)).
  assert (Hown : owned (match found with Some p => Using p | None => Opening end) = option_list found) by by destruct found.
  eexists. split; [reflexivity|]. split; [|split; [by destruct found|]].
  - rewrite Hown. split; cbn [w_pool w_heap set_total m_conns m_total].
    + done.
    + rewrite Ht. unfold zlen at 1. rewrite Hperm, length_app, <-Z.add_opp_r, s32_add_l. f_equal. fold k. unfold zlen. lia.
    + intros p c Hpc. by apply (Hg p), (lookup_weaken _ _ _ _ Hpc).
    + eapply Forall_impl; [apply Forall_and; split; [exact Hp|apply Forall_forall; intros p Hpm; exact Hpm]|]. intros p [Hf Hpm].
      apply (fresh_enough_other w); [|done|exact Hf]. apply Hother. unfold k. set_solver.
  - intros p Hpo. apply fresh_enough_other; [|done]. apply Hother. unfold k. set_solver.
Qed.
Lemma open_section e others w : balanced w [] others → ∃ w' found, open_conn e w = Done w' found ∧ handed others w w' (holding found).
Proof.
  intros Hb. assert (Hnone : handed others w w Outside) by (split; [exact Hb|]; split; [done|by intros q _]). unfold open_conn. rewrite (bind_done _ _ w w (w_pool w)) by done.
  destruct (LookupAny e (m_host (w_pool w))) as [addr|]; [|exists w, None; by split]. cbv zeta. destruct (CreateTCP_ e (set_port_ e (m_port (w_pool w)) addr)) as [sock0|]; [|exists w, None; by split].
  destruct (connect_ e (set_port_ e (m_port (w_pool w)) addr) sock0) as [sock|]; [|exists w, None; by split]. clear Hnone.
  destruct Hb as [Hh Ht Hg Hp]. set (p := fresh (dom (w_heap w))). assert (Hpn : w_heap w !! p = None) by (apply not_elem_of_dom, is_fresh).
  exists (mkWorld (set_total (s32 (m_total (w_pool w) + 1)) (w_pool w)) (<[p := conn_new sock]> (w_heap w))), (Some p). split; [reflexivity|]. clearbody p.
  assert (Hold : ∀ q, fresh_enough w q → q ≠ p) by (intros q (c & Hc & _) ->; congruence).
  assert (Hperm : (m_conns (w_pool w) ++ owned (holding (Some p)) ++ others)%list ≡ₚ (p :: m_conns (w_pool w) ++ [] ++ others)%list) by (cbn; solve_Permutation).
  split; [|split; [done|]].
  - split; cbn [w_pool w_heap set_total m_conns m_total].
    + by rewrite Hperm, Hh, dom_insert_perm.
    + rewrite Ht, s32_add_l. unfold zlen. rewrite Hperm. cbn [List.length]. f_equal. lia.
    + apply map_Forall_insert_2; [by split|done].
    + eapply Forall_impl; [exact Hp|]. intros q Hq. apply (fresh_enough_other w); [|done|exact Hq]. cbn. apply lookup_insert_ne. intros ->. by apply (Hold _ Hq).
  - intros q _ Hq. apply (fresh_enough_other w); [|done|exact Hq]. cbn. apply lookup_insert_ne. intros ->. by apply (Hold _ Hq).
Qed.
(** The connection is given up: it is not connected, or within its age, or its requests are used up. *)
Definition given_up e w (c : HttpConnection S) : bool :=
  negb (isConnected e c) || (u64 (m_createTime c + m_maxAliveTime (w_pool w)) >=? GetCurrentMS e) || (m_request c >=? m_maxRequest (w_pool w)).
Lemma release_check_eq e p w c : w_heap w !! p = Some c → release_check e p w =
  if given_up e w (count_request c) then Done (mkWorld (set_total (s32 (m_total (w_pool w) - 1)) (w_pool w)) (delete p (w_heap w))) true
  else Done (mkWorld (w_pool w) (<[p := count_request c]> (w_heap w))) false.
Proof.
  intros Hpc. unfold release_check. rewrite (bind_done _ _ w w c) by (unfold load; by rewrite Hpc).
  set (c' := count_request c). set (w1 := mkWorld (w_pool w) (<[p := c']> (w_heap w))).
  assert (Hp1 : w_heap w1 !! p = Some c') by (cbn; apply lookup_insert_eq).
  rewrite (bind_done _ _ w w1 ()) by done. rewrite (bind_done _ _ w1 w1 c') by (unfold load; by rewrite Hp1). rewrite (bind_done _ _ w1 w1 (w_pool w1)) by done.
  change (w_pool w1) with (w_pool w). fold (given_up e w c'). destruct (given_up e w c'); [|done].
  rewrite (bind_done _ _ w1 (mkWorld (w_pool w) (delete p (w_heap w))) ()); [done|]. unfold delete_conn. rewrite Hp1. unfold w1. cbn [w_pool w_heap]. by rewrite delete_insert_eq.
Qed.
Lemma check_section e p others w : balanced w [p] others →
  ∃ w' deleted, release_check e p w = Done w' deleted ∧ handed others w w' (if (deleted : bool) then Outside else Releasing p).
Proof.
  intros [Hh Ht Hg Hp]. assert (Hperm : (m_conns (w_pool w) ++ [p] ++ others)%list ≡ₚ (p :: m_conns (w_pool w) ++ [] ++ others)%list) by (cbn; solve_Permutation).
  rewrite Hperm in Hh. destruct (dom_delete_perm (w_heap w) p _ Hh) as [Hk [c Hpc]].
  assert (Hni : p ∉ (m_conns (w_pool w) ++ [] ++ others)%list) by (apply (NoDup_cons_1_1 p); rewrite Hh; apply NoDup_elements).
  rewrite (release_check_eq e p w c Hpc).
  destruct (given_up e w (count_request c)) eqn:Hgu.
  - eexists _, true. split; [reflexivity|]. assert (Hdel : ∀ q, q ∈ (m_conns (w_pool w) ++ [] ++ others)%list → delete p (w_heap w) !! q = w_heap w !! q).
    { intros q Hq. apply lookup_delete_ne. intros ->. done. }
    split; [|split; [done|]].
    + split; cbn [w_pool w_heap set_total m_conns m_total owned].
      * done.
      * rewrite Ht. unfold zlen at 1. rewrite Hperm, <-Z.add_opp_r, s32_add_l. cbn [List.length]. f_equal. unfold zlen. lia.
      * apply map_Forall_delete, Hg.
      * rewrite Forall_forall in Hp |- *. intros q Hq. apply (fresh_enough_other w); [apply Hdel; set_solver|done|by apply Hp].
    + intros q Hq. apply fresh_enough_other; [apply Hdel; set_solver|done].
  - eexists _, false. split; [reflexivity|]. assert (Hins : ∀ q, q ∈ (m_conns (w_pool w) ++ [] ++ others)%list → <[p := count_request c]> (w_heap w) !! q = w_heap w !! q).
    { intros q Hq. apply lookup_insert_ne. intros ->. done. }
    split; [|split].
    + split; cbn [w_pool w_heap owned].
      * rewrite dom_insert_lookup_L by by eexists. by rewrite Hperm.
      * done.
      * apply map_Forall_insert_2; [|done]. exact (Hg p c Hpc).
      * rewrite Forall_forall in Hp |- *. intros q Hq. apply (fresh_enough_other w); [apply Hins; set_solver|done|by apply Hp].
    + exists (count_request c). cbn [w_pool w_heap]. split; [apply lookup_insert_eq|]. apply orb_false_iff in Hgu as [_ Hm]. lia.
    + intros q Hq. apply fresh_enough_other; [apply Hins; set_solver|done].
Qed.
Lemma push_section p others w : balanced w [p] others → fresh_enough w p → ∃ w', push_conn p w = Done w' () ∧ handed others w w' Outside.
Proof.
  intros [Hh Ht Hg Hp] Hf. eexists. split; [reflexivity|]. split; [|split; [done|by intros q _]].
  assert (Hperm : ((m_conns (w_pool w) ++ [p]) ++ [] ++ others)%list ≡ₚ (m_conns (w_pool w) ++ [p] ++ others)%list) by solve_Permutation.
  split; cbn [w_pool w_heap set_conns m_conns m_total owned].
  - by rewrite Hperm.
  - rewrite Ht. unfold zlen. by rewrite Hperm.
  - done.
  - apply Forall_app. split; [done|]. by repeat constructor.
Qed.

(** ** Every interleaving *)
Lemma section_ok w w' ph ph' others : section (w, ph) (w', ph') → balanced w (owned ph) others → tested w ph → handed others w w' ph'.
Proof.
  inversion 1; subst; intros Hb Hf.
  - destruct (take_section e others w Hb) as (w2 & f2 & i2 & Ht & Hh). match goal with H : _ w = Done w' _ |- _ => rewrite H in Ht end. by simplify_eq.
  - destruct (drop_section found invalid others w Hb) as (w2 & Ht & Hh). match goal with H : _ w = Done w' _ |- _ => rewrite H in Ht end. by simplify_eq.
  - destruct (open_section e others w Hb) as (w2 & f2 & Ht & Hh). match goal with H : _ w = Done w' _ |- _ => rewrite H in Ht end. by simplify_eq.
  - destruct (check_section e p others w Hb) as (w2 & d2 & Ht & Hh). match goal with H : _ w = Done w' _ |- _ => rewrite H in Ht end. by simplify_eq.
  - destruct (push_section p others w Hb Hf) as (w2 & Ht & Hh). match goal with H : _ w = Done w' _ |- _ => rewrite H in Ht end. by simplify_eq.
Qed.
Lemma section_goes w ph others : balanced w (owned ph) others → tested w ph → can_go w ph.
Proof.
  destruct ph as [|found invalid| |p|p]; intros Hb Hf; cbn [can_go].
  - intros e. destruct (take_section e others w Hb) as (w2 & f2 & i2 & Ht & _). by eexists _, _.
  - destruct (drop_section found invalid others w Hb) as (w2 & Ht & _). by eexists.
  - intros e. destruct (open_section e others w Hb) as (w2 & f2 & Ht & _). by eexists _, _.
  - intros e. destruct (check_section e p others w Hb) as (w2 & d2 & Ht & _). by eexists _, _.
  - destruct (push_section p others w Hb Hf) as (w2 & Ht & _). by eexists.
Qed.
Lemma balanced_perm w mine others mine' others' : (mine ++ others)%list ≡ₚ (mine' ++ others')%list → balanced w mine others → balanced w mine' others'.
Proof.
  intros Hp [Hh Ht Hg Hf]. assert (Hperm : (m_conns (w_pool w) ++ mine' ++ others')%list ≡ₚ (m_conns (w_pool w) ++ mine ++ others)%list) by by rewrite Hp.
  split; [by rewrite Hperm|rewrite Ht; unfold zlen; by rewrite Hperm|done|done].
Qed.
(** The view of one thread. *)
Lemma pool_ok_split w ph l1 l2 : pool_ok w (l1 ++ ph :: l2) ↔
  balanced w (owned ph) (List.concat (owned <$> (l1 ++ l2)%list)) ∧ tested w ph ∧ Forall (tested w) (l1 ++ l2).
Proof.
  unfold pool_ok. rewrite !Forall_app, Forall_cons. assert (Hp : ([] ++ List.concat (owned <$> (l1 ++ ph :: l2)))%list ≡ₚ (owned ph ++ List.concat (owned <$> (l1 ++ l2)))%list).
  { rewrite !fmap_app, !concat_app. cbn. solve_Permutation. }
  split; [intros [Hb ?]|intros (Hb & ?)]; (split; [by eapply balanced_perm; [|exact Hb]|tauto]).
Qed.
Lemma untouched_tested w w' ths : untouched (List.concat (owned <$> ths)) w w' → Forall (tested w) ths → Forall (tested w') ths.
Proof.
  intros Hu. rewrite !Forall_forall. intros Hf ph Hph. specialize (Hf ph Hph). destruct ph; try done. apply Hu; [|done].
  apply list_elem_of_In, in_concat. exists [p]. split; [|by left]. apply list_elem_of_In, list_elem_of_fmap. by exists (Releasing p).
Qed.
Lemma traffic_fresh w p c s q : w_heap w !! p = Some c → fresh_enough w q → fresh_enough (mkWorld (w_pool w) (<[p := with_socket s c]> (w_heap w))) q.
Proof.
  intros Hp (c' & Hq & Hlt). unfold fresh_enough. cbn. destruct (decide (q = p)) as [->|]; [|rewrite lookup_insert_ne by done; by exists c'].
  rewrite lookup_insert_eq. eexists. split; [done|]. by replace c with c' by congruence.
Qed.
Lemma traffic_balanced w mine others p c s : w_heap w !! p = Some c → balanced w mine others → balanced (mkWorld (w_pool w) (<[p := with_socket s c]> (w_heap w))) mine others.
Proof.
  intros Hp [Hh Ht Hg Hf]. split; cbn [w_pool w_heap]; [by rewrite dom_insert_lookup_L by by eexists|done| |].
  - apply map_Forall_insert_2; [|done]. destruct (Hg p c Hp) as [? _]. by split; [|eexists].
  - eapply Forall_impl; [exact Hf|]. intros q. by apply traffic_fresh.
Qed.
Lemma traffic_ok w ths p c s : w_heap w !! p = Some c → pool_ok w ths → pool_ok (mkWorld (w_pool w) (<[p := with_socket s c]> (w_heap w))) ths.
Proof.
  intros Hp [Hb Hts]. split; [by apply traffic_balanced|]. eapply Forall_impl; [exact Hts|]. intros []; try done. by apply traffic_fresh.
Qed.
Lemma pool_step_ok w ths w' ths' : pool_step (w, ths) (w', ths') → pool_ok w ths → pool_ok w' ths'.
Proof.
  inversion 1; subst; [|by apply traffic_ok]. rewrite !pool_ok_split. intros (Hb & Ht & Hts).
  destruct (section_ok w w' ph ph' _ H1 Hb Ht) as (Hb' & Ht' & Hu). split; [done|]. split; [done|]. by eapply untouched_tested.
Qed.
Definition pool_start (pool : HttpConnectionPool) (n : nat) : world S * list phase := (mkWorld pool ∅, replicate n Outside).
Lemma pool_start_ok pool n : m_conns pool = [] → m_total pool = 0 → pool_ok (pool_start pool n).1 (pool_start pool n).2.
Proof.
  intros Hc Ht. assert (Hn : List.concat (owned <$> replicate n Outside) = []) by by induction n.
  split; [|by apply Forall_replicate]. cbn [pool_start fst snd]. rewrite Hn. split; cbn [w_pool w_heap].
  - by rewrite Hc, dom_empty_L, elements_empty.
  - by rewrite Hc, Ht.
  - apply map_Forall_empty.
  - by rewrite Hc.
Qed.
Lemma reachable_ok σ σ' : rtc pool_step σ σ' → pool_ok σ.1 σ.2 → pool_ok σ'.1 σ'.2.
Proof. induction 1 as [|[w ths] [w' ths'] σ' Hs _ IH]; [done|]. intros Hok. apply IH. by eapply pool_step_ok. Qed.

(** C21: threads that share a pool do not share its connections: in every interleaving of
    the sections of [getConnection] and [ReleasePtr], with any traffic, clock and failures
    in between, a connection is pooled or with one thread, none is lost or deleted twice,
    [m_total] counts them, and a pooled one has requests left; so the next section of every
    thread ends without touching a connection that is gone. *)
Theorem pool_threads_safe host vhost port is_https max_size max_alive_time max_request n w ths :
  rtc pool_step (pool_start (HttpConnectionPool_new host vhost port is_https max_size max_alive_time max_request) n) (w, ths) →
  NoDup (held w ths) ∧ (∀ p, p ∈ held w ths ↔ is_Some (w_heap w !! p)) ∧ m_total (w_pool w) = s32 (zlen (held w ths)) ∧
  Forall (fresh_enough w) (m_conns (w_pool w)) ∧ Forall (can_go w) ths.
Proof.
  intros Hr. apply reachable_ok in Hr; [|by apply pool_start_ok]. destruct Hr as [[Hh Ht Hg Hp] Hts]. cbn [fst snd app] in *. fold (held w ths) in *.
  split; [rewrite Hh; apply NoDup_elements|]. split; [|split; [done|split; [done|]]].
  - intros p. by rewrite Hh, elem_of_elements, elem_of_dom.
  - apply Forall_forall. intros ph Hph. apply list_elem_of_split in Hph as (l1 & l2 & ->).
    assert (Hok : pool_ok w (l1 ++ ph :: l2)) by by split. apply pool_ok_split in Hok as (Hb & Hf & _). by eapply section_goes.
Qed.
End threads.

(** ** A run of two threads *)
Definition sure : env chunked string := mkEnv chunked string (2 ^ 40) (λ s, negb (ch_closed s)) Some (λ _ a, a) (λ _, Some (chunks [])) (λ _, Some).
Lemma pool_threads_safe_witness : ∃ w, rtc (@pool_step chunked string) (pool_start (HttpConnectionPool_new "h" "" 0 false 1 1000 2) 2) (w, [Using 1%nat; Outside]) ∧
  m_conns (w_pool w) = [0%nat] ∧ NoDup (held w [Using 1%nat; Outside]) ∧ m_total (w_pool w) = 2 ∧ can_go (A := string) w (Using 1%nat).
Proof.
  assert (Hstep : ∀ w w' ph ph' l1 l2 (σ : world chunked * list phase), @section chunked string (w, ph) (w', ph') → rtc (@pool_step chunked string) (w', (l1 ++ ph' :: l2)%list) σ →
    rtc (@pool_step chunked string) (w, (l1 ++ ph :: l2)%list) σ) by (intros; eapply rtc_l; [by apply step_section|done]).
  assert (Hr : ∃ w, rtc (@pool_step chunked string) (pool_start (HttpConnectionPool_new "h" "" 0 false 1 1000 2) 2) (w, [Using 1%nat; Outside]) ∧
    m_conns (w_pool w) = [0%nat] ∧ m_total (w_pool w) = 2).
  { eexists. split; [|split].
    - unfold pool_start. cbn [replicate].
      eapply (Hstep _ _ _ _ [] [Outside]); [apply (section_take sure); reflexivity|]. eapply (Hstep _ _ _ _ [_] []); [apply (section_take sure); reflexivity|].
      eapply (Hstep _ _ _ _ [] [_]); [apply section_drop; reflexivity|]. eapply (Hstep _ _ _ _ [_] []); [apply section_drop; reflexivity|].
      eapply (Hstep _ _ _ _ [_] []); [apply (section_open sure); vm_compute; reflexivity|].
      eapply (Hstep _ _ _ _ [] [_]); [apply (section_open sure); vm_compute; reflexivity|].
      eapply (Hstep _ _ _ _ [_] []); [apply (section_check sure); vm_compute; reflexivity|].
      eapply (Hstep _ _ _ _ [_] []); [apply section_push; vm_compute; reflexivity|]. apply rtc_refl.
    - vm_compute. reflexivity.
    - vm_compute. reflexivity. }
  destruct Hr as (w & Hr & Hc & Ht). exists w. destruct (pool_threads_safe _ _ _ _ _ _ _ _ _ _ Hr) as (Hnd & _ & _ & _ & Hgo).
  split; [exact Hr|]. split; [exact Hc|]. split; [exact Hnd|]. split; [exact Ht|]. by inversion Hgo.
Defined.

(** ** A request over a pooled connection *)
Section request.
Context {S A : Type} `{!Stream S, !StreamLaws S}.
Implicit Types (w : world S) (e : env S A).
Context (lexical_cast : string → option Z) (buff_size : Z) (mem : httpclient_parser) (fuel : nat)
  (setRecvTimeout : Z → M S ()) (peer_text errno_text : M S string).
Hypothesis Hbuff : 0 < buff_size < 2 ^ 31.
Hypothesis Htimeout : ∀ t, silent (setRecvTimeout t).
Hypothesis Herrno : silent errno_text.
Hypothesis Hpeer : silent peer_text.
#[local] Set Default Proof Using "All".

(** The pool's clock: the age of a connection is never a reason to drop it. *)
Definition late e w : Prop := 0 ≤ m_maxAliveTime (w_pool w) < 2 ^ 32 ∧ 2 ^ 32 ≤ GetCurrentMS e.
Lemma not_aged e w (c : HttpConnection S) : late e w → good_conn c → u64 (m_createTime c + m_maxAliveTime (w_pool w)) < GetCurrentMS e.
Proof. intros [H1 H2] [-> _]. rewrite u64_small by lia. lia. Qed.
Lemma take_loop_reuse e w p conns (c : HttpConnection S) pre : late e w → good_conn c → w_heap w !! p = Some c → isConnected e c = true →
  Forall (λ q, ∃ d, w_heap w !! q = Some d ∧ isConnected e d = false) pre → ∀ w1 invalid, w_heap w1 = w_heap w → set_conns [] (w_pool w1) = set_conns [] (w_pool w) →
  take_loop e (pre ++ p :: conns) invalid w1 = Done (mkWorld (set_conns conns (w_pool w)) (w_heap w)) (Some p, (invalid ++ pre)%list).
Proof.
  intros Hlate Hgood Hp Hi. induction 1 as [|q pre (d & Hq & Hd) _ IH]; intros w1 invalid Hh Hpool; cbn [take_loop app].
  - assert (Hw : mkWorld (set_conns conns (w_pool w1)) (w_heap w1) = mkWorld (set_conns conns (w_pool w)) (w_heap w)).
    { f_equal; [|done]. destruct (w_pool w1), (w_pool w). cbn in *. by injection Hpool as -> -> -> -> -> -> -> ->. }
    set (w2 := mkWorld (set_conns conns (w_pool w)) (w_heap w)) in *.
    rewrite (bind_done _ _ w1 w2 ()) by (cbn; by rewrite <-Hw). rewrite (bind_done _ _ w2 w2 c) by (unfold load; cbn; by rewrite Hp). rewrite Hi. cbn [negb].
    rewrite (bind_done _ _ w2 w2 (w_pool w2)) by done. change (m_maxAliveTime (w_pool w2)) with (m_maxAliveTime (w_pool w)).
    pose proof (not_aged e w c Hlate Hgood). replace (_ >? _) with false by lia. by rewrite app_nil_r.
  - set (w2 := mkWorld (set_conns (pre ++ p :: conns) (w_pool w1)) (w_heap w1)). rewrite (bind_done _ _ w1 w2 ()) by done.
    rewrite (bind_done _ _ w2 w2 d) by (unfold load; cbn; by rewrite Hh, Hq). rewrite Hd. cbn [negb].
    rewrite IH by (try done; by rewrite <-Hpool). by rewrite <-app_assoc.
Qed.

(** [dead]: the connections of [pre] are not connected any more. *)
Definition dead e w (pre : list ptr) : Prop := Forall (λ q, ∃ d, w_heap w !! q = Some d ∧ isConnected e d = false) pre.
Lemma getConnection_reuse e w others pre p conns c : balanced w [] others → late e w → m_conns (w_pool w) = (pre ++ p :: conns)%list →
  dead e w pre → w_heap w !! p = Some c → isConnected e c = true →
  ∃ n h, let w' := mkWorld (set_total n (set_conns conns (w_pool w))) h in
    getConnection e w = Done w' (Some p) ∧ balanced w' [p] others ∧
    (∀ q, q ∈ (p :: conns ++ others)%list → h !! q = w_heap w !! q) ∧ (∀ q, q ∈ pre → h !! q = None).
Proof.
  intros Hb Hlate Hconns Hpre Hp Hic. assert (Hgood : good_conn c) by exact (ok_good _ _ _ Hb p c Hp).
  pose proof (take_loop_reuse e w p conns c pre Hlate Hgood Hp Hic Hpre w [] eq_refl eq_refl) as Htake. cbn [app] in Htake.
  assert (Ht : take_conn e w = Done (mkWorld (set_conns conns (w_pool w)) (w_heap w)) (Some p, pre)).
  { unfold take_conn. rewrite (bind_done _ _ w w (w_pool w)) by done. by rewrite Hconns. }
  destruct (take_section e others w Hb) as (w1 & found & invalid & Ht' & Hb1 & _). rewrite Ht in Ht'. injection Ht' as <- <- <-.
  destruct (drop_section (Some p) pre others _ Hb1) as (w2 & Hdrop & Hb2 & _).
  assert (Hperm : (pre ++ (p :: conns ++ others))%list ≡ₚ elements (dom (w_heap w))) by (rewrite <-(ok_held _ _ _ Hb), Hconns; cbn; solve_Permutation).
  destruct (delete_all_ok pre (mkWorld (set_conns conns (w_pool w)) (w_heap w)) _ Hperm) as (h & Hd & Hk & Hl & _).
  pose proof Hdrop as Hdrop0. unfold drop_invalid in Hdrop. rewrite (bind_done _ _ _ _ _ Hd) in Hdrop. injection Hdrop as <-.
  assert (Hnd : NoDup (pre ++ (p :: conns ++ others))%list) by (rewrite Hperm; apply NoDup_elements). apply NoDup_app in Hnd as (_ & Hdis & _).
  eexists _, h. cbv zeta. split; [|split; [exact Hb2|split]].
  - unfold getConnection. rewrite (bind_done _ _ _ _ _ Ht). cbv beta iota. by rewrite (bind_done _ _ _ _ _ Hdrop0).
  - intros q Hq. apply Hl. intros Hqp. by apply (Hdis q Hqp).
  - intros q Hq. apply not_elem_of_dom. rewrite <-elem_of_elements, <-Hk. by apply Hdis.
Qed.
(** Giving a connection back. *)
Lemma ReleasePtr_ok e w p others c : balanced w [p] others → late e w → w_heap w !! p = Some c →
  ∃ w', ReleasePtr e p w = Done w' () ∧ balanced w' [] others ∧
    let keep := isConnected e c && (u64 (m_request c + 1) <? m_maxRequest (w_pool w)) in
    m_conns (w_pool w') = (m_conns (w_pool w) ++ if keep then [p] else [])%list ∧
    w_heap w' !! p = (if keep then Some (count_request c) else None) ∧ (∀ q, q ≠ p → w_heap w' !! q = w_heap w !! q).
Proof.
  intros Hb Hlate Hp. destruct (check_section e p others w Hb) as (w1 & deleted & Hc & Hb1 & Hf & _). unfold ReleasePtr. rewrite (bind_done _ _ _ _ _ Hc).
  rewrite (release_check_eq e p w c Hp) in Hc.
  assert (Hk : given_up e w (count_request c) = negb (isConnected e c && (u64 (m_request c + 1) <? m_maxRequest (w_pool w)))).
  { pose proof (not_aged e w c Hlate (ok_good _ _ _ Hb p c Hp)) as Ha. unfold given_up. cbn [m_createTime m_request count_request].
    change (isConnected e (count_request c)) with (isConnected e c). replace (_ >=? GetCurrentMS e) with false by lia.
    destruct (isConnected e c); cbn; [|done]. lia. }
  rewrite Hk in Hc. cbv zeta. destruct (isConnected e c && _); cbn [negb] in Hc; injection Hc as <- <-.
  - destruct (push_section p others _ Hb1 Hf) as (w' & Hpush & Hb' & _). exists w'. split; [done|]. split; [done|]. injection Hpush as <-.
    cbn [w_pool w_heap]. split; [done|]. split; [apply lookup_insert_eq|]. intros q Hq. by apply lookup_insert_ne.
  - eexists. split; [reflexivity|]. split; [done|]. cbn [w_pool w_heap]. rewrite app_nil_r. split; [done|]. split; [apply lookup_delete_eq|].
    intros q Hq. by apply lookup_delete_ne.
Qed.
(** C26: a request of a pool with dead connections at the front and a live one behind them,
    whose peer behaves as in [client_request_spec]: its bytes begin with the text of a
    response that [HttpResponse::dump] wrote, and the first read after sending delivers the
    whole head of it ([answers]); and with the clock at 2^32 ms or later and a maximum
    age below that ([late]).  The dead connections are deleted, the request goes over the
    live one, with the result that [result_means] describes, and afterwards that connection,
    with one more request counted, is the last of the pool, if it is still connected and has
    requests left, or else deleted; the others are as they were.  With such a clock this
    holds however long the connection has been open: as [m_createTime] is never set and the
    tests of the age are the wrong way round, [m_maxAliveTime] has no effect. *)
Theorem pool_request_spec e e' req timeout_ms r rest w others pre p conns c sock :
  balanced w [] others → late e w → late e' w →
  m_conns (w_pool w) = (pre ++ p :: conns)%list → dead e w pre →
  w_heap w !! p = Some c → m_socket c = Some sock → isConnected_ e sock = true →
  answerable r → lexical_cast (dec (str_len (p_body r))) = Some (str_len (p_body r)) → 0 < str_len (HttpRequest_dump req) < 2 ^ 31 →
  incoming sock = (bytes_of (HttpResponse_dump r) ++ rest)%list → answers buff_size r (setRecvTimeout timeout_ms ;; sendRequest req) sock →
  ∃ sock' res w', doRequest lexical_cast buff_size mem (Datatypes.S fuel) setRecvTimeout peer_text errno_text e e' req timeout_ms w = Done w' res ∧
    result_means r (HttpRequest_dump req) sock sock' res ∧
    let keep := isConnected_ e' sock' && (u64 (m_request c + 1) <? m_maxRequest (w_pool w)) in
    m_conns (w_pool w') = (conns ++ if keep then [p] else [])%list ∧
    w_heap w' !! p = (if keep then Some (mkConn 0 (u64 (m_request c + 1)) (Some sock')) else None) ∧
    (∀ q, q ∈ conns ++ others → w_heap w' !! q = w_heap w !! q)%list ∧ (∀ q, q ∈ pre → w_heap w' !! q = None) ∧ balanced w' [] others.
Proof.
  intros Hb Hlate Hlate' Hconns Hpre Hp Hsock Hconn Hr Hlc Hlen Hin Hans.
  assert (Hic : isConnected e c = true) by (unfold isConnected; by rewrite Hsock).
  destruct (getConnection_reuse e w others pre p conns c Hb Hlate Hconns Hpre Hp Hic) as (n & h & Hget & Hb1 & Hh & Hnone).
  set (w1 := mkWorld (set_total n (set_conns conns (w_pool w))) h) in *. assert (Hp1 : h !! p = Some c) by (rewrite Hh by set_solver; done).
  destruct (exchange_ok lexical_cast buff_size mem fuel setRecvTimeout errno_text Hbuff Htimeout Herrno req timeout_ms peer_text r rest sock Hpeer Hr Hlc Hlen Hin Hans)
    as (sock' & res & Hex & Hres & _).
  set (w2 := mkWorld (w_pool w1) (<[p := with_socket sock' c]> h)). assert (Hb2 : balanced w2 [p] others) by exact (traffic_balanced w1 [p] others p c sock' Hp1 Hb1).
  assert (Hp2 : w_heap w2 !! p = Some (with_socket sock' c)) by apply lookup_insert_eq.
  destruct (ReleasePtr_ok e' w2 p others (with_socket sock' c) Hb2 Hlate' Hp2) as (w' & Hrel & Hb' & Hc' & Hp' & Hother).
  exists sock', res, w'. split; [|split; [exact Hres|]].
  - unfold doRequest. rewrite (bind_done _ _ _ _ _ Hget). cbv beta iota. unfold released.
    rewrite (bind_done _ _ w1 w1 c) by (unfold load; cbn; by rewrite Hp1). rewrite Hsock. unfold on_socket. rewrite Hex.
    assert (Halter : mkWorld (w_pool w1) (alter (with_socket sock') p (w_heap w1)) = w2).
    { unfold w2. f_equal. cbn [w_heap w1]. rewrite <-(insert_id h p c Hp1) at 1. apply alter_insert_eq. }
    rewrite Halter, (bind_done _ _ _ _ _ Hrel). done.
  - destruct (ok_good _ _ _ Hb p c Hp) as [Hct _]. unfold count_request, with_socket in Hp'. cbn [m_createTime m_request m_socket] in Hp'. rewrite Hct in Hp'.
    cbv zeta. split; [exact Hc'|]. split; [exact Hp'|].
    assert (Hnd : NoDup (m_conns (w_pool w) ++ [] ++ others)%list) by (rewrite (ok_held _ _ _ Hb); apply NoDup_elements).
    rewrite Hconns, <-app_assoc in Hnd. apply NoDup_app in Hnd as (_ & Hdis & Hnd). cbn [app] in Hnd, Hdis. apply NoDup_cons in Hnd as [Hni _].
    split; [|split; [|done]].
    + intros q Hq. assert (q ≠ p) by (intros ->; done). rewrite Hother by done. cbn [w_heap w2]. rewrite lookup_insert_ne by done. apply Hh. set_solver.
    + intros q Hq. assert (q ≠ p) by (intros ->; apply (Hdis p Hq); set_solver). rewrite Hother by done. cbn [w_heap w2]. rewrite lookup_insert_ne by done. by apply Hnone.
Qed.
End request.

(** A pool with a dead connection in front of a live one, whose peer answers. *)
Definition sample_pool : world chunked := mkWorld (mkPool "a.b" "" 80 4 1000 5 false [0%nat; 1%nat] 2)
  (<[0%nat := mkConn 0 1 (Some (mkChunked [] [] [] true))]> {[1%nat := mkConn 0 3 (Some sample_client)]}).
Definition sample_get : HttpRequest := pool_request (w_pool sample_pool) GET "/p?x=1" [("Accept", "*/*")] "".
Lemma pool_request_spec_witness : ∃ sock' res w',
  doRequest undec 4096 no_client 2 (λ _, mret ()) (mret "") (mret "") sure sure sample_get 1000 sample_pool = Done w' res ∧
  res_result res = Error_OK ∧ res_response res = Some (answered sample_response) ∧
  m_conns (w_pool w') = [1%nat] ∧ w_heap w' !! 1%nat = Some (mkConn 0 4 (Some sock')) ∧ w_heap w' !! 0%nat = None.
Proof.
  assert (Hsil : ∀ A (a : A), silent (S := chunked) (mret a)) by (intros A a s; by exists s, a).
  destruct (pool_request_spec (S := chunked) (A := string) undec 4096 no_client 1 (λ _, mret ()) (mret "") (mret "") ltac:(lia) (λ _, Hsil _ _) (Hsil _ _) (Hsil _ _)
    sure sure sample_get 1000 sample_response [] sample_pool [] [0%nat] 1%nat [] (mkConn 0 3 (Some sample_client)) sample_client)
    as (sock' & res & w' & Hd & Hres & Hc & Hp & _ & Hnone & _).
  - split.
    + vm_compute. first [reflexivity | apply Permutation_swap].
    + reflexivity.
    + apply map_Forall_insert_2; [by split; [|eexists]|]. apply map_Forall_singleton. by split; [|eexists].
    + repeat constructor; eexists; (split; [reflexivity|cbn; lia]).
  - by split; cbn; lia.
  - by split; cbn; lia.
  - reflexivity.
  - repeat constructor. by eexists.
  - reflexivity.
  - reflexivity.
  - reflexivity.
  - exact sample_answerable.
  - vm_compute. reflexivity.
  - split; vm_compute; reflexivity.
  - vm_compute. reflexivity.
  - intros s1 b Hs. vm_compute in Hs. injection Hs as <- _. eexists _, _, _. split; [reflexivity|]. split; vm_compute; discriminate.
  - assert (Hd' := Hd). vm_compute in Hd'. injection Hd' as <- <-. cbn in Hres, Hp. eexists _, _, _. split; [exact Hd|].
    split; [reflexivity|]. split; [exact (proj1 Hres)|]. split; [reflexivity|]. split; [reflexivity|]. apply Hnone. by left.
Defined.
