(* ===== verification/Socket.v ===== *)
(** * Socket ([webserve/socket.h], [webserve/socket.cc])

    A socket object over the interface [Net] of the calls it makes: the library calls,
    hooked as in Hook, FdManager and IOManager.  The objects of this file live in
    [Socket * N], one object with the rest of the system.  The log lines are left out. *)
From S2P Require Import Prelude Endian Text FdManager Address IOManager Hook.
Open Scope string_scope.
Open Scope Z_scope.

Definition TCP : Z := 1.
Definition UDP : Z := 2.
Definition IPv4 : Z := AF_INET.
Definition IPv6 : Z := AF_INET6.
Definition UNIX : Z := AF_UNIX.
Definition SO_REUSEADDR : Z := 2.
Definition SO_ERROR : Z := 4.
Definition IPPROTO_TCP : Z := 6.
Definition TCP_NODELAY : Z := 1.
Definition SOMAXCONN : Z := 128.

(** The values of socket options that the code passes: an [int] or a [timeval]. *)
Inductive optval := OptInt (v : Z) | OptTime (tv_sec tv_usec : Z).

(** What a socket calls, with C's results: -1 and [errno] for a failure.  A call that
    fills memory returns what it stored. *)
Class Net (N : Type) := {
  net_errno : N → Z;
  net_socket : Z → Z → Z → M N Z;
  net_setsockopt : Z → Z → Z → optval → M N Z;
  net_getsockopt : Z → Z → Z → M N (Z * Z);
  net_accept : Z → M N Z;
  net_bind : Z → Address → M N Z;
  net_listen : Z → Z → M N Z;
  net_connect : Z → Address → M N Z;
  net_connect_with_timeout : Z → Address → Z → M N Z;
  net_close : Z → M N Z;
  net_send : Z → list Z → Z → M N Z;
  net_sendto : Z → list Z → Z → Address → M N Z;
  net_sendmsg : Z → list (list Z) → option Address → Z → M N Z;
  net_recv : Z → Z → Z → M N (Z * list Z);
  net_recvfrom : Z → Z → Z → Address → M N (Z * list Z * Address);
  net_recvmsg : Z → list Z → option Address → Z → M N (Z * list Z * option Address);
  net_getpeername : Z → Address → M N (option (Address * Z));
  net_getsockname : Z → Address → M N (option (Address * Z));
  net_fd : Z → M N (option FdCtx);
  net_cancelEvent : Z → Event → M N bool;
  net_cancelAll : Z → M N bool
}.

Record Socket := mkSocket {
  m_sock : Z; m_family : Z; m_type : Z; m_protocol : Z; m_isConnected : bool;
  m_localAddress : option Address; m_remoteAddress : option Address
}.
Definition set_sock v s := mkSocket v (m_family s) (m_type s) (m_protocol s) (m_isConnected s) (m_localAddress s) (m_remoteAddress s).
Definition set_connected v s := mkSocket (m_sock s) (m_family s) (m_type s) (m_protocol s) v (m_localAddress s) (m_remoteAddress s).
Definition set_local v s := mkSocket (m_sock s) (m_family s) (m_type s) (m_protocol s) (m_isConnected s) v (m_remoteAddress s).
Definition set_remote v s := mkSocket (m_sock s) (m_family s) (m_type s) (m_protocol s) (m_isConnected s) (m_localAddress s) v.
(** [Socket::Socket] *)
Definition Socket_new (family type protocol : Z) : Socket := mkSocket (-1) family type protocol false None None.
Definition isValid (s : Socket) : bool := negb (m_sock s =? -1).

(** The timeouts of [setSendTimeout] and [setRecvTimeout]: an [int64_t] as a [timeval]. *)
Definition timeval_of (v : Z) : optval := OptTime (s32 (Z.quot v 1000)) (s32 (Z.rem v 1000 * 1000)).

Section socket.
Context {N : Type} `{!Net N, !Host}.

(** ** The object and the rest *)
Definition this : M (Socket * N) Socket := gets fst.
Definition upd (f : Socket → Socket) : M (Socket * N) () := modify (λ s, (f s.1, s.2)).
Definition net {A} (m : M N A) : M (Socket * N) A := λ '(k, n),
  match m n with
  | Done n a => Done (k, n) a
  | Raise n e => Raise (k, n) e
  | Undef c => Undef c
  | NoFuel => NoFuel
  end.
(** An operation of another object. *)
Definition object {A} (m : M (Socket * N) A) (k : Socket) : M N (Socket * A) := λ n,
  match m (k, n) with
  | Done (k, n) a => Done n (k, a)
  | Raise (_, n) e => Raise n e
  | Undef c => Undef c
  | NoFuel => NoFuel
  end.

(** ** Options *)
(** [setOption]; [getOption] stores nothing on failure. *)
Definition setOption (level option : Z) (v : optval) : M (Socket * N) bool :=
  s ← this; rt ← net (net_setsockopt (m_sock s) level option v); mret (rt =? 0).
Definition getOption (level option : Z) : M (Socket * N) (bool * Z) :=
  s ← this; '(rt, v) ← net (net_getsockopt (m_sock s) level option); mret (rt =? 0, v).
Definition setSendTimeout (v : Z) : M (Socket * N) () := setOption SOL_SOCKET SO_SNDTIMEO (timeval_of v) ;; mret ().
Definition setRecvTimeout (v : Z) : M (Socket * N) () := setOption SOL_SOCKET SO_RCVTIMEO (timeval_of v) ;; mret ().
(** [getSendTimeout] and [getRecvTimeout]: [FdCtx::getTimeout] as an [int64_t]. *)
Definition timeout_of (type : Z) : M (Socket * N) Z :=
  s ← this; ctx ← net (net_fd (m_sock s));
  mret (match ctx with Some c => s64 (FdManager.getTimeout type c) | None => -1 end).
Definition getSendTimeout : M (Socket * N) Z := timeout_of SO_SNDTIMEO.
Definition getRecvTimeout : M (Socket * N) Z := timeout_of SO_RCVTIMEO.
Definition getError : M (Socket * N) Z :=
  '(ok, error) ← getOption SOL_SOCKET SO_ERROR;
  e ← net (gets net_errno);
  mret (if (ok : bool) then error else e).

(** ** Addresses *)
(** The structure that [getpeername] and [getsockname] fill. *)
Definition address_for (family : Z) : Address :=
  if family =? AF_INET then IPv4Address (IPv4Address_new 0 0)
  else if family =? AF_INET6 then IPv6Address IPv6Address_default
  else if family =? AF_UNIX then UnixAddress UnixAddress_default
  else UnknownAddress family (replicate 14 0).
Definition named (family : Z) (r : Address * Z) : Address :=
  match r.1 with UnixAddress a => if family =? AF_UNIX then UnixAddress (setAddrLen r.2 a) else r.1 | a => a end.
Definition getRemoteAddress : M (Socket * N) Address :=
  s ← this;
  match m_remoteAddress s with
  | Some a => mret a
  | None =>
      r ← net (net_getpeername (m_sock s) (address_for (m_family s)));
      match r with
      | None => mret (UnknownAddress (m_family s) (replicate 14 0))
      | Some r => upd (set_remote (Some (named (m_family s) r))) ;; mret (named (m_family s) r)
      end
  end.
Definition getLocalAddress : M (Socket * N) Address :=
  s ← this;
  match m_localAddress s with
  | Some a => mret a
  | None =>
      r ← net (net_getsockname (m_sock s) (address_for (m_family s)));
      match r with
      | None => mret (UnknownAddress (m_family s) (replicate 14 0))
      | Some r => upd (set_local (Some (named (m_family s) r))) ;; mret (named (m_family s) r)
      end
  end.

(** ** Opening and closing *)
Definition initSock : M (Socket * N) () :=
  setOption SOL_SOCKET SO_REUSEADDR (OptInt 1) ;;
  s ← this;
  if m_type s =? TCP then setOption IPPROTO_TCP TCP_NODELAY (OptInt 1) ;; mret () else mret ().
Definition newSock : M (Socket * N) () :=
  s ← this;
  fd ← net (net_socket (m_family s) (m_type s) (m_protocol s));
  upd (set_sock fd) ;;
  if negb (fd =? -1) then initSock else mret ().
(** [close]: [false] when there was something to close. *)
Definition close : M (Socket * N) bool :=
  s ← this;
  if negb (m_isConnected s) && (m_sock s =? -1) then mret true else
  upd (set_connected false) ;;
  (if negb (m_sock s =? -1) then net (net_close (m_sock s)) ;; upd (set_sock (-1)) else mret ()) ;;
  mret false.
(** An object in a scope of its own: the destructor closes it. *)
Definition scoped_object {A} (m : M (Socket * N) A) (k : Socket) : M N A :=
  '(_, a) ← object (a ← m; close ;; mret a) k; mret a.
(** The static functions that create a UDP socket open it. *)
Definition open_udp (family : Z) : M N Socket :=
  '(k, _) ← object (newSock ;; upd (set_connected true)) (Socket_new family UDP 0); mret k.
Definition CreateTCP (address : Address) : Socket := Socket_new (getFamily address) TCP 0.
Definition CreateUDP (address : Address) : M N Socket := open_udp (getFamily address).
Definition CreateTCPSocket : Socket := Socket_new IPv4 TCP 0.
Definition CreateUDPSocket : M N Socket := open_udp IPv4.
Definition CreateTCPSocket6 : Socket := Socket_new IPv6 TCP 0.
Definition CreateUDPSocket6 : M N Socket := open_udp IPv6.
Definition CreateUnixTCPSocket : Socket := Socket_new UNIX TCP 0.
Definition CreateUnixUDPSocket : Socket := Socket_new UNIX UDP 0.

(** ** Connecting *)
(** [if(!isValid()) newSock();], and whether the socket is valid then. *)
Definition make_valid : M (Socket * N) bool :=
  s ← this;
  (if isValid s then mret () else newSock) ;;
  s ← this;
  mret (isValid s).
Definition connect (addr : Address) (timeout_ms : Z) : M (Socket * N) bool :=
  upd (set_remote (Some addr)) ;;
  ok ← make_valid;
  if negb ok then mret false else
  s ← this;
  if negb (getFamily addr =? m_family s) then mret false else
  rt ← (if timeout_ms =? no_timeout then net (net_connect (m_sock s) addr)
        else net (net_connect_with_timeout (m_sock s) addr timeout_ms));
  if negb (rt =? 0) then close ;; mret false else
  upd (set_connected true) ;;
  getRemoteAddress ;;
  getLocalAddress ;;
  mret true.
Definition reconnect (timeout_ms : Z) : M (Socket * N) bool :=
  s ← this;
  match m_remoteAddress s with
  | None => mret false
  | Some addr => upd (set_local None) ;; connect addr timeout_ms
  end.
Definition bind (addr : Address) : M (Socket * N) bool :=
  ok ← make_valid;
  if negb ok then mret false else
  s ← this;
  if negb (getFamily addr =? m_family s) then mret false else
  taken ← (match addr with UnixAddress _ => net (scoped_object (connect addr no_timeout) CreateUnixTCPSocket) | _ => mret false end);
  if (taken : bool) then mret false else
  rt ← net (net_bind (m_sock s) addr);
  if negb (rt =? 0) then mret false else
  getLocalAddress ;;
  mret true.
Definition listen (backlog : Z) : M (Socket * N) bool :=
  s ← this;
  if negb (isValid s) then mret false else
  rt ← net (net_listen (m_sock s) backlog);
  mret (rt =? 0).
Definition init (sock : Z) : M (Socket * N) bool :=
  ctx ← net (net_fd sock);
  match ctx with
  | Some c =>
      if m_isSocket c && negb (m_isClosed c) then
        upd (set_sock sock) ;;
        upd (set_connected true) ;;
        initSock ;;
        getLocalAddress ;;
        getRemoteAddress ;;
        mret true
      else mret false
  | None => mret false
  end.
(** [accept]; the new object that [init] refuses is destroyed. *)
Definition accept : M (Socket * N) (option Socket) :=
  s ← this;
  newsock ← net (net_accept (m_sock s));
  if newsock =? -1 then mret None else
  '(k, ok) ← net (object (init newsock) (Socket_new (m_family s) (m_type s) (m_protocol s)));
  if (ok : bool) then mret (Some k) else net (object close k) ;; mret None.

(** ** Sending and receiving *)
(** The [ssize_t] of a call becomes an [int]. *)
Definition connected {A} (no : A) (m : Z → M N A) : M (Socket * N) A :=
  s ← this; if m_isConnected s then net (m (m_sock s)) else mret no.
Definition to_int {A} (r : Z * A) : Z * A := (s32 r.1, r.2).
Definition send (buffer : list Z) (flags : Z) : M (Socket * N) Z := connected (-1) (λ fd, s32 <$> net_send fd buffer flags).
Definition send_iov (buffers : list (list Z)) (flags : Z) : M (Socket * N) Z := connected (-1) (λ fd, s32 <$> net_sendmsg fd buffers None flags).
Definition sendTo (buffer : list Z) (to : Address) (flags : Z) : M (Socket * N) Z := connected (-1) (λ fd, s32 <$> net_sendto fd buffer flags to).
Definition sendTo_iov (buffers : list (list Z)) (to : Address) (flags : Z) : M (Socket * N) Z :=
  connected (-1) (λ fd, s32 <$> net_sendmsg fd buffers (Some to) flags).
Definition recv (length flags : Z) : M (Socket * N) (Z * list Z) := connected (-1, []) (λ fd, to_int <$> net_recv fd length flags).
(** The lengths of the [iovec]s; the bytes are stored in them in order. *)
Definition recv_iov (buffers : list Z) (flags : Z) : M (Socket * N) (Z * list Z) :=
  connected (-1, []) (λ fd, (λ r, to_int r.1) <$> net_recvmsg fd buffers None flags).
Definition recvFrom (length : Z) (from : Address) (flags : Z) : M (Socket * N) (Z * list Z * Address) :=
  connected (-1, [], from) (λ fd, (λ r, (to_int r.1, r.2)) <$> net_recvfrom fd length flags from).
Definition recvFrom_iov (buffers : list Z) (from : Address) (flags : Z) : M (Socket * N) (Z * list Z * option Address) :=
  connected (-1, [], Some from) (λ fd, (λ r, (to_int r.1, r.2)) <$> net_recvmsg fd buffers (Some from) flags).

(** ** Cancelling and printing *)
Definition cancel_event (e : Event) : M (Socket * N) bool := s ← this; net (net_cancelEvent (m_sock s) e).
Definition cancelRead : M (Socket * N) bool := cancel_event READ.
Definition cancelWrite : M (Socket * N) bool := cancel_event WRITE.
Definition cancelAccept : M (Socket * N) bool := cancel_event READ.
Definition cancelAll : M (Socket * N) bool := s ← this; net (net_cancelAll (m_sock s)).
(** [Socket::toString]; [None] where the text of a Unix path leaves its array. *)
Definition address_field (name : string) (a : option Address) : option string :=
  match a with None => Some "" | Some a => t ← Address_toString a; Some (" " ++ name ++ "=" ++ t) end.
Definition Socket_toString (s : Socket) : option string :=
  l ← address_field "local_address" (m_localAddress s);
  r ← address_field "remote_address" (m_remoteAddress s);
  Some ("[Socket sock=" ++ dec (m_sock s) ++ " is_connected=" ++ (if m_isConnected s then "1" else "0") ++ " family=" ++ dec (m_family s) ++
    " type=" ++ dec (m_type s) ++ " protocol=" ++ dec (m_protocol s) ++ l ++ r ++ "]").
End socket.
