(* ===== verification/Network.v ===== *)
(** * Network: what the socket calls of the library promise, and a small network that keeps the promises *)
From S2P Require Import Prelude Endian Text FdManager Address IOManager Hook Socket.
Open Scope list_scope.
Open Scope Z_scope.

(** ** Descriptors *)
(** A call that returns and opens or closes none of the caller's descriptors. *)
Definition quiet {N A} (mine : N → gset Z) (m : M N A) : Prop := ∀ n, ∃ n' a, m n = Done n' a ∧ mine n' = mine n.
Definition opens {N} (mine : N → gset Z) (n n' : N) (fd : Z) : Prop :=
  fd = -1 ∧ mine n' = mine n ∨ 0 ≤ fd ∧ fd ∉ mine n ∧ mine n' = {[fd]} ∪ mine n.

(** What the library promises, with [mine] the descriptors this part of the program has
    opened and not closed: a new descriptor is one of nobody's, [accept] registers it with
    the FdManager, and [close] must get an open one.  The calls run on threads of an
    IOManager, so that [GetThis()] is not null; [cancelEvent] and [cancelAll] return for an
    open descriptor and index the table of contexts at -1 for a closed socket, as the
    IOManager of this development does ([cancel_open], [cancel_closed]). *)
Class NetLaws (N : Type) `{!Net N} := {
  mine : N → gset Z;
  socket_law family type protocol n : ∃ n' fd, net_socket family type protocol n = Done n' fd ∧ opens mine n n' fd;
  accept_law l n : ∃ n' fd, net_accept l n = Done n' fd ∧ opens mine n n' fd ∧
    (fd ≠ -1 → ∃ n'' c, net_fd fd n' = Done n'' (Some c) ∧ mine n'' = mine n' ∧ m_isSocket c = true ∧ m_isClosed c = false);
  close_law fd n : fd ∈ mine n → ∃ n' r, net_close fd n = Done n' r ∧ mine n' = mine n ∖ {[fd]};
  setsockopt_law fd level option v : quiet mine (net_setsockopt fd level option v);
  getsockopt_law fd level option : quiet mine (net_getsockopt fd level option);
  bind_law fd a : quiet mine (net_bind fd a);
  listen_law fd backlog : quiet mine (net_listen fd backlog);
  connect_law fd a : quiet mine (net_connect fd a);
  connect_timeout_law fd a t : quiet mine (net_connect_with_timeout fd a t);
  send_law fd d flags : quiet mine (net_send fd d flags);
  sendto_law fd d flags a : quiet mine (net_sendto fd d flags a);
  sendmsg_law fd iov a flags : quiet mine (net_sendmsg fd iov a flags);
  recv_law fd len flags : quiet mine (net_recv fd len flags);
  recvfrom_law fd len flags a : quiet mine (net_recvfrom fd len flags a);
  recvmsg_law fd iov a flags : quiet mine (net_recvmsg fd iov a flags);
  getpeername_law fd a : quiet mine (net_getpeername fd a);
  getsockname_law fd a : quiet mine (net_getsockname fd a);
  fd_law fd : quiet mine (net_fd fd);
  cancelEvent_law fd e n : fd ∈ mine n → fd ≠ -1 → ∃ n' r, net_cancelEvent fd e n = Done n' r ∧ mine n' = mine n;
  cancelAll_law fd n : fd ∈ mine n → fd ≠ -1 → ∃ n' r, net_cancelAll fd n = Done n' r ∧ mine n' = mine n;
  cancelEvent_closed e n : net_cancelEvent (-1) e n = Undef OutOfBounds;
  cancelAll_closed n : net_cancelAll (-1) n = Undef OutOfBounds
}.
Create HintDb net.
#[export] Hint Resolve setsockopt_law getsockopt_law bind_law listen_law connect_law connect_timeout_law send_law sendto_law sendmsg_law recv_law
  recvfrom_law recvmsg_law getpeername_law getsockname_law fd_law : net.

(** ** What the library promises on the data
    [arriving] is what a descriptor still has to receive, [sent] what was sent and where,
    in order.  A call moves at most [0x7ffff000] bytes. *)
Section moves.
Context {N : Type} (arriving : Z → N → list Z) (sent : N → list (Z * list Z)).
Definition received (fd len : Z) (n n' : N) (r : Z) (d : list Z) : Prop :=
  -1 ≤ r ≤ Z.min len 0x7ffff000 ∧ zlen d = Z.max 0 r ∧ Forall is_byte d ∧ arriving fd n = d ++ arriving fd n' ∧ sent n' = sent n.
Definition delivered (fd : Z) (d : list Z) (n n' : N) (r : Z) : Prop :=
  -1 ≤ r ≤ Z.min (zlen d) 0x7ffff000 ∧ sent n' = sent n ++ (if 0 <? r then [(fd, ztake r d)] else []) ∧ ∀ fd', arriving fd' n' = arriving fd' n.
End moves.
Definition total (l : list Z) : Z := foldr Z.add 0 l.
Class NetData (N : Type) `{!Net N} := {
  arriving : Z → N → list Z;
  sent : N → list (Z * list Z);
  recv_data fd len n : 0 ≤ len → ∃ n' r d, net_recv fd len 0 n = Done n' (r, d) ∧ received arriving sent fd len n n' r d;
  recvmsg_data fd lens n : Forall (λ len, 0 ≤ len) lens →
    ∃ n' r d, net_recvmsg fd lens None 0 n = Done n' (r, d, None) ∧ received arriving sent fd (total lens) n n' r d;
  send_data fd d n : ∃ n' r, net_send fd d 0 n = Done n' r ∧ delivered arriving sent fd d n n' r;
  sendmsg_data fd ds n : ∃ n' r, net_sendmsg fd ds None 0 n = Done n' r ∧ delivered arriving sent fd (List.concat ds) n n' r;
  close_data fd n : ∃ n' r, net_close fd n = Done n' r ∧ sent n' = sent n
}.

(** ** A network
    Every call succeeds; a connection carries what it was given when it was made. *)
Record network := mkNetwork { w_open : gset Z; w_in : gmap Z (list Z); w_sent : list (Z * list Z); w_pending : list (list Z) }.
Definition fresh_fd (w : network) : Z := 1 + set_fold Z.max 0 (w_open w).
Definition w_arriving (fd : Z) (w : network) : list Z := (λ x, x mod 256) <$> default [] (w_in w !! fd).
Definition w_openfd (data : list Z) (w : network) : result network Z :=
  Done (mkNetwork ({[fresh_fd w]} ∪ w_open w) (<[fresh_fd w := data]> (w_in w)) (w_sent w) (w_pending w)) (fresh_fd w).
Definition w_take (fd len : Z) (w : network) : Z := Z.max 0 (Z.min (Z.min len 0x7ffff000) (zlen (w_arriving fd w))).
Definition w_recv (fd len : Z) (w : network) : result network (Z * list Z) :=
  let r := w_take fd len w in
  Done (mkNetwork (w_open w) (<[fd := zdrop r (default [] (w_in w !! fd))]> (w_in w)) (w_sent w) (w_pending w)) (r, ztake r (w_arriving fd w)).
Definition w_send (fd : Z) (d : list Z) (w : network) : result network Z :=
  let r := Z.min (zlen d) 0x7ffff000 in
  Done (mkNetwork (w_open w) (w_in w) (w_sent w ++ (if 0 <? r then [(fd, ztake r d)] else [])) (w_pending w)) r.
#[export] Instance network_net : Net network := {|
  net_errno _ := 0;
  net_socket _ _ _ := w_openfd [];
  net_setsockopt _ _ _ _ := mret 0;
  net_getsockopt _ _ _ := mret (0, 0);
  net_accept fd w := match w_pending w with
    | d :: l => if decide (fd ∈ w_open w) then w_openfd d (mkNetwork (w_open w) (w_in w) (w_sent w) l) else Done w (-1)
    | [] => Done w (-1)
    end;
  net_bind _ _ := mret 0;
  net_listen _ _ := mret 0;
  net_connect _ _ := mret 0;
  net_connect_with_timeout _ _ _ := mret 0;
  net_close fd w := Done (mkNetwork (w_open w ∖ {[fd]}) (w_in w) (w_sent w) (w_pending w)) 0;
  net_send fd d _ := w_send fd d;
  net_sendto fd d _ _ := w_send fd d;
  net_sendmsg fd ds _ _ := w_send fd (List.concat ds);
  net_recv fd len _ := w_recv fd len;
  net_recvfrom fd len _ a := r ← w_recv fd len; mret (r, a);
  net_recvmsg fd lens a _ := r ← w_recv fd (total lens); mret (r, a);
  net_getpeername _ a := mret (Some (a, 0));
  net_getsockname _ a := mret (Some (a, 0));
  net_fd fd w := Done w (if decide (fd ∈ w_open w) then Some (mkFdCtx true true false false false fd 0 0) else None);
  net_cancelEvent fd _ := if decide (fd = -1) then undef OutOfBounds else mret true;
  net_cancelAll fd := if decide (fd = -1) then undef OutOfBounds else mret true
|}.

Lemma fresh_fd_spec w : 0 ≤ fresh_fd w ∧ fresh_fd w ∉ w_open w.
Proof.
  unfold fresh_fd, set_fold. cbn. rewrite <-(elem_of_elements (w_open w)). generalize (elements (w_open w)) as l. intros l.
  assert (H : 0 ≤ foldr Z.max 0 l ∧ ∀ x, x ∈ l → x ≤ foldr Z.max 0 l).
  { induction l as [|y l [IH1 IH2]]; cbn; [split; [lia|set_solver]|]. split; [lia|]. intros x [->|Hx%IH2]%elem_of_cons; lia. }
  destruct H as [H1 H2]. split; [lia|]. intros Hin%H2. lia.
Qed.
Lemma openfd_spec data w : ∃ w' fd, w_openfd data w = Done w' fd ∧ opens w_open w w' fd.
Proof. destruct (fresh_fd_spec w) as [? ?]. eexists _, _. split; [done|]. by right. Qed.
#[export, refine] Instance network_laws : NetLaws network := {| mine := w_open |}.
Proof.
  all: try (intros; intros w; eexists _, _; by split).
  - intros. apply openfd_spec.
  - intros l w. cbn. destruct (w_pending w) as [|d pending]; [exists w, (-1); split; [done|]; split; [by left|done]|].
    destruct (decide (l ∈ w_open w)); [|exists w, (-1); split; [done|]; split; [by left|done]].
    destruct (fresh_fd_spec (mkNetwork (w_open w) (w_in w) (w_sent w) pending)) as [? Hf]. unfold w_openfd, opens. cbn.
    eexists _, _. split; [done|]. split; [by right|]. intros _. eexists _, _. split; [by rewrite decide_True by set_solver|done].
  - intros fd w Hfd. by eexists _, _.
  - intros fd e w _ Hfd. cbn. rewrite decide_False by done. by eexists _, _.
  - intros fd w _ Hfd. cbn. rewrite decide_False by done. by eexists _, _.
  - done.
  - done.
Defined.
Lemma arriving_byte fd w : Forall is_byte (w_arriving fd w).
Proof. apply Forall_fmap, Forall_true. intros x. unfold compose, is_byte. pose proof (Z.mod_pos_bound x 256). lia. Qed.
Lemma recv_spec fd len w : 0 ≤ len → ∃ w' r d, w_recv fd len w = Done w' (r, d) ∧ received w_arriving w_sent fd len w w' r d.
Proof.
  intros Hl. eexists _, _, _. split; [done|]. unfold received, w_take. cbn [w_sent].
  pose proof (zlen_nonneg (w_arriving fd w)). split; [lia|]. split; [rewrite zlen_ztake; lia|]. split; [apply Forall_take, arriving_byte|].
  split; [|done]. rewrite <-(ztake_zdrop (Z.max 0 (Z.min (Z.min len 2147479552) (zlen (w_arriving fd w)))) (w_arriving fd w)) at 1.
  f_equal. generalize (Z.max 0 (Z.min (Z.min len 2147479552) (zlen (w_arriving fd w)))) as r. intros r.
  unfold w_arriving. cbn [w_in]. rewrite lookup_insert_eq. unfold zdrop. cbn. by rewrite fmap_drop.
Qed.
Lemma send_spec fd d w : ∃ w' r, w_send fd d w = Done w' r ∧ delivered w_arriving w_sent fd d w w' r.
Proof. eexists _, _. split; [done|]. unfold delivered. pose proof (zlen_nonneg d). split; [lia|]. by split. Qed.
#[export, refine] Instance network_data : NetData network := {| arriving := w_arriving; sent := w_sent |}.
Proof.
  - intros. by apply recv_spec.
  - intros fd lens w Hl. assert (0 ≤ total lens) by (induction Hl; cbn; [lia|unfold total in *; lia]).
    destruct (recv_spec fd (total lens) w) as (w' & r & d & Hr & Hd); [done|]. exists w', r, d. split; [|done]. cbn. by rewrite (bind_done _ _ _ _ _ Hr).
  - intros. apply send_spec.
  - intros. apply send_spec.
  - intros. by eexists _, _.
Defined.
