(* ===== verification/SocketFacts.v ===== *)
(** * SocketFacts: a socket object owns its descriptor *)
From S2P Require Import Prelude Endian Text FdManager Address IOManager Hook Socket Network.
Open Scope list_scope.
Open Scope Z_scope.

Section facts.
Context {N : Type} `{!Net N, !NetLaws N, !Host}.
Implicit Types (k : Socket) (n : N) (base : gset Z).

(** ** Operations that keep the descriptor *)
Definition same_sock k k' : Prop := m_sock k' = m_sock k ∧ m_isConnected k' = m_isConnected k.
Definition steady {A} (m : M (Socket * N) A) : Prop := ∀ k n, ∃ k' n' a, m (k, n) = Done (k', n') a ∧ same_sock k k' ∧ mine n' = mine n.
Lemma steady_ret {A} (a : A) : steady (mret a).
Proof. intros k n. by exists k, n, a. Qed.
Lemma steady_bind {A B} (m : M (Socket * N) A) (f : A → M (Socket * N) B) : steady m → (∀ a, steady (f a)) → steady (m ≫= f).
Proof.
  intros Hm Hf k n. destruct (Hm k n) as (k1 & n1 & a & Hr & [H1 H2] & H3). rewrite (bind_done _ _ _ _ _ Hr).
  destruct (Hf a k1 n1) as (k2 & n2 & b & -> & [H4 H5] & H6). exists k2, n2, b. split; [done|]. split; [split; congruence|congruence].
Qed.
Lemma steady_this {B} (f : Socket → M (Socket * N) B) : (∀ k, steady (f k)) → steady (this ≫= f).
Proof. intros Hf. apply steady_bind; [|done]. intros k n. by exists k, n, k. Qed.
Lemma steady_net {A} (m : M N A) : quiet mine m → steady (net m).
Proof. intros Hm k n. destruct (Hm n) as (n' & a & Hr & Hq). unfold net. rewrite Hr. by exists k, n', a. Qed.
Lemma steady_upd f : (∀ k, same_sock k (f k)) → steady (upd f).
Proof. intros Hf k n. exists (f k), n, (). split; [done|]. by split. Qed.
Lemma quiet_fmap {A B} (f : A → B) (m : M N A) : quiet mine m → quiet mine (f <$> m).
Proof. intros Hm n. destruct (Hm n) as (n' & a & Hr & Hq). exists n', (f a). by rewrite (fmap_done _ _ _ _ _ Hr). Qed.
Lemma steady_connected {A} (no : A) (m : Z → M N A) : (∀ fd, quiet mine (m fd)) → steady (connected no m).
Proof. intros Hm. apply steady_this. intros k. destruct (m_isConnected k); [by apply steady_net|apply steady_ret]. Qed.
#[local] Hint Resolve steady_ret steady_net steady_upd quiet_fmap steady_connected : net.
Ltac steady := repeat first
  [ apply steady_ret | apply steady_this; intros | apply steady_bind; [|intros]
  | match goal with |- steady (match ?x with _ => _ end) => destruct x end | solve [auto with net]
  | apply steady_upd; intros; by split ].

Lemma setOption_steady level option v : steady (setOption level option v).
Proof. unfold setOption. steady. Qed.
Lemma getOption_steady level option : steady (getOption level option).
Proof. unfold getOption. steady. Qed.
#[local] Hint Resolve setOption_steady getOption_steady : net.
Lemma initSock_steady : steady initSock.
Proof. unfold initSock. steady. Qed.
Lemma getRemoteAddress_steady : steady getRemoteAddress.
Proof. unfold getRemoteAddress. steady. Qed.
Lemma getLocalAddress_steady : steady getLocalAddress.
Proof. unfold getLocalAddress. steady. Qed.
#[local] Hint Resolve initSock_steady getRemoteAddress_steady getLocalAddress_steady : net.
Lemma listen_steady backlog : steady (listen backlog).
Proof. unfold listen. steady. Qed.
Lemma errno_quiet : quiet mine (gets net_errno).
Proof. intros n. by exists n, (net_errno n). Qed.
#[local] Hint Resolve errno_quiet : net.
Lemma getError_steady : steady getError.
Proof. unfold getError. steady. Qed.
Lemma timeout_of_steady type : steady (timeout_of type).
Proof. unfold timeout_of. steady. Qed.

(** ** Owning a descriptor *)
Definition fds k : gset Z := if m_sock k =? -1 then ∅ else {[m_sock k]}.
(** [base] is everyone else's. *)
Definition owns k n base : Prop := mine n = fds k ∪ base ∧ fds k ## base.
Definition safe {A} (m : M (Socket * N) A) : Prop := ∀ k n base, owns k n base → ∃ k' n' a, m (k, n) = Done (k', n') a ∧ owns k' n' base.
Lemma owns_same k k' n n' base : m_sock k' = m_sock k → mine n' = mine n → owns k n base → owns k' n' base.
Proof. unfold owns, fds. by intros -> ->. Qed.
Lemma steady_safe {A} (m : M (Socket * N) A) : steady m → safe m.
Proof. intros Hm k n base Ho. destruct (Hm k n) as (k' & n' & a & Hr & [Hs _] & Hn). exists k', n', a. split; [done|]. by eapply owns_same. Qed.
Lemma safe_bind {A B} (m : M (Socket * N) A) (f : A → M (Socket * N) B) : safe m → (∀ a, safe (f a)) → safe (m ≫= f).
Proof. intros Hm Hf k n base Ho. destruct (Hm k n base Ho) as (k1 & n1 & a & Hr & H1). rewrite (bind_done _ _ _ _ _ Hr). by apply Hf. Qed.
Lemma safe_this {B} (f : Socket → M (Socket * N) B) : (∀ k, safe (f k)) → safe (this ≫= f).
Proof. intros Hf. apply safe_bind; [|done]. apply steady_safe. intros k n. by exists k, n, k. Qed.
Lemma safe_upd f : (∀ k, m_sock (f k) = m_sock k) → safe (upd f).
Proof. intros Hf k n base Ho. exists (f k), n, (). split; [done|]. by apply (owns_same k _ n). Qed.

Lemma owns_none k n base : m_sock k = -1 → mine n = base → owns k n base.
Proof. intros Hk <-. unfold owns, fds. rewrite Hk. cbn. rewrite union_empty_l_L. split; [done|set_solver]. Qed.
Lemma owns_nothing k n base : m_sock k = -1 → owns k n base → mine n = base.
Proof. intros Hk [-> _]. unfold fds. rewrite Hk. cbn. by rewrite union_empty_l_L. Qed.
Lemma owns_opened k n n' base fd : mine n = base → opens mine n n' fd → m_sock k = fd → owns k n' base.
Proof.
  intros <- [[-> Hn]|(Hfd & Hni & Hn)] Hk.
  - by apply owns_none.
  - unfold owns, fds. rewrite Hk. replace (fd =? -1) with false by lia. split; [done|]. set_solver.
Qed.
Lemma newSock_ok k n base : m_sock k = -1 → mine n = base → ∃ k' n' , newSock (k, n) = Done (k', n') () ∧ owns k' n' base.
Proof.
  intros Hk Hn. unfold newSock. rewrite (bind_done _ _ (k, n) (k, n) k) by done.
  destruct (socket_law (m_family k) (m_type k) (m_protocol k) n) as (n1 & fd & Hs & Ho).
  rewrite (bind_done _ _ (k, n) (k, n1) fd) by (unfold net; by rewrite Hs). rewrite (bind_done _ _ (k, n1) (set_sock fd k, n1) ()) by done.
  pose proof (owns_opened (set_sock fd k) n n1 base fd Hn Ho eq_refl) as Ho1. destruct (negb (fd =? -1)); [|by eexists _, _].
  destruct (initSock_steady (set_sock fd k) n1) as (k2 & n2 & [] & Hi & [Hsk _] & Hq). exists k2, n2. split; [exact Hi|]. by eapply owns_same.
Qed.
Lemma close_ok k n base : owns k n base →
  ∃ k' n' b, close (k, n) = Done (k', n') b ∧ m_sock k' = -1 ∧ m_isConnected k' = false ∧ mine n' = base.
Proof.
  intros Ho. unfold close. rewrite (bind_done _ _ (k, n) (k, n) k) by done. destruct (m_sock k =? -1) eqn:E.
  - assert (Hn : mine n = base) by (apply (owns_nothing k); [lia|done]).
    destruct (m_isConnected k) eqn:Ec; cbn [negb andb]; [|exists k, n, true; repeat split; [lia|done|done]].
    exists (set_connected false k), n, false. repeat split; [cbn; lia|done].
  - rewrite andb_false_r. cbn [negb]. rewrite (bind_done _ _ (k, n) (set_connected false k, n) ()) by done.
    destruct Ho as [Hm Hd]. unfold fds in Hm, Hd. rewrite E in Hm, Hd. destruct (close_law (m_sock k) n) as (n' & r & Hc & Hn'); [set_solver|].
    exists (set_sock (-1) (set_connected false k)), n', false. repeat split; [|set_solver].
    erewrite bind_done; [|erewrite bind_done; [reflexivity|]; unfold net; rewrite Hc; reflexivity]. reflexivity.
Qed.
Lemma close_safe : safe close.
Proof. intros k n base Ho. destruct (close_ok k n base Ho) as (k' & n' & b & Hc & Hs & _ & Hn). exists k', n', b. split; [done|by apply owns_none]. Qed.
Lemma make_valid_safe : safe make_valid.
Proof.
  intros k n base Ho. unfold make_valid. rewrite (bind_done _ _ (k, n) (k, n) k) by done. destruct (isValid k) eqn:E.
  - rewrite (bind_done _ _ (k, n) (k, n) ()) by done. by eexists _, _, _.
  - assert (Hk : m_sock k = -1) by (unfold isValid in E; lia).
    destruct (newSock_ok k n base Hk) as (k1 & n1 & Hn & Ho1); [by apply (owns_nothing k)|]. rewrite (bind_done _ _ _ _ _ Hn).
    by eexists _, _, _.
Qed.
#[local] Hint Resolve steady_safe close_safe make_valid_safe : net.
Ltac safe := repeat first
  [ solve [apply steady_safe; steady] | apply safe_this; intros | apply safe_bind; [solve [auto with net]|intros] | apply safe_bind; [|intros]
  | match goal with |- safe (match ?x with _ => _ end) => destruct x end | solve [auto with net]
  | apply safe_upd; done ].
Lemma connect_safe addr timeout_ms : safe (connect addr timeout_ms).
Proof. unfold connect. safe. Qed.
#[local] Hint Resolve connect_safe : net.
Lemma reconnect_safe timeout_ms : safe (reconnect timeout_ms).
Proof. unfold reconnect. safe. Qed.

(** An object with a scope of its own gives back what it opens. *)
Lemma object_safe {A} (m : M (Socket * N) A) k n base : safe m → owns k n base →
  ∃ k' n' a, object m k n = Done n' (k', a) ∧ owns k' n' base.
Proof. intros Hm Ho. destruct (Hm k n base Ho) as (k' & n' & a & Hr & Ho'). exists k', n', a. split; [unfold object; by rewrite Hr|done]. Qed.
Lemma scoped_quiet {A} (m : M (Socket * N) A) k : m_sock k = -1 → safe m → quiet mine (scoped_object m k).
Proof.
  intros Hk Hm n. destruct (Hm k n (mine n) (owns_none _ _ _ Hk eq_refl)) as (k1 & n1 & a & Hr & Ho1).
  destruct (close_ok k1 n1 (mine n) Ho1) as (k2 & n2 & b & Hc & _ & _ & Hn2). exists n2, a. split; [|done].
  unfold scoped_object. rewrite (bind_done _ _ n n2 (k2, a)); [done|]. unfold object. rewrite (bind_done _ _ _ _ _ Hr), (bind_done _ _ _ _ _ Hc). done.
Qed.
Lemma bind_safe addr : safe (bind addr).
Proof.
  unfold bind. apply safe_bind; [auto with net|intros ok]. destruct (negb ok); [safe|]. apply safe_this. intros k.
  destruct (negb (getFamily addr =? m_family k)); [safe|]. apply safe_bind.
  - destruct addr; first [apply steady_safe, steady_ret | apply steady_safe, steady_net, scoped_quiet; [done|apply connect_safe]].
  - intros taken. safe.
Qed.

(** ** Accepting *)
Lemma init_ok fd n n' c : net_fd fd n = Done n' (Some c) → m_isSocket c = true → m_isClosed c = false → ∀ k,
  ∃ k' n'', init fd (k, n) = Done (k', n'') true ∧ m_sock k' = fd ∧ m_isConnected k' = true ∧ mine n'' = mine n'.
Proof.
  intros Hf Hs Hc k. unfold init. rewrite (bind_done _ _ (k, n) (k, n') (Some c)) by (unfold net; by rewrite Hf). rewrite Hs, Hc. cbn [negb andb].
  rewrite (bind_done _ _ (k, n') (set_sock fd k, n') ()) by done.
  rewrite (bind_done _ _ (set_sock fd k, n') (set_connected true (set_sock fd k), n') ()) by done.
  assert (Ht : steady (initSock ;; getLocalAddress ;; getRemoteAddress ;; mret true)) by steady.
  destruct (Ht (set_connected true (set_sock fd k)) n') as (k' & n'' & b & Hr & [H1 H2] & Hq).
  assert (b = true) as ->.
  { destruct (initSock_steady (set_connected true (set_sock fd k)) n') as (k1 & n1 & [] & Hi & _). rewrite (bind_done _ _ _ _ _ Hi) in Hr.
    destruct (getLocalAddress_steady k1 n1) as (k2 & n2 & a2 & H3 & _). rewrite (bind_done _ _ _ _ _ H3) in Hr.
    destruct (getRemoteAddress_steady k2 n2) as (k3 & n3 & a3 & H4 & _). rewrite (bind_done _ _ _ _ _ H4) in Hr. injection Hr as _ _ <-. done. }
  by exists k', n''.
Qed.
Lemma accept_ok k n base : owns k n base → ∃ n' r, accept (k, n) = Done (k, n') r ∧
  match r with None => owns k n' base | Some c => owns c n' (fds k ∪ base) ∧ m_isConnected c = true ∧ m_sock c ≠ -1 ∧ fds k ## base end.
Proof.
  intros [Hm Hd]. unfold accept. rewrite (bind_done _ _ (k, n) (k, n) k) by done.
  destruct (accept_law (m_sock k) n) as (n1 & fd & Ha & Ho & Hreg). rewrite (bind_done _ _ (k, n) (k, n1) fd) by (unfold net; by rewrite Ha).
  destruct (fd =? -1) eqn:E.
  - exists n1, None. split; [done|]. destruct Ho as [[_ Hn]|(Hf & _)]; [|lia]. by apply (owns_same k _ n).
  - destruct Hreg as (n2 & c & Hf & Hn2 & Hs & Hc); [lia|].
    destruct (init_ok fd n1 n2 c Hf Hs Hc (Socket_new (m_family k) (m_type k) (m_protocol k))) as (c' & n3 & Hi & Hk & Hco & Hn3).
    rewrite (bind_done _ _ (k, n1) (k, n3) (c', true)) by (unfold net, object; by rewrite Hi).
    exists n3, (Some c'). split; [done|]. rewrite Hn2 in Hn3. split; [|split_and!; [done|lia|done]]. apply (owns_opened _ n n3 _ fd Hm); [|done].
    unfold opens in *. destruct Ho as [[-> _]|(? & ? & ?)]; [done|]. right. rewrite Hn3. done.
Qed.

(** ** A program with its socket objects
    The objects that are alive, in the order they were made, with the rest of the system. *)
Inductive call :=
  | CConnect (a : Address) (timeout_ms : Z) | CReconnect (timeout_ms : Z) | CBind (a : Address) | CListen (backlog : Z) | CClose
  | CSend (d : list Z) (flags : Z) | CSendIov (d : list (list Z)) (flags : Z) | CSendTo (d : list Z) (a : Address) (flags : Z)
  | CSendToIov (d : list (list Z)) (a : Address) (flags : Z) | CRecv (len flags : Z) | CRecvIov (lens : list Z) (flags : Z)
  | CRecvFrom (len : Z) (a : Address) (flags : Z) | CRecvFromIov (lens : list Z) (a : Address) (flags : Z)
  | CSetSendTimeout (v : Z) | CSetRecvTimeout (v : Z) | CGetSendTimeout | CGetRecvTimeout | CGetError
  | CGetRemoteAddress | CGetLocalAddress | CCancelRead | CCancelWrite | CCancelAccept | CCancelAll.
Definition run (c : call) : M (Socket * N) () :=
  match c with
  | CConnect a t => connect a t ;; mret () | CReconnect t => reconnect t ;; mret () | CBind a => bind a ;; mret ()
  | CListen b => listen b ;; mret () | CClose => close ;; mret ()
  | CSend d f => send d f ;; mret () | CSendIov d f => send_iov d f ;; mret () | CSendTo d a f => sendTo d a f ;; mret ()
  | CSendToIov d a f => sendTo_iov d a f ;; mret () | CRecv l f => recv l f ;; mret () | CRecvIov l f => recv_iov l f ;; mret ()
  | CRecvFrom l a f => recvFrom l a f ;; mret () | CRecvFromIov l a f => recvFrom_iov l a f ;; mret ()
  | CSetSendTimeout v => setSendTimeout v | CSetRecvTimeout v => setRecvTimeout v
  | CGetSendTimeout => getSendTimeout ;; mret () | CGetRecvTimeout => getRecvTimeout ;; mret () | CGetError => getError ;; mret ()
  | CGetRemoteAddress => getRemoteAddress ;; mret () | CGetLocalAddress => getLocalAddress ;; mret ()
  | CCancelRead => cancelRead ;; mret () | CCancelWrite => cancelWrite ;; mret () | CCancelAccept => cancelAccept ;; mret ()
  | CCancelAll => cancelAll ;; mret ()
  end.
(** An act of the program; on an object that is not there it is not possible, and does nothing. *)
Inductive act := New (family type protocol : Z) | NewUDP (family : Z) | Call (i : nat) (c : call) | Accept (i : nat) | Destroy (i : nat).
Definition at_object (i : nat) (f : Socket → list Socket → list Socket → N → result (list Socket * N) ()) : M (list Socket * N) () := λ '(ks, n),
  match ks !! i with Some k => f k (take i ks) (drop (S i) ks) n | None => Done (ks, n) () end.
Definition put_back {A} (m : M N A) (f : A → list Socket) : N → result (list Socket * N) () := λ n,
  match m n with Done n a => Done (f a, n) () | Raise n e => Raise ([], n) e | Undef c => Undef c | NoFuel => NoFuel end.
Definition perform (a : act) : M (list Socket * N) () :=
  match a with
  | New family type protocol => λ '(ks, n), Done (ks ++ [Socket_new family type protocol], n) ()
  | NewUDP family => λ '(ks, n), put_back (open_udp family) (λ k, ks ++ [k]) n
  | Call i c => at_object i (λ k l1 l2, put_back (object (run c) k) (λ '(k, _), l1 ++ k :: l2))
  | Accept i => at_object i (λ k l1 l2, put_back (object accept k) (λ '(k, c), (l1 ++ k :: l2) ++ option_list c))
  | Destroy i => at_object i (λ k l1 l2, put_back (object close k) (λ _, l1 ++ l2))
  end.
Fixpoint performs (l : list act) : M (list Socket * N) () :=
  match l with [] => mret () | a :: l => perform a ;; performs l end.

Definition descriptors (ks : list Socket) : list Z := filter (λ fd, fd ≠ -1) (m_sock <$> ks).
Definition sound (ks : list Socket) n base : Prop :=
  mine n = list_to_set (descriptors ks) ∪ base ∧ NoDup (descriptors ks) ∧ list_to_set (descriptors ks) ## base.
Lemma descriptors_cons k ks : descriptors (k :: ks) = if m_sock k =? -1 then descriptors ks else m_sock k :: descriptors ks.
Proof.
  unfold descriptors. rewrite fmap_cons, filter_cons. destruct (m_sock k =? -1) eqn:E; case_decide; try done; lia.
Qed.
#[export] Instance sound_perm : Proper ((≡ₚ) ==> (=) ==> (=) ==> iff) sound.
Proof.
  assert (H' : ∀ ks ks' n base, ks ≡ₚ ks' → sound ks n base → sound ks' n base).
  { intros ks ks' n base Hp. assert (Hd : descriptors ks ≡ₚ descriptors ks') by (unfold descriptors; by rewrite Hp).
    unfold sound. assert (Hs : (list_to_set (descriptors ks) : gset Z) = list_to_set (descriptors ks')) by (apply list_to_set_perm_L, Hd).
    rewrite Hs, Hd. done. }
  intros ks ks' Hp n ? <- base ? <-. split; apply H'; [done|by symmetry].
Qed.
Lemma sound_cons k ks n base : sound (k :: ks) n base ↔
  owns k n (list_to_set (descriptors ks) ∪ base) ∧ NoDup (descriptors ks) ∧ list_to_set (descriptors ks) ## base.
Proof.
  unfold sound, owns, fds. rewrite descriptors_cons. destruct (m_sock k =? -1).
  - rewrite union_empty_l_L. set_solver.
  - cbn [list_to_set]. rewrite NoDup_cons, <-union_assoc_L, <-(elem_of_list_to_set (C := gset Z)). set_solver.
Qed.
(** The calls on the IOManager, which a closed socket makes for descriptor -1. *)
Definition cancels (c : call) : bool := match c with CCancelRead | CCancelWrite | CCancelAccept | CCancelAll => true | _ => false end.
Lemma perform_safe c : cancels c = false → safe (run c).
Proof.
  intros Hc. destruct c; try done; cbn [run]; unfold setSendTimeout, setRecvTimeout, getSendTimeout, getRecvTimeout, send, send_iov, sendTo, sendTo_iov, recv,
    recv_iov, recvFrom, recvFrom_iov;
    (apply safe_bind; [|intros; safe]); auto using reconnect_safe, bind_safe with net;
    apply steady_safe; auto using getError_steady, timeout_of_steady, listen_steady, getRemoteAddress_steady, getLocalAddress_steady with net; steady.
Qed.
Lemma cancel_net k n (m : M N bool) :
  (∃ n' r, m n = Done n' r ∧ mine n' = mine n) → ∃ n', (net m ;; mret ()) (k, n) = Done (k, n') () ∧ mine n' = mine n.
Proof. intros (n' & r & Hr & Hn). exists n'. split; [|done]. rewrite (bind_done _ _ (k, n) (k, n') r); [done|]. unfold net. by rewrite Hr. Qed.
Lemma cancel_open_ok c k n : cancels c = true → m_sock k ≠ -1 → m_sock k ∈ mine n → ∃ n', run c (k, n) = Done (k, n') () ∧ mine n' = mine n.
Proof.
  intros Hc Hk Hm. destruct c; try done;
    first [exact (cancel_net k n _ (cancelAll_law _ n Hm Hk)) | exact (cancel_net k n _ (cancelEvent_law _ _ n Hm Hk))].
Qed.
Lemma cancel_closed_ok c k n : cancels c = true → m_sock k = -1 → run c (k, n) = Undef OutOfBounds.
Proof using All.
  intros Hc Hk. destruct c; try done; cbn [run]; apply bind_undef; unfold cancelRead, cancelWrite, cancelAccept, cancel_event, cancelAll;
    rewrite (bind_done _ _ (k, n) (k, n) k) by done; rewrite Hk; unfold net; by rewrite ?cancelEvent_closed, ?cancelAll_closed.
Qed.
Lemma open_udp_ok family n : ∃ n' k, open_udp family n = Done n' k ∧ owns k n' (mine n).
Proof.
  unfold open_udp. destruct (newSock_ok (Socket_new family UDP 0) n (mine n) eq_refl eq_refl) as (k & n' & Hn & Ho).
  exists n', (set_connected true k). split; [|by apply (owns_same k _ n')].
  rewrite (bind_done _ _ n n' (set_connected true k, ())); [done|]. unfold object. rewrite (bind_done _ _ _ _ _ Hn). done.
Qed.
(** A cancel on an object without a descriptor. *)
Definition cancels_closed (a : act) (ks : list Socket) : Prop := ∃ i c k, a = Call i c ∧ cancels c = true ∧ ks !! i = Some k ∧ m_sock k = -1.
Lemma perform_closed a ks n : cancels_closed a ks → perform a (ks, n) = Undef OutOfBounds.
Proof using All.
  intros (i & c & k & -> & Hc & Hi & Hk). cbn [perform]. unfold at_object, put_back, object. by rewrite Hi, (cancel_closed_ok c k n).
Qed.
Lemma cancel_returns i c ks n base : sound ks n base → cancels c = true →
  cancels_closed (Call i c) ks ∨ ∃ ks' n', perform (Call i c) (ks, n) = Done (ks', n') () ∧ sound ks' n' base.
Proof.
  intros Hs Hc. destruct (ks !! i) as [k|] eqn:E; [|right; exists ks, n; split; [cbn; by rewrite E|done]].
  destruct (decide (m_sock k = -1)) as [Hk|Hk]; [left; by exists i, c, k|right].
  assert (Hin : m_sock k ∈ mine n).
  { destruct Hs as (-> & _). apply elem_of_union_l, elem_of_list_to_set, list_elem_of_filter. split; [done|]. by eapply list_elem_of_fmap_2, list_elem_of_lookup_2. }
  destruct (cancel_open_ok c k n Hc Hk Hin) as (n' & Hr & Hn). exists ks, n'. cbn [perform]. unfold at_object, put_back, object. rewrite E, Hr.
  rewrite (take_drop_middle ks i k E). split; [done|]. unfold sound. by rewrite Hn.
Qed.
Lemma perform_ok a ks n base : sound ks n base → cancels_closed a ks ∨ ∃ ks' n', perform a (ks, n) = Done (ks', n') () ∧ sound ks' n' base.
Proof.
  intros Hs. destruct (match a with Call _ c => cancels c | _ => false end) eqn:Hcan; [destruct a; try done; by apply cancel_returns|].
  right. assert (Hat : ∀ i k, ks !! i = Some k → sound (k :: take i ks ++ drop (S i) ks) n base).
  { intros i k Hi. rewrite <-(take_drop_middle ks i k Hi) in Hs. by rewrite Permutation_middle. }
  destruct a as [family type protocol|family|i c|i|i]; cbn [perform]; unfold at_object, put_back.
  - exists (ks ++ [Socket_new family type protocol]), n. split; [done|]. rewrite <-Permutation_cons_append, sound_cons.
    destruct Hs as (Hm & ? & ?). split; [by apply owns_none|done].
  - destruct (open_udp_ok family n) as (n' & k & -> & Ho). exists (ks ++ [k]), n'. split; [done|].
    rewrite <-Permutation_cons_append, sound_cons. destruct Hs as (<- & ? & ?). done.
  - destruct (ks !! i) as [k|] eqn:E; [|by exists ks, n]. destruct (proj1 (sound_cons _ _ _ _) (Hat i k E)) as (Ho & Hd & Hb).
    destruct (object_safe (run c) k n _ (perform_safe c Hcan) Ho) as (k' & n' & [] & -> & Ho'). eexists _, n'. split; [done|].
    rewrite <-Permutation_middle, sound_cons. done.
  - destruct (ks !! i) as [k|] eqn:E; [|by exists ks, n]. destruct (proj1 (sound_cons _ _ _ _) (Hat i k E)) as (Ho & Hd & Hb).
    destruct (accept_ok k n _ Ho) as (n' & r & Ha & Hr). unfold object. rewrite Ha. eexists _, n'. split; [done|]. destruct r as [c|].
    + change (option_list (Some c)) with [c]. rewrite <-Permutation_cons_append, <-Permutation_middle. apply sound_cons. destruct Hr as (Ho' & _ & _ & Hk).
      assert (Hks : sound (k :: take i ks ++ drop (S i) ks) n base) by (apply sound_cons; done). destruct Hks as (Hm & Hd' & Hb').
      split; [|done]. rewrite <-Hm. destruct Ho as [-> _]. done.
    + change (option_list None) with (@nil Socket). rewrite app_nil_r, <-Permutation_middle, sound_cons. done.
  - destruct (ks !! i) as [k|] eqn:E; [|by exists ks, n]. destruct (proj1 (sound_cons _ _ _ _) (Hat i k E)) as (Ho & Hd & Hb).
    destruct (close_ok k n _ Ho) as (k' & n' & b & Hc & _ & _ & Hn). unfold object. rewrite Hc. eexists _, n'. split; [done|]. done.
Qed.

Lemma performs_ok l : ∀ ks n base, sound ks n base → (∃ ks' n', performs l (ks, n) = Done (ks', n') () ∧ sound ks' n' base) ∨
  ∃ l1 a l2 ks1 n1, l = l1 ++ a :: l2 ∧ performs l1 (ks, n) = Done (ks1, n1) () ∧ sound ks1 n1 base ∧ cancels_closed a ks1 ∧ performs l (ks, n) = Undef OutOfBounds.
Proof.
  induction l as [|a l IH]; intros ks n base Hs; [left; by exists ks, n|]. cbn [performs].
  destruct (perform_ok a ks n base Hs) as [Hc|(ks1 & n1 & Hp & Hs1)].
  - right. exists [], a, l, ks, n. split; [done|]. split; [done|]. split; [done|]. split; [done|]. by apply bind_undef, perform_closed.
  - rewrite (bind_done _ _ _ _ _ Hp). destruct (IH ks1 n1 base Hs1) as [Hok|(l1 & a2 & l2 & ks2 & n2 & -> & Hl & Hs2 & Hc & Hu)]; [by left|right].
    exists (a :: l1), a2, l2, ks2, n2. cbn [performs]. by rewrite (bind_done _ _ _ _ _ Hp).
Qed.
Lemma sound_nil n : sound [] n (mine n).
Proof. split; [cbn; set_solver|]. split; [by apply NoDup_nil_2|]. cbn. set_solver. Qed.

(** C11: Whatever the program does with its socket objects - creating, opening,
    connecting, binding, accepting, closing and destroying them in any order - the
    descriptors it has open are exactly those the living objects hold, no two objects hold
    the same one, and none of the others' is touched: nothing leaks and nothing is closed
    twice.  On the threads of an IOManager every call returns, with one exception: [cancelRead], [cancelWrite],
    [cancelAccept] and [cancelAll] on an object that has no descriptor index the table of
    the IOManager at -1; everything before such a call is as above. *)
Theorem sockets_own_descriptors l n :
  (∃ ks n', performs l ([], n) = Done (ks, n') () ∧
    mine n' = list_to_set (descriptors ks) ∪ mine n ∧ NoDup (descriptors ks) ∧ list_to_set (descriptors ks) ## mine n) ∨
  (∃ l1 i c l2 ks n1 k, l = l1 ++ Call i c :: l2 ∧ cancels c = true ∧ performs l1 ([], n) = Done (ks, n1) () ∧
    mine n1 = list_to_set (descriptors ks) ∪ mine n ∧ NoDup (descriptors ks) ∧ list_to_set (descriptors ks) ## mine n ∧
    ks !! i = Some k ∧ m_sock k = -1 ∧ performs l ([], n) = Undef OutOfBounds).
Proof.
  destruct (performs_ok l [] n (mine n) (sound_nil n)) as [Hok|(l1 & a & l2 & ks & n1 & -> & Hr & Hs & (i & c & k & -> & Hc & Hi & Hk) & Hu)]; [by left|right].
  destruct Hs as (? & ? & ?). by exists l1, i, c, l2, ks, n1, k.
Qed.
End facts.
#[local] Existing Instance little_host.
Lemma sockets_own_descriptors_witness :
  let l := [New AF_INET TCP 0; Call 0 (CBind (IPv4Address (IPv4Address_new 0 80))); Call 0 (CListen SOMAXCONN); Accept 0; Accept 0;
            NewUDP AF_INET; Call 1 CClose; Call 1 CClose; Destroy 0] in
  ∃ ks n', @performs network _ little_host l ([], mkNetwork {[3]} ∅ [] [[]; []]) = Done (ks, n') () ∧
    NoDup (descriptors ks) ∧ mine n' = list_to_set (descriptors ks) ∪ {[3]}.
Proof.
  intros l. destruct (@sockets_own_descriptors network _ _ little_host l (mkNetwork {[3]} ∅ [] [[]; []])) as [(ks & n' & H1 & H2 & H3 & _)|H].
  - exists ks, n'. split; [exact H1|]. split; [exact H3|exact H2].
  - destruct H as (? & ? & ? & ? & ? & ? & ? & _ & _ & _ & _ & _ & _ & _ & _ & H). vm_compute in H. discriminate H.
Defined.
Example cancel_after_close :
  @performs network _ little_host [New AF_INET TCP 0; Call 0 (CBind (IPv4Address (IPv4Address_new 0 80))); Call 0 CCancelAll; Call 0 CClose; Call 0 CCancelAll]
    ([], mkNetwork {[3]} ∅ [] []) = Undef OutOfBounds.
Proof. vm_compute. reflexivity. Qed.
Example sockets_run :
  match @performs network _ little_host [New AF_INET TCP 0; Call 0 (CBind (IPv4Address (IPv4Address_new 0 80))); Accept 0; Accept 0; Call 1 CClose; Destroy 0]
          ([], mkNetwork {[3]} ∅ [] [[]; []]) with
  | Done (ks, n') _ => descriptors ks = [6] ∧ elements (mine n') = [3; 6]
  | _ => False
  end.
Proof. vm_compute. done. Qed.
