(* ===== verification/SocketStream.v ===== *)
(** * SocketStream ([webserve/streams/socket_stream.h], [webserve/streams/socket_stream.cc])

    The stream over a socket object.  The state of a call is the stream, the ByteArray
    that the call reads into or writes from, and the rest of the system. *)
From S2P Require Import Prelude Endian Text ByteArray FdManager Address IOManager Hook Socket Stream.
Open Scope Z_scope.

Record SocketStream := mkSocketStream { m_socket : option Socket; m_owner : bool }.
Record conn (N : Type) := mkConn { c_stream : SocketStream; c_ba : ByteArray; c_net : N }.
Arguments mkConn {N}.
Arguments c_stream {N}.
Arguments c_ba {N}.
Arguments c_net {N}.

(** What an [iovec] read stores: the segments are filled in order. *)
Definition store (i : nat) (p : Z) (d : list Z) : M ByteArray () := λ b,
  match m_nodes b !! i with
  | Some n =>
      if block_ok n p (zlen d) then Done (set_nodes (<[i := mkNode (splice p d (nd_ptr n)) (nd_size n)]> (m_nodes b)) b) ()
      else Undef OutOfBounds
  | None => Undef OutOfBounds
  end.
Fixpoint scatter (l : list (nat * Z * Z)) (d : list Z) : M ByteArray () :=
  match l with
  | [] => mret ()
  | (i, p, k) :: l => store i p (ztake k d) ;; scatter l (zdrop k d)
  end.
(** The bytes an [iovec] write hands over. *)
Fixpoint gather (l : list (nat * Z * Z)) : M ByteArray (list (list Z)) :=
  match l with
  | [] => mret []
  | (i, p, k) :: l => n ← (λ b, node_of (Some i) b); d ← copy_out n p k; rest ← gather l; mret (d :: rest)
  end.

Section socket_stream.
Context {N : Type} `{!Net N, !Host, !Alloc}.

(** ** The parts of the state *)
Definition with_ba {A} (m : M ByteArray A) : M (conn N) A := λ c,
  match m (c_ba c) with
  | Done b a => Done (mkConn (c_stream c) b (c_net c)) a
  | Raise b e => Raise (mkConn (c_stream c) b (c_net c)) e
  | Undef u => Undef u
  | NoFuel => NoFuel
  end.
(** A call of the socket object, which must be there. *)
Definition with_socket {A} (m : M (Socket * N) A) : M (conn N) A := λ c,
  match m_socket (c_stream c) with
  | None => Undef NullDeref
  | Some k =>
      match m (k, c_net c) with
      | Done (k, n) a => Done (mkConn (mkSocketStream (Some k) (m_owner (c_stream c))) (c_ba c) n) a
      | Raise (k, n) e => Raise (mkConn (mkSocketStream (Some k) (m_owner (c_stream c))) (c_ba c) n) e
      | Undef u => Undef u
      | NoFuel => NoFuel
      end
  end.

(** ** The operations *)
Definition SocketStream_new (sock : option Socket) (owner : bool) : SocketStream := mkSocketStream sock owner.
Definition isConnected (s : SocketStream) : bool := match m_socket s with Some k => Socket.m_isConnected k | None => false end.
Definition read (length : Z) : M (conn N) (Z * list Z) :=
  c ← Prelude.get;
  if negb (isConnected (c_stream c)) then mret (-1, []) else with_socket (Socket.recv length 0).
(** [setPosition(getPosition() + rt)] when something was moved. *)
Definition move (rt : Z) : M ByteArray () :=
  if rt >? 0 then p ← gets getPosition; setPosition (u64 (p + rt)) else mret ().
Definition read_ba (length : Z) : M (conn N) Z :=
  c ← Prelude.get;
  if negb (isConnected (c_stream c)) then mret (-1) else
  '(_, iovs) ← with_ba (getWriteBuffers length);
  '(rt, d) ← with_socket (Socket.recv_iov (iovs.*2) 0);
  with_ba (scatter iovs d) ;;
  with_ba (move rt) ;;
  mret rt.
Definition write (buffer : list Z) : M (conn N) Z :=
  c ← Prelude.get;
  if negb (isConnected (c_stream c)) then mret (-1) else with_socket (Socket.send buffer 0).
Definition write_ba (length : Z) : M (conn N) Z :=
  c ← Prelude.get;
  if negb (isConnected (c_stream c)) then mret (-1) else
  '(_, iovs) ← with_ba (getReadBuffers length);
  buffers ← with_ba (gather iovs);
  rt ← with_socket (Socket.send_iov buffers 0);
  with_ba (move rt) ;;
  mret rt.
Definition close : M (conn N) () :=
  c ← Prelude.get;
  match m_socket (c_stream c) with Some _ => with_socket Socket.close ;; mret () | None => mret () end.
(** [~SocketStream] *)
Definition destroy : M (conn N) () :=
  c ← Prelude.get; if m_owner (c_stream c) then close else mret ().
Definition getRemoteAddress : M (conn N) (option Address) :=
  c ← Prelude.get;
  match m_socket (c_stream c) with Some _ => Some <$> with_socket Socket.getRemoteAddress | None => mret None end.
Definition getLocalAddress : M (conn N) (option Address) :=
  c ← Prelude.get;
  match m_socket (c_stream c) with Some _ => Some <$> with_socket Socket.getLocalAddress | None => mret None end.
(** The strings; [None] where the text of a Unix path leaves its array. *)
Definition address_string (a : option Address) : option string := match a with Some a => Address_toString a | None => Some ""%string end.
Definition getRemoteAddressString : M (conn N) (option string) := address_string <$> getRemoteAddress.
Definition getLocalAddressString : M (conn N) (option string) := address_string <$> getLocalAddress.

#[export] Instance socket_stream : Stream (conn N) := {| Stream.read := read; Stream.read_ba := read_ba; Stream.write := write; Stream.write_ba := write_ba; Stream.close := close |}.
End socket_stream.
