(* ===== verification/SocketStreamFacts.v ===== *)
(** * SocketStream keeps the contract of Stream, and moves bytes between a ByteArray and the socket *)
From S2P Require Import Prelude Endian Text FdManager Address IOManager Hook Socket Network ByteArray ByteArrayFacts ByteArrayProps Stream SocketStream.
Open Scope list_scope.
Open Scope Z_scope.

(** ** Filling the segments of a walk *)
(** The segments from offset [p] of block [i] on, one block after another. *)
Fixpoint in_order (base : Z) (blocks : nat) (i : nat) (p : Z) (l : list (nat * Z * Z)) : Prop :=
  match l with
  | [] => True
  | (j, q, k) :: l => j = i ∧ q = p ∧ 0 < k ≤ base - p ∧ (i < blocks)%nat ∧ (l = [] ∨ k = base - p) ∧ in_order base blocks (S i) 0 l
  end.
Lemma walk_in_order fuel b : shape b → ∀ len i p, 0 ≤ p < m_baseSize b → 0 < len →
  Z.of_nat i * m_baseSize b + p + len ≤ m_capacity b → (List.length (m_nodes b) - i ≤ fuel)%nat → (i < List.length (m_nodes b))%nat →
  ∃ segs, walk fuel (Some i) len p (m_baseSize b - p) b = Done b segs ∧ in_order (m_baseSize b) (List.length (m_nodes b)) i p segs ∧
    total (segs.*2) = len.
Proof.
  intros Hs. pose proof (sh_base b Hs) as Hb. pose proof (sh_bound b Hs) as Hbd.
  induction fuel as [|fuel IH]; intros len i p Hp Hlen Hcap Hf Hil; [lia|].
  assert (0 ≤ Z.of_nat i * m_baseSize b) by (apply Z.mul_nonneg_nonneg; lia).
  cbn [walk]. if_true. destruct (m_baseSize b - p >=? len) eqn:Hge.
  - exists [(i, p, len)]. split; [done|]. cbn. split; [|lia]. split_and!; [done|done|lia|lia|lia|by left|done].
  - assert (Hi' : (S i < List.length (m_nodes b))%nat).
    { apply (idx_lt (m_baseSize b)); [done|]. rewrite (sh_cap b Hs) in Hcap. unfold zlen in Hcap. lia. }
    destruct (block_lookup b (S i) Hi' Hs) as (n' & Hi'' & Hnb' & _).
    destruct (IH (len - (m_baseSize b - p)) (S i) 0) as (segs & Hrun & Hin & Ht); [lia..|].
    exists ((i, p, m_baseSize b - p) :: segs). split; [|split].
    + erewrite bind_done; [|done]. unfold next_of. rewrite decide_True by done.
      erewrite bind_done; [|by unfold node_of; rewrite Hi'']. rewrite (u64_small (len - (m_baseSize b - p))), Hnb' by lia.
      rewrite Z.sub_0_r in Hrun. by erewrite bind_done; [|exact Hrun].
    + cbn. split_and!; [done|done|lia|lia|lia|by right|done].
    + cbn. unfold total in Ht. rewrite Ht. lia.
Qed.

(** Two states of one buffer that differ in the bytes of the blocks only. *)
Record rewritten (b b' : ByteArray) : Prop := {
  rw_frame : frame b b'; rw_shape : shape b'; rw_pos : m_position b' = m_position b; rw_size : m_size b' = m_size b; rw_cur : m_cur b' = m_cur b
}.
Lemma store_ok b i p d : shape b → (i < List.length (m_nodes b))%nat → Forall is_byte d → 0 ≤ p → p + zlen d ≤ m_baseSize b →
  ∃ b', store i p d b = Done b' () ∧ rewritten b b' ∧ contents b' = splice (Z.of_nat i * m_baseSize b + p) d (contents b).
Proof.
  intros Hs Hi Hd Hp Hpd. destruct (block_lookup b i Hi Hs) as (n & Hn & Hok).
  destruct (wrote_shape b i n p d Hs Hn Hd Hp Hpd) as (Hs' & Hf & Hc). exists (wrote i n p d b). split; [|split; [by split|done]].
  unfold store. rewrite Hn. destruct Hok as (_ & Hl & _).
  by rewrite (block_ok_true n p (zlen d) (m_baseSize b)) by (try apply zlen_nonneg; lia).
Qed.
Lemma scatter_nothing l : ∀ b i p, shape b → in_order (m_baseSize b) (List.length (m_nodes b)) i p l → 0 ≤ p →
  ∃ b', scatter l [] b = Done b' () ∧ rewritten b b' ∧ contents b' = contents b.
Proof.
  induction l as [|[[j q] k] l IH]; intros b i p Hs Hl Hp; cbn [scatter].
  { exists b. split; [done|]. split; [|done]. split; try done. }
  cbn [in_order] in Hl. destruct Hl as (-> & -> & Hk & Hi & _ & Hl).
  assert (ztake k (@nil Z) = []) as -> by apply take_nil. assert (zdrop k (@nil Z) = []) as -> by apply drop_nil.
  destruct (store_ok b i p []) as (b1 & Hst & [Hf Hs1 Hp1 Hz1 Hc1] & Hcon); [done..|rewrite zlen_nil; lia|].
  erewrite bind_done; [|exact Hst]. destruct (IH b1 (S i) 0) as (b' & Hrun & [Hf' Hs' Hp' Hz' Hc'] & Hcon'); [done| |lia|].
  { by rewrite (fr_base _ _ Hf), (fr_len _ _ Hf). }
  exists b'. split; [done|]. split; [split; [by eapply frame_trans|done|congruence..]|]. rewrite Hcon', Hcon.
  unfold splice. rewrite zlen_nil, Z.add_0_r. unfold ztake, zdrop. apply take_drop.
Qed.
Lemma scatter_ok l : ∀ b i p d, shape b → in_order (m_baseSize b) (List.length (m_nodes b)) i p l → 0 ≤ p < m_baseSize b → Forall is_byte d →
  zlen d ≤ total (l.*2) → Z.of_nat i * m_baseSize b + p + total (l.*2) ≤ m_capacity b →
  ∃ b', scatter l d b = Done b' () ∧ rewritten b b' ∧ contents b' = splice (Z.of_nat i * m_baseSize b + p) d (contents b).
Proof.
  induction l as [|[[j q] k] l IH]; intros b i p d Hs Hl Hp Hd Hz Hcap; cbn [scatter];
    pose proof (zlen_nonneg d); pose proof (zlen_contents b Hs) as Hlen.
  { exists b. split; [done|]. split; [done|].
    destruct d; [|rewrite zlen_cons in Hz; pose proof (zlen_nonneg d); cbn in Hz; lia]. rewrite splice_nil by (cbn in Hcap; nia). done. }
  cbn [in_order] in Hl. destruct Hl as (-> & -> & Hk & Hi & Hlast & Hl). cbn in Hz, Hcap. fold (total (l.*2)) in Hz, Hcap.
  destruct (decide (zlen d ≤ k)) as [Hle|Hgt].
  - assert (ztake k d = d) as -> by (apply take_ge; unfold zlen in Hle; lia). assert (zdrop k d = []) as -> by (apply drop_ge; unfold zlen in Hle; lia).
    destruct (store_ok b i p d) as (b1 & Hst & [Hf Hs1 Hp1 Hz1 Hc1] & Hcon); [done|done|done|lia|lia|]. erewrite bind_done; [|exact Hst].
    destruct (scatter_nothing l b1 (S i) 0) as (b' & Hrun & [Hf' Hs' Hp' Hz' Hc'] & Hcon'); [done|by rewrite (fr_base _ _ Hf), (fr_len _ _ Hf)|lia|].
    exists b'. split; [done|]. split; [split; [by eapply frame_trans|done|congruence..]|]. by rewrite Hcon', Hcon.
  - assert (Hzt : zlen (ztake k d) = k) by (apply zlen_ztake; lia).
    assert (k = m_baseSize b - p) as -> by (destruct Hlast as [->|]; [cbn in Hz; lia|done]).
    destruct (store_ok b i p (ztake (m_baseSize b - p) d)) as (b1 & Hst & [Hf Hs1 Hp1 Hz1 Hc1] & Hcon); [done|done|by apply Forall_take|lia|lia|].
    erewrite bind_done; [|exact Hst].
    destruct (IH b1 (S i) 0 (zdrop (m_baseSize b - p) d)) as (b' & Hrun & [Hf' Hs' Hp' Hz' Hc'] & Hcon');
      [done|by rewrite (fr_base _ _ Hf), (fr_len _ _ Hf)|rewrite (fr_base _ _ Hf); lia|by apply Forall_drop|rewrite zlen_zdrop; lia|rewrite (fr_base _ _ Hf), (fr_cap _ _ Hf); lia|].
    exists b'. split; [done|]. split; [split; [by eapply frame_trans|done|congruence..]|]. rewrite Hcon', Hcon, (fr_base _ _ Hf).
    replace (Z.of_nat (S i) * m_baseSize b + 0) with (Z.of_nat i * m_baseSize b + p + zlen (ztake (m_baseSize b - p) d)) by lia.
    rewrite splice_splice; [by rewrite ztake_zdrop|nia|].
    rewrite Hzt, zlen_zdrop by lia. lia.
Qed.

Section facts.
Context {N : Type} `{!Net N, !NetData N, !Host, !Alloc}.

(** ** The two directions of a ByteArray *)
Lemma getWriteBuffers_ok b len : wf b → 0 < len → room_ok b len = true → m_position b + len + m_baseSize b < 2 ^ 63 →
  ∃ b1 k iov, getWriteBuffers len b = Done b1 (len, iov) ∧ grown b b1 k ∧
    in_order (m_baseSize b1) (List.length (m_nodes b1)) (Z.to_nat (m_position b1 / m_baseSize b1)) (m_position b1 mod m_baseSize b1) iov ∧
    total (iov.*2) = len ∧ m_position b1 + len ≤ m_capacity b1.
Proof.
  intros Hwf Hl Hroom Hbd. destruct (addCapacity_ok b len) as (b1 & k & Hadd & Hg & Hlt & Hiff); [done..|].
  pose proof (gr_wf _ _ _ Hg) as Hwf1. rewrite <-(gr_pos _ _ _ Hg) in Hlt, Hiff. apply Hiff in Hroom.
  destruct (at_cursor b1 Hwf1 Hlt) as (i & n & Hat).
  destruct (at_block_facts _ _ _ _ Hat) as (Hb & (Hnb & _) & Hil & _ & Hib & Hbd').
  pose proof (ab_off _ _ _ _ Hat) as Ho. pose proof (ab_pos _ _ _ _ Hat) as Hp.
  destruct (walk_in_order (S (List.length (m_nodes b1))) b1 (wf_shape _ Hwf1) len i (m_position b1 mod m_baseSize b1))
    as (segs & Hrun & Hin & Ht); [lia..|].
  exists b1, k, segs. split; [|split; [done|]].
  - unfold getWriteBuffers. if_false. erewrite bind_done; [|exact Hadd]. erewrite bind_done; [|done]. erewrite bind_done; [|apply mod_base_done; lia].
    erewrite bind_done; [|eapply cur_node_done; apply Hat]. rewrite Hnb, u64_small, (ab_cur _ _ _ _ Hat) by lia.
    by erewrite bind_done; [|exact Hrun].
  - split; [|split; [done|lia]]. replace (Z.to_nat (m_position b1 / m_baseSize b1)) with i; [done|].
    rewrite Hp. rewrite Z.div_add_l, (Z.div_small (m_position b1 mod m_baseSize b1)) by lia. lia.
Qed.
(** What is received into the write buffers is what [put] writes. *)
Lemma fill_ok b len : wf b → 0 < len → room_ok b len = true → m_position b + len + m_baseSize b < 2 ^ 63 →
  ∃ b1 iov, getWriteBuffers len b = Done b1 (len, iov) ∧ Forall (λ k, 0 ≤ k) (iov.*2) ∧ total (iov.*2) = len ∧
    ∀ r d, -1 ≤ r ≤ len → zlen d = Z.max 0 r → Forall is_byte d →
      ∃ b', (scatter iov d ;; move r) b1 = Done b' () ∧ becomes b b' (put (data b) (m_position b) d) (m_position b + zlen d) ∧
        m_position b + len ≤ m_capacity b'.
Proof.
  intros Hwf Hl Hroom Hbd. destruct (getWriteBuffers_ok b len) as (b1 & k & iov & Hrun & Hg & Hin & Ht & Hcap); [done..|].
  exists b1, iov. split; [done|]. split; [|split; [done|]].
  { clear -Hin. revert Hin. generalize (Z.to_nat (m_position b1 / m_baseSize b1)) (m_position b1 mod m_baseSize b1).
    induction iov as [|[[j q] n] iov IH]; intros i p Hin; [constructor|]. destruct Hin as (_ & _ & Hk & _ & _ & Hin). constructor; [cbn; lia|by eapply IH]. }
  intros r d Hr Hz Hd. pose proof (gr_wf _ _ _ Hg) as Hwf1. pose proof (wf_shape _ Hwf1) as Hs1. pose proof (sh_base _ Hs1) as Hb.
  pose proof (wf_pos _ Hwf1) as Hpos. pose proof (wf_size _ Hwf1) as Hsz. destruct (cursor_split (m_baseSize b1) (m_position b1)) as [Hm Hsplit]; [lia..|].
  destruct (scatter_ok iov b1 _ _ d Hs1 Hin) as (b2 & Hsc & [Hf Hs2 Hp2 Hz2 Hc2] & Hcon); [lia|done|lia|lia|]. rewrite <-Hsplit in Hcon.
  erewrite bind_done; [|exact Hsc].
  assert (Hwf2 : wf b2).
  { split; [done|lia|rewrite Hz2, (fr_cap _ _ Hf); lia|]. rewrite Hc2, Hp2, (fr_base _ _ Hf), (fr_cap _ _ Hf). apply Hwf1. }
  pose proof (zlen_contents b1 Hs1) as Hlen. pose proof (gr_pos _ _ _ Hg) as Hgp. pose proof (sh_bound _ Hs1).
  unfold move. destruct (r >? 0) eqn:E.
  - erewrite bind_done; [|done]. unfold getPosition. rewrite Hp2, u64_small by lia.
    destruct (setPosition_cases b2 (m_position b1 + r) Hwf2) as [_ (b3 & Hset & [Hwf3 Hd3 Hp3 Hb3 He3] & Hc3)]; [lia|rewrite (fr_cap _ _ Hf); lia|].
    exists b3. split; [exact Hset|]. split; [|rewrite Hc3, (fr_cap _ _ Hf); lia]. split; [done| |rewrite Hp3; lia|rewrite Hb3, (fr_base _ _ Hf); apply Hg|rewrite He3, (fr_endian _ _ Hf); apply Hg].
    unfold put. rewrite Hd3. rewrite <-(grown_data b b1 k Hwf Hg), <-Hgp. unfold data. rewrite Hz2, Hcon.
    rewrite <-data_splice by lia. destruct (decide (m_position b1 + r ≤ m_size b1)).
    + rewrite slice_neg, app_nil_r by lia. f_equal. lia.
    + rewrite <-ztake_app_split by lia. f_equal. lia.
  - assert (d = []) as -> by (destruct d; [done|rewrite zlen_cons in Hz; pose proof (zlen_nonneg d); lia]).
    exists b2. split; [done|]. split; [|rewrite (fr_cap _ _ Hf); lia]. rewrite zlen_nil, Z.add_0_r. unfold put. rewrite zlen_nil, Z.add_0_r. cbn [app].
    split; [done| |lia|rewrite (fr_base _ _ Hf); apply Hg|rewrite (fr_endian _ _ Hf); apply Hg].
    rewrite ztake_zdrop, <-(grown_data b b1 k Hwf Hg). unfold data. rewrite Hz2, Hcon, splice_nil by lia. done.
Qed.
Lemma gather_ok b iov : Forall (seg_in b) iov → ∃ ds, gather iov b = Done b ds ∧ List.concat ds = segs_bytes b iov.
Proof.
  induction 1 as [|[[i p] k] iov (n & Hi & Hok & _) _ (ds & Hr & Hc)]; [by exists []|]. cbn in Hi, Hok. exists (slice p k (nd_ptr n) :: ds).
  cbn [gather]. split.
  - erewrite bind_done; [|by unfold node_of; rewrite Hi]. unfold copy_out. rewrite Hok. erewrite bind_done; [|done]. by erewrite bind_done; [|exact Hr].
  - unfold segs_bytes in *. cbn. rewrite <-Hc. unfold seg_bytes; cbn. by rewrite Hi.
Qed.
Lemma move_back b r len : wf b → r ≤ len → 0 ≤ len → len ≤ m_size b - m_position b →
  ∃ b', move r b = Done b' () ∧ becomes b b' (data b) (m_position b + Z.max 0 r).
Proof.
  intros Hwf Hr Hl Hle. pose proof (wf_pos _ Hwf). pose proof (wf_size _ Hwf). pose proof (sh_bound _ (wf_shape _ Hwf)). unfold move.
  destruct (r >? 0) eqn:E.
  - erewrite bind_done; [|done]. unfold getPosition. rewrite u64_small by lia. rewrite Z.max_r by lia.
    destruct (setPosition_back b (m_position b + r)) as (b' & Hs & Hb & _); [done|lia|]. by exists b'.
  - exists b. split; [done|]. split; try done. lia.
Qed.

(** ** The calls of the socket *)
Notation received := (received arriving sent).
Notation delivered := (delivered arriving sent).
Lemma small_int r len : -1 ≤ r ≤ Z.min len 0x7ffff000 → s32 r = r.
Proof. intros. apply s32_small. lia. Qed.
Lemma recv_ok k n len : Socket.m_isConnected k = true → 0 ≤ len → ∃ n' r d, Socket.recv len 0 (k, n) = Done (k, n') (r, d) ∧ received (m_sock k) len n n' r d.
Proof.
  intros Hk Hl. destruct (recv_data (m_sock k) len n Hl) as (n' & r & d & Hr & Hd). exists n', r, d. split; [|done].
  unfold Socket.recv, connected, this. erewrite bind_done; [|done]. cbn [fst]. rewrite Hk. unfold net. rewrite (fmap_done _ _ _ _ _ Hr).
  unfold to_int. cbn. by rewrite (small_int r len) by apply Hd.
Qed.
Lemma recv_iov_ok k n lens : Socket.m_isConnected k = true → Forall (λ l, 0 ≤ l) lens →
  ∃ n' r d, Socket.recv_iov lens 0 (k, n) = Done (k, n') (r, d) ∧ received (m_sock k) (total lens) n n' r d.
Proof.
  intros Hk Hl. destruct (recvmsg_data (m_sock k) lens n Hl) as (n' & r & d & Hr & Hd). exists n', r, d. split; [|done].
  unfold Socket.recv_iov, connected, this. erewrite bind_done; [|done]. cbn [fst]. rewrite Hk. unfold net. rewrite (fmap_done _ _ _ _ _ Hr).
  unfold to_int. cbn. by rewrite (small_int r (total lens)) by apply Hd.
Qed.
Lemma send_ok k n d : Socket.m_isConnected k = true → ∃ n' r, Socket.send d 0 (k, n) = Done (k, n') r ∧ delivered (m_sock k) d n n' r.
Proof.
  intros Hk. destruct (send_data (m_sock k) d n) as (n' & r & Hr & Hd). exists n', r. split; [|done].
  unfold Socket.send, connected, this. erewrite bind_done; [|done]. cbn [fst]. rewrite Hk. unfold net. rewrite (fmap_done _ _ _ _ _ Hr).
  by rewrite (small_int r (zlen d)) by apply Hd.
Qed.
Lemma send_iov_ok k n ds : Socket.m_isConnected k = true → ∃ n' r, Socket.send_iov ds 0 (k, n) = Done (k, n') r ∧ delivered (m_sock k) (List.concat ds) n n' r.
Proof.
  intros Hk. destruct (sendmsg_data (m_sock k) ds n) as (n' & r & Hr & Hd). exists n', r. split; [|done].
  unfold Socket.send_iov, connected, this. erewrite bind_done; [|done]. cbn [fst]. rewrite Hk. unfold net. rewrite (fmap_done _ _ _ _ _ Hr).
  by rewrite (small_int r (zlen (List.concat ds))) by apply Hd.
Qed.

(** ** The contract of Stream *)
Implicit Types (c : conn N).
Definition live c : bool := isConnected (c_stream c).
(** What the peer has sent and is to be read; what went out through any descriptor. *)
Definition to_read c : list Z := match m_socket (c_stream c) with Some k => if Socket.m_isConnected k then arriving (m_sock k) (c_net c) else [] | None => [] end.
Definition went_out (n : N) : list Z := List.concat (sent n).*2.
Definition on_net c (n : N) : conn N := mkConn (c_stream c) (c_ba c) n.
Definition on_ba c (b : ByteArray) : conn N := mkConn (c_stream c) b (c_net c).
Lemma live_socket c : live c = true → ∃ k, m_socket (c_stream c) = Some k ∧ Socket.m_isConnected k = true.
Proof. unfold live, isConnected. destruct (m_socket (c_stream c)) as [k|]; [|done]. intros. by exists k. Qed.
Lemma with_socket_done {A} (m : M (Socket * N) A) c k n a : m_socket (c_stream c) = Some k → m (k, c_net c) = Done (k, n) a →
  with_socket m c = Done (on_net c n) a.
Proof. intros Hk Hm. unfold with_socket. rewrite Hk, Hm. destruct c as [[s o] b n0]. cbn in *. by subst. Qed.
Lemma with_ba_done {A} (m : M ByteArray A) c b a : m (c_ba c) = Done b a → with_ba m c = Done (on_ba c b) a.
Proof. intros Hm. unfold with_ba. by rewrite Hm. Qed.
Lemma went_out_delivered fd d n n' r : delivered fd d n n' r → went_out n' = went_out n ++ (if 0 <? r then ztake r d else []).
Proof. intros (_ & Hs & _). unfold went_out. rewrite Hs, fmap_app, concat_app. f_equal. destruct (0 <? r); cbn; by rewrite ?app_nil_r. Qed.

Lemma read_contract len c : 0 ≤ len → ∃ c' r d, read len c = Done c' (r, d) ∧ r ≤ len ∧ - 2 ^ 31 ≤ r ∧ went_out (c_net c') = went_out (c_net c) ∧
  zlen d = Z.max 0 r ∧ to_read c = d ++ to_read c' ∧ c_ba c' = c_ba c ∧ c_stream c' = c_stream c.
Proof.
  intros Hl. unfold read. erewrite bind_done; [|done]. fold (live c). destruct (live c) eqn:Hc; cbn [negb].
  - destruct (live_socket c Hc) as (k & Hk & Hco). destruct (recv_ok k (c_net c) len Hco Hl) as (n' & r & d & Hr & (Hb & Hz & Hd & Ha & Hs)).
    exists (on_net c n'), r, d. split; [by eapply with_socket_done|]. unfold to_read, went_out. cbn. rewrite Hk, Hco, Hs. split_and!; (done || lia).
  - exists c, (-1), []. split_and!; (done || lia).
Qed.
Lemma write_contract d c : ∃ c' r, write d c = Done c' r ∧ r ≤ zlen d ∧ - 2 ^ 31 ≤ r ∧ to_read c' = to_read c ∧
  went_out (c_net c') = went_out (c_net c) ++ (if 0 <? r then ztake r d else []).
Proof.
  unfold write. erewrite bind_done; [|done]. fold (live c). pose proof (zlen_nonneg d). destruct (live c) eqn:Hc; cbn [negb].
  - destruct (live_socket c Hc) as (k & Hk & Hco). destruct (send_ok k (c_net c) d Hco) as (n' & r & Hr & Hd).
    exists (on_net c n'), r. split; [by eapply with_socket_done|]. pose proof (went_out_delivered _ _ _ _ _ Hd). destruct Hd as (Hb & _ & Ha).
    unfold to_read. cbn. rewrite Hk, Hco, Ha. split_and!; (done || lia).
  - exists c, (-1). rewrite app_nil_r. split_and!; (done || lia).
Qed.
Lemma socket_close_sent k n : ∃ k' n' b, Socket.close (k, n) = Done (k', n') b ∧ Socket.m_isConnected k' = false ∧ sent n' = sent n.
Proof.
  unfold Socket.close. rewrite (bind_done _ _ (k, n) (k, n) k) by done. destruct (m_sock k =? -1) eqn:E.
  - destruct (Socket.m_isConnected k) eqn:Ec; cbn [negb andb]; [by exists (set_connected false k), n, false|by exists k, n, true].
  - rewrite andb_false_r. cbn [negb]. rewrite (bind_done _ _ (k, n) (set_connected false k, n) ()) by done.
    destruct (close_data (m_sock k) n) as (n' & r & Hc & Hs). exists (set_sock (-1) (set_connected false k)), n', false.
    split; [|done]. erewrite bind_done; [|erewrite bind_done; [reflexivity|]; unfold net; rewrite Hc; reflexivity]. reflexivity.
Qed.
Lemma close_contract c : ∃ c', close c = Done c' () ∧ live c' = false ∧ went_out (c_net c') = went_out (c_net c).
Proof.
  unfold close. erewrite bind_done; [|done]. destruct (m_socket (c_stream c)) as [k|] eqn:Hk.
  - destruct (socket_close_sent k (c_net c)) as (k' & n' & b & Hc & Hco & Hs). exists (mkConn (mkSocketStream (Some k') (m_owner (c_stream c))) (c_ba c) n').
    split; [|split; [done|by unfold went_out; cbn; rewrite Hs]].
    rewrite (bind_done _ _ c (mkConn (mkSocketStream (Some k') (m_owner (c_stream c))) (c_ba c) n') b); [done|].
    unfold with_socket. rewrite Hk. cbn [fst snd]. by rewrite Hc.
  - exists c. split; [done|]. unfold live, isConnected. by rewrite Hk.
Qed.
#[export, refine] Instance socket_stream_laws : StreamLaws (conn N) :=
  {| Stream.incoming := to_read; Stream.outgoing c := went_out (c_net c); Stream.stream_closed c := negb (live c) |}.
Proof using All.
  - intros n c Hn. destruct (read_contract n c) as (c' & r & d & Hr & H1 & H2 & H3 & H4 & H5 & _); [lia|]. exists c', r, d.
    split_and!; try done. destruct (0 <? r) eqn:E; [split; [lia|done]|].
    assert (d = []) as -> by (destruct d; [done|rewrite zlen_cons in H4; pose proof (zlen_nonneg d); lia]). done.
  - intros d c Hd. destruct (write_contract d c) as (c' & r & Hr & ? & ? & ? & ?). by exists c', r.
  - intros c. destruct (close_contract c) as (c' & Hr & Hl & Ho). exists c'. by rewrite Hl.
Defined.

(** ** Reading into and writing from a ByteArray *)
Lemma read_ba_ok len c : wf (c_ba c) → 0 ≤ len → room_ok (c_ba c) len = true → m_position (c_ba c) + len + m_baseSize (c_ba c) < 2 ^ 63 →
  ∃ c' r d, read_ba len c = Done c' r ∧ -1 ≤ r ≤ len ∧ zlen d = Z.max 0 r ∧ to_read c = d ++ to_read c' ∧ went_out (c_net c') = went_out (c_net c) ∧
    becomes (c_ba c) (c_ba c') (put (data (c_ba c)) (m_position (c_ba c)) d) (m_position (c_ba c) + zlen d) ∧
    (0 < r → m_position (c_ba c) + len ≤ m_capacity (c_ba c')).
Proof.
  intros Hwf Hl Hroom Hbd. pose proof (wf_pos _ Hwf). assert (Hput : put (data (c_ba c)) (m_position (c_ba c)) [] = data (c_ba c)).
  { unfold put. rewrite zlen_nil, Z.add_0_r. cbn [app]. apply ztake_zdrop. }
  unfold read_ba. erewrite bind_done; [|done]. fold (live c). destruct (live c) eqn:Hc; cbn [negb].
  2:{ exists c, (-1), []. rewrite zlen_nil, Hput. split_and!; try (done || lia). split; try done. lia. }
  destruct (live_socket c Hc) as (k & Hk & Hco).
  assert (Hfill : ∃ b1 iov, getWriteBuffers len (c_ba c) = Done b1 (len, iov) ∧ Forall (λ k, 0 ≤ k) (iov.*2) ∧ total (iov.*2) = len ∧
    ∀ r d, -1 ≤ r ≤ len → zlen d = Z.max 0 r → Forall is_byte d → ∃ b', (scatter iov d ;; move r) b1 = Done b' () ∧
      becomes (c_ba c) b' (put (data (c_ba c)) (m_position (c_ba c)) d) (m_position (c_ba c) + zlen d) ∧ (0 < r → m_position (c_ba c) + len ≤ m_capacity b')).
  { destruct (decide (len = 0)) as [->|]; [|].
    2:{ destruct (fill_ok (c_ba c) len) as (b1 & iov & ? & ? & ? & Hf); [done|lia|done|done|]. exists b1, iov. split_and!; try done.
      intros r d Hr Hz Hd. destruct (Hf r d Hr Hz Hd) as (b' & ? & ? & ?). by exists b'. } exists (c_ba c), []. split; [done|]. split; [constructor|]. split; [done|].
    intros r d Hr Hz _. assert (d = []) as -> by (destruct d; [done|rewrite zlen_cons in Hz; pose proof (zlen_nonneg d); lia]).
    exists (c_ba c). unfold move. replace (r >? 0) with false by lia. rewrite zlen_nil, Hput. split; [done|]. split; [split; try done; lia|lia]. }
  destruct Hfill as (b1 & iov & Hw & Hpos & Ht & Hfill). erewrite bind_done; [|by apply with_ba_done]. cbn beta iota.
  destruct (recv_iov_ok k (c_net c) (iov.*2) Hco Hpos) as (n' & r & d & Hr & (Hb & Hz & Hd & Ha & Hs)).
  erewrite bind_done; [|eapply with_socket_done; [exact Hk|exact Hr]]. cbn beta iota.
  destruct (Hfill r d) as (b' & Hm & Hbc & Hcap); [lia|done|done|].
  exists (on_ba (on_net (on_ba c b1) n') b'), r, d. split; [|unfold to_read, went_out; cbn; rewrite Hk, Hco, Hs; split_and!; (done || lia)].
  unfold mbind, M_bind in Hm |- *. cbn. unfold with_ba. cbn. destruct (scatter iov d b1) as [b2 []| | |]; cbn in *; try done. by rewrite Hm.
Qed.
Lemma write_ba_ok len c : wf (c_ba c) → 0 ≤ len →
  ∃ c' r, write_ba len c = Done c' r ∧ -1 ≤ r ≤ Z.min len (m_size (c_ba c) - m_position (c_ba c)) ∧ to_read c' = to_read c ∧
    went_out (c_net c') = went_out (c_net c) ++ slice (m_position (c_ba c)) (Z.max 0 r) (data (c_ba c)) ∧
    becomes (c_ba c) (c_ba c') (data (c_ba c)) (m_position (c_ba c) + Z.max 0 r).
Proof.
  intros Hwf Hl. pose proof (wf_pos _ Hwf). unfold write_ba. erewrite bind_done; [|done]. fold (live c). destruct (live c) eqn:Hc; cbn [negb].
  2:{ exists c, (-1). rewrite slice_0, app_nil_r. split_and!; try (done || lia). split; try done. lia. }
  destruct (live_socket c Hc) as (k & Hk & Hco). destruct (getReadBuffers_ok (c_ba c) len Hwf Hl) as (iov & Hr & Hin & Hby).
  set (n := Z.min len (m_size (c_ba c) - m_position (c_ba c))) in *.
  assert (Hzn : zlen (slice (m_position (c_ba c)) n (data (c_ba c))) = n) by (apply zlen_slice; rewrite ?zlen_data by done; lia).
  destruct (gather_ok _ _ Hin) as (ds & Hg & Hds). rewrite Hby in Hds.
  destruct (send_iov_ok k (c_net c) ds Hco) as (n' & r & Hs & Hd). pose proof (went_out_delivered _ _ _ _ _ Hd) as Ho.
  destruct Hd as (Hb & _ & Ha). rewrite Hds, Hzn in Hb. destruct (move_back (c_ba c) r n Hwf) as (b' & Hm & Hbc); [lia..|].
  assert (Hon : ∀ c, on_ba c (c_ba c) = c) by (by intros []).
  exists (on_ba (on_net c n') b'), r. split; [|split; [lia|split; [unfold to_read; cbn; by rewrite Hk, Hco, Ha|split; [|done]]]].
  - erewrite bind_done; [|by apply with_ba_done]. cbn beta iota. rewrite Hon. erewrite bind_done; [|by apply with_ba_done]. rewrite Hon.
    erewrite bind_done; [|eapply with_socket_done; [exact Hk|exact Hs]]. by erewrite bind_done; [|by apply with_ba_done].
  - cbn. rewrite Ho, Hds. f_equal. destruct (0 <? r) eqn:E; [|by rewrite Z.max_l, slice_0 by lia].
    rewrite Z.max_r by lia. unfold slice, ztake. rewrite take_take. f_equal. lia.
Qed.

Lemma becomes_trans b1 b2 b3 d2 p2 d3 p3 : becomes b1 b2 d2 p2 → becomes b2 b3 d3 p3 → becomes b1 b3 d3 p3.
Proof. intros [] []. split; congruence. Qed.
Lemma room_ok_enough b n : m_position b + n ≤ m_capacity b → room_ok b n = true.
Proof. intros. unfold room_ok. rewrite (proj2 (Z.leb_le n _)) by lia. done. Qed.
Lemma becomes_same b : wf b → becomes b b (data b) (m_position b).
Proof. by split. Qed.
Lemma put_none b : put (data b) (m_position b) [] = data b.
Proof. unfold put. rewrite zlen_nil, Z.add_0_r. cbn [app]. apply ztake_zdrop. Qed.
Lemma readFixSize_loop_done fuel : ∀ left c, wf (c_ba c) → 0 ≤ left ≤ Z.of_nat fuel → room_ok (c_ba c) left = true →
  m_position (c_ba c) + left + m_baseSize (c_ba c) < 2 ^ 63 →
  ∃ c' early d, readFixSize_ba_loop fuel left c = Done c' early ∧ to_read c = d ++ to_read c' ∧
    becomes (c_ba c) (c_ba c') (put (data (c_ba c)) (m_position (c_ba c)) d) (m_position (c_ba c) + zlen d) ∧
    match early with Some r => -1 ≤ r ≤ 0 ∧ zlen d < left | None => zlen d = left end.
Proof.
  induction fuel as [|fuel IH]; intros left c Hwf Hl Hroom Hbd; cbn [readFixSize_ba_loop]; pose proof (sh_base _ (wf_shape _ Hwf)) as Hb0.
  { if_false. exists c, None, []. rewrite put_none, zlen_nil, Z.add_0_r. split_and!; [done|done|by apply becomes_same|lia]. }
  destruct (left >? 0) eqn:Hpos.
  2:{ exists c, None, []. rewrite put_none, zlen_nil, Z.add_0_r. split_and!; [done|done|by apply becomes_same|lia]. }
  destruct (read_ba_ok left c) as (c1 & r & d & Hr & Hb & Hz & Hin & _ & Hbc & Hcap); [done|lia|done|done|].
  erewrite bind_done; [|exact Hr]. pose proof (wf_pos _ Hwf). pose proof (zlen_data _ Hwf).
  destruct (r <=? 0) eqn:E.
  - exists c1, (Some r), d. split; [done|]. split; [done|]. split; [done|lia].
  - rewrite s64_small by lia. pose proof Hbc as [Hwf1 Hd1 Hp1 Hb1 He1].
    destruct (IH (left - r) c1) as (c' & early & d' & -> & Hin' & Hbc' & Hearly); [done|lia|apply room_ok_enough; lia|lia|].
    exists c', early, (d ++ d'). split; [done|]. split; [by rewrite Hin, Hin', app_assoc|]. rewrite zlen_app. split.
    + rewrite Hd1, Hp1, put_put in Hbc' by lia. rewrite Z.add_assoc. by eapply becomes_trans.
    + destruct early; lia.
Qed.
Lemma writeFixSize_loop_done fuel : ∀ left c, wf (c_ba c) → 0 ≤ left ≤ Z.of_nat fuel → left < 2 ^ 63 → left ≤ m_size (c_ba c) - m_position (c_ba c) →
  ∃ c' early n, writeFixSize_ba_loop fuel left c = Done c' early ∧
    went_out (c_net c') = went_out (c_net c) ++ slice (m_position (c_ba c)) n (data (c_ba c)) ∧
    becomes (c_ba c) (c_ba c') (data (c_ba c)) (m_position (c_ba c) + n) ∧
    match early with Some r => -1 ≤ r ≤ 0 ∧ 0 ≤ n < left | None => n = left end.
Proof.
  induction fuel as [|fuel IH]; intros left c Hwf Hl Hbd Hle; cbn [writeFixSize_ba_loop].
  { if_false. exists c, None, 0. rewrite slice_0, app_nil_r, Z.add_0_r. split_and!; [done|done|by apply becomes_same|lia]. }
  destruct (left >? 0) eqn:Hpos.
  2:{ exists c, None, 0. rewrite slice_0, app_nil_r, Z.add_0_r. split_and!; [done|done|by apply becomes_same|lia]. }
  destruct (write_ba_ok left c) as (c1 & r & Hr & Hb & _ & Ho & Hbc); [done|lia|]. erewrite bind_done; [|exact Hr]. pose proof (wf_pos _ Hwf).
  destruct (r <=? 0) eqn:E.
  - exists c1, (Some r), 0. rewrite Z.max_l in Ho, Hbc by lia. split_and!; (done || lia).
  - rewrite Z.max_r in Ho, Hbc by lia. rewrite s64_small by lia. pose proof Hbc as [Hwf1 Hd1 Hp1 Hb1 He1].
    pose proof (zlen_data _ Hwf) as Hz. pose proof (zlen_data _ Hwf1) as Hz1. rewrite Hd1 in Hz1.
    destruct (IH (left - r) c1) as (c' & early & n & -> & Ho' & Hbc' & Hearly); [done|lia..|].
    assert (0 ≤ n) by (destruct early; lia).
    exists c', early, (r + n). split; [done|]. rewrite Hd1, Hp1 in Ho', Hbc'. split; [by rewrite Ho', Ho, <-app_assoc, slice_split by lia|].
    split; [|destruct early; lia]. rewrite Z.add_assoc. by eapply becomes_trans.
Qed.

(** Reading from the socket into a ByteArray puts what was received at the position of
    the array, over what was there, and moves the position behind it; a call that receives
    nothing, or on a stream that is not connected, changes no data. *)
Theorem socket_read_into len c : wf (c_ba c) → 0 ≤ len → room_ok (c_ba c) len = true → m_position (c_ba c) + len + m_baseSize (c_ba c) < 2 ^ 63 →
  ∃ c' r d, read_ba len c = Done c' r ∧ -1 ≤ r ≤ len ∧ zlen d = Z.max 0 r ∧ to_read c = d ++ to_read c' ∧ went_out (c_net c') = went_out (c_net c) ∧
    becomes (c_ba c) (c_ba c') (put (data (c_ba c)) (m_position (c_ba c)) d) (m_position (c_ba c) + zlen d).
Proof.
  intros Hwf Hl Hroom Hbd. destruct (read_ba_ok len c Hwf Hl Hroom Hbd) as (c' & r & d & ? & ? & ? & ? & ? & ? & _). by exists c', r, d.
Qed.

(** C22: What a ByteArray sends through one connection arrives in the ByteArray at the other
    end: when the fixed-size write and read both report the whole length, and the reader's
    connection carries what the writer sent, the reader's array holds the writer's bytes at
    its position, and both positions are behind them. *)
Theorem byte_array_travels len c1 c2 : wf (c_ba c1) → wf (c_ba c2) → 0 < len < 2 ^ 31 →
  len ≤ m_size (c_ba c1) - m_position (c_ba c1) → room_ok (c_ba c2) len = true → m_position (c_ba c2) + len + m_baseSize (c_ba c2) < 2 ^ 63 →
  ∃ c1' r1, writeFixSize_ba len c1 = Done c1' r1 ∧
    ∀ out rest, went_out (c_net c1') = went_out (c_net c1) ++ out → to_read c2 = out ++ rest →
    ∃ c2' r2, readFixSize_ba len c2 = Done c2' r2 ∧ (r1 = len → r2 = len →
      becomes (c_ba c1) (c_ba c1') (data (c_ba c1)) (m_position (c_ba c1) + len) ∧
      becomes (c_ba c2) (c_ba c2') (put (data (c_ba c2)) (m_position (c_ba c2)) (slice (m_position (c_ba c1)) len (data (c_ba c1))))
        (m_position (c_ba c2) + len) ∧
      to_read c2' = rest).
Proof.
  intros Hwf1 Hwf2 Hl Hle Hroom Hbd. pose proof (wf_pos _ Hwf1).
  destruct (writeFixSize_loop_done (Z.to_nat len) len c1) as (c & early & n & Hrun & Ho & Hbc & He); [done|lia..|].
  destruct (readFixSize_loop_done (Z.to_nat len) len c2) as (c2' & early2 & d & Hrun2 & Hin2 & Hbc2 & He2); [done|lia|done|done|].
  exists c. eexists. unfold writeFixSize_ba, readFixSize_ba. rewrite (s64_small len), (s32_small len) by lia.
  split; [by erewrite bind_done; [|exact Hrun]|]. intros out rest Hout Hin. exists c2'. eexists. split; [by erewrite bind_done; [|exact Hrun2]|].
  rewrite Ho in Hout. apply app_inv_head in Hout as <-.
  destruct early as [r|]; [rewrite s32_small by lia; intros; lia|subst n; intros _].
  destruct early2 as [r|]; [rewrite s32_small by lia; intros; lia|intros _].
  assert (Hz : zlen (slice (m_position (c_ba c1)) len (data (c_ba c1))) = zlen d).
  { rewrite He2. apply zlen_slice; rewrite ?zlen_data by done; lia. }
  rewrite Hin2 in Hin. apply app_inj_1 in Hin as [-> ->]; [|unfold zlen in Hz; lia]. rewrite He2 in Hbc2. done.
Qed.
End facts.

#[local] Existing Instance little_host.
#[local] Existing Instance zero_alloc.
(** A connection of the small network, over descriptor 4, with the bytes that arrive. *)
Definition network_conn (b : ByteArray) (data : list Z) : conn network :=
  mkConn (mkSocketStream (Some (mkSocket 4 AF_INET TCP 0 true None None)) true) b (mkNetwork {[4]} {[4 := data]} [] []).
Definition three_bytes : ByteArray := mkByteArray 4 0 4 3 SYLAR_BIG_ENDIAN [mkNode [7; 8; 9; 0] 4] (Some 0%nat).
Lemma three_bytes_wf : wf three_bytes.
Proof.
  split; [|cbn; lia..|done]. split; try (cbn; lia); [done| |done]. constructor; [|done]. split; [done|]. split; [done|]. solve_bytes.
Qed.
Lemma socket_read_into_witness :
  ∃ c' r d, read_ba 8 (network_conn (ByteArray_new 4) [1; 2; 3; 4; 5]) = Done c' r ∧
    zlen d = Z.max 0 r ∧ [1; 2; 3; 4; 5] = d ++ to_read c' ∧ data (c_ba c') = put [] 0 d.
Proof.
  destruct (socket_read_into 8 (network_conn (ByteArray_new 4) [1; 2; 3; 4; 5]))
    as (c' & r & d & H1 & H2 & H3 & H4 & H5 & H6).
  - apply ByteArray_new_wf. lia.
  - lia.
  - vm_compute. reflexivity.
  - cbn. lia.
  - exists c', r, d. split; [exact H1|]. split; [exact H3|]. split; [exact H4|]. exact (bc_data _ _ _ _ H6).
Defined.
Lemma byte_array_travels_witness :
  ∃ c1' r1, writeFixSize_ba 3 (network_conn three_bytes []) = Done c1' r1 ∧ r1 = 3 ∧
  ∃ c2' r2, readFixSize_ba 3 (network_conn (ByteArray_new 4) [7; 8; 9; 10]) = Done c2' r2 ∧
    r2 = 3 ∧ data (c_ba c2') = [7; 8; 9] ∧ to_read c2' = [10].
Proof.
  destruct (byte_array_travels 3 (network_conn three_bytes []) (network_conn (ByteArray_new 4) [7; 8; 9; 10]))
    as (c1' & r1 & H1 & H2).
  - exact three_bytes_wf.
  - apply ByteArray_new_wf. lia.
  - lia.
  - cbn. lia.
  - vm_compute. reflexivity.
  - cbn. lia.
  - exists c1', r1. split; [exact H1|]. vm_compute in H1. injection H1 as <- <-. split; [reflexivity|].
    destruct (H2 [7; 8; 9] [10]) as (c2' & r2 & H3 & H4); [vm_compute; reflexivity..|].
    exists c2', r2. split; [exact H3|]. assert (r2 = 3) as -> by (vm_compute in H3; injection H3 as <- <-; reflexivity).
    split; [reflexivity|]. destruct (H4 eq_refl eq_refl) as (_ & H5 & H6). split; [exact (bc_data _ _ _ _ H5)|exact H6].
Defined.
