(* ===== verification/TcpServerConf.v ===== *)
(** * TcpServerConf ([webserve/tcp_server.h]): the configuration of a server *)
From S2P Require Import Prelude Text.
Open Scope string_scope.
Open Scope Z_scope.

Record TcpServerConf := mkTcpServerConf {
  address : list string; keepalive : Z; timeout : Z; ssl : Z; id : string; type : string; name : string;
  cert_file : string; key_file : string; accept_worker : string; io_worker : string; process_worker : string;
  args : gmap string string
}.
Definition TcpServerConf_default : TcpServerConf := mkTcpServerConf [] 0 (1000 * 2 * 60) 0 "" "http" "" "" "" "" "" "" ∅.
Definition isValid (c : TcpServerConf) : bool := bool_decide (address c ≠ []).
(** [operator==], in the order of the code. *)
Definition conf_eqb (c oth : TcpServerConf) : bool :=
  bool_decide (address c = address oth) && (keepalive c =? keepalive oth) && (timeout c =? timeout oth) && String.eqb (name c) (name oth) &&
  (ssl c =? ssl oth) && String.eqb (cert_file c) (cert_file oth) && String.eqb (key_file c) (key_file oth) &&
  String.eqb (accept_worker c) (accept_worker oth) && String.eqb (io_worker c) (io_worker oth) &&
  String.eqb (process_worker c) (process_worker oth) && bool_decide (args c = args oth) && String.eqb (id c) (id oth) && String.eqb (type c) (type oth).
Lemma conf_eqb_eq c oth : conf_eqb c oth = true ↔ c = oth.
Proof.
  unfold conf_eqb. rewrite !andb_true_iff, !bool_decide_eq_true, !Z.eqb_eq, !String.eqb_eq.
  split; [|by intros ->; split_and!]. intros H. destruct_and? H. destruct c, oth. cbn in *. by subst.
Qed.
#[export] Instance TcpServerConf_eq_dec : EqDecision TcpServerConf.
Proof. intros c oth. destruct (conf_eqb c oth) eqn:E; [left; by apply conf_eqb_eq|right; intros H%conf_eqb_eq; congruence]. Defined.
