(* ===== verification/TcpServer.v ===== *)
(** * TcpServer ([webserve/tcp_server.h], [webserve/tcp_server.cc])

    A server with its listening sockets, the worker that runs its accept loops and the
    worker that gets the clients.  Socket objects are shared by pointers: they live in one
    list and are named by their place there; an object whose last pointer goes is closed,
    as its destructor does.  A task of the accept worker is queued or suspended between two
    turns of its loop; a turn, from one test of [m_isStop] to the next, is one step. *)
From S2P Require Import Prelude Endian Text FdManager Address IOManager Hook Socket TcpServerConf.
Open Scope list_scope.
Open Scope Z_scope.

(** What is scheduled on the accept worker: [startAccept] on a socket, and what [stop] leaves. *)
Inductive task := StartAccept (sock : nat) | CloseSocks.
#[export] Instance task_eq_dec : EqDecision task.
Proof. solve_decision. Defined.

(** The workers are known by their names. *)
Record TcpServer := mkTcpServer {
  m_socks : list nat;
  m_worker : option string; m_ioWorker : option string; m_acceptWorker : option string;
  m_recvTimeout : Z; m_name : string; m_type : string; m_isStop : bool; m_ssl : bool; m_conf : option TcpServerConf
}.
Definition set_socks v s := mkTcpServer v (m_worker s) (m_ioWorker s) (m_acceptWorker s) (m_recvTimeout s) (m_name s) (m_type s) (m_isStop s) (m_ssl s) (m_conf s).
Definition setRecvTimeout v s := mkTcpServer (m_socks s) (m_worker s) (m_ioWorker s) (m_acceptWorker s) v (m_name s) (m_type s) (m_isStop s) (m_ssl s) (m_conf s).
Definition setName v s := mkTcpServer (m_socks s) (m_worker s) (m_ioWorker s) (m_acceptWorker s) (m_recvTimeout s) v (m_type s) (m_isStop s) (m_ssl s) (m_conf s).
Definition set_isStop v s := mkTcpServer (m_socks s) (m_worker s) (m_ioWorker s) (m_acceptWorker s) (m_recvTimeout s) (m_name s) (m_type s) v (m_ssl s) (m_conf s).
Definition set_ssl v s := mkTcpServer (m_socks s) (m_worker s) (m_ioWorker s) (m_acceptWorker s) (m_recvTimeout s) (m_name s) (m_type s) (m_isStop s) v (m_conf s).
Definition setConf v s := mkTcpServer (m_socks s) (m_worker s) (m_ioWorker s) (m_acceptWorker s) (m_recvTimeout s) (m_name s) (m_type s) (m_isStop s) (m_ssl s) (Some v).
(** [TcpServer::TcpServer], with the value of the variable [tcp_server.read_timeout] and its default. *)
Definition g_tcp_server_read_timeout : Z := 60 * 1000 * 2.
Definition TcpServer_new (read_timeout : Z) (worker io_worker accept_worker : option string) : TcpServer :=
  mkTcpServer [] worker io_worker accept_worker read_timeout "sylar/1.0.0" "tcp" true false None.

Record world (N : Type) := mkWorld { w_server : TcpServer; w_objects : list Socket; w_net : N; w_accept : list task; w_io : list nat }.
Arguments mkWorld {N}.
Arguments w_server {N}.
Arguments w_objects {N}.
Arguments w_net {N}.
Arguments w_accept {N}.
Arguments w_io {N}.

Section tcp_server.
Context {N : Type} `{!Net N, !Host}.

(** ** The server, its objects and its workers *)
Definition server : M (world N) TcpServer := gets w_server.
Definition upd (f : TcpServer → TcpServer) : M (world N) () :=
  modify (λ w, mkWorld (f (w_server w)) (w_objects w) (w_net w) (w_accept w) (w_io w)).
Definition alloc (k : Socket) : M (world N) nat := λ w,
  Done (mkWorld (w_server w) (w_objects w ++ [k]) (w_net w) (w_accept w) (w_io w)) (List.length (w_objects w)).
(** A call on a socket object. *)
Definition on {A} (sock : nat) (m : M (Socket * N) A) : M (world N) A := λ w,
  match w_objects w !! sock with
  | None => Undef NullDeref
  | Some k =>
      match m (k, w_net w) with
      | Done (k, n) a => Done (mkWorld (w_server w) (<[sock := k]> (w_objects w)) n (w_accept w) (w_io w)) a
      | Raise (k, n) e => Raise (mkWorld (w_server w) (<[sock := k]> (w_objects w)) n (w_accept w) (w_io w)) e
      | Undef u => Undef u
      | NoFuel => NoFuel
      end
  end.
Definition schedule_accept (t : task) : M (world N) () := λ w,
  match m_acceptWorker (w_server w) with
  | None => Undef NullDeref
  | Some _ => Done (mkWorld (w_server w) (w_objects w) (w_net w) (w_accept w ++ [t]) (w_io w)) ()
  end.
Definition schedule_io (client : nat) : M (world N) () := λ w,
  match m_ioWorker (w_server w) with
  | None => Undef NullDeref
  | Some _ => Done (mkWorld (w_server w) (w_objects w) (w_net w) (w_accept w) (w_io w ++ [client])) ()
  end.
(** A pointer to the object goes: without another the destructor runs. *)
Definition referenced (sock : nat) (w : world N) : bool :=
  bool_decide (sock ∈ m_socks (w_server w)) || bool_decide (StartAccept sock ∈ w_accept w) || bool_decide (sock ∈ w_io w).
Definition release (sock : nat) : M (world N) () :=
  w ← Prelude.get; if referenced sock w then mret () else on sock Socket.close ;; mret ().
Fixpoint each (f : nat → M (world N) ()) (l : list nat) : M (world N) () :=
  match l with [] => mret () | i :: l => f i ;; each f l end.
(** [m_socks.clear()] *)
Definition clear_socks : M (world N) () :=
  s ← server; upd (set_socks []) ;; each release (m_socks s).

(** ** Binding *)
Definition bind_one (addr : Address) : M (world N) bool :=
  sock ← alloc (CreateTCP addr);
  ok ← on sock (Socket.bind addr);
  if negb ok then release sock ;; mret false else
  ok ← on sock (Socket.listen SOMAXCONN);
  if negb ok then release sock ;; mret false else
  upd (λ s, set_socks (m_socks s ++ [sock]) s) ;;
  mret true.
Fixpoint bind_loop (addrs fails : list Address) : M (world N) (list Address) :=
  match addrs with
  | [] => mret fails
  | addr :: addrs => ok ← bind_one addr; bind_loop addrs (if (ok : bool) then fails else fails ++ [addr])
  end.
Definition bind (addrs fails : list Address) (ssl : bool) : M (world N) (bool * list Address) :=
  upd (set_ssl ssl) ;;
  fails ← bind_loop addrs fails;
  if bool_decide (fails ≠ []) then clear_socks ;; mret (false, fails) else mret (true, fails).
Definition bind_address (addr : Address) (ssl : bool) : M (world N) bool :=
  '(ok, _) ← bind [addr] [] ssl; mret ok.

(** ** The accept loop *)
Definition accept_on (sock : nat) : M (world N) (option nat) :=
  c ← on sock Socket.accept;
  match c with Some k => Some <$> alloc k | None => mret None end.
(** One turn; [false] when the loop is left. *)
Definition accept_turn (sock : nat) : M (world N) bool :=
  s ← server;
  if m_isStop s then mret false else
  client ← accept_on sock;
  match client with
  | Some c => s ← server; on c (Socket.setRecvTimeout (s64 (m_recvTimeout s))) ;; schedule_io c
  | None => mret ()
  end ;;
  mret true.
Fixpoint startAccept (fuel : nat) (sock : nat) : M (world N) () :=
  match fuel with
  | O => nofuel
  | S fuel => more ← accept_turn sock; if (more : bool) then startAccept fuel sock else mret ()
  end.

(** ** Starting and stopping *)
Definition start : M (world N) bool :=
  s ← server;
  if negb (m_isStop s) then mret true else
  upd (set_isStop false) ;;
  each (λ sock, schedule_accept (StartAccept sock)) (m_socks s) ;;
  mret true.
Definition stop : M (world N) () :=
  upd (set_isStop true) ;; schedule_accept CloseSocks.
Definition close_sock (sock : nat) : M (world N) () := on sock Socket.cancelAll ;; on sock Socket.close ;; mret ().
(** The function that [stop] schedules. *)
Definition close_socks : M (world N) () :=
  s ← server; each close_sock (m_socks s) ;; clear_socks.
(** [~TcpServer] *)
Definition destroy : M (world N) () :=
  s ← server; each (λ sock, on sock Socket.close ;; mret ()) (m_socks s) ;; clear_socks.

(** ** The workers *)
(** A turn of the [i]-th task; a loop that is left drops its pointer to the socket. *)
Definition finish_task (i : nat) : M (world N) () :=
  modify (λ w, mkWorld (w_server w) (w_objects w) (w_net w) (delete i (w_accept w)) (w_io w)).
Definition run_task (i : nat) : M (world N) () :=
  w ← Prelude.get;
  match w_accept w !! i with
  | None => mret ()
  | Some (StartAccept sock) =>
      more ← accept_turn sock;
      if (more : bool) then mret () else finish_task i ;; release sock
  | Some CloseSocks => close_socks ;; finish_task i
  end.
(** What [handleClient] does with the socket of the client: that of this class only logs.
    The pointer to the client goes with the task. *)
Definition handleClient : M (Socket * N) () := mret ().
Definition run_client (handle : M (Socket * N) ()) (i : nat) : M (world N) () :=
  w ← Prelude.get;
  match w_io w !! i with
  | None => mret ()
  | Some c =>
      on c handle ;;
      modify (λ w, mkWorld (w_server w) (w_objects w) (w_net w) (w_accept w) (delete i (w_io w))) ;;
      release c
  end.

(** ** Printing *)
Open Scope string_scope.
(** [toString]; [None] where the text of a Unix path leaves its array. *)
Fixpoint socket_lines (pfx : string) (l : list (option Socket)) : option string :=
  match l with
  | [] => Some ""
  | k :: l => k ← k; t ← Socket_toString k; rest ← socket_lines pfx l; Some (pfx ++ pfx ++ t ++ "
" ++ rest)
  end.
Definition toString (prefix : string) (w : world N) : option string :=
  let s := w_server w in
  let head := prefix ++ "[type=" ++ m_type s ++ " name=" ++ m_name s ++ " ssl=" ++ (if m_ssl s then "1" else "0") ++
    " worker=" ++ default "" (m_worker s) ++ " accept=" ++ default "" (m_acceptWorker s) ++ " recv_timeout=" ++ dec (m_recvTimeout s) ++ "]
" in
  let pfx := if is_empty prefix then "    " else prefix in
  lines ← socket_lines pfx ((λ i, w_objects w !! i) <$> m_socks s);
  Some (head ++ lines).
End tcp_server.
