(* ===== verification/TcpServerFacts.v ===== *)
(** * TcpServer: every descriptor belongs to a socket somebody still needs, and a stopped server winds down *)
From S2P Require Import Prelude Endian Text FdManager Address IOManager Hook Socket Network SocketFacts TcpServerConf TcpServer.
Open Scope list_scope.
Open Scope Z_scope.

Section facts.
Context {N : Type} `{!Net N, !NetLaws N, !Host}.
Implicit Types (w : world N) (k : Socket) (n : N) (base : gset Z) (l : list nat).

(** ** The invariant *)
Definition valid w (i : nat) : Prop := (i < List.length (w_objects w))%nat.
Definition named w (i : nat) : Prop := i ∈ m_socks (w_server w) ∨ StartAccept i ∈ w_accept w ∨ i ∈ w_io w.
Record inv w base : Prop := {
  inv_sound : sound (w_objects w) (w_net w) base;
  inv_named i : named w i → valid w i;
  inv_accept : is_Some (m_acceptWorker (w_server w));
  inv_io : is_Some (m_ioWorker (w_server w))
}.
(** An object that holds a descriptor is pointed to, by the server, by a task, or by one of
    the local pointers [l]. *)
Definition reachable w l : Prop := ∀ i k, w_objects w !! i = Some k → m_sock k ≠ -1 → named w i ∨ i ∈ l.
Lemma referenced_named i w : referenced i w = true ↔ named w i.
Proof. unfold referenced, named. rewrite !orb_true_iff, !bool_decide_eq_true. tauto. Qed.

(** An operation with the pointers [l] returns, with the pointers [l' a], and keeps the invariant. *)
Definition keeps {A} l (m : M (world N) A) (l' : A → list nat) : Prop := ∀ w base, inv w base → reachable w l → Forall (valid w) l →
  ∃ w' a, m w = Done w' a ∧ inv w' base ∧ reachable w' (l' a) ∧ Forall (valid w') (l' a).
Lemma keeps_ret {A} l (a : A) (l' : A → list nat) : l' a = l → keeps l (mret a) l'.
Proof. intros Ha w base Hi Hr Hv. exists w, a. by rewrite Ha. Qed.
Lemma keeps_bind {A B} l (m : M (world N) A) (f : A → M (world N) B) (l1 : A → list nat) (l2 : B → list nat) : keeps l m l1 → (∀ a, keeps (l1 a) (f a) l2) → keeps l (m ≫= f) l2.
Proof. intros Hm Hf w base Hi Hr Hv. destruct (Hm w base Hi Hr Hv) as (w1 & a & H1 & ? & ? & ?). rewrite (bind_done _ _ _ _ _ H1). by apply Hf. Qed.
Lemma keeps_weaken {A} l (m : M (world N) A) (l1 l2 : A → list nat) : keeps l m l1 → (∀ a, l1 a = l2 a) → keeps l m l2.
Proof. intros Hm He w base Hi Hr Hv. destruct (Hm w base Hi Hr Hv) as (w' & a & ?). exists w', a. by rewrite <-He. Qed.

(** ** Calls on a socket object *)
Lemma sound_middle ks i k n base : ks !! i = Some k → sound ks n base ↔ sound (k :: take i ks ++ drop (S i) ks) n base.
Proof. intros Hi. rewrite <-(take_drop_middle ks i k Hi) at 1. by rewrite Permutation_middle. Qed.
Lemma insert_middle ks i k k' : ks !! i = Some k → <[i := k']> ks = take i ks ++ k' :: drop (S i) ks.
Proof. intros Hi. apply insert_take_drop. by apply lookup_lt_Some in Hi. Qed.
Lemma safe_insert {A} (m : M (Socket * N) A) ks i k n base : safe m → ks !! i = Some k → sound ks n base →
  ∃ k' n' a, m (k, n) = Done (k', n') a ∧ sound (<[i := k']> ks) n' base.
Proof.
  intros Hm Hi Hs. apply (sound_middle ks i k n base Hi) in Hs. apply sound_cons in Hs as (Ho & Hd & Hb).
  destruct (Hm k n _ Ho) as (k' & n' & a & Hr & Ho'). exists k', n', a. split; [done|].
  rewrite (insert_middle ks i k k' Hi), <-Permutation_middle. by apply sound_cons.
Qed.
Lemma valid_insert w i k : List.length (<[i := k]> (w_objects w)) = List.length (w_objects w).
Proof. apply length_insert. Qed.
(** A call that may open a descriptor is on an object of [l]; others keep or close it. *)
Definition mild {A} (m : M (Socket * N) A) : Prop := ∀ k n k' n' a, m (k, n) = Done (k', n') a → m_sock k' = m_sock k ∨ m_sock k' = -1.
Lemma on_keeps {A} l i (m : M (Socket * N) A) : safe m → i ∈ l → keeps l (on i m) (λ _, l).
Proof.
  intros Hm Hi w base [Hs Hn Ha Hio] Hr Hv. destruct (lookup_lt_is_Some_2 (w_objects w) i) as [k Hk]; [by eapply Forall_forall in Hv|].
  destruct (safe_insert m _ i k _ base Hm Hk Hs) as (k' & n' & a & Hrun & Hs'). unfold on. rewrite Hk, Hrun. eexists _, a. split; [done|].
  split; [|split].
  - split; cbn; try done. intros j Hj. unfold valid. cbn. rewrite length_insert. by apply Hn.
  - intros j kj Hj Ho. destruct (decide (j = i)) as [->|]; [by right|]. cbn in Hj. rewrite list_lookup_insert_ne in Hj by done. by eapply Hr.
  - eapply Forall_impl; [exact Hv|]. intros j. unfold valid. cbn. by rewrite length_insert.
Qed.
Lemma on_mild {A} l i w base (m : M (Socket * N) A) : safe m → mild m → inv w base → reachable w l → Forall (valid w) l → valid w i →
  ∃ k n a, on i m w = Done (mkWorld (w_server w) (<[i := k]> (w_objects w)) n (w_accept w) (w_io w)) a ∧
    let w' := mkWorld (w_server w) (<[i := k]> (w_objects w)) n (w_accept w) (w_io w) in
    inv w' base ∧ reachable w' l ∧ Forall (valid w') l.
Proof.
  intros Hm Hmild [Hs Hn Ha Hio] Hr Hv Hi. destruct (lookup_lt_is_Some_2 (w_objects w) i) as [k Hk]; [done|].
  destruct (safe_insert m _ i k _ base Hm Hk Hs) as (k' & n' & a & Hrun & Hs'). unfold on. rewrite Hk, Hrun. eexists k', n', a. split; [done|].
  split; [|split].
  - split; cbn; try done. intros j Hj. unfold valid. cbn. rewrite length_insert. by apply Hn.
  - intros j kj Hj Ho. cbn in Hj. destruct (decide (j = i)) as [->|]; [|rewrite list_lookup_insert_ne in Hj by done; by eapply Hr].
    rewrite list_lookup_insert_eq in Hj by done. injection Hj as <-.
    destruct (Hmild _ _ _ _ _ Hrun) as [He|He]; [|congruence]. apply (Hr i k Hk). congruence.
  - eapply Forall_impl; [exact Hv|]. intros j. unfold valid. cbn. by rewrite length_insert.
Qed.
Lemma close_mild : mild Socket.close.
Proof.
  intros k n k' n' b. unfold Socket.close. rewrite (bind_done _ _ (k, n) (k, n) k) by done.
  destruct (negb (m_isConnected k) && (m_sock k =? -1)); [injection 1 as <- <- <-; by left|].
  rewrite (bind_done _ _ (k, n) (set_connected false k, n) ()) by done. destruct (m_sock k =? -1) eqn:E; cbn [negb].
  - injection 1 as <- <- <-. by left.
  - unfold mbind, M_bind, net. cbn. destruct (net_close (m_sock k) n); cbn; try done. injection 1 as <- <- <-. by right.
Qed.
(** The destructor: the object keeps no descriptor, so the pointer may go. *)
Lemma on_close_keeps l i : keeps (i :: l) (on i Socket.close) (λ _, l).
Proof.
  intros w base [Hs Hn Ha Hio] Hr Hv. apply Forall_cons in Hv as [Hi Hv]. destruct (lookup_lt_is_Some_2 (w_objects w) i) as [k Hk]; [done|].
  pose proof Hs as Hs'. apply (sound_middle _ i k _ base Hk) in Hs'. apply sound_cons in Hs' as (Ho & Hd & Hb).
  destruct (close_ok k (w_net w) _ Ho) as (k' & n' & b & Hrun & Hk' & _ & Hn'). unfold on. rewrite Hk, Hrun. eexists _, b. split; [done|].
  split; [|split].
  - split; cbn; try done; [|intros j Hj; unfold valid; cbn; rewrite length_insert; by apply Hn].
    rewrite (insert_middle _ i k k' Hk), <-Permutation_middle. apply sound_cons. split; [by apply owns_none|done].
  - intros j kj Hj Hkj. cbn in Hj. destruct (decide (j = i)) as [->|].
    + rewrite list_lookup_insert_eq in Hj by done. injection Hj as <-. done.
    + rewrite list_lookup_insert_ne in Hj by done. destruct (Hr j kj Hj Hkj) as [?|[?|?]%elem_of_cons]; [by left|done|by right].
  - eapply Forall_impl; [exact Hv|]. intros j. unfold valid. cbn. by rewrite length_insert.
Qed.
Lemma release_keeps l i : keeps (i :: l) (release i) (λ _, l).
Proof.
  intros w base Hi Hr Hv. unfold release. erewrite bind_done; [|done]. destruct (referenced i w) eqn:E.
  - exists w, (). split; [done|]. apply Forall_cons in Hv as [_ Hv]. split; [done|]. split; [|done].
    intros j k Hj Hk. destruct (Hr j k Hj Hk) as [?|[->|?]%elem_of_cons]; [by left|left; by apply referenced_named|by right].
  - destruct (on_close_keeps l i w base Hi Hr Hv) as (w' & b & Hrun & ?). exists w', (). split; [by rewrite (bind_done _ _ _ _ _ Hrun)|done].
Qed.
Lemma each_release_keeps l l2 : keeps (l ++ l2) (each release l) (λ _, l2).
Proof.
  induction l as [|i l IH]; cbn [each]; [by apply keeps_ret|]. eapply keeps_bind; [apply release_keeps|]. intros []. exact IH.
Qed.
Lemma clear_keeps l : keeps l clear_socks (λ _, l).
Proof.
  intros w base [Hs Hn Ha Hio] Hr Hv. unfold clear_socks. erewrite bind_done; [|done]. erewrite bind_done; [|done].
  apply (each_release_keeps (m_socks (w_server w)) l).
  - split; cbn; try done. intros i [Hi|[Hi|Hi]]; cbn in Hi; [by apply elem_of_nil in Hi|apply Hn; by right; left|apply Hn; by right; right].
  - intros i k Hi Hk. destruct (Hr i k Hi Hk) as [[?|?]|?]; [right; apply elem_of_app; by left|by left; right|right; apply elem_of_app; by right].
  - apply Forall_app. split; [|done]. apply Forall_forall. intros i Hi. apply Hn. by left.
Qed.
(** Calls on the sockets of the server, which keep or close a descriptor. *)
Lemma on_named_keeps {A} l i w base (m : M (Socket * N) A) : safe m → mild m → inv w base → reachable w l → Forall (valid w) l → i ∈ m_socks (w_server w) →
  ∃ w' a, on i m w = Done w' a ∧ w_server w' = w_server w ∧ w_accept w' = w_accept w ∧ w_io w' = w_io w ∧ inv w' base ∧ reachable w' l ∧ Forall (valid w') l.
Proof.
  intros Hm Hmild Hi Hr Hv Hin. destruct (on_mild l i w base m Hm Hmild Hi Hr Hv) as (k & n & a & Hrun & ? & ? & ?); [apply (inv_named _ _ Hi); by left|].
  eexists _, a. split; [exact Hrun|]. by split_and!.
Qed.
Lemma steady_mild {A} (m : M (Socket * N) A) : steady m → mild m.
Proof. intros Hm k n k' n' a Hr. destruct (Hm k n) as (k1 & n1 & a1 & Hr' & [H1 _] & _). rewrite Hr in Hr'. injection Hr' as <- _ _. by left. Qed.

(** ** The server's operations *)
Lemma upd_keeps l l' f : (∀ s, m_acceptWorker (f s) = m_acceptWorker s) → (∀ s, m_ioWorker (f s) = m_ioWorker s) →
  (∀ s i, i ∈ m_socks (f s) → i ∈ m_socks s ∨ i ∈ l) → (∀ s i, i ∈ m_socks s ∨ i ∈ l → i ∈ m_socks (f s) ∨ i ∈ l') → incl l' l →
  keeps l (upd f) (λ _, l').
Proof.
  intros Ha Hi Hin Hout Hincl w base [Hs Hn Hac Hio] Hr Hv. eexists _, (). split; [done|]. split; [|split].
  - split; cbn; [done| |by rewrite Ha|by rewrite Hi]. intros i [H1|[H1|H1]]; [|apply Hn; by right; left|apply Hn; by right; right].
    apply Hin in H1 as [H1|H1]; [apply Hn; by left|]. by eapply Forall_forall in H1.
  - intros i k Hk Ho. cbn in Hk. destruct (Hr i k Hk Ho) as [[H1|[H1|H1]]|H1]; [|left; by right; left|left; by right; right|].
    + destruct (Hout (w_server w) i (or_introl H1)); [left; by left|by right].
    + destruct (Hout (w_server w) i (or_intror H1)); [left; by left|by right].
  - apply Forall_forall. intros i Hi'. apply list_elem_of_In, Hincl, list_elem_of_In in Hi'. by eapply Forall_forall in Hv.
Qed.
Lemma upd_same_keeps l f : (∀ s, m_acceptWorker (f s) = m_acceptWorker s) → (∀ s, m_ioWorker (f s) = m_ioWorker s) → (∀ s, m_socks (f s) = m_socks s) →
  keeps l (upd f) (λ _, l).
Proof. intros Ha Hi Hs. apply upd_keeps; [done|done|intros s i; rewrite Hs; tauto|intros s i; rewrite Hs; tauto|apply incl_refl]. Qed.
(** A new object without a descriptor, or with one that nobody has. *)
Lemma alloc_keeps l k : m_sock k = -1 → keeps l (alloc k) (λ i, i :: l).
Proof.
  intros Hk w base [Hs Hn Ha Hio] Hr Hv. exists (mkWorld (w_server w) (w_objects w ++ [k]) (w_net w) (w_accept w) (w_io w)), (List.length (w_objects w)).
  split; [done|]. split; [|split].
  - split; cbn; try done.
    + rewrite <-Permutation_cons_append, sound_cons. destruct Hs as (Hm & ? & ?). split; [by apply owns_none|done].
    + intros i Hi%Hn. unfold valid in *. cbn. rewrite length_app. lia.
  - intros i ki Hi Hki. cbn in Hi. apply lookup_app_Some in Hi as [Hi|[Hle Hi]].
    + destruct (Hr i ki Hi Hki); [by left|right; by right].
    + right. apply list_elem_of_In. left. destruct (i - List.length (w_objects w))%nat eqn:E; [lia|]. by rewrite lookup_cons, lookup_nil in Hi.
  - constructor; [unfold valid; cbn; rewrite length_app; cbn; lia|]. eapply Forall_impl; [exact Hv|]. intros j. unfold valid. cbn. rewrite length_app. lia.
Qed.
Lemma bind_one_keeps l addr : keeps l (bind_one addr) (λ _, l).
Proof.
  unfold bind_one. eapply keeps_bind; [by apply alloc_keeps|]. intros i.
  eapply keeps_bind; [apply on_keeps; [apply bind_safe|by left]|]. intros ok. destruct ok; cbn [negb].
  2:{ eapply keeps_bind; [apply release_keeps|]. intros []. by apply keeps_ret. }
  eapply keeps_bind; [apply on_keeps; [apply steady_safe, listen_steady|by left]|]. intros ok. destruct ok; cbn [negb].
  2:{ eapply keeps_bind; [apply release_keeps|]. intros []. by apply keeps_ret. }
  eapply (keeps_bind _ _ _ (λ _, l)); [apply upd_keeps; try done; cbn|intros []; by apply keeps_ret].
  - intros s j [?|?%list_elem_of_singleton]%elem_of_app; [by left|right; subst; by left].
  - intros s j [?|[->|?]%elem_of_cons]; [left; apply elem_of_app; by left|left; apply elem_of_app; right; by apply list_elem_of_singleton|by right].
  - apply incl_tl, incl_refl.
Qed.
Lemma bind_loop_keeps addrs : ∀ l fails, keeps l (bind_loop addrs fails) (λ _, l).
Proof.
  induction addrs as [|addr addrs IH]; intros l fails; cbn [bind_loop]; [by apply keeps_ret|].
  eapply keeps_bind; [apply bind_one_keeps|]. intros ok. apply IH.
Qed.
Lemma bind_keeps l addrs fails ssl : keeps l (bind addrs fails ssl) (λ _, l).
Proof.
  unfold bind. eapply keeps_bind; [by apply upd_same_keeps|]. intros []. eapply keeps_bind; [apply bind_loop_keeps|]. intros fails'.
  destruct (bool_decide _); [|by apply keeps_ret]. eapply keeps_bind; [apply clear_keeps|]. intros []. by apply keeps_ret.
Qed.

Lemma schedule_accept_keeps l t : match t with StartAccept i => i ∈ l | CloseSocks => True end → keeps l (schedule_accept t) (λ _, l).
Proof.
  intros Ht w base [Hs Hn [name Ha] Hio] Hr Hv. unfold schedule_accept. rewrite Ha. eexists _, (). split; [done|]. split; [|split; [|done]].
  - split; cbn; try done. intros i [Hi|[Hi|Hi]]; [apply Hn; by left| |apply Hn; by right; right].
    apply elem_of_app in Hi as [Hi|Hi%list_elem_of_singleton]; [apply Hn; by right; left|]. subst t. by eapply Forall_forall in Ht.
  - intros i k Hk Ho. destruct (Hr i k Hk Ho) as [[?|[?|?]]|?]; [left; by left|left; right; left; apply elem_of_app; by left|left; by right; right|by right].
Qed.
Lemma schedule_io_keeps l i : keeps (i :: l) (schedule_io i) (λ _, l).
Proof.
  intros w base [Hs Hn Ha [name Hio]] Hr Hv. unfold schedule_io. rewrite Hio. eexists _, (). split; [done|]. apply Forall_cons in Hv as [Hi Hv]. split; [|split; [|done]].
  - split; cbn; try done. intros j [Hj|[Hj|Hj]]; [apply Hn; by left|apply Hn; by right; left|].
    apply elem_of_app in Hj as [Hj|Hj%list_elem_of_singleton]; [apply Hn; by right; right|]. by subst j.
  - intros j k Hk Ho. destruct (Hr j k Hk Ho) as [[?|[?|?]]|[->|?]%elem_of_cons];
      [left; by left|left; by right; left|left; right; right; apply elem_of_app; by left|left; right; right; apply elem_of_app; right; by left|by right].
Qed.

(** ** A turn of the accept loop *)
Definition same_workers w w' : Prop := w_server w' = w_server w ∧ w_accept w' = w_accept w.
Lemma accept_on_ok l i w base : inv w base → reachable w l → Forall (valid w) l → valid w i →
  ∃ w' o, accept_on i w = Done w' o ∧ inv w' base ∧ reachable w' (option_list o ++ l) ∧ Forall (valid w') (option_list o ++ l) ∧
    same_workers w w' ∧ w_io w' = w_io w ∧
    match o with
    | None => w_objects w' = w_objects w
    | Some c => c = List.length (w_objects w) ∧ ∃ k, w_objects w' = w_objects w ++ [k] ∧ m_isConnected k = true ∧ m_sock k ≠ -1
    end.
Proof.
  intros [Hs Hn Ha Hio] Hr Hv Hi. destruct (lookup_lt_is_Some_2 (w_objects w) i) as [k Hk]; [done|].
  pose proof Hs as Hs'. apply (sound_middle _ i k _ base Hk) in Hs'. apply sound_cons in Hs' as (Ho & Hd & Hb).
  destruct (accept_ok k (w_net w) _ Ho) as (n' & r & Hrun & Hacc). unfold accept_on, mbind, M_bind, on. rewrite Hk, Hrun.
  rewrite list_insert_id by done. cbn. destruct r as [c|].
  - unfold fmap, M_fmap, alloc. cbn. eexists _, (Some (List.length (w_objects w))). split; [reflexivity|].
    destruct Hacc as (Hoc & Hco & Hc & Hkb). split; [|split; [|split; [|split; [done|split; [done|split; [done|by exists c]]]]]].
    + split; cbn; [|intros j Hj%Hn; unfold valid in *; cbn; rewrite length_app; lia|done|done].
      rewrite <-Permutation_cons_append, sound_cons. destruct Hs as (Hm & Hds & Hdb). split; [|done].
      replace (list_to_set (descriptors (w_objects w)) ∪ base) with (mine (w_net w)) by done. destruct Ho as [-> _]. done.
    + intros j kj Hj Hkj. cbn in Hj. apply lookup_app_Some in Hj as [Hj|[Hle Hj]].
      * destruct (Hr j kj Hj Hkj); [by left|right; by right].
      * right. apply list_elem_of_In. left. destruct (j - List.length (w_objects w))%nat eqn:E; [lia|]. by rewrite lookup_cons, lookup_nil in Hj.
    + constructor; [unfold valid; cbn; rewrite length_app; cbn; lia|]. eapply Forall_impl; [exact Hv|]. intros j. unfold valid. cbn. rewrite length_app. lia.
  - eexists _, None. split; [reflexivity|]. split; [|by split_and!]. split; cbn; try done.
    apply (sound_middle _ i k _ base Hk). by apply sound_cons.
Qed.
Lemma setRecvTimeout_steady v : steady (Socket.setRecvTimeout v).
Proof.
  unfold Socket.setRecvTimeout. apply steady_bind; [apply setOption_steady|]. intros _ k n. by exists k, n, ().
Qed.
(** One client more at the end of the queue of the io worker, or none; it is connected. *)
Definition one_client w w' : Prop :=
  w_io w' = w_io w ∨ w_io w' = w_io w ++ [List.length (w_objects w)] ∧
    ∃ k, w_objects w' !! List.length (w_objects w) = Some k ∧ m_isConnected k = true ∧ m_sock k ≠ -1.
Lemma accept_turn_ok i w base : inv w base → reachable w [] → valid w i → m_isStop (w_server w) = false →
  ∃ w', accept_turn i w = Done w' true ∧ inv w' base ∧ reachable w' [] ∧ same_workers w w' ∧ one_client w w' ∧
    ∀ j, valid w j → w_objects w' !! j = w_objects w !! j.
Proof.
  intros Hinv Hr Hi Hrun. unfold accept_turn. erewrite bind_done; [|done]. rewrite Hrun.
  destruct (accept_on_ok [] i w base Hinv Hr) as (w1 & o & Ha & Hinv1 & Hr1 & Hv1 & [Hs1 Ht1] & Hio1 & Ho); [constructor|done|].
  erewrite bind_done; [|exact Ha]. destruct o as [c|].
  - destruct Ho as (-> & k & Hobj & Hco & Hk). change (option_list (Some (List.length (w_objects w))) ++ []) with [List.length (w_objects w)] in *.
    assert (Hlk : w_objects w1 !! List.length (w_objects w) = Some k) by (rewrite Hobj; apply list_lookup_middle; done).
    destruct (setRecvTimeout_steady (s64 (m_recvTimeout (w_server w1))) k (w_net w1)) as (k' & n' & [] & Hset & [Hsk Hsc] & Hmn).
    destruct (on_mild [List.length (w_objects w)] (List.length (w_objects w)) w1 base (Socket.setRecvTimeout (s64 (m_recvTimeout (w_server w1)))))
      as (k2 & n2 & a & Hon & Hinv2 & Hr2 & Hv2); [apply steady_safe, setRecvTimeout_steady|apply steady_mild, setRecvTimeout_steady|done|done|done| |].
    { unfold valid. rewrite Hobj, length_app. cbn. lia. }
    pose proof Hon as Hon'. unfold on in Hon'. rewrite Hlk, Hset in Hon'. injection Hon' as Hins <-.
    assert (k2 = k') as ->.
    { apply (f_equal (λ ks : list Socket, ks !! List.length (w_objects w))) in Hins. rewrite !list_lookup_insert_eq in Hins by (rewrite Hobj, length_app; cbn; lia). by injection Hins. }
    destruct (schedule_io_keeps [] (List.length (w_objects w)) _ base Hinv2 Hr2 Hv2) as (w3 & [] & Hsch & Hinv3 & Hr3 & _).
    exists w3. split; [|split; [done|split; [done|]]].
    + rewrite (bind_done _ _ w1 w3 ()); [done|]. erewrite bind_done; [|done]. erewrite bind_done; [|exact Hon]. exact Hsch.
    + unfold schedule_io in Hsch. cbn in Hsch. destruct (inv_io _ _ Hinv1) as [name Hn]. rewrite Hn in Hsch. injection Hsch as <-. cbn.
      split; [by split|]. split; [right|].
      * cbn. rewrite Hio1. split; [done|]. exists k'.
        rewrite list_lookup_insert_eq by (rewrite Hobj, length_app; cbn; lia). split; [done|]. split; congruence.
      * intros j Hj. unfold valid in Hj. cbn. rewrite list_lookup_insert_ne by lia. by rewrite Hobj, lookup_app_l.
  - exists w1. rewrite (bind_done _ _ w1 w1 ()) by done. split; [done|]. split; [done|]. split; [exact Hr1|]. split; [done|]. split; [by left|]. intros j _. by rewrite Ho.
Qed.
Lemma accept_turn_stopped i w : m_isStop (w_server w) = true → accept_turn i w = Done w false.
Proof. intros Hs. unfold accept_turn. erewrite bind_done; [|done]. by rewrite Hs. Qed.

(** ** Starting, stopping, and the tasks *)
Definition held w i : Prop := ∃ k, w_objects w !! i = Some k ∧ m_sock k ≠ -1.
Lemma on_done {A} i (m : M (Socket * N) A) w w' a : on i m w = Done w' a →
  ∃ k k', w_objects w !! i = Some k ∧ m (k, w_net w) = Done (k', w_net w') a ∧
    w' = mkWorld (w_server w) (<[i := k']> (w_objects w)) (w_net w') (w_accept w) (w_io w).
Proof.
  unfold on. destruct (w_objects w !! i) as [k|]; [|done]. destruct (m (k, w_net w)) as [[k' n] a'|[k' n] e| |] eqn:Hm; try done.
  injection 1 as <- <-. exists k, k'. by split_and!.
Qed.
(** The sockets of the server are different objects with a descriptor, none a client: so
    [close_socks] cancels on open descriptors only. *)
Definition listening w : Prop := NoDup (m_socks (w_server w)) ∧ ∀ i, i ∈ m_socks (w_server w) → held w i ∧ i ∉ w_io w.
Lemma listening_none w : m_socks (w_server w) = [] → listening w.
Proof. intros Hs. unfold listening. rewrite Hs. split; [constructor|]. by intros i Hi%elem_of_nil. Qed.
Lemma listening_frame w w' : listening w → m_socks (w_server w') = m_socks (w_server w) →
  (∀ i, i ∈ m_socks (w_server w) → w_objects w' !! i = w_objects w !! i) → (∀ i, i ∈ m_socks (w_server w) → i ∈ w_io w' → i ∈ w_io w) → listening w'.
Proof.
  intros [Hnd Hl] Hs Ho Hio. unfold listening, held. rewrite Hs. split; [done|]. intros i Hi. destruct (Hl i Hi) as [Hh Hn].
  rewrite Ho by done. split; [done|]. intros Hin. by apply Hn, Hio.
Qed.
Lemma schedule_all_ok base l socks : ∀ w, inv w base → reachable w l → Forall (valid w) l → Forall (valid w) socks →
  let w' := mkWorld (w_server w) (w_objects w) (w_net w) (w_accept w ++ (StartAccept <$> socks)) (w_io w) in
  each (λ sock, schedule_accept (StartAccept sock)) socks w = Done w' () ∧ inv w' base ∧ reachable w' l ∧ Forall (valid w') l.
Proof.
  induction socks as [|i socks IH]; intros w Hinv Hr Hv Hsocks; cbn [each].
  { cbn. rewrite app_nil_r. destruct w. by split_and!. }
  apply Forall_cons in Hsocks as [Hi Hsocks].
  assert (Hr1 : reachable w (i :: l)) by (intros j k Hj Hk; destruct (Hr j k Hj Hk); [by left|right; by right]).
  destruct (schedule_accept_keeps (i :: l) (StartAccept i) ltac:(by left) w base Hinv Hr1 ltac:(by constructor)) as (w2 & [] & Hsch & Hinv2 & _ & _).
  rewrite (bind_done _ _ _ _ _ Hsch). unfold schedule_accept in Hsch. destruct (inv_accept _ _ Hinv) as [name Hn]. rewrite Hn in Hsch. injection Hsch as <-.
  specialize (IH _ Hinv2). cbn in IH. rewrite <-app_assoc in IH. apply IH; [|done..].
  intros j k Hj Hk. destruct (Hr j k Hj Hk) as [[?|[?|?]]|?]; [left; by left|left; right; left; apply elem_of_app; by left|left; by right; right|by right].
Qed.
Lemma start_ok l w base : inv w base → reachable w l → Forall (valid w) l →
  ∃ w', start w = Done w' true ∧ inv w' base ∧ reachable w' l ∧ Forall (valid w') l ∧ m_isStop (w_server w') = false ∧
    w_accept w' = w_accept w ++ (if m_isStop (w_server w) then StartAccept <$> m_socks (w_server w) else []) ∧
    m_socks (w_server w') = m_socks (w_server w) ∧ w_objects w' = w_objects w ∧ w_net w' = w_net w ∧ w_io w' = w_io w.
Proof.
  intros Hinv Hr Hv. unfold start. erewrite bind_done; [|done]. destruct (m_isStop (w_server w)) eqn:Hs; cbn [negb].
  2:{ exists w. rewrite app_nil_r. split; [done|]. by split_and!. }
  destruct (upd_same_keeps l (set_isStop false) (λ _, eq_refl) (λ _, eq_refl) (λ _, eq_refl) w base Hinv Hr Hv) as (w1 & [] & Hu & Hinv1 & Hr1 & Hv1).
  rewrite (bind_done _ _ _ _ _ Hu). unfold upd, modify in Hu. injection Hu as <-.
  destruct (schedule_all_ok base l (m_socks (w_server w)) _ Hinv1 Hr1 Hv1) as (Hrun & H1 & H2 & H3).
  { apply Forall_forall. intros i Hi. apply (inv_named _ _ Hinv). by left. }
  eexists. rewrite (bind_done _ _ _ _ _ Hrun). split; [done|]. by split_and!.
Qed.
Lemma stop_ok l w base : inv w base → reachable w l → Forall (valid w) l →
  ∃ w', stop w = Done w' () ∧ inv w' base ∧ reachable w' l ∧ Forall (valid w') l ∧ m_isStop (w_server w') = true ∧
    w_accept w' = w_accept w ++ [CloseSocks] ∧ m_socks (w_server w') = m_socks (w_server w) ∧ w_objects w' = w_objects w ∧ w_net w' = w_net w ∧ w_io w' = w_io w.
Proof.
  intros Hinv Hr Hv. destruct (upd_same_keeps l (set_isStop true) (λ _, eq_refl) (λ _, eq_refl) (λ _, eq_refl) w base Hinv Hr Hv) as (w1 & [] & Hu & Hinv1 & Hr1 & Hv1).
  destruct (schedule_accept_keeps l CloseSocks I w1 base Hinv1 Hr1 Hv1) as (w2 & [] & Hsch & Hinv2 & Hr2 & Hv2).
  exists w2. unfold stop. rewrite (bind_done _ _ _ _ _ Hu). split; [done|]. split; [done|]. split; [done|]. split; [done|].
  unfold schedule_accept in Hsch. destruct (inv_accept _ _ Hinv1) as [name Hn]. rewrite Hn in Hsch. injection Hsch as <-. unfold upd, modify in Hu. by injection Hu as <-.
Qed.
Lemma cancelAll_ok i w base : inv w base → held w i → ∃ n' b,
  on i cancelAll w = Done (mkWorld (w_server w) (w_objects w) n' (w_accept w) (w_io w)) b ∧ mine n' = mine (w_net w).
Proof.
  intros Hinv (k & Hi & Hk). assert (Hin : m_sock k ∈ mine (w_net w)).
  { destruct (inv_sound _ _ Hinv) as (-> & _). apply elem_of_union_l, elem_of_list_to_set, list_elem_of_filter. split; [done|].
    by eapply list_elem_of_fmap_2, list_elem_of_lookup_2. }
  destruct (cancelAll_law (m_sock k) (w_net w) Hin Hk) as (n' & b & Hr & Hn). exists n', b. split; [|done]. unfold on. rewrite Hi.
  assert (Hc : cancelAll (k, w_net w) = Done (k, n') b) by (unfold cancelAll; rewrite (bind_done _ _ (k, w_net w) (k, w_net w) k) by done; unfold net; by rewrite Hr).
  by rewrite Hc, list_insert_id.
Qed.
Lemma close_sock_ok l i w base : inv w base → reachable w l → Forall (valid w) l → i ∈ m_socks (w_server w) → held w i →
  ∃ w', close_sock i w = Done w' () ∧ w_server w' = w_server w ∧ w_accept w' = w_accept w ∧ w_io w' = w_io w ∧ inv w' base ∧ reachable w' l ∧ Forall (valid w') l ∧
    ∀ j, j ≠ i → w_objects w' !! j = w_objects w !! j.
Proof.
  intros Hinv Hr Hv Hi Hh. unfold close_sock. destruct (cancelAll_ok i w base Hinv Hh) as (n' & a & Hrun1 & Hn').
  rewrite (bind_done _ _ _ _ _ Hrun1). set (w1 := mkWorld _ _ _ _ _).
  assert (Hinv1 : inv w1 base) by (destruct Hinv as [Hs ? ? ?]; split; try done; unfold sound; cbn; by rewrite Hn').
  destruct (on_named_keeps l i w1 base Socket.close) as (w2 & b & Hrun2 & Hs2 & Ht2 & Hio2 & Hinv2 & Hr2 & Hv2);
    [apply close_safe|apply close_mild|done..|].
  rewrite (bind_done _ _ _ _ _ Hrun2). exists w2. split; [done|]. do 6 (split; [done|]).
  apply on_done in Hrun2 as (k & k' & _ & _ & ->). intros j Hj. cbn. by apply list_lookup_insert_ne.
Qed.
Lemma each_close_ok l base socks : ∀ w, inv w base → reachable w l → Forall (valid w) l → NoDup socks →
  (∀ i, i ∈ socks → i ∈ m_socks (w_server w) ∧ held w i) →
  ∃ w', each close_sock socks w = Done w' () ∧ w_server w' = w_server w ∧ w_accept w' = w_accept w ∧ w_io w' = w_io w ∧ inv w' base ∧ reachable w' l ∧ Forall (valid w') l.
Proof.
  induction socks as [|i socks IH]; intros w Hinv Hr Hv Hnd Hin; cbn [each]; [by exists w|]. apply NoDup_cons in Hnd as [Hni Hnd].
  destruct (Hin i ltac:(by left)) as [Hi Hh].
  destruct (close_sock_ok l i w base Hinv Hr Hv Hi Hh) as (w1 & Hrun & Hs1 & Ht1 & Hio1 & Hinv1 & Hr1 & Hv1 & Ho1). rewrite (bind_done _ _ _ _ _ Hrun).
  destruct (IH w1 Hinv1 Hr1 Hv1 Hnd) as (w2 & Hrun2 & Hs2 & Ht2 & Hio2 & ?).
  { intros j Hj. unfold held. rewrite Hs1, Ho1 by (intros ->; done). apply Hin. by right. }
  exists w2. split; [done|]. split_and!; congruence || tauto.
Qed.
Lemma each_named_ok (f : nat → M (world N) ()) l base :
  (∀ i w, inv w base → reachable w l → Forall (valid w) l → i ∈ m_socks (w_server w) →
    ∃ w', f i w = Done w' () ∧ w_server w' = w_server w ∧ w_accept w' = w_accept w ∧ w_io w' = w_io w ∧ inv w' base ∧ reachable w' l ∧ Forall (valid w') l) →
  ∀ socks w, inv w base → reachable w l → Forall (valid w) l → (∀ i, i ∈ socks → i ∈ m_socks (w_server w)) →
    ∃ w', each f socks w = Done w' () ∧ w_server w' = w_server w ∧ w_accept w' = w_accept w ∧ w_io w' = w_io w ∧ inv w' base ∧ reachable w' l ∧ Forall (valid w') l.
Proof.
  intros Hf socks. induction socks as [|i socks IH]; intros w Hinv Hr Hv Hin; cbn [each]; [by exists w|].
  destruct (Hf i w Hinv Hr Hv (Hin i ltac:(by left))) as (w1 & Hrun & Hs1 & Ht1 & Hio1 & Hinv1 & Hr1 & Hv1). rewrite (bind_done _ _ _ _ _ Hrun).
  destruct (IH w1 Hinv1 Hr1 Hv1) as (w2 & Hrun2 & Hs2 & Ht2 & Hio2 & ?); [intros j Hj; rewrite Hs1; apply Hin; by right|].
  exists w2. split; [done|]. split_and!; congruence || tauto.
Qed.
(** [m_socks.clear()] leaves the workers as they are. *)
Lemma each_release_workers l : ∀ w w' a, each release l w = Done w' a → w_server w' = w_server w ∧ w_accept w' = w_accept w ∧ w_io w' = w_io w.
Proof.
  induction l as [|i l IH]; intros w w' a; cbn [each]; [by injection 1 as <- _|].
  unfold mbind at 1, M_bind at 1, release. unfold mbind at 1, M_bind at 1. cbn. destruct (referenced i w); cbn; [apply IH|].
  unfold mbind at 1, M_bind at 1, on. destruct (w_objects w !! i); [|done]. destruct (Socket.close _) as [[k n] ?|[k n] ?| |]; cbn; try done.
  intros (-> & -> & ->)%IH. done.
Qed.
Lemma clear_ok l w base : inv w base → reachable w l → Forall (valid w) l →
  ∃ w', clear_socks w = Done w' () ∧ inv w' base ∧ reachable w' l ∧ Forall (valid w') l ∧
    m_socks (w_server w') = [] ∧ m_isStop (w_server w') = m_isStop (w_server w) ∧ w_accept w' = w_accept w ∧ w_io w' = w_io w.
Proof.
  intros Hinv Hr Hv. destruct (clear_keeps l w base Hinv Hr Hv) as (w' & [] & Hrun & ? & ? & ?). exists w'. split; [done|]. split; [done|].
  split; [done|]. split; [done|]. unfold clear_socks in Hrun. erewrite bind_done in Hrun; [|done]. erewrite bind_done in Hrun; [|done].
  apply each_release_workers in Hrun as (-> & -> & ->). done.
Qed.
Lemma close_socks_ok l w base : inv w base → reachable w l → Forall (valid w) l → listening w →
  ∃ w', close_socks w = Done w' () ∧ inv w' base ∧ reachable w' l ∧ Forall (valid w') l ∧
    m_socks (w_server w') = [] ∧ m_isStop (w_server w') = m_isStop (w_server w) ∧ w_accept w' = w_accept w ∧ w_io w' = w_io w.
Proof.
  intros Hinv Hr Hv [Hnd Hl]. unfold close_socks. erewrite bind_done; [|done].
  destruct (each_close_ok l base (m_socks (w_server w)) w Hinv Hr Hv Hnd (λ i Hi, conj Hi (proj1 (Hl i Hi))))
    as (w1 & Hrun & Hs1 & Ht1 & Hio1 & Hinv1 & Hr1 & Hv1). rewrite (bind_done _ _ _ _ _ Hrun).
  destruct (clear_ok l w1 base Hinv1 Hr1 Hv1) as (w2 & Hc & ? & ? & ? & ? & ? & ? & ?). exists w2. split; [done|]. split_and!; congruence || done.
Qed.
Lemma elem_delete {A} (x y : A) (l : list A) i : l !! i = Some y → x ∈ l ↔ x = y ∨ x ∈ delete i l.
Proof. intros Hi. rewrite (delete_Permutation l i y Hi) at 1. by rewrite elem_of_cons. Qed.
Lemma delete_none {A} (l : list A) i : l !! i = None → delete i l = l.
Proof. intros Hi. rewrite delete_take_drop. apply lookup_ge_None_1 in Hi. rewrite take_ge, drop_ge by lia. apply app_nil_r. Qed.
(** A task ends: the pointer it had stays with the caller. *)
Lemma finish_task_ok i t w base : w_accept w !! i = Some t → inv w base → reachable w [] →
  let l := match t with StartAccept sock => [sock] | CloseSocks => [] end in
  let w' := mkWorld (w_server w) (w_objects w) (w_net w) (delete i (w_accept w)) (w_io w) in
  finish_task i w = Done w' () ∧ inv w' base ∧ reachable w' l ∧ Forall (valid w') l.
Proof.
  intros Ht [Hs Hn Ha Hio] Hr l w'. split; [done|]. split; [|split].
  - split; cbn; try done. intros j [Hj|[Hj|Hj]]; [apply Hn; by left| |apply Hn; by right; right].
    apply Hn. right. left. apply (elem_delete _ _ _ _ Ht). by right.
  - intros j k Hj Hk. destruct (Hr j k Hj Hk) as [[?|[Hin|?]]|[]%elem_of_nil]; [left; by left| |left; by right; right].
    apply (elem_delete _ _ _ _ Ht) in Hin as [<-|?]; [right; by left|left; by right; left].
  - subst l. destruct t as [sock|]; [|constructor]. constructor; [|constructor]. apply Hn. right. left. by eapply list_elem_of_lookup_2.
Qed.
Lemma release_workers i w w' a : release i w = Done w' a → w_server w' = w_server w ∧ w_accept w' = w_accept w ∧ w_io w' = w_io w.
Proof. intros Hr. apply (each_release_workers [i] w w' tt). cbn [each]. unfold mbind at 1, M_bind at 1. rewrite Hr. by destruct a. Qed.
Lemma release_objects i w w' a : release i w = Done w' a → List.length (w_objects w') = List.length (w_objects w) ∧
  (∀ j, j ≠ i → w_objects w' !! j = w_objects w !! j) ∧ (referenced i w = true → w' = w).
Proof.
  intros Hrel. unfold release in Hrel. erewrite bind_done in Hrel; [|done]. destruct (referenced i w); [by injection Hrel as <-|].
  unfold mbind, M_bind in Hrel. destruct (on i Socket.close w) as [w1 b| | |] eqn:Hon; try done. injection Hrel as <- _.
  apply on_done in Hon as (k & k' & _ & _ & ->). cbn. rewrite length_insert. split; [done|]. split; [|done]. intros j Hj. by apply list_lookup_insert_ne.
Qed.
(** ** Binding *)
Lemma listen_true k n k' n' backlog : Socket.listen backlog (k, n) = Done (k', n') true → m_sock k' = m_sock k ∧ m_sock k ≠ -1.
Proof using All.
  intros Hl. destruct (listen_steady backlog k n) as (k1 & n1 & b & Hr & [Hs _] & _). rewrite Hl in Hr. injection Hr as <- <- <-. split; [done|].
  unfold Socket.listen in Hl. rewrite (bind_done _ _ (k, n) (k, n) k) in Hl by done. unfold Socket.isValid in Hl. destruct (m_sock k =? -1) eqn:E; [done|lia].
Qed.
(** Nothing but the sockets of the server changes, and it gets one more. *)
Definition bound w w' (new : list nat) : Prop :=
  m_socks (w_server w') = m_socks (w_server w) ++ new ∧ m_isStop (w_server w') = m_isStop (w_server w) ∧ w_accept w' = w_accept w ∧ w_io w' = w_io w ∧
  (List.length (w_objects w) ≤ List.length (w_objects w'))%nat ∧ (∀ j, (j < List.length (w_objects w))%nat → w_objects w' !! j = w_objects w !! j) ∧
  Forall (λ i, (List.length (w_objects w) ≤ i)%nat ∧ held w' i) new ∧ NoDup new.
Lemma release_bound w w' new i a : bound w w' new → new = [] → (List.length (w_objects w) ≤ i)%nat → ∀ w'', release i w' = Done w'' a → bound w w'' [].
Proof.
  intros (H1 & H2 & H3 & H4 & H5 & H6 & _) -> Hi w'' Hrel. pose proof Hrel as Hrel'. apply release_workers in Hrel as (Hs & Ht & Hio).
  apply release_objects in Hrel' as (Hl & Ho & _). unfold bound. rewrite Hs, Ht, Hio. split_and!; try done; [lia| |constructor]. intros j Hj. rewrite Ho by lia. by apply H6.
Qed.
Lemma bound_trans w w1 w2 l1 l2 : bound w w1 l1 → bound w1 w2 l2 → bound w w2 (l1 ++ l2).
Proof.
  intros (H1 & H2 & H3 & H4 & H5 & H6 & H7 & H8) (G1 & G2 & G3 & G4 & G5 & G6 & G7 & G8). unfold bound. rewrite G1, H1, app_assoc.
  assert (Hlt : ∀ i, i ∈ l1 → (i < List.length (w_objects w1))%nat).
  { intros i Hi. rewrite Forall_forall in H7. destruct (H7 i Hi) as [_ (k & Hk & _)]. by apply lookup_lt_Some in Hk. }
  split_and!; try congruence; [lia| | |].
  - intros j Hj. rewrite G6 by lia. by apply H6.
  - apply Forall_app. split; apply Forall_forall; intros i Hi.
    + pose proof (Hlt i Hi). rewrite Forall_forall in H7. destruct (H7 i Hi) as [? (k & Hk & ?)]. split; [done|]. exists k. by rewrite G6.
    + rewrite Forall_forall in G7. destruct (G7 i Hi) as [? ?]. split; [lia|done].
  - apply NoDup_app. split; [done|]. split; [|done]. intros i Hi Hi2. pose proof (Hlt i Hi). rewrite Forall_forall in G7. destruct (G7 i Hi2). lia.
Qed.
Lemma bound_refl w : bound w w [].
Proof. unfold bound. rewrite app_nil_r. split_and!; try done. constructor. Qed.
Lemma on_new_bound {A} w w' w'' sock (m : M (Socket * N) A) a : bound w w' [] → (List.length (w_objects w) ≤ sock)%nat → on sock m w' = Done w'' a → bound w w'' [].
Proof.
  intros (H1 & H2 & H3 & H4 & H5 & H6 & _) Hs Hon. apply on_done in Hon as (k & k' & Hk & _ & ->). unfold bound. cbn. rewrite length_insert.
  split_and!; try done; [|constructor]. intros j Hj. rewrite list_lookup_insert_ne by lia. by apply H6.
Qed.
Lemma bind_one_bound addr w w' ok : bind_one addr w = Done w' ok → bound w w' (if ok then [List.length (w_objects w)] else []).
Proof using All.
  unfold bind_one. set (sock := List.length (w_objects w)). rewrite (bind_done _ _ w (mkWorld (w_server w) (w_objects w ++ [CreateTCP addr]) (w_net w) (w_accept w) (w_io w)) sock) by done.
  set (w1 := mkWorld _ _ _ _ _). assert (Hb1 : bound w w1 []).
  { unfold bound, w1. cbn. rewrite app_nil_r, length_app. split_and!; try done; [lia| |constructor]. intros j Hj. by rewrite lookup_app_l. }
  intros H1. apply bind_inv in H1 as (w2 & ok1 & Hon1 & H1). pose proof (on_new_bound _ _ _ _ _ _ Hb1 (le_n _) Hon1) as Hb2. destruct ok1; cbn [negb] in H1.
  2:{ apply bind_inv in H1 as (w3 & [] & Hrel & H1). injection H1 as <- <-. exact (release_bound _ _ _ _ _ Hb2 eq_refl (le_n _) _ Hrel). }
  apply bind_inv in H1 as (w3 & ok2 & Hon2 & H1). pose proof (on_new_bound _ _ _ _ _ _ Hb2 (le_n _) Hon2) as Hb3. destruct ok2; cbn [negb] in H1.
  2:{ apply bind_inv in H1 as (w4 & [] & Hrel & H1). injection H1 as <- <-. exact (release_bound _ _ _ _ _ Hb3 eq_refl (le_n _) _ Hrel). }
  injection H1 as <- <-. apply on_done in Hon2 as (k & k' & Hk & Hl & ->). apply listen_true in Hl as [Hs Hne].
  destruct Hb2 as (G1 & G2 & G3 & G4 & G5 & G6 & _). unfold bound. cbn in *. rewrite app_nil_r in G1. rewrite G1, length_insert. split_and!; try done; [| |apply NoDup_singleton].
  { intros j Hj. rewrite list_lookup_insert_ne by (unfold sock; lia). by apply G6. }
  constructor; [|constructor]. split; [done|]. exists k'. cbn. rewrite list_lookup_insert_eq by (by apply lookup_lt_Some in Hk). split; [done|congruence].
Qed.
Lemma bind_loop_bound addrs : ∀ fails w w' fails', bind_loop addrs fails w = Done w' fails' →
  ∃ new bad, bound w w' new ∧ fails' = fails ++ bad ∧ sublist bad addrs ∧ List.length addrs = (List.length new + List.length bad)%nat.
Proof using All.
  induction addrs as [|addr addrs IH]; intros fails w w' fails'; cbn [bind_loop].
  { injection 1 as <- <-. exists [], []. rewrite app_nil_r. split; [apply bound_refl|]. by split_and!. }
  intros H1. apply bind_inv in H1 as (w1 & ok & Hone & H1). apply bind_one_bound in Hone. apply IH in H1 as (new & bad & Hb & -> & Hsub & Hlen).
  destruct ok.
  - exists ([List.length (w_objects w)] ++ new), bad. split; [by eapply bound_trans|]. split; [done|]. split; [by constructor|]. cbn. lia.
  - exists ([] ++ new), (addr :: bad). split; [by eapply bound_trans|]. split; [by rewrite <-app_assoc|]. split; [by constructor|]. cbn. lia.
Qed.
(** ** Tasks and clients *)
Lemma run_task_ok i w base : inv w base → reachable w [] → listening w →
  ∃ w', run_task i w = Done w' () ∧ inv w' base ∧ reachable w' [] ∧ listening w' ∧
    (m_isStop (w_server w) = true → m_isStop (w_server w') = true ∧ w_accept w' = delete i (w_accept w) ∧ w_io w' = w_io w ∧
      m_socks (w_server w') = if decide (w_accept w !! i = Some CloseSocks) then [] else m_socks (w_server w)).
Proof.
  intros Hinv Hr Hls. unfold run_task. erewrite bind_done; [|done]. destruct (w_accept w !! i) as [[sock|]|] eqn:Ht.
  - assert (Hv : valid w sock) by (apply (inv_named _ _ Hinv); right; left; by eapply list_elem_of_lookup_2).
    destruct (m_isStop (w_server w)) eqn:Hs.
    + rewrite (bind_done _ _ _ _ _ (accept_turn_stopped sock w Hs)).
      destruct (finish_task_ok i _ w base Ht Hinv Hr) as (Hf & Hinv1 & Hr1 & Hv1). rewrite (bind_done _ _ _ _ _ Hf).
      destruct (release_keeps [] sock _ base Hinv1 Hr1 Hv1) as (w2 & [] & Hrel & Hinv2 & Hr2 & _). rewrite Hrel. exists w2. split; [done|]. split; [done|].
      split; [done|]. pose proof (release_objects _ _ _ _ Hrel) as (_ & Ho & Href). apply release_workers in Hrel as (Hs2 & -> & Hio2).
      split; [apply (listening_frame w); [done|by rewrite Hs2| |by rewrite Hio2]|rewrite Hs2, Hio2; intros _].
      { intros j Hj. destruct (decide (j = sock)) as [->|]; [|by rewrite Ho]. rewrite Href; [done|]. apply referenced_named. by left. }
       cbn. rewrite decide_False by done. done.
    + destruct (accept_turn_ok sock w base Hinv Hr Hv Hs) as (w1 & Ha & Hinv1 & Hr1 & [Hs1 _] & Hone & Ho). rewrite (bind_done _ _ _ _ _ Ha). exists w1.
      split; [done|]. split; [done|]. split; [done|]. split; [|done]. apply (listening_frame w); [done|by rewrite Hs1| |].
      { intros j Hj. apply Ho, (inv_named _ _ Hinv). by left. }
      intros j Hj. destruct Hone as [->|[-> _]]; [done|]. rewrite elem_of_app, list_elem_of_singleton. intros [?| ->]; [done|].
      assert (Hlt : valid w (List.length (w_objects w))) by (apply (inv_named _ _ Hinv); by left). unfold valid in Hlt. lia.
  - destruct (close_socks_ok [] w base Hinv Hr) as (w1 & Hc & Hinv1 & Hr1 & _ & Hso & Hst & Hac & Hio); [constructor|done|]. rewrite (bind_done _ _ _ _ _ Hc).
    rewrite <-Hac in Ht. destruct (finish_task_ok i _ w1 base Ht Hinv1 Hr1) as (Hf & Hinv2 & Hr2 & _). rewrite Hf. eexists. split; [done|]. split; [done|].
    split; [exact Hr2|]. split; [by apply listening_none|]. intros Hs. cbn. rewrite Hst, Hac, Hio, Hs, Hso, decide_True by done. done.
  - exists w. split; [done|]. split; [done|]. split; [done|]. split; [done|]. intros Hs. rewrite decide_False by done. split_and!; try done.
    symmetry. by apply delete_none.
Qed.
Lemma run_client_ok handle i w base : safe handle → inv w base → reachable w [] →
  ∃ w', run_client handle i w = Done w' () ∧ inv w' base ∧ reachable w' [] ∧
    w_server w' = w_server w ∧ w_accept w' = w_accept w ∧ w_io w' = delete i (w_io w) ∧ (listening w → listening w').
Proof.
  intros Hh Hinv Hr. unfold run_client. erewrite bind_done; [|done]. destruct (w_io w !! i) as [c|] eqn:Hc.
  2:{ exists w. split; [done|]. split_and!; try done. symmetry. by apply delete_none. }
  assert (Hv : valid w c) by (apply (inv_named _ _ Hinv); right; right; by eapply list_elem_of_lookup_2).
  assert (Hr1 : reachable w [c]) by (intros j k Hj Hk; destruct (Hr j k Hj Hk) as [?|[]%elem_of_nil]; by left).
  destruct (on_keeps [c] c handle Hh ltac:(by left) w base Hinv Hr1 ltac:(by constructor)) as (w1 & [] & Hrun & Hinv1 & Hr2 & Hv1).
  rewrite (bind_done _ _ _ _ _ Hrun).
  assert (Hw : w_server w1 = w_server w ∧ w_accept w1 = w_accept w ∧ w_io w1 = w_io w ∧ ∀ j, j ≠ c → w_objects w1 !! j = w_objects w !! j).
  { apply on_done in Hrun as (k & k' & _ & _ & ->). cbn. do 3 (split; [done|]). intros j Hj. by apply list_lookup_insert_ne. }
  destruct Hw as (Hs1 & Ha1 & Hio1 & Ho1).
  set (w2 := mkWorld (w_server w1) (w_objects w1) (w_net w1) (w_accept w1) (delete i (w_io w1))).
  rewrite (bind_done _ _ w1 w2 ()) by done. pose proof Hc as Hc'. rewrite <-Hio1 in Hc'.
  assert (Hinv2 : inv w2 base).
  { destruct Hinv1 as [H1 H2 H3 H4]. split; try done. intros j [Hj|[Hj|Hj]]; [apply H2; by left|apply H2; by right; left|].
    apply H2. right. right. apply (elem_delete _ _ _ _ Hc'). by right. }
  assert (Hr3 : reachable w2 [c]).
  { intros j k Hj Hk. destruct (Hr2 j k Hj Hk) as [[?|[?|Hin]]|?]; [left; by left|left; by right; left| |by right].
    apply (elem_delete _ _ _ _ Hc') in Hin as [->|?]; [right; by left|left; by right; right]. }
  destruct (release_keeps [] c w2 base Hinv2 Hr3 Hv1) as (w3 & [] & Hrel & Hinv3 & Hr4 & _). exists w3. split; [done|]. split; [done|]. split; [done|].
  pose proof (release_objects _ _ _ _ Hrel) as (_ & Ho3 & _). apply release_workers in Hrel as (Hs3 & -> & Hio3). rewrite Hs3, Hio3. cbn. rewrite Hs1, Ha1, Hio1.
  do 3 (split; [done|]). intros Hls. apply (listening_frame w); [done|by rewrite Hs3; cbn; rewrite Hs1| |].
  - intros j Hj. destruct Hls as [_ Hls]. destruct (Hls j Hj) as [_ Hnj].
    assert (j ≠ c) by (intros ->; apply Hnj; by eapply list_elem_of_lookup_2). rewrite Ho3 by done. cbn. by apply Ho1.
  - intros j _ Hj. rewrite Hio3 in Hj. cbn in Hj. rewrite Hio1 in Hj. apply (elem_delete _ _ _ _ Hc). by right.
Qed.

(** ** A program with its server *)
Inductive sact := ABind (addrs fails : list Address) (ssl : bool) | AStart | AStop | ATask (i : nat) | AClient (i : nat) | ADestroy
  | ASetRecvTimeout (v : Z) | ASetName (v : string).
Section program.
Context (handle : M (Socket * N) ()).
Definition sperform (a : sact) : M (world N) () :=
  match a with
  | ABind addrs fails ssl => bind addrs fails ssl ;; mret ()
  | AStart => start ;; mret ()
  | AStop => stop
  | ATask i => run_task i
  | AClient i => run_client handle i
  | ADestroy => destroy
  | ASetRecvTimeout v => upd (setRecvTimeout v)
  | ASetName v => upd (setName v)
  end.
Fixpoint sperforms (l : list sact) : M (world N) () := match l with [] => mret () | a :: l => sperform a ;; sperforms l end.
Definition world_new (read_timeout : Z) (worker io_worker accept_worker : string) n : world N :=
  mkWorld (TcpServer_new read_timeout (Some worker) (Some io_worker) (Some accept_worker)) [] n [] [].
Lemma world_new_inv t a b c n : inv (world_new t a b c n) (mine n) ∧ reachable (world_new t a b c n) [].
Proof.
  split; [split; cbn; [|intros i [H1|[H1|H1]]; by apply elem_of_nil in H1|done|done]|intros i k Hi; cbn in Hi; by rewrite lookup_nil in Hi].
  unfold sound. cbn. rewrite union_empty_l_L. split; [done|]. split; [by apply NoDup_nil_2|set_solver].
Qed.
Lemma world_new_listening t a b c n : listening (world_new t a b c n).
Proof. by apply listening_none. Qed.
Lemma bind_listening addrs fails ssl w base : inv w base → reachable w [] → listening w →
  ∃ w' r, bind addrs fails ssl w = Done w' r ∧ inv w' base ∧ reachable w' [] ∧ listening w'.
Proof.
  intros Hinv Hr [Hnd Hls]. destruct (upd_same_keeps [] (set_ssl ssl) (λ _, eq_refl) (λ _, eq_refl) (λ _, eq_refl) w base Hinv Hr) as (w1 & [] & Hu & Hinv1 & Hr1 & Hv1); [constructor|].
  destruct (bind_loop_keeps addrs [] fails w1 base Hinv1 Hr1 Hv1) as (w2 & fails' & Hloop & Hinv2 & Hr2 & Hv2).
  pose proof (bind_loop_bound _ _ _ _ _ Hloop) as (new & bad & (Hso & _ & _ & Hio & _ & Hold & Hnew & Hndn) & _).
  unfold bind. rewrite (bind_done _ _ _ _ _ Hu), (bind_done _ _ _ _ _ Hloop). unfold upd, modify in Hu. injection Hu as <-. cbn in *.
  case_bool_decide as Hne.
  - destruct (clear_ok [] w2 base Hinv2 Hr2 Hv2) as (w3 & Hc & Hinv3 & Hr3 & _ & Hso3 & _). rewrite (bind_done _ _ _ _ _ Hc).
    eexists w3, _. split; [done|]. split; [done|]. split; [done|]. by apply listening_none.
  - eexists w2, _. split; [done|]. split; [done|]. split; [done|]. rewrite Forall_forall in Hnew.
    assert (Hlt : ∀ i, named w i → (i < List.length (w_objects w))%nat) by exact (inv_named _ _ Hinv).
    unfold listening. rewrite Hso. split.
    + apply NoDup_app. split; [done|]. split; [|done]. intros i Hi Hi2. destruct (Hnew i Hi2) as [Hge _]. specialize (Hlt i ltac:(by left)). lia.
    + intros i [Hi|Hi]%elem_of_app.
      * rewrite Hio. destruct (Hls i Hi) as [Hh Hni]. split; [|done]. unfold held. rewrite Hold by (apply Hlt; by left). done.
      * destruct (Hnew i Hi) as [Hge Hh]. split; [done|]. rewrite Hio. intros Hin. specialize (Hlt i ltac:(by right; right)). lia.
Qed.
Lemma destroy_ok w base : inv w base → reachable w [] → ∃ w', destroy w = Done w' () ∧ inv w' base ∧ reachable w' [] ∧ listening w'.
Proof.
  intros Hinv Hr. unfold destroy. erewrite bind_done; [|done].
  destruct (each_named_ok (λ sock, on sock Socket.close ;; mret ()) [] base) with (socks := m_socks (w_server w)) (w := w)
    as (w1 & Hrun & _ & _ & _ & Hinv1 & Hr1 & Hv1); try done.
  { intros i w1 Hinv1 Hr1 Hv1 Hi. destruct (on_named_keeps [] i w1 base Socket.close close_safe close_mild Hinv1 Hr1 Hv1 Hi) as (w2 & b & Hrun & ?).
    exists w2. by rewrite (bind_done _ _ _ _ _ Hrun). }
  rewrite (bind_done _ _ _ _ _ Hrun). destruct (clear_ok [] w1 base Hinv1 Hr1 Hv1) as (w2 & Hc & ? & ? & _ & ? & _). exists w2. split_and!; try done. by apply listening_none.
Qed.
Context (Hh : safe handle).
Lemma sperform_ok a w base : inv w base → reachable w [] → listening w → ∃ w', sperform a w = Done w' () ∧ inv w' base ∧ reachable w' [] ∧ listening w'.
Proof using Hh.
  intros Hinv Hr Hl. assert (Hv : Forall (valid w) []) by constructor.
  assert (Hupd : ∀ f, (∀ s, m_acceptWorker (f s) = m_acceptWorker s) → (∀ s, m_ioWorker (f s) = m_ioWorker s) → (∀ s, m_socks (f s) = m_socks s) →
    ∃ w', upd f w = Done w' () ∧ inv w' base ∧ reachable w' [] ∧ listening w').
  { intros f H1 H2 H3. destruct (upd_same_keeps [] f H1 H2 H3 w base Hinv Hr Hv) as (w' & [] & Hrun & ? & ? & _). exists w'. do 3 (split; [done|]).
    unfold upd, modify in Hrun. injection Hrun as <-. apply (listening_frame w); cbn; auto. }
  destruct a as [addrs fails ssl| | |i|i| |v|v]; cbn [sperform].
  - destruct (bind_listening addrs fails ssl w base Hinv Hr Hl) as (w' & r & Hrun & ?). exists w'. by rewrite (bind_done _ _ _ _ _ Hrun).
  - destruct (start_ok [] w base Hinv Hr Hv) as (w' & Hrun & ? & ? & _ & _ & _ & Hs & Ho & _ & Hio). exists w'. rewrite (bind_done _ _ _ _ _ Hrun).
    do 3 (split; [done|]). apply (listening_frame w); [done..| |]; intros ? _; by rewrite ?Ho, ?Hio.
  - destruct (stop_ok [] w base Hinv Hr Hv) as (w' & Hrun & ? & ? & _ & _ & _ & Hs & Ho & _ & Hio). exists w'.
    do 3 (split; [done|]). apply (listening_frame w); [done..| |]; intros ? _; by rewrite ?Ho, ?Hio.
  - destruct (run_task_ok i w base Hinv Hr Hl) as (w' & Hrun & ? & ? & ? & _). by exists w'.
  - destruct (run_client_ok handle i w base Hh Hinv Hr) as (w' & Hrun & ? & ? & _ & _ & _ & Hl'). exists w'. auto.
  - by apply destroy_ok.
  - by apply Hupd.
  - by apply Hupd.
Qed.
Lemma sperforms_ok (acts : list sact) : ∀ w base, inv w base → reachable w [] → listening w →
  ∃ w', sperforms acts w = Done w' () ∧ inv w' base ∧ reachable w' [] ∧ listening w'.
Proof using Hh.
  induction acts as [|a acts IH]; intros w base Hinv Hr Hl; cbn [sperforms]; [by exists w|].
  destruct (sperform_ok a w base Hinv Hr Hl) as (w1 & Hrun & ? & ? & ?). rewrite (bind_done _ _ _ _ _ Hrun). by apply IH.
Qed.

(** The order in which the tasks of a queue of length [n] end: places in what is left. *)
Fixpoint picks (l : list nat) (n : nat) : bool :=
  match l, n with [], O => true | i :: l, S n => bool_decide (i < S n)%nat && picks l n | _, _ => false end.
Fixpoint run_tasks (l : list nat) : M (world N) () := match l with [] => mret () | i :: l => run_task i ;; run_tasks l end.
Fixpoint run_clients (l : list nat) : M (world N) () := match l with [] => mret () | i :: l => run_client handle i ;; run_clients l end.
Lemma run_tasks_ok l : ∀ w base, inv w base → reachable w [] → listening w → m_isStop (w_server w) = true → picks l (List.length (w_accept w)) = true →
  (CloseSocks ∈ w_accept w ∨ m_socks (w_server w) = []) →
  ∃ w', run_tasks l w = Done w' () ∧ inv w' base ∧ reachable w' [] ∧ w_accept w' = [] ∧ m_socks (w_server w') = [] ∧ w_io w' = w_io w.
Proof.
  induction l as [|i l IH]; intros w base Hinv Hr Hl Hs Hp Hc; cbn [run_tasks].
  - destruct (w_accept w) eqn:E; [|done]. exists w. destruct Hc as [[]%elem_of_nil|Hc]. by split_and!.
  - destruct (run_task_ok i w base Hinv Hr Hl) as (w1 & Hrun & Hinv1 & Hr1 & Hl1 & Hst). destruct (Hst Hs) as (Hs1 & Ha1 & Hio1 & Hso1).
    rewrite (bind_done _ _ _ _ _ Hrun). destruct (List.length (w_accept w)) as [|m] eqn:Hlen; [done|]. cbn [picks] in Hp. apply andb_true_iff in Hp as [Hi Hp].
    apply bool_decide_eq_true in Hi. assert (is_Some (w_accept w !! i)) as [t Ht] by (apply lookup_lt_is_Some_2; lia).
    destruct (IH w1 base Hinv1 Hr1 Hl1 Hs1) as (w2 & Hrun2 & ? & ? & ? & ? & Hio2).
    + rewrite Ha1, length_delete by done. by rewrite Hlen, Nat.sub_succ, Nat.sub_0_r.
    + rewrite Hso1, Ha1. case_decide as Hd; [by right|]. destruct Hc as [Hc|Hc]; [|by right]. left.
      apply (elem_delete _ _ _ _ Ht) in Hc as [<-|?]; [by rewrite Ht in Hd|done].
    + exists w2. split; [done|]. split_and!; congruence || done.
Qed.
Lemma run_clients_ok l : ∀ w base, inv w base → reachable w [] → picks l (List.length (w_io w)) = true →
  ∃ w', run_clients l w = Done w' () ∧ inv w' base ∧ reachable w' [] ∧ w_accept w' = w_accept w ∧ w_server w' = w_server w ∧ w_io w' = [].
Proof using Hh.
  induction l as [|i l IH]; intros w base Hinv Hr Hp; cbn [run_clients].
  - destruct (w_io w) eqn:E; [|done]. by exists w.
  - destruct (run_client_ok handle i w base Hh Hinv Hr) as (w1 & Hrun & Hinv1 & Hr1 & Hs1 & Ha1 & Hio1 & _).
    rewrite (bind_done _ _ _ _ _ Hrun). destruct (List.length (w_io w)) as [|m] eqn:Hlen; [done|]. cbn [picks] in Hp. apply andb_true_iff in Hp as [Hi Hp].
    apply bool_decide_eq_true in Hi. assert (is_Some (w_io w !! i)) as [t Ht] by (apply lookup_lt_is_Some_2; lia).
    destruct (IH w1 base Hinv1 Hr1) as (w2 & Hrun2 & ? & ? & ? & ? & Hio2); [by rewrite Hio1, length_delete, Hlen, Nat.sub_succ, Nat.sub_0_r by done|].
    exists w2. split; [done|]. split_and!; congruence || done.
Qed.
End program.

Lemma wind_down handle acts t a b c n : safe handle → ∃ w, sperforms handle acts (world_new t a b c n) = Done w () ∧
  mine (w_net w) = list_to_set (descriptors (w_objects w)) ∪ mine n ∧ NoDup (descriptors (w_objects w)) ∧
  (∀ i k, w_objects w !! i = Some k → m_sock k ≠ -1 → named w i) ∧
  ∃ w1, stop w = Done w1 () ∧ ∀ tasks, picks tasks (List.length (w_accept w1)) = true →
    ∃ w2, run_tasks tasks w1 = Done w2 () ∧ w_accept w2 = [] ∧ m_socks (w_server w2) = [] ∧ w_io w2 = w_io w ∧
      ∀ clients, picks clients (List.length (w_io w2)) = true →
        ∃ w3, run_clients handle clients w2 = Done w3 () ∧ mine (w_net w3) = mine n ∧ Forall (λ k, m_sock k = -1) (w_objects w3).
Proof.
  intros Hh. destruct (world_new_inv t a b c n) as [Hinv0 Hr0].
  destruct (sperforms_ok handle Hh acts _ _ Hinv0 Hr0 (world_new_listening t a b c n)) as (w & Hrun & Hinv & Hr & Hl). exists w. split; [done|].
  destruct (inv_sound _ _ Hinv) as (Hm & Hnd & _). split; [done|]. split; [done|].
  split; [intros i k Hi Hk; destruct (Hr i k Hi Hk) as [?|[]%elem_of_nil]; done|].
  destruct (stop_ok [] w (mine n) Hinv Hr) as (w1 & Hstop & Hinv1 & Hr1 & _ & Hs1 & Ha1 & Hso1 & Hob1 & _ & Hio1); [constructor|]. exists w1. split; [done|].
  assert (Hl1 : listening w1) by (apply (listening_frame w); [done..| |]; intros ? _; by rewrite ?Hob1, ?Hio1).
  intros tasks Ht. destruct (run_tasks_ok tasks w1 (mine n) Hinv1 Hr1 Hl1 Hs1 Ht) as (w2 & Hrun2 & Hinv2 & Hr2 & Ha2 & Hso2 & Hio2).
  { left. rewrite Ha1. apply elem_of_app. right. by left. }
  exists w2. split; [done|]. split; [done|]. split; [done|]. split; [congruence|].
  intros clients Hc. destruct (run_clients_ok handle Hh clients w2 (mine n) Hinv2 Hr2 Hc) as (w3 & Hrun3 & Hinv3 & Hr3 & Ha3 & Hse3 & Hio3).
  exists w3. split; [done|].
  assert (Hall : Forall (λ k, m_sock k = -1) (w_objects w3)).
  { apply Forall_lookup. intros i k Hi. destruct (decide (m_sock k = -1)) as [|Hk]; [done|].
    destruct (Hr3 i k Hi Hk) as [[H1|[H1|H1]]|[]%elem_of_nil]; [rewrite Hse3, Hso2 in H1|rewrite Ha3, Ha2 in H1|rewrite Hio3 in H1]; by apply elem_of_nil in H1. }
  split; [|done]. destruct (inv_sound _ _ Hinv3) as (-> & _). enough (descriptors (w_objects w3) = []) as -> by (cbn; apply union_empty_l_L).
  clear -Hall. induction Hall as [|k ks Hk _ IH]; [done|]. rewrite descriptors_cons, Hk. done.
Qed.
(** C10: Whatever the program does with its server - binding, starting, stopping, running
    turns of its accept loops and its clients in any order, destroying it - every call
    returns, the descriptors that are open are exactly those of its socket objects and each
    belongs to one object, and an object that holds a descriptor is still pointed to by the
    server, by an accept loop or by a client to be handled.  When the server is then stopped,
    and every task and every client gets its turn in any order, no task is left and every
    descriptor is closed. *)
Theorem server_winds_down handle acts t a b c n : safe handle → ∃ w, sperforms handle acts (world_new t a b c n) = Done w () ∧
  mine (w_net w) = list_to_set (descriptors (w_objects w)) ∪ mine n ∧ NoDup (descriptors (w_objects w)) ∧
  (∀ i k, w_objects w !! i = Some k → m_sock k ≠ -1 → named w i) ∧
  ∃ w1, stop w = Done w1 () ∧ ∀ tasks, picks tasks (List.length (w_accept w1)) = true →
    ∃ w2, run_tasks tasks w1 = Done w2 () ∧ w_accept w2 = [] ∧ m_socks (w_server w2) = [] ∧ w_io w2 = w_io w ∧
      ∀ clients, picks clients (List.length (w_io w2)) = true →
        ∃ w3, run_clients handle clients w2 = Done w3 () ∧ mine (w_net w3) = mine n ∧ Forall (λ k, m_sock k = -1) (w_objects w3).
Proof. apply wind_down. Qed.

(** ** What binding answers *)
(** Binding a list of addresses returns, and reports as failed a part of them, in
    their order, behind those it was given.  It succeeds exactly when that list is empty;
    then the server has one more socket for each address, a new object of its own that
    holds a descriptor; otherwise the server has no socket at all, those it had before
    included, and what nobody else points to is closed. *)
Theorem server_bind_spec addrs fails ssl w base : inv w base → reachable w [] →
  ∃ w' ok fails', bind addrs fails ssl w = Done w' (ok, fails') ∧ inv w' base ∧ reachable w' [] ∧
    (∃ bad, fails' = fails ++ bad ∧ sublist bad addrs) ∧ (ok = true ↔ fails' = []) ∧
    w_accept w' = w_accept w ∧ w_io w' = w_io w ∧ m_isStop (w_server w') = m_isStop (w_server w) ∧
    if ok then ∃ new, m_socks (w_server w') = m_socks (w_server w) ++ new ∧ List.length new = List.length addrs ∧ NoDup new ∧
      Forall (λ i, (List.length (w_objects w) ≤ i)%nat ∧ held w' i) new
    else m_socks (w_server w') = [].
Proof.
  intros Hinv Hr. destruct (upd_same_keeps [] (set_ssl ssl) (λ _, eq_refl) (λ _, eq_refl) (λ _, eq_refl) w base Hinv Hr) as (w1 & [] & Hu & Hinv1 & Hr1 & Hv1); [constructor|].
  destruct (bind_loop_keeps addrs [] fails w1 base Hinv1 Hr1 Hv1) as (w2 & fails' & Hloop & Hinv2 & Hr2 & Hv2).
  pose proof (bind_loop_bound _ _ _ _ _ Hloop) as (new & bad & (Hso & Hst & Hac & Hio & _ & _ & Hnew & Hnd) & Hf & Hsub & Hlen).
  unfold bind. rewrite (bind_done _ _ _ _ _ Hu), (bind_done _ _ _ _ _ Hloop). unfold upd, modify in Hu. injection Hu as <-. cbn in *.
  case_bool_decide as Hne.
  - destruct (clear_ok [] w2 base Hinv2 Hr2 Hv2) as (w3 & Hc & Hinv3 & Hr3 & _ & Hso3 & Hst3 & Ha3 & Hio3). rewrite (bind_done _ _ _ _ _ Hc).
    exists w3, false, fails'. split; [done|]. split; [done|]. split; [done|]. split; [by exists bad|]. split; [done|]. split_and!; congruence.
  - exists w2, true, fails'. split; [done|]. split; [done|]. split; [done|]. split; [by exists bad|]. split; [done|]. split; [done|]. split; [done|].
    split; [done|]. exists new. subst fails'. apply app_eq_nil in Hne as [_ ->]. cbn in Hlen. split; [done|]. split; [lia|done].
Qed.
End facts.

#[local] Existing Instance little_host.
(** Two ports; connections that are waiting. *)
Definition port (p : Z) : Address := IPv4Address (IPv4Address_new 0 p).
Definition server0 (pending : list (list Z)) : world network := world_new 120000 "w" "io" "accept" (mkNetwork ∅ ∅ [] pending).
Lemma handleClient_safe : safe (N := network) handleClient.
Proof. intros k n base Ho. by exists k, n, (). Qed.
Lemma server_winds_down_witness :
  let acts := [ABind [port 80] [] false; AStart; ATask 0; ATask 0] in
  ∃ w w1 w2 w3, sperforms handleClient acts (server0 [[]; []]) = Done w () ∧ stop w = Done w1 () ∧ List.length (w_io w) = 2%nat ∧
    run_tasks [1; 0]%nat w1 = Done w2 () ∧ run_clients handleClient [1; 0]%nat w2 = Done w3 () ∧ mine (w_net w3) = ∅.
Proof.
  intros acts. destruct (server_winds_down handleClient acts 120000 "w" "io" "accept" (mkNetwork ∅ ∅ [] [[]; []]) handleClient_safe)
    as (w & Hrun & _ & _ & _ & w1 & Hstop & Ht).
  assert (Hio : List.length (w_io w) = 2%nat) by (clear Ht; vm_compute in Hrun; injection Hrun as <-; reflexivity).
  assert (Hac : List.length (w_accept w1) = 2%nat) by (clear Ht; vm_compute in Hrun; injection Hrun as <-; vm_compute in Hstop; injection Hstop as <-; reflexivity).
  destruct (Ht [1; 0]%nat) as (w2 & H2 & _ & _ & Hio2 & Hc); [rewrite Hac; reflexivity|].
  destruct (Hc [1; 0]%nat) as (w3 & H3 & H4 & _); [rewrite Hio2, Hio; reflexivity|].
  exists w, w1, w2, w3. split; [exact Hrun|]. split; [exact Hstop|]. split; [exact Hio|]. split; [exact H2|]. split; [exact H3|exact H4].
Defined.
Lemma server_bind_spec_witness :
  ∃ w', bind [port 80; port 8080] [] false (server0 []) = Done w' (true, []) ∧ List.length (m_socks (w_server w')) = 2%nat.
Proof.
  destruct (world_new_inv 120000 "w" "io" "accept" (mkNetwork ∅ ∅ [] [])) as [Hi Hr].
  destruct (server_bind_spec [port 80; port 8080] [] false (server0 []) _ Hi Hr) as (w' & ok & fails' & H1 & _ & _ & _ & H2 & _ & _ & _ & H3).
  exists w'. vm_compute in H1. injection H1 as <- <- <-. split; [vm_compute; reflexivity|reflexivity].
Defined.
(** A server that is started again before the function that [stop] scheduled has run: that
    function closes the sockets of the server that runs, which counts as started, has no
    socket, and whose loops turn for ever on the closed ones. *)
Definition restarted : result (world network) () :=
  sperforms handleClient [ABind [port 80] [] false; AStart; AStop; AStart; ATask 1] (server0 [[]]).
Example restart_race : ∃ w, restarted = Done w () ∧ m_isStop (w_server w) = false ∧ m_socks (w_server w) = [] ∧
  w_accept w = [StartAccept 0; StartAccept 0] ∧ accept_turn 0 w = Done w true ∧ ∀ fuel, startAccept fuel 0 w = NoFuel.
Proof.
  unfold restarted. eexists. split; [vm_compute; reflexivity|]. split; [done|]. split; [done|]. split; [done|].
  match goal with |- accept_turn 0 ?w = _ ∧ _ => assert (Ht : accept_turn 0 w = Done w true) by (vm_compute; reflexivity) end.
  split; [exact Ht|]. induction fuel as [|fuel IH]; [done|]. cbn [startAccept]. by rewrite (bind_done _ _ _ _ _ Ht).
Qed.
