(* ===== verification/HttpService.v ===== *)
(** * HttpService ([webserve/http/http_server.h], [http_server.cc], [http_session.cc]): HttpServer as a TcpServer

    The object of the HTTP server, the session over the socket of a client, and what a
    worker of the TcpServer runs for a client. What a client can do to it. *)
From S2P Require Import Prelude Endian Text ByteArray Http HttpFacts Servlet Callbacks Ragel Http11 Http11Facts HttpParser HttpParserFacts FdManager Address IOManager Hook Socket Network SocketFacts Stream Segments SocketStream SocketStreamFacts HttpSession HttpSessionFacts HttpServer TcpServerConf TcpServer TcpServerFacts.
Open Scope Z_scope.

Record HttpServer := mkHttpServer { m_base : TcpServer; m_isKeepalive : bool; m_dispatch : ServletDispatch }.
Definition HttpServer_new (read_timeout : Z) (keepalive : bool) (worker io_worker accept_worker : option string) : HttpServer :=
  mkHttpServer (TcpServer_new read_timeout worker io_worker accept_worker) keepalive ServletDispatch_new.
Definition getServletDispatch (s : HttpServer) : ServletDispatch := m_dispatch s.
Definition setServletDispatch (v : ServletDispatch) (s : HttpServer) : HttpServer := mkHttpServer (m_base s) (m_isKeepalive s) v.
Definition setName (v : string) (s : HttpServer) : HttpServer := mkHttpServer (TcpServer.setName v (m_base s)) (m_isKeepalive s) (m_dispatch s).

Section service.
Context {N : Type} `{!Net N, !Host, !Alloc}.
(** As in HttpSession and Servlet: the conversion of lengths, the configured size of the
    buffer, the memory of a new parser, [fnmatch] and the user's servlets. *)
Context (lexical_cast : string → option Z) (buff_size : Z) (mem : http_parser) (fnmatch : string → string → bool).
Context (run : Servlet → HttpRequest → HttpResponse → M (conn N) (HttpRequest * HttpResponse)).
(** The session reads and writes memory; the ByteArray of the stream's state is not used. *)
Context (unused : ByteArray).

(** [HttpSession::HttpSession]; the socket is the session's to close. *)
Definition HttpSession_new (sock : Socket) (owner : bool) : SocketStream := SocketStream_new (Some sock) owner.
(** The session is an object of the function: its destructor runs when that returns and
    when it throws. *)
Definition scoped (m : M (conn N) ()) : M (conn N) () := λ c,
  match m c with
  | Done c _ => SocketStream.destroy c
  | Raise c e => (SocketStream.destroy ;; raise e) c
  | Undef u => Undef u
  | NoFuel => NoFuel
  end.
(** A new session on the client's socket, which is the object the session points to. *)
Definition on_client {A} (m : M (conn N) A) : M (Socket * N) A := λ s,
  match m (mkConn (HttpSession_new s.1 true) unused s.2) with
  | Done c a => Done (default s.1 (m_socket (c_stream c)), c_net c) a
  | Raise c e => Raise (default s.1 (m_socket (c_stream c)), c_net c) e
  | Undef u => Undef u
  | NoFuel => NoFuel
  end.
(** [HttpServer::handleClient] *)
Definition handleClient (fuel : nat) (s : HttpServer) : M (Socket * N) () :=
  on_client (scoped (HttpServer.handleClient (Session0 := http_session lexical_cast buff_size mem fuel)
    fnmatch run fuel (m_name (m_base s)) (m_isKeepalive s) (m_dispatch s))).
(** The task of the client, in a fiber: [Fiber::MainFunc] catches what it throws. *)
Definition client_task (fuel : nat) (s : HttpServer) : M (Socket * N) () := λ k,
  match handleClient fuel s k with Raise k _ => Done k () | r => r end.
End service.

(** ** What the session keeps of its stream *)
Section kept.
Context {S : Type} `{!Stream S} (P : S → Prop).
Definition kept {A} (m : M S A) : Prop := ∀ s, P s → match m s with Done s' _ | Raise s' _ => P s' | _ => True end.
Lemma kept_ret {A} (a : A) : kept (mret a).
Proof. by intros s. Qed.
Lemma kept_nofuel {A} : kept (nofuel : M S A).
Proof. by intros s. Qed.
Lemma kept_bind {A B} (m : M S A) (k : A → M S B) : kept m → (∀ a, kept (k a)) → kept (m ≫= k).
Proof. intros Hm Hk s Hs. specialize (Hm s Hs). unfold mbind, M_bind. destruct (m s) as [s1 a| | |]; try done. by apply Hk. Qed.
Lemma kept_local {T A} (m : M T A) t : kept (local m t).
Proof. intros s Hs. unfold local. by destruct (m t). Qed.

Lemma kept_raise {A} e : kept (raise e : M S A).
Proof. by intros s. Qed.
Lemma kept_stored size offset d : kept (stored size offset d).
Proof. intros s Hs. unfold stored. by destruct (size <? offset + zlen d). Qed.

Hypothesis read_kept : ∀ n, kept (Stream.read n).
Hypothesis write_kept : ∀ d, kept (Stream.write d).
Hypothesis close_kept : kept Stream.close.
#[local] Set Default Proof Using "All".
Ltac kept := repeat first
  [ apply kept_ret | apply kept_nofuel | apply kept_raise | apply kept_stored | apply kept_local | apply read_kept | apply write_kept | apply close_kept
  | match goal with |- kept (mbind _ _) => apply kept_bind; [|intros] | |- kept (match ?x with _ => _ end) => destruct x end ].
Lemma readFixSize_kept n : kept (readFixSize n).
Proof.
  unfold readFixSize. apply kept_bind; [|intros [? ?]; kept].
  generalize (@nil Z) as d, (s64 n) as left. induction (Z.to_nat n) as [|fuel IH]; intros d left; cbn [readFixSize_loop]; kept. apply IH.
Qed.
Lemma writeFixSize_kept d : kept (writeFixSize d).
Proof.
  unfold writeFixSize. apply kept_bind; [|intros; kept].
  generalize 0 as offset, (s64 (zlen d)) as left. induction (List.length d) as [|fuel IH]; intros offset left; cbn [writeFixSize_loop]; kept. apply IH.
Qed.
Lemma recvRequest_kept lexical_cast buff_size mem fuel : kept (recvRequest lexical_cast buff_size mem fuel).
Proof.
  unfold recvRequest. apply kept_bind.
  - generalize (HttpRequestParser_new mem) as prs, ""%string as data, 0 as offset.
    induction fuel as [|fuel IH]; intros prs data offset; cbn [recv_loop]; kept. apply IH.
  - intros [[[prs data] offset]|]; [|kept]. unfold recv_body. kept; try apply readFixSize_kept.
Qed.
Lemma handleClient_kept lexical_cast buff_size mem fnmatch run fuel name keepalive d : (∀ slt rq rs, kept (run slt rq rs)) →
  kept (HttpServer.handleClient (Session0 := http_session lexical_cast buff_size mem fuel) fnmatch run fuel name keepalive d).
Proof.
  intros Hrun. unfold HttpServer.handleClient. apply kept_bind; [|intros; apply close_kept].
  enough (∀ turns, kept (client_loop (Session0 := http_session lexical_cast buff_size mem fuel) fnmatch run turns name keepalive d)) by done.
  induction turns as [|turns IH]; cbn [client_loop]; [kept|]. apply kept_bind; [apply recvRequest_kept|]. intros [rq|]; [|kept].
  apply kept_bind; [|intros [rq' rs]; apply kept_bind; [apply writeFixSize_kept|intros; kept; apply IH]].
  unfold handle. destruct (getMatchedServlet _ _ _) as [[]|]; (apply kept_ret || apply Hrun).
Qed.
End kept.

(** ** The loop over the requests ends: every request takes bytes from the stream *)
Section ends.
Context {S : Type} `{!Stream S, !StreamLaws S} (P : S → Prop).
Hypothesis read_kept : ∀ n, kept P (Stream.read n).
Hypothesis write_kept : ∀ d, kept P (Stream.write d).
Hypothesis close_kept : kept P Stream.close.
Hypothesis write_ends : ∀ d s, ∃ s' r, Stream.write d s = Done s' r ∧ r ≤ zlen d ∧ incoming s' = incoming s.
Context (lexical_cast : string → option Z) (buff_size : Z) (mem : http_parser).
Hypothesis Hbuff : 0 < buff_size < 2 ^ 31.
Hypothesis Hmem : 0 ≤ query_start mem < 2 ^ 63.
#[local] Set Default Proof Using "All".

Lemma writeFixSize_ends d s : ∃ s' r, writeFixSize d s = Done s' r ∧ incoming s' = incoming s.
Proof.
  unfold writeFixSize. set (left := s64 (zlen d)).
  assert (Hl : left ≤ Z.of_nat (List.length d) ∧ left < 2 ^ 63).
  { unfold left, s64, zlen. pose proof (Z.mod_pos_bound (Z.of_nat (List.length d) + 2 ^ 63) (2 ^ 64)).
    pose proof (Z.mod_le (Z.of_nat (List.length d) + 2 ^ 63) (2 ^ 64)). lia. }
  revert Hl. generalize (List.length d) as fuel, 0 as offset, left. clear left. intros fuel offset left Hl.
  enough (∃ s' e, writeFixSize_loop fuel d offset left s = Done s' e ∧ incoming s' = incoming s) as (s' & e & Hr & Hi).
  { rewrite (bind_done _ _ _ _ _ Hr). by eexists _, _. }
  revert offset left Hl s. induction fuel as [|fuel IH]; intros offset left Hl s; cbn [writeFixSize_loop].
  { if_false. by eexists _, _. }
  destruct (left >? 0) eqn:Hpos; [|by eexists _, _].
  destruct (write_ends (slice offset left d) s) as (s1 & r & Hw & Hr & Hi). rewrite (bind_done _ _ _ _ _ Hw).
  destruct (r <=? 0) eqn:Hr0; [by eexists _, _|]. assert (zlen (slice offset left d) ≤ left).
  { unfold slice, zlen, ztake. rewrite length_take. lia. }
  rewrite s64_small by lia. destruct (IH (u64 (offset + r)) (left - r) ltac:(lia) s1) as (s' & e & Hrun & Hi'). exists s', e. split; [done|congruence].
Qed.
Lemma client_loop_ends fnmatch run fuel name keepalive d :
  (∀ slt rq rs s, P s → match run slt rq rs s with
    | Done s' _ => P s' ∧ (List.length (incoming s') ≤ List.length (incoming s))%nat | Raise s' _ => P s' | _ => False end) →
  ∀ turns s, P s → (List.length (incoming s) < turns)%nat → (List.length (incoming s) < fuel)%nat →
  match client_loop (Session0 := http_session lexical_cast buff_size mem fuel) fnmatch run turns name keepalive d s with Done s' _ | Raise s' _ => P s' | _ => False end.
Proof.
  intros Hrun. induction turns as [|turns IH]; intros s Hs Ht Hf; [lia|]. cbn [client_loop session_recv session_send http_session].
  pose proof (recvRequest_takes lexical_cast buff_size mem Hbuff fuel s Hf Hmem) as Htake.
  pose proof (recvRequest_kept P read_kept write_kept close_kept lexical_cast buff_size mem fuel s Hs) as Hk.
  destruct (recvRequest lexical_cast buff_size mem fuel s) as [s1 [rq|]|s1 e| |] eqn:E; try done;
    [rewrite (bind_done _ _ _ _ _ E)|by rewrite (bind_done _ _ _ _ _ E)|by rewrite (bind_raise _ _ _ _ _ E)].
  set (rsp := rsp_setHeader _ _ _).
  assert (Hh : match handle fnmatch run d rq rsp s1 with
    | Done s' _ => P s' ∧ (List.length (incoming s') ≤ List.length (incoming s1))%nat | Raise s' _ => P s' | _ => False end).
  { unfold handle. destruct (getMatchedServlet _ _ _) as [[]|]; try done; apply Hrun, Hk. }
  destruct (handle fnmatch run d rq rsp s1) as [s2 [rq' rs]|s2 e| |] eqn:E2; try done; [|by rewrite (bind_raise _ _ _ _ _ E2)].
  rewrite (bind_done _ _ _ _ _ E2). destruct Hh as [H2 Hle2]. destruct (writeFixSize_ends (bytes_of (HttpResponse_dump rs)) s2) as (s3 & r & Hw & Hi).
  pose proof (writeFixSize_kept P read_kept write_kept close_kept (bytes_of (HttpResponse_dump rs)) s2 H2) as H3. rewrite Hw in H3.
  unfold sendResponse. rewrite (bind_done _ _ _ _ _ Hw). destruct (negb keepalive || m_close rq'); [done|]. apply IH; [done|rewrite Hi; lia..].
Qed.
End ends.

(** ** A client of the server *)
Section service.
Context {N : Type} `{!Net N, !NetLaws N, !NetData N, !Host, !Alloc}.
Context (lexical_cast : string → option Z) (buff_size : Z) (mem : http_parser) (fnmatch : string → string → bool).
Context (run : Servlet → HttpRequest → HttpResponse → M (conn N) (HttpRequest * HttpResponse)) (unused : ByteArray).
#[local] Set Default Proof Using "All".
Hypothesis Hbuff : 0 < buff_size < 2 ^ 31.
Hypothesis Hmem : 0 ≤ query_start mem < 2 ^ 63.

(** The session has the client's socket, and its descriptor is open if it has one. *)
Definition holds (base : gset Z) (c : conn N) : Prop :=
  ∃ k, m_socket (c_stream c) = Some k ∧ owns k (c_net c) base ∧ m_owner (c_stream c) = true.
(** Servlets that return or throw, may use the session, and leave the program's other
    descriptors alone. *)
Definition behaves : Prop := ∀ base slt rq rs c, holds base c →
  match run slt rq rs c with
  | Done c' _ => holds base c' ∧ (List.length (to_read c') ≤ List.length (to_read c))%nat
  | Raise c' _ => holds base c'
  | _ => False
  end.

Lemma with_socket_kept {A} base (m : M (Socket * N) A) : safe m → kept (holds base) (with_socket m).
Proof.
  intros Hm c (k & Hk & Ho & Hw). unfold with_socket. rewrite Hk. destruct (Hm k (c_net c) base Ho) as (k' & n' & a & -> & Ho').
  by exists k'.
Qed.
Lemma recv_safe len flags : safe (Socket.recv len flags).
Proof. apply steady_safe, steady_connected. intros fd. apply quiet_fmap, Network.recv_law. Qed.
Lemma send_safe d flags : safe (Socket.send d flags).
Proof. apply steady_safe, steady_connected. intros fd. apply quiet_fmap, Network.send_law. Qed.
(** The operations of a connected stream are those of its socket. *)
Lemma guarded_kept {A} base (no : A) (m : M (conn N) A) : kept (holds base) m →
  kept (holds base) (c ← Prelude.get; if negb (isConnected (c_stream c)) then mret no else m).
Proof. intros Hm c Hc. erewrite bind_done; [|done]. destruct (isConnected _); [by apply Hm|done]. Qed.
Lemma read_kept base n : kept (holds base) (Stream.read n).
Proof. apply guarded_kept, with_socket_kept, recv_safe. Qed.
Lemma write_kept base d : kept (holds base) (Stream.write d).
Proof. apply guarded_kept, with_socket_kept, send_safe. Qed.
Lemma close_gives_back base c : holds base c → ∃ c' k, SocketStream.close c = Done c' () ∧ m_socket (c_stream c') = Some k ∧ m_sock k = -1 ∧
  mine (c_net c') = base ∧ m_owner (c_stream c') = true.
Proof.
  intros (k & Hk & Ho & Hw). unfold SocketStream.close. erewrite bind_done; [|done]. rewrite Hk.
  destruct (close_ok k (c_net c) base Ho) as (k' & n' & b & Hr & Hs & _ & Hn). eexists _, k'. split.
  - erewrite bind_done; [done|]. unfold with_socket. rewrite Hk, Hr. done.
  - by split_and!.
Qed.
Lemma close_kept base : kept (holds base) Stream.close.
Proof.
  intros c Hc. destruct (close_gives_back base c Hc) as (c' & k & Hr & Hk & Hs & Hn & Hw). cbn. rewrite Hr. exists k. split; [done|].
  split; [by apply owns_none|done].
Qed.
Lemma client_ends s k n base : behaves → owns k n base →
  ∃ k' n', client_task lexical_cast buff_size mem fnmatch run unused (Datatypes.S (List.length (to_read (mkConn (HttpSession_new k true) unused n)))) s (k, n)
    = Done (k', n') () ∧ m_sock k' = -1 ∧ mine n' = base.
Proof.
  intros Hrun Ho. set (c := mkConn (HttpSession_new k true) unused n). set (fuel := Datatypes.S _).
  assert (Hc : holds base c) by by exists k.
  assert (Hwe : ∀ d (c : conn N), ∃ c' r, Stream.write d c = Done c' r ∧ r ≤ zlen d ∧ incoming c' = incoming c).
  { intros d c1. destruct (write_contract d c1) as (c' & r & ? & ? & _ & ? & _). by exists c', r. }
  pose proof (client_loop_ends (holds base) (read_kept base) (write_kept base) (close_kept base) Hwe lexical_cast buff_size mem Hbuff Hmem
    fnmatch run fuel (m_name (m_base s)) (m_isKeepalive s) (m_dispatch s) (Hrun base) fuel c Hc (Nat.lt_succ_diag_r _) (Nat.lt_succ_diag_r _)) as Hl.
  unfold client_task, handleClient, on_client, scoped. fold c. cbn [fst snd].
  unfold HttpServer.handleClient. set (loop := client_loop _ _ _ _ _ _) in *.
  destruct (loop c) as [c1 []|c1 e| |] eqn:E; try done.
  - rewrite (bind_done _ _ _ _ _ E). destruct (close_gives_back base c1 Hl) as (c2 & k2 & Hr & Hk2 & Hs2 & Hn2 & Hw2). cbn [session_close http_session]. cbn.
    rewrite Hr. unfold SocketStream.destroy. erewrite bind_done; [|done]. rewrite Hw2.
    destruct (close_gives_back base c2) as (c3 & k3 & Hr3 & Hk3 & Hs3 & Hn3 & Hw3); [exists k2; split; [done|]; split; [by apply owns_none|done]|].
    rewrite Hr3, Hk3. by exists k3, (c_net c3).
  - rewrite (bind_raise _ _ _ _ _ E). destruct (close_gives_back base c1 Hl) as (c2 & k2 & Hr & Hk2 & Hs2 & Hn2 & Hw2).
    destruct Hl as (k1 & Hk1 & _ & Hw1).
    assert (Hd : SocketStream.destroy c1 = Done c2 ()) by (unfold SocketStream.destroy; erewrite bind_done; [|done]; by rewrite Hw1).
    rewrite (bind_done _ _ _ _ _ Hd). cbn. rewrite Hk2. by exists k2, (c_net c2).
Qed.
(** The task of a client, with as many turns as bytes are still to come from it. *)
Definition serve (s : HttpServer) : M (Socket * N) () := λ k,
  client_task lexical_cast buff_size mem fnmatch run unused (Datatypes.S (List.length (to_read (mkConn (HttpSession_new k.1 true) unused k.2)))) s k.
Lemma serve_safe s : behaves → safe (serve s).
Proof.
  intros Hrun k n base Ho. destruct (client_ends s k n base Hrun Ho) as (k' & n' & Hr & Hs & Hn). exists k', n', (). split; [exact Hr|]. by apply owns_none.
Qed.
(** So the HTTP server gives up every descriptor when it is stopped, as every TcpServer
    does whose clients are handled safely. *)
Corollary http_server_winds_down s acts t a b c n : behaves → ∃ w w1, sperforms (serve s) acts (world_new t a b c n) = Done w () ∧ TcpServer.stop w = Done w1 () ∧
  ∀ tasks clients, picks tasks (List.length (w_accept w1)) = true → picks clients (List.length (w_io w)) = true →
    ∃ w2 w3, run_tasks tasks w1 = Done w2 () ∧ run_clients (serve s) clients w2 = Done w3 () ∧ mine (w_net w3) = mine n.
Proof.
  intros Hrun. destruct (wind_down (serve s) acts t a b c n (serve_safe s Hrun)) as (w & Hw & _ & _ & _ & w1 & Hstop & Htasks). exists w, w1.
  split; [done|]. split; [done|]. intros tasks clients Ht Hcl. destruct (Htasks tasks Ht) as (w2 & Hrun2 & _ & _ & Hio & Hclients). rewrite Hio in Hclients.
  destruct (Hclients clients Hcl) as (w3 & Hrun3 & Hm & _). by exists w2, w3.
Qed.
(** C9: Whatever bytes a client sends, in whatever pieces they arrive, and whatever the
    servlets make of its requests, the task of the client returns: the loop over the
    requests ends, exceptions are caught, and the client's descriptor is then closed, by
    the session's [close] or its destructor, and no other one of the program. *)
Theorem http_client_served s k n base : behaves → owns k n base →
  ∃ k' n', client_task lexical_cast buff_size mem fnmatch run unused (Datatypes.S (List.length (to_read (mkConn (HttpSession_new k true) unused n)))) s (k, n)
    = Done (k', n') () ∧ m_sock k' = -1 ∧ mine n' = base.
Proof. apply client_ends. Qed.
End service.

(** ** A client that asks for a page and stays connected *)
#[local] Existing Instance little_host.
#[local] Existing Instance zero_alloc.
Definition page : HttpServer := HttpServer_new 120000 true (Some "w"%string) (Some "io"%string) (Some "accept"%string).
Definition guest : Socket := Socket.mkSocket 5 AF_INET TCP 0 true None None.
Definition client_net : network := mkNetwork {[5; 3]} {[5 := bytes_of (HttpRequest_dump (get_request "/none" false))]} [] [].
Lemma pure_behaves g : behaves (N := network) (pure_run g).
Proof. intros base slt rq rs c Hc. by split. Qed.
Lemma http_client_served_witness : ∃ k' n',
  serve (N := network) undec 4096 no_parser (λ _ _, false) (pure_run echo) (ByteArray_new 64) page (guest, client_net) = Done (k', n') () ∧
  m_sock k' = -1 ∧ mine n' = {[3]} ∧ match w_sent n' with [(fd, d)] => fd = 5 ∧ String.prefix "HTTP/1.1 404 Not Found" (text_of d) = true | _ => False end.
Proof.
  destruct (http_client_served (N := network) undec 4096 no_parser (λ _ _, false) (pure_run echo) (ByteArray_new 64) ltac:(lia) ltac:(cbn; lia) page guest client_net {[3]})
    as (k' & n' & Hr & Hs & Hn); [apply pure_behaves|split; [reflexivity|change ({[5]} ## ({[3]} : gset Z)); set_solver]|].
  exists k', n'. split; [exact Hr|]. split; [exact Hs|]. split; [exact Hn|]. vm_compute in Hr. injection Hr as <- <-. by split.
Defined.
