(* ===== verification/Thread.v ===== *)
(** * Thread ([webserve/thread.h], [webserve/thread.cc]): semaphores, locks, guards and threads

    A call that waits is [None] until it can go on.  The mutexes of the pthread library are
    the states their manual describes; the lock of [CASLock] is the flag the code tests and
    sets.  A guard is its flag [m_locked] next to the state of the lock it refers to.  The
    life of a thread is a step relation between the thread that makes the object and the
    new one. *)
From S2P Require Import Prelude Text.
Open Scope string_scope.
Open Scope Z_scope.

(** ** Semaphore: the count *)
Definition Semaphore_new (count : Z) : Z := count.
Definition Semaphore_wait (m_semaphore : Z) : option Z := if 0 <? m_semaphore then Some (m_semaphore - 1) else None.
Definition Semaphore_notify (m_semaphore : Z) : Z := m_semaphore + 1.

(** ** Locks
    [acquire] waits, [release] is not defined for a lock that is not held. *)
Record lock_ops (L : Type) := mkLock { acquire : L → option L; release : L → option L }.
Arguments mkLock {L}.
Arguments acquire {L}.
Arguments release {L}.
(** [Mutex] and [Spinlock]: held or not. *)
Definition Mutex : lock_ops bool := mkLock (λ m : bool, if m then None else Some true) (λ m : bool, if m then Some false else None).
Definition Spinlock : lock_ops bool := mkLock (λ m : bool, if m then None else Some true) (λ m : bool, if m then Some false else None).
Definition NullMutex : lock_ops () := mkLock (λ m, Some m) (λ m, Some m).
(** [CASLock]: the loop ends when the flag was clear; [unlock] clears it in any case. *)
Definition test_and_set (flag : bool) : bool * bool := (flag, true).
Fixpoint CASLock_spin (fuel : nat) (flag : bool) : option bool :=
  match fuel with
  | O => None
  | S fuel => let '(old, flag) := test_and_set flag in if old then CASLock_spin fuel flag else Some flag
  end.
Definition CASLock (turns : nat) : lock_ops bool := mkLock (CASLock_spin turns) (λ _, Some false).
(** [RWMutex]: readers, or a writer. *)
Record rwlock := mkRwlock { readers : nat; writer : bool }.
Definition RWMutex_new : rwlock := mkRwlock 0 false.
Definition rdlock (l : rwlock) : option rwlock := if writer l then None else Some (mkRwlock (S (readers l)) false).
Definition wrlock (l : rwlock) : option rwlock :=
  match readers l with O => if writer l then None else Some (mkRwlock 0 true) | S _ => None end.
Definition rw_unlock (l : rwlock) : option rwlock :=
  if writer l then Some (mkRwlock (readers l) false) else match readers l with S n => Some (mkRwlock n false) | O => None end.
Definition RWMutex_read : lock_ops rwlock := mkLock rdlock rw_unlock.
Definition RWMutex_write : lock_ops rwlock := mkLock wrlock rw_unlock.

(** ** Guards: [ScopedLockImpl]; the read and write guards are the same over [rdlock] and [wrlock] *)
Section guard.
Context {L : Type} (ops : lock_ops L).
Definition guard_new (l : L) : option (bool * L) := l ← acquire ops l; Some (true, l).
Definition guard_lock (m_locked : bool) (l : L) : option (bool * L) :=
  if negb m_locked then l ← acquire ops l; Some (true, l) else Some (m_locked, l).
Definition guard_unlock (m_locked : bool) (l : L) : option (bool * L) :=
  if m_locked then l ← release ops l; Some (false, l) else Some (m_locked, l).
Definition guard_destroy (m_locked : bool) (l : L) : option L := '(_, l) ← guard_unlock m_locked l; Some l.
End guard.

(** ** Thread *)
Section thread.
Context {C : Type}.
Record Thread := mkThread { m_id : Z; m_thread : Z; m_cb : option C; m_name : string; m_semaphore : Z }.
Definition set_thread v t := mkThread (m_id t) v (m_cb t) (m_name t) (m_semaphore t).
Definition set_name v t := mkThread (m_id t) (m_thread t) (m_cb t) v (m_semaphore t).
Definition set_semaphore v t := mkThread (m_id t) (m_thread t) (m_cb t) (m_name t) v.
(** Where the maker of the object is - it may destroy it - and the new thread. *)
Inductive maker := MNew | MWait | MReady | MGone | MFailed.
Inductive runner := RNone | RStart | RNotify (cb : option C) | RCall (cb : option C) | RRunning | REnd.
(** The object, until it is destroyed; the thread-local variables of the new thread, where
    [t_thread] points to the object or is null; its callbacks that have begun. *)
Record tstate := mkT {
  s_obj : option Thread; s_maker : maker; s_runner : runner; t_thread : bool; t_thread_name : string; s_called : list C
}.
Definition on_object {A} (f : Thread → Thread * A) : M tstate A := λ s,
  match s_obj s with
  | None => Undef OutOfBounds
  | Some t => let '(t, a) := f t in Done (mkT (Some t) (s_maker s) (s_runner s) (t_thread s) (t_thread_name s) (s_called s)) a
  end.
Definition to_maker m : M tstate () := modify (λ s, mkT (s_obj s) m (s_runner s) (t_thread s) (t_thread_name s) (s_called s)).
Definition to_runner r : M tstate () := modify (λ s, mkT (s_obj s) (s_maker s) r (t_thread s) (t_thread_name s) (s_called s)).
Definition set_locals p n : M tstate () := modify (λ s, mkT (s_obj s) (s_maker s) (s_runner s) p n (s_called s)).

(** The constructor up to [pthread_create], which gives the handle or fails; its end. *)
Definition Thread_create (cb : C) (name : string) (handle : option Z) : M tstate () := λ s,
  let t := mkThread (-1) 0 (Some cb) (if is_empty name then "UNKNOW" else name) (Semaphore_new 0) in
  match handle with
  | Some h => Done (mkT (Some (set_thread h t)) MWait RStart (t_thread s) (t_thread_name s) (s_called s)) ()
  | None => Raise (mkT None MFailed RNone (t_thread s) (t_thread_name s) (s_called s)) ExnLogicError
  end.
Definition Thread_wait : M tstate () := λ s,
  match s_obj s with
  | None => Undef OutOfBounds
  | Some t =>
      match Semaphore_wait (m_semaphore t) with
      | None => NoFuel
      | Some n => Done (mkT (Some (set_semaphore n t)) MReady (s_runner s) (t_thread s) (t_thread_name s) (s_called s)) ()
      end
  end.
(** [run]: up to the swap of the callback; the notification; the call. *)
Definition Thread_run_start (tid : Z) : M tstate () :=
  name ← on_object (λ t, (t, m_name t));
  set_locals true name ;;
  cb ← on_object (λ t, (mkThread tid (m_thread t) None (m_name t) (m_semaphore t), m_cb t));
  to_runner (RNotify cb).
Definition Thread_run_notify (cb : option C) : M tstate () :=
  on_object (λ t, (set_semaphore (Semaphore_notify (m_semaphore t)) t, ())) ;;
  to_runner (RCall cb).
(** The callback begins; an empty one throws. *)
Definition Thread_run_call (cb : option C) : M tstate () :=
  match cb with
  | None => raise ExnBadFunctionCall
  | Some cb => modify (λ s, mkT (s_obj s) (s_maker s) RRunning (t_thread s) (t_thread_name s) (s_called s ++ [cb])%list)
  end.
Definition Thread_run_end : M tstate () := to_runner REnd.
(** [SetName], called by the new thread. *)
Definition SetName (name : string) : M tstate () :=
  if is_empty name then mret () else
  s ← Prelude.get;
  (if t_thread s then on_object (λ t, (set_name name t, ())) else mret ()) ;;
  set_locals (t_thread s) name.
Definition GetName : M tstate string := gets t_thread_name.
(** [join], once the new thread has ended; [~Thread], which only detaches the thread. *)
Definition join (rt : Z) : M tstate () :=
  h ← on_object (λ t, (t, m_thread t));
  if h =? 0 then mret () else
  if negb (rt =? 0) then raise ExnLogicError else on_object (λ t, (set_thread 0 t, ())).
Definition Thread_destroy : M tstate () := modify (λ s, mkT None MGone (s_runner s) (t_thread s) (t_thread_name s) (s_called s)).
End thread.
