(* ===== verification/ThreadFacts.v ===== *)
(** * ThreadFacts: what the guards and the start of a thread promise *)
From S2P Require Import Prelude Text Thread.
Open Scope list_scope.
Open Scope Z_scope.

(** ** Counting in a list *)
Section count.
Context {X : Type} `{!EqDecision X}.
Definition count (x : X) (l : list X) : nat := List.length (filter (λ y, y = x) l).
Lemma count_cons x y l : count x (y :: l) = ((if decide (y = x) then 1 else 0) + count x l)%nat.
Proof. unfold count. rewrite filter_cons. by case_decide. Qed.
Lemma count_perm x l k : l ≡ₚ k → count x l = count x k.
Proof. intros Hp. unfold count. by rewrite Hp. Qed.
Lemma count_snoc x y l : count x (l ++ [y]) = ((if decide (y = x) then 1 else 0) + count x l)%nat.
Proof. rewrite <-count_cons. apply count_perm. by rewrite Permutation_app_comm. Qed.
Lemma count_delete x y l i : l !! i = Some y → count x l = ((if decide (y = x) then 1 else 0) + count x (delete i l))%nat.
Proof. intros Hi. rewrite <-count_cons. apply count_perm. by apply delete_Permutation. Qed.
Lemma guards_insert x y z l i : l !! i = Some y →
  (count x (<[i := z]> l) + (if decide (y = x) then 1 else 0) = count x l + (if decide (z = x) then 1 else 0))%nat.
Proof.
  intros Hi. rewrite (count_delete x y l i Hi). pose proof (lookup_lt_Some _ _ _ Hi).
  rewrite (count_delete x z (<[i := z]> l) i) by (by apply list_lookup_insert_eq).
  replace (delete i (<[i := z]> l)) with (delete i l); [lia|].
  rewrite !delete_take_drop, take_insert_ge, drop_insert_lt by lia. done.
Qed.
Lemma count_pos x l i : l !! i = Some x → (0 < count x l)%nat.
Proof. intros Hi. rewrite (count_delete x x l i Hi), decide_True by done. lia. Qed.
Lemma count_two x l i j : l !! i = Some x → l !! j = Some x → i ≠ j → (1 < count x l)%nat.
Proof.
  intros Hi Hj Hij. rewrite (count_delete x x l i Hi), decide_True by done. enough (0 < count x (delete i l))%nat by lia.
  destruct (decide (j < i)%nat).
  - apply (count_pos x _ j). by rewrite list_lookup_delete_lt by lia.
  - apply (count_pos x _ (pred j)). rewrite list_lookup_delete_ge by lia. by replace (S (pred j)) with j by lia.
Qed.
Lemma count_zero x l : count x l = 0%nat → ∀ i, l !! i ≠ Some x.
Proof. intros Hc i Hi%count_pos. lia. Qed.
Lemma count_none x l : (∀ i, l !! i ≠ Some x) → count x l = 0%nat.
Proof.
  intros Hno. unfold count. destruct (filter _ l) as [|y k] eqn:E; [done|]. exfalso.
  assert (Hin : y ∈ filter (λ y, y = x) l) by (rewrite E; by left). apply list_elem_of_filter in Hin as [-> Hin].
  apply list_elem_of_lookup_1 in Hin as [i Hi]. by apply (Hno i).
Qed.
End count.
#[local] Arguments count : simpl never.

(** ** The guards of a lock
    Any number of guards, made, locked, unlocked and destroyed in any order by any threads;
    each has the operations of its kind. *)
Section guards.
Context {K L : Type} (ops : K → lock_ops L).
Inductive gstep : L * list (K * bool) → L * list (K * bool) → Prop :=
  | gs_new k l gs b l' : guard_new (ops k) l = Some (b, l') → gstep (l, gs) (l', gs ++ [(k, b)])
  | gs_lock i k b l gs b' l' : gs !! i = Some (k, b) → guard_lock (ops k) b l = Some (b', l') → gstep (l, gs) (l', <[i := (k, b')]> gs)
  | gs_unlock i k b l gs b' l' : gs !! i = Some (k, b) → guard_unlock (ops k) b l = Some (b', l') → gstep (l, gs) (l', <[i := (k, b')]> gs)
  | gs_destroy i k b l gs l' : gs !! i = Some (k, b) → guard_destroy (ops k) b l = Some l' → gstep (l, gs) (l', delete i gs).
(** What a step does to the lock: nothing, or one [acquire] or [release] with the flag. *)
Inductive gmove : L * list (K * bool) → L * list (K * bool) → Prop :=
  | gm_none i k b l gs gs' : gs !! i = Some (k, b) → gs' = gs ∨ b = false ∧ gs' = delete i gs → gmove (l, gs) (l, gs')
  | gm_new k l gs l' : acquire (ops k) l = Some l' → gmove (l, gs) (l', gs ++ [(k, true)])
  | gm_acquire i k l gs l' : gs !! i = Some (k, false) → acquire (ops k) l = Some l' → gmove (l, gs) (l', <[i := (k, true)]> gs)
  | gm_release i k l gs l' gs' : gs !! i = Some (k, true) → release (ops k) l = Some l' →
      gs' = <[i := (k, false)]> gs ∨ gs' = delete i gs → gmove (l, gs) (l', gs').
Lemma gstep_move s s' : gstep s s' → gmove s s'.
Proof.
  destruct 1 as [k l gs b l' Hn|i k b l gs b' l' Hi Hn|i k b l gs b' l' Hi Hn|i k b l gs l' Hi Hn].
  - unfold guard_new in Hn. destruct (acquire (ops k) l) eqn:E; [|done]. injection Hn as <- <-. by constructor.
  - unfold guard_lock in Hn. destruct b; cbn in Hn.
    + injection Hn as <- <-. rewrite list_insert_id by done. econstructor; [done|by left].
    + destruct (acquire (ops k) l) eqn:E; [|done]. injection Hn as <- <-. by econstructor.
  - unfold guard_unlock in Hn. destruct b; cbn in Hn.
    + destruct (release (ops k) l) eqn:E; [|done]. injection Hn as <- <-. econstructor; [done|done|by left].
    + injection Hn as <- <-. rewrite list_insert_id by done. econstructor; [done|by left].
  - unfold guard_destroy, guard_unlock in Hn. destruct b; cbn in Hn.
    + destruct (release (ops k) l) eqn:E; [|done]. injection Hn as <-. econstructor; [done|done|by right].
    + injection Hn as <-. econstructor; [done|by right].
Qed.
End guards.

(** ** Read and write guards *)
Ltac cases := cbn in *; repeat case_decide; simplify_eq; cbn in *; try lia.
Definition rw_ops (write : bool) : lock_ops rwlock := if write then RWMutex_write else RWMutex_read.
Definition rw_inv (s : rwlock * list (bool * bool)) : Prop :=
  readers s.1 = count (false, true) s.2 ∧ Nat.b2n (writer s.1) = count (true, true) s.2 ∧ (writer s.1 = true → readers s.1 = 0%nat).
Lemma rw_inv_move s s' : gmove rw_ops s s' → rw_inv s → rw_inv s'.
Proof.
  unfold rw_inv. destruct 1 as [i k b l gs gs' Hi Hgs|k l gs l' Ha|i k l gs l' Hi Ha|i k l gs l' gs' Hi Hr Hgs]; cbn; intros (H1 & H2 & H3).
  - destruct Hgs as [->|[-> ->]]; [done|]. rewrite (count_delete (false, true) _ _ _ Hi) in H1. rewrite (count_delete (true, true) _ _ _ Hi) in H2.
    destruct k; cbn in H1, H2; done.
  - rewrite !count_snoc. destruct k; cbn in Ha; unfold wrlock, rdlock in Ha.
    + destruct (readers l) eqn:E; [|done]. destruct (writer l) eqn:Ew; [done|]. injection Ha as <-. cases.
    + destruct (writer l) eqn:Ew; [done|]. injection Ha as <-. cases.
  - pose proof (guards_insert (false, true) _ (k, true) _ _ Hi) as C1. pose proof (guards_insert (true, true) _ (k, true) _ _ Hi) as C2.
    destruct k; cbn in Ha; unfold wrlock, rdlock in Ha.
    + destruct (readers l) eqn:E; [|done]. destruct (writer l) eqn:Ew; [done|]. injection Ha as <-. cases.
    + destruct (writer l) eqn:Ew; [done|]. injection Ha as <-. cases.
  - assert (C : ∀ x, (count x gs' + (if decide ((k, true) = x) then 1 else 0) = count x gs + (if decide ((k, false) = x) then 1 else 0) ∨
      count x gs' + (if decide ((k, true) = x) then 1 else 0) = count x gs)%nat).
    { intros x. destruct Hgs as [->| ->]; [left; apply guards_insert, Hi|right; rewrite (count_delete x _ _ _ Hi); lia]. }
    pose proof (C (false, true)) as C1. pose proof (C (true, true)) as C2. clear C.
    assert (release (rw_ops k) l = rw_unlock l) as Hu by (by destruct k). rewrite Hu in Hr. unfold rw_unlock in Hr.
    destruct k; destruct (writer l) eqn:Ew; destruct (readers l) as [|m] eqn:Er; cases.
Qed.
Lemma rw_inv_reachable s : rtc (gstep rw_ops) (RWMutex_new, []) s → rw_inv s.
Proof.
  intros Hr. assert (H0 : rw_inv (RWMutex_new, [])) by done. revert H0. induction Hr as [s|s1 s2 s3 Hs _ IH]; [done|].
  intros H1. by eapply IH, rw_inv_move, H1; apply gstep_move.
Qed.
Lemma unlock_some {L} (ops : lock_ops L) b l : (b = true → is_Some (release ops l)) → is_Some (guard_unlock ops b l) ∧ is_Some (guard_destroy ops b l).
Proof.
  intros Hb. unfold guard_destroy, guard_unlock. destruct b; [|done]. destruct (Hb eq_refl) as [l' ->]. done.
Qed.

(** ** The exclusive locks *)
Definition exclusive (ops : lock_ops bool) : Prop := (∀ l l', acquire ops l = Some l' → l = false ∧ l' = true) ∧ release ops true = Some false ∧ acquire ops false = Some true.
Lemma mutex_exclusive : exclusive Mutex.
Proof. split_and!; try done. intros [] l'; [done|]. by injection 1. Qed.
Lemma spinlock_exclusive : exclusive Spinlock.
Proof. split_and!; try done. intros [] l'; [done|]. by injection 1. Qed.
Lemma cas_spin_held fuel : CASLock_spin fuel true = None.
Proof. induction fuel as [|fuel IH]; [done|]. exact IH. Qed.
Lemma caslock_exclusive turns : (0 < turns)%nat → exclusive (CASLock turns).
Proof.
  intros Ht. destruct turns as [|turns]; [lia|]. split_and!; try done. intros [] l'; cbn.
  - by rewrite cas_spin_held.
  - by injection 1.
Qed.
Definition excl_inv (s : bool * list (() * bool)) : Prop := Nat.b2n s.1 = count ((), true) s.2.
Lemma excl_inv_move ops s s' : exclusive ops → gmove (λ _, ops) s s' → excl_inv s → excl_inv s'.
Proof.
  intros (Ha & Hr & _). unfold excl_inv. destruct 1 as [i [] b l gs gs' Hi Hgs|[] l gs l' Hac|i [] l gs l' Hi Hac|i [] l gs l' gs' Hi Hre Hgs]; cbn; intros H1.
  - destruct Hgs as [->|[-> ->]]; [done|]. rewrite (count_delete ((), true) _ _ _ Hi) in H1. cases.
  - rewrite !count_snoc. apply Ha in Hac as [-> ->]. cases.
  - pose proof (guards_insert ((), true) _ ((), true) _ _ Hi) as C1. apply Ha in Hac as [-> ->]. cases.
  - pose proof (count_pos _ _ _ Hi). assert (l = true) as -> by (destruct l; [done|cbn in H1; lia]). rewrite Hr in Hre. injection Hre as <-.
    destruct Hgs as [->| ->]; [pose proof (guards_insert ((), true) _ ((), false) _ _ Hi)|pose proof (count_delete ((), true) _ _ _ Hi)]; cases.
Qed.
Lemma excl_inv_reachable ops s : exclusive ops → rtc (gstep (λ _ : (), ops)) (false, []) s → excl_inv s.
Proof.
  intros He Hr. assert (H0 : excl_inv (false, [])) by done. revert H0. induction Hr as [s|s1 s2 s3 Hs _ IH]; [done|].
  intros H1. by eapply IH, (excl_inv_move ops), H1; [|apply gstep_move].
Qed.

(** C37: Guards exclude each other and are balanced, however any number of them is made,
    locked, unlocked and destroyed by any threads: over [Mutex], [Spinlock] and [CASLock]
    at most one guard holds the lock; over [RWMutex] a write guard that holds it is alone,
    while read guards may share it.  No guard ever releases a lock that is not held, and
    when no guard holds it the lock is as new. *)
Theorem guards_exclude :
  (∀ ops s, ops = Mutex ∨ ops = Spinlock ∨ (∃ turns, (0 < turns)%nat ∧ ops = CASLock turns) → rtc (gstep (λ _ : (), ops)) (false, []) s →
    (∀ i j, s.2 !! i = Some ((), true) → s.2 !! j = Some ((), true) → i = j) ∧
    (∀ i b, s.2 !! i = Some ((), b) → (b = true → s.1 = true) ∧ is_Some (guard_unlock ops b s.1) ∧ is_Some (guard_destroy ops b s.1)) ∧
    ((∀ i, s.2 !! i ≠ Some ((), true)) → s.1 = false ∧ guard_new ops s.1 = Some (true, true))) ∧
  (∀ s, rtc (gstep rw_ops) (RWMutex_new, []) s →
    (∀ i j w, s.2 !! i = Some (true, true) → s.2 !! j = Some (w, true) → i = j) ∧
    (∀ i w b, s.2 !! i = Some (w, b) → is_Some (guard_unlock (rw_ops w) b s.1) ∧ is_Some (guard_destroy (rw_ops w) b s.1)) ∧
    ((∀ i w, s.2 !! i ≠ Some (w, true)) → s.1 = RWMutex_new) ∧
    ((∀ i, s.2 !! i ≠ Some (true, true)) → is_Some (guard_new RWMutex_read s.1))).
Proof.
  split.
  - intros ops s Hops Hr. assert (He : exclusive ops).
    { destruct Hops as [->|[->|(turns & Ht & ->)]]; [apply mutex_exclusive|apply spinlock_exclusive|by apply caslock_exclusive]. }
    pose proof (excl_inv_reachable ops s He Hr) as Hinv. unfold excl_inv in Hinv. destruct He as (_ & Hre & Hac). split_and!.
    + intros i j Hi Hj. destruct (decide (i = j)) as [|Hij]; [done|]. pose proof (count_two _ _ _ _ Hi Hj Hij). destruct s.1; cbn in Hinv; lia.
    + intros i b Hi. assert (Hb : b = true → s.1 = true).
      { intros ->. pose proof (count_pos _ _ _ Hi). destruct s.1; [done|cbn in Hinv; lia]. }
      split; [done|]. apply unlock_some. intros Hbt. rewrite (Hb Hbt), Hre. done.
    + intros Hno. rewrite (count_none _ _ Hno) in Hinv. destruct s.1; [done|]. unfold guard_new. by rewrite Hac.
  - intros s Hr. destruct (rw_inv_reachable s Hr) as (H1 & H2 & H3).
    split_and!.
    + intros i j w Hi Hj. pose proof (count_pos _ _ _ Hi). assert (Hw : writer s.1 = true) by (destruct (writer s.1); [done|cbn in H2; lia]).
      destruct w; [|pose proof (count_pos _ _ _ Hj); specialize (H3 Hw); lia].
      destruct (decide (i = j)) as [|Hij]; [done|]. pose proof (count_two _ _ _ _ Hi Hj Hij). rewrite Hw in H2. cbn in H2. lia.
    + intros i w b Hi. apply unlock_some. intros ->. pose proof (count_pos _ _ _ Hi) as Hc. replace (release (rw_ops w) s.1) with (rw_unlock s.1) by (by destruct w).
      unfold rw_unlock. destruct (writer s.1) eqn:Ew; [done|]. destruct w; [cbn in H2; lia|]. destruct (readers s.1); [lia|done].
    + intros Hno. destruct s.1 as [r wr]. cbn in *. rewrite (count_none (false, true)) in H1 by (intros; apply Hno). rewrite (count_none (true, true)) in H2 by (intros; apply Hno).
      subst r. by destruct wr.
    + intros Hno. rewrite (count_none _ _ Hno) in H2. unfold guard_new. cbn. unfold rdlock. by destruct (writer s.1).
Qed.

(** ** The life of a thread *)
Section start.
Context {C : Type} (cb : C) (name : string) (tid : Z).
Notation tstate := (@tstate C).
(** The moves of the maker and of the new thread, with what comes of each: the maker makes
    the object - [pthread_create] may fail -, waits for the new thread, may join it when it
    has ended, and may destroy the object at any time once it has it; the callback of the
    new thread may set its name. *)
Inductive tmove (s : tstate) : result tstate () → Prop :=
  | t_create h : s_maker s = MNew → h ≠ Some 0 → tmove s (Thread_create cb name h s)
  | t_wait : s_maker s = MWait → tmove s (Thread_wait s)
  | t_join : s_maker s = MReady → s_runner s = REnd → tmove s (join 0 s)
  | t_destroy : s_maker s = MReady → tmove s (Thread_destroy s)
  | t_start : s_runner s = RStart → tmove s (Thread_run_start tid s)
  | t_notify c : s_runner s = RNotify c → tmove s (Thread_run_notify c s)
  | t_call c : s_runner s = RCall c → tmove s (Thread_run_call c s)
  | t_rename n : s_runner s = RRunning → tmove s (SetName n s)
  | t_end : s_runner s = RRunning → tmove s (Thread_run_end s).
Definition tstep (s s' : tstate) : Prop := tmove s (Done s' ()) ∨ ∃ e, tmove s (Raise s' e).
Lemma stepped s r s' : tmove s r → r = Done s' () → tstep s s'.
Proof. intros Hm ->. by left. Qed.
Definition tstart : tstate := mkT None MNew RNone false "UNKNOW" [].
Definition first_name : string := if is_empty name then "UNKNOW" else name.
Definition tinv (s : tstate) : Prop :=
  match s_maker s with
  | MNew => s = tstart
  | MFailed => s_obj s = None ∧ s_runner s = RNone ∧ s_called s = []
  | MGone => s_obj s = None ∧ t_thread s = true ∧
      match s_runner s with RCall c => c = Some cb ∧ s_called s = [] | RRunning | REnd => s_called s = [cb] | _ => False end
  | m => ∃ t, s_obj s = Some t ∧
      match s_runner s with
      | RNone => False
      | RStart => m = MWait ∧ m_semaphore t = 0 ∧ m_cb t = Some cb ∧ m_name t = first_name ∧ s_called s = []
      | r => m_cb t = None ∧ m_id t = tid ∧ t_thread s = true ∧ t_thread_name s = m_name t ∧
          match r with
          | RNotify c => m = MWait ∧ m_semaphore t = 0 ∧ c = Some cb ∧ m_name t = first_name ∧ s_called s = []
          | RCall c => m_semaphore t = (if m is MWait then 1 else 0) ∧ c = Some cb ∧ m_name t = first_name ∧ s_called s = []
          | _ => m_semaphore t = (if m is MWait then 1 else 0) ∧ s_called s = [cb]
          end
      end
  end.
(** What a move comes to: it returns, or throws since there is no thread, or waits for the
    new thread - or writes into the object behind its destruction. *)
Definition ended (s : tstate) (r : result tstate ()) : Prop :=
  match r with
  | Done s' _ => tinv s'
  | Raise s' e => e = ExnLogicError ∧ s_maker s = MNew ∧ s_maker s' = MFailed ∧ tinv s'
  | NoFuel => s_maker s = MWait ∧ (s_runner s = RStart ∨ ∃ c, s_runner s = RNotify c)
  | Undef u => u = OutOfBounds ∧ s_maker s = MGone ∧ s_runner s = RRunning ∧ ∃ n, n ≠ "" ∧ r = SetName n s
  end.
Lemma wait_ended s : tinv s → s_maker s = MWait → ended s (Thread_wait s).
Proof.
  intros Hinv Hm. destruct s as [o m r p n l]. cbn in Hm. subst m. destruct Hinv as (t & Ho & Hinv). cbn in Ho. subst o.
  unfold Thread_wait, Semaphore_wait. cbn [s_obj]. destruct (0 <? m_semaphore t) eqn:E.
  - cbn. eexists. split; [done|]. destruct r; cbn in *; naive_solver lia.
  - cbn. split; [done|]. destruct r; cbn in *; naive_solver lia.
Qed.
Lemma rename_ended s n : tinv s → s_runner s = RRunning → ended s (SetName n s).
Proof.
  intros Hinv Hr. unfold SetName. destruct (is_empty n) eqn:En; [by cbn|].
  destruct s as [o m r p tn l]. cbn in Hr. subst r. destruct m; unfold tinv in Hinv; cbn in Hinv; try naive_solver.
  - destruct Hinv as (t & -> & Hcb & Hid & -> & Hn & Hse & Hl). cbn. eexists. by split_and!.
  - destruct Hinv as (t & -> & Hcb & Hid & -> & Hn & Hse & Hl). cbn. eexists. by split_and!.
  - destruct Hinv as (-> & -> & Hl). cbn. split_and!; try done. exists n. split; [by intros ->|]. unfold SetName. by rewrite En.
Qed.
Lemma tmove_ended s r : tinv s → tmove s r → ended s r.
Proof.
  intros Hinv Hst. destruct Hst as [h Hm Hh|Hm|Hm He|Hm|Hru|c Hru|c Hru|nm Hru|Hru];
    [|by apply wait_ended| | | | | |by apply rename_ended|]; destruct s as [o m r p n l]; cbn in *; subst; unfold tinv in Hinv; cbn in Hinv.
  - injection Hinv as -> -> -> -> ->. destruct h as [h|]; cbn; [eexists; by split_and!|by split_and!].
  - destruct Hinv as (t & -> & Hinv). unfold join, on_object, mbind, M_bind. cbn. destruct (m_thread t =? 0); cbn; eauto.
  - destruct Hinv as (t & -> & Hinv). cbn. unfold tinv. cbn. destruct r; naive_solver.
  - destruct m; try naive_solver. destruct Hinv as (t & -> & Hm & Hse & Hcb & Hn & Hl). cbn. eexists. by split_and!.
  - destruct m; try naive_solver. destruct Hinv as (t & -> & Hcb & Hid & Hp & Hn & Hm & Hse & Hc & Hf & Hl). cbn. eexists.
    split; [done|]. cbn. rewrite Hse. by split_and!.
  - destruct m; try naive_solver.
    + destruct Hinv as (t & -> & Hcb & Hid & Hp & Hn & Hse & -> & Hf & ->). cbn. eexists. by split_and!.
    + destruct Hinv as (t & -> & Hcb & Hid & Hp & Hn & Hse & -> & Hf & ->). cbn. eexists. by split_and!.
    + destruct Hinv as (-> & -> & -> & ->). by cbn.
  - destruct m; try naive_solver; exact Hinv.
Qed.
Lemma tinv_reachable s : rtc tstep tstart s → tinv s.
Proof.
  intros Hr. assert (H0 : tinv tstart) by done. revert H0. induction Hr as [s|s1 s2 s3 Hs _ IH]; [done|]. intros H1. apply IH.
  destruct Hs as [Hs|[e Hs]]; apply (tmove_ended _ _ H1) in Hs; [done|apply Hs].
Qed.
(** C28: A thread object is ready when its constructor returns: in every order of the moves
    of the two threads - the destructor may run at any time after the constructor -, once
    the constructor is past its semaphore the new thread has set its id, its name and its
    [t_thread] and has taken the callback, which runs once and never twice; when
    [pthread_create] fails the constructor throws and no thread runs.  Every move returns -
    the wait of the constructor once the new thread has notified it -, but for one: [SetName] with a name, called by the thread once its object is destroyed,
    writes through [t_thread] into the object that is gone, and always does.  Until the
    constructor has returned or thrown and the thread has ended some step can be taken. *)
Theorem thread_start s : rtc tstep tstart s →
  (s_maker s = MReady → ∃ t, s_obj s = Some t ∧ m_id t = tid ∧ m_cb t = None ∧ m_semaphore t = 0 ∧ t_thread s = true ∧ t_thread_name s = m_name t ∧
    (s_called s = [] ∧ m_name t = first_name ∨ s_called s = [cb])) ∧
  (s_called s = [] ∨ s_called s = [cb]) ∧ (s_runner s = RRunning ∨ s_runner s = REnd → s_called s = [cb]) ∧
  (s_maker s = MFailed → s_runner s = RNone ∧ s_called s = []) ∧
  (∀ r, tmove s r → (∃ s', r = Done s' ()) ∨
    (∃ s', r = Raise s' ExnLogicError ∧ s_maker s = MNew ∧ s_maker s' = MFailed) ∨
    (r = NoFuel ∧ s_maker s = MWait ∧ (s_runner s = RStart ∨ ∃ c, s_runner s = RNotify c)) ∨
    (r = Undef OutOfBounds ∧ s_maker s = MGone ∧ s_runner s = RRunning ∧ ∃ n, n ≠ "" ∧ r = SetName n s)) ∧
  (s_maker s = MGone → s_runner s = RRunning → ∀ n, n ≠ "" → SetName n s = Undef OutOfBounds) ∧
  ((s_maker s = MReady ∨ s_maker s = MGone) ∧ s_runner s = REnd ∨ s_maker s = MFailed ∨ ∃ s', tstep s s').
Proof.
  intros Hr. pose proof (tinv_reachable s Hr) as Hinv. split_and!.
  - intros Hm. destruct s as [o m r p n l]. unfold tinv in Hinv. cbn in *. subst m. destruct Hinv as (t & -> & Hinv). exists t. destruct r; naive_solver.
  - destruct s as [o m r p n l]. unfold tinv, tstart in Hinv. cbn in *. destruct m, r; naive_solver.
  - destruct s as [o m r p n l]. unfold tinv, tstart in Hinv. cbn in *. destruct m, r; naive_solver.
  - destruct s as [o m r p n l]. unfold tinv, tstart in Hinv. cbn in *. destruct m; naive_solver.
  - intros r Hm%tmove_ended; [|done]. destruct r as [s' []|s' e|u|]; cbn in Hm; [eauto|naive_solver|naive_solver|naive_solver].
  - intros Hm Hru n Hn. destruct s as [o m r p tn l]. unfold tinv in Hinv. cbn in *. subst m r. destruct Hinv as (-> & -> & _).
    unfold SetName. destruct n; [done|]. reflexivity.
  - destruct s as [o m r p n l]. unfold tinv in Hinv. cbn in *. destruct m.
    + injection Hinv as -> -> -> -> ->. right; right. eexists. by eapply stepped; [apply (t_create _ (Some 1))|].
    + right; right. destruct Hinv as (t & -> & Hinv). destruct r; [done| | | | |].
      * eexists. by eapply stepped; [apply t_start|].
      * eexists. by eapply stepped; [by eapply t_notify|].
      * destruct Hinv as (? & ? & ? & ? & ? & -> & _). eexists. by eapply stepped; [by eapply t_call|].
      * eexists. by eapply stepped; [apply t_end|].
      * destruct Hinv as (? & ? & ? & ? & Hse & _). eexists. eapply stepped; [by apply t_wait|].
        unfold Thread_wait, Semaphore_wait. cbn. by rewrite Hse.
    + destruct Hinv as (t & -> & Hinv). destruct r; [done|by destruct Hinv| | | |left; auto]; right; right; eexists;
        (by eapply stepped; [apply t_destroy|]).
    + destruct Hinv as (-> & -> & Hinv). destruct r; try done; [| |left; auto]; right; right.
      * destruct Hinv as [-> ->]. eexists. by eapply stepped; [by eapply t_call|].
      * eexists. by eapply stepped; [apply t_end|].
    + by right; left.
Qed.
End start.
Tactic Notation "go" uconstr(c) := eapply rtc_l; [eapply stepped; [eapply c; (reflexivity || discriminate)|vm_compute; reflexivity]|].
(** Two threads of control over one object: made, named by the new thread, then destroyed
    while it runs: another name is written into the object that is gone. *)
Lemma thread_start_witness : ∃ s : @tstate Z, rtc (tstep 7 "worker" 42) tstart s ∧ s_maker s = MReady ∧ s_called s = [7] ∧
  (∃ t, s_obj s = Some t ∧ m_id t = 42 ∧ m_name t = "io") ∧
  ∃ s', rtc (tstep 7 "worker" 42) tstart s' ∧ Thread_destroy s = Done s' () ∧ SetName "gone" s' = Undef OutOfBounds.
Proof.
  assert (Hr : ∃ s : @tstate Z, rtc (tstep 7 "worker" 42) tstart s ∧ s_maker s = MReady ∧ s_called s = [7] ∧ t_thread_name s = "io" ∧ s_runner s = RRunning).
  { eexists. split.
    - go (t_create _ _ _ _ (Some 1)). go t_start. go t_notify. go t_wait. go t_call. go (t_rename _ _ _ _ "io"). apply rtc_refl.
    - by split_and!. }
  destruct Hr as (s & Hr & Hm & Hc & Hn & Hru). destruct (thread_start 7 "worker" 42 s Hr) as (H1 & _).
  destruct (H1 Hm) as (t & Ho & Hid & _ & _ & _ & Hname & _). exists s. split; [exact Hr|]. split; [exact Hm|]. split; [exact Hc|].
  split; [exists t; split; [exact Ho|]; split; [exact Hid|]; rewrite <-Hname; exact Hn|].
  eexists. assert (Hr' : rtc (tstep 7 "worker" 42) tstart (mkT None MGone (s_runner s) (t_thread s) (t_thread_name s) (s_called s))).
  { eapply rtc_r; [exact Hr|]. by eapply stepped; [apply t_destroy|]. }
  split; [exact Hr'|]. split; [reflexivity|].
  destruct (thread_start 7 "worker" 42 _ Hr') as (_ & _ & _ & _ & _ & H2 & _). apply H2; [reflexivity|exact Hru|discriminate].
Defined.
