(* ===== verification/LexicalCast.v ===== *)
(** * LexicalCast ([webserve/config.h]): values of configuration variables as YAML text

    The conversions of the container types, over those of their elements.  The YAML library
    is the interface [Yaml]: [Load] and [ss << node], and what the code asks of a node; a
    call that throws is [None].  A vector, a list or a set is the sequence of its elements
    in the order of iteration; a map is a finite map with that order for a parameter. *)
From stdpp Require Import sorting.
From S2P Require Import Prelude OrderedSet Text Config.
Open Scope string_scope.
Open Scope Z_scope.

Class Yaml := {
  Load : string → option node;
  emit : node → string;
  node_size : node → Z;
  node_at : node → Z → option node;               (* node[i] *)
  node_items : node → list (node * node);         (* from begin() to end() *)
  subscript : node → string → option (option node); (* node[key]: throws, or not defined, or there *)
  as_string : node → option string;
  as_int : node → option Z
}.
(** ** What the YAML library promises
    Nodes the text of which is read back as they are: any scalars, in sequences and in maps
    with distinct scalar keys. *)
Inductive tidy : node → Prop :=
  | tidy_null : tidy Null
  | tidy_scalar s : tidy (Scalar s)
  | tidy_sequence l : Forall tidy l → tidy (Sequence l)
  | tidy_map l : Forall (λ p, p.1 = Scalar (scalar p.1)) l → NoDup ((λ p, scalar p.1) <$> l) → Forall (λ p, tidy p.2) l → tidy (Map l).
Definition lookup_key (k : string) (l : list (node * node)) : option node := snd <$> List.find (λ p, String.eqb (scalar p.1) k) l.
Class YamlLaws `{!Yaml} : Prop := {
  yaml_load n : tidy n → Load (emit n) = Some n;
  yaml_load_empty : Load "" = Some Null;
  yaml_size l : node_size (Sequence l) = zlen l;
  yaml_at l i e : l !! i = Some e → node_at (Sequence l) (Z.of_nat i) = Some e;
  yaml_items l : node_items (Map l) = l;
  yaml_items_null : node_items Null = [];
  yaml_subscript l k : subscript (Map l) k = Some (lookup_key k l);
  yaml_string s : as_string (Scalar s) = Some s;
  yaml_string_map l : as_string (Map l) = None;
  yaml_int z : - 2 ^ 31 ≤ z < 2 ^ 31 → as_int (Scalar (dec z)) = Some z
}.
(** [LexicalCast<T, std::string>] and [LexicalCast<std::string, T>] *)
Class Lexical (T : Type) := { to_string : T → option string; from_string : string → option T }.

Section lexical.
Context `{!Yaml}.

(** The loop of the sequences over [node[i]], with what adds an element. *)
Fixpoint items_from {T C} `{!Lexical T} (add : C → T → C) (count : nat) (i : Z) (n : node) (c : C) : option C :=
  match count with
  | O => Some c
  | S count => e ← node_at n i; x ← from_string (emit e); items_from add count (i + 1) n (add c x)
  end.
Definition sequence_from {T C} `{!Lexical T} (add : C → T → C) (empty : C) (v : string) : option C :=
  n ← Load v; items_from add (Z.to_nat (node_size n)) 0 n empty.
Fixpoint items_to {T} `{!Lexical T} (l : list T) : option (list node) :=
  match l with [] => Some [] | x :: l => s ← to_string x; e ← Load s; rest ← items_to l; Some (e :: rest) end.
Definition sequence_to {T} `{!Lexical T} (l : list T) : option string := l ← items_to l; Some (emit (Sequence l)).

(** ** The sequence types *)
Definition push_back {T} (l : list T) (x : T) : list T := (l ++ [x])%list.
Definition vector_from {T} `{!Lexical T} : string → option (list T) := sequence_from push_back [].
Definition vector_to {T} `{!Lexical T} : list T → option string := sequence_to.
Definition list_from {T} `{!Lexical T} : string → option (list T) := sequence_from push_back [].
Definition list_to {T} `{!Lexical T} : list T → option string := sequence_to.
(** [std::set]: the sorted list of its elements. *)
Definition set_from {T} `{!Lexical T} (lt : T → T → bool) : string → option (list T) := sequence_from (λ c x, (set_insert lt x c).1) [].
Definition set_to {T} `{!Lexical T} : list T → option string := sequence_to.
Definition unordered_set_from {T} `{!Lexical T, Countable T} : string → option (gset T) := sequence_from (λ c x, {[x]} ∪ c) ∅.
Definition unordered_set_to {T} `{!Lexical T, Countable T} (iteration : gset T → list T) (c : gset T) : option string := sequence_to (iteration c).

(** ** The map types: [insert] keeps the value of a key that is there *)
Definition map_insert {T} (k : string) (x : T) (m : gmap string T) : gmap string T := match m !! k with Some _ => m | None => <[k := x]> m end.
Fixpoint pairs_from {T} `{!Lexical T} (l : list (node * node)) (m : gmap string T) : option (gmap string T) :=
  match l with [] => Some m | (k, e) :: l => x ← from_string (emit e); pairs_from l (map_insert (scalar k) x m) end.
Definition map_from {T} `{!Lexical T} (v : string) : option (gmap string T) := n ← Load v; pairs_from (node_items n) ∅.
(** [node[k] = e] on a map with scalar keys. *)
Fixpoint assign (k : string) (e : node) (l : list (node * node)) : list (node * node) :=
  match l with
  | [] => [(Scalar k, e)]
  | (k', e') :: l => if String.eqb (scalar k') k then (k', e) :: l else (k', e') :: assign k e l
  end.
Fixpoint pairs_to {T} `{!Lexical T} (l : list (string * T)) (n : list (node * node)) : option (list (node * node)) :=
  match l with [] => Some n | (k, x) :: l => s ← to_string x; e ← Load s; pairs_to l (assign k e n) end.
Definition pairs_to_string {T} `{!Lexical T} (l : list (string * T)) : option string := n ← pairs_to l []; Some (emit (Map n)).
(** [std::map]: in the order of the keys. *)
Definition key_le {T} (a b : string * T) : Prop := String.leb a.1 b.1 = true.
#[export] Instance key_le_dec {T} (a b : string * T) : Decision (key_le a b) := decide (String.leb a.1 b.1 = true).
Definition map_to {T} `{!Lexical T} (m : gmap string T) : option string := pairs_to_string (merge_sort key_le (map_to_list m)).
Definition unordered_map_from {T} `{!Lexical T} : string → option (gmap string T) := map_from.
Definition unordered_map_to {T} `{!Lexical T} (iteration : gmap string T → list (string * T)) (m : gmap string T) : option string :=
  pairs_to_string (iteration m).

#[export] Instance vector_lexical {T} `{!Lexical T} : Lexical (list T) := {| to_string := vector_to; from_string := vector_from |}.
#[export] Instance map_lexical {T} `{!Lexical T} : Lexical (gmap string T) := {| to_string := map_to; from_string := map_from |}.
#[export] Instance string_lexical : Lexical string := {| to_string s := Some s; from_string s := Some s |}.
End lexical.

(** * A text for YAML trees that keeps the promises of the library

    Plain scalars are their own text; any other tree is its code in binary behind a mark. *)
Open Scope list_scope.
Open Scope Z_scope.

(** ** Trees as codes *)
Fixpoint to_tree (n : node) : gen_tree string :=
  match n with
  | Null => GenNode 0 []
  | Scalar s => GenLeaf s
  | Sequence l => GenNode 1 (List.map to_tree l)
  | Map l => GenNode 2 (List.map (λ p : node * node, GenNode 3 [to_tree p.1; to_tree p.2]) l)
  end.
Fixpoint of_tree (t : gen_tree string) : node :=
  match t with
  | GenLeaf s => Scalar s
  | GenNode 1 l => Sequence (List.map of_tree l)
  | GenNode 2 l => Map (List.map (λ t, match t with GenNode 3 [a; b] => (of_tree a, of_tree b) | _ => (Null, Null) end) l)
  | GenNode _ _ => Null
  end.
Fixpoint of_to_tree (n : node) : of_tree (to_tree n) = n.
Proof.
  destruct n as [|s|l|l]; cbn; try done; f_equal.
  - induction l as [|n l IH]; cbn; [done|]. by rewrite of_to_tree, IH.
  - induction l as [|[a b] l IH]; cbn; [done|]. by rewrite !of_to_tree, IH.
Qed.
Fixpoint bits (p : positive) : string := match p with xH => "" | xO p => String "0" (bits p) | xI p => String "1" (bits p) end.
Fixpoint of_bits (s : string) : positive :=
  match s with "" => xH | String c s => if Ascii.eqb c "0" then xO (of_bits s) else xI (of_bits s) end.
Lemma of_to_bits p : of_bits (bits p) = p.
Proof. induction p as [p IH|p IH|]; cbn; by rewrite ?IH. Qed.

Definition marked (n : node) : string := String "!" (bits (encode (to_tree n))).
Definition text (n : node) : string :=
  match n with
  | Scalar (String c _ as s) => if Ascii.eqb c "!" then marked n else s
  | _ => marked n
  end.
Definition parse (s : string) : option node :=
  match s with
  | "" => Some Null
  | String c r => if Ascii.eqb c "!" then of_tree <$> decode (of_bits r) else Some (Scalar s)
  end.
Lemma parse_text_marked n : parse (marked n) = Some n.
Proof. unfold marked, parse. cbn [Ascii.eqb Bool.eqb]. rewrite of_to_bits, decode_encode. cbn. by rewrite of_to_tree. Qed.
Lemma parse_text n : parse (text n) = Some n.
Proof.
  destruct n as [|[|c s]|l|l]; try apply parse_text_marked. unfold text. destruct (Ascii.eqb c "!") eqn:E; [apply parse_text_marked|]. cbn. by rewrite E.
Qed.

(** ** The library *)
Definition number (s : string) : Z := match s with String "-" r => - strtol 10 r | _ => strtol 10 s end.
Definition decimal (s : string) : option Z := if String.eqb (dec (number s)) s then Some (number s) else None.
Lemma strtol_all n : 0 ≤ n < 2 ^ 63 → strtol 10 (dec n) = n.
Proof. intros Hn. rewrite <-(str_app_nil_r (dec n)). by apply strtol_dec. Qed.
Lemma decimal_dec z : - 2 ^ 31 ≤ z < 2 ^ 31 → decimal (dec z) = Some z.
Proof.
  intros Hz. enough (Hn : number (dec z) = z) by (unfold decimal; by rewrite Hn, String.eqb_refl).
  destruct (decide (z < 0)) as [Hneg|Hpos].
  - assert (Hd : dec z = String "-" (dec (- z))) by (unfold dec; replace (z <? 0) with true by lia; by replace (- z <? 0) with false by lia).
    rewrite Hd. cbn [number]. rewrite strtol_all by lia. lia.
  - pose proof (strtol_all z ltac:(lia)) as Hs. pose proof (dec_digits z ltac:(lia)) as Hdig. unfold number.
    destruct (dec z) as [|[[] [] [] [] [] [] [] []] r] eqn:E; try done.
Qed.
#[export] Instance text_yaml : Yaml := {|
  Load := parse;
  emit := text;
  node_size n := match n with Sequence l => zlen l | Map l => zlen l | _ => 0 end;
  node_at n i := match n with Sequence l => l !! Z.to_nat i | _ => None end;
  node_items n := match n with Map l => l | _ => [] end;
  subscript n k := match n with Map l => Some (lookup_key k l) | Scalar _ => None | _ => Some None end;
  as_string n := match n with Scalar s => Some s | _ => None end;
  as_int n := match n with Scalar s => decimal s | _ => None end
|}.
Lemma text_laws : YamlLaws.
Proof.
  split; try done.
  - intros n _. apply parse_text.
  - intros l i e Hi. cbn. by rewrite Nat2Z.id.
  - intros z Hz. by apply decimal_dec.
Qed.
#[export] Existing Instance text_laws.
