(* ===== verification/LexicalCastFacts.v ===== *)
(** * LexicalCastFacts: values of configuration variables survive their YAML text *)
From stdpp Require Import sorting.
From S2P Require Import Prelude OrderedSet Text Config LexicalCast.
Open Scope string_scope.
Open Scope list_scope.
Open Scope Z_scope.

(** ** Types that survive *)
(** A type whose values of a domain survive, as a whole and as an element of another. *)
Class LexicalLaw (T : Type) `{!Yaml, !Lexical T} := {
  domain : T → Prop;
  through_text x : domain x → ∃ s, to_string x = Some s ∧ from_string s = Some x;
  through_node x : domain x → ∃ s e, to_string x = Some s ∧ Load s = Some e ∧ tidy e ∧ from_string (emit e) = Some x
}.

Section laws.
Context `{!Yaml, !YamlLaws}.

(** A string that the library prints as it is written. *)
Definition plain (s : string) : Prop := ∃ e, Load s = Some e ∧ tidy e ∧ emit e = s.
#[export] Instance string_law : LexicalLaw string.
Proof. refine {| domain := plain |}; [by eexists|]. intros x (e & Hl & Ht & He). exists x, e. split_and!; try done. by rewrite He. Defined.

Section elements.
Context {T : Type} `{!Lexical T, !LexicalLaw T}.
#[local] Set Default Proof Using "All".
Lemma items_to_ok (l : list T) : Forall domain l → ∃ es, items_to l = Some es ∧ Forall2 (λ x e, tidy e ∧ from_string (emit e) = Some x) l es.
Proof.
  induction 1 as [|x l Hx _ (es & Hr & Hes)]; [exists []; by split|]. destruct (through_node x Hx) as (s & e & Hs & Hl & Ht & Hf).
  exists (e :: es). cbn [items_to]. rewrite Hs. cbn. rewrite Hl. cbn. rewrite Hr. split; [done|]. by constructor.
Qed.
Lemma items_from_ok {C} (add : C → T → C) (all : list node) : ∀ (l : list T) es i c, drop i all = es → Forall2 (λ x e, tidy e ∧ from_string (emit e) = Some x) l es →
  items_from add (List.length es) (Z.of_nat i) (Sequence all) c = Some (foldl add c l).
Proof.
  intros l es i c Hd Hes. revert i c Hd. induction Hes as [|x e l es [Ht Hf] _ IH]; intros i c Hd; [done|]. cbn [items_from List.length].
  assert (Hi : all !! i = Some e) by (rewrite <-(Nat.add_0_r i), <-lookup_drop, Hd; done).
  rewrite (yaml_at _ _ _ Hi). cbn. rewrite Hf. cbn. replace (Z.of_nat i + 1) with (Z.of_nat (S i)) by lia. apply IH.
  by rewrite <-Nat.add_1_r, <-drop_drop, Hd.
Qed.
Lemma sequence_ok {C} (add : C → T → C) (empty : C) (l : list T) : Forall domain l →
  ∃ es, sequence_to l = Some (emit (Sequence es)) ∧ tidy (Sequence es) ∧ sequence_from add empty (emit (Sequence es)) = Some (foldl add empty l).
Proof.
  intros Hl. destruct (items_to_ok l Hl) as (es & Hr & Hes). exists es. unfold sequence_to. rewrite Hr. split; [done|].
  assert (Ht : tidy (Sequence es)) by (constructor; clear -Hes; induction Hes as [|x e l es [] _ IH]; by constructor).
  split; [done|]. unfold sequence_from. rewrite (yaml_load _ Ht). cbn. rewrite yaml_size. unfold zlen. rewrite Nat2Z.id.
  by apply (items_from_ok add es l es 0).
Qed.

(** ** Maps *)
Definition pair_ok (p : string * T) (q : node * node) : Prop := q.1 = Scalar p.1 ∧ tidy q.2 ∧ from_string (emit q.2) = Some p.2.
Lemma assign_new k e n : k ∉ (λ q, scalar q.1) <$> n → assign k e n = n ++ [(Scalar k, e)].
Proof.
  induction n as [|[k' e'] n IH]; cbn; [done|]. intros [Hne Hni]%not_elem_of_cons.
  destruct (String.eqb (scalar k') k) eqn:E; [apply String.eqb_eq in E; congruence|]. by rewrite IH.
Qed.
Lemma pairs_to_ok (l : list (string * T)) : ∀ n, Forall (λ p, domain p.2) l → NoDup (((λ q, scalar q.1) <$> n) ++ l.*1) →
  ∃ es, pairs_to l n = Some (n ++ es) ∧ Forall2 pair_ok l es.
Proof.
  induction l as [|[k x] l IH]; intros n Hl Hnd; cbn [pairs_to]; [exists []; by rewrite app_nil_r|].
  apply Forall_cons in Hl as [Hx Hl]. destruct (through_node x Hx) as (s & e & Hs & Hld & Ht & Hf). rewrite Hs. cbn. rewrite Hld. cbn.
  rewrite fmap_cons in Hnd. cbn [fst] in Hnd. pose proof Hnd as Hnd'. rewrite <-Permutation_middle in Hnd'. apply NoDup_cons in Hnd' as [Hk _].
  rewrite assign_new by (intros Hin; apply Hk, elem_of_app; by left).
  destruct (IH (n ++ [(Scalar k, e)])) as (es & Hr & Hes); [done| |].
  { rewrite fmap_app. cbn. by rewrite <-app_assoc. }
  exists ((Scalar k, e) :: es). rewrite Hr, <-app_assoc. split; [done|]. by constructor.
Qed.
Lemma pairs_tidy l es : Forall2 pair_ok l es → NoDup l.*1 → tidy (Map es).
Proof.
  intros Hes Hnd. assert (Hk : (λ p, scalar p.1) <$> es = l.*1).
  { clear Hnd. induction Hes as [|[k x] [k' e] l es (Hk & _) _ IH]; [done|]. cbn in *. by rewrite Hk, IH. }
  constructor; [|by rewrite Hk|]; clear -Hes; induction Hes as [|[k x] [k' e] l es (Hk & Ht & _) _ IH]; constructor; try done. cbn in *. by rewrite Hk.
Qed.
Lemma pairs_from_ok l es : Forall2 pair_ok l es → ∀ m, NoDup l.*1 → (∀ k, k ∈ l.*1 → m !! k = None) → pairs_from es m = Some (list_to_map l ∪ m).
Proof.
  induction 1 as [|[k x] [k' e] l es (Hk & _ & Hf) _ IH]; intros m Hnd Hm; cbn [pairs_from].
  { cbn. by rewrite map_empty_union. }
  cbn in *. subst k'. rewrite Hf. cbn. apply NoDup_cons in Hnd as [Hni Hnd]. unfold map_insert. rewrite Hm by (by left). rewrite IH; [|done|].
  - assert (Hno : (list_to_map l : gmap string T) !! k = None) by (by apply not_elem_of_list_to_map_1).
    by rewrite <-insert_union_l, insert_union_r.
  - intros j Hj. rewrite lookup_insert_ne by (intros ->; done). apply Hm. by right.
Qed.
Lemma pairs_ok (l : list (string * T)) : Forall (λ p, domain p.2) l → NoDup l.*1 →
  ∃ es, pairs_to_string l = Some (emit (Map es)) ∧ tidy (Map es) ∧ map_from (emit (Map es)) = Some (list_to_map l).
Proof.
  intros Hl Hnd. destruct (pairs_to_ok l [] Hl Hnd) as (es & Hr & Hes). pose proof (pairs_tidy l es Hes Hnd) as Ht. exists es.
  unfold pairs_to_string. rewrite Hr. split; [done|]. split; [done|]. unfold map_from. rewrite (yaml_load _ Ht). cbn. rewrite yaml_items.
  rewrite (pairs_from_ok l es Hes ∅ Hnd); [by rewrite map_union_empty|]. intros k _. apply lookup_empty.
Qed.
Definition map_domain (m : gmap string T) : Prop := map_Forall (λ _, domain) m.
Lemma map_ok (l : list (string * T)) (m : gmap string T) : l ≡ₚ map_to_list m → map_domain m →
  ∃ es, pairs_to_string l = Some (emit (Map es)) ∧ tidy (Map es) ∧ map_from (emit (Map es)) = Some m.
Proof.
  intros Hp Hm. assert (Hnd : NoDup l.*1) by (rewrite Hp; apply NoDup_fst_map_to_list).
  destruct (pairs_ok l) as (es & H1 & H2 & H3); [|done|].
  - rewrite Hp. apply Forall_forall. intros [k x] Hin%elem_of_map_to_list. by apply (Hm k x).
  - exists es. split; [done|]. split; [done|]. rewrite H3. f_equal. rewrite <-(list_to_map_to_list m). by apply list_to_map_proper.
Qed.

(** ** What the loops rebuild *)
Lemma push_back_all (l c : list T) : foldl push_back c l = c ++ l.
Proof. revert c. induction l as [|x l IH]; intros c; cbn; [by rewrite app_nil_r|]. rewrite IH. unfold push_back. by rewrite <-app_assoc. Qed.
Lemma insert_last lt (x : T) c : (∀ e, e ∈ c → lt e x = true) → (set_insert lt x c).1 = c ++ [x].
Proof.
  intros Hc. unfold set_insert. assert (lower_bound lt x c = (c, [])) as ->; [|done].
  induction c as [|e c IH]; [done|]. cbn. rewrite Hc by (by left). rewrite IH; [done|]. intros e' He'. apply Hc. by right.
Qed.
Lemma set_insert_all lt (l c : list T) : StronglySorted (λ a b, lt a b = true) l → (∀ a b, a ∈ c → b ∈ l → lt a b = true) →
  foldl (λ c x, (set_insert lt x c).1) c l = c ++ l.
Proof.
  intros Hs. revert c. induction Hs as [|x l Hs IH Hx]; intros c Hc; cbn [foldl]; [by rewrite app_nil_r|].
  rewrite insert_last by (intros e He; apply Hc; [done|by left]). rewrite IH.
  - by rewrite <-app_assoc.
  - intros a b [Ha|Ha%list_elem_of_singleton]%elem_of_app Hb; [apply Hc; [done|by right]|]. subst a. rewrite Forall_forall in Hx. by apply Hx.
Qed.
Lemma union_all `{!EqDecision T, !Countable T} (l : list T) (c : gset T) : foldl (λ c x, {[x]} ∪ c) c l = list_to_set l ∪ c.
Proof. revert c. induction l as [|x l IH]; intros c; cbn; [set_solver|]. rewrite IH. set_solver. Qed.
End elements.

#[export] Instance vector_law {T} `{!Lexical T, !LexicalLaw T} : LexicalLaw (list T).
Proof using All.
  refine {| domain := Forall domain |}; intros v Hv; destruct (sequence_ok push_back [] v Hv) as (es & Hto & Ht & Hfrom);
    rewrite (push_back_all v []) in Hfrom.
  - by exists (emit (Sequence es)).
  - exists (emit (Sequence es)), (Sequence es). split; [done|]. split; [by apply yaml_load|done].
Defined.
#[export] Instance map_law {T} `{!Lexical T, !LexicalLaw T} : LexicalLaw (gmap string T).
Proof using All.
  refine {| domain := map_domain |}; intros m Hm; destruct (map_ok (merge_sort key_le (map_to_list m)) m) as (es & Hto & Ht & Hfrom);
    [apply merge_sort_Permutation|done| |apply merge_sort_Permutation|done|].
  - by exists (emit (Map es)).
  - exists (emit (Map es)), (Map es). split; [done|]. split; [by apply yaml_load|done].
Defined.

(** C34: A value of every container type survives its YAML text: vectors and lists keep
    their elements in order, sets are rebuilt from their sorted elements, unordered sets
    and both kinds of maps from any order of iteration; the elements are of any type
    whose values survive the text themselves, containers included. *)
Theorem containers_roundtrip {T} `{!Lexical T, !LexicalLaw T} :
  (∀ v : list T, Forall domain v → ∃ s, vector_to v = Some s ∧ vector_from s = Some v) ∧
  (∀ v : list T, Forall domain v → ∃ s, list_to v = Some s ∧ list_from s = Some v) ∧
  (∀ lt (v : list T), Forall domain v → StronglySorted (λ a b, lt a b = true) v → ∃ s, set_to v = Some s ∧ set_from lt s = Some v) ∧
  (∀ `{!EqDecision T, !Countable T} iteration (v : gset T), iteration v ≡ₚ elements v → set_Forall domain v →
    ∃ s, unordered_set_to iteration v = Some s ∧ unordered_set_from s = Some v) ∧
  (∀ m : gmap string T, map_Forall (λ _, domain) m → ∃ s, map_to m = Some s ∧ map_from s = Some m) ∧
  (∀ iteration (m : gmap string T), iteration m ≡ₚ map_to_list m → map_Forall (λ _, domain) m →
    ∃ s, unordered_map_to iteration m = Some s ∧ unordered_map_from s = Some m).
Proof using All.
  split_and!.
  - intros v Hv. destruct (sequence_ok push_back [] v Hv) as (es & Hto & _ & Hfrom). rewrite push_back_all in Hfrom. by eexists.
  - intros v Hv. destruct (sequence_ok push_back [] v Hv) as (es & Hto & _ & Hfrom). rewrite push_back_all in Hfrom. by eexists.
  - intros lt v Hv Hs. destruct (sequence_ok (λ c x, (set_insert lt x c).1) [] v Hv) as (es & Hto & _ & Hfrom).
    rewrite set_insert_all in Hfrom by (done || (intros a b []%elem_of_nil)). by eexists.
  - intros Heq Hc iteration v Hp Hv. destruct (sequence_ok (λ c x, {[x]} ∪ c) (∅ : gset T) (iteration v)) as (es & Hto & _ & Hfrom).
    { rewrite Hp. apply Forall_forall. intros x Hx. by apply Hv, elem_of_elements. }
    exists (emit (Sequence es)). split; [done|]. unfold unordered_set_from. rewrite Hfrom, union_all, union_empty_r_L. f_equal.
    rewrite (list_to_set_perm_L _ _ Hp). apply list_to_set_elements_L.
  - intros m Hm. destruct (map_ok (merge_sort key_le (map_to_list m)) m) as (es & Hto & _ & Hfrom); [apply merge_sort_Permutation|done|]. by eexists.
  - intros iteration m Hp Hm. destruct (map_ok (iteration m) m Hp Hm) as (es & Hto & _ & Hfrom). by eexists.
Qed.
End laws.

Example plain_abc : plain "abc".
Proof. exists (Scalar "abc"). split; [reflexivity|]. split; [constructor|reflexivity]. Qed.
Lemma containers_roundtrip_witness :
  (∃ s, vector_to ["abc"; "abc"] = Some s ∧ vector_from s = Some ["abc"; "abc"]) ∧
  (∃ s, map_to (T := list string) {["k" := ["abc"]]} = Some s ∧ map_from (T := list string) s = Some {["k" := ["abc"]]}).
Proof.
  split.
  - apply (containers_roundtrip (T := string)). repeat constructor; exact plain_abc.
  - apply (containers_roundtrip (T := list string)). intros k x Hx. apply lookup_singleton_Some in Hx as [_ <-]. repeat constructor. exact plain_abc.
Defined.
