(* ===== verification/ConfLexical.v ===== *)
(** * ConfLexical ([webserve/tcp_server.h], [webserve/log.cc]): the structured configuration values as YAML text

    The conversions of [TcpServerConf] and of [LogDefine], and the text a logger, an
    appender and the manager print of themselves. *)
From stdpp Require Import sorting.
From S2P Require Import Prelude Text Config LexicalCast TcpServerConf LogPattern Log.
Open Scope string_scope.
Open Scope Z_scope.

Section conf.
Context `{!Yaml}.

(** [n[key].as<std::string>()], which throws; with a fallback; the same for [int]. *)
Definition required (n : node) (key : string) : option string := e ← subscript n key; e ← e; as_string e.
Definition string_or (n : node) (key : string) (fallback : string) : option string :=
  e ← subscript n key; Some (match e with Some e => default fallback (as_string e) | None => fallback end).
Definition int_or (n : node) (key : string) (fallback : Z) : option Z :=
  e ← subscript n key; Some (match e with Some e => default fallback (as_int e) | None => fallback end).
(** The value where the key is defined. *)
Definition if_defined (n : node) (key : string) (fallback : string) : option string :=
  e ← subscript n key; match e with Some e => as_string e | None => Some fallback end.
(** The elements of a sequence, by their index. *)
Fixpoint elements_at (n : node) (count : nat) (i : Z) : option (list node) :=
  match count with O => Some [] | S count => e ← node_at n i; rest ← elements_at n count (i + 1); Some (e :: rest) end.
Definition elements (n : node) : option (list node) := elements_at n (Z.to_nat (node_size n)) 0.
(** A node that fields were assigned to; nothing was: it is null still. *)
Definition built (fields : list (string * node)) : node :=
  match fields with [] => Null | _ => Map ((λ f, (Scalar f.1, f.2)) <$> fields) end.
Definition when (b : bool) (f : string * node) : list (string * node) := if b then [f] else [].

(** ** TcpServerConf *)
Fixpoint addresses_from (l : list node) : option (list string) :=
  match l with [] => Some [] | e :: l => a ← as_string e; rest ← addresses_from l; Some (a :: rest) end.
Definition TcpServerConf_from (v : string) : option TcpServerConf :=
  let conf := TcpServerConf_default in
  n ← Load v;
  id ← string_or n "id" (id conf);
  type ← string_or n "type" (type conf);
  keepalive ← int_or n "keepalive" (keepalive conf);
  timeout ← int_or n "timeout" (timeout conf);
  name ← string_or n "name" (TcpServerConf.name conf);
  ssl ← int_or n "ssl" (ssl conf);
  cert_file ← string_or n "cert_file" (cert_file conf);
  key_file ← string_or n "key_file" (key_file conf);
  accept_worker ← required n "accept_worker";
  io_worker ← required n "io_worker";
  process_worker ← required n "process_worker";
  text ← string_or n "args" "";
  args ← map_from text;
  e ← subscript n "address";
  address ← match e with Some e => l ← elements e; addresses_from l | None => Some [] end;
  Some (mkTcpServerConf address keepalive timeout ssl id type name cert_file key_file accept_worker io_worker process_worker args).
Definition TcpServerConf_to (conf : TcpServerConf) : option string :=
  text ← map_to (args conf);
  args ← Load text;
  Some (emit (built (
    [("id", Scalar (id conf)); ("type", Scalar (type conf)); ("name", Scalar (TcpServerConf.name conf));
     ("keepalive", Scalar (dec (keepalive conf))); ("timeout", Scalar (dec (timeout conf))); ("ssl", Scalar (dec (ssl conf)));
     ("cert_file", Scalar (cert_file conf)); ("key_file", Scalar (key_file conf)); ("accept_worker", Scalar (accept_worker conf));
     ("io_worker", Scalar (io_worker conf)); ("process_worker", Scalar (process_worker conf)); ("args", args)] ++
    when (bool_decide (address conf ≠ [])) ("address", Sequence (Scalar <$> address conf)))%list)).
#[export] Instance conf_lexical : Lexical TcpServerConf := {| to_string := TcpServerConf_to; from_string := TcpServerConf_from |}.

(** ** LogDefine *)
(** One turn of the loop over the appenders: [Some None] where it continues without one. *)
Definition appender_from (a : node) : option (option LogAppenderDefine) :=
  e ← subscript a "type";
  match e with
  | None => Some None
  | Some e =>
      type ← as_string e;
      if String.eqb type "FileLogAppender" then
        f ← subscript a "file";
        match f with
        | None => Some None
        | Some f =>
            file ← as_string f;
            formatter ← if_defined a "formatter" "";
            Some (Some (mkLogAppenderDefine 1 UNKNOW formatter file))
        end
      else if String.eqb type "StdoutLogAppender" then
        formatter ← if_defined a "formatter" "";
        Some (Some (mkLogAppenderDefine 2 UNKNOW formatter ""))
      else Some None
  end.
Fixpoint appenders_from (l : list node) : option (list LogAppenderDefine) :=
  match l with
  | [] => Some []
  | a :: l => d ← appender_from a; rest ← appenders_from l; Some (match d with Some d => d :: rest | None => rest end)
  end.
Definition define_from (n : node) : option LogDefine :=
  name ← required n "name";
  text ← if_defined n "level" "";
  formatter ← if_defined n "formatter" "";
  e ← subscript n "appenders";
  appenders ← match e with Some e => l ← elements e; appenders_from l | None => Some [] end;
  Some (mkLogDefine name (FromString text) formatter appenders).
Definition LogDefine_from (v : string) : option LogDefine := n ← Load v; define_from n.
Definition appender_to (a : LogAppenderDefine) : node :=
  built (
    (if d_type a =? 1 then [("type", Scalar "FileLogAppender"); ("file", Scalar (d_file a))]
     else if d_type a =? 2 then [("type", Scalar "StdoutLogAppender")] else []) ++
    when (bool_decide (d_level a ≠ UNKNOW)) ("level", Scalar (ToString (d_level a))) ++
    when (negb (is_empty (d_formatter a))) ("formatter", Scalar (d_formatter a)))%list.
Definition LogDefine_to (i : LogDefine) : option string :=
  Some (emit (built (
    [("name", Scalar (Log.name i))] ++
    when (bool_decide (level i ≠ UNKNOW)) ("level", Scalar (ToString (level i))) ++
    when (negb (is_empty (formatter i))) ("formatter", Scalar (formatter i)) ++
    when (bool_decide (def_appenders i ≠ [])) ("appenders", Sequence (appender_to <$> def_appenders i)))%list)).
#[export] Instance define_lexical : Lexical LogDefine := {| to_string := LogDefine_to; from_string := LogDefine_from |}.
(** [LogDefine::operator<] *)
Definition define_lt (d oth : LogDefine) : bool := match String.compare (Log.name d) (Log.name oth) with Lt => true | _ => false end.
(** The variable [logs] is a set of definitions. *)
Definition logs_from : string → option (list LogDefine) := set_from define_lt.
Definition logs_to : list LogDefine → option string := set_to.

(** ** What the log prints of itself *)
Definition FileLogAppender_toYamlString (m_filename : string) (x : LogAppender) : string :=
  emit (built (
    [("type", Scalar "FileLogAppender"); ("file", Scalar m_filename)] ++
    when (bool_decide (a_level x ≠ UNKNOW)) ("level", Scalar (ToString (a_level x))) ++
    match a_formatter x with Some f => when (m_hasFormatter x) ("formatter", Scalar (m_pattern f)) | None => [] end)%list).
Definition StdoutLogAppender_toYamlString (x : LogAppender) : string :=
  emit (built (
    [("type", Scalar "StdoutLogAppender")] ++
    when (bool_decide (a_level x ≠ UNKNOW)) ("level", Scalar (ToString (a_level x))) ++
    match a_formatter x with Some f => when (m_hasFormatter x) ("formatter", Scalar (m_pattern f)) | None => [] end)%list).
Definition appender_toYamlString (x : LogAppender) : string :=
  match a_sink x with File f _ _ => FileLogAppender_toYamlString f x | Stdout => StdoutLogAppender_toYamlString x end.
Fixpoint appender_nodes (s : Logs) (l : list Z) : option (list node) :=
  match l with [] => Some [] | a :: l => x ← appenders s !! a; e ← Load (appender_toYamlString x); rest ← appender_nodes s l; Some (e :: rest) end.
Definition Logger_toYamlString (s : Logs) (l : Logger) : option string :=
  aps ← appender_nodes s (l_appenders l);
  Some (emit (built (
    [("name", Scalar (l_name l))] ++
    when (bool_decide (l_level l ≠ UNKNOW)) ("level", Scalar (ToString (l_level l))) ++
    match l_formatter l with Some f => [("formatter", Scalar (m_pattern f))] | None => [] end ++
    when (bool_decide (aps ≠ [])) ("appenders", Sequence aps))%list)).
Fixpoint logger_nodes (s : Logs) (l : list (string * Z)) : option (list node) :=
  match l with [] => Some [] | (_, a) :: l => x ← loggers s !! a; t ← Logger_toYamlString s x; e ← Load t; rest ← logger_nodes s l; Some (e :: rest) end.
(** The loggers in the order of their names. *)
Definition LoggerManager_toYamlString (s : Logs) : option string :=
  l ← logger_nodes s (merge_sort key_le (map_to_list (m_loggers s)));
  Some (emit (match l with [] => Null | _ => Sequence l end)).
End conf.
