(* ===== verification/ConfLexicalFacts.v ===== *)
(** * ConfLexicalFacts: the configurations of servers and loggers survive their text, and what does not *)
From stdpp Require Import sorting.
From S2P Require Import Prelude OrderedSet Text Config LexicalCast LexicalCastFacts TcpServerConf LogPattern Log ConfLexical.
Open Scope string_scope.
Open Scope list_scope.
Open Scope Z_scope.

Section facts.
Context `{!Yaml, !YamlLaws}.
#[local] Set Default Proof Using "All".

(** ** Nodes built from fields *)
Lemma elements_at_ok (all : list node) : ∀ es i, drop i all = es → elements_at (Sequence all) (List.length es) (Z.of_nat i) = Some es.
Proof.
  induction es as [|e es IH]; intros i Hd; [done|]. cbn [elements_at List.length].
  assert (Hi : all !! i = Some e) by (rewrite <-(Nat.add_0_r i), <-lookup_drop, Hd; done). rewrite (yaml_at _ _ _ Hi). cbn.
  replace (Z.of_nat i + 1) with (Z.of_nat (S i)) by lia. rewrite IH; [done|]. by rewrite <-Nat.add_1_r, <-drop_drop, Hd.
Qed.
Lemma elements_ok l : elements (Sequence l) = Some l.
Proof. unfold elements. rewrite yaml_size. unfold zlen. rewrite Nat2Z.id. by apply (elements_at_ok l l 0). Qed.
Lemma built_tidy fields : NoDup fields.*1 → Forall (λ f, tidy f.2) fields → tidy (built fields).
Proof.
  intros Hnd Ht. destruct fields as [|f fields]; [constructor|]. cbn [built]. constructor.
  - apply Forall_fmap. by apply Forall_true.
  - rewrite <-list_fmap_compose. exact Hnd.
  - by apply Forall_fmap.
Qed.
Lemma built_cons f fields : built (f :: fields) = Map ((λ f, (Scalar f.1, f.2)) <$> f :: fields).
Proof. done. Qed.
#[local] Hint Constructors tidy : tidy.
Ltac distinct := cbn; repeat (apply NoDup_cons; split; [rewrite ?not_elem_of_cons; split_and?; (done || apply not_elem_of_nil)|]); apply NoDup_nil_2.
Ltac tidies := repeat (apply Forall_cons_2; [cbn; auto with tidy|]); apply Forall_nil_2.
Ltac fields := unfold required, if_defined, string_or, int_or; rewrite ?yaml_subscript; cbn; rewrite ?yaml_string; cbn.

(** ** Log definitions *)
(** What the text can carry: not the level of an appender, nor the file of one that has none. *)
Definition appender_kept (a : LogAppenderDefine) : Prop := d_level a = UNKNOW ∧ (d_type a = 1 ∨ d_type a = 2 ∧ d_file a = "").
Lemma no_level f : when (bool_decide (UNKNOW ≠ UNKNOW)) f = [].
Proof. by rewrite bool_decide_eq_false_2 by tauto. Qed.
Lemma appender_ok a : appender_kept a → tidy (appender_to a) ∧ appender_from (appender_to a) = Some (Some a).
Proof.
  intros [Hl Ht]. destruct a as [t l f file]. cbn [d_level d_type d_file] in *. subst l. unfold appender_to.
  cbn [d_level d_type d_formatter d_file]. rewrite no_level. destruct Ht as [->|[-> ->]]; cbn [Z.eqb Pos.eqb];
    (destruct f as [|c f]; cbn [is_empty negb when app]; (split;
      [apply built_tidy; [distinct|tidies]|rewrite built_cons; unfold appender_from; by fields])).
Qed.
Lemma level_text lv : lv ≠ UNKNOW → FromString (ToString lv) = lv.
Proof. by destruct lv. Qed.
(** A node with the fields of a definition, of which the formatter may be left out. *)
Definition define_node (nm : string) (lv : Level) (fo : option string) (aps : list node) : node :=
  built (
    [("name", Scalar nm)] ++ when (bool_decide (lv ≠ UNKNOW)) ("level", Scalar (ToString lv)) ++
    match fo with Some f => [("formatter", Scalar f)] | None => [] end ++ when (bool_decide (aps ≠ [])) ("appenders", Sequence aps)).
Lemma define_node_ok nm lv fo aps ds : Forall tidy aps → appenders_from aps = Some ds →
  tidy (define_node nm lv fo aps) ∧ define_from (define_node nm lv fo aps) = Some (mkLogDefine nm lv (default "" fo) ds).
Proof.
  intros Ht Hds. unfold define_node.
  assert (Hlv : bool_decide (lv ≠ UNKNOW) = true ∧ FromString (ToString lv) = lv ∨ bool_decide (lv ≠ UNKNOW) = false ∧ lv = UNKNOW).
  { case_bool_decide as Hd; [left; split; [done|by apply level_text]|right]. split; [done|]. by destruct (decide (lv = UNKNOW)). }
  assert (Haps : bool_decide (aps ≠ []) = true ∨ bool_decide (aps ≠ []) = false ∧ ds = []).
  { clear Ht. destruct aps as [|e aps]; [right; split; [apply bool_decide_eq_false_2; tauto|cbn in Hds; congruence]|left; by apply bool_decide_eq_true_2]. }
  assert (Hseq : tidy (Sequence aps)) by (by constructor).
  destruct Hlv as [[-> Hlv]|[-> ->]], Haps as [->|[-> ->]], fo as [f|]; cbn [when app]; (split;
    [apply built_tidy; [distinct|tidies]|rewrite built_cons; unfold define_from; fields;
      rewrite ?elements_ok; cbn; rewrite ?Hds; cbn; rewrite ?Hlv; done]).
Qed.
Definition define_kept (i : LogDefine) : Prop := Forall appender_kept (def_appenders i).
Lemma appenders_ok l : Forall appender_kept l → Forall tidy (appender_to <$> l) ∧ appenders_from (appender_to <$> l) = Some l.
Proof.
  induction 1 as [|a l Ha _ [IH1 IH2]]; [by split|]. destruct (appender_ok a Ha) as [H1 H2]. rewrite fmap_cons. split; [by constructor|].
  cbn [appenders_from]. by rewrite H2, IH2.
Qed.
Lemma define_ok i : define_kept i → ∃ e, LogDefine_to i = Some (emit e) ∧ tidy e ∧ define_from e = Some i.
Proof.
  intros Hk. destruct (appenders_ok _ Hk) as [H1 H2]. destruct i as [nm lv f l]. cbn [def_appenders] in *.
  set (fo := if negb (is_empty f) then Some f else None).
  destruct (define_node_ok nm lv fo _ _ H1 H2) as [Ht Hf]. exists (define_node nm lv fo (appender_to <$> l)). split; [|split; [done|]].
  - unfold LogDefine_to, define_node. cbn [Log.name level formatter def_appenders]. do 5 f_equal; subst fo; destruct (is_empty f); cbn [negb when]; [by destruct l..].
  - rewrite Hf. subst fo. by destruct f.
Qed.
#[export] Instance define_law : LexicalLaw LogDefine.
Proof.
  refine {| domain := define_kept |}; intros i Hi; destruct (define_ok i Hi) as (e & Hto & Ht & Hf).
  - exists (emit e). split; [done|]. cbn. unfold LogDefine_from. by rewrite (yaml_load _ Ht).
  - exists (emit e), e. split; [done|]. split; [by apply yaml_load|]. split; [done|]. cbn. unfold LogDefine_from. by rewrite (yaml_load _ Ht).
Defined.

(** ** What the log prints *)
(** What is read back of an appender: its level is printed, and lost. *)
Definition appender_def (x : LogAppender) : LogAppenderDefine :=
  mkLogAppenderDefine (match a_sink x with File _ _ _ => 1 | Stdout => 2 end) UNKNOW
    (match a_formatter x with Some f => if m_hasFormatter x then m_pattern f else "" | None => "" end)
    (match a_sink x with File f _ _ => f | Stdout => "" end).
Definition logger_def (l : Logger) (xs : list LogAppender) : LogDefine :=
  mkLogDefine (l_name l) (l_level l) (default "" (m_pattern <$> l_formatter l)) (appender_def <$> xs).
Lemma appender_yaml_ok x : ∃ e, tidy e ∧ appender_toYamlString x = emit e ∧ appender_from e = Some (Some (appender_def x)).
Proof.
  destruct x as [lv fo has sink]. unfold appender_toYamlString, FileLogAppender_toYamlString, StdoutLogAppender_toYamlString, appender_def. cbn [a_sink a_level a_formatter m_hasFormatter].
  destruct sink; (eexists; split; [|split; [reflexivity|]];
    [apply built_tidy; destruct (bool_decide _), fo as [f'|], has; cbn [when app]; (distinct || tidies)
    |destruct (bool_decide _), fo as [f'|], has; cbn [when app]; rewrite built_cons; unfold appender_from; by fields]).
Qed.
Lemma appender_nodes_ok s l xs : Forall2 (λ a x, appenders s !! a = Some x) l xs →
  ∃ es, appender_nodes s l = Some es ∧ Forall tidy es ∧ appenders_from es = Some (appender_def <$> xs).
Proof.
  induction 1 as [|a x l xs Ha _ (es & Hr & Ht & Hf)]; [by exists []|]. destruct (appender_yaml_ok x) as (e & Hte & Hy & Hfe).
  exists (e :: es). cbn [appender_nodes appenders_from]. rewrite Ha. cbn. rewrite Hy, (yaml_load _ Hte). cbn. rewrite Hr, Hfe, Hf. cbn.
  split; [done|]. split; [by constructor|done].
Qed.
Lemma logger_yaml_ok s l xs : Forall2 (λ a x, appenders s !! a = Some x) (l_appenders l) xs →
  ∃ e, Logger_toYamlString s l = Some (emit e) ∧ tidy e ∧ define_from e = Some (logger_def l xs).
Proof.
  intros Hxs. destruct (appender_nodes_ok s _ _ Hxs) as (es & Hr & Ht & Hf).
  destruct (define_node_ok (l_name l) (l_level l) (m_pattern <$> l_formatter l) es _ Ht Hf) as [Htn Hfn].
  eexists. unfold Logger_toYamlString. rewrite Hr. cbn [mbind option_bind]. split; [|split; [exact Htn|exact Hfn]].
  unfold define_node. by destruct (l_formatter l).
Qed.
(** The definition of the logger at an address. *)
Definition defines s (p : string * Z) (d : LogDefine) : Prop :=
  ∃ l xs, loggers s !! p.2 = Some l ∧ l_name l = p.1 ∧ Forall2 (λ a x, appenders s !! a = Some x) (l_appenders l) xs ∧ d = logger_def l xs.
Lemma logger_nodes_ok s l : Forall (λ p, ∃ d, defines s p d) l →
  ∃ es ds, logger_nodes s l = Some es ∧ Forall2 (defines s) l ds ∧ Forall2 (λ d e, tidy e ∧ from_string (emit e) = Some d) ds es.
Proof.
  induction 1 as [|[k a] l (d & lo & xs & Hlo & Hn & Hxs & ->) _ (es & ds & Hr & Hds & Hes)]; [by exists [], []|].
  destruct (logger_yaml_ok s lo xs Hxs) as (e & Hy & Ht & Hf). exists (e :: es), (logger_def lo xs :: ds).
  cbn [logger_nodes]. cbn in Hlo. rewrite Hlo. cbn. rewrite Hy. cbn. rewrite (yaml_load _ Ht). cbn. rewrite Hr. split; [done|]. split.
  - constructor; [|done]. by exists lo, xs.
  - constructor; [|done]. split; [done|]. cbn. unfold LogDefine_from. by rewrite (yaml_load _ Ht).
Qed.
Lemma names_sorted s (l : list (string * Z)) ds : StronglySorted key_le l → NoDup l.*1 → Forall2 (defines s) l ds →
  StronglySorted (λ a b, define_lt a b = true) ds.
Proof.
  intros Hs Hnd Hds. induction Hds as [|p d l ds Hd Hds IH]; [constructor|]. apply StronglySorted_inv in Hs as [Hs Hp].
  apply NoDup_cons in Hnd as [Hni Hnd]. constructor; [by apply IH|]. clear IH.
  assert (Hall : ∀ q, q ∈ l → String.compare p.1 q.1 = Lt).
  { intros q Hq. rewrite Forall_forall in Hp. specialize (Hp q Hq). unfold key_le, String.leb in Hp. destruct (String.compare p.1 q.1) eqn:E; try done.
    apply str_compare_eq in E. exfalso. apply Hni. rewrite E. apply list_elem_of_fmap. by exists q. }
  destruct Hd as (lo & xs & _ & Hn & _ & ->). clear -Hall Hds Hn. induction Hds as [|q d l ds (lo2 & xs2 & _ & Hn2 & _ & ->) _ IH]; constructor.
  - unfold define_lt. cbn. rewrite Hn, Hn2, Hall by (by left). done.
  - apply IH. intros r Hr. apply Hall. by right.
Qed.
Lemma keys_sorted {T} (l : list (string * T)) : StronglySorted key_le (merge_sort key_le l).
Proof.
  apply StronglySorted_merge_sort.
  - intros [a x] [b y] [c z]. unfold key_le, String.leb. cbn. intros Hab Hbc.
    destruct (String.compare a b) eqn:E1; try done; destruct (String.compare b c) eqn:E2; try done.
    + apply str_compare_eq in E1, E2. subst. by rewrite str_compare_refl.
    + apply str_compare_eq in E1. subst. by rewrite E2.
    + apply str_compare_eq in E2. subst. by rewrite E1.
    + by rewrite (str_compare_trans _ _ _ E1 E2).
  - intros [a x] [b y]. unfold key_le, String.leb. cbn. rewrite (str_compare_antisym a b). destruct (String.compare a b); cbn; tauto.
Qed.

(** C33: The text that the manager prints of its loggers is a value of the variable [logs]:
    it is read as one definition for each logger, in the order of their names, with its
    name, its level, its pattern and its appenders, each with its type, its file and its
    own pattern; only the levels of the appenders are lost. *)
Theorem log_dump_reloads s : m_loggers s ≠ ∅ →
  (∀ n a, m_loggers s !! n = Some a → ∃ l, loggers s !! a = Some l ∧ l_name l = n ∧ Forall (λ x, is_Some (appenders s !! x)) (l_appenders l)) →
  ∃ t ds, LoggerManager_toYamlString s = Some t ∧ logs_from t = Some ds ∧
    Forall2 (λ p d, ∃ l xs, loggers s !! p.2 = Some l ∧ l_name l = p.1 ∧ Forall2 (λ a x, appenders s !! a = Some x) (l_appenders l) xs ∧ d = logger_def l xs)
      (merge_sort key_le (map_to_list (m_loggers s))) ds.
Proof.
  intros Hne Hall. set (l := merge_sort key_le (map_to_list (m_loggers s))). assert (Hp : l ≡ₚ map_to_list (m_loggers s)) by apply merge_sort_Permutation.
  destruct (logger_nodes_ok s l) as (es & ds & Hr & Hds & Hes).
  { rewrite Hp. apply Forall_forall. intros [n a] Hin%elem_of_map_to_list. destruct (Hall n a Hin) as (lo & Hlo & Hn & Hx).
    assert (∃ xs, Forall2 (λ a x, appenders s !! a = Some x) (l_appenders lo) xs) as [xs Hxs].
    { clear -Hx. induction Hx as [|a l [x Hx] _ [xs Hxs]]; [by exists []|]. exists (x :: xs). by constructor. }
    by exists (logger_def lo xs), lo, xs. }
  assert (Hd : foldl (λ c x, (set_insert define_lt x c).1) [] ds = ds).
  { apply set_insert_all; [|by intros a b []%elem_of_nil]. apply (names_sorted s l ds); [apply keys_sorted|rewrite Hp; apply NoDup_fst_map_to_list|done]. }
  exists (emit (match es with [] => Null | _ => Sequence es end)), ds. unfold LoggerManager_toYamlString. fold l. rewrite Hr. split; [done|].
  destruct es as [|e es].
  { exfalso. apply Hne. apply Forall2_length in Hes, Hds. cbn in Hes. rewrite Hes in Hds. destruct l as [|]; [|done].
    apply map_to_list_empty_iff. symmetry. by apply Permutation_nil_l. }
  split; [|exact Hds]. unfold logs_from, set_from, sequence_from. rewrite (yaml_load (Sequence (e :: es))).
  - cbn [mbind option_bind]. rewrite yaml_size. unfold zlen. rewrite Nat2Z.id, (items_from_ok _ (e :: es) ds (e :: es) 0 [] eq_refl Hes). by rewrite Hd.
  - constructor. clear -Hes. induction Hes as [|x y l k [] _ IH]; by constructor.
Qed.

(** ** TcpServerConf *)
Definition int32 (z : Z) : Prop := - 2 ^ 31 ≤ z < 2 ^ 31.
Definition conf_kept (c : TcpServerConf) : Prop := int32 (keepalive c) ∧ int32 (timeout c) ∧ int32 (ssl c) ∧ map_domain (args c).
Lemma addresses_ok l : addresses_from (Scalar <$> l) = Some l.
Proof. induction l as [|a l IH]; [done|]. rewrite fmap_cons. cbn [addresses_from]. by rewrite yaml_string, IH. Qed.
(** The configuration of a server survives its text but for [args]: the map is
    written as a map and read as a scalar, so it is always lost; every other field, the
    addresses in their order included, is read as it was. *)
Theorem server_conf_text c : conf_kept c →
  ∃ t, TcpServerConf_to c = Some t ∧
    TcpServerConf_from t = Some (mkTcpServerConf (address c) (keepalive c) (timeout c) (ssl c) (id c) (type c) (TcpServerConf.name c)
      (cert_file c) (key_file c) (accept_worker c) (io_worker c) (process_worker c) ∅).
Proof.
  intros (Hk & Ht & Hs & Hargs). destruct (map_ok (merge_sort key_le (map_to_list (args c))) (args c)) as (es & Hto & Hte & _);
    [apply merge_sort_Permutation|done|]. unfold TcpServerConf_to, map_to. rewrite Hto. cbn [mbind option_bind]. rewrite (yaml_load _ Hte).
  eexists. split; [reflexivity|].
  assert (Haddr : bool_decide (address c ≠ []) = true ∨ bool_decide (address c ≠ []) = false ∧ address c = []).
  { destruct (address c); [right; split; [apply bool_decide_eq_false_2; tauto|done]|left; by apply bool_decide_eq_true_2]. }
  assert (Hempty : map_from (T := string) "" = Some ∅) by (unfold map_from; rewrite yaml_load_empty; cbn; by rewrite yaml_items_null).
  assert (Hseq : tidy (Sequence (Scalar <$> address c))) by (constructor; apply Forall_fmap, Forall_true; constructor).
  unfold TcpServerConf_from. destruct Haddr as [->|[-> Hnil]]; cbn [when app];
    (rewrite yaml_load by (apply built_tidy; [distinct|tidies]); rewrite built_cons; cbn [mbind option_bind]; fields;
     rewrite ?yaml_string_map, !yaml_int by done; cbn; rewrite Hempty; cbn; rewrite ?elements_ok; cbn; rewrite ?addresses_ok, ?Hnil; done).
Qed.
End facts.

(** The root logger with a console, and a logger that writes to a file. *)
Definition sample_logs : Logs :=
  mkLogs {[ 1 := mkLogger "root" DEBUG [3] None None; 2 := mkLogger "system" WARN [4; 3] (Some (mkLogFormatter "%m%n" [] false)) (Some 1) ]}
    {[ 3 := mkLogAppender ERROR None false Stdout; 4 := mkLogAppender INFO (Some (mkLogFormatter "%p" [] false)) true (File "system.log" None 0) ]}
    5 {[ "root" := 1; "system" := 2 ]} 1 "".
Lemma log_dump_reloads_witness : ∃ t, LoggerManager_toYamlString sample_logs = Some t ∧
  logs_from t = Some [mkLogDefine "root" DEBUG "" [mkLogAppenderDefine 2 UNKNOW "" ""];
    mkLogDefine "system" WARN "%m%n" [mkLogAppenderDefine 1 UNKNOW "%p" "system.log"; mkLogAppenderDefine 2 UNKNOW "" ""]].
Proof.
  destruct (log_dump_reloads sample_logs) as (t & ds & H1 & H2 & _).
  - discriminate.
  - intros n a Hn. cbn in Hn. apply lookup_insert_Some in Hn as [[<- <-]|[_ Hn]].
    + eexists. split; [vm_compute; reflexivity|]. split; [reflexivity|]. repeat constructor; eexists; vm_compute; reflexivity.
    + apply lookup_singleton_Some in Hn as [<- <-]. eexists. split; [vm_compute; reflexivity|]. split; [reflexivity|].
      repeat constructor; eexists; vm_compute; reflexivity.
  - exists t. split; [exact H1|]. rewrite H2. vm_compute in H1. injection H1 as <-. vm_compute in H2. injection H2 as <-. reflexivity.
Defined.
Definition sample_conf : TcpServerConf :=
  mkTcpServerConf ["0.0.0.0:8080"; "/tmp/sock"] 1 120000 0 "id" "http" "srv" "" "" "accept" "io" "work" {[ "a" := "b" ]}.
Lemma server_conf_text_witness : ∃ t c, TcpServerConf_to sample_conf = Some t ∧ TcpServerConf_from t = Some c ∧
  address c = ["0.0.0.0:8080"; "/tmp/sock"] ∧ args sample_conf ≠ ∅ ∧ args c = ∅.
Proof.
  destruct (server_conf_text sample_conf) as (t & H1 & H2).
  - unfold conf_kept, int32. cbn [keepalive timeout ssl args sample_conf]. split; [lia|]. split; [lia|]. split; [lia|].
    intros k x Hx. apply lookup_singleton_Some in Hx as [_ <-]. exists (Scalar "b"). split; [reflexivity|]. split; [constructor|reflexivity].
  - exists t. eexists. split; [exact H1|]. split; [exact H2|]. split; [reflexivity|]. split; [discriminate|reflexivity].
Defined.
