(* ===== verification/ConfigTyped.v ===== *)
(** * ConfigTyped: configuration variables keep their types

    Values of all types live in one type, each variable carries the tag of its own: what
    the code gets from the template parameter is here an invariant of the registry. *)
From S2P Require Import Prelude Text Config.
Open Scope string_scope.
Open Scope Z_scope.

Section typed.
Context {V : Type} `{!EqDecision V} (FromStr : Z → string → option V) (emit : node → string).
Notation Config := (@Config V).
(** Which values a type has; a conversion from text makes values of its type. *)
Context (has_type : Z → V → Prop).
Hypothesis from_typed : ∀ t s v, FromStr t s = Some v → has_type t v.
Implicit Types (c : Config).
#[local] Set Default Proof Using "All".

(** Every variable has a value of its type, and the listeners were called with two values of one type. *)
Definition typed c : Prop :=
  map_Forall (λ _ x, has_type (m_type x) (m_val x)) (s_datas c) ∧ Forall (λ i : Z * V * V, ∃ t, has_type t i.1.2 ∧ has_type t i.2) (calls c).
(** Variables stay, with their types and names; the calls of listeners are never undone. *)
Definition evolves c c' : Prop :=
  (∀ n x, s_datas c !! n = Some x → ∃ x', s_datas c' !! n = Some x' ∧ m_type x' = m_type x ∧ m_name x' = m_name x) ∧ calls c `prefix_of` calls c'.
Lemma evolves_refl c : evolves c c.
Proof. split; [|done]. intros n x Hx. by exists x. Qed.
Lemma evolves_trans c1 c2 c3 : evolves c1 c2 → evolves c2 c3 → evolves c1 c3.
Proof.
  intros [H1 H2] [G1 G2]. split; [|by etransitivity]. intros n x Hx. destruct (H1 n x Hx) as (x' & Hx' & ? & ?).
  destruct (G1 n x' Hx') as (x'' & ? & ? & ?). exists x''. split_and!; congruence.
Qed.
(** An operation that returns with a typed registry that evolved. *)
Definition keeps {A} (m : M Config A) c : Prop := ∃ c' a, m c = Done c' a ∧ typed c' ∧ evolves c c'.
Lemma store_keeps n x x' c : typed c → s_datas c !! n = Some x → m_type x' = m_type x → m_name x' = m_name x → has_type (m_type x') (m_val x') → keeps (store_var n x') c.
Proof.
  intros [Hd Hc] Hx Ht Hn Hv. eexists _, (). split; [done|]. split; [split; [|done]|split; [|done]].
  - by apply map_Forall_insert_2.
  - intros j y Hy. cbn. destruct (decide (j = n)) as [->|Hne]; [|rewrite lookup_insert_ne by done; by exists y].
    rewrite lookup_insert_eq. exists x'. rewrite Hx in Hy. injection Hy as <-. done.
Qed.
Lemma setValue_keeps n v x c : typed c → s_datas c !! n = Some x → has_type (m_type x) v → keeps (setValue n v) c.
Proof.
  intros [Hd Hc] Hx Hv. unfold setValue, keeps. rewrite (bind_done _ _ c c x) by (unfold var_at; by rewrite Hx). destruct (decide (v = m_val x)).
  - exists c, (). split; [done|]. split; [done|apply evolves_refl].
  - rewrite (bind_done _ _ c (notify x v c) ()) by done.
    assert (Hty : typed (notify x v c)).
    { split; [done|]. cbn. apply Forall_app. split; [done|]. apply Forall_fmap, Forall_true. intros i. exists (m_type x). split; [by apply (Hd n x)|done]. }
    destruct (store_keeps n x (with_val v x) (notify x v c) Hty Hx) as (c' & [] & Hr & Ht & [He1 He2]); [done..|]. exists c', (). split; [exact Hr|]. split; [done|].
    split; [exact He1|]. etransitivity; [|exact He2]. cbn. by eexists.
Qed.
Lemma fromString_keeps n s x c : typed c → s_datas c !! n = Some x → keeps (fromString FromStr n s) c.
Proof.
  intros Hty Hx. unfold fromString, keeps. rewrite (bind_done _ _ c c x) by (unfold var_at; by rewrite Hx). destruct (FromStr (m_type x) s) as [v|] eqn:E.
  - destruct (setValue_keeps n v x c Hty Hx) as (c' & [] & Hr & ?); [by eapply from_typed|]. exists c', false. by rewrite (bind_done _ _ _ _ _ Hr).
  - exists c, false. split; [done|]. split; [done|apply evolves_refl].
Qed.
Lemma load_keeps l : ∀ c, typed c → keeps (load_all FromStr emit l) c.
Proof.
  induction l as [|i l IH]; intros c Hty; cbn [load_all]; [exists c, (); split; [done|]; split; [done|apply evolves_refl]|].
  assert (Hone : keeps (load_one FromStr emit i) c).
  { unfold load_one. destruct (is_empty i.1); [exists c, (); split; [done|]; split; [done|apply evolves_refl]|]. unfold keeps. erewrite bind_done; [|done].
    unfold LookupBase. destruct (s_datas c !! lower i.1) as [x|] eqn:Hx; [|exists c, (); split; [done|]; split; [done|apply evolves_refl]].
    destruct (fromString_keeps (lower i.1) (if IsScalar i.2 then scalar i.2 else emit i.2) x c Hty Hx) as (c' & b & Hr & ?).
    exists c', (). by rewrite (bind_done _ _ _ _ _ Hr). }
  destruct Hone as (c1 & [] & Hr & Ht1 & He1). destruct (IH c1 Ht1) as (c2 & [] & Hr2 & Ht2 & He2).
  exists c2, (). rewrite (bind_done _ _ _ _ _ Hr). split; [done|]. split; [done|]. by eapply evolves_trans.
Qed.

(** ** A program with its variables
    Pointers to variables come from the look-ups, with the type that was asked for. *)
Inductive cact :=
  | CCreate (type : Z) (name : string) (default_value : V) (description : string)
  | CSet (type : Z) (name : string) (v : V) | CFromString (type : Z) (name s : string) | CLoad (root : node)
  | CListen (type : Z) (name : string) (cb : Z) | CUnlisten (type : Z) (name : string) (key : Z) | CClear (type : Z) (name : string).
Definition well_typed (a : cact) : Prop := match a with CCreate t _ v _ => has_type t v | CSet t _ v => has_type t v | _ => True end.
(** An act through a pointer; a null pointer is not followed, an exception is caught. *)
Definition through {A} (type : Z) (name : string) (m : string → M Config A) : M Config () := λ c,
  match Lookup type name c with Some n => (m n ;; mret ()) c | None => Done c () end.
Definition catch {A} (m : M Config A) : M Config () := λ c, match m c with Done c _ => Done c () | Raise c _ => Done c () | Undef u => Undef u | NoFuel => NoFuel end.
Definition cperform (a : cact) : M Config () :=
  match a with
  | CCreate t n v d => catch (Lookup_create t n v d)
  | CSet t n v => through t n (λ n, setValue n v)
  | CFromString t n s => through t n (λ n, fromString FromStr n s)
  | CLoad root => LoadFromYaml FromStr emit root
  | CListen t n cb => through t n (λ n, addListener n cb)
  | CUnlisten t n key => through t n (λ n, delListener n key)
  | CClear t n => through t n clearListener
  end.
Fixpoint cperforms (l : list cact) : M Config () := match l with [] => mret () | a :: l => cperform a ;; cperforms l end.

Lemma through_keeps {A} t n (m : string → M Config A) c : typed c → (∀ x, s_datas c !! n = Some x → m_type x = t → keeps (m n) c) → keeps (through t n m) c.
Proof.
  intros Hty Hm. unfold keeps, through, Lookup. destruct (s_datas c !! n) as [x|] eqn:Hx; [destruct (m_type x =? t) eqn:Et|];
    [|exists c, (); split; [done|]; split; [done|apply evolves_refl]..].
  destruct (Hm x eq_refl) as (c' & a & Hr & ?); [lia|]. exists c', (). by rewrite (bind_done _ _ _ _ _ Hr).
Qed.
Lemma cperform_keeps a c : typed c → well_typed a → keeps (cperform a) c.
Proof.
  intros Hty Ha. pose proof Hty as [Hd Hc]. destruct a as [t n v d|t n v|t n s|root|t n cb|t n key|t n]; cbn [cperform well_typed] in *.
  - unfold keeps, catch, Lookup_create. erewrite bind_done; [|done]. destruct (s_datas c !! n) as [x|] eqn:Hx.
    { exists c, (). split; [done|]. split; [done|apply evolves_refl]. }
    destruct (negb (valid_name n)); [exists c, (); split; [done|]; split; [done|apply evolves_refl]|].
    eexists _, (). split; [reflexivity|]. split; [split; [by apply map_Forall_insert_2|done]|]. split; [|done].
    intros j y Hy. exists y. cbn. rewrite lookup_insert_ne by congruence. done.
  - apply through_keeps; [done|]. intros x Hx <-. by eapply setValue_keeps.
  - apply through_keeps; [done|]. intros x Hx _. by eapply fromString_keeps.
  - by apply load_keeps.
  - apply through_keeps; [done|]. intros x Hx _. unfold addListener, keeps. rewrite (bind_done _ _ c c x) by (unfold var_at; by rewrite Hx).
    erewrite bind_done; [|done]. set (id := u64 _). set (c1 := mkConfig (s_datas c) (<[m_type x := id]> (s_fun_id c)) (calls c)).
    rewrite (bind_done _ _ c c1 ()) by done.
    destruct (store_keeps n x (with_cbs (filter (λ i : Z * Z, i.1 < id) (m_cbs x) ++ [(id, cb)] ++ filter (λ i : Z * Z, id < i.1) (m_cbs x))%list x) c1)
      as (c' & [] & Hr & ?); [done|done|done|done|by apply (Hd n x)|]. exists c', id. by rewrite (bind_done _ _ _ _ _ Hr).
  - apply through_keeps; [done|]. intros x Hx _. unfold delListener, keeps. rewrite (bind_done _ _ c c x) by (unfold var_at; by rewrite Hx).
    apply (store_keeps n x); try done. by apply (Hd n x).
  - apply through_keeps; [done|]. intros x Hx _. unfold clearListener, keeps. rewrite (bind_done _ _ c c x) by (unfold var_at; by rewrite Hx).
    apply (store_keeps n x); try done. by apply (Hd n x).
Qed.
(** C30: Configuration variables keep their types: whatever sequence of creations,
    look-ups, assignments, loads of files and changes of listeners the program makes with
    values of the types it names, every operation returns, each variable holds a value of
    the type it was created with, a look-up gives a pointer only for that type, no variable
    disappears, changes its type or its name, and listeners are called with two values of
    one type. *)
Theorem config_types_sound acts c : typed c → Forall well_typed acts → ∃ c', cperforms acts c = Done c' () ∧ typed c' ∧ evolves c c' ∧
  ∀ t n, is_Some (Lookup t n c') ↔ ∃ x, s_datas c' !! n = Some x ∧ m_type x = t ∧ has_type t (m_val x).
Proof.
  intros Hty Hacts. assert (Hrun : ∃ c', cperforms acts c = Done c' () ∧ typed c' ∧ evolves c c').
  { revert c Hty. induction Hacts as [|a acts Ha _ IH]; intros c Hty; cbn [cperforms]; [exists c; split; [done|]; split; [done|apply evolves_refl]|].
    destruct (cperform_keeps a c Hty Ha) as (c1 & [] & Hr & Ht1 & He1). destruct (IH c1 Ht1) as (c2 & Hr2 & Ht2 & He2).
    exists c2. rewrite (bind_done _ _ _ _ _ Hr). split; [done|]. split; [done|]. by eapply evolves_trans. }
  destruct Hrun as (c' & Hr & Hty' & He). exists c'. split; [done|]. split; [done|]. split; [done|]. destruct Hty' as [Hd _]. intros t n. unfold Lookup.
  destruct (s_datas c' !! n) as [x|] eqn:Hx.
  - destruct (m_type x =? t) eqn:Et; (split; [intros [? ?]|intros (y & [= <-] & Hy & ?)]); try done; [|lia].
    exists x. split; [done|]. assert (m_type x = t) by lia. split; [done|]. subst t. by apply (Hd n x).
  - split; [by intros [? ?]|by intros (? & ? & _)].
Qed.
End typed.

(** Numbers and texts: type 1 has the even values, type 2 the odd ones. *)
Lemma config_types_sound_witness :
  let FromStr t (s : string) := if t =? 1 then Some (2 * str_len s) else Some (2 * str_len s + 1) in
  let acts := [CCreate 1 "tcp.timeout" 10 ""; CSet 1 "tcp.timeout" 20; CSet 2 "tcp.timeout" 7; CCreate 2 "tcp.timeout" 7 ""; CListen 1 "tcp.timeout" 5;
    CLoad (Map [(Scalar "tcp", Map [(Scalar "timeout", Scalar "abc")])])] in
  ∃ c', cperforms FromStr scalar acts (mkConfig ∅ ∅ []) = Done c' () ∧ (∃ x, s_datas c' !! "tcp.timeout" = Some x ∧ m_type x = 1 ∧ m_val x = 6) ∧
    calls c' = [(5, 20, 6)] ∧ Lookup 2 "tcp.timeout" c' = None.
Proof.
  intros FromStr acts. destruct (config_types_sound FromStr scalar (λ t v, v mod 2 = if t =? 1 then 0 else 1)) with (acts := acts) (c := mkConfig (V := Z) ∅ ∅ [])
    as (c' & H1 & _ & _ & H2).
  - intros t s v. unfold FromStr. destruct (t =? 1); intros [= <-]; [by rewrite Z.mul_comm, Z_mod_mult|].
    rewrite Z.add_comm, Z.mul_comm, Z_mod_plus_full. done.
  - split; [apply map_Forall_empty|constructor].
  - repeat constructor.
  - exists c'. split; [exact H1|]. vm_compute in H1. injection H1 as <-. split; [eexists; split; [reflexivity|]; split; reflexivity|]. split; reflexivity.
Defined.
