(* ===== verification/ConfigStatics.v ===== *)
(** * ConfigStatics ([webserve/http/http_parser.cc], [webserve/hook.cc]): statics that follow the configuration

    Some values are read often: the program keeps them in static variables, set from
    configuration variables when it is loaded and kept up to date by listeners. The statics are the values
    of the configuration. *)
From S2P Require Import Prelude Text Config ConfigTyped.
Open Scope string_scope.
Open Scope Z_scope.

Section statics.
(** The tags of the types [uint64_t] and [int], and their values among those of all types. *)
Definition type_u64 : Z := 1.
Definition type_int : Z := 2.
Context {V : Type} (num : Z → V) (value : V → Z).

Record statics := mkStatics {
  s_http_request_buffer_size : Z; s_http_request_max_body_size : Z;
  s_http_response_buffer_size : Z; s_http_response_max_body_size : Z; s_connect_timeout : Z
}.
(** Their initial values in the files. *)
Definition statics_zero : statics := mkStatics 0 0 0 0 (u64 (-1)).
Definition set_s_http_request_buffer_size v s := mkStatics v (s_http_request_max_body_size s) (s_http_response_buffer_size s) (s_http_response_max_body_size s) (s_connect_timeout s).
Definition set_s_http_request_max_body_size v s := mkStatics (s_http_request_buffer_size s) v (s_http_response_buffer_size s) (s_http_response_max_body_size s) (s_connect_timeout s).
Definition set_s_http_response_buffer_size v s := mkStatics (s_http_request_buffer_size s) (s_http_request_max_body_size s) v (s_http_response_max_body_size s) (s_connect_timeout s).
Definition set_s_http_response_max_body_size v s := mkStatics (s_http_request_buffer_size s) (s_http_request_max_body_size s) (s_http_response_buffer_size s) v (s_connect_timeout s).
Definition set_s_connect_timeout v s := mkStatics (s_http_request_buffer_size s) (s_http_request_max_body_size s) (s_http_response_buffer_size s) (s_http_response_max_body_size s) v.

(** The configuration variables. *)
Definition g_http_request_buffer_size : M (@Config V) (option string) := Lookup_create type_u64 "http.request.buffer_size" (num (4 * 1024)) "http request buffer size".
Definition g_http_request_max_body_size : M (@Config V) (option string) := Lookup_create type_u64 "http.request.max_body_size" (num (64 * 1024 * 1024)) "http request max body size".
Definition g_http_response_buffer_size : M (@Config V) (option string) := Lookup_create type_u64 "http.response.buffer_size" (num (4 * 1024)) "http response buffer size".
Definition g_http_response_max_body_size : M (@Config V) (option string) := Lookup_create type_u64 "http.response.max_body_size" (num (64 * 1024 * 1024)) "http response max body size".
Definition g_tcp_connect_timeout : M (@Config V) (option string) := Lookup_create type_int "tcp.connect.timeout" (num 5000) "tcp connect timeout".

(** What the listeners do, by their numbers; an [int] becomes a [uint64_t]. *)
Definition run_listener (s : statics) (i : Z * V * V) : statics :=
  let nv := value i.2 in
  let cb := i.1.1 in
  if cb =? 1 then set_s_http_request_buffer_size nv s
  else if cb =? 2 then set_s_http_request_max_body_size nv s
  else if cb =? 3 then set_s_http_response_buffer_size nv s
  else if cb =? 4 then set_s_http_response_max_body_size nv s
  else if cb =? 5 then set_s_connect_timeout (u64 nv) s
  else s.
(** The statics after the listeners that a run of the configuration has called. *)
Definition statics_after (s : statics) (l : list (Z * V * V)) : statics := foldl run_listener s l.

(** A look-up gives a pointer that is followed. *)
Definition pointer (m : M (@Config V) (option string)) : M (@Config V) string :=
  p ← m; match p with Some n => mret n | None => λ _, Undef NullDeref end.
(** The objects [_RequestSizeIniter] and [_HookIniter], behind the variables. *)
Definition RequestSizeIniter (p1 p2 p3 p4 : string) (s : statics) : M (@Config V) statics :=
  v1 ← getValue p1; v2 ← getValue p2; v3 ← getValue p3; v4 ← getValue p4;
  addListener p1 1 ;; addListener p2 2 ;; addListener p3 3 ;; addListener p4 4 ;;
  mret (set_s_http_response_max_body_size (value v4) (set_s_http_response_buffer_size (value v3)
    (set_s_http_request_max_body_size (value v2) (set_s_http_request_buffer_size (value v1) s)))).
Definition HookIniter (p : string) (s : statics) : M (@Config V) statics :=
  v ← getValue p;
  addListener p 5 ;;
  mret (set_s_connect_timeout (u64 (value v)) s).
Definition load_http_parser (s : statics) : M (@Config V) statics :=
  p1 ← pointer g_http_request_buffer_size; p2 ← pointer g_http_request_max_body_size;
  p3 ← pointer g_http_response_buffer_size; p4 ← pointer g_http_response_max_body_size;
  RequestSizeIniter p1 p2 p3 p4 s.
Definition load_hook (s : statics) : M (@Config V) statics :=
  p ← pointer g_tcp_connect_timeout; HookIniter p s.
(** Both files, in either order. *)
Definition load (hook_first : bool) : M (@Config V) statics :=
  if hook_first then s ← load_hook statics_zero; load_http_parser s else s ← load_http_parser statics_zero; load_hook s.

Definition GetHttpRequestBufferSize (s : statics) : Z := s_http_request_buffer_size s.
Definition GetHttpRequestMaxBodySize (s : statics) : Z := s_http_request_max_body_size s.
Definition GetHttpResponseBufferSize (s : statics) : Z := s_http_response_buffer_size s.
Definition GetHttpResponseMaxBodySize (s : statics) : Z := s_http_response_max_body_size s.
End statics.

Lemma filter_keep {A} (P : A → Prop) `{!∀ x, Decision (P x)} (l : list A) : (∀ x, x ∈ l → P x) → filter P l = l.
Proof.
  induction l as [|x l IH]; intros Hl; [done|]. rewrite filter_cons_True by (apply Hl; by left). f_equal. apply IH. intros y Hy. apply Hl. by right.
Qed.
Lemma filter_drop {A} (P : A → Prop) `{!∀ x, Decision (P x)} (l : list A) : (∀ x, x ∈ l → ¬ P x) → filter P l = [].
Proof.
  induction l as [|x l IH]; intros Hl; [done|]. rewrite filter_cons_False by (apply Hl; by left). apply IH. intros y Hy. apply Hl. by right.
Qed.

(** ** A value that a listener copies *)
Section follows.
Context {V : Type} `{!EqDecision V} (FromStr : Z → string → option V) (emit : node → string).
Notation Config := (@Config V).
Implicit Types (c : Config).

(** The new value of the last call of a listener. *)
Definition last_new (cb : Z) (v0 : V) (l : list (Z * V * V)) : V := foldl (λ v i, if i.1.1 =? cb then i.2 else v) v0 l.
Lemma last_new_app cb v0 l1 l2 : last_new cb v0 (l1 ++ l2) = last_new cb (last_new cb v0 l1) l2.
Proof. apply foldl_app. Qed.
Lemma last_new_notify cb v0 (old new : V) (l : list (Z * Z)) :
  last_new cb v0 ((λ i : Z * Z, (i.2, old, new)) <$> l) = if decide (cb ∈ l.*2) then new else v0.
Proof.
  revert v0. induction l as [|[id cb'] l IH]; intros v0; [done|]. change (last_new cb v0 _) with (last_new cb (if cb' =? cb then new else v0) ((λ i : Z * Z, (i.2, old, new)) <$> l)).
  rewrite IH. cbn [fmap list_fmap snd]. destruct (decide (cb ∈ l.*2)) as [Hin|Hin]; [by rewrite decide_True by (by right)|].
  destruct (cb' =? cb) eqn:E; [rewrite decide_True by (apply elem_of_cons; left; lia); done|]. rewrite decide_False; [done|]. intros [->|?]%elem_of_cons; [lia|done].
Qed.

Context (cb : Z) (name : string).
(** The listener [cb] is registered on the variable and nowhere else, and what it was told
    last is the value the variable has. *)
Definition follows (v0 : V) c : Prop := ∃ x, s_datas c !! name = Some x ∧ last_new cb v0 (calls c) = m_val x ∧ cb ∈ (m_cbs x).*2 ∧
  ∀ n y, s_datas c !! n = Some y → n ≠ name → cb ∉ (m_cbs y).*2.
(** The identifiers given so far are below the counters, which have room for [k] more. *)
Definition ids_ok (k : Z) c : Prop :=
  (∀ n y i, s_datas c !! n = Some y → i ∈ m_cbs y → i.1 ≤ default 0 (s_fun_id c !! m_type y)) ∧
  ∀ t, 0 ≤ default 0 (s_fun_id c !! t) < 2 ^ 64 - k.
(** Acts of the rest of the program: they leave this listener and its variable's listeners. *)
Definition leaves (a : @cact V) : Prop :=
  match a with CListen _ _ cb' => cb' ≠ cb | CUnlisten _ n _ | CClear _ n => n ≠ name | _ => True end.
Definition listeners c (n : string) : option (Z * list (Z * Z)) := (λ x, (m_type x, m_cbs x)) <$> s_datas c !! n.
(** What does not touch the listeners and keeps the copy up to date. *)
Definition follows_same c c' : Prop := s_fun_id c' = s_fun_id c ∧ (∀ n, listeners c' n = listeners c n) ∧ ∀ v0, follows v0 c → follows v0 c'.
Lemma same_refl c : follows_same c c.
Proof. by split. Qed.
Lemma same_trans c1 c2 c3 : follows_same c1 c2 → follows_same c2 c3 → follows_same c1 c3.
Proof. intros (H1 & H2 & H3) (G1 & G2 & G3). split_and!; [congruence|intros n; by rewrite G2|auto]. Qed.
Lemma ids_same k k' c c' : s_fun_id c' = s_fun_id c → (∀ n, listeners c' n = listeners c n) → k' ≤ k → ids_ok k c → ids_ok k' c'.
Proof.
  intros Hf Hl Hk [H1 H2]. unfold ids_ok. rewrite Hf. split; [|intros t; specialize (H2 t); lia]. intros n y i Hy Hi. specialize (Hl n). unfold listeners in Hl. rewrite Hy in Hl.
  destruct (s_datas c !! n) as [x|] eqn:Hx; [|done]. injection Hl as Ht Hc. rewrite Ht. apply (H1 n x i Hx). by rewrite <-Hc.
Qed.

Lemma setValue_same n v x c : s_datas c !! n = Some x → ∃ c', setValue n v c = Done c' () ∧ follows_same c c'.
Proof.
  intros Hx. unfold setValue. rewrite (bind_done _ _ c c x) by (unfold var_at; by rewrite Hx).
  destruct (decide (v = m_val x)); [by exists c|]. rewrite (bind_done _ _ c (notify x v c) ()) by done.
  eexists. split; [reflexivity|]. split; [done|]. unfold listeners. cbn [s_datas notify set_datas]. split.
  - intros j. destruct (decide (j = n)) as [->|]; [by rewrite lookup_insert_eq, Hx|by rewrite lookup_insert_ne].
  - intros v0 (y & Hy & Hlast & Hin & Hno). unfold follows. cbn [s_datas calls notify set_datas]. rewrite last_new_app, last_new_notify, Hlast.
    destruct (decide (name = n)) as [<-|Hne].
    + rewrite Hx in Hy. injection Hy as <-. rewrite lookup_insert_eq, decide_True by done. eexists. split; [done|]. split; [done|]. split; [done|].
      intros j z Hz Hj. rewrite lookup_insert_ne in Hz by done. by apply (Hno j z).
    + rewrite lookup_insert_ne, decide_False by (congruence || by apply (Hno n x)). exists y. split; [done|]. split; [done|]. split; [done|].
      intros j z. destruct (decide (j = n)) as [->|]; [|rewrite lookup_insert_ne by done; apply Hno]. rewrite lookup_insert_eq. intros [= <-]. by apply (Hno n x).
Qed.
Lemma fromString_same n s x c : s_datas c !! n = Some x → ∃ c' b, fromString FromStr n s c = Done c' b ∧ follows_same c c'.
Proof.
  intros Hx. unfold fromString. rewrite (bind_done _ _ c c x) by (unfold var_at; by rewrite Hx). destruct (FromStr (m_type x) s) as [v|].
  - destruct (setValue_same n v x c Hx) as (c' & Hr & ?). exists c', false. by rewrite (bind_done _ _ _ _ _ Hr).
  - exists c, false. split; [done|apply same_refl].
Qed.
Lemma load_same l : ∀ c, ∃ c', load_all FromStr emit l c = Done c' () ∧ follows_same c c'.
Proof.
  induction l as [|i l IH]; intros c; cbn [load_all]; [exists c; split; [done|apply same_refl]|].
  assert (∃ c', load_one FromStr emit i c = Done c' () ∧ follows_same c c') as (c1 & Hr1 & Hs1).
  { unfold load_one. destruct (is_empty i.1); [exists c; split; [done|apply same_refl]|]. erewrite bind_done; [|done]. unfold LookupBase.
    destruct (s_datas c !! lower i.1) as [x|] eqn:Hx; [|exists c; split; [done|apply same_refl]].
    destruct (fromString_same (lower i.1) (if IsScalar i.2 then scalar i.2 else emit i.2) x c Hx) as (c' & b & Hr & ?). exists c'. by rewrite (bind_done _ _ _ _ _ Hr). }
  destruct (IH c1) as (c2 & Hr2 & Hs2). exists c2. rewrite (bind_done _ _ _ _ _ Hr1). split; [done|]. by eapply same_trans.
Qed.

(** A variable is replaced by one with the same value, type and, for [name], the listener. *)
Lemma store_follows n x x' v0 c c1 : s_datas c !! n = Some x → m_val x' = m_val x → (n = name → cb ∈ (m_cbs x').*2) → (n ≠ name → cb ∉ (m_cbs x').*2) →
  s_datas c1 = <[n := x']> (s_datas c) → calls c1 = calls c → follows v0 c → follows v0 c1.
Proof.
  intros Hx Hv Hyes Hno Hd Hc (y & Hy & Hlast & Hin & Hoth). unfold follows. rewrite Hd, Hc. destruct (decide (n = name)) as [->|Hne].
  - rewrite lookup_insert_eq. exists x'. rewrite Hx in Hy. injection Hy as <-. split; [done|]. split; [congruence|]. split; [auto|].
    intros j z. destruct (decide (j = name)) as [->|]; [done|]. rewrite lookup_insert_ne by done. apply Hoth.
  - rewrite lookup_insert_ne by done. exists y. split; [done|]. split; [done|]. split; [done|].
    intros j z. destruct (decide (j = n)) as [->|]; [|rewrite lookup_insert_ne by done; apply Hoth]. rewrite lookup_insert_eq. intros [= <-]. auto.
Qed.
(** The new identifier is above all that were given. *)
Lemma addListener_step n cb' x k c : s_datas c !! n = Some x → ids_ok (k + 1) c → 0 ≤ k →
  ∃ c' id, addListener n cb' c = Done c' id ∧ ids_ok k c' ∧ calls c' = calls c ∧
    s_datas c' = <[n := with_cbs (m_cbs x ++ [(id, cb')]) x]> (s_datas c).
Proof.
  intros Hx [H1 H2] Hk. unfold addListener. rewrite (bind_done _ _ c c x) by (unfold var_at; by rewrite Hx). erewrite bind_done; [|done].
  pose proof (H2 (m_type x)) as Hb. rewrite u64_small by lia. set (id := _ + 1).
  assert (Hf1 : filter (λ i : Z * Z, i.1 < id) (m_cbs x) = m_cbs x).
  { apply filter_keep. intros i Hi. specialize (H1 n x i Hx Hi). unfold id. lia. }
  assert (Hf2 : filter (λ i : Z * Z, id < i.1) (m_cbs x) = []).
  { apply filter_drop. intros i Hi. specialize (H1 n x i Hx Hi). unfold id. lia. }
  rewrite Hf1, Hf2. eexists _, id. split; [reflexivity|]. split; [|by split].
  assert (Hcount : ∀ t, default 0 (<[m_type x := id]> (s_fun_id c) !! t) = if decide (t = m_type x) then id else default 0 (s_fun_id c !! t)).
  { intros t. case_decide as E; [subst t; by rewrite lookup_insert_eq|by rewrite lookup_insert_ne]. }
  split; cbn [s_datas s_fun_id set_datas].
  - intros j y i Hy Hi. rewrite Hcount. destruct (decide (j = n)) as [->|Hne].
    + rewrite lookup_insert_eq in Hy. injection Hy as <-. cbn [m_type with_cbs]. rewrite decide_True by done. cbn [m_cbs with_cbs] in Hi.
      apply elem_of_app in Hi as [Hi| ->%list_elem_of_singleton]; [|done]. specialize (H1 n x i Hx Hi). unfold id. lia.
    + rewrite lookup_insert_ne in Hy by done. specialize (H1 j y i Hy Hi). case_decide as E; [|done]. rewrite E in H1. unfold id. lia.
  - intros t. rewrite Hcount. specialize (H2 t). case_decide; unfold id; lia.
Qed.
(** Fewer listeners on another variable. *)
Lemma fewer_step n x l k c : s_datas c !! n = Some x → n ≠ name → (∀ i, i ∈ l → i ∈ m_cbs x) → 0 ≤ k → ids_ok (k + 1) c →
  ids_ok k (set_datas (<[n := with_cbs l x]> (s_datas c)) c) ∧ ∀ v0, follows v0 c → follows v0 (set_datas (<[n := with_cbs l x]> (s_datas c)) c).
Proof.
  intros Hx Hne Hl Hk [H1 H2]. split; [split|].
  - intros j y i. cbn [s_datas s_fun_id set_datas]. destruct (decide (j = n)) as [->|]; [rewrite lookup_insert_eq|rewrite lookup_insert_ne by done; apply H1].
    intros [= <-] Hi. cbn [m_cbs m_type with_cbs] in *. apply (H1 n x i Hx). by apply Hl.
  - intros t. specialize (H2 t). cbn. lia.
  - intros v0 Hf. pose proof Hf as (y & _ & _ & _ & Hno). apply (store_follows n x (with_cbs l x) v0 c); try done. intros _ Hin. apply (Hno n x Hx Hne).
    apply list_elem_of_fmap in Hin as (i & -> & Hi). apply list_elem_of_fmap. exists i. split; [done|]. by apply Hl.
Qed.
Lemma same_step k c c' : follows_same c c' → 0 ≤ k → ids_ok (k + 1) c → ids_ok k c' ∧ ∀ v0, follows v0 c → follows v0 c'.
Proof. intros (Hf & Hl & Hs) Hk Hids. split; [by apply (ids_same (k + 1) k c c'); [..|lia|]|done]. Qed.
(** What an act through a pointer does, when it is followed. *)
Lemma through_step {A} t n (m : string → M Config A) k c : 0 ≤ k → ids_ok (k + 1) c →
  (∀ x, s_datas c !! n = Some x → ∃ c' a, m n c = Done c' a ∧ ids_ok k c' ∧ ∀ v0, follows v0 c → follows v0 c') →
  ∃ c', through t n m c = Done c' () ∧ ids_ok k c' ∧ ∀ v0, follows v0 c → follows v0 c'.
Proof.
  intros Hk Hids Hm. destruct (same_step k c c (same_refl c) Hk Hids) as [Hids0 Hf0]. unfold through, Lookup.
  destruct (s_datas c !! n) as [x|] eqn:Hx; [destruct (m_type x =? t)|]; [|by exists c..].
  destruct (Hm x eq_refl) as (c' & a & Hr & ?). exists c'. by rewrite (bind_done _ _ _ _ _ Hr).
Qed.
Lemma cperform_follows a k c : leaves a → 0 ≤ k → ids_ok (k + 1) c →
  ∃ c', cperform FromStr emit a c = Done c' () ∧ ids_ok k c' ∧ ∀ v0, follows v0 c → follows v0 c'.
Proof.
  intros Ha Hk Hids. destruct (same_step k c c (same_refl c) Hk Hids) as [Hids0 Hf0].
  destruct a as [t n v d|t n v|t n s|root|t n cb'|t n key|t n]; cbn [cperform leaves] in *.
  - unfold catch, Lookup_create. erewrite bind_done; [|done]. destruct (s_datas c !! n) as [x|] eqn:Hx; [by exists c|].
    destruct (negb (valid_name n)); [by exists c|]. eexists. split; [reflexivity|]. destruct Hids0 as [H1 H2]. split; [split; [|done]|].
    + intros j y i. cbn [s_datas set_datas]. destruct (decide (j = n)) as [->|]; [|rewrite lookup_insert_ne by done; apply H1].
      rewrite lookup_insert_eq. by intros [= <-] []%elem_of_nil.
    + intros v0 (y & Hy & Hlast & Hin & Hno). exists y. cbn [s_datas set_datas]. rewrite lookup_insert_ne by congruence. split_and!; try done.
      intros j z. destruct (decide (j = n)) as [->|]; [|rewrite lookup_insert_ne by done; apply Hno]. rewrite lookup_insert_eq. intros [= <-] _. by intros []%elem_of_nil.
  - apply through_step; [done..|]. intros x Hx. destruct (setValue_same n v x c Hx) as (c' & Hr & Hs). exists c', (). split; [done|]. by apply same_step.
  - apply through_step; [done..|]. intros x Hx. destruct (fromString_same n s x c Hx) as (c' & b & Hr & Hs). exists c', b. split; [done|]. by apply same_step.
  - destruct (load_same (ListAllMember "" root) c) as (c' & Hr & Hs). exists c'. split; [done|]. by apply same_step.
  - apply through_step; [done..|]. intros x Hx. destruct (addListener_step n cb' x k c Hx Hids Hk) as (c' & id & Hr & Hi & Hc & Hd). exists c', id. split; [done|].
    split; [done|]. intros v0 Hf. pose proof Hf as (y & Hy & _ & Hin & Hno). refine (store_follows n x (with_cbs (m_cbs x ++ [(id, cb')]) x) v0 c c' Hx eq_refl _ _ Hd Hc Hf).
    + intros ->. cbn [m_cbs with_cbs]. rewrite fmap_app. apply elem_of_app. left. congruence.
    + intros Hne. cbn [m_cbs with_cbs]. rewrite fmap_app. intros [Hi2| ->%list_elem_of_singleton]%elem_of_app; [by apply (Hno n x)|done].
  - apply through_step; [done..|]. intros x Hx. unfold delListener. rewrite (bind_done _ _ c c x) by (unfold var_at; by rewrite Hx).
    eexists _, (). split; [reflexivity|]. apply fewer_step; try done. intros i [_ Hi]%list_elem_of_filter. done.
  - apply through_step; [done..|]. intros x Hx. unfold clearListener. rewrite (bind_done _ _ c c x) by (unfold var_at; by rewrite Hx).
    eexists _, (). split; [reflexivity|]. apply fewer_step; try done. by intros i []%elem_of_nil.
Qed.
Lemma cperforms_follows acts : ∀ c, Forall leaves acts → ids_ok (zlen acts) c →
  ∃ c', cperforms FromStr emit acts c = Done c' () ∧ ∀ v0, follows v0 c → follows v0 c'.
Proof.
  induction acts as [|a acts IH]; intros c Hl Hids; cbn [cperforms]; [by exists c|]. apply Forall_cons in Hl as [Ha Hl].
  rewrite zlen_cons, Z.add_comm in Hids. destruct (cperform_follows a (zlen acts) c Ha (zlen_nonneg acts) Hids) as (c1 & Hr & Hids1 & Hf).
  destruct (IH c1 Hl Hids1) as (c2 & Hr2 & Hf2). exists c2. rewrite (bind_done _ _ _ _ _ Hr). split; [done|]. auto.
Qed.
End follows.

(** ** The statics of the program *)
Section statics.
Context {V : Type} `{!EqDecision V} (num : Z → V) (value : V → Z).
(** The variables with their listeners and defaults. *)
Definition table : list (string * Z * Z) :=
  [("http.request.buffer_size", 1, 4 * 1024); ("http.request.max_body_size", 2, 64 * 1024 * 1024); ("http.response.buffer_size", 3, 4 * 1024);
   ("http.response.max_body_size", 4, 64 * 1024 * 1024); ("tcp.connect.timeout", 5, 5000)].
(** The registry behind the initialisers. *)
Definition entry (type : Z) (name description : string) (v id cb : Z) : string * @ConfigVar V := (name, mkConfigVar name description type (num v) [(id, cb)]).
Definition initial : list (string * @ConfigVar V) :=
  [entry 1 "http.request.buffer_size" "http request buffer size" (4 * 1024) 1 1;
   entry 1 "http.request.max_body_size" "http request max body size" (64 * 1024 * 1024) 2 2;
   entry 1 "http.response.buffer_size" "http response buffer size" (4 * 1024) 3 3;
   entry 1 "http.response.max_body_size" "http response max body size" (64 * 1024 * 1024) 4 4;
   entry 2 "tcp.connect.timeout" "tcp connect timeout" 5000 1 5].
Definition loaded : @Config V := mkConfig (list_to_map initial) {[ 1 := 4; 2 := 1 ]} [].
Definition statics_loaded : statics :=
  mkStatics (value (num (4 * 1024))) (value (num (64 * 1024 * 1024))) (value (num (4 * 1024))) (value (num (64 * 1024 * 1024))) (u64 (value (num 5000))).
Lemma create_step t n v d (m : gmap string (@ConfigVar V)) f l : m !! n = None → valid_name n = true →
  pointer (Lookup_create t n v d) (mkConfig m f l) = Done (mkConfig (<[n := ConfigVar_new t n v d]> m) f l) n.
Proof. intros Hn Hv. unfold pointer, Lookup_create, mbind, M_bind. cbn. rewrite Hn, Hv. done. Qed.
Lemma getValue_step n x (m : gmap string (@ConfigVar V)) f l : m !! n = Some x → getValue n (mkConfig m f l) = Done (mkConfig m f l) (m_val x).
Proof. intros Hn. unfold getValue, var_at, mbind, M_bind. cbn. by rewrite Hn. Qed.
Lemma listen_step n cb x (m : gmap string (@ConfigVar V)) f l id : m !! n = Some x → m_cbs x = [] → u64 (default 0 (f !! m_type x) + 1) = id →
  addListener n cb (mkConfig m f l) = Done (mkConfig (<[n := with_cbs [(id, cb)] x]> m) (<[m_type x := id]> f) l) id.
Proof. intros Hn Hx <-. unfold addListener, var_at, mbind, M_bind. cbn. rewrite Hn. cbn. rewrite Hx. done. Qed.
Ltac look := rewrite ?lookup_insert_ne by discriminate; first [apply lookup_insert_eq | apply lookup_empty].
Ltac step := erewrite bind_done; [|first [apply create_step; [look|reflexivity] | apply getValue_step; look | apply listen_step; [look|reflexivity|vm_compute; reflexivity]]].
Ltac look_both := repeat first [rewrite lookup_insert_eq | rewrite lookup_insert_ne by discriminate]; reflexivity.
Lemma load_ok hook_first : load num value hook_first (mkConfig ∅ ∅ []) = Done loaded statics_loaded.
Proof.
  assert (Hext : ∀ m f (s : statics), m = s_datas loaded → f = s_fun_id loaded → Done (mkConfig m f []) s = Done loaded s) by (by intros m f s -> ->).
  destruct hook_first; unfold load, load_hook, load_http_parser, HookIniter, RequestSizeIniter;
    (erewrite bind_done; [|repeat step; reflexivity]); repeat step;
    (apply Hext; [|vm_compute; reflexivity]); apply map_eq; intros j; unfold loaded, initial, entry; cbn [s_datas list_to_map foldr fst snd uncurry];
    repeat match goal with
      | H : j ≠ ?k |- context [<[?k := _]> _ !! j] => rewrite (lookup_insert_ne _ k j) by congruence
      | |- context [<[?k := _]> _ !! j] => destruct (decide (j = k)) as [->|]; [look_both|]
      end; done.
Qed.

Lemma loaded_in n y : s_datas loaded !! n = Some y → (n, y) ∈ initial.
Proof. apply elem_of_list_to_map_2. Qed.
Lemma loaded_follows name cb d : (name, cb, d) ∈ table → follows cb name (num d) loaded.
Proof.
  intros Hin.
  assert (∃ type desc id, entry type name desc d id cb ∈ initial) as (type & desc & id & Hi).
  { repeat (apply elem_of_cons in Hin as [[= -> -> ->]|Hin]; [eexists _, _, _; repeat (apply elem_of_cons; first [left; reflexivity|right])|]).
    by apply elem_of_nil in Hin. }
  eexists. split; [apply elem_of_list_to_map_1; [|exact Hi]; cbn; repeat constructor; set_solver|]. split; [done|]. split; [by left|].
  intros n y Hy%loaded_in Hne. clear type desc id Hi.
  repeat (apply elem_of_cons in Hin as [[= -> -> ->]|Hin]; [
    repeat (apply elem_of_cons in Hy as [[= -> ->]|Hy]; [first [done|cbn; by intros ?%list_elem_of_singleton]|]); by apply elem_of_nil in Hy|]).
  by apply elem_of_nil in Hin.
Qed.
Lemma loaded_ids k : 0 ≤ k < 2 ^ 63 → ids_ok k loaded.
Proof.
  intros Hk. split.
  - intros n y i Hy%loaded_in Hi. repeat (apply elem_of_cons in Hy as [[= -> ->]|Hy]; [cbn in Hi; apply list_elem_of_singleton in Hi as ->; vm_compute; discriminate|]).
    by apply elem_of_nil in Hy.
  - intros t. cbn [s_fun_id loaded]. destruct (decide (t = 1)) as [->|]; [|destruct (decide (t = 2)) as [->|]].
    + rewrite lookup_insert_eq. cbn. lia.
    + rewrite lookup_insert_ne, lookup_singleton_eq by done. cbn. lia.
    + rewrite lookup_insert_ne, lookup_singleton_ne by done. cbn. lia.
Qed.
Lemma statics_after_last l s v1 v2 v3 v4 v5 :
  s = mkStatics (value v1) (value v2) (value v3) (value v4) (u64 (value v5)) →
  statics_after value s l = mkStatics (value (last_new 1 v1 l)) (value (last_new 2 v2 l)) (value (last_new 3 v3 l)) (value (last_new 4 v4 l)) (u64 (value (last_new 5 v5 l))).
Proof.
  revert s v1 v2 v3 v4 v5. induction l as [|[[cb old] new] l IH]; intros s v1 v2 v3 v4 v5 ->; [done|]. cbn [statics_after foldl last_new fst snd].
  apply IH. unfold run_listener. cbn [fst snd].
  repeat match goal with |- context [cb =? ?k] => destruct (cb =? k) eqn:?; try lia end; reflexivity.
Qed.
Context (FromStr : Z → string → option V) (emit : node → string).
(** C31: The statics of the HTTP parsers and of the hooked calls are the values of the
    configuration: after the files are loaded in either order, and after any sequence of
    look-ups, assignments, loads of YAML and changes of other listeners, each static holds
    the value its variable has then. *)
Theorem config_statics_follow hook_first acts : Forall (λ a, Forall (λ p, leaves p.1.2 p.1.1 a) table) acts → zlen acts < 2 ^ 63 →
  ∃ c1 s1, load num value hook_first (mkConfig ∅ ∅ []) = Done c1 s1 ∧ ∃ c2, cperforms FromStr emit acts c1 = Done c2 () ∧
    let s := statics_after value s1 (calls c2) in
    let holds name n := ∃ x, s_datas c2 !! name = Some x ∧ n = value (m_val x) in
    holds "http.request.buffer_size" (GetHttpRequestBufferSize s) ∧ holds "http.request.max_body_size" (GetHttpRequestMaxBodySize s) ∧
    holds "http.response.buffer_size" (GetHttpResponseBufferSize s) ∧ holds "http.response.max_body_size" (GetHttpResponseMaxBodySize s) ∧
    ∃ x, s_datas c2 !! "tcp.connect.timeout" = Some x ∧ s_connect_timeout s = u64 (value (m_val x)).
Proof.
  intros Hacts Hlen. exists loaded, statics_loaded. split; [apply load_ok|]. pose proof (zlen_nonneg acts).
  assert (Hf : ∀ name cb d, (name, cb, d) ∈ table → ∃ c2, cperforms FromStr emit acts loaded = Done c2 () ∧ follows cb name (num d) c2).
  { intros name cb d Hin. destruct (cperforms_follows FromStr emit cb name acts loaded) as (c2 & Hr & Hgo).
    - eapply Forall_impl; [exact Hacts|]. intros a Ha. rewrite Forall_forall in Ha. by apply (Ha (name, cb, d)).
    - by apply loaded_ids.
    - exists c2. split; [done|]. by apply Hgo, loaded_follows. }
  destruct (Hf "tcp.connect.timeout" 5 5000) as (c2 & Hr & _); [set_solver|]. exists c2. split; [done|].
  assert (Hv : ∀ name cb d, (name, cb, d) ∈ table → ∃ x, s_datas c2 !! name = Some x ∧ last_new cb (num d) (calls c2) = m_val x).
  { intros name cb d Hin. destruct (Hf name cb d Hin) as (c2' & Hr' & x & Hx & Hlast & _). rewrite Hr in Hr'. injection Hr' as <-. by exists x. }
  rewrite (statics_after_last (calls c2) statics_loaded (num (4 * 1024)) (num (64 * 1024 * 1024)) (num (4 * 1024)) (num (64 * 1024 * 1024)) (num 5000) eq_refl).
  split_and!; [destruct (Hv "http.request.buffer_size" 1 (4 * 1024)) as (x & Hx & Hl)|destruct (Hv "http.request.max_body_size" 2 (64 * 1024 * 1024)) as (x & Hx & Hl)
    |destruct (Hv "http.response.buffer_size" 3 (4 * 1024)) as (x & Hx & Hl)|destruct (Hv "http.response.max_body_size" 4 (64 * 1024 * 1024)) as (x & Hx & Hl)
    |destruct (Hv "tcp.connect.timeout" 5 5000) as (x & Hx & Hl)]; try set_solver; exists x; rewrite <-Hl; by split.
Qed.
End statics.

(** Numbers are their own values; a text is read as its length. *)
Lemma config_statics_follow_witness :
  let FromStr (t : Z) (s : string) := Some (str_len s) in
  let acts := [CSet 1 "http.request.buffer_size" 100; CCreate 2 "tcp.connect.timeout" 7 ""; CListen 2 "tcp.connect.timeout" 9; CSet 2 "tcp.connect.timeout" (-1);
    CLoad (Map [(Scalar "http", Map [(Scalar "response", Map [(Scalar "max_body_size", Scalar "abc")])])])] in
  ∃ c1 s1 c2, load (λ n, n) (λ n, n) true (mkConfig ∅ ∅ []) = Done c1 s1 ∧ cperforms FromStr scalar acts c1 = Done c2 () ∧
    statics_after (λ n, n) s1 (calls c2) = mkStatics 100 (64 * 1024 * 1024) (4 * 1024) 3 (2 ^ 64 - 1).
Proof.
  intros FromStr acts. destruct (config_statics_follow (λ n : Z, n) (λ n, n) FromStr scalar true acts) as (c1 & s1 & Hl & c2 & Hr & _).
  - repeat constructor; discriminate.
  - vm_compute. reflexivity.
  - exists c1, s1, c2. split; [exact Hl|]. split; [exact Hr|]. rewrite load_ok in Hl. injection Hl as <- <-. vm_compute in Hr. injection Hr as <-. vm_compute. reflexivity.
Defined.

(** ** Two threads
    [setValue] compares and calls the listeners under the read lock, gives it back, and
    assigns under the write lock. *)
Section race.
Context {V : Type} `{!EqDecision V}.
Definition setValue_call (name : string) (v : V) : M (@Config V) bool :=
  x ← var_at name; if decide (v = m_val x) then mret false else modify (notify x v) ;; mret true.
Definition setValue_assign (name : string) (v : V) : M (@Config V) () := x ← var_at name; store_var name (with_val v x).
Lemma setValue_halves name v c : setValue name v c = (changed ← setValue_call name v; if (changed : bool) then setValue_assign name v else mret ()) c.
Proof.
  unfold setValue, setValue_call, setValue_assign, mbind, M_bind, var_at. destruct (s_datas c !! name) as [x|] eqn:Hx; [|done].
  destruct (decide (v = m_val x)); [done|]. cbn. by rewrite Hx.
Qed.
End race.
(** The assignments may come in the other order than the calls: the static of the buffer
    size is then 20 for good, and the variable is 10. *)
Example setValue_race :
  let name := "http.request.buffer_size" in
  match (setValue_call name 10 ;; setValue_call name 20 ;; setValue_assign name 20 ;; setValue_assign name 10) (loaded (λ n, n)) with
  | Done c _ => m_val <$> s_datas c !! name = Some 10 ∧ GetHttpRequestBufferSize (statics_after (λ n, n) (statics_loaded (λ n, n) (λ n, n)) (calls c)) = 20
  | _ => False
  end.
Proof. vm_compute. by split. Qed.
