(* ===== verification/Support.v ===== *)
(** * Support ([webserve/util.cc], [scheduler.cc], [iomanager.cc], [config.cc], [log.cc]): what the program prints of itself

    The helpers of util.cc - clocks, ids and backtraces - and the operations of the components
    that only report: [Scheduler::dump], the texts of epoll events, [Config::Visit], and the
    log events that are formatted with printf. *)
From stdpp Require Import sorting.
From S2P Require Import Prelude OrderedSet Text Fiber Scheduler Config LexicalCast LogPattern Log.
Open Scope string_scope.
Open Scope Z_scope.

Definition endl : string := String "010" "".

(** ** util.cc: clocks *)
(** [struct timeval], as [gettimeofday] fills it. *)
Record timeval := mk_timeval { tv_sec : Z; tv_usec : Z }.
Definition GetCurrentMS (tv : timeval) : Z := u64 (u64 (u64 (tv_sec tv) * 1000) + u64 (Z.quot (tv_usec tv) 1000)).
(** The first product is one of signed integers. *)
Definition GetCurrentUS {S} (tv : timeval) : M S Z :=
  if (tv_sec tv * 1000 <? - 2 ^ 63) || (2 ^ 63 <=? tv_sec tv * 1000) then undef Overflow
  else mret (u64 (u64 (u64 (tv_sec tv * 1000) * 1000) + u64 (tv_usec tv))).

(** A time of day within the next hundred thousand years. *)
Definition valid_tv (tv : timeval) : Prop := 0 ≤ tv_sec tv < 2 ^ 42 ∧ 0 ≤ tv_usec tv < 1000000.
Definition micros (tv : timeval) : Z := tv_sec tv * 1000000 + tv_usec tv.

(** Both clocks are the time since the epoch; the timers, which use the first, never see it
    go back while the clock of the system does not. *)
Lemma clocks {S} (s : S) tv : valid_tv tv → GetCurrentUS tv s = Done s (micros tv) ∧ GetCurrentMS tv = micros tv / 1000.
Proof.
  intros [Hs Hu]. unfold GetCurrentUS, GetCurrentMS, micros. change (2 ^ 42) with 4398046511104 in Hs.
  assert (H63 : 2 ^ 63 = 9223372036854775808) by reflexivity. assert (H64 : 2 ^ 64 = 18446744073709551616) by reflexivity. split.
  - replace (tv_sec tv * 1000 <? - 2 ^ 63) with false by lia. replace (2 ^ 63 <=? tv_sec tv * 1000) with false by lia. cbn [orb].
    unfold mret, M_ret. f_equal. rewrite (u64_small (tv_sec tv * 1000)), (u64_small (tv_sec tv * 1000 * 1000)), (u64_small (tv_usec tv)), u64_small by lia. lia.
  - assert (Hq : tv_usec tv ÷ 1000 = tv_usec tv / 1000) by (apply Z.quot_div_nonneg; lia).
    assert (0 ≤ tv_usec tv / 1000 < 1000) by (split; [apply Z.div_pos; lia|apply Z.div_lt_upper_bound; lia]).
    rewrite (u64_small (tv_sec tv)), Hq, (u64_small (tv_usec tv / 1000)), (u64_small (tv_sec tv * 1000)), u64_small by lia.
    replace (tv_sec tv * 1000000 + tv_usec tv) with (tv_usec tv + (tv_sec tv * 1000) * 1000) by lia.
    rewrite Z.div_add by lia. lia.
Qed.
Lemma clock_monotone a b : valid_tv a → valid_tv b → micros a ≤ micros b → GetCurrentMS a ≤ GetCurrentMS b.
Proof. intros Ha Hb H. rewrite (proj2 (clocks () a Ha)), (proj2 (clocks () b Hb)). apply Z.div_le_mono; lia. Qed.

(** ** util.cc: ids and backtraces *)
(** [sylar::GetFiberId]: the id of the fiber has 64 bits, the result 32. *)
Definition util_GetFiberId : M env Z := id ← GetFiberId; mret (u32 id).

Section backtrace.
(** [backtrace] with the size of its array, and [backtrace_symbols]; the state is the number
    of blocks that are allocated. *)
Context {frame : Type} (backtrace : Z → list frame) (backtrace_symbols : list frame → option (list string)).
Definition malloc : M Z () := modify (Z.add 1).
Definition free : M Z () := modify (Z.add (-1)).
Definition Backtrace (bt : list string) (size skip : Z) : M Z (list string) :=
  malloc ;;
  let array := backtrace size in
  match backtrace_symbols array with
  | None => mret bt
  | Some strings => malloc ;; free ;; free ;; mret (bt ++ drop (Z.to_nat (u64 skip)) (take (List.length array) strings))%list
  end.
Definition BacktraceToString (size skip : Z) (prefix : string) : M Z string :=
  bt ← Backtrace [] size skip;
  mret (foldr (λ b ss, prefix ++ b ++ endl ++ ss) "" bt).

(** A backtrace that has no symbols leaves its array allocated; otherwise the lines behind the
    first [skip] are printed, and nothing stays behind. *)
Lemma backtrace_blocks size skip prefix n : 0 ≤ skip < 2 ^ 31 →
  match backtrace_symbols (backtrace size) with
  | Some strings => List.length strings = List.length (backtrace size) →
      BacktraceToString size skip prefix n = Done n (foldr (λ b ss, prefix ++ b ++ endl ++ ss) "" (drop (Z.to_nat skip) strings))
  | None => BacktraceToString size skip prefix n = Done (n + 1) ""
  end.
Proof.
  intros Hs. unfold BacktraceToString, Backtrace, mbind, M_bind. cbn. destruct (backtrace_symbols (backtrace size)) as [strings|]; cbn.
  - intros Hl. rewrite u64_small, take_ge by lia. unfold mret, M_ret. f_equal. lia.
  - unfold mret, M_ret. cbn. f_equal. lia.
Qed.
End backtrace.

(** ** scheduler.cc *)
(** The thread ids, with the separator before all but the first. *)
Fixpoint dump_ids (first : bool) (m_threadIds : list Z) : string :=
  match m_threadIds with [] => "" | id :: l => (if first then "" else ", ") ++ dec id ++ dump_ids false l end.
Definition dump (m_name : string) (m_threadIds : list Z) (s : Scheduler) : string :=
  "[Scheduler name=" ++ m_name ++ " size=" ++ dec (m_threadCount s) ++ " active_count=" ++ dec (m_activeThreadCount s) ++
  " idle_count=" ++ dec (m_idleThreadCount s) ++ " stopping=" ++ (if m_stopping s then "1" else "0") ++ " ]" ++ endl ++ "    " ++
  dump_ids true m_threadIds.
(** [t_scheduler], by the address of the scheduler. *)
Definition setThis (this : Z) (t_scheduler : option Z) : option Z := Some this.
Definition Scheduler_GetThis (t_scheduler : option Z) : option Z := t_scheduler.
Definition GetMainFiber (e : env) : option Z := t_scheduler_fiber (tls e).
Definition Scheduler_destroy (this : Z) (s : Scheduler) : M (option Z) () :=
  assert_ (m_stopping s) ;;
  t ← Prelude.get;
  if bool_decide (Scheduler_GetThis t = Some this) then modify (λ _, None) else mret ().

(** ** iomanager.cc *)
Definition show_op (op : Z) : string :=
  if op =? 1 then "EPOLL_CTL_ADD" else if op =? 3 then "EPOLL_CTL_MOD" else if op =? 2 then "EPOLL_CTL_DEL" else dec op.
(** The bits of sys/epoll.h, in the order of the code. *)
Definition epoll_bits : list (string * Z) :=
  [("EPOLLIN", 0x1); ("EPOLLPRI", 0x2); ("EPOLLOUT", 0x4); ("EPOLLRDNORM", 0x40); ("EPOLLRDBAND", 0x80); ("EPOLLWRNORM", 0x100);
   ("EPOLLWRBAND", 0x200); ("EPOLLMSG", 0x400); ("EPOLLERR", 0x8); ("EPOLLHUP", 0x10); ("EPOLLRDHUP", 0x2000);
   ("EPOLLONESHOT", 2 ^ 30); ("EPOLLET", 2 ^ 31)].
Fixpoint show_bits (l : list (string * Z)) (events : Z) (first : bool) : string :=
  match l with
  | [] => ""
  | (name, E) :: l =>
      if negb (Z.land events E =? 0) then (if first then "" else "|") ++ name ++ show_bits l events false
      else show_bits l events first
  end.
Definition show_events (events : Z) : string := if events =? 0 then "0" else show_bits epoll_bits events true.

(** The text is the names of the bits that are set, separated by bars; bits without a name are
    not printed. *)
Definition set_bits (events : Z) : list (string * Z) := filter (λ x : string * Z, Z.land events x.2 ≠ 0) epoll_bits.
Lemma show_bits_concat l events : show_bits l events true = String.concat "|" (filter (λ x : string * Z, Z.land events x.2 ≠ 0) l).*1 ∧
  show_bits l events false = match (filter (λ x : string * Z, Z.land events x.2 ≠ 0) l).*1 with [] => "" | names => "|" ++ String.concat "|" names end.
Proof.
  induction l as [|[name E] l [IH1 IH2]]; [done|]. cbn [show_bits]. rewrite filter_cons. cbn [snd].
  destruct (Z.eqb_spec (Z.land events E) 0) as [Hz|Hnz]; cbn [negb]; [rewrite decide_False by (by intros []); done|].
  rewrite decide_True by done. cbn [fmap list_fmap fst]. rewrite IH2.
  destruct (filter _ l).*1 as [|n ns]; cbn [String.concat]; [|done]. by rewrite !str_app_nil_r.
Qed.
Lemma show_events_names events : events ≠ 0 → show_events events = String.concat "|" (set_bits events).*1.
Proof. intros H. unfold show_events. apply Z.eqb_neq in H as ->. apply show_bits_concat. Qed.

(** ** config.cc *)
Section visit.
Context {V : Type} `{!EqDecision V} {S : Type}.
(** [Config::Visit]: the variables in the order of their names. *)
Fixpoint each_var (cb : @ConfigVar V → M S ()) (l : list (string * @ConfigVar V)) : M S () :=
  match l with [] => mret () | i :: l => cb i.2 ;; each_var cb l end.
Definition Visit (cb : @ConfigVar V → M S ()) (c : @Config V) : M S () := each_var cb (merge_sort key_le (map_to_list (s_datas c))).
End visit.
Lemma each_var_names {V} (l : list (string * @ConfigVar V)) s : each_var (λ x, modify (λ s : list (@ConfigVar V), s ++ [x])%list) l s = Done (s ++ l.*2)%list ().
Proof.
  revert s. induction l as [|i l IH]; intros s; [by rewrite app_nil_r|]. cbn [each_var]. erewrite bind_done by reflexivity. rewrite IH. cbn.
  by rewrite <-app_assoc.
Qed.
(** Every variable is visited once. *)
Lemma visit_all {V} (c : @Config V) : ∃ l, Visit (λ x, modify (λ s : list (@ConfigVar V), s ++ [x])%list) c [] = Done l () ∧ l ≡ₚ (map_to_list (s_datas c)).*2.
Proof. eexists. split; [apply each_var_names|]. cbn. by rewrite merge_sort_Permutation. Qed.

(** ** log.cc *)
(** [LogEvent::LogEvent], [LogEvent::format] with what [vasprintf] gave, or -1, and
    [LogEventWrap]. *)
Definition LogEvent_new (logger : Z) (level : Level) (file : string) (line elapse thread_id fiber_id time : Z) (thread_name : string) : LogEvent :=
  mkLogEvent file line elapse thread_id fiber_id time thread_name "" logger level.
Definition LogEvent_format (text : option string) (e : LogEvent) : LogEvent :=
  match text with
  | Some s => mkLogEvent (m_file e) (m_line e) (m_elapse e) (m_threadId e) (m_fiberId e) (LogPattern.m_time e) (m_threadName e) (m_content e ++ s) (m_logger e) (e_level e)
  | None => e
  end.

Section logging.
Context (strftime : string → Z → string) (openable : string → bool).
(** [SYLAR_LOG_FMT_LEVEL]; the temporary [LogEventWrap] is destroyed at the end. *)
Definition LOG_FMT_LEVEL (logger : Z) (level : Level) (here : LogEvent) (text : option string) : M Logs () :=
  l ← logger_at logger;
  if level_val (l_level l) <=? level_val level then
    let e := LogEvent_new logger level (m_file here) (m_line here) 0 (m_threadId here) (m_fiberId here) (LogPattern.m_time here) (m_threadName here) in
    LogEventWrap_destroy strftime openable (LogEvent_format text e)
  else mret ().
Definition debug (a : Z) : LogEvent → M Logs () := log strftime openable a DEBUG.
Definition info (a : Z) : LogEvent → M Logs () := log strftime openable a INFO.
Definition warn (a : Z) : LogEvent → M Logs () := log strftime openable a WARN.
Definition error (a : Z) : LogEvent → M Logs () := log strftime openable a ERROR.
Definition fatal (a : Z) : LogEvent → M Logs () := log strftime openable a FATAL.

(** The printf style logs what the stream style logs, with the text for content. *)
Lemma fmt_level_eq logger level here text :
  LOG_FMT_LEVEL logger level here text =
  LOG_LEVEL strftime openable logger level (mkLogEvent (m_file here) (m_line here) 0 (m_threadId here) (m_fiberId here)
    (LogPattern.m_time here) (m_threadName here) (default "" text) 0 UNKNOW).
Proof. unfold LOG_FMT_LEVEL, LOG_LEVEL. by destruct text. Qed.
End logging.
Definition LogAppender_getFormatter (a : Z) : M Logs (option LogFormatter) := x ← appender_at a; mret (a_formatter x).
Definition Logger_getFormatter (a : Z) : M Logs (option LogFormatter) := l ← logger_at a; mret (l_formatter l).
Definition LogDefine_isValid (d : LogDefine) : bool := negb (is_empty (name d)).
